(* ===== verification/_CoqProject ===== *)
-Q . S2P
Prelude.v
Utilities.v
Il.v
Message.v
Pool.v
Group.v
GroupInv.v
GroupProps.v
PoolOps.v
Cook.v
Logger.v
Lmdb.v
Db.v
DbProps.v
Buffy.v
Server.v
Midl.v
MidlSort.v
Page.v
PageProps.v
PageMore.v
Tree.v
TreeProps.v
Cursor.v
CursorProps.v
CursorSpec.v
Reads.v
Dump.v
Load.v
ToolProps.v
ToolRound.v
Meta.v
MetaProps.v
Readers.v
Mvcc.v
ReaderProps.v
Flush.v
FlushProps.v
Snap.v
SnapProps.v
Nest.v
NestLists.v
NestProps.v
Alloc.v
FreeDb.v
AllocProps.v
Touch.v
CowPages.v
CowTree.v
CowMem.v
CowStep.v
CowAlloc.v
CowLink.v
CowPath.v
CowWalk.v
CowProps.v
