(* ===== verification/Prelude.v ===== *)
(** * trashdb: a verification development

    trashdb is a key-value server in C: sockets feed client buffers, a scheduler hands
    requests to groups of threads, and a database layer stores them in LMDB, which is
    vendored in src/lib/lmdb.  This library models the program and proves what makes
    each part correct.  Paths below are relative to src/.

    ** Reading guide

    A C value of w bits is a [Z] in its range, and arithmetic that can wrap is written
    with [u16], [u32], [u64].  An array is a [block] (cells that are [None] until
    written) or the list of its bytes.  A call is a [res]: [Ok], a failed assertion,
    undefined behaviour, or [NoFuel].  [NoFuel] is no outcome of the program: a theorem
    that a loop ends says that enough fuel gives [Ok].  Stateful code is in the monad
    [SM], or is a step relation where threads interleave.

    ** The parts

    - Containers.  Il.v: the intrusive lists of include/il.h, as pointer code over a
      heap ([Module Heap]) and as the abstract list ([LL]) the other parts use;
      [Module HeapRefines] proves that the first implements the second.  Message.v:
      the growable buffers of src/message.c.
    - Threads (src/pool.c).  Pool.v: the structs, the queue, the health check and one
      definition for each critical section.  Group.v interleaves the sections of one
      group as a step relation [run]; GroupInv.v has its invariant, GroupProps.v the
      theorems.  PoolOps.v: the operations on the pool of groups.  Cook.v: the
      round-robin scheduler of src/cook.c, on top of [do_work].
    - Services.  Utilities.v: the paths and addresses of src/utilities.c over a file
      system interface [OS] with its laws [OSLaws].  Logger.v: the queue, the thread and
      the lines of src/logger.c.
    - Network.  Buffy.v: the receive and send buffers of src/buffy.c and the read
      callback.  Server.v: the listening sockets of src/server.c.
    - Database layer (src/db.c).  Lmdb.v: the class [LMDB] of the calls db.c makes,
      the documented laws [LMDBLaws], and a reference store [Ref] that satisfies them.
      Db.v: environment, open databases, transactions and pooled readers over that
      class.  DbProps.v: the theorems, for every [LMDB] with the laws.
    - LMDB itself (src/lib/lmdb).  Midl.v: the ID lists of midl.c, and MidlSort.v the
      proof of its sort.  Page.v: the pages of mdb.c as bytes, with the comparison
      functions, the search of a page, and adding, deleting and shrinking nodes;
      PageProps.v and PageMore.v: the theorems.  Tree.v: the cursor, the transaction and
      the lookup of pages, the descent [mdb_page_search], and the set-up of cursors and
      sub-cursors.  TreeProps.v: what a well-formed tree is ([tree], [spine]), the class
      [KeyOrder] of the comparison functions, and where a descent ends.  Cursor.v: the
      moves of a cursor, [mdb_get], [mdb_cursor_get], [mdb_cursor_count].
      CursorProps.v: each move, from one entry to its neighbour.  CursorSpec.v: a cursor
      as a position in a list ([move], [moves]) and the simulation.  Reads.v: the
      theorems on reading, and a tree of two levels in bytes on which they are run.
    - LMDB's file and its readers (mdb.c).  Meta.v: the two meta pages as bytes of the
      file, which is kept twice, as the map shows it ([me_file]) and as the disk has it for
      sure ([me_disk]); opening and creating a file, and the write of a commit, with the
      write-back of the old record when it fails; MetaProps.v: that a commit is atomic.
      Readers.v: the table of readers, dead readers, and the life of
      transactions of several threads and processes as a step relation [run], which cuts
      [mdb_txn_renew0], [mdb_find_oldest] and [mdb_env_write_meta] at their accesses to
      shared memory; the records of a meta page are copied and written word by word.  Mvcc.v: its invariants ([table_ok], [writer_ok],
      [readers_ok], [quiet_ok]) and that snapshots are safe.  ReaderProps.v: the set of processes and
      [mdb_reader_check0].
    - LMDB's writer (mdb.c).  Flush.v: [mdb_page_flush], which writes the dirty pages of a
      commit in runs; FlushProps.v: what the file has afterwards.  Snap.v: where a
      transaction starts, the choice of the meta page and the fields it copies;
      SnapProps.v: pages and meta page together, before, during and after a commit and a
      crash.  Nest.v: the begin, the abort and the commit of a nested transaction, with
      the arrays of page numbers as blocks of memory that the page state points to;
      NestLists.v: its loops as functions on lists; NestProps.v: what they do.
      Alloc.v: [mdb_page_alloc], where new pages get their numbers and memory; FreeDb.v:
      the records of the freeDB and the moves of the cursor that reads them; AllocProps.v:
      which numbers are handed out.  Touch.v: copy on write, [mdb_page_touch] and
      [mdb_cursor_touch].  The files Cow*.v: CowPages.v, CowTree.v and CowMem.v have what a
      copy does to a page, to a tree and to memory, CowStep.v, CowAlloc.v and CowLink.v the
      steps of the code, CowPath.v and CowWalk.v the walk down a path; CowProps.v: the
      entries are kept.
    - The tools of LMDB.  Dump.v: mdb_dump.c, what it prints for a database.  Load.v:
      mdb_load.c, the header, the lines in their buffers, and the calls that store the
      entries.  ToolProps.v: reading a line back; ToolRound.v: the header, the loop that
      stores, and loading a dump.

    A definition has the name of the C function it models; a helper models a part of
    one, and its comment or name says which.  The state of a component is a record with
    the struct's fields ([TGroup], [Log], [St], [MDB_txn], [MDB_cursor]).

    ** What is shown

    - A thread group, under every interleaving of its critical sections: no accepted job
      is lost or run twice, nothing has undefined behaviour, no worker sleeps while a job
      is queued, what is under way always finishes, and what is joined is empty.
    - Reading LMDB: on a tree of any depth [mdb_get] is the lookup in the map of its
      entries, any sequence of cursor moves answers what a position in the list of the
      entries does, scans and range scans visit the right entries in order, and
      [mdb_page_get] takes a page from the innermost transaction that has it.
    - Commit and snapshots: wherever [mdb_env_write_meta] is stopped the record that is
      found is the old one or the new one; a stop anywhere in [commit_tail], its data pages
      included, leaves the entries of the old version or of the new one, and of the new one
      when the commit has returned 0 (see the assumptions on crashes); a commit that ends shows readers
      what the transaction itself read; and a reader keeps its version while another
      transaction commits, if that one spares its pages.  Whatever interleaving of readers,
      writers and deaths, one writer is active, its transaction is newer than all others,
      no two readers share a slot, and no writer takes a reader for gone that still reads.
    - Nested transactions: after a commit the parent finds each page where the child found
      it, and else where it had it itself; an abort undoes what the child did, also to the
      array of reusable pages, of which it has a copy.
    - Page allocation: the numbers come from records that no reader can need, in order,
      and none is lost or handed out twice; no version that is still read has one of them.
    - Copy on write: before a change all pages on the path of a cursor are pages of the
      transaction, in a tree of the same entries, and the file has what it had.
    - The tools: what mdb_dump prints for a tree mdb_load stores again, entry for entry,
      and a value survives any buffer size; the flags of a database do not survive.
    - LMDB's pages: adding, deleting, searching and copying keep a page well formed and
      do to the list of its nodes what they should, overflow data included; the ID
      lists are searched, merged, sorted and extended correctly, and within the array.
    - The lists, the buffers, the logger, the scheduler, the paths and the database
      layer: functional behaviour on every branch, and the cases that go wrong.  The
      theorems named for a failure ([add_bytes_overflows], [scheduler_starves],
      [reader_count_drifts], [log_never_signals], [eof_spins], ...) prove of the code as
      it is that it does not do what its callers expect.

    ** Bounds

    A binary search of an ID list takes at most 33 rounds (32-bit indices), one of a page
    17.  The sort of n IDs takes at most 2 n + 1 rounds of its main loop.  A cursor has
    32 levels, so a fuel above 31 covers every descent and every walk to a sibling.  A
    cursor and its sub-cursor nest to depth 1, which is the [d] of the moves.  The loops
    over lists and arrays recurse on the list.  [eof_spins], [resize_diverges] and
    [tcp_loop_first] show loops that do not end: no fuel gives them a result.

    ** Assumptions

    The theorems on LMDB are for 64-bit little-endian machines, MDB_DEVEL 0.  Those on
    reading take databases without MDB_DUPSORT, whose record is current, and the order
    of a [KeyOrder]; [Cmp_memn], the default, is one, and [Cmp_long], that of the freeDB, is
    another.  The definitions have the duplicates and the refresh of a stale record too.  Mutexes protect what they
    protect: a critical section runs as one step.  Between processes, memory is
    sequentially consistent, a transaction number does not reach 2^64, a dead process
    stays dead, and [pwrite] stores a prefix of its bytes.

    What a crash leaves: a stopped call is one that fails without effect from some point
    on, so a stopped commit is a run of [commit_tail] with such answers.  When the process
    dies the file is what the map shows.  When the machine stops each byte of a page that
    was written since the last sync that succeeded may be on the disk or not, but a meta
    page, whose record lies in one sector, is all as on the disk before or all as written
    ([crash_file]).  This
    is covered when MDB_NOSYNC and MDB_NOMETASYNC are not set; db.c:111 sets both, so for
    trashdb itself only the death of a process is covered.  The write-back of an old record
    is not cut within its last 16 bytes, between [mm_last_pg] and [mm_txnid].

    Of a transaction that is reset, LMDB may refuse the renewal: [LMDBLaws] promises a
    snapshot only when the call returns 0, and the theorems on db.c cover both cases.

    ** Not modelled

    - In the writer of LMDB: mdb_page_spill, splits and merges, mdb_put, mdb_del, and the record of freed pages that a commit saves; the
      cursors that a nested transaction shadows.  The set-up of the lock file and the
      closing of an environment; the option parsing of the tools, the append mode of
      mdb_load, mdb_stat.c and mdb_copy.c.  db.c is verified against the documented
      interface instead.
    - src/main.c, and the parts of buffy.c and server.c that only call libevent.
    - libevent, pthreads, the kernel and the C library: their answers are arguments. *)

From stdpp Require Export base numbers list gmap strings relations.
From Stdlib Require Export ZArith Lia.

#[global] Open Scope Z_scope.

(** ** Outcomes of C code

    A call of a C function returns, or fails an [assert] (the process stops),
    or has undefined behaviour (a wild or NULL pointer, an access outside an
    array, a read of an uninitialised object).  [NoFuel] is the outcome of a
    loop whose bound is exhausted; a theorem that a loop returns shows [Ok]. *)

Inductive res (A : Type) : Type :=
| Ok (a : A)
| AssertFail
| UB
| NoFuel.
Arguments Ok {A} a.
Arguments AssertFail {A}.
Arguments UB {A}.
Arguments NoFuel {A}.

#[export] Instance res_ret : MRet res := λ A a, Ok a.
#[export] Instance res_bind : MBind res := λ A B f m,
  match m with
  | Ok a => f a
  | AssertFail => AssertFail
  | UB => UB
  | NoFuel => NoFuel
  end.

(** [assert(b)] with assertions enabled, as the Makefile builds them. *)
Definition c_assert (b : bool) : res unit := if b then Ok tt else AssertFail.

Definition is_ok {A} (r : res A) : bool :=
  match r with Ok _ => true | _ => false end.

(** Code that updates a store [S] and can fail. *)
Definition SM (S A : Type) : Type := S → res (A * S).

#[export] Instance SM_ret {S} : MRet (SM S) := λ A a s, Ok (a, s).
#[export] Instance SM_bind {S} : MBind (SM S) := λ A B f m s,
  match m s with
  | Ok (a, s') => f a s'
  | AssertFail => AssertFail
  | UB => UB
  | NoFuel => NoFuel
  end.

Lemma res_bind_Ok {A B} (m : res A) (f : A → res B) b :
  m ≫= f = Ok b ↔ ∃ a, m = Ok a ∧ f a = Ok b.
Proof. destruct m; naive_solver. Qed.

Lemma SM_bind_Ok {S A B} (m : SM S A) (f : A → SM S B) s a s' :
  m s = Ok (a, s') → (m ≫= f) s = f a s'.
Proof. intros H. unfold mbind, SM_bind. by rewrite H. Qed.

Lemma SM_bind_inv {S A B} (m : SM S A) (f : A → SM S B) s b s' :
  (m ≫= f) s = Ok (b, s') → ∃ a s1, m s = Ok (a, s1) ∧ f a s1 = Ok (b, s').
Proof. unfold mbind, SM_bind. destruct (m s) as [[a s1]| | |]; naive_solver. Qed.

(** ** Machine integers *)

Definition u8 (z : Z) : Z := z mod 2 ^ 8.
Definition u16 (z : Z) : Z := z mod 2 ^ 16.
Definition u32 (z : Z) : Z := z mod 2 ^ 32.
Definition u64 (z : Z) : Z := z mod 2 ^ 64.

Definition UINT32_MAX : Z := 4294967295.

Lemma u16_small z : 0 ≤ z < 65536 → u16 z = z.
Proof. intros. unfold u16. apply Z.mod_small. lia. Qed.
Lemma u32_small z : 0 ≤ z < 4294967296 → u32 z = z.
Proof. intros. unfold u32. apply Z.mod_small. lia. Qed.
Lemma u64_small z : 0 ≤ z < 18446744073709551616 → u64 z = z.
Proof. intros. unfold u64. apply Z.mod_small. lia. Qed.

Lemma u16_range z : 0 ≤ u16 z < 65536.
Proof. unfold u16. apply Z.mod_pos_bound. lia. Qed.
Lemma u32_range z : 0 ≤ u32 z < 4294967296.
Proof. unfold u32. apply Z.mod_pos_bound. lia. Qed.
Lemma u64_range z : 0 ≤ u64 z < 18446744073709551616.
Proof. unfold u64. apply Z.mod_pos_bound. lia. Qed.

(** Unsigned subtraction that borrows. *)
Lemma u32_neg z : -4294967296 ≤ z < 0 → u32 z = z + 4294967296.
Proof.
  intros. unfold u32. symmetry. apply Z.mod_unique with (q := -1); lia.
Qed.

(** ** Automation *)

Create HintDb trash.

(** Discharges the range side conditions of the machine-integer lemmas. *)
Ltac solve_range := first [ lia | cbn; lia ].

Ltac norm_int :=
  repeat first
    [ rewrite u16_small by solve_range
    | rewrite u32_small by solve_range
    | rewrite u64_small by solve_range ].

(** Case analysis on the outermost boolean test. *)
Ltac case_bool :=
  match goal with
  | |- context [if ?b then _ else _] => destruct b eqn:?
  | H : context [if ?b then _ else _] |- _ => destruct b eqn:?
  end.

Ltac bool_to_prop :=
  repeat match goal with
  | H : (_ =? _) = true |- _ => apply Z.eqb_eq in H
  | H : (_ =? _) = false |- _ => apply Z.eqb_neq in H
  | H : (_ <? _) = true |- _ => apply Z.ltb_lt in H
  | H : (_ <? _) = false |- _ => apply Z.ltb_ge in H
  | H : (_ <=? _) = true |- _ => apply Z.leb_le in H
  | H : (_ <=? _) = false |- _ => apply Z.leb_gt in H
  | H : (_ && _)%bool = true |- _ => apply andb_true_iff in H; destruct H
  | H : (_ || _)%bool = false |- _ => apply orb_false_iff in H; destruct H
  | H : negb _ = true |- _ => apply negb_true_iff in H
  | H : negb _ = false |- _ => apply negb_false_iff in H
  end.

#[export] Hint Resolve u16_range u32_range u64_range : trash.

(** ** Return codes (include/global.h) *)

Definition TRASH_SUCCESS : Z := 0.
Definition TRASH_ERROR : Z := -1.
Definition TRASH_EOF : Z := -2.

(** ** Blocks of memory

    An allocated block is the list of its cells; a cell is [None] until it is
    written.  An access outside the block is undefined behaviour. *)

Abbreviation block := (list (option Z)).

(** The block [malloc(n)] returns when it succeeds. *)
Definition fresh_block (n : Z) : block := replicate (Z.to_nat n) None.

(** [realloc(p, n)] when it succeeds: the common prefix is kept. *)
Definition realloc_block (b : block) (n : Z) : block :=
  take (Z.to_nat n) b ++ replicate (Z.to_nat n - length b) None.

(** [memcpy(b + off, bs, |bs|)] and the store [b[off] = c]. *)
Definition write_bytes (b : block) (off : Z) (bs : list Z) : res block :=
  if (0 <=? off) && (off + Z.of_nat (length bs) <=? Z.of_nat (length b))
  then Ok (take (Z.to_nat off) b ++ (Some <$> bs) ++ drop (Z.to_nat off + length bs) b)
  else UB.

Definition read_byte (b : block) (off : Z) : res Z :=
  if 0 <=? off then
    match b !! Z.to_nat off with Some (Some c) => Ok c | _ => UB end
  else UB.

(** [memcpy(dst + doff, src + soff, n)] *)
Definition copy_block (dst : block) (doff : Z) (src : block) (soff n : Z) : res block :=
  if ((0 <=? doff) && (0 <=? soff) && (0 <=? n) && (doff + n <=? Z.of_nat (length dst))
      && (soff + n <=? Z.of_nat (length src)))%bool
  then Ok (take (Z.to_nat doff) dst ++ take (Z.to_nat n) (drop (Z.to_nat soff) src)
           ++ drop (Z.to_nat (doff + n)) dst)
  else UB.

Lemma length_realloc_block b n : 0 ≤ n → Z.of_nat (length (realloc_block b n)) = n.
Proof. intros. unfold realloc_block. rewrite length_app, length_take, length_replicate. lia. Qed.

Lemma write_bytes_Ok b off bs :
  0 ≤ off → off + Z.of_nat (length bs) ≤ Z.of_nat (length b) →
  write_bytes b off bs
  = Ok (take (Z.to_nat off) b ++ (Some <$> bs) ++ drop (Z.to_nat off + length bs) b).
Proof.
  intros. unfold write_bytes. by rewrite (proj2 (Z.leb_le _ _)), (proj2 (Z.leb_le _ _)) by lia.
Qed.

Lemma write_bytes_UB b off bs :
  Z.of_nat (length b) < off + Z.of_nat (length bs) → write_bytes b off bs = UB.
Proof.
  intros. unfold write_bytes.
  by rewrite (proj2 (Z.leb_gt (off + _) _)), andb_false_r by lia.
Qed.

Lemma length_write_bytes b off bs b' :
  write_bytes b off bs = Ok b' → length b' = length b.
Proof.
  unfold write_bytes. intros. case_bool; [|done]. bool_to_prop.
  simplify_eq. rewrite !length_app, length_fmap, length_take, length_drop. lia.
Qed.

(** The part [lo, hi) of a block. *)
Definition slice (b : block) (lo hi : Z) : block :=
  take (Z.to_nat (hi - lo)) (drop (Z.to_nat lo) b).

(** Writing at [off] extends a slice that ends there and keeps slices before it. *)
Lemma slice_write b off bs b' lo :
  write_bytes b off bs = Ok b' → 0 ≤ lo ≤ off →
  slice b' lo (off + Z.of_nat (length bs)) = slice b lo off ++ (Some <$> bs).
Proof.
  unfold write_bytes. intros H Hlo. case_bool; [|done]. bool_to_prop. simplify_eq.
  unfold slice.
  rewrite app_assoc, drop_app_le, take_app_le
    by (rewrite ?length_drop, ?length_app, ?length_fmap, ?length_take; lia).
  rewrite drop_app_le by (rewrite length_take; lia).
  rewrite take_ge by (rewrite length_app, length_drop, length_take, length_fmap; lia).
  f_equal. rewrite skipn_firstn_comm. f_equal. lia.
Qed.

Lemma slice_realloc b n lo hi :
  0 ≤ lo ≤ hi → hi ≤ Z.of_nat (length b) → hi ≤ n → slice (realloc_block b n) lo hi = slice b lo hi.
Proof.
  intros. unfold slice, realloc_block.
  rewrite drop_app_le by (rewrite length_take; lia).
  rewrite take_app_le by (rewrite length_drop, length_take; lia).
  rewrite skipn_firstn_comm, take_take. f_equal. lia.
Qed.

(** ** Strings

    A C string is the list of its bytes without the NUL that ends it. *)

Abbreviation bytes := (list Z).

Definition lit (s : string) : bytes := (λ a, Z.of_N (Ascii.N_of_ascii a)) <$> String.list_ascii_of_string s.

Definition is_cstr (s : bytes) : Prop := 0 ∉ s.

(** The string that starts a block: the cells up to the first NUL. *)
Fixpoint c_str (b : block) : res bytes :=
  match b with
  | Some c :: b => if c =? 0 then Ok [] else s ← c_str b; Ok (c :: s)
  | _ => UB
  end.

Lemma c_str_app s b : is_cstr s → c_str ((Some <$> s) ++ Some 0 :: b) = Ok s.
Proof.
  unfold is_cstr. induction s as [|c s IH]; intros Hs; [done|]. cbn.
  rewrite (proj2 (Z.eqb_neq c 0)) by set_solver. rewrite IH by set_solver. done.
Qed.

Lemma write_byte_insert b i c :
  (i < length b)%nat → write_bytes b (Z.of_nat i) [c] = Ok (<[i := Some c]> b).
Proof.
  intros Hi. rewrite write_bytes_Ok by (cbn; lia). rewrite insert_take_drop by done.
  cbn. by rewrite Nat2Z.id, Nat.add_1_r.
Qed.

Lemma read_byte_lookup b i c : b !! i = Some (Some c) → read_byte b (Z.of_nat i) = Ok c.
Proof. intros H. unfold read_byte. rewrite (proj2 (Z.leb_le _ _)), Nat2Z.id, H by lia. done. Qed.

(** [snprintf(buf, n, ...)] of a whole text into a buffer of [n] bytes: the string
    that ends up in the buffer. *)
Definition snprintf (n : Z) (s : bytes) : bytes := take (Z.to_nat (n - 1)) s.

(** ** Flag words *)

Definition set_flag (f m : Z) : Z := Z.lor f m.
Definition clear_flag (f m : Z) : Z := Z.land f (Z.lnot m).
Definition has_flag (f m : Z) : bool := negb (Z.land f m =? 0).

(** A flag is a single bit: the test of it is [Z.testbit]. *)
Lemma has_flag_pow2 f k : 0 ≤ k → has_flag f (2 ^ k) = Z.testbit f k.
Proof.
  intros Hk. unfold has_flag.
  destruct (Z.testbit f k) eqn:E.
  - apply negb_true_iff, Z.eqb_neq. intros H.
    assert (Z.testbit (Z.land f (2 ^ k)) k = false) as H' by (rewrite H; apply Z.bits_0).
    rewrite Z.land_spec, E, Z.pow2_bits_true in H' by done. done.
  - apply negb_false_iff, Z.eqb_eq. apply Z.bits_inj'. intros n Hn.
    rewrite Z.land_spec, Z.bits_0.
    destruct (decide (n = k)) as [->|]; [by rewrite E|].
    by rewrite Z.pow2_bits_false, andb_false_r by lia.
Qed.

Lemma has_set_flag f i j :
  0 ≤ i → 0 ≤ j →
  has_flag (set_flag f (2 ^ i)) (2 ^ j) = (has_flag f (2 ^ j) || (i =? j))%bool.
Proof.
  intros. rewrite !has_flag_pow2 by done. unfold set_flag.
  by rewrite Z.lor_spec, Z.pow2_bits_eqb by done.
Qed.

Lemma has_clear_flag f i j :
  0 ≤ i → 0 ≤ j →
  has_flag (clear_flag f (2 ^ i)) (2 ^ j) = (has_flag f (2 ^ j) && negb (i =? j))%bool.
Proof.
  intros. rewrite !has_flag_pow2 by done. unfold clear_flag.
  by rewrite Z.land_spec, Z.lnot_spec, Z.pow2_bits_eqb by done.
Qed.

Lemma set_flag_lor f a b : set_flag f (Z.lor a b) = set_flag (set_flag f a) b.
Proof. apply Z.lor_assoc. Qed.

Lemma clear_flag_lor f a b : clear_flag f (Z.lor a b) = clear_flag (clear_flag f a) b.
Proof. unfold clear_flag. by rewrite Z.lnot_lor, Z.land_assoc. Qed.

(** ** Generic lemmas *)

(** An invariant of a step relation holds of every reachable state. *)
Lemma rtc_invariant {A} (R : relation A) (P : A → Prop) x y :
  (∀ a b, P a → R a b → P b) → rtc R x y → P x → P y.
Proof. intros Hstep. induction 1; eauto. Qed.

(** Replacing one entry of a table exchanges its entry in any bag that is
    collected from the table. *)
Lemma insert_Permutation_inv {A} (l : list A) i x y :
  l !! i = Some x →
  ∃ l', l ≡ₚ x :: l' ∧ <[i:=y]> l ≡ₚ y :: l'.
Proof.
  intros Hi. exists (delete i l). split.
  - by apply delete_Permutation.
  - pose proof (lookup_lt_Some _ _ _ Hi).
    rewrite insert_take_drop by done. rewrite delete_take_drop.
    symmetry. apply Permutation_middle.
Qed.

(** Removing an element that occurs once. *)
Lemma filter_not_in {A} `{EqDecision A} (x : A) (l : list A) :
  x ∉ l → filter (λ y, y ≠ x) l = l.
Proof.
  induction l as [|y l IH]; intros Hx; [done|].
  rewrite filter_cons_True by set_solver. f_equal. apply IH. set_solver.
Qed.

Lemma filter_remove {A} `{EqDecision A} (x : A) (l1 l2 : list A) :
  x ∉ l1 → x ∉ l2 → filter (λ y, y ≠ x) (l1 ++ x :: l2) = l1 ++ l2.
Proof.
  intros. rewrite filter_app, filter_cons_False by tauto.
  by rewrite !filter_not_in.
Qed.

