(* ===== verification/Utilities.v ===== *)
(** * Paths and socket addresses (src/utilities.c)

    [trash_mkdir], [trash_no_file_dir], [internal_filename_from_path] and
    [validate_filename], and the functions that fill a [TrashAddr].  The file
    system is an [OS] whose documented behaviour [OSLaws] states; the regular
    expression calls are arguments. *)

From S2P Require Import Prelude.

Definition SLASH : Z := 47.
Definition MAX_DIR_SIZE : Z := 256.
Definition EEXIST : Z := 17.

(** ** The file system *)

(** What the code calls, with [errno] part of the state: the return codes of
    [mkdir] and [stat], and whether [fopen] in append mode returned a file. *)
Class OS (F : Type) : Type := {
  os_errno : F → Z;
  os_mkdir : F → bytes → Z * F;
  os_stat : F → bytes → Z * F;
  os_fopen : F → bytes → bool * F }.

(** [mkdir] makes its path exist or says through [errno] that it does; no call
    removes a path. *)
Class OSLaws (F : Type) `{OS F} : Type := {
  path_exists : F → bytes → Prop;
  mkdir_ok : ∀ f p, (os_mkdir f p).1 = 0 → path_exists (os_mkdir f p).2 p;
  mkdir_eexist : ∀ f p, (os_mkdir f p).1 ≠ 0 → os_errno (os_mkdir f p).2 = EEXIST →
    path_exists (os_mkdir f p).2 p;
  mkdir_keeps : ∀ f p q, path_exists f q → path_exists (os_mkdir f p).2 q }.

(** ** Making the directories of a path *)

Section Mkdir.
Context {F : Type} `{OS F}.

(** The loop of [trash_mkdir] for the bytes from [i] on, [n] of them. *)
Fixpoint mkdir_loop (n i : nat) (holder : block) (f : F) : res (Z * F) :=
  match n with
  | O => Ok (0, f)
  | S n =>
      c ← read_byte holder (Z.of_nat i);
      if ((c =? SLASH) && negb (i =? 0)%nat)%bool then
        holder ← write_bytes holder (Z.of_nat i) [0];
        dir ← c_str holder;
        let '(rc, f) := os_mkdir f dir in
        if (negb (rc =? 0) && negb (os_errno f =? EEXIST))%bool then Ok (-1, f)
        else
          holder ← write_bytes holder (Z.of_nat i) [SLASH];
          mkdir_loop n (S i) holder f
      else mkdir_loop n (S i) holder f
  end.

(** [trash_mkdir] of a path whose [len] is its length, as every caller passes it. *)
Definition trash_mkdir (path : bytes) (f : F) : res (Z * F) :=
  let len := Z.of_nat (length path) in
  if MAX_DIR_SIZE <? len then Ok (-1, f)
  else
    holder ← write_bytes (fresh_block MAX_DIR_SIZE) 0 path;
    holder ← write_bytes holder len [0];
    mkdir_loop (length path) 0 holder f.

Definition trash_no_file_dir (filepath : bytes) (f : F) : res (Z * F) := trash_mkdir filepath f.

(** The directories of a path: what precedes each slash but a leading one. *)
Definition is_dir_of (path dir : bytes) : Prop :=
  dir ≠ [] ∧ ∃ rest, path = dir ++ SLASH :: rest.

(** The buffer while the loop runs holds the path. *)
Definition holds (holder : block) (path : bytes) : Prop :=
  ∃ r, holder = (Some <$> path) ++ Some 0 :: r.

Lemma holds_read holder path i c :
  holds holder path → path !! i = Some c → read_byte holder (Z.of_nat i) = Ok c.
Proof.
  intros [r ->] Hi. apply read_byte_lookup. rewrite lookup_app_l.
  - by rewrite list_lookup_fmap, Hi.
  - rewrite length_fmap. by eapply lookup_lt_Some.
Qed.

(** Cutting the path at a slash, and putting the slash back. *)
Lemma holds_cut holder path i :
  holds holder path → is_cstr path → path !! i = Some SLASH →
  ∃ h, write_bytes holder (Z.of_nat i) [0] = Ok h ∧ c_str h = Ok (take i path) ∧
    write_bytes h (Z.of_nat i) [SLASH] = Ok holder.
Proof.
  intros [r ->] Hs Hi. pose proof (lookup_lt_Some _ _ _ Hi) as Hlt.
  set (H0 := (Some <$> path) ++ Some 0 :: r).
  assert (Hl : (i < length H0)%nat) by (unfold H0; rewrite length_app, length_fmap; lia).
  exists (<[i := Some 0]> H0). rewrite !write_byte_insert by (rewrite ?length_insert; done).
  split_and!; [done| |].
  - unfold H0. rewrite insert_app_l by (by rewrite length_fmap).
    rewrite insert_take_drop by (by rewrite length_fmap).
    rewrite <-app_assoc, <-fmap_take. cbn [app]. apply c_str_app.
    intros Hin. apply Hs. by eapply elem_of_take in Hin as (? & ? & _); eapply list_elem_of_lookup_2.
  - rewrite list_insert_insert_eq. f_equal. apply list_insert_id. unfold H0.
    rewrite lookup_app_l by (by rewrite length_fmap). by rewrite list_lookup_fmap, Hi.
Qed.

(** The loop only makes directories of the path, and makes all of them when it
    returns 0. *)
Lemma mkdir_loop_spec `{!OSLaws F} path n i holder f :
  holds holder path → is_cstr path → (i + n)%nat = length path →
  ∃ rc f', mkdir_loop n i holder f = Ok (rc, f') ∧ (rc = 0 ∨ rc = -1) ∧
    (∀ q, path_exists f q → path_exists f' q) ∧
    (rc = 0 → ∀ j, (i ≤ j)%nat → j ≠ 0%nat → path !! j = Some SLASH → path_exists f' (take j path)).
Proof.
  revert i holder f. induction n as [|n IH]; intros i holder f Hh Hs Hn.
  { exists 0, f. split_and!; try done; [by left|]. intros _ j Hj _ Hlk%lookup_lt_Some. lia. }
  destruct (lookup_lt_is_Some_2 path i) as [c Hc]; [lia|].
  cbn [mkdir_loop]. rewrite (holds_read _ _ _ _ Hh Hc). cbn [mbind res_bind].
  destruct ((c =? SLASH) && negb (i =? 0)%nat)%bool eqn:Et.
  - apply andb_true_iff in Et as [->%Z.eqb_eq Hi0%negb_true_iff%Nat.eqb_neq].
    destruct (holds_cut _ _ _ Hh Hs Hc) as (h & E1 & E2 & E3).
    rewrite E1. cbn [mbind res_bind]. rewrite E2. cbn [mbind res_bind].
    destruct (os_mkdir f (take i path)) as [rc f1] eqn:Em.
    pose proof (mkdir_ok f (take i path)) as L1. pose proof (mkdir_eexist f (take i path)) as L2.
    pose proof (λ q, mkdir_keeps f (take i path) q) as L3. rewrite Em in L1, L2, L3. cbn in L1, L2, L3.
    destruct (negb (rc =? 0) && negb (os_errno f1 =? EEXIST))%bool eqn:Eb.
    { exists (-1), f1. split_and!; [done|by right|done|done]. }
    rewrite E3. cbn [mbind res_bind].
    destruct (IH (S i) holder f1 Hh Hs ltac:(lia)) as (rc' & f' & E & Hrc & Hk & Hp).
    exists rc', f'. split_and!; [done|done|auto|]. intros H0 j Hj Hj0 Hlk.
    destruct (decide (j = i)) as [->|]; [|apply Hp; [done|lia|done|done]].
    apply Hk. apply andb_false_iff in Eb. rewrite !negb_false_iff, !Z.eqb_eq in Eb.
    destruct (decide (rc = 0)); [by apply L1|]. destruct Eb; [done|by apply L2].
  - destruct (IH (S i) holder f Hh Hs ltac:(lia)) as (rc' & f' & E & Hrc & Hk & Hp).
    exists rc', f'. split_and!; [done|done|done|]. intros H0 j Hj Hj0 Hlk.
    destruct (decide (j = i)) as [->|]; [|apply Hp; [done|lia|done|done]].
    rewrite Hc in Hlk. injection Hlk as ->. rewrite Z.eqb_refl in Et. cbn in Et.
    by apply negb_false_iff, Nat.eqb_eq in Et.
Qed.

Lemma trash_mkdir_start path :
  (length path < 256)%nat →
  ∃ h, write_bytes (fresh_block MAX_DIR_SIZE) 0 path = Ok h ∧
    ∃ h', write_bytes h (Z.of_nat (length path)) [0] = Ok h' ∧ holds h' path.
Proof.
  intros Hl. unfold fresh_block, MAX_DIR_SIZE.
  eexists. split; [apply write_bytes_Ok; rewrite ?length_replicate; lia|].
  change (Z.to_nat 0) with 0%nat. rewrite take_0, drop_replicate. cbn [app Nat.add].
  destruct (Z.to_nat 256 - length path)%nat as [|k] eqn:Ek; [lia|].
  rewrite write_byte_insert by (rewrite length_app, length_fmap; cbn; lia).
  eexists. split; [done|]. eexists. rewrite insert_app_r_alt by (by rewrite length_fmap).
  by rewrite length_fmap, Nat.sub_diag.
Qed.

(** On every path of less than 256 bytes [trash_mkdir] stays inside its
    buffer and returns 0 or -1; when it returns 0 every directory of the path
    exists, and in any case nothing that existed is gone. *)
Theorem trash_mkdir_creates `{!OSLaws F} path f :
  is_cstr path → (length path < 256)%nat →
  ∃ rc f', trash_mkdir path f = Ok (rc, f') ∧ (rc = 0 ∨ rc = -1) ∧
    (∀ q, path_exists f q → path_exists f' q) ∧
    (rc = 0 → ∀ dir, is_dir_of path dir → path_exists f' dir).
Proof.
  intros Hs Hl. destruct (trash_mkdir_start path Hl) as (h & E1 & h' & E2 & Hh).
  destruct (mkdir_loop_spec path (length path) 0 h' f) as (rc & f' & E & Hrc & Hk & Hp); [done..|].
  exists rc, f'. unfold trash_mkdir, MAX_DIR_SIZE in *.
  rewrite (proj2 (Z.ltb_ge _ _)) by lia. rewrite E1. cbn [mbind res_bind]. rewrite E2.
  cbn [mbind res_bind]. split_and!; try done. intros H0 dir [Hd [rest ->]].
  pose proof (Hp H0 (length dir)) as Hp'. rewrite take_app_length in Hp'. apply Hp'; [lia| |].
  - by destruct dir.
  - by rewrite lookup_app_r, Nat.sub_diag by lia.
Qed.

(** A path of exactly 256 bytes passes the length test and its NUL is written
    after the end of the buffer. *)
Theorem trash_mkdir_overflows path f :
  length path = 256%nat → trash_mkdir path f = UB.
Proof.
  intros Hl. unfold trash_mkdir, MAX_DIR_SIZE.
  rewrite (proj2 (Z.ltb_ge _ _)) by lia.
  rewrite write_bytes_Ok by (unfold fresh_block; rewrite ?length_replicate; lia).
  cbn [mbind res_bind]. rewrite write_bytes_UB; [done|].
  unfold fresh_block.
  rewrite !length_app, length_take, length_drop, length_fmap, length_replicate. cbn [length]. lia.
Qed.

End Mkdir.

(** ** The last component of a path *)

Section Filename.
(** What the allocator reserves for a request. *)
Context (usable : Z → Z).

(** [while(temp[index] != '/' && index > 0)]: the index and the count it ends with. *)
Fixpoint filename_loop (temp : block) (index : nat) (filenameLen : Z) : res (nat * Z) :=
  c ← read_byte temp (Z.of_nat index);
  match index with
  | S i => if negb (c =? SLASH) then filename_loop temp i (filenameLen + 1)
           else Ok (index, filenameLen)
  | O => Ok (index, filenameLen)
  end.

(** [internal_filename_from_path]: the block stored through [filename]. *)
Definition internal_filename_from_path (alloc : bool) (path : bytes) : res (option block) :=
  let len := Z.of_nat (length path) in
  if ((MAX_DIR_SIZE - 1 <? len) || (len <? 3))%bool then Ok None
  else
    temp ← write_bytes (fresh_block MAX_DIR_SIZE) 0 path;
    let index := (length path - 1)%nat in
    c ← read_byte temp (Z.of_nat index);
    let index := if c =? SLASH then (index - 1)%nat else index in
    '(index, filenameLen) ← filename_loop temp index 0;
    let index := S index in
    bad ← (if (index =? 0)%nat then c ← read_byte temp (Z.of_nat index); Ok (negb (c =? SLASH))
           else Ok false);
    if bad : bool then Ok None
    else if negb alloc then Ok None
    else
      b ← copy_block (fresh_block (usable filenameLen)) 0 temp (Z.of_nat index) filenameLen;
      b ← write_bytes b filenameLen [0];
      Ok (Some b).

End Filename.

(** [validate_filename]: [regcomp] and [regexec] are the return codes of the two
    calls, on the empty pattern; [filename] is not NULL. *)
Definition REG_NOMATCH : Z := 1.

Definition validate_filename (regcomp : bytes → Z) (regexec : bytes → bytes → Z) (filename : bytes) : Z :=
  if negb (regcomp [] =? 0) then -1
  else if regexec [] filename =? REG_NOMATCH then -1
  else 0.

(** ** Socket options *)

Definition SOL_SOCKET : Z := 1.
Definition SO_SNDBUF : Z := 7.
Definition SO_RCVBUF : Z := 8.
Definition SO_KEEPALIVE : Z := 9.
Definition IPPROTO_TCP : Z := 6.
Definition TCP_KEEPIDLE : Z := 4.
Definition TCP_KEEPINTVL : Z := 5.
Definition TCP_KEEPCNT : Z := 6.
Definition O_NONBLOCK : Z := 2048.
Definition KEEP_ALIVE : Z := 2.
Definition KEEP_IDLE : Z := 2.
Definition KEEP_INTERVAL : Z := 2.
Definition KEEP_COUNT : Z := 10.

Section Options.
(** The return codes of [setsockopt] on the socket and of the two [fcntl] calls. *)
Context (setsockopt : Z → Z → Z → Z) (f_getfl : Z) (f_setfl : Z → Z).

Definition sock_buff_size (send_buffy_size recv_buffy_size : Z) : bool :=
  if negb (setsockopt SOL_SOCKET SO_SNDBUF send_buffy_size =? 0) then false
  else if negb (setsockopt SOL_SOCKET SO_RCVBUF recv_buffy_size =? 0) then false
  else true.

Definition keep_sock_alive (alive idle interval maxpkt : Z) : bool :=
  if negb (setsockopt SOL_SOCKET SO_KEEPALIVE alive =? 0) then false
  else if negb (setsockopt IPPROTO_TCP TCP_KEEPIDLE idle =? 0) then false
  else if negb (setsockopt IPPROTO_TCP TCP_KEEPINTVL interval =? 0) then false
  else if negb (setsockopt IPPROTO_TCP TCP_KEEPCNT maxpkt =? 0) then false
  else true.

Definition opt_sock (isUnixSock : bool) : Z :=
  let flags := f_getfl in
  if flags =? -1 then -1
  else
    let flags := set_flag flags O_NONBLOCK in
    if f_setfl flags =? -1 then -1
    else if (negb isUnixSock && negb (keep_sock_alive KEEP_ALIVE KEEP_IDLE KEEP_INTERVAL KEEP_COUNT))%bool
    then -1
    else 0.
End Options.

(** ** Socket addresses *)

Definition AF_UNIX : Z := 1.
Definition AF_INET : Z := 2.
Definition AF_INET6 : Z := 10.

(** The sizes of [struct sockaddr_in], [struct sockaddr_in6], [sun_path] and
    [struct sockaddr_storage], and the offset of [sun_path]. *)
Definition SOCKADDR_IN : Z := 16.
Definition SOCKADDR_IN6 : Z := 28.
Definition SUN_PATH : Z := 108.
Definition STORAGE : Z := 128.
Definition SUN_PATH_OFF : Z := 2.

(** [struct TrashAddr]: the storage, whose first two bytes are the family. *)
Record TrashAddr : Type := MkTrashAddr { addr : block; addrlen : Z }.

Definition ss_family (a : block) : res Z :=
  lo ← read_byte a 0; hi ← read_byte a 1; Ok (lo + 256 * hi).

Definition set_family (a : block) (f : Z) : res block := write_bytes a 0 [u8 f; u8 (f / 256)].

Definition is_unix_socket (taddr : TrashAddr) : res bool :=
  f ← ss_family (addr taddr); Ok (f =? AF_UNIX).

(** [get_sock_path]: the buffer [path] after the call. *)
Definition get_sock_path (taddr : option TrashAddr) (path : block) (pathLen : Z) : res block :=
  match taddr with
  | None => Ok path
  | Some taddr =>
      f ← ss_family (addr taddr);
      if negb (f =? AF_UNIX) then Ok path
      else if SUN_PATH <=? pathLen then copy_block path 0 (addr taddr) SUN_PATH_OFF SUN_PATH
      else Ok path
  end.

Definition AT : Z := 64.

Definition set_unix_trash_addr (taddr : option TrashAddr) (path : option block)
  : res (option TrashAddr) :=
  match path, taddr with
  | Some path, Some _ =>
      a ← set_family (replicate (Z.to_nat STORAGE) (Some 0)) AF_UNIX;
      c ← read_byte path 0;
      a ← (if c =? AT then write_bytes a SUN_PATH_OFF [0] else Ok a);
      let index := if c =? AT then 1 else 0 in
      a ← copy_block a (SUN_PATH_OFF + index) path index SUN_PATH;
      Ok (Some (MkTrashAddr a 0))
  | _, _ => Ok taddr
  end.

Definition set_ip_trash_addr (taddr : TrashAddr) (from : block) (sockFam : Z) : res TrashAddr :=
  a ← set_family (addr taddr) sockFam;
  if sockFam =? AF_INET then
    a ← copy_block a 0 from 0 SOCKADDR_IN; Ok (MkTrashAddr a SOCKADDR_IN)
  else if sockFam =? AF_INET6 then
    a ← copy_block a 0 from 0 SOCKADDR_IN6; Ok (MkTrashAddr a SOCKADDR_IN6)
  else Ok (MkTrashAddr a (addrlen taddr)).

(** [parse_sock_addr]: a literal, what [inet_ntop] returned for the address at
    [sa_data], which is NULL or the array of a block the switch has left, or
    the literal of the default case. *)
Inductive parsed : Type :=
| PLit (s : bytes)
| PNull
| PDangling.

Definition parse_sock_addr (inet_ntop : block → bool) (a : block) : res parsed :=
  f ← ss_family a;
  if f =? AF_UNIX then Ok (PLit (lit "unix socket"))
  else if f =? AF_INET then Ok (if inet_ntop (drop 2 a) then PDangling else PNull)
  else Ok (PLit (lit "rip")).

(** ** The name found in a path *)

Lemma filename_loop_spec temp pre x name n k :
  (∀ i c, (pre ++ x :: name) !! i = Some c → temp !! i = Some (Some c)) →
  SLASH ∉ name → (pre = [] ∨ x = SLASH) → (k ≤ length name)%nat →
  filename_loop temp (length pre + k) n = Ok (length pre, n + Z.of_nat k).
Proof.
  intros Ht Hn Hx. revert n. induction k as [|k IH]; intros n Hk.
  - rewrite Nat.add_0_r, Z.add_0_r. assert (E : (pre ++ x :: name) !! length pre = Some x).
    { by rewrite lookup_app_r, Nat.sub_diag by lia. }
    apply Ht, read_byte_lookup in E. destruct Hx as [->| ->].
    + cbn [length filename_loop] in *. rewrite E. done.
    + destruct (length pre) as [|p]; cbn [filename_loop]; rewrite E; done.
  - destruct (lookup_lt_is_Some_2 name k) as [c Hc]; [lia|].
    assert (E : (pre ++ x :: name) !! S (length pre + k) = Some c).
    { rewrite lookup_app_r by lia. replace (S (length pre + k) - length pre)%nat with (S k) by lia. done. }
    apply Ht, read_byte_lookup in E. replace (length pre + S k)%nat with (S (length pre + k)) by lia.
    cbn [filename_loop]. rewrite E. cbn [mbind res_bind].
    rewrite (proj2 (Z.eqb_neq c SLASH)). 2:{ intros ->. apply Hn. by eapply list_elem_of_lookup_2. }
    cbn [negb]. rewrite IH by lia. f_equal. f_equal. lia.
Qed.

(** The whole path is in the buffer [temp]. *)
Lemma temp_holds path temp :
  write_bytes (fresh_block MAX_DIR_SIZE) 0 path = Ok temp →
  (∀ i c, path !! i = Some c → temp !! i = Some (Some c)) ∧
  ∀ i n, (i + n ≤ length path)%nat → take n (drop i temp) = Some <$> take n (drop i path).
Proof.
  unfold write_bytes. intros E. case_bool; [|done]. injection E as <-.
  cbn [app]. split.
  - intros i c Hi. rewrite lookup_app_l by (rewrite length_fmap; by eapply lookup_lt_Some).
    by rewrite list_lookup_fmap, Hi.
  - intros i n Hn. rewrite drop_app_le by (rewrite length_fmap; lia).
    rewrite take_app_le by (rewrite length_drop, length_fmap; lia).
    by rewrite <-fmap_drop, <-fmap_take.
Qed.

(** The tail of the function: the copy into a block and the NUL after it. *)
Lemma filename_copy usable temp (pre : bytes) (x : Z) (name : bytes) :
  (∀ n, n ≤ usable n) → is_cstr name →
  take (length name) (drop (S (length pre)) temp) = Some <$> name →
  (S (length pre) + length name ≤ length temp)%nat →
  (b ← copy_block (fresh_block (usable (Z.of_nat (length name)))) 0 temp
         (Z.of_nat (S (length pre))) (Z.of_nat (length name));
   b ← write_bytes b (Z.of_nat (length name)) [x]; Ok (Some b))
  = (if usable (Z.of_nat (length name)) =? Z.of_nat (length name) then UB
     else Ok (Some ((Some <$> name) ++ Some x ::
       replicate (Z.to_nat (usable (Z.of_nat (length name))) - S (length name)) None))).
Proof.
  intros Hu Hs Ht Hl. specialize (Hu (Z.of_nat (length name))).
  set (u := usable (Z.of_nat (length name))) in *. unfold copy_block, fresh_block.
  rewrite length_replicate. rewrite !(proj2 (Z.leb_le _ _)) by lia. cbn [andb mbind res_bind].
  rewrite !Nat2Z.id. change (Z.to_nat 0) with 0%nat. rewrite take_0. cbn [app].
  rewrite Ht, Z.add_0_l, Nat2Z.id, drop_replicate.
  destruct (Z.eqb_spec u (Z.of_nat (length name))) as [E|E].
  - rewrite write_bytes_UB; [done|]. rewrite length_app, length_fmap, length_replicate. cbn. lia.
  - destruct (Z.to_nat u - length name)%nat as [|m] eqn:Em; [lia|].
    rewrite write_byte_insert by (rewrite length_app, length_fmap; cbn; lia). cbn [mbind res_bind].
    rewrite insert_app_r_alt by (by rewrite length_fmap). rewrite length_fmap, Nat.sub_diag. cbn.
    by replace (Z.to_nat u - S (length name))%nat with m by lia.
Qed.

(** [internal_filename_from_path] finds the last component of a path of 3 to
    255 bytes, after dropping one trailing slash: what follows the last slash,
    or, when there is none but possibly the first byte, what follows the first
    byte.  The NUL goes one byte past the request: the call is only defined when
    the allocator reserves more than was asked. *)
Theorem filename_from_path_last usable path pre x name (trail : bool) :
  (∀ n, n ≤ usable n) →
  path = pre ++ x :: name ++ (if trail then [SLASH] else []) →
  is_cstr path → SLASH ∉ name → (pre = [] ∨ x = SLASH) → (trail = true ∨ name ≠ []) →
  (3 ≤ length path < 256)%nat →
  if usable (Z.of_nat (length name)) =? Z.of_nat (length name)
  then internal_filename_from_path usable true path = UB
  else ∃ b, internal_filename_from_path usable true path = Ok (Some b) ∧ c_str b = Ok name.
Proof.
  intros Hu Hp Hs Hn Hx Ht Hlen.
  assert (Hlp : length path = (length pre + S (length name) + if trail then 1 else 0)%nat).
  { rewrite Hp, !length_app. cbn. rewrite length_app. destruct trail; cbn; lia. }
  assert (Hsn : is_cstr name) by (unfold is_cstr in *; subst path; set_solver).
  unfold internal_filename_from_path.
  rewrite (proj2 (Z.ltb_ge (MAX_DIR_SIZE - 1) (Z.of_nat (length path)))) by (unfold MAX_DIR_SIZE; lia).
  rewrite (proj2 (Z.ltb_ge (Z.of_nat (length path)) 3)) by lia. cbn [orb].
  destruct (write_bytes (fresh_block MAX_DIR_SIZE) 0 path) as [temp| | |] eqn:Et.
  2-4: rewrite write_bytes_Ok in Et by (unfold fresh_block, MAX_DIR_SIZE; rewrite ?length_replicate; lia); done.
  pose proof (length_write_bytes _ _ _ _ Et) as Hlt. unfold fresh_block in Hlt at 1.
  rewrite length_replicate in Hlt. change (Z.to_nat MAX_DIR_SIZE) with 256%nat in Hlt.
  destruct (temp_holds _ _ Et) as [Hread Hslice].
  cbn [mbind res_bind].
  assert (Hbody : ∀ i c, (pre ++ x :: name) !! i = Some c → temp !! i = Some (Some c)).
  { intros i c Hi. apply Hread. rewrite Hp, app_comm_cons, app_assoc.
    by apply lookup_app_l_Some. }
  destruct (lookup_lt_is_Some_2 path (length path - 1)) as [c Hc]; [lia|].
  rewrite (read_byte_lookup _ _ _ (Hread _ _ Hc)). cbn [mbind res_bind].
  assert (Hidx : (if c =? SLASH then (length path - 1 - 1)%nat else (length path - 1)%nat)
                 = (length pre + length name)%nat).
  { assert (Hlast : last path = Some c) by (by rewrite last_lookup, <-Nat.sub_1_r).
    rewrite Hp, app_comm_cons, app_assoc in Hlast. destruct trail.
    - rewrite last_snoc in Hlast. injection Hlast as <-. cbn. lia.
    - rewrite app_nil_r in Hlast. destruct Ht as [|Hne]; [done|].
      destruct (exists_last Hne) as (l & z & El). rewrite El, app_comm_cons, app_assoc, last_snoc in Hlast.
      injection Hlast as <-. rewrite (proj2 (Z.eqb_neq z SLASH)) by (rewrite El in Hn; set_solver). lia. }
  rewrite Hidx, (filename_loop_spec temp pre x name 0 (length name)) by done.
  cbn [mbind res_bind Nat.eqb negb]. rewrite Z.add_0_l.
  rewrite (filename_copy usable temp pre 0 name Hu Hsn); [| |lia].
  2:{ rewrite Hslice by (destruct trail; lia). rewrite Hp.
      replace (pre ++ x :: name ++ _) with ((pre ++ [x]) ++ name ++ (if trail then [SLASH] else []))
        by (by rewrite <-app_assoc).
      by rewrite drop_app_length' by (rewrite length_app; cbn; lia); rewrite take_app_length. }
  destruct (usable (Z.of_nat (length name)) =? Z.of_nat (length name)); [done|].
  eexists. split; [done|]. by apply c_str_app.
Qed.

(** ** Concrete instances *)

(** A small file system: the value of [errno] and the paths that exist.  The parent
    of a path is what precedes its last slash. *)
Definition ENOENT : Z := 2.

Fixpoint parent_rev (r : bytes) : bytes :=
  match r with
  | [] => []
  | c :: r => if c =? SLASH then rev r else parent_rev r
  end.

Definition parent (p : bytes) : bytes := parent_rev (rev p).

Definition FS : Type := Z * gset bytes.

#[export] Instance FS_OS : OS FS := {
  os_errno f := f.1;
  os_mkdir f p :=
    if decide (p ∈ f.2) then (-1, (EEXIST, f.2))
    else if decide (parent p = [] ∨ parent p ∈ f.2) then (0, (f.1, {[ p ]} ∪ f.2))
    else (-1, (ENOENT, f.2));
  os_stat f p := if decide (p ∈ f.2) then (0, f) else (-1, (ENOENT, f.2));
  os_fopen f p :=
    if decide (p ∈ f.2 ∨ parent p = [] ∨ parent p ∈ f.2) then (true, (f.1, {[ p ]} ∪ f.2))
    else (false, (ENOENT, f.2)) }.

#[export] Instance FS_laws : OSLaws FS.
Proof.
  refine {| path_exists f p := p ∈ f.2 |};
    intros f p; intros; cbn in *; repeat case_decide; cbn in *; done || set_solver.
Defined.

Definition demo_path : bytes := lit "./test/logs/a".

Lemma trash_mkdir_creates_witness :
  ∃ f', trash_mkdir demo_path ((0, ∅) : FS) = Ok (0, f') ∧ path_exists f' (lit "./test/logs").
Proof.
  assert (Hs : is_cstr demo_path) by (apply (bool_decide_unpack _); vm_compute; exact I).
  destruct (trash_mkdir_creates demo_path ((0, ∅) : FS) Hs) as (rc & f' & E & _ & _ & Hd);
    [vm_compute; lia|].
  assert (E0 : rc = 0).
  { vm_compute in E. congruence. }
  exists f'. rewrite E0 in E. split; [exact E|]. apply Hd; [exact E0|].
  split; [vm_compute; congruence|]. exists (lit "a"). reflexivity.
Defined.

Lemma trash_mkdir_overflows_witness : trash_mkdir (replicate 256 97) ((0, ∅) : FS) = UB.
Proof. apply trash_mkdir_overflows. reflexivity. Defined.

Lemma filename_from_path_last_witness :
  ∃ b, internal_filename_from_path (λ n, n + 8) true (lit "./data/db/") = Ok (Some b) ∧
    c_str b = Ok (lit "db").
Proof.
  refine (filename_from_path_last (λ n, n + 8) (lit "./data/db/") (lit "./data") SLASH (lit "db")
    true _ eq_refl _ _ (or_intror eq_refl) (or_introl eq_refl) _).
  - intros n. lia.
  - apply (bool_decide_unpack _). vm_compute. exact I.
  - apply (bool_decide_unpack _). vm_compute. exact I.
  - vm_compute. lia.
Defined.
