(* ===== verification/Il.v ===== *)
(** * Intrusive circular lists (include/il.h)

    [Module Heap] is the code of il.h over an explicit memory: nodes are
    addresses with a [next] and a [prev] pointer, a list is the address of its
    embedded [head] node and a separate [len] field.  [LL] is the abstract list
    the other components use: the items in order and the [len] field, which the
    code updates independently of the links.  [Module HeapRefines] shows that
    the pointer code implements the operations of [LL] and leaves every other
    list alone. *)

From S2P Require Import Prelude.

Abbreviation ptr := Z (only parsing).
Definition NULL : ptr := 0.

(** ** The abstract list *)

(** A list as its clients see it: the items from [head.next] on, and the [len]
    field. *)
Record LL (A : Type) : Type := MkLL { items : list A; len : Z }.
Arguments MkLL {A} items len.
Arguments items {A} l.
Arguments len {A} l.

Section AbstractList.
Context {A : Type}.

Definition ll_init : LL A := MkLL [] 0.

Definition ll_empty (l : LL A) : bool := len l =? 0.

(** [item_append(&list->head, item)]: the links only. *)
Definition ll_item_append (l : LL A) (x : A) : LL A := MkLL (items l ++ [x]) (len l).

(** [list_append] *)
Definition ll_append (l : LL A) (x : A) : LL A := MkLL (items l ++ [x]) (u64 (len l + 1)).

(** [item_remove] of a member of the list: the links only. *)
Definition ll_item_remove `{EqDecision A} (l : LL A) (x : A) : LL A :=
  MkLL (filter (λ y, y ≠ x) (items l)) (len l).

(** [list->len--] *)
Definition ll_dec (l : LL A) : LL A := MkLL (items l) (u64 (len l - 1)).

(** [list_pop]: guarded by [len], and returning the first item.  When [len]
    is not 0 and there is no item the code detaches the head node itself and
    returns its address, which is not an item. *)
Definition ll_pop (l : LL A) : res (option A * LL A) :=
  if ll_empty l then Ok (None, l)
  else match items l with
       | x :: xs => Ok (Some x, MkLL xs (u64 (len l - 1)))
       | [] => UB
       end.

(** [list_rotate] *)
Definition ll_rotate (l : LL A) : res (A * LL A) :=
  '(x, l') ← ll_pop l;
  match x with
  | Some x => Ok (x, ll_item_append l' x)
  | None => UB
  end.

(** The [len] field counts the items. *)
Definition ll_wf (l : LL A) : Prop :=
  len l = Z.of_nat (length (items l)) ∧ Z.of_nat (length (items l)) < 2 ^ 64.
End AbstractList.

(** ** Lemmas for the clients of the abstract list *)

Section AbstractLemmas.
Context {A : Type}.
Implicit Types (l : LL A) (x : A).

Lemma ll_wf_init : ll_wf (ll_init (A:=A)).
Proof. done. Qed.

Lemma ll_append_wf l x :
  ll_wf l → Z.of_nat (length (items l)) < 2 ^ 64 - 1 → ll_wf (ll_append l x).
Proof.
  intros [Hl Hb] Hb'. unfold ll_wf, ll_append. cbn [items len].
  rewrite length_app, Hl. cbn [length]. rewrite u64_small by lia. lia.
Qed.

Lemma ll_empty_spec l : ll_wf l → ll_empty l = bool_decide (items l = []).
Proof.
  intros [Hl _]. unfold ll_empty. rewrite Hl. destruct (items l); [done|].
  rewrite bool_decide_eq_false_2 by done. apply Z.eqb_neq. cbn. lia.
Qed.

(** The two outcomes of a pop. *)
Lemma ll_pop_cases l :
  ll_wf l →
  items l = [] ∧ ll_pop l = Ok (None, l) ∨
  ∃ x l', items l = x :: items l' ∧ ll_pop l = Ok (Some x, l') ∧ ll_wf l'.
Proof.
  intros Hwf. pose proof (ll_empty_spec l Hwf) as He. destruct Hwf as [Hl Hb].
  unfold ll_pop. rewrite He. destruct l as [[|x xs] n]; cbn [items len length] in *; [by left|].
  right. rewrite bool_decide_eq_false_2 by done. eexists x, (MkLL xs (u64 (n - 1))).
  split_and!; [done..|]. unfold ll_wf. cbn [items len]. rewrite Hl, u64_small; lia.
Qed.

Lemma ll_remove_wf `{EqDecision A} l x :
  ll_wf l → NoDup (items l) → x ∈ items l → ll_wf (ll_dec (ll_item_remove l x)).
Proof.
  intros [Hl Hb] Hnd Hx. apply list_elem_of_split in Hx as (l1 & l2 & E).
  rewrite E in Hnd. apply NoDup_app in Hnd as (? & Hd & [? _]%NoDup_cons).
  unfold ll_wf, ll_dec, ll_item_remove. cbn [items len].
  rewrite E, filter_remove by set_solver. rewrite Hl, E in *.
  rewrite !length_app in *. cbn [length] in *. rewrite u64_small; lia.
Qed.

Lemma ll_remove_not_in `{EqDecision A} l x : x ∉ items l → ll_item_remove l x = l.
Proof. intros. unfold ll_item_remove. rewrite filter_not_in by done. by destruct l. Qed.
End AbstractLemmas.

#[export] Hint Resolve ll_wf_init ll_append_wf ll_remove_wf : trash.

(** ** The pointer code *)

Module Heap.

Record IL : Type := MkIL { next : ptr; prev : ptr }.

(** The nodes that are allocated, and the [len] field of every list, under the
    address of the list; [&list->head] is that same address because [head] is
    the first member of [struct LL]. *)
Record mem : Type := Mem { ils : gmap ptr IL; lens : gmap ptr Z }.

Abbreviation M := (SM mem).

Definition load (p : ptr) : M IL := λ m,
  match ils m !! p with Some n => Ok (n, m) | None => UB end.

Definition store_next (p v : ptr) : M unit := λ m,
  match ils m !! p with
  | Some n => Ok (tt, Mem (<[p := MkIL v (prev n)]> (ils m)) (lens m))
  | None => UB
  end.

Definition store_prev (p v : ptr) : M unit := λ m,
  match ils m !! p with
  | Some n => Ok (tt, Mem (<[p := MkIL (next n) v]> (ils m)) (lens m))
  | None => UB
  end.

Definition load_len (l : ptr) : M Z := λ m,
  match lens m !! l with Some n => Ok (n, m) | None => UB end.

Definition store_len (l : ptr) (n : Z) : M unit := λ m,
  match lens m !! l with
  | Some _ => Ok (tt, Mem (ils m) (<[l := n]> (lens m)))
  | None => UB
  end.

Definition init_il (il : ptr) : M unit :=
  store_prev il il;; store_next il il.

Definition init_list (list : ptr) : M unit :=
  store_next list list;; store_prev list list;; store_len list 0.

Definition empty_list (list : ptr) : M bool :=
  n ← load_len list; mret (n =? 0).

Definition item_append (item1 item2 : ptr) : M unit :=
  n1 ← load item1; store_next (prev n1) item2;;
  n1 ← load item1; store_prev item2 (prev n1);;
  store_prev item1 item2;;
  store_next item2 item1.

Definition list_append (list item : ptr) : M unit :=
  item_append list item;;
  n ← load_len list; store_len list (u64 (n + 1)).

Definition item_remove (item : ptr) : M ptr :=
  n ← load item; store_next (prev n) (next n);;
  n ← load item; store_prev (next n) (prev n);;
  store_prev item item;; store_next item item;;
  mret item.

Definition list_pop (list : ptr) : M ptr :=
  e ← empty_list list;
  if e : bool then mret NULL
  else
    n ← load list;
    rc ← item_remove (next n);
    k ← load_len list; store_len list (u64 (k - 1));;
    mret rc.

Definition list_rotate (list : ptr) : M ptr :=
  item ← list_pop list;
  item_append list item;;
  mret item.

(** The addresses [for_each(head, curr)] visits, in order. *)
Fixpoint for_each_from (fuel : nat) (head curr : ptr) : M (list ptr) :=
  match fuel with
  | O => λ _, NoFuel
  | S fuel =>
      if curr =? head then mret []
      else n ← load curr; rest ← for_each_from fuel head (next n); mret (curr :: rest)
  end.

Definition for_each (fuel : nat) (head : ptr) : M (list ptr) :=
  n ← load head; for_each_from fuel head (next n).

End Heap.

(** ** The pointer code implements the abstract list *)

Module HeapRefines.
Import Heap.

(** [a] links to [b] in both directions. *)
Definition edge (h : gmap ptr IL) (a b : ptr) : Prop :=
  next <$> h !! a = Some b ∧ prev <$> h !! b = Some a.

(** Consecutive addresses are linked. *)
Fixpoint path (h : gmap ptr IL) (l : list ptr) : Prop :=
  match l with
  | a :: ((b :: _) as t) => edge h a b ∧ path h t
  | _ => True
  end.

(** The nodes [xs] hang off [hd] in a closed ring. *)
Definition ring (h : gmap ptr IL) (hd : ptr) (xs : list ptr) : Prop :=
  NoDup (hd :: xs) ∧ path h (hd :: xs ++ [hd]).

(** Memory [m] holds at address [l] the abstract list [s]. *)
Definition repr (m : mem) (l : ptr) (s : LL ptr) : Prop :=
  ring (ils m) l (items s) ∧ lens m !! l = Some (len s).

(** A node that belongs to the memory and to no list: a ring of its own. *)
Definition detached (m : mem) (x : ptr) : Prop := ring (ils m) x [].

Lemma path_app h l1 a l2 : path h (l1 ++ a :: l2) ↔ path h (l1 ++ [a]) ∧ path h (a :: l2).
Proof.
  induction l1 as [|x l1 IH]; [cbn; tauto|].
  destruct l1 as [|y l1]; [cbn; tauto|].
  cbn [app path] in *. tauto.
Qed.

(** A path survives an update that keeps the edges between its own nodes. *)
Lemma path_ext h h' l :
  (∀ a b, a ∈ removelast l → b ∈ tail l → edge h a b → edge h' a b) →
  path h l → path h' l.
Proof.
  induction l as [|a l IH]; [done|].
  destruct l as [|b l]; [done|]. intros Hext [He Hp].
  split; [apply Hext; [set_solver..|done]|].
  apply IH; [|done]. intros x y Hx Hy. apply Hext; [cbn; set_solver|].
  cbn in Hy |- *. set_solver.
Qed.

Lemma edge_alloc_l h a b : edge h a b → is_Some (h !! a).
Proof. intros [H _]. destruct (h !! a); [eauto|done]. Qed.
Lemma edge_alloc_r h a b : edge h a b → is_Some (h !! b).
Proof. intros [_ H]. destruct (h !! b); [eauto|done]. Qed.

(** The last edge and the first edge of a ring. *)
Lemma ring_last h hd xs :
  ring h hd xs → ∃ l z, hd :: xs = l ++ [z] ∧ path h (l ++ [z]) ∧ edge h z hd.
Proof.
  intros [_ Hp]. destruct (exists_last (l:=hd :: xs)) as (l & z & E); [done|].
  exists l, z. split; [done|].
  rewrite app_comm_cons, E, <-app_assoc in Hp. cbn in Hp.
  apply path_app in Hp as [Hp [He _]]. done.
Qed.

Lemma ring_first h hd xs :
  ring h hd xs → ∃ b l, xs ++ [hd] = b :: l ∧ edge h hd b ∧ path h (b :: l).
Proof.
  intros [_ Hp]. destruct (xs ++ [hd]) as [|b l] eqn:E.
  { by apply app_nil in E as [_ ?]. }
  destruct Hp as [He Hp]. eauto 6.
Qed.

(** What an update of a few nodes keeps: the nodes outside [ns]. *)
Definition agree_off (ns : list ptr) (h h' : gmap ptr IL) : Prop :=
  ∀ p, p ∉ ns → h' !! p = h !! p.

Lemma edge_agree_off ns h h' a b :
  agree_off ns h h' → a ∉ ns → b ∉ ns → edge h a b → edge h' a b.
Proof. intros Hag Ha Hb [H1 H2]. split; by rewrite Hag. Qed.

(** A ring that shares no node with the update is untouched. *)
Lemma ring_agree_off ns h h' hd xs :
  agree_off ns h h' → (∀ p, p ∈ ns → p ∉ hd :: xs) → ring h hd xs → ring h' hd xs.
Proof.
  intros Hag Hdisj [Hnd Hp]. split; [done|].
  revert Hp. apply path_ext. intros a b Ha Hb.
  assert (∀ c, c ∈ hd :: xs ++ [hd] → c ∉ ns) as Hout.
  { intros c Hc Hn. specialize (Hdisj c Hn). set_solver. }
  assert (∀ c (l : list ptr), c ∈ removelast l → c ∈ l) as Hrl.
  { intros c l. induction l as [|x [|y l] IH]; cbn; [done|set_solver|].
    intros [->|?]%elem_of_cons; [set_solver|]. apply elem_of_cons; right. apply IH. done. }
  assert (∀ c (l : list ptr), c ∈ tail l → c ∈ l) as Htl.
  { intros c []; cbn; [done|set_solver]. }
  apply edge_agree_off with ns; eauto.
Qed.

Ltac edge_simpl :=
  repeat match goal with
  | |- _ ∧ _ => split
  | H : edge _ _ _ |- _ => destruct H
  | |- edge _ _ _ => split
  end;
  rewrite ?lookup_insert; repeat case_decide; simplify_eq/=; try done; try congruence.

(** [item_append(item1, item2)] puts a detached [item2] between the
    predecessor of [item1] and [item1]. *)
Lemma item_append_edges m z i1 i2 :
  edge (ils m) z i1 → is_Some (ils m !! i2) → i2 ≠ z → i2 ≠ i1 →
  ∃ h', item_append i1 i2 m = Ok (tt, Mem h' (lens m)) ∧
    edge h' z i2 ∧ edge h' i2 i1 ∧
    (∀ a b, a ≠ z → a ≠ i2 → b ≠ i1 → b ≠ i2 → edge (ils m) a b → edge h' a b) ∧
    agree_off [z; i1; i2] (ils m) h'.
Proof.
  intros [Hz H1] [n2 H2] Hne1 Hne2.
  apply fmap_Some in Hz as (nz & Hz & ->). apply fmap_Some in H1 as (n1 & H1 & ->).
  unfold item_append, load, store_next, store_prev, mbind, SM_bind.
  rewrite H1, Hz.
  destruct (decide (next nz = prev n1)) as [E|E].
  - rewrite E in *. assert (nz = n1) as -> by congruence.
    simplify_map_eq. eexists. split; [done|].
    split; [|split; [|split]].
    + edge_simpl.
    + edge_simpl.
    + intros a b ???? [Ha Hb]. split; rewrite !lookup_insert_ne by congruence; done.
    + intros p Hp. rewrite !lookup_insert_ne by set_solver. done.
  - simplify_map_eq. eexists. split; [done|].
    split; [|split; [|split]].
    + edge_simpl.
    + edge_simpl.
    + intros a b ???? [Ha Hb]. split; edge_simpl.
      * by rewrite H1 in Ha.
      * by rewrite Hz in Hb.
    + intros p Hp. rewrite !lookup_insert_ne by set_solver. done.
Qed.

(** [item_remove(x)] joins the neighbours of [x] and leaves [x] detached. *)
Lemma item_remove_edges m a x b :
  edge (ils m) a x → edge (ils m) x b → x ≠ a → x ≠ b →
  ∃ h', item_remove x m = Ok (x, Mem h' (lens m)) ∧
    edge h' a b ∧ edge h' x x ∧
    (∀ c d, c ≠ a → c ≠ x → d ≠ b → d ≠ x → edge (ils m) c d → edge h' c d) ∧
    agree_off [a; x; b] (ils m) h'.
Proof.
  intros [Ha Hxa] [Hxb Hb] Hna Hnb.
  apply fmap_Some in Hxa as (nx & Hx & ->).
  rewrite Hx in Hxb. cbn in Hxb. injection Hxb as <-.
  apply fmap_Some in Ha as (na & Ha & ->). apply fmap_Some in Hb as (nb & Hb & Eb).
  unfold item_remove, load, store_next, store_prev, mbind, mret, SM_bind, SM_ret.
  rewrite Hx, Ha. simplify_map_eq.
  destruct (decide (next nx = prev nx)) as [E|E].
  - rewrite E in *. assert (nb = na) as -> by congruence.
    simplify_map_eq. eexists. split; [done|]. split; [|split; [|split]].
    + edge_simpl.
    + edge_simpl.
    + intros c d ???? [Hc Hd]. split; rewrite !lookup_insert_ne by congruence; done.
    + intros p Hp. rewrite !lookup_insert_ne by set_solver. done.
  - simplify_map_eq. eexists. split; [done|]. split; [|split; [|split]].
    + edge_simpl.
    + edge_simpl.
    + intros c d ???? [Hc Hd]. split; edge_simpl.
      * by rewrite Hb in Hc.
      * by rewrite Ha in Hd.
    + intros p Hp. rewrite !lookup_insert_ne by set_solver. done.
Qed.

Lemma ring_append h h' hd xs x z :
  ring h hd xs → x ∉ hd :: xs →
  edge h z hd →
  edge h' z x → edge h' x hd →
  (∀ a b, a ≠ z → a ≠ x → b ≠ hd → b ≠ x → edge h a b → edge h' a b) →
  ring h' hd (xs ++ [x]).
Proof.
  intros Hr Hx Hz Hzx Hxh Hkeep.
  destruct (ring_last _ _ _ Hr) as (l & z' & E & Hp & Hz').
  assert (z' = z) as -> by (destruct Hz, Hz'; congruence).
  pose proof (proj1 Hr) as Hnd. split.
  - rewrite app_comm_cons. apply NoDup_app. split; [done|].
    split; [set_solver|apply NoDup_singleton].
  - rewrite app_comm_cons, app_comm_cons, E, <-!app_assoc. cbn.
    apply path_app. split; [|split; [done|split; done]].
    revert Hp. apply path_ext. intros a b Ha Hb.
    rewrite removelast_last in Ha. rewrite E in Hx, Hnd.
    apply NoDup_app in Hnd as (Hl & Hdis & _).
    assert (b ∈ xs) as Hb' by (rewrite <-E in Hb; done).
    destruct Hr as [[Hhd Hxs]%NoDup_cons _].
    apply Hkeep; try set_solver.
    intros ->. apply Hx. rewrite <-E. set_solver.
Qed.

Lemma ring_remove h h' hd xs1 x xs2 a b :
  ring h hd (xs1 ++ x :: xs2) →
  edge h a x → edge h x b →
  edge h' a b →
  (∀ c d, c ≠ a → c ≠ x → d ≠ b → d ≠ x → edge h c d → edge h' c d) →
  ring h' hd (xs1 ++ xs2).
Proof.
  intros [Hnd Hp] Ha Hb Hab Hkeep.
  rewrite <-app_assoc, app_comm_cons in Hp.
  destruct (exists_last (l:=hd :: xs1)) as (l1 & a' & E1); [done|].
  rewrite E1, <-app_assoc in Hp. cbn [app] in Hp.
  destruct (xs2 ++ [hd]) as [|b' l2] eqn:E2.
  { by apply app_nil in E2 as [_ ?]. }
  apply path_app in Hp as [Hp1 (Ha' & Hb' & Hp2)].
  assert (a' = a) as -> by (destruct Ha, Ha'; congruence).
  assert (b' = b) as -> by (destruct Hb, Hb'; congruence).
  assert (NoDup ((l1 ++ [a]) ++ x :: xs2)) as Hnd' by (by rewrite <-E1).
  apply NoDup_app in Hnd' as (Hn1 & Hd1 & [Hx2 Hn2]%NoDup_cons).
  assert (hd ∈ l1 ++ [a]) as Hhd by (rewrite <-E1; set_solver).
  split.
  { rewrite app_comm_cons, E1. apply NoDup_app; set_solver. }
  rewrite <-app_assoc, E2, app_comm_cons, E1, <-app_assoc. cbn.
  apply path_app. split; [|split; [done|]].
  - revert Hp1. apply path_ext. intros c d Hc Hd.
    rewrite removelast_last in Hc. apply NoDup_app in Hn1 as (? & ? & _).
    assert (d ∈ xs1) as Hd' by (rewrite <-E1 in Hd; done).
    assert (d ∈ l1 ++ [a]) by (rewrite <-E1; set_solver).
    assert (b ∈ xs2 ++ [hd]) by (rewrite E2; set_solver).
    apply NoDup_cons in Hnd as [? ?]. apply Hkeep; set_solver.
  - revert Hp2. apply path_ext. intros c d Hc Hd. rewrite <-E2 in Hc.
    rewrite removelast_last in Hc.
    assert (d ≠ b).
    { assert (NoDup (xs2 ++ [hd])) as HN.
      { apply NoDup_app. split; [done|split; [|apply NoDup_singleton]]. set_solver. }
      rewrite E2 in HN. apply NoDup_cons in HN as [? _]. set_solver. }
    assert (d ∈ xs2 ++ [hd]) by (rewrite E2; set_solver).
    apply Hkeep; set_solver.
Qed.

(** Every list of [m] that has none of the nodes [ns] is the same list in [m']. *)
Definition others_kept (ns : list ptr) (m m' : mem) : Prop :=
  ∀ l s, repr m l s → (∀ p, p ∈ ns → p ∉ l :: items s) → repr m' l s.

Lemma others_kept_agree ns ns' (h h' : gmap ptr IL) L L' :
  agree_off ns h h' → ns ⊆ ns' → (∀ l, l ∉ ns' → L' !! l = L !! l) →
  others_kept ns' (Mem h L) (Mem h' L').
Proof.
  intros Hag Hsub HL l s [Hr Hl] Hdis. split; cbn in *.
  - apply ring_agree_off with ns h; [done| |done]. intros p ?. apply Hdis. by apply Hsub.
  - rewrite HL; [done|]. intros Hin. specialize (Hdis _ Hin). set_solver.
Qed.

Lemma item_append_repr m l s x :
  repr m l s → x ∉ l :: items s → is_Some (ils m !! x) →
  ∃ m', item_append l x m = Ok (tt, m') ∧ repr m' l (ll_item_append s x) ∧
    lens m' = lens m ∧ agree_off (l :: x :: items s) (ils m) (ils m').
Proof.
  intros [Hr Hlen] Hx Halloc.
  destruct (ring_last _ _ _ Hr) as (l0 & z & E & Hp & Hz).
  assert (z ∈ l :: items s) as Hzin by (rewrite E; set_solver).
  destruct (item_append_edges m z l x) as (h' & Eq & E1 & E2 & Hk & Hag); try set_solver.
  exists (Mem h' (lens m)). split; [done|]. split; [split; [|done]|split; [done|]].
  - cbn. eapply ring_append; eauto.
  - intros p Hp'. cbn. apply Hag. set_solver.
Qed.

Lemma item_remove_repr m l s x :
  repr m l s → x ∈ items s →
  ∃ m', item_remove x m = Ok (x, m') ∧ repr m' l (ll_item_remove s x) ∧
    detached m' x ∧ lens m' = lens m ∧ agree_off (l :: items s) (ils m) (ils m').
Proof.
  intros [Hr Hlen] Hx.
  apply list_elem_of_split in Hx as (xs1 & xs2 & E). pose proof Hr as [Hnd Hp].
  rewrite E in Hr, Hnd, Hp.
  rewrite <-app_assoc, app_comm_cons in Hp.
  destruct (exists_last (l:=l :: xs1)) as (l1 & a & E1); [done|].
  rewrite E1, <-app_assoc in Hp. cbn [app] in Hp.
  destruct (xs2 ++ [l]) as [|b l2] eqn:E2.
  { by apply app_nil in E2 as [_ ?]. }
  apply path_app in Hp as [_ (Ha & Hb & _)].
  assert (a ∈ l :: xs1) by (rewrite E1; set_solver).
  assert (b ∈ xs2 ++ [l]) by (rewrite E2; set_solver).
  assert (x ∉ l :: xs1 ++ xs2) as Hxn.
  { rewrite app_comm_cons in Hnd. apply NoDup_app in Hnd as (_ & Hd & [? _]%NoDup_cons).
    rewrite app_comm_cons. set_solver. }
  destruct (item_remove_edges m a x b) as (h' & Eq & Hab & Hxx & Hk & Hag);
    [done|done|set_solver|set_solver|].
  exists (Mem h' (lens m)). split; [done|].
  assert (filter (λ y, y ≠ x) (items s) = xs1 ++ xs2) as Ef.
  { rewrite E. apply filter_remove; set_solver. }
  split; [split; [|done]|split; [|split; [done|]]].
  - cbn. rewrite Ef. eapply ring_remove; eauto.
  - split; [apply NoDup_singleton|]. cbn. done.
  - intros p Hp'. apply Hag. rewrite E in Hp'. set_solver.
Qed.

(** C34.  [list_append] on a list and a node outside it appends the node, counts it,
    and leaves every list that shares no node with the two as it was. *)
Theorem list_append_refines m l s x :
  repr m l s → x ∉ l :: items s → is_Some (ils m !! x) →
  ∃ m', list_append l x m = Ok (tt, m') ∧ repr m' l (ll_append s x) ∧
    others_kept (l :: x :: items s) m m'.
Proof.
  intros Hrep Hx Halloc.
  destruct (item_append_repr m l s x) as (m' & Eq & [Hr' Hl'] & HL & Hag); try done.
  unfold list_append. rewrite (SM_bind_Ok _ _ _ _ _ Eq).
  destruct m' as [h' L']. cbn in HL, Hag, Hr', Hl'. subst L'.
  unfold load_len, store_len, mbind, SM_bind. cbn. rewrite Hl'. cbn. rewrite Hl'.
  eexists. split; [done|]. split.
  - split; cbn; [done|]. apply lookup_insert_eq.
  - destruct m. eapply others_kept_agree; [exact Hag|set_solver|]. cbn.
    intros p Hp. rewrite lookup_insert_ne by set_solver. done.
Qed.

(** [item_remove] of a member unlinks exactly that node, keeps the order of
    the others and the [len] field, and leaves the node detached. *)
Theorem item_remove_refines m l s x :
  repr m l s → x ∈ items s →
  ∃ m', item_remove x m = Ok (x, m') ∧ repr m' l (ll_item_remove s x) ∧
    detached m' x ∧ others_kept (l :: items s) m m'.
Proof.
  intros Hrep Hx.
  destruct (item_remove_repr m l s x) as (m' & Eq & Hr' & Hd & HL & Hag); try done.
  exists m'. split_and!; [done..|].
  destruct m, m'. cbn in *. subst. eapply others_kept_agree; [exact Hag|set_solver|done].
Qed.

Lemma ll_item_remove_head {A} `{EqDecision A} (x : A) xs n :
  x ∉ xs → ll_item_remove (MkLL (x :: xs) n) x = MkLL xs n.
Proof.
  intros. unfold ll_item_remove. cbn [items len].
  by rewrite (filter_remove x [] xs) by set_solver.
Qed.

(** [list_pop] on a list whose [len] is not 0. *)
Lemma list_pop_cons m l x xs n :
  repr m l (MkLL (x :: xs) n) → n ≠ 0 →
  ∃ m', list_pop l m = Ok (x, m') ∧ repr m' l (MkLL xs (u64 (n - 1))) ∧
    detached m' x ∧ others_kept (l :: x :: xs) m m'.
Proof.
  intros Hrep Hn. pose proof Hrep as [Hr Hl]. cbn in Hr, Hl.
  destruct (item_remove_repr m l (MkLL (x :: xs) n) x) as (m' & Eq & [Hr' Hl'] & Hd & HL & Hag);
    [done|cbn; set_solver|].
  destruct Hr as [Hnd [[Hfirst _] _]].
  apply fmap_Some in Hfirst as (nl & Hnl & Enl). cbn in Enl.
  apply NoDup_cons in Hnd as [_ [Hx _]%NoDup_cons].
  rewrite ll_item_remove_head in Hr', Hl' by done.
  unfold list_pop, empty_list, load_len, load, mbind, mret, SM_bind, SM_ret.
  rewrite Hl. cbn. rewrite (proj2 (Z.eqb_neq n 0) Hn), Hnl, <-Enl, Eq, Hl'.
  unfold store_len. rewrite Hl'. eexists. split; [done|].
  destruct m as [h L], m' as [h' L']. cbn in *. subst L'.
  split_and!; [split; cbn; [done|apply lookup_insert_eq]|done|].
  eapply others_kept_agree; [exact Hag|set_solver|].
  intros p Hp. rewrite lookup_insert_ne by set_solver. done.
Qed.

(** [list_pop] refines the abstract pop: NULL on the empty list, and
    otherwise the first item, unlinked and detached; other lists are kept. *)
Theorem list_pop_refines m l s :
  repr m l s → ll_wf s →
  ∃ r s' m', ll_pop s = Ok (r, s') ∧ list_pop l m = Ok (default NULL r, m') ∧
    repr m' l s' ∧ ll_wf s' ∧ (∀ x, r = Some x → detached m' x) ∧
    others_kept (l :: items s) m m'.
Proof.
  intros Hrep [Hlen Hb]. destruct s as [[|x xs] n]; cbn in Hlen, Hb; subst n.
  - exists None, (MkLL [] 0), m. split_and!; [done| |done|split; done|done|by intros ???].
    destruct Hrep as [_ Hl]. unfold list_pop, empty_list, load_len, mbind, SM_bind.
    by rewrite Hl.
  - destruct (list_pop_cons m l x xs (Z.of_nat (S (length xs)))) as (m' & Eq & Hr & Hd & Hk);
      [done|lia|].
    exists (Some x), (MkLL xs (u64 (Z.of_nat (S (length xs)) - 1))), m'.
    split; [done|]. split; [done|]. split; [done|]. split.
    + unfold ll_wf. cbn [items len]. norm_int; lia.
    + split; [|done]. by intros ? [= <-].
Qed.

(** [list_rotate] moves the first item to the end but, unlike an append,
    does not count it again: the [len] field drops by one. *)
Theorem list_rotate_refines m l x xs n :
  repr m l (MkLL (x :: xs) n) → 0 < n < 2 ^ 64 →
  ∃ m', list_rotate l m = Ok (x, m') ∧ repr m' l (MkLL (xs ++ [x]) (n - 1)) ∧
    ll_rotate (MkLL (x :: xs) n) = Ok (x, MkLL (xs ++ [x]) (n - 1)).
Proof.
  intros Hrep Hn. pose proof Hrep as [[Hnd _] _]. cbn in Hnd.
  destruct (list_pop_cons m l x xs n) as (m1 & Eq1 & Hr1 & Hd1 & _); [done|lia|].
  rewrite u64_small in Hr1 by lia.
  destruct (item_append_repr m1 l (MkLL xs (n - 1)) x) as (m2 & Eq2 & Hr2 & _ & _);
    [done|cbn; apply NoDup_cons in Hnd as [? [??]%NoDup_cons]; set_solver| |].
  { destruct Hd1 as [_ [He _]]. by eapply edge_alloc_l. }
  exists m2. unfold list_rotate. rewrite (SM_bind_Ok _ _ _ _ _ Eq1).
  rewrite (SM_bind_Ok _ _ _ _ _ Eq2). split_and!; [done|done|].
  unfold ll_rotate, ll_pop, ll_empty. cbn -[u64]. rewrite (proj2 (Z.eqb_neq n 0)) by lia.
  cbn -[u64]. by rewrite u64_small by lia.
Qed.

Lemma for_each_from_path m l xs :
  l ∉ xs → path (ils m) (xs ++ [l]) →
  ∀ fuel, (length xs < fuel)%nat →
  for_each_from fuel l (hd l xs) m = Ok (xs, m).
Proof.
  induction xs as [|x xs IH]; intros Hl Hp fuel Hf.
  - destruct fuel; [lia|]. cbn. by rewrite Z.eqb_refl.
  - destruct fuel as [|fuel]; [cbn in Hf; lia|]. cbn [for_each_from hd].
    rewrite (proj2 (Z.eqb_neq x l)) by set_solver.
    assert (∃ n, ils m !! x = Some n ∧ next n = hd l xs) as (n & Hn & En).
    { destruct xs as [|y xs]; cbn in Hp; destruct Hp as [[Hx _] _];
        apply fmap_Some in Hx as (n & ? & ?); exists n; done. }
    rewrite (SM_bind_Ok (load x) _ m n m) by (unfold load; by rewrite Hn).
    rewrite En, (SM_bind_Ok _ _ _ xs m); [done|].
    apply IH; [set_solver| |cbn in Hf; lia].
    destruct xs; cbn in Hp; [done|]. apply Hp.
Qed.

(** [for_each] terminates on every well-formed list, within one test per
    item and one for the head, and visits the items in order, once each. *)
Theorem for_each_visits m l s fuel :
  repr m l s → (length (items s) < fuel)%nat →
  for_each fuel l m = Ok (items s, m).
Proof.
  intros [[Hnd Hp] _] Hf. apply NoDup_cons in Hnd as [Hl _].
  assert (∃ n, ils m !! l = Some n ∧ next n = hd l (items s)) as (n & Hn & En).
  { destruct (items s) as [|y xs]; cbn in Hp; destruct Hp as [[Hx _] _];
      apply fmap_Some in Hx as (n & ? & ?); exists n; done. }
  unfold for_each. rewrite (SM_bind_Ok (load l) _ m n m) by (unfold load; by rewrite Hn).
  rewrite En. apply for_each_from_path; [done| |done].
  destruct (items s); cbn in Hp |- *; [done|apply Hp].
Qed.

(** [init_list] makes an allocated head an empty list; [init_il] makes an
    allocated node a detached one. *)
Theorem init_list_refines m l n :
  is_Some (ils m !! l) → lens m !! l = Some n →
  ∃ m', init_list l m = Ok (tt, m') ∧ repr m' l ll_init ∧ others_kept [l] m m'.
Proof.
  intros [x Hx] Hn. unfold init_list, store_next, store_prev, store_len, mbind, SM_bind.
  rewrite Hx. cbn. rewrite lookup_insert_eq. cbn. rewrite Hn.
  eexists. split; [done|]. split.
  - split; cbn; [|apply lookup_insert_eq]. split; [apply NoDup_singleton|].
    cbn. split; [|done]. split; by rewrite !lookup_insert_eq.
  - destruct m. eapply (others_kept_agree [l]); [|set_solver|].
    + intros p Hp. cbn. rewrite !lookup_insert_ne by set_solver. done.
    + intros p Hp. cbn. rewrite lookup_insert_ne by set_solver. done.
Qed.

(** ** A concrete list *)

(** A list at address 1 with the nodes 2 and 3, and a detached node 4. *)
Definition demo_mem : mem :=
  Mem {[ 1 := MkIL 2 3; 2 := MkIL 3 1; 3 := MkIL 1 2; 4 := MkIL 4 4 ]} {[ 1 := 2 ]}.

Lemma demo_repr : repr demo_mem 1 (MkLL [2; 3] 2).
Proof.
  split; [split|reflexivity]; [|cbn; unfold edge; split_and!; reflexivity].
  apply (bool_decide_unpack _). vm_compute. exact I.
Defined.

Lemma list_append_refines_witness :
  ∃ m', list_append 1 4 demo_mem = Ok (tt, m') ∧ repr m' 1 (MkLL [2; 3; 4] 3) ∧
    others_kept [1; 4; 2; 3] demo_mem m'.
Proof.
  refine (list_append_refines demo_mem 1 (MkLL [2; 3] 2) 4 demo_repr _ _); [|by eexists].
  apply (bool_decide_unpack _). vm_compute. exact I.
Defined.

Lemma item_remove_refines_witness :
  ∃ m', item_remove 3 demo_mem = Ok (3, m') ∧ repr m' 1 (ll_item_remove (MkLL [2; 3] 2) 3) ∧
    detached m' 3 ∧ others_kept [1; 2; 3] demo_mem m'.
Proof.
  refine (item_remove_refines demo_mem 1 (MkLL [2; 3] 2) 3 demo_repr _).
  apply (bool_decide_unpack _). vm_compute. exact I.
Defined.

Lemma list_pop_refines_witness :
  ∃ r s' m', ll_pop (MkLL [2; 3] 2) = Ok (r, s') ∧ list_pop 1 demo_mem = Ok (default NULL r, m') ∧
    repr m' 1 s' ∧ ll_wf s' ∧ (∀ x, r = Some x → detached m' x) ∧
    others_kept [1; 2; 3] demo_mem m'.
Proof.
  refine (list_pop_refines demo_mem 1 (MkLL [2; 3] 2) demo_repr _). split; reflexivity.
Defined.

Lemma list_rotate_refines_witness :
  ∃ m', list_rotate 1 demo_mem = Ok (2, m') ∧ repr m' 1 (MkLL [3; 2] 1) ∧
    ll_rotate (MkLL [2; 3] 2) = Ok (2, MkLL [3; 2] 1).
Proof.
  refine (list_rotate_refines demo_mem 1 2 [3] 2 demo_repr _). split; reflexivity.
Defined.

Lemma for_each_visits_witness : for_each 3 1 demo_mem = Ok ([2; 3], demo_mem).
Proof. refine (for_each_visits demo_mem 1 (MkLL [2; 3] 2) 3 demo_repr _). cbn. lia. Defined.

Lemma init_list_refines_witness :
  ∃ m', init_list 1 demo_mem = Ok (tt, m') ∧ repr m' 1 ll_init ∧ others_kept [1] demo_mem m'.
Proof. refine (init_list_refines demo_mem 1 2 _ _); [by eexists|reflexivity]. Defined.

End HeapRefines.
