(* ===== verification/Message.v ===== *)
(** * Message buffers (src/message.c, include/message.h)

    A [TBuffer] is a growable byte buffer with a read position [start], a write
    position [end] and a NUL byte kept after the last byte.  The lengths are
    [uint32_t], the free space is computed in a [uint16_t] and the new size in
    a [size_t]; the model keeps each at its width.  [alloc] says whether the
    allocation a call makes succeeds. *)

From S2P Require Import Prelude.

Definition DEFAULT_TBUFF_SIZE : Z := 1024.

Record TBuffer : Type := MkTBuffer {
  data : block;
  start : Z;
  end_ : Z;
  capacity : Z }.

(** [reset_tbuff] *)
Definition reset_tbuff (t : TBuffer) : TBuffer := MkTBuffer (data t) 0 0 (capacity t).

(** [init_tbuff]: the struct is the caller's, its block is allocated here. *)
Definition init_tbuff (alloc : bool) (t : TBuffer) (size : Z) : res TBuffer :=
  let t := reset_tbuff t in
  let size := if DEFAULT_TBUFF_SIZE <? size then DEFAULT_TBUFF_SIZE else size in
  c_assert alloc;;
  Ok (MkTBuffer (fresh_block size) (start t) (end_ t) size).

(** [while(needed < size) needed = needed * 2;] on a [size_t] *)
Fixpoint grow (fuel : nat) (needed size : Z) : res Z :=
  match fuel with
  | O => NoFuel
  | S fuel => if needed <? size then grow fuel (u64 (needed * 2)) size else Ok needed
  end.

(** [resize_tbuff]: every [goto error] is [assert(0)]. *)
Definition resize_tbuff (fuel : nat) (alloc : bool) (t : TBuffer) (size : Z) : res TBuffer :=
  if u32 (UINT32_MAX - size) <=? end_ t then AssertFail
  else
    let availSpace := u16 (u32 (capacity t - u32 (end_ t + 1))) in
    if availSpace <? size then
      if capacity t =? UINT32_MAX then AssertFail
      else
        needed ← grow fuel (u32 (capacity t * 2)) size;
        let needed := if UINT32_MAX <? needed then UINT32_MAX else needed in
        if alloc
        then Ok (MkTBuffer (realloc_block (data t) needed) (start t) (end_ t) (u32 needed))
        else AssertFail
    else Ok t.

(** [add_byte_to_tbuffer]; [None] is the NULL pointer. *)
Definition add_byte_to_tbuffer (fuel : nat) (alloc : bool) (t : option TBuffer) (c : Z)
  : res (option TBuffer) :=
  match t with
  | None => Ok None
  | Some t =>
      t ← resize_tbuff fuel alloc t 1;
      d ← write_bytes (data t) (end_ t) [c];
      let e := u32 (end_ t + 1) in
      d ← write_bytes d e [0];
      Ok (Some (MkTBuffer d (start t) e (capacity t)))
  end.

(** [add_bytes_to_tbuffer] *)
Definition add_bytes_to_tbuffer (fuel : nat) (alloc : bool) (t : option TBuffer) (bs : list Z)
  : res (option TBuffer) :=
  match t with
  | None => Ok None
  | Some t =>
      let dataLen := Z.of_nat (length bs) in
      t ← resize_tbuff fuel alloc t dataLen;
      d ← write_bytes (data t) (end_ t) bs;
      let e := u32 (end_ t + dataLen) in
      d ← write_bytes d e [0];
      Ok (Some (MkTBuffer d (start t) e (capacity t)))
  end.

(** [get_byte_from_tbuffer]: the return code, the byte stored through [byte]
    when there is one, and the buffer. *)
Definition get_byte_from_tbuffer (t : option TBuffer) (peek : bool)
  : res (Z * option Z * option TBuffer) :=
  match t with
  | None => Ok (TRASH_ERROR, None, None)
  | Some t =>
      if start t =? end_ t then Ok (TRASH_ERROR, None, Some t)
      else
        let startPtr := start t in
        let t := if peek then t
                 else MkTBuffer (data t) (u32 (start t + 1)) (end_ t) (capacity t) in
        c ← read_byte (data t) startPtr;
        Ok (TRASH_SUCCESS, Some (u8 c), Some t)
  end.

(** ** Well-formed buffers *)

(** The bytes that were added and not read yet. *)
Definition contents (t : TBuffer) : block := slice (data t) (start t) (end_ t).

Definition tbuff_wf (t : TBuffer) : Prop :=
  0 ≤ start t ≤ end_ t ∧ end_ t < capacity t ∧ capacity t ≤ UINT32_MAX ∧
  Z.of_nat (length (data t)) = capacity t.

(** ** The growth loop *)

Lemma grow_spec fuel needed size :
  0 < needed → size ≤ needed * 2 ^ Z.of_nat fuel → size < 2 ^ 32 → needed < 2 ^ 33 →
  ∃ n, grow (S fuel) needed size = Ok n ∧ size ≤ n ∧ needed ≤ n < 2 ^ 33.
Proof.
  revert needed. induction fuel as [|fuel IH]; intros needed Hpos Hsz Hs Hn.
  - cbn. rewrite (proj2 (Z.ltb_ge _ _)) by (cbn in Hsz; lia).
    exists needed. split; [done|lia].
  - cbn [grow]. destruct (Z.ltb_spec needed size).
    + rewrite u64_small by lia.
      destruct (IH (needed * 2)) as (n & E & ? & ?); [lia| |lia|lia|].
      { replace (Z.of_nat (S fuel)) with (Z.of_nat fuel + 1) in Hsz by lia.
        rewrite Z.pow_add_r in Hsz by lia. lia. }
      exists n. split; [exact E|lia].
    + exists needed. split; [done|lia].
Qed.

(** Enough steps for every 32-bit length. *)
Definition grow_fuel : nat := 33.

Lemma grow_terminates fuel needed size :
  (grow_fuel ≤ fuel)%nat → 0 < needed < 2 ^ 33 → size < 2 ^ 32 →
  ∃ n, grow fuel needed size = Ok n ∧ size ≤ n ∧ needed ≤ n < 2 ^ 33.
Proof.
  unfold grow_fuel. intros Hf Hn Hs. destruct fuel as [|fuel]; [lia|].
  apply grow_spec; try lia.
  assert (2 ^ 32 ≤ 2 ^ Z.of_nat fuel) by (apply Z.pow_le_mono_r; lia).
  nia.
Qed.

Lemma grow_zero_diverges fuel size : 0 < size → grow fuel 0 size = NoFuel.
Proof.
  intros. induction fuel as [|fuel IH]; [done|]. cbn [grow].
  by rewrite (proj2 (Z.ltb_lt _ _)) by lia.
Qed.

(** ** Growing keeps the contents *)

Lemma availSpace_bound cap e :
  0 ≤ e < cap → cap ≤ UINT32_MAX → 0 ≤ u16 (u32 (cap - u32 (e + 1))) ≤ cap - (e + 1).
Proof.
  unfold UINT32_MAX. intros. rewrite !u32_small by (rewrite ?u32_small; lia).
  unfold u16. split; [apply Z.mod_pos_bound; lia|apply Z.mod_le; lia].
Qed.

(** What [resize_tbuff] returns: the buffer itself when the free space suffices,
    else a buffer with the same bytes and at least twice the capacity. *)
Lemma resize_tbuff_spec fuel t size :
  tbuff_wf t → capacity t < 2 ^ 31 → (grow_fuel ≤ fuel)%nat →
  0 ≤ size → end_ t + size < UINT32_MAX →
  ∃ t', resize_tbuff fuel true t size = Ok t' ∧ tbuff_wf t' ∧
    start t' = start t ∧ end_ t' = end_ t ∧ contents t' = contents t ∧
    (t' = t ∧ end_ t + size < capacity t ∨
     u16 (u32 (capacity t - u32 (end_ t + 1))) < size ∧ 2 * capacity t ≤ capacity t' ∧
       (size ≤ 2 * capacity t → capacity t' = 2 * capacity t)).
Proof.
  intros Hwf Hcap Hf Hsz Hend. pose proof Hwf as (Hs & He & Hc & Hlen). unfold resize_tbuff.
  pose proof (availSpace_bound (capacity t) (end_ t) ltac:(lia) Hc).
  unfold UINT32_MAX in *. rewrite u32_small by lia.
  rewrite (proj2 (Z.leb_gt _ _)) by lia.
  destruct (Z.ltb_spec (u16 (u32 (capacity t - u32 (end_ t + 1)))) size).
  2:{ exists t. split_and!; try done. left. split; [done|lia]. }
  rewrite (proj2 (Z.eqb_neq _ _)) by lia.
  rewrite (u32_small (capacity t * 2)) by lia.
  destruct (grow_terminates fuel (capacity t * 2) size) as (n & En & Hn1 & Hn2); [done|lia|lia|].
  rewrite En. cbn [mbind res_bind].
  set (n' := if 4294967295 <? n then 4294967295 else n).
  assert (2 * capacity t ≤ n' ≤ 4294967295) as Hn' by (unfold n'; case_bool; bool_to_prop; lia).
  eexists. split; [done|]. rewrite (u32_small n') by lia. unfold tbuff_wf, contents, UINT32_MAX.
  cbn [data start end_ capacity]. rewrite length_realloc_block, slice_realloc by lia.
  split_and!; try done; try lia. right. split_and!; [done|lia|].
  intros Hle. destruct fuel; [unfold grow_fuel in Hf; lia|]. cbn [grow] in En.
  rewrite (proj2 (Z.ltb_ge _ _)) in En by lia. simplify_eq. unfold n'. case_bool; bool_to_prop; lia.
Qed.

(** The two writes of an append: the bytes, then the NUL after them. *)
Lemma append_writes d e bs :
  0 ≤ e → e + Z.of_nat (length bs) < Z.of_nat (length d) →
  ∃ d1 d2, write_bytes d e bs = Ok d1 ∧ write_bytes d1 (e + Z.of_nat (length bs)) [0] = Ok d2 ∧
    length d2 = length d ∧
    ∀ lo, 0 ≤ lo ≤ e → slice d2 lo (e + Z.of_nat (length bs)) = slice d lo e ++ (Some <$> bs).
Proof.
  intros He Hlen. pose proof (write_bytes_Ok d e bs He ltac:(lia)) as E1.
  pose proof (length_write_bytes _ _ _ _ E1) as L1.
  eexists _, _. split; [exact E1|]. split; [apply write_bytes_Ok; cbn; lia|].
  match goal with |- length ?d2 = _ ∧ _ => set (D := d2) end.
  assert (write_bytes _ _ _ = Ok D) as E2 by (apply write_bytes_Ok; cbn; lia).
  pose proof (length_write_bytes _ _ _ _ E2) as L2.
  split; [congruence|]. intros lo Hlo. rewrite <-(slice_write _ _ _ _ _ E1) by lia.
  unfold D, slice. rewrite drop_app_le by (rewrite length_take; lia).
  rewrite take_app_le by (rewrite length_drop, length_take; lia).
  rewrite skipn_firstn_comm, take_take. f_equal. lia.
Qed.

(** Appending to a buffer that has room for the bytes and the NUL. *)
Lemma add_bytes_room fuel t t1 bs :
  resize_tbuff fuel true t (Z.of_nat (length bs)) = Ok t1 →
  tbuff_wf t1 → end_ t1 + Z.of_nat (length bs) < capacity t1 →
  ∃ t', add_bytes_to_tbuffer fuel true (Some t) bs = Ok (Some t') ∧ tbuff_wf t' ∧
    capacity t' = capacity t1 ∧ contents t' = contents t1 ++ (Some <$> bs).
Proof.
  intros Er (Hs & He & Hc & Hl) Hroom. unfold UINT32_MAX in Hc.
  destruct (append_writes (data t1) (end_ t1) bs) as (d1 & d2 & E1 & E2 & Hlen & Hsl); [lia..|].
  unfold add_bytes_to_tbuffer. rewrite Er. cbn [mbind res_bind]. rewrite E1.
  cbn [mbind res_bind]. rewrite u32_small by lia. rewrite E2. cbn [mbind res_bind].
  eexists. split; [done|]. unfold tbuff_wf, contents, UINT32_MAX. cbn [data start end_ capacity].
  split_and!; try lia. apply Hsl. lia.
Qed.

(** Appending at most [capacity] bytes to a well-formed buffer of less than
    2 GiB never writes outside the block: it returns a well-formed buffer whose
    unread bytes are the old ones followed by the new ones. *)
Theorem add_bytes_appends fuel t bs :
  tbuff_wf t → capacity t < 2 ^ 31 → (grow_fuel ≤ fuel)%nat →
  Z.of_nat (length bs) ≤ capacity t →
  ∃ t', add_bytes_to_tbuffer fuel true (Some t) bs = Ok (Some t') ∧ tbuff_wf t' ∧
    contents t' = contents t ++ (Some <$> bs).
Proof.
  intros Hwf Hcap Hf Hle. pose proof Hwf as (? & ? & ? & ?).
  destruct (resize_tbuff_spec fuel t (Z.of_nat (length bs)))
    as (t1 & Er & Hwf1 & Es & Ee & Ec & Hcases); [done|done|done|lia|unfold UINT32_MAX; lia|].
  destruct (add_bytes_room fuel t t1 bs) as (t' & E & Hwf' & _ & Hc'); [done|done| |].
  { destruct Hcases as [[-> ?]|(_ & ? & _)]; lia. }
  exists t'. rewrite Hc', Ec. done.
Qed.

(** The resize ignores the bytes already in the buffer: every append of
    more than [2 * capacity - end] and at most [2 * capacity] bytes that does not
    fit writes past the end of the grown block. *)
Theorem add_bytes_overflows fuel t bs :
  tbuff_wf t → capacity t < 2 ^ 31 → (grow_fuel ≤ fuel)%nat →
  2 * capacity t - end_ t ≤ Z.of_nat (length bs) ≤ 2 * capacity t →
  end_ t + Z.of_nat (length bs) < UINT32_MAX →
  add_bytes_to_tbuffer fuel true (Some t) bs = UB.
Proof.
  intros Hwf Hcap Hf Hlen Hmax. pose proof Hwf as (? & ? & ? & ?).
  destruct (resize_tbuff_spec fuel t (Z.of_nat (length bs)))
    as (t1 & Er & Hwf1 & Es & Ee & Ec & Hcases); [done|done|done|lia|lia|].
  destruct Hcases as [[-> ?]|(_ & _ & Hcap1)]; [lia|]. specialize (Hcap1 ltac:(lia)).
  unfold add_bytes_to_tbuffer. rewrite Er. cbn [mbind res_bind].
  destruct Hwf1 as (? & ? & ? & Hl1).
  destruct (decide (Z.of_nat (length (data t1)) < end_ t1 + Z.of_nat (length bs))).
  { by rewrite write_bytes_UB. }
  rewrite write_bytes_Ok by lia. cbn [mbind res_bind].
  unfold UINT32_MAX in *. rewrite u32_small by lia. rewrite write_bytes_UB; [done|].
  rewrite !length_app, length_fmap, length_take, length_drop. cbn [length]. lia.
Qed.

(** A full one-byte append at any point of a buffer of less than 2 GiB is
    safe and appends that byte. *)
Theorem add_byte_appends fuel t c :
  tbuff_wf t → capacity t < 2 ^ 31 → (grow_fuel ≤ fuel)%nat →
  ∃ t', add_byte_to_tbuffer fuel true (Some t) c = Ok (Some t') ∧ tbuff_wf t' ∧
    contents t' = contents t ++ [Some c].
Proof.
  intros Hwf Hcap Hf. pose proof Hwf as (? & ? & ? & ?).
  change (add_byte_to_tbuffer fuel true (Some t) c)
    with (add_bytes_to_tbuffer fuel true (Some t) [c]).
  destruct (resize_tbuff_spec fuel t 1)
    as (t1 & Er & Hwf1 & Es & Ee & Ec & Hcases); [done|done|done|lia|unfold UINT32_MAX; lia|].
  destruct (add_bytes_room fuel t t1 [c]) as (t' & E & Hwf' & _ & Hc'); [done|done| |].
  { cbn. destruct Hcases as [[-> ?]|(_ & ? & _)]; lia. }
  exists t'. rewrite Hc', Ec. done.
Qed.

(** A buffer whose capacity is a multiple of 2 GiB (0 included) makes the
    growth loop run for ever: its doubled size is 0 modulo 2^32. *)
Theorem resize_diverges fuel alloc t size :
  u32 (capacity t * 2) = 0 → capacity t ≠ UINT32_MAX →
  end_ t < u32 (UINT32_MAX - size) →
  u16 (u32 (capacity t - u32 (end_ t + 1))) < size →
  resize_tbuff fuel alloc t size = NoFuel.
Proof.
  intros H0 Hne Hend Hav. unfold resize_tbuff.
  rewrite (proj2 (Z.leb_gt _ _)), (proj2 (Z.ltb_lt _ _)), (proj2 (Z.eqb_neq _ _)), H0 by done.
  rewrite grow_zero_diverges; [done|]. pose proof (u16_range (u32 (capacity t - u32 (end_ t + 1)))).
  lia.
Qed.

(** Reading takes the bytes in the order they were added: on a buffer whose
    next unread byte is [c] the call succeeds with [c] as an [unsigned char], and
    drops it unless it only peeks; on a buffer with no unread byte it fails and
    changes nothing. *)
Theorem get_byte_reads t peek :
  tbuff_wf t →
  match contents t with
  | [] => get_byte_from_tbuffer (Some t) peek = Ok (TRASH_ERROR, None, Some t)
  | None :: _ => get_byte_from_tbuffer (Some t) peek = UB
  | Some c :: rest => ∃ t', get_byte_from_tbuffer (Some t) peek = Ok (TRASH_SUCCESS, Some (u8 c), Some t')
      ∧ tbuff_wf t' ∧ contents t' = if peek then contents t else rest
  end.
Proof.
  intros (Hs & He & Hc & Hl). unfold contents, slice, get_byte_from_tbuffer.
  destruct (Z.eqb_spec (start t) (end_ t)) as [E|E].
  { rewrite E, Z.sub_diag. done. }
  destruct (drop (Z.to_nat (start t)) (data t)) as [|c ds] eqn:Ed.
  { apply (f_equal length) in Ed. rewrite length_drop in Ed. cbn in Ed. lia. }
  assert (Z.to_nat (end_ t - start t) = S (Z.to_nat (end_ t - (start t + 1)))) as -> by lia.
  cbn [take]. assert (data t !! Z.to_nat (start t) = Some c) as Hlk.
  { rewrite <-(Nat.add_0_r (Z.to_nat (start t))), <-lookup_drop, Ed. done. }
  assert (drop (Z.to_nat (start t + 1)) (data t) = ds) as Ed'.
  { replace (Z.to_nat (start t + 1)) with (1 + Z.to_nat (start t))%nat by lia.
    rewrite Nat.add_comm, <-drop_drop, Ed. done. }
  unfold read_byte, UINT32_MAX in *. rewrite (proj2 (Z.leb_le _ _)) by lia.
  destruct peek; cbn [data]; rewrite Hlk; destruct c as [c|]; try done;
    eexists; (split; [done|]); unfold tbuff_wf, UINT32_MAX; cbn [data start end_ capacity].
  - split_and!; try lia. unfold contents, slice.
    assert (Z.to_nat (end_ t - start t) = S (Z.to_nat (end_ t - (start t + 1)))) as -> by lia.
    by rewrite Ed.
  - rewrite u32_small by lia. split_and!; try lia. by rewrite Ed'.
Qed.

(** ** A concrete buffer *)

(** Eight bytes of which three are used and one is read. *)
Definition demo_buff : TBuffer :=
  MkTBuffer [Some 65; Some 66; Some 200; Some 0; None; None; None; None] 1 3 8.

Lemma demo_buff_wf : tbuff_wf demo_buff.
Proof. unfold tbuff_wf, UINT32_MAX. cbn. lia. Qed.

Lemma add_bytes_appends_witness :
  ∃ t', add_bytes_to_tbuffer grow_fuel true (Some demo_buff) [1; 2; 3; 4; 5; 6] = Ok (Some t') ∧
    tbuff_wf t' ∧ contents t' = (Some <$> [66; 200]) ++ (Some <$> [1; 2; 3; 4; 5; 6]).
Proof.
  apply (add_bytes_appends grow_fuel demo_buff [1; 2; 3; 4; 5; 6] demo_buff_wf);
    [reflexivity | reflexivity | vm_compute; congruence].
Defined.

Lemma add_bytes_overflows_witness :
  add_bytes_to_tbuffer grow_fuel true (Some demo_buff) (repeat 7 14) = UB.
Proof.
  apply (add_bytes_overflows grow_fuel demo_buff (repeat 7 14) demo_buff_wf);
    [reflexivity | reflexivity | split; vm_compute; congruence | reflexivity].
Defined.

Lemma add_byte_appends_witness :
  ∃ t', add_byte_to_tbuffer grow_fuel true (Some demo_buff) 9 = Ok (Some t') ∧ tbuff_wf t' ∧
    contents t' = (Some <$> [66; 200]) ++ [Some 9].
Proof. apply (add_byte_appends grow_fuel demo_buff 9 demo_buff_wf); reflexivity. Defined.

(** The first byte of a buffer of capacity 0 never returns. *)
Lemma resize_diverges_witness : resize_tbuff 1000 true (MkTBuffer [] 0 0 0) 70000 = NoFuel.
Proof. apply resize_diverges; vm_compute; congruence. Defined.

Lemma get_byte_reads_witness :
  ∃ t', get_byte_from_tbuffer (Some demo_buff) false = Ok (TRASH_SUCCESS, Some (u8 66), Some t') ∧
    tbuff_wf t' ∧ contents t' = [Some 200].
Proof. exact (get_byte_reads demo_buff false demo_buff_wf). Defined.
