(* ===== verification/Pool.v ===== *)
(** * The thread pool: data and critical sections (src/pool.c, include/pool.h)

    The structs of pool.c, the work queue, and one definition per critical
    section: the code a thread runs between taking a mutex and releasing it.
    Threads and groups are named by numbers (their addresses in the code); a
    thread's list links ([move]) are the lists that hold its number.  Group.v
    interleaves the sections of one group; the pool-wide operations at the end
    of this file compose them over a [World] of all groups. *)

From S2P Require Import Prelude Il.
From Stdlib Require Import SpecFloat.

(** ** Constants *)

Definition POOL_SUCCESS : Z := 0.
Definition POOL_ERROR : Z := -1.
Definition GROUP_FULL : Z := -2.

Definition GROUP_DYNAMIC : Z := 0x01.
Definition GROUP_FIXED : Z := 0x02.
Definition GROUP_CLOSE : Z := 0x04.
Definition GROUP_CLEAN : Z := 0x08.
Definition GROUP_WAIT : Z := 0x10.
Definition SOFT_KILL : Z := 0x20.
Definition HARD_KILL : Z := 0x40.
Definition POOL_WAITING : Z := 0x80.
Definition Q_SIZE_MULT : Z := 100.

(** ** Data *)

Record Work : Type := MkWork { wf : Z; work_arg : Z }.

#[export] Instance Work_eq_dec : EqDecision Work.
Proof. solve_decision. Defined.

Record Q : Type := MkQ { work : LL Work; qcapacity : Z }.

Inductive Health : Type := well | moderate | poor.
Inductive State : Type := running | idle | dead.

#[export] Instance Health_eq_dec : EqDecision Health.
Proof. solve_decision. Defined.
#[export] Instance State_eq_dec : EqDecision State.
Proof. solve_decision. Defined.

(** [struct TThread]: [id], the mutex and the condition are the number of the
    thread; [tg] is the group it was created for. *)
Record TThread : Type := MkTThread { tstate : State; currTask : option Work }.

(** [struct TGroup]: [thrds] is the array [malloc]ed with [max] entries. *)
Record TGroup : Type := MkTGroup {
  gflags : Z;
  gq : Q;
  idleThrds : LL nat;
  activeThrds : LL nat;
  gthrdMax : Z;
  gthrdMin : Z;
  numThrds : Z;
  thrds : list (option nat) }.

Definition set_gflags (g : TGroup) (f : Z) : TGroup :=
  MkTGroup f (gq g) (idleThrds g) (activeThrds g) (gthrdMax g) (gthrdMin g) (numThrds g) (thrds g).
Definition set_gq (g : TGroup) (x : Q) : TGroup :=
  MkTGroup (gflags g) x (idleThrds g) (activeThrds g) (gthrdMax g) (gthrdMin g) (numThrds g) (thrds g).
Definition set_lists (g : TGroup) (i a : LL nat) : TGroup :=
  MkTGroup (gflags g) (gq g) i a (gthrdMax g) (gthrdMin g) (numThrds g) (thrds g).
Definition set_thrds (g : TGroup) (n : Z) (t : list (option nat)) : TGroup :=
  MkTGroup (gflags g) (gq g) (idleThrds g) (activeThrds g) (gthrdMax g) (gthrdMin g) n t.

(** ** The work queue *)

Definition q_init (capacity : Z) : Q := MkQ ll_init capacity.

Definition q_full (q : Q) : bool := len (work q) =? qcapacity q.

Definition q_empty (q : Q) : bool := ll_empty (work q).

Definition q_append (q : Q) (w : Work) : Z * Q :=
  if q_full q then (POOL_ERROR, q)
  else (POOL_SUCCESS, MkQ (ll_append (work q) w) (qcapacity q)).

Definition q_fetch (q : Q) : res (option Work * Q) :=
  if q_empty q then Ok (None, q)
  else '(w, l) ← ll_pop (work q); Ok (w, MkQ l (qcapacity q)).

(** ** Health of a group *)

(** [(float)n] for an unsigned [n]: binary32, round to nearest even. *)
Definition float_of (n : Z) : spec_float :=
  binary_normalize 24 128 n 0 false.

Definition float_quarter : spec_float := S754_finite false 8388608 (-25).

Definition internal_health_check (g : TGroup) : Health :=
  if q_empty (gq g) then well
  else
    let ratio := SFdiv 24 128 (float_of (len (work (gq g)))) (float_of (qcapacity (gq g))) in
    if SFltb ratio float_quarter then moderate else poor.

(** ** Threads *)

(** Whether the calls that create one thread succeed: [malloc], the mutex and
    condition initialisers, and [pthread_create]. *)
Record Env : Type := MkEnv { malloc_ok : bool; init_ok : bool; create_ok : bool }.

Definition env_ok : Env := MkEnv true true true.

(** [internal_create_thread]: a new thread is running and carries [work]. *)
Definition internal_create_thread (e : Env) (w : option Work) : res (option TThread) :=
  c_assert (malloc_ok e);;
  if init_ok e then Ok (Some (MkTThread running w)) else Ok None.

(** Creating thread [t], as [add_group] and the manager do it (lines 295-304 and
    730-739): create, link into the active list, start, and record the id in
    [tg->thrds[tg->numThrds++]]. *)
Definition start_thread (e : Env) (g : TGroup) (t : nat) (w : option Work) : res (TThread * TGroup) :=
  th ← internal_create_thread e w;
  match th with
  | None => AssertFail
  | Some th =>
      let g := set_lists g (idleThrds g) (ll_append (activeThrds g) t) in
      c_assert (create_ok e);;
      if numThrds g <? Z.of_nat (length (thrds g))
      then Ok (th, set_thrds g (u32 (numThrds g + 1))
                     (<[Z.to_nat (numThrds g) := Some t]> (thrds g)))
      else UB
  end.

(** [item_remove(&tt->move)]: out of whichever list the thread is in. *)
Definition unlink_thread (g : TGroup) (t : nat) : TGroup :=
  set_lists g (ll_item_remove (idleThrds g) t) (ll_item_remove (activeThrds g) t).

(** ** Sections under [mutexGrp] *)

(** What [do_work] does with the work, lines 394-423. *)
Inductive do_work_result : Type :=
| DWRet (rc : Z)
| DWQueued (rc : Z) (health : Health)
| DWAssign (t : nat).

Definition do_work_section (g : TGroup) (w : Work) : res (do_work_result * TGroup) :=
  if has_flag (gflags g) GROUP_CLOSE then Ok (DWRet POOL_ERROR, g)
  else
    '(il, idle') ← ll_pop (idleThrds g);
    match il with
    | None =>
        let '(r, q') := q_append (gq g) w in
        let rc := if r =? 0 then POOL_SUCCESS else GROUP_FULL in
        let g := set_gq g q' in
        Ok (DWQueued rc (internal_health_check g), g)
    | Some t => Ok (DWAssign t, set_lists g idle' (ll_append (activeThrds g) t))
    end.

(** [do_work], lines 426-428, under [mutexThrd] of the thread. *)
Definition do_work_assign (w : Work) (th : TThread) : TThread := MkTThread running (Some w).

(** [internal_wait_helper] *)
Definition internal_wait_helper (g : TGroup) : Z * TGroup :=
  if q_empty (gq g) then (POOL_ERROR, g)
  else (POOL_SUCCESS, set_gflags g (set_flag (gflags g) GROUP_WAIT)).

(** The worker's section, lines 604-644: what the loop does next. *)
Inductive worker_next : Type :=
| WBreak
| WGotoTop
| WSleep (wait : bool).

(** [worker_thread_function] after the task, with [mutexThrd] and [mutexGrp] held.
    The last case reads [wait] although nothing assigned it. *)
Definition worker_section (g : TGroup) (t : nat) (th : TThread)
  : res (worker_next * TGroup * TThread) :=
  if has_flag (gflags g) HARD_KILL then Ok (WBreak, g, th)
  else if has_flag (gflags g) GROUP_CLEAN then AssertFail
  else
    '(task, q') ← q_fetch (gq g);
    let g := set_gq g q' in
    let th := MkTThread (tstate th) task in
    match task with
    | Some _ => Ok (WGotoTop, g, th)
    | None =>
        if has_flag (gflags g) SOFT_KILL then Ok (WBreak, g, th)
        else if decide (tstate th = running) then
          let g := unlink_thread g t in
          let th := MkTThread idle task in
          let wait := (has_flag (gflags g) GROUP_WAIT && (len (activeThrds g) =? 1))%bool in
          let g := if wait then set_gflags g (clear_flag (gflags g) GROUP_WAIT) else g in
          let g := set_lists g (ll_append (idleThrds g) t) (ll_dec (activeThrds g)) in
          Ok (WSleep wait, g, th)
        else UB
    end.

(** [internal_destroy_thread], lines 552-561: the group's part. *)
Definition internal_destroy_thread (g : TGroup) (t : nat) (th : TThread) : res TGroup :=
  let g := unlink_thread g t in
  if decide (tstate th ≠ idle)
  then Ok (set_lists g (idleThrds g) (ll_dec (activeThrds g)))
  else AssertFail.

(** [internal_destroy_group], line 512, and one round of its loop, lines 519-528:
    the thread that is popped and made active again. *)
Definition destroy_group_close (g : TGroup) : TGroup :=
  set_gflags g (set_flag (gflags g) (Z.lor GROUP_CLOSE SOFT_KILL)).

Definition destroy_group_wake (g : TGroup) : res (option nat * TGroup) :=
  '(curr, idle') ← ll_pop (idleThrds g);
  match curr with
  | None => Ok (None, g)
  | Some t => Ok (Some t, set_lists g idle' (ll_append (activeThrds g) t))
  end.

(** How many threads the manager adds to a group, lines 707-721. *)
Definition manager_add_thrds (g : TGroup) : Z :=
  match internal_health_check g with
  | well => 0
  | moderate => u32 (gthrdMax g - numThrds g) / 2
  | poor => u32 (gthrdMax g - numThrds g)
  end.

(** The manager's loop over the new threads, lines 725-740: thread [t] is the
    next unused number, [env] says which creations succeed; the new threads are
    returned in order. *)
Fixpoint manager_grow (env : nat → Env) (n : nat) (g : TGroup) (t : nat)
  : res (list TThread * TGroup) :=
  match n with
  | O => Ok ([], g)
  | S n =>
      '(w, q') ← q_fetch (gq g);
      '(th, g) ← start_thread (env t) (set_gq g q') t w;
      '(ths, g) ← manager_grow env n g (S t);
      Ok (th :: ths, g)
  end.

(** [manager_thread_function], lines 706-741: the section of one group. *)
Definition manager_section (env : nat → Env) (g : TGroup) (t : nat) : res (list TThread * TGroup) :=
  manager_grow env (Z.to_nat (manager_add_thrds g)) g t.

(** The threads [add_group] starts, lines 289-305. *)
Fixpoint add_group_threads (env : nat → Env) (n : nat) (g : TGroup) (t : nat)
  : res (list TThread * TGroup) :=
  match n with
  | O => Ok ([], g)
  | S n =>
      '(th, g) ← start_thread (env t) g t None;
      '(ths, g) ← add_group_threads env n g (S t);
      Ok (th :: ths, g)
  end.

(** [add_group], lines 256-306: the new group and its [min] threads, numbered
    from [t]. *)
Definition add_group_create (env : nat → Env) (min max flags : Z) (t : nat)
  : res (list TThread * TGroup) :=
  c_assert (malloc_ok (env t));;
  let fixed := ((flags =? GROUP_FIXED) || (min =? max))%bool in
  let g := MkTGroup (if fixed then GROUP_FIXED else GROUP_DYNAMIC)
             (q_init (u32 (max * Q_SIZE_MULT))) ll_init ll_init
             (if fixed then min else max) min 0 (replicate (Z.to_nat max) None) in
  add_group_threads env (Z.to_nat min) g t.
