(* ===== verification/Group.v ===== *)
(** * One thread group under every interleaving (src/pool.c)

    The workers of a group, the clients that call [do_work], [wait_pool]'s mark,
    the manager and [internal_destroy_group], interleaved at the granularity of
    the mutexes: an event is one critical section, or one stretch of code that
    runs without a lock. *)

From S2P Require Import Prelude Il Pool.

(** Where a worker is in [worker_thread_function]. *)
Inductive wpc : Type :=
| PLock             (* line 584: about to lock its own mutex *)
| PRun (w : Work)   (* lines 587-591: running the task, no lock held *)
| PGroup            (* line 603: own mutex held, about to lock the group *)
| PNotify           (* line 647: own mutex held, about to lock the pool *)
| PWait             (* line 655: waiting on its own condition, mutex released *)
| PExit             (* line 661: left the loop *)
| PDead.            (* freed *)

Record Worker : Type := MkWorker { wt : TThread; pc : wpc }.

(** A client thread: between calls, or in [do_work] after it popped an idle
    thread and before it hands the work over (line 425). *)
Inductive client : Type :=
| CReady (rc : Z)
| CAssign (t : nat) (w : Work).

(** [held]: [internal_destroy_group] holds [mutexGrp].  [submitted] and
    [executed] record the work that [do_work] accepted and that a worker ran;
    [notified] counts the decrements of [groupsWaiting]. *)
Record Sys : Type := MkSys {
  grp : TGroup;
  workers : list Worker;
  clients : list client;
  held : bool;
  submitted : list Work;
  executed : list Work;
  notified : nat }.

Inductive event : Type :=
| EWorker (t : nat)
| EDoWork (c : nat) (w : Work)
| EAssign (c : nat)
| EMark
| EGrow (env : nat → Env)
| EClose
| EWake.

Definition set_worker (s : Sys) (g : TGroup) (t : nat) (wk : Worker) : Sys :=
  MkSys g (<[t := wk]> (workers s)) (clients s) (held s) (submitted s) (executed s) (notified s).

(** The mutex of a thread is free exactly where the thread does not hold it. *)
Definition unlocked (p : wpc) : bool :=
  match p with PLock | PRun _ | PWait => true | _ => false end.

(** The group is in the pool's list until [destroy_group] unlinks it. *)
Definition open (s : Sys) : bool := negb (has_flag (gflags (grp s)) GROUP_CLOSE).

(** One step of a worker. *)
Definition worker_step (s : Sys) (t : nat) (wk : Worker) : option (res Sys) :=
  let th := wt wk in
  match pc wk with
  | PLock =>
      Some (Ok (set_worker s (grp s) t
        (MkWorker th (match currTask th with Some w => PRun w | None => PGroup end))))
  | PRun w =>
      Some (Ok (MkSys (grp s) (<[t := MkWorker (MkTThread (tstate th) None) PGroup]> (workers s))
        (clients s) (held s) (submitted s) (executed s ++ [w]) (notified s)))
  | PGroup =>
      if held s then None
      else Some (
        '(nxt, g, th) ← worker_section (grp s) t th;
        Ok (set_worker s g t (MkWorker th
          match nxt with
          | WBreak => PExit
          | WGotoTop => match currTask th with Some w => PRun w | None => PGroup end
          | WSleep true => PNotify
          | WSleep false => PWait
          end)))
  | PNotify =>
      Some (Ok (MkSys (grp s) (<[t := MkWorker th PWait]> (workers s))
        (clients s) (held s) (submitted s) (executed s) (S (notified s))))
  | PWait =>
      if decide (tstate th = idle) then None
      else Some (Ok (set_worker s (grp s) t (MkWorker th PLock)))
  | PExit =>
      if held s then None
      else Some (g ← internal_destroy_thread (grp s) t th;
                 Ok (set_worker s g t (MkWorker th PDead)))
  | PDead => None
  end.

Definition set_client (s : Sys) (g : TGroup) (c : nat) (cl : client) (sub : list Work) : Sys :=
  MkSys g (workers s) (<[c := cl]> (clients s)) (held s) (submitted s ++ sub) (executed s) (notified s).

(** [do_work] up to the release of the group's mutex. *)
Definition do_work_step (s : Sys) (c : nat) (w : Work) : option (res Sys) :=
  if held s then None
  else Some (
    '(r, g) ← do_work_section (grp s) w;
    Ok match r with
       | DWRet rc => set_client s g c (CReady rc) []
       | DWQueued rc _ => set_client s g c (CReady rc) (if rc =? POOL_SUCCESS then [w] else [])
       | DWAssign t => set_client s g c (CAssign t w) [w]
       end).

(** Waking thread [t] under its own mutex, with the task [f] gives it. *)
Definition wake_thread (s : Sys) (t : nat) (f : TThread → TThread) : option (res (list Worker)) :=
  match workers s !! t with
  | None => Some UB
  | Some wk =>
      match pc wk with
      | PDead => Some UB
      | p => if unlocked p then Some (Ok (<[t := MkWorker (f (wt wk)) p]> (workers s))) else None
      end
  end.

(** An event: [None] when it is not enabled. *)
Definition run (e : event) (s : Sys) : option (res Sys) :=
  match e with
  | EWorker t => wk ← workers s !! t; worker_step s t wk
  | EDoWork c w =>
      match clients s !! c with
      | Some (CReady _) => do_work_step s c w
      | _ => None
      end
  | EAssign c =>
      match clients s !! c with
      | Some (CAssign t w) =>
          r ← wake_thread s t (do_work_assign w);
          Some (ws ← r; Ok (MkSys (grp s) ws (<[c := CReady POOL_SUCCESS]> (clients s)) (held s)
                              (submitted s) (executed s) (notified s)))
      | _ => None
      end
  | EMark =>
      if (held s || negb (open s))%bool then None
      else Some (Ok (MkSys (internal_wait_helper (grp s)).2 (workers s) (clients s) (held s)
                       (submitted s) (executed s) (notified s)))
  | EGrow env =>
      if (held s || negb (open s))%bool then None
      else Some ('(ths, g) ← manager_section env (grp s) (length (workers s));
                 Ok (MkSys g (workers s ++ ((λ th, MkWorker th PLock) <$> ths)) (clients s)
                       (held s) (submitted s) (executed s) (notified s)))
  | EClose =>
      if (held s || negb (open s))%bool then None
      else Some (Ok (MkSys (destroy_group_close (grp s)) (workers s) (clients s) true
                       (submitted s) (executed s) (notified s)))
  | EWake =>
      if held s then
        match destroy_group_wake (grp s) with
        | Ok (None, g) =>
            Some (Ok (MkSys g (workers s) (clients s) false (submitted s) (executed s) (notified s)))
        | Ok (Some t, g) =>
            r ← wake_thread s t (λ th, MkTThread running (currTask th));
            Some (ws ← r; Ok (MkSys g ws (clients s) (held s)
                                (submitted s) (executed s) (notified s)))
        | AssertFail => Some AssertFail
        | UB => Some UB
        | NoFuel => Some NoFuel
        end
      else None
  end.

(** The group as [add_group] leaves it, with [n] client threads. *)
Definition initial (env : nat → Env) (min max flags : Z) (n : nat) : res Sys :=
  '(ths, g) ← add_group_create env min max flags 0;
  Ok (MkSys g ((λ th, MkWorker th PLock) <$> ths) (replicate n (CReady 0)) false [] [] 0).

Inductive step : Sys → Sys → Prop :=
| step_run e s s' : run e s = Some (Ok s') → step s s'.

(** The states a group reaches from its creation. *)
Definition reachable (s : Sys) : Prop :=
  ∃ env min max flags n s0,
    1 ≤ min ≤ max ∧ max * Q_SIZE_MULT < 2 ^ 32 ∧
    initial env min max flags n = Ok s0 ∧ rtc step s0 s.

Fixpoint run_all (es : list event) (s : Sys) : option (res Sys) :=
  match es with
  | [] => Some (Ok s)
  | e :: es => r ← run e s; match r with Ok s => run_all es s | r => Some r end
  end.
