(* ===== verification/GroupInv.v ===== *)
(** * The invariant of a thread group

    What holds of a group between any two critical sections, whatever the
    interleaving, and that every event of Group.v keeps it. *)

From S2P Require Import Prelude Il Pool Group.

Definition sleeping (wk : Worker) : Prop :=
  tstate (wt wk) = idle ∧ (pc wk = PWait ∨ pc wk = PNotify) ∧ currTask (wt wk) = None.

Definition awake (wk : Worker) : Prop :=
  tstate (wt wk) = running ∧
  match pc wk with
  | PRun w => currTask (wt wk) = Some w
  | PGroup | PExit => currTask (wt wk) = None
  | PLock | PWait => True
  | PNotify | PDead => False
  end.

(** A client has popped thread [t] and not handed it the work yet. *)
Definition pending (cs : list client) (t : nat) : Prop :=
  ∃ c w, cs !! c = Some (CAssign t w).

(** A thread sleeps in the idle list, or works in the active list, or sleeps in
    the active list until a client hands it work, or is gone. *)
Definition place (g : TGroup) (cs : list client) (t : nat) (wk : Worker) : Prop :=
  (t ∈ items (idleThrds g) ∧ not (t ∈ items (activeThrds g)) ∧ sleeping wk ∧ not (pending cs t)) ∨
  (not (t ∈ items (idleThrds g)) ∧ t ∈ items (activeThrds g) ∧ awake wk ∧ not (pending cs t)) ∨
  (not (t ∈ items (idleThrds g)) ∧ t ∈ items (activeThrds g) ∧ sleeping wk ∧ pending cs t) ∨
  (not (t ∈ items (idleThrds g)) ∧ not (t ∈ items (activeThrds g)) ∧ pc wk = PDead ∧
     currTask (wt wk) = None ∧ not (pending cs t)).

Definition cwork (c : client) : option Work :=
  match c with CAssign _ w => Some w | CReady _ => None end.

Definition wtask (wk : Worker) : option Work := currTask (wt wk).

Definition leaving (wk : Worker) : Prop := pc wk = PExit ∨ pc wk = PDead.

Definition closed (g : TGroup) : bool := has_flag (gflags g) GROUP_CLOSE.

(** The structure of the group's own fields. *)
Record group_ok (g : TGroup) (n : nat) : Prop := {
  ok_idle : ll_wf (idleThrds g);
  ok_active : ll_wf (activeThrds g);
  ok_queue : ll_wf (work (gq g));
  ok_nodup : NoDup (items (idleThrds g) ++ items (activeThrds g));
  ok_idx : ∀ t, t ∈ items (idleThrds g) ++ items (activeThrds g) → (t < n)%nat;
  ok_cap : Z.of_nat (length (items (work (gq g)))) ≤ qcapacity (gq g) < 2 ^ 32;
  ok_num : numThrds g = Z.of_nat n;
  ok_max : Z.of_nat n ≤ gthrdMax g ≤ Z.of_nat (length (thrds g));
  ok_size : Z.of_nat (length (thrds g)) < 2 ^ 32;
  ok_hard : has_flag (gflags g) HARD_KILL = false;
  ok_clean : has_flag (gflags g) GROUP_CLEAN = false;
  ok_soft : has_flag (gflags g) SOFT_KILL = closed g }.

Record Inv (s : Sys) : Prop := {
  inv_ok : group_ok (grp s) (length (workers s));
  inv_some : (0 < length (workers s))%nat;
  inv_place : ∀ t wk, workers s !! t = Some wk → place (grp s) (clients s) t wk;
  inv_cl : ∀ c t w, clients s !! c = Some (CAssign t w) → (t < length (workers s))%nat;
  inv_uniq : ∀ c c' t w w', clients s !! c = Some (CAssign t w) →
    clients s !! c' = Some (CAssign t w') → c = c';
  inv_work : items (work (gq (grp s))) ≠ [] → items (idleThrds (grp s)) = [];
  inv_leave : ∀ t wk, workers s !! t = Some wk → leaving wk →
    items (work (gq (grp s))) = [] ∧ closed (grp s) = true;
  inv_held : held s = true → closed (grp s) = true;
  inv_released : closed (grp s) = true → held s = false → items (idleThrds (grp s)) = [];
  inv_wait : has_flag (gflags (grp s)) GROUP_WAIT = true → closed (grp s) = false →
    items (activeThrds (grp s)) ≠ [];
  inv_cons : submitted s ≡ₚ items (work (gq (grp s))) ++ omap cwork (clients s)
    ++ omap wtask (workers s) ++ executed s }.

(** ** Collecting the work from a table *)

Definition opt_list {A} (o : option A) : list A := match o with Some a => [a] | None => [] end.

Lemma omap_insert_perm {A B} (f : A → option B) (l : list A) i x :
  l !! i = Some x →
  ∃ L, omap f l ≡ₚ opt_list (f x) ++ L ∧
    ∀ y, omap f (<[i:=y]> l) ≡ₚ opt_list (f y) ++ L.
Proof.
  intros Hi. pose proof (lookup_lt_Some _ _ _ Hi) as Hlt.
  exists (omap f (take i l) ++ omap f (drop (S i) l)).
  assert (∀ y, omap f (take i l ++ y :: drop (S i) l)
    ≡ₚ opt_list (f y) ++ omap f (take i l) ++ omap f (drop (S i) l)) as Hc.
  { intros y. rewrite omap_app. cbn. destruct (f y); [|done]. cbn. symmetry. apply Permutation_middle. }
  split.
  - rewrite <-Hc. by rewrite take_drop_middle.
  - intros y. rewrite <-Hc. by rewrite insert_take_drop.
Qed.

(** ** Flags *)

(** Rewrites tests of the group's flags after a flag was set or cleared. *)
Ltac flags :=
  unfold closed in *;
  change GROUP_CLOSE with (2 ^ 2) in *; change GROUP_CLEAN with (2 ^ 3) in *;
  change GROUP_WAIT with (2 ^ 4) in *; change SOFT_KILL with (2 ^ 5) in *;
  change HARD_KILL with (2 ^ 6) in *;
  rewrite ?has_set_flag, ?has_clear_flag by lia;
  cbn [Z.eqb Pos.eqb negb]; rewrite ?orb_false_r, ?orb_true_r, ?andb_true_r, ?andb_false_r.

Lemma set_gq_id g : set_gq g (gq g) = g.
Proof. by destruct g. Qed.
Lemma set_lists_id g : set_lists g (idleThrds g) (activeThrds g) = g.
Proof. by destruct g. Qed.
Lemma unlink_active g t :
  t ∉ items (idleThrds g) →
  unlink_thread g t = set_lists g (idleThrds g) (ll_item_remove (activeThrds g) t).
Proof. intros. unfold unlink_thread. by rewrite ll_remove_not_in. Qed.

(** ** The sections on a well-formed group *)

Lemma group_ok_flags g n f :
  group_ok g n →
  has_flag f HARD_KILL = false → has_flag f GROUP_CLEAN = false →
  has_flag f SOFT_KILL = has_flag f GROUP_CLOSE → group_ok (set_gflags g f) n.
Proof. intros [] ???. by constructor. Qed.

Lemma group_ok_queue g n l :
  group_ok g n → ll_wf l → Z.of_nat (length (items l)) ≤ qcapacity (gq g) →
  group_ok (set_gq g (MkQ l (qcapacity (gq g)))) n.
Proof. intros [] ??. constructor; cbn; try done. lia. Qed.

(** Members of a group are distinct indices, so the lists are short. *)
Lemma NoDup_bounded (l : list nat) n :
  NoDup l → (∀ t, t ∈ l → (t < n)%nat) → (length l ≤ n)%nat.
Proof.
  intros Hnd Hlt. rewrite <-(length_seq n 0). apply submseteq_length.
  apply NoDup_submseteq; [done|]. intros t Ht. apply elem_of_seq. specialize (Hlt t Ht). lia.
Qed.

Lemma group_ok_length g n :
  group_ok g n → (length (items (idleThrds g)) + length (items (activeThrds g)) ≤ n)%nat.
Proof.
  intros []. rewrite <-length_app. by apply NoDup_bounded.
Qed.

Lemma group_ok_lists g n i a :
  group_ok g n → ll_wf i → ll_wf a →
  items i ++ items a ≡ₚ items (idleThrds g) ++ items (activeThrds g) →
  group_ok (set_lists g i a) n.
Proof.
  intros [] ?? HP. constructor; cbn; try done.
  - by rewrite HP.
  - intros t. rewrite HP. auto.
Qed.

(** A thread moves from the active list to the idle list. *)
Lemma group_ok_sleep g n t :
  group_ok g n → t ∈ items (activeThrds g) →
  group_ok (set_lists g (ll_append (idleThrds g) t)
              (ll_dec (ll_item_remove (activeThrds g) t))) n.
Proof.
  intros Hok Ht. pose proof (group_ok_length g n Hok) as Hlen. pose proof Hok as [].
  assert (Z.of_nat n < 2 ^ 32) as Hn by lia. pose proof ok_nodup0 as (Hi & Hd & Ha)%NoDup_app.
  apply group_ok_lists; [done|apply ll_append_wf; [done|lia]|by apply ll_remove_wf|].
  cbn. apply list_elem_of_split in Ht as (l1 & l2 & El). rewrite El in *.
  apply NoDup_app in Ha as (? & ? & [? _]%NoDup_cons).
  rewrite filter_remove by set_solver. rewrite <-app_assoc.
  apply Permutation_app_head, (Permutation_middle l1 l2 t).
Qed.

(** A thread moves from the idle list to the active list. *)
Lemma group_ok_pop g n t idle' :
  group_ok g n → items (idleThrds g) = t :: items idle' → ll_wf idle' →
  group_ok (set_lists g idle' (ll_append (activeThrds g) t)) n.
Proof.
  intros Hok Et Hw. pose proof (group_ok_length g n Hok) as Hlen. pose proof Hok as [].
  apply group_ok_lists; [done|done|apply ll_append_wf; [done|rewrite Et in Hlen; cbn in Hlen; lia]|].
  cbn. rewrite Et. rewrite app_assoc, (Permutation_app_comm _ [t]). done.
Qed.

Lemma q_fetch_cases q :
  ll_wf (work q) →
  items (work q) = [] ∧ q_fetch q = Ok (None, q) ∨
  ∃ w l, items (work q) = w :: items l ∧ q_fetch q = Ok (Some w, MkQ l (qcapacity q)) ∧ ll_wf l.
Proof.
  intros Hwf. unfold q_fetch, q_empty. rewrite (ll_empty_spec _ Hwf).
  destruct (ll_pop_cases _ Hwf) as [[E _]|(w & l & E & Ep & Hl)]; rewrite E.
  - left. done.
  - right. exists w, l. rewrite bool_decide_eq_false_2 by done. by rewrite Ep.
Qed.

(** The worker's section takes a task, or leaves the loop after [SOFT_KILL], or
    puts the thread to sleep. *)
Inductive worker_outcome (g : TGroup) (t : nat) : worker_next * TGroup * TThread → Prop :=
| wo_task w l :
    items (work (gq g)) = w :: items l → ll_wf l →
    worker_outcome g t (WGotoTop, set_gq g (MkQ l (qcapacity (gq g))), MkTThread running (Some w))
| wo_break :
    items (work (gq g)) = [] → closed g = true →
    worker_outcome g t (WBreak, g, MkTThread running None)
| wo_sleep wait f :
    items (work (gq g)) = [] → closed g = false →
    wait = (has_flag (gflags g) GROUP_WAIT && (len (activeThrds g) =? 1))%bool →
    f = (if wait then clear_flag (gflags g) GROUP_WAIT else gflags g) →
    worker_outcome g t (WSleep wait,
      set_lists (set_gflags g f) (ll_append (idleThrds g) t)
        (ll_dec (ll_item_remove (activeThrds g) t)),
      MkTThread idle None).

Lemma worker_section_outcome g n t th :
  group_ok g n → tstate th = running → t ∉ items (idleThrds g) →
  ∃ r, worker_section g t th = Ok r ∧ worker_outcome g t r.
Proof.
  intros Hok Hrun Hni. pose proof Hok as []. unfold worker_section.
  rewrite ok_hard0, ok_clean0.
  destruct (q_fetch_cases (gq g) ok_queue0) as [[E Ef]|(w & l & E & Ef & Hl)];
    rewrite Ef; cbn [mbind res_bind].
  - rewrite set_gq_id, ok_soft0. destruct (closed g) eqn:Ec.
    + eexists. split; [done|]. rewrite Hrun. by constructor.
    + rewrite decide_True by done. rewrite unlink_active by done.
      eexists. split; [done|]. cbn [set_lists activeThrds gflags ll_item_remove len].
      set (wait := (has_flag (gflags g) GROUP_WAIT && _)%bool).
      pose proof (wo_sleep g t wait _ E Ec eq_refl eq_refl) as Hw. destruct wait; exact Hw.
  - rewrite Hrun. eexists. split; [done|]. by econstructor.
Qed.

Lemma group_ok_worker g n t nxt g' th' :
  group_ok g n → t ∈ items (activeThrds g) →
  worker_outcome g t (nxt, g', th') → group_ok g' n.
Proof.
  intros Hok Ht Ho. pose proof Hok as []. inversion Ho; subst; clear Ho.
  - apply group_ok_queue; [done..|]. rewrite H1 in ok_cap0. cbn in ok_cap0. lia.
  - done.
  - pose proof (group_ok_sleep g n t Hok Ht) as Hs.
    match goal with |- group_ok (set_lists (set_gflags _ ?f) _ _) _ =>
      change (group_ok (set_gflags (set_lists g (ll_append (idleThrds g) t)
        (ll_dec (ll_item_remove (activeThrds g) t))) f) n) end.
    apply group_ok_flags; [done|..]; destruct (_ && _)%bool; try done; flags; done.
Qed.

(** A leaving thread takes itself out of the active list. *)
Lemma destroy_thread_ok g n t th :
  group_ok g n → tstate th = running → t ∉ items (idleThrds g) → t ∈ items (activeThrds g) →
  ∃ g', internal_destroy_thread g t th = Ok g' ∧ group_ok g' n ∧
    g' = set_lists g (idleThrds g) (ll_dec (ll_item_remove (activeThrds g) t)).
Proof.
  intros Hok Hrun Hni Hin. pose proof Hok as []. unfold internal_destroy_thread.
  rewrite unlink_active, decide_True by (done || by rewrite Hrun).
  eexists. split; [done|]. split; [|done].
  apply NoDup_app in ok_nodup0 as (Hi & Hd & Ha).
  constructor; cbn; try done.
  - by apply ll_remove_wf.
  - apply NoDup_app. split_and!; [done| |by apply NoDup_filter].
    intros x Hx [_ ?]%list_elem_of_filter. by apply (Hd x).
  - intros x [Hx|[_ Hx]%list_elem_of_filter]%elem_of_app; apply ok_idx0; set_solver.
Qed.

(** [do_work] is refused after the close, hands the work to an idle thread, or
    queues it when there is none. *)
Inductive do_work_outcome (g : TGroup) (w : Work) : do_work_result * TGroup → Prop :=
| dwo_closed : closed g = true → do_work_outcome g w (DWRet POOL_ERROR, g)
| dwo_assign t idle' :
    closed g = false → items (idleThrds g) = t :: items idle' → ll_wf idle' →
    do_work_outcome g w (DWAssign t, set_lists g idle' (ll_append (activeThrds g) t))
| dwo_queued h :
    closed g = false → items (idleThrds g) = [] →
    Z.of_nat (length (items (work (gq g)))) < qcapacity (gq g) →
    do_work_outcome g w (DWQueued POOL_SUCCESS h,
      set_gq g (MkQ (ll_append (work (gq g)) w) (qcapacity (gq g))))
| dwo_full h :
    closed g = false → items (idleThrds g) = [] →
    Z.of_nat (length (items (work (gq g)))) = qcapacity (gq g) →
    do_work_outcome g w (DWQueued GROUP_FULL h, g).

Lemma do_work_section_outcome g n w :
  group_ok g n → ∃ r, do_work_section g w = Ok r ∧ do_work_outcome g w r.
Proof.
  intros Hok. pose proof Hok as []. unfold do_work_section.
  change (has_flag (gflags g) GROUP_CLOSE) with (closed g).
  destruct (closed g) eqn:Ec; [eexists; split; [done|by constructor]|].
  destruct (ll_pop_cases _ ok_idle0) as [[E Ep]|(t & l & E & Ep & Hl)]; rewrite Ep; cbn [mbind res_bind].
  - unfold q_append, q_full. destruct ok_queue0 as [El _]. rewrite El.
    destruct (Z.eqb_spec (Z.of_nat (length (items (work (gq g))))) (qcapacity (gq g))).
    + eexists. split; [done|]. rewrite set_gq_id. by constructor.
    + eexists. split; [done|]. constructor; [done..|lia].
  - eexists. split; [done|]. by constructor.
Qed.

(** ** Preservation *)

Lemma place_other g g' cs cs' t wk :
  (t ∈ items (idleThrds g') ↔ t ∈ items (idleThrds g)) →
  (t ∈ items (activeThrds g') ↔ t ∈ items (activeThrds g)) →
  (pending cs' t ↔ pending cs t) →
  place g cs t wk → place g' cs' t wk.
Proof. unfold place. intros -> -> ->. done. Qed.

(** The workers' table after an update of thread [t]. *)
Lemma place_insert g g' cs cs' (ws : list Worker) t wk' :
  (∀ t' wk, ws !! t' = Some wk → place g cs t' wk) →
  place g' cs' t wk' →
  (∀ t', t' ≠ t → (t' ∈ items (idleThrds g') ↔ t' ∈ items (idleThrds g)) ∧
                  (t' ∈ items (activeThrds g') ↔ t' ∈ items (activeThrds g)) ∧
                  (pending cs' t' ↔ pending cs t')) →
  ∀ t' wk, <[t := wk']> ws !! t' = Some wk → place g' cs' t' wk.
Proof.
  intros Hp Ht Ho t' wk [(<- & <- & _)|[Hne Hl]]%list_lookup_insert_Some; [done|].
  destruct (Ho t') as (H1 & H2 & H3); [done|]. eapply place_other; eauto.
Qed.

(** A thread's own step: the group is unchanged. *)
Lemma inv_thread_update s t wk wk' ex k :
  Inv s → workers s !! t = Some wk → place (grp s) (clients s) t wk' →
  (leaving wk' → leaving wk) →
  opt_list (wtask wk') ++ ex ≡ₚ opt_list (wtask wk) ++ executed s →
  Inv (MkSys (grp s) (<[t:=wk']> (workers s)) (clients s) (held s) (submitted s) ex k).
Proof.
  intros [] Ht Hp Hl Hperm. constructor; cbn; rewrite ?length_insert; try done.
  - eapply place_insert; [done|done|]. done.
  - intros t' wk0 [(<- & <- & _)|[Hne Hlk]]%list_lookup_insert_Some Hlv; eauto.
  - destruct (omap_insert_perm wtask (workers s) t wk Ht) as (L & E1 & E2).
    rewrite inv_cons0, E1, E2. do 2 apply Permutation_app_head.
    rewrite <-!app_assoc, !(Permutation_app_comm L), !app_assoc. by rewrite Hperm.
Qed.

Lemma inv_lock s t wk :
  Inv s → workers s !! t = Some wk → pc wk = PLock →
  Inv (set_worker s (grp s) t (MkWorker (wt wk)
    (match currTask (wt wk) with Some w => PRun w | None => PGroup end))).
Proof.
  intros Hinv Ht Hpc. apply inv_thread_update with wk; [done|done| | |done].
  - pose proof (inv_place s Hinv t wk Ht) as Hp. unfold place, sleeping, awake in *.
    rewrite Hpc in Hp. cbn. destruct (currTask (wt wk)); naive_solver.
  - unfold leaving. cbn. destruct (currTask (wt wk)); naive_solver.
Qed.

Lemma inv_run s t wk w :
  Inv s → workers s !! t = Some wk → pc wk = PRun w →
  Inv (MkSys (grp s) (<[t := MkWorker (MkTThread (tstate (wt wk)) None) PGroup]> (workers s))
        (clients s) (held s) (submitted s) (executed s ++ [w]) (notified s)).
Proof.
  intros Hinv Ht Hpc. pose proof (inv_place s Hinv t wk Ht) as Hp.
  unfold place, sleeping, awake in Hp. rewrite Hpc in Hp.
  apply inv_thread_update with wk; [done|done| | |].
  - unfold place, sleeping, awake. cbn. naive_solver.
  - unfold leaving. cbn. naive_solver.
  - assert (wtask wk = Some w) as -> by (unfold wtask; naive_solver).
    cbn. by rewrite Permutation_app_comm.
Qed.

Lemma inv_notify s t wk :
  Inv s → workers s !! t = Some wk → pc wk = PNotify →
  Inv (MkSys (grp s) (<[t := MkWorker (wt wk) PWait]> (workers s))
        (clients s) (held s) (submitted s) (executed s) (S (notified s))).
Proof.
  intros Hinv Ht Hpc. pose proof (inv_place s Hinv t wk Ht) as Hp.
  unfold place, sleeping, awake in Hp. rewrite Hpc in Hp.
  apply inv_thread_update with wk; [done|done| | |done].
  - unfold place, sleeping, awake. cbn. naive_solver.
  - unfold leaving. cbn. naive_solver.
Qed.

Lemma inv_wakeup s t wk :
  Inv s → workers s !! t = Some wk → pc wk = PWait → tstate (wt wk) ≠ idle →
  Inv (set_worker s (grp s) t (MkWorker (wt wk) PLock)).
Proof.
  intros Hinv Ht Hpc Hst. pose proof (inv_place s Hinv t wk Ht) as Hp.
  unfold place, sleeping, awake in Hp. rewrite Hpc in Hp.
  apply inv_thread_update with wk; [done|done| | |done].
  - unfold place, sleeping, awake. cbn. naive_solver.
  - unfold leaving. cbn. naive_solver.
Qed.

(** A thread's step that also updates the group, with the clients unchanged. *)
Lemma inv_section s t wk g' wk' :
  Inv s → workers s !! t = Some wk →
  group_ok g' (length (workers s)) →
  place g' (clients s) t wk' →
  (∀ t', t' ≠ t → (t' ∈ items (idleThrds g') ↔ t' ∈ items (idleThrds (grp s))) ∧
                  (t' ∈ items (activeThrds g') ↔ t' ∈ items (activeThrds (grp s)))) →
  (items (work (gq g')) ≠ [] → items (idleThrds g') = []) →
  closed g' = closed (grp s) →
  (∀ t' wk0, <[t:=wk']> (workers s) !! t' = Some wk0 → leaving wk0 →
     items (work (gq g')) = [] ∧ closed (grp s) = true) →
  (closed (grp s) = true → held s = false → items (idleThrds g') = []) →
  (has_flag (gflags g') GROUP_WAIT = true → closed (grp s) = false →
     items (activeThrds g') ≠ []) →
  items (work (gq g')) ++ opt_list (wtask wk') ≡ₚ
    items (work (gq (grp s))) ++ opt_list (wtask wk) →
  Inv (set_worker s g' t wk').
Proof.
  intros [] Ht Hok Hp Ho Hwork Hcl Hleave Hrel Hwait Hperm.
  constructor; cbn; rewrite ?length_insert, ?Hcl; try done.
  - eapply place_insert; [done|done|]. intros t' Hne. by destruct (Ho t' Hne).
  - destruct (omap_insert_perm wtask (workers s) t wk Ht) as (L & E1 & E2).
    rewrite inv_cons0, E1, E2, <-!app_assoc, !(Permutation_app_comm (omap cwork _)).
    rewrite <-!app_assoc. rewrite (app_assoc (items _)), <-Hperm. by rewrite <-!app_assoc.
Qed.

(** Where a worker that is about to lock the group is. *)
Lemma awake_facts s t wk :
  Inv s → workers s !! t = Some wk → pc wk = PGroup ∨ pc wk = PExit →
  not (t ∈ items (idleThrds (grp s))) ∧ t ∈ items (activeThrds (grp s)) ∧
  tstate (wt wk) = running ∧ currTask (wt wk) = None ∧ not (pending (clients s) t).
Proof.
  intros Hinv Ht Hpc. pose proof (inv_place s Hinv t wk Ht) as Hp.
  unfold place, sleeping, awake in Hp. destruct Hpc as [E|E]; rewrite E in Hp; naive_solver.
Qed.

Lemma inv_take s t wk w l :
  Inv s → workers s !! t = Some wk → pc wk = PGroup →
  items (work (gq (grp s))) = w :: items l → ll_wf l →
  Inv (set_worker s (set_gq (grp s) (MkQ l (qcapacity (gq (grp s))))) t
         (MkWorker (MkTThread running (Some w)) (PRun w))).
Proof.
  intros Hinv Ht Hpc E Hl.
  destruct (awake_facts s t wk Hinv Ht) as (Hni & Hin & Hrun & Hnone & Hnp); [by left|].
  pose proof (inv_ok s Hinv) as Hok. pose proof (ok_cap _ _ Hok) as Hc. rewrite E in Hc. cbn in Hc.
  apply inv_section with wk; [done|done|apply group_ok_queue; [done..|lia]| | | | | | | |].
  - right; left. unfold awake. cbn. done.
  - done.
  - cbn. intros _. apply (inv_work s Hinv). by rewrite E.
  - done.
  - intros t' wk0 [(<- & <- & _)|[Hne Hlk]]%list_lookup_insert_Some Hlv; [by destruct Hlv|].
    destruct (inv_leave s Hinv _ _ Hlk Hlv) as [E' ?]. by rewrite E in E'.
  - apply (inv_released s Hinv).
  - apply (inv_wait s Hinv).
  - unfold wtask. cbn. rewrite E, Hnone. cbn. rewrite app_nil_r. by rewrite Permutation_app_comm.
Qed.

Lemma inv_break s t wk :
  Inv s → workers s !! t = Some wk → pc wk = PGroup →
  items (work (gq (grp s))) = [] → closed (grp s) = true →
  Inv (set_worker s (grp s) t (MkWorker (MkTThread running None) PExit)).
Proof.
  intros Hinv Ht Hpc E Hcl.
  destruct (awake_facts s t wk Hinv Ht) as (Hni & Hin & Hrun & Hnone & Hnp); [by left|].
  apply inv_section with wk; try done.
  - apply (inv_ok s Hinv).
  - right; left. unfold awake. cbn. done.
  - apply (inv_released s Hinv).
  - by rewrite Hcl.
  - unfold wtask. cbn. by rewrite Hnone.
Qed.

Lemma inv_sleep s t wk wait f :
  Inv s → workers s !! t = Some wk → pc wk = PGroup → held s = false →
  items (work (gq (grp s))) = [] → closed (grp s) = false →
  wait = (has_flag (gflags (grp s)) GROUP_WAIT && (len (activeThrds (grp s)) =? 1))%bool →
  f = (if wait then clear_flag (gflags (grp s)) GROUP_WAIT else gflags (grp s)) →
  Inv (set_worker s (set_lists (set_gflags (grp s) f) (ll_append (idleThrds (grp s)) t)
         (ll_dec (ll_item_remove (activeThrds (grp s)) t))) t
         (MkWorker (MkTThread idle None) (if wait then PNotify else PWait))).
Proof.
  intros Hinv Ht Hpc Hheld E Hcl Hwait Hf.
  destruct (awake_facts s t wk Hinv Ht) as (Hni & Hin & Hrun & Hnone & Hnp); [by left|].
  pose proof (group_ok_worker _ _ _ _ _ _ (inv_ok s Hinv) Hin
    (wo_sleep (grp s) t wait f E Hcl Hwait Hf)) as Hok'.
  assert (Hflag : has_flag f GROUP_CLOSE = closed (grp s)).
  { subst f. destruct wait; [|done]. by flags. }
  apply inv_section with wk; try done.
  - left. unfold sleeping. cbn. rewrite list_elem_of_filter.
    split_and!; [set_solver|tauto|done|destruct wait; tauto|done..].
  - intros t' Hne. cbn. rewrite list_elem_of_filter. set_solver.
  - intros t' wk0 [(<- & <- & _)|[Hne Hlk]]%list_lookup_insert_Some Hlv.
    + destruct wait; by destruct Hlv.
    + by apply (inv_leave s Hinv) in Hlk.
  - by rewrite Hcl.
  - intros Hw _. cbn in *. subst f. destruct wait eqn:Ew.
    { revert Hw. flags. done. }
    rewrite Hw in Hwait. cbn in Hwait. symmetry in Hwait. apply Z.eqb_neq in Hwait.
    pose proof (inv_ok s Hinv) as []. destruct ok_active0 as [El _]. rewrite El in Hwait.
    intros Hnil. apply NoDup_app in ok_nodup0 as (_ & _ & Hnd).
    apply list_elem_of_split in Hin as (l1 & l2 & Es). rewrite Es in *.
    apply NoDup_app in Hnd as (_ & Hd & [? _]%NoDup_cons).
    rewrite filter_remove in Hnil by set_solver. apply app_nil in Hnil as [-> ->]. by apply Hwait.
  - unfold wtask. cbn. by rewrite Hnone.
Qed.

Lemma inv_exit s t wk g' :
  Inv s → workers s !! t = Some wk → pc wk = PExit → held s = false →
  internal_destroy_thread (grp s) t (wt wk) = Ok g' →
  Inv (set_worker s g' t (MkWorker (wt wk) PDead)).
Proof.
  intros Hinv Ht Hpc Hheld Hd.
  destruct (awake_facts s t wk Hinv Ht) as (Hni & Hin & Hrun & Hnone & Hnp); [by right|].
  destruct (destroy_thread_ok _ _ t (wt wk) (inv_ok s Hinv) Hrun Hni Hin) as (g1 & E1 & Hok & Eg).
  rewrite E1 in Hd. injection Hd as <-. subst g1.
  destruct (inv_leave s Hinv _ _ Ht (or_introl Hpc)) as [Eq Hcl].
  apply inv_section with wk; try done.
  - do 3 right. cbn. rewrite list_elem_of_filter. split_and!; [done|tauto|done..].
  - intros t' Hne. cbn. rewrite list_elem_of_filter. tauto.
  - cbn. apply (inv_released s Hinv).
  - by rewrite Hcl.
Qed.

(** ** The clients' steps *)

Lemma pending_insert cs c cl t :
  (c < length cs)%nat →
  (∀ w t', cs !! c ≠ Some (CAssign t' w)) →
  pending (<[c := cl]> cs) t ↔ (∃ w, cl = CAssign t w) ∨ pending cs t.
Proof.
  intros Hc Hno. unfold pending. split.
  - intros (c' & w & [(<- & -> & _)|[Hne Hl]]%list_lookup_insert_Some); [left; eauto|right; eauto].
  - intros [[w ->]|(c' & w & Hl)].
    + exists c, w. by apply list_lookup_insert_eq.
    + exists c', w. rewrite list_lookup_insert_ne; [done|]. intros ->. by eapply Hno.
Qed.

(** A client's step that leaves no hand-over pending and keeps the lists. *)
Lemma inv_client_ready s c rc0 rc g' sub :
  Inv s → clients s !! c = Some (CReady rc0) →
  group_ok g' (length (workers s)) →
  idleThrds g' = idleThrds (grp s) → activeThrds g' = activeThrds (grp s) →
  gflags g' = gflags (grp s) →
  items (work (gq g')) = items (work (gq (grp s))) ++ sub →
  (sub ≠ [] → closed (grp s) = false ∧ items (idleThrds (grp s)) = []) →
  Inv (set_client s g' c (CReady rc) sub).
Proof.
  intros Hinv Hc Hok Ei Ea Ef Eq Hsub. pose proof (lookup_lt_Some _ _ _ Hc) as Hlt.
  assert (Hpend : ∀ t, pending (<[c := CReady rc]> (clients s)) t ↔ pending (clients s) t).
  { intros t. rewrite pending_insert; [naive_solver|done|intros ??; by rewrite Hc]. }
  destruct Hinv. constructor; cbn; rewrite ?Ei, ?Ea, ?Ef; unfold closed in *; rewrite ?Ef; try done.
  - intros t wk Ht. apply place_other with (grp s) (clients s); rewrite ?Ei, ?Ea; auto.
  - intros c' t w [(<- & ? & _)|[Hne Hl]]%list_lookup_insert_Some; [done|eauto].
  - intros c1 c2 t w w' [(<- & ? & _)|[Hne1 Hl1]]%list_lookup_insert_Some
      [(<- & ? & _)|[Hne2 Hl2]]%list_lookup_insert_Some; try done. eauto.
  - rewrite Eq. destruct sub as [|w sub]; [by rewrite app_nil_r|]. intros _. by apply Hsub.
  - intros t wk Ht Hl. destruct (inv_leave0 t wk Ht Hl) as [E Hcl]. rewrite Eq, E.
    destruct sub; [done|]. destruct Hsub; [done|congruence].
  - destruct (omap_insert_perm cwork (clients s) c _ Hc) as (L & E1 & E2).
    rewrite inv_cons0, Eq, E1, E2. cbn.
    rewrite <-!app_assoc. apply Permutation_app_head. rewrite (Permutation_app_comm sub).
    by rewrite <-!app_assoc.
Qed.

(** [do_work] pops an idle thread. *)
Lemma inv_client_assign s c rc0 w t idle' :
  Inv s → clients s !! c = Some (CReady rc0) → held s = false →
  closed (grp s) = false → items (idleThrds (grp s)) = t :: items idle' → ll_wf idle' →
  Inv (set_client s (set_lists (grp s) idle' (ll_append (activeThrds (grp s)) t)) c
         (CAssign t w) [w]).
Proof.
  intros Hinv Hc Hheld Hcl Ei Hl. pose proof (lookup_lt_Some _ _ _ Hc) as Hlt.
  assert (Hpend : ∀ t', pending (<[c := CAssign t w]> (clients s)) t' ↔ t' = t ∨ pending (clients s) t').
  { intros t'. rewrite pending_insert; [naive_solver|done|intros ??; by rewrite Hc]. }
  pose proof (group_ok_pop _ _ t idle' (inv_ok s Hinv) Ei Hl) as Hok. destruct Hinv.
  pose proof (ok_nodup _ _ inv_ok0) as Hnd. rewrite Ei in Hnd. cbn in Hnd.
  apply NoDup_cons in Hnd as [Htn Hnd].
  assert (Htlt : (t < length (workers s))%nat) by (apply (ok_idx _ _ inv_ok0); rewrite Ei; set_solver).
  assert (Hnp : ∀ c' w', clients s !! c' = Some (CAssign t w') → False).
  { intros c' w' Hc'. destruct (lookup_lt_is_Some_2 _ _ Htlt) as [wk Hwk].
    assert (pending (clients s) t) by (by exists c', w').
    pose proof (inv_place0 t wk Hwk) as Hp. unfold place in Hp.
    rewrite Ei, elem_of_cons in Hp. tauto. }
  constructor; cbn; try done.
  - intros t' wk Ht'. pose proof (inv_place0 t' wk Ht') as Hp. unfold place in *. rewrite Hpend. cbn.
    rewrite Ei, elem_of_cons in Hp. rewrite elem_of_app, list_elem_of_singleton.
    rewrite elem_of_app in Htn. destruct (decide (t' = t)) as [->|Hne]; tauto.
  - intros c' t' w' [(<- & [= -> ->] & _)|[Hne Hl']]%list_lookup_insert_Some; eauto.
  - intros c1 c2 t' w1 w2 [(<- & E1 & _)|[Hne1 Hl1]]%list_lookup_insert_Some
      [(<- & E2 & _)|[Hne2 Hl2]]%list_lookup_insert_Some; simplify_eq; [done| | |by eauto];
      exfalso; eauto.
  - intros Hq. rewrite inv_work0 in Ei; done.
  - intros ?. unfold closed in *. cbn in *. congruence.
  - intros _ _ Hnil. by apply app_nil in Hnil as [_ ?].
  - destruct (omap_insert_perm cwork (clients s) c _ Hc) as (L & E1 & E2).
    rewrite inv_cons0, E1, E2. cbn.
    rewrite (Permutation_app_comm _ [w]). cbn. apply Permutation_middle.
Qed.

(** A client that holds a hand-over for [t]: the thread sleeps in the active list. *)
Lemma assign_facts s c t w :
  Inv s → clients s !! c = Some (CAssign t w) →
  ∃ wk, workers s !! t = Some wk ∧ not (t ∈ items (idleThrds (grp s))) ∧
    t ∈ items (activeThrds (grp s)) ∧ sleeping wk.
Proof.
  intros Hinv Hc. destruct (lookup_lt_is_Some_2 _ _ (inv_cl s Hinv _ _ _ Hc)) as [wk Hwk].
  exists wk. assert (Hp : pending (clients s) t) by (by exists c, w).
  pose proof (inv_place s Hinv t wk Hwk) as Hpl. unfold place in Hpl. tauto.
Qed.

(** [do_work] hands the work to the thread it popped. *)
Lemma inv_assign s c t w wk rc :
  Inv s → clients s !! c = Some (CAssign t w) → workers s !! t = Some wk → pc wk = PWait →
  Inv (MkSys (grp s) (<[t := MkWorker (do_work_assign w (wt wk)) PWait]> (workers s))
         (<[c := CReady rc]> (clients s)) (held s) (submitted s) (executed s) (notified s)).
Proof.
  intros Hinv Hc Ht Hpc. pose proof (lookup_lt_Some _ _ _ Hc) as Hlt.
  destruct (assign_facts s c t w Hinv Hc) as (wk' & Ht' & Hni & Hin & Hsl). simplify_eq.
  assert (Hpend : ∀ t', pending (<[c := CReady rc]> (clients s)) t' ↔ t' ≠ t ∧ pending (clients s) t').
  { intros t'. unfold pending. split.
    - intros (c' & w' & [(<- & ? & _)|[Hne Hl]]%list_lookup_insert_Some); [done|].
      split; [|eauto]. intros ->. by apply Hne, (inv_uniq s Hinv _ _ _ _ _ Hc Hl).
    - intros [Hne (c' & w' & Hl)]. exists c', w'. rewrite list_lookup_insert_ne; [done|].
      intros ->. congruence. }
  destruct Hinv. constructor; cbn; rewrite ?length_insert; try done.
  - eapply place_insert; [done| |].
    + right; left. rewrite Hpend. unfold awake. cbn. tauto.
    + intros t' Hne. rewrite Hpend. tauto.
  - intros c' t' w' [(<- & ? & _)|[Hne Hl]]%list_lookup_insert_Some; [done|eauto].
  - intros c1 c2 t' w1 w2 [(<- & E1 & _)|[Hne1 Hl1]]%list_lookup_insert_Some
      [(<- & E2 & _)|[Hne2 Hl2]]%list_lookup_insert_Some; simplify_eq; eauto.
  - intros t' wk0 [(<- & <- & _)|[Hne Hl]]%list_lookup_insert_Some Hlv; [by destruct Hlv|eauto].
  - destruct (omap_insert_perm cwork (clients s) c _ Hc) as (L1 & E1 & E2).
    destruct (omap_insert_perm wtask (workers s) t _ Ht) as (L2 & F1 & F2).
    rewrite inv_cons0, E1, E2, F1, F2. unfold wtask, do_work_assign. cbn.
    destruct Hsl as (_ & _ & ->). cbn. apply Permutation_app_head, Permutation_middle.
Qed.

(** [internal_destroy_group] wakes an idle thread. *)
Lemma inv_wake s t idle' :
  Inv s → held s = true → items (idleThrds (grp s)) = t :: items idle' → ll_wf idle' →
  ∃ wk, workers s !! t = Some wk ∧ sleeping wk ∧ (pc wk = PWait →
    Inv (set_worker s (set_lists (grp s) idle' (ll_append (activeThrds (grp s)) t)) t
           (MkWorker (MkTThread running (currTask (wt wk))) PWait))).
Proof.
  intros Hinv Hheld Ei Hl. pose proof (group_ok_pop _ _ t idle' (inv_ok s Hinv) Ei Hl) as Hok.
  pose proof (ok_nodup _ _ (inv_ok s Hinv)) as Hnd. rewrite Ei in Hnd. cbn in Hnd.
  apply NoDup_cons in Hnd as [Htn Hnd]. rewrite elem_of_app in Htn.
  assert (Htlt : (t < length (workers s))%nat).
  { apply (ok_idx _ _ (inv_ok s Hinv)). rewrite Ei. set_solver. }
  destruct (lookup_lt_is_Some_2 _ _ Htlt) as [wk Hwk].
  pose proof (inv_place s Hinv t wk Hwk) as Hp. unfold place in Hp.
  rewrite Ei, elem_of_cons in Hp.
  assert (Hs : sleeping wk ∧ not (pending (clients s) t)) by tauto. destruct Hs as [Hs Hnp].
  exists wk. split_and!; [done..|]. intros Hpc. destruct Hs as (_ & _ & Hnone).
  assert (Hcl := inv_held s Hinv Hheld).
  apply inv_section with wk; try done.
  - right; left. cbn. rewrite elem_of_app, list_elem_of_singleton. unfold awake. cbn. tauto.
  - intros t' Hne. cbn. rewrite Ei, elem_of_app, elem_of_cons, list_elem_of_singleton. tauto.
  - cbn. intros Hq. apply (inv_work s Hinv) in Hq. by rewrite Ei in Hq.
  - intros t' wk0 [(<- & <- & _)|[Hne Hlk]]%list_lookup_insert_Some Hlv; [by destruct Hlv|].
    by apply (inv_leave s Hinv) in Hlk.
  - by rewrite Hheld.
  - by rewrite Hcl.
Qed.

(** ** Marking and closing *)

Lemma inv_flags s f h :
  Inv s → group_ok (set_gflags (grp s) f) (length (workers s)) →
  (closed (grp s) = true → has_flag f GROUP_CLOSE = true) →
  (h = true → has_flag f GROUP_CLOSE = true) →
  (has_flag f GROUP_CLOSE = true → h = false → items (idleThrds (grp s)) = []) →
  (has_flag f GROUP_WAIT = true → has_flag f GROUP_CLOSE = false →
     items (activeThrds (grp s)) ≠ []) →
  Inv (MkSys (set_gflags (grp s) f) (workers s) (clients s) h (submitted s) (executed s) (notified s)).
Proof.
  intros Hinv Hok H1 H2 H3 H4. destruct Hinv. constructor; cbn; try done.
  intros t wk Ht Hl. destruct (inv_leave0 t wk Ht Hl) as [? Hcl]. split; [done|]. by apply H1.
Qed.

(** There is an active thread whenever a job waits in the queue. *)
Lemma active_nonempty s :
  Inv s → items (work (gq (grp s))) ≠ [] → items (activeThrds (grp s)) ≠ [].
Proof.
  intros Hinv Hq. pose proof (inv_work s Hinv Hq) as Hi.
  destruct (lookup_lt_is_Some_2 (workers s) 0 (inv_some s Hinv)) as [wk Hwk].
  pose proof (inv_place s Hinv 0%nat wk Hwk) as Hp. unfold place in Hp. rewrite Hi in Hp.
  intros Ha. rewrite Ha in Hp. rewrite !elem_of_nil in Hp.
  assert (Hd : pc wk = PDead) by tauto.
  destruct (inv_leave s Hinv 0%nat wk Hwk (or_intror Hd)) as [? _]. done.
Qed.

Lemma inv_mark s :
  Inv s → held s = false → closed (grp s) = false →
  Inv (MkSys (internal_wait_helper (grp s)).2 (workers s) (clients s) (held s)
         (submitted s) (executed s) (notified s)).
Proof.
  intros Hinv Hheld Hcl. pose proof (inv_ok s Hinv) as Hok. pose proof Hok as [].
  unfold internal_wait_helper, q_empty. rewrite ll_empty_spec by done.
  case_bool_decide as E; [cbn; by destruct s|]. cbn.
  apply inv_flags; [done|apply group_ok_flags; [done|..]|..];
    unfold closed in *; try (flags; done).
  - congruence.
  - flags. congruence.
  - intros _ _. by apply active_nonempty.
Qed.

Lemma inv_close s :
  Inv s → held s = false → closed (grp s) = false →
  Inv (MkSys (destroy_group_close (grp s)) (workers s) (clients s) true
         (submitted s) (executed s) (notified s)).
Proof.
  intros Hinv Hheld Hcl. pose proof (inv_ok s Hinv) as Hok. pose proof Hok as [].
  unfold destroy_group_close.
  assert (E : set_flag (gflags (grp s)) (Z.lor GROUP_CLOSE SOFT_KILL)
    = set_flag (set_flag (gflags (grp s)) GROUP_CLOSE) SOFT_KILL).
  { unfold set_flag. apply Z.lor_assoc. }
  rewrite E. apply inv_flags; [done|apply group_ok_flags; [done|..]|..]; flags; done.
Qed.

(** ** Starting threads *)

Lemma start_thread_env e g t w r :
  start_thread e g t w = Ok r → start_thread env_ok g t w = Ok r.
Proof. unfold start_thread, internal_create_thread. by destruct e as [[] [] []]. Qed.

Lemma start_thread_spec g n w :
  group_ok g n → Z.of_nat n < gthrdMax g →
  ∃ g', start_thread env_ok g n w = Ok (MkTThread running w, g') ∧ group_ok g' (S n) ∧
    idleThrds g' = idleThrds g ∧ items (activeThrds g') = items (activeThrds g) ++ [n] ∧
    gq g' = gq g ∧ gflags g' = gflags g ∧ gthrdMax g' = gthrdMax g.
Proof.
  intros Hok Hn. pose proof (group_ok_length _ _ Hok) as Hlen. destruct Hok.
  unfold start_thread, internal_create_thread. cbn [malloc_ok init_ok create_ok env_ok c_assert
    mbind res_bind numThrds thrds set_lists].
  rewrite ok_num0, (proj2 (Z.ltb_lt _ _)) by lia. eexists. split; [done|].
  split; [|done]. rewrite u32_small by lia.
  constructor; cbn; try done; rewrite ?length_insert; try lia.
  - apply ll_append_wf; [done|lia].
  - rewrite app_assoc. apply NoDup_app. split_and!; [done| |apply NoDup_singleton].
    intros x Hx%ok_idx0 ->%list_elem_of_singleton. lia.
  - intros t. rewrite app_assoc, elem_of_app, list_elem_of_singleton.
    intros [Ht%ok_idx0| ->]; lia.
Qed.

(** The manager adds one thread, with the next job of the queue if there is one. *)
Lemma inv_grow_one s w q' :
  Inv s → closed (grp s) = false → held s = false →
  Z.of_nat (length (workers s)) < gthrdMax (grp s) →
  q_fetch (gq (grp s)) = Ok (w, q') →
  ∃ th g', start_thread env_ok (set_gq (grp s) q') (length (workers s)) w = Ok (th, g') ∧
    gthrdMax g' = gthrdMax (grp s) ∧ gflags g' = gflags (grp s) ∧
    Inv (MkSys g' (workers s ++ [MkWorker th PLock]) (clients s) (held s)
           (submitted s) (executed s) (notified s)).
Proof.
  intros Hinv Hcl Hheld Hlt Hf. pose proof (inv_ok s Hinv) as Hok.
  assert (Hq : group_ok (set_gq (grp s) q') (length (workers s)) ∧
    items (work (gq (grp s))) = opt_list w ++ items (work q')).
  { destruct (q_fetch_cases _ (ok_queue _ _ Hok)) as [[E Ef]|(w' & l & E & Ef & Hl)];
      rewrite Ef in Hf; simplify_eq.
    - rewrite set_gq_id. done.
    - split; [|done]. apply group_ok_queue; [done..|].
      pose proof (ok_cap _ _ Hok) as Hc. rewrite E in Hc. cbn in Hc. lia. }
  destruct Hq as [Hokq Eq].
  destruct (start_thread_spec _ _ w Hokq Hlt) as (g' & Es & Hok' & Ei & Ea & Egq & Ef & Em).
  eexists _, g'. split; [exact Es|]. split; [done|]. split; [done|]. destruct Hinv.
  assert (Hnew : ∀ t, (t < length (workers s))%nat → t ≠ length (workers s)) by lia.
  constructor; cbn; rewrite ?Ei, ?Egq; unfold closed in *; rewrite ?Ef; cbn; try done.
  - rewrite length_app, Nat.add_comm. done.
  - rewrite length_app. cbn. lia.
  - intros t wk [Ht|[Hge Ht]]%lookup_app_Some.
    + eapply place_other; [..|by apply inv_place0]; rewrite ?Ei, ?Ea; [done| |done].
      cbn. rewrite elem_of_app, list_elem_of_singleton. apply lookup_lt_Some in Ht. intuition lia.
    + apply list_lookup_singleton_Some in Ht as [Ht <-].
      assert (t = length (workers s)) as -> by lia. right; left. rewrite Ei, Ea. cbn.
      split_and!; [|set_solver|done|].
      * intros Hin. assert (length (workers s) < length (workers s))%nat; [|lia].
        apply (ok_idx _ _ Hok). set_solver.
      * intros (c & w' & Hc). specialize (inv_cl0 _ _ _ Hc). lia.
  - intros c t w' Hc. rewrite length_app. specialize (inv_cl0 _ _ _ Hc). lia.
  - intros Hne. apply inv_work0. rewrite Eq. destruct w; [done|]. by cbn.
  - intros t wk [Ht|[Hge Ht]]%lookup_app_Some Hlv.
    + destruct (inv_leave0 _ _ Ht Hlv). congruence.
    + apply list_lookup_singleton_Some in Ht as [Ht <-]. by destruct Hlv.
  - intros _ _. rewrite Ea. cbn. intros Hnil. by apply app_nil in Hnil as [_ ?].
  - rewrite inv_cons0, Eq, omap_app.
    assert (omap wtask [MkWorker (MkTThread running w) PLock] = opt_list w) as -> by (by destruct w).
    rewrite <-!app_assoc, (Permutation_app_comm (opt_list w)), <-!app_assoc.
    do 3 apply Permutation_app_head. apply Permutation_app_comm.
Qed.

Definition add_workers (s : Sys) (g : TGroup) (ths : list TThread) : Sys :=
  MkSys g (workers s ++ ((λ th, MkWorker th PLock) <$> ths)) (clients s) (held s)
    (submitted s) (executed s) (notified s).

(** The manager's loop: it never fails when every creation succeeds, and what it
    returns keeps the invariant. *)
Lemma manager_grow_inv env k s :
  Inv s → closed (grp s) = false → held s = false →
  Z.of_nat (length (workers s)) + Z.of_nat k ≤ gthrdMax (grp s) →
  (∀ ths g', manager_grow env k (grp s) (length (workers s)) = Ok (ths, g') →
     Inv (add_workers s g' ths) ∧ length ths = k) ∧
  ((∀ t, env t = env_ok) → is_ok (manager_grow env k (grp s) (length (workers s))) = true).
Proof.
  revert s. induction k as [|k IH]; intros s Hinv Hcl Hheld Hle; cbn [manager_grow].
  - split; [|done]. intros ths g' [= <- <-]. unfold add_workers. cbn. rewrite app_nil_r.
    by destruct s.
  - assert (Hf : ∃ w q', q_fetch (gq (grp s)) = Ok (w, q')).
    { destruct (q_fetch_cases _ (ok_queue _ _ (inv_ok s Hinv))) as [[_ E]|(w & l & _ & E & _)]; eauto. }
    destruct Hf as (w & q' & Hf). rewrite Hf. cbn [mbind res_bind].
    destruct (inv_grow_one s w q' Hinv Hcl Hheld ltac:(lia) Hf) as (th & g1 & Es & Em & Efl & Hinv1).
    set (s1 := MkSys g1 (workers s ++ [MkWorker th PLock]) (clients s) (held s)
                 (submitted s) (executed s) (notified s)) in Hinv1.
    assert (Hlen : length (workers s1) = S (length (workers s))) by (cbn; rewrite length_app; cbn; lia).
    destruct (IH s1) as [IH1 IH2]; [done|unfold closed in *; cbn; by rewrite Efl|done|
      rewrite Hlen; cbn [s1 grp]; lia|]. rewrite Hlen in IH1, IH2.
    split.
    + intros ths g' E. apply res_bind_Ok in E as ([th' g1'] & Es' & E).
      apply start_thread_env in Es'. rewrite Es in Es'. simplify_eq.
      apply res_bind_Ok in E as ([ths' g2] & Er & E). simplify_eq.
      destruct (IH1 _ _ Er) as [Hinv2 Hl]. split; [|cbn; congruence].
      unfold add_workers in *. cbn in *. by rewrite <-app_assoc in Hinv2.
    + intros Henv. rewrite Henv, Es. cbn [mbind res_bind]. specialize (IH2 Henv).
      cbn [s1 grp] in IH2. by destruct (manager_grow env k g1 _) as [[]| | |].
Qed.

Lemma manager_add_bound g n :
  group_ok g n → 0 ≤ manager_add_thrds g ≤ gthrdMax g - Z.of_nat n.
Proof.
  intros []. unfold manager_add_thrds. rewrite ok_num0, u32_small by lia.
  assert (0 ≤ (gthrdMax g - Z.of_nat n) / 2 ≤ gthrdMax g - Z.of_nat n).
  { split; [apply Z.div_pos; lia|apply Z.div_le_upper_bound; lia]. }
  destruct (internal_health_check g); lia.
Qed.

Lemma inv_grow s env ths g' :
  Inv s → closed (grp s) = false → held s = false →
  manager_section env (grp s) (length (workers s)) = Ok (ths, g') →
  Inv (add_workers s g' ths).
Proof.
  intros Hinv Hcl Hheld E. pose proof (manager_add_bound _ _ (inv_ok s Hinv)).
  eapply manager_grow_inv; [done..| |exact E]. lia.
Qed.

(** ** Every event keeps the invariant *)

Lemma open_closed s : open s = negb (closed (grp s)).
Proof. done. Qed.

Lemma inv_worker_step s t wk s' :
  Inv s → workers s !! t = Some wk → worker_step s t wk = Some (Ok s') → Inv s'.
Proof.
  intros Hinv Ht E. unfold worker_step in E. destruct (pc wk) eqn:Hpc.
  - simplify_eq. by apply inv_lock.
  - simplify_eq. by apply inv_run.
  - destruct (held s) eqn:Hheld; [done|].
    destruct (awake_facts s t wk Hinv Ht) as (Hni & Hin & Hrun & Hnone & Hnp); [by left|].
    destruct (worker_section_outcome _ _ t (wt wk) (inv_ok s Hinv) Hrun Hni) as (r & Er & Ho).
    rewrite Er in E. inversion Ho; subst; cbn in E; simplify_eq.
    + by eapply inv_take.
    + by eapply inv_break.
    + eapply (inv_sleep s t wk _ _ Hinv Ht Hpc Hheld); eauto.
  - simplify_eq. by apply inv_notify.
  - case_decide; [done|]. simplify_eq. by apply inv_wakeup.
  - destruct (held s) eqn:Hheld; [done|].
    destruct (internal_destroy_thread (grp s) t (wt wk)) as [g'| | |] eqn:Ed; cbn in E; simplify_eq.
    by apply inv_exit.
  - done.
Qed.

Lemma inv_do_work_step s c rc0 w s' :
  Inv s → clients s !! c = Some (CReady rc0) → do_work_step s c w = Some (Ok s') → Inv s'.
Proof.
  intros Hinv Hc E. unfold do_work_step in E. destruct (held s) eqn:Hheld; [done|].
  pose proof (inv_ok s Hinv) as Hok.
  destruct (do_work_section_outcome _ _ w Hok) as (r & Er & Ho).
  rewrite Er in E. inversion Ho; subst; cbn in E; simplify_eq.
  - eapply inv_client_ready; try done. by rewrite app_nil_r.
  - by eapply inv_client_assign.
  - pose proof (ok_cap _ _ Hok).
    eapply inv_client_ready; try done. apply group_ok_queue; [done| |cbn; rewrite length_app; cbn; lia].
    apply ll_append_wf; [apply Hok|lia].
  - eapply inv_client_ready; try done. by rewrite app_nil_r.
Qed.

Lemma wake_thread_Ok s t f r wk :
  workers s !! t = Some wk → sleeping wk → wake_thread s t f = Some r →
  pc wk = PWait ∧ r = Ok (<[t := MkWorker (f (wt wk)) PWait]> (workers s)).
Proof.
  unfold wake_thread. intros -> (_ & [Hpc|Hpc] & _); rewrite Hpc; cbn; [|done].
  by intros [= <-].
Qed.

Lemma inv_step s s' : Inv s → step s s' → Inv s'.
Proof.
  intros Hinv Hst. destruct Hst as [e s1 s2 E]. destruct e as [t|c w|c| |env| |]; cbn [run] in E.
  - destruct (workers s1 !! t) eqn:Ht; cbn in E; [|done]. by eapply inv_worker_step.
  - destruct (clients s1 !! c) as [[]|] eqn:Hc; try done. by eapply inv_do_work_step.
  - destruct (clients s1 !! c) as [[|t w]|] eqn:Hc; try done.
    destruct (assign_facts s1 c t w Hinv Hc) as (wk & Ht & _ & _ & Hsl).
    destruct (wake_thread s1 t _) eqn:Ew; cbn in E; [|done].
    destruct (wake_thread_Ok _ _ _ _ _ Ht Hsl Ew) as [Hpc ->]. cbn in E. simplify_eq.
    by eapply inv_assign.
  - destruct (held s1) eqn:Hheld; [done|]. rewrite open_closed in E.
    destruct (closed (grp s1)) eqn:Hcl; [done|]. cbn in E. simplify_eq.
    rewrite <-Hheld. by apply inv_mark.
  - destruct (held s1) eqn:Hheld; [done|]. rewrite open_closed in E.
    destruct (closed (grp s1)) eqn:Hcl; [done|]. cbn in E. injection E as E.
    apply res_bind_Ok in E as ([ths g'] & Em & E). simplify_eq.
    rewrite <-Hheld. by apply (inv_grow s1 env ths g').
  - destruct (held s1) eqn:Hheld; [done|]. rewrite open_closed in E.
    destruct (closed (grp s1)) eqn:Hcl; [done|]. cbn in E. simplify_eq. by apply inv_close.
  - destruct (held s1) eqn:Hheld; [|done]. unfold destroy_group_wake in E.
    destruct (ll_pop_cases _ (ok_idle _ _ (inv_ok s1 Hinv))) as [[Ei Ep]|(t & l & Ei & Ep & Hl)];
      rewrite Ep in E; cbn in E.
    + simplify_eq. destruct Hinv. constructor; cbn; done.
    + destruct (inv_wake s1 t l Hinv Hheld Ei Hl) as (wk & Ht & Hsl & Hk).
      destruct (wake_thread s1 t _) eqn:Ew; cbn in E; [|done].
      destruct (wake_thread_Ok _ _ _ _ _ Ht Hsl Ew) as [Hpc ->]. cbn in E. simplify_eq.
      specialize (Hk Hpc). unfold set_worker in Hk. by rewrite Hheld in Hk.
Qed.

(** ** The initial group *)

Lemma add_group_threads_spec env k g n ths g' :
  group_ok g n → Z.of_nat n + Z.of_nat k ≤ gthrdMax g →
  add_group_threads env k g n = Ok (ths, g') →
  group_ok g' (n + k) ∧ ths = replicate k (MkTThread running None) ∧
  items (activeThrds g') = items (activeThrds g) ++ seq n k ∧
  idleThrds g' = idleThrds g ∧ gq g' = gq g ∧ gflags g' = gflags g ∧ gthrdMax g' = gthrdMax g.
Proof.
  revert g n ths. induction k as [|k IH]; intros g n ths Hok Hle E; cbn in E.
  - simplify_eq. rewrite Nat.add_0_r, app_nil_r. done.
  - apply res_bind_Ok in E as ([th g1] & Es & E). apply start_thread_env in Es.
    destruct (start_thread_spec g n None Hok ltac:(lia))
      as (g1' & Es' & Hok1 & Ei & Ea & Eq & Ef & Em).
    rewrite Es in Es'. simplify_eq.
    apply res_bind_Ok in E as ([ths' g2] & Er & E). simplify_eq.
    destruct (IH _ _ _ Hok1 ltac:(lia) Er) as (Hok2 & -> & Ea2 & Ei2 & Eq2 & Ef2 & Em2).
    rewrite Ea2, Ea, Ei2, Eq2, Ef2, Em2. replace (n + S k)%nat with (S n + k)%nat by lia.
    rewrite <-app_assoc. done.
Qed.

Lemma initial_inv env min max flags n s :
  1 ≤ min ≤ max → max * Q_SIZE_MULT < 2 ^ 32 → initial env min max flags n = Ok s → Inv s.
Proof.
  intros Hmin Hmax E. unfold Q_SIZE_MULT in Hmax. unfold initial in E.
  apply res_bind_Ok in E as ([ths g] & E & [= <-]).
  unfold add_group_create in E. apply res_bind_Ok in E as ([] & _ & E).
  set (fixed := ((flags =? GROUP_FIXED) || (min =? max))%bool) in E.
  match type of E with add_group_threads _ _ ?gi _ = _ => set (g0 := gi) in E end.
  assert (Hok0 : group_ok g0 0).
  { constructor; cbn; try done; rewrite ?length_replicate.
    - constructor.
    - intros t Ht. by apply elem_of_nil in Ht.
    - unfold Q_SIZE_MULT. rewrite u32_small; lia.
    - destruct fixed; lia.
    - lia.
    - by destruct fixed.
    - by destruct fixed.
    - by destruct fixed. }
  apply add_group_threads_spec in E; [|done|cbn; destruct fixed; lia].
  destruct E as (Hok & -> & Ea & Ei & Eq & Ef & Em). cbn in Ea, Hok.
  assert (Hcl : closed g = false) by (unfold closed; rewrite Ef; cbn; by destruct fixed).
  constructor; cbn; rewrite ?length_fmap, ?length_replicate, ?Eq, ?Ei, ?Hcl; try done; try lia.
  - intros t wk Ht. apply list_lookup_fmap_Some in Ht as (th & -> & Ht).
    apply lookup_replicate in Ht as [-> Hlt]. right; left. rewrite Ea, Ei. cbn.
    split_and!; [set_solver|apply elem_of_seq; lia|done|].
    intros (c & w & [? _]%lookup_replicate). done.
  - intros c t w [? _]%lookup_replicate. done.
  - intros c c' t w w' [? _]%lookup_replicate. done.
  - intros t wk Ht. apply list_lookup_fmap_Some in Ht as (th & -> & _). by intros [].
  - intros _ _. rewrite Ea. destruct (Z.to_nat min) eqn:Em'; [lia|done].
  - assert (omap cwork (replicate n (CReady 0)) = []) as -> by (clear; induction n; done).
    assert (∀ k, omap wtask ((λ th, MkWorker th PLock) <$> replicate k (MkTThread running None)) = [])
      as -> by (clear; intros k; induction k; done). done.
Qed.

Lemma reachable_inv s : reachable s → Inv s.
Proof.
  intros (env & min & max & flags & n & s0 & Hmin & Hmax & E & Hsteps).
  eapply (rtc_invariant step Inv); [apply inv_step|done|by eapply initial_inv].
Qed.
