(* ===== verification/GroupProps.v ===== *)
(** * What a thread group guarantees

    The properties of every reachable state of a group (Group.v), and of every
    run of its workers: safety, no lost job, no idle thread while a job waits,
    termination and completion. *)

From S2P Require Import Prelude Il Pool Group GroupInv.

(** ** Safety *)

(** The environment lets every thread creation of the event succeed. *)
Definition env_good (e : event) : Prop :=
  match e with EGrow env => ∀ t, env t = env_ok | _ => True end.

Lemma worker_step_safe s t wk r :
  Inv s → workers s !! t = Some wk → worker_step s t wk = Some r → is_ok r = true.
Proof.
  intros Hinv Ht E. unfold worker_step in E. destruct (pc wk) eqn:Hpc; simplify_eq; try done.
  - destruct (held s) eqn:Hheld; [done|].
    destruct (awake_facts s t wk Hinv Ht) as (Hni & Hin & Hrun & Hnone & Hnp); [by left|].
    destruct (worker_section_outcome _ _ t (wt wk) (inv_ok s Hinv) Hrun Hni) as ([[] ?] & Er & _).
    rewrite Er in E. by simplify_eq.
  - case_decide; by simplify_eq.
  - destruct (held s) eqn:Hheld; [done|].
    destruct (awake_facts s t wk Hinv Ht) as (Hni & Hin & Hrun & Hnone & Hnp); [by right|].
    destruct (destroy_thread_ok _ _ t (wt wk) (inv_ok s Hinv) Hrun Hni Hin) as (g1 & E1 & _).
    rewrite E1 in E. by simplify_eq.
Qed.

Lemma wake_thread_safe s t f r wk :
  workers s !! t = Some wk → sleeping wk → wake_thread s t f = Some r → is_ok r = true.
Proof. intros Ht Hs E. by destruct (wake_thread_Ok _ _ _ _ _ Ht Hs E) as [_ ->]. Qed.

Lemma run_safe e s r : Inv s → env_good e → run e s = Some r → is_ok r = true.
Proof.
  intros Hinv He E. destruct e as [t|c w|c| |env| |]; cbn [run] in E.
  - destruct (workers s !! t) eqn:Ht; cbn in E; [|done]. by eapply worker_step_safe.
  - destruct (clients s !! c) as [[]|]; try done. unfold do_work_step in E.
    destruct (held s); [done|].
    destruct (do_work_section_outcome _ _ w (inv_ok s Hinv)) as ([] & Er & _).
    rewrite Er in E. by simplify_eq.
  - destruct (clients s !! c) as [[|t w]|] eqn:Hc; try done.
    destruct (assign_facts s c t w Hinv Hc) as (wk & Ht & _ & _ & Hsl).
    destruct (wake_thread s t _) as [r'|] eqn:Ew; cbn in E; [|done].
    apply (wake_thread_safe _ _ _ _ _ Ht Hsl) in Ew. destruct r'; by simplify_eq.
  - destruct (_ || _)%bool; by simplify_eq.
  - destruct (held s) eqn:Hheld; [done|]. rewrite open_closed in E.
    destruct (closed (grp s)) eqn:Hcl; [done|]. cbn in E. simplify_eq.
    pose proof (manager_add_bound _ _ (inv_ok s Hinv)).
    destruct (manager_grow_inv env (Z.to_nat (manager_add_thrds (grp s))) s) as [_ Hok]; [done..|lia|].
    specialize (Hok He). unfold manager_section. by destruct (manager_grow _ _ _ _) as [[]| | |].
  - destruct (_ || _)%bool; by simplify_eq.
  - destruct (held s) eqn:Hheld; [|done]. unfold destroy_group_wake in E.
    destruct (ll_pop_cases _ (ok_idle _ _ (inv_ok s Hinv))) as [[Ei Ep]|(t & l & Ei & Ep & Hl)];
      rewrite Ep in E; cbn in E; [by simplify_eq|].
    destruct (inv_wake s t l Hinv Hheld Ei Hl) as (wk & Ht & Hsl & _).
    destruct (wake_thread s t _) as [r'|] eqn:Ew; cbn in E; [|done].
    apply (wake_thread_safe _ _ _ _ _ Ht Hsl) in Ew. destruct r'; by simplify_eq.
Qed.

(** ** Measure of the remaining work *)

Definition worker_weight (wk : Worker) : nat :=
  match pc wk with
  | PDead => 0
  | PExit | PNotify => 1
  | PGroup => 2
  | PRun _ => 3
  | PLock => 4
  | PWait => if decide (tstate (wt wk) = idle) then 0 else 5
  end.

Definition client_weight (c : client) : nat :=
  match c with CAssign _ _ => 6 | CReady _ => 0 end.

(** Steps the workers can still make when no new work arrives. *)
Definition weight (s : Sys) : nat :=
  sum_list_with worker_weight (workers s) + sum_list_with client_weight (clients s) +
  2 * length (items (work (gq (grp s)))) +
  (if held s then 6 * length (items (idleThrds (grp s))) + 1 else 0).

(** Events of calls that are under way: no new call starts. *)
Definition internal (e : event) : bool :=
  match e with EWorker _ | EAssign _ | EWake => true | _ => false end.

Inductive internal_step : Sys → Sys → Prop :=
| istep e s s' : internal e = true → run e s = Some (Ok s') → internal_step s s'.

Definition quiescent (s : Sys) : Prop := ∀ e, internal e = true → run e s = None.

Lemma sum_list_with_insert {A} (f : A → nat) (l : list A) i x y :
  l !! i = Some x →
  (sum_list_with f (<[i:=y]> l) + f x = sum_list_with f l + f y)%nat.
Proof.
  revert i. induction l as [|z l IH]; intros [|i] Hi; simplify_eq/=; [lia|].
  specialize (IH i Hi). lia.
Qed.

Lemma set_worker_weight s g t wk wk' :
  workers s !! t = Some wk →
  (worker_weight wk' + 2 * length (items (work (gq g))) +
     (if held s then 6 * length (items (idleThrds g)) + 1 else 0) <
   worker_weight wk + 2 * length (items (work (gq (grp s)))) +
     (if held s then 6 * length (items (idleThrds (grp s))) + 1 else 0))%nat →
  (weight (set_worker s g t wk') < weight s)%nat.
Proof.
  intros Ht Hlt. unfold weight. cbn [workers clients grp held set_worker].
  pose proof (sum_list_with_insert worker_weight (workers s) t wk wk' Ht). lia.
Qed.

Lemma worker_step_weight s t wk s' :
  Inv s → workers s !! t = Some wk → worker_step s t wk = Some (Ok s') → (weight s' < weight s)%nat.
Proof.
  intros Hinv Ht E. unfold worker_step in E. destruct (pc wk) eqn:Hpc.
  - simplify_eq. apply set_worker_weight with wk; [done|].
    unfold worker_weight at 2. rewrite Hpc. unfold worker_weight. cbn [pc].
    destruct (currTask (wt wk)); lia.
  - simplify_eq. pose proof (set_worker_weight s (grp s) t wk
      (MkWorker (MkTThread (tstate (wt wk)) None) PGroup) Ht) as Hw.
    apply Hw. unfold worker_weight. rewrite Hpc. cbn. lia.
  - destruct (held s) eqn:Hheld; [done|].
    destruct (awake_facts s t wk Hinv Ht) as (Hni & Hin & Hrun & Hnone & Hnp); [by left|].
    destruct (worker_section_outcome _ _ t (wt wk) (inv_ok s Hinv) Hrun Hni) as (r & Er & Ho).
    rewrite Er in E.
    inversion Ho; subst; cbn in E; simplify_eq; apply set_worker_weight with wk; try done;
      rewrite Hheld; unfold worker_weight; rewrite Hpc; cbn.
    + rewrite H. cbn. lia.
    + lia.
    + destruct (_ && _)%bool; cbn; rewrite ?decide_True by done; lia.
  - simplify_eq. pose proof (set_worker_weight s (grp s) t wk (MkWorker (wt wk) PWait) Ht) as Hw.
    apply Hw. unfold worker_weight. rewrite Hpc. cbn.
    pose proof (inv_place s Hinv t wk Ht) as Hp. unfold place, awake, sleeping in Hp.
    rewrite Hpc in Hp. rewrite decide_True by naive_solver. lia.
  - case_decide; [done|]. simplify_eq. apply set_worker_weight with wk; [done|].
    unfold worker_weight. rewrite Hpc. cbn. rewrite decide_False by done. lia.
  - destruct (held s) eqn:Hheld; [done|].
    destruct (awake_facts s t wk Hinv Ht) as (Hni & Hin & Hrun & Hnone & Hnp); [by right|].
    destruct (destroy_thread_ok _ _ t (wt wk) (inv_ok s Hinv) Hrun Hni Hin) as (g1 & E1 & _ & ->).
    rewrite E1 in E. cbn in E. simplify_eq. apply set_worker_weight with wk; [done|].
    rewrite Hheld. unfold worker_weight. rewrite Hpc. cbn. lia.
  - done.
Qed.

Lemma sleeping_weight wk : sleeping wk → pc wk = PWait → worker_weight wk = 0%nat.
Proof. intros (Hst & _) Hpc. unfold worker_weight. by rewrite Hpc, decide_True. Qed.

Lemma internal_weight s s' : Inv s → internal_step s s' → (weight s' < weight s)%nat.
Proof.
  intros Hinv Hst. destruct Hst as [e s1 s2 Hi E].
  destruct e as [t|c w|c| |env| |]; try done; cbn [run] in E.
  - destruct (workers s1 !! t) eqn:Ht; cbn in E; [|done]. by eapply worker_step_weight.
  - destruct (clients s1 !! c) as [[|t w]|] eqn:Hc; try done.
    destruct (assign_facts s1 c t w Hinv Hc) as (wk & Ht & _ & _ & Hsl).
    destruct (wake_thread s1 t _) eqn:Ew; cbn in E; [|done].
    destruct (wake_thread_Ok _ _ _ _ _ Ht Hsl Ew) as [Hpc ->]. cbn in E. simplify_eq.
    unfold weight. cbn [workers clients grp held].
    pose proof (sum_list_with_insert worker_weight (workers s1) t wk
      (MkWorker (do_work_assign w (wt wk)) PWait) Ht) as H1.
    pose proof (sum_list_with_insert client_weight (clients s1) c _ (CReady POOL_SUCCESS) Hc) as H2.
    rewrite (sleeping_weight wk Hsl Hpc) in H1. cbn in H1, H2. rewrite decide_False in H1 by done. lia.
  - destruct (held s1) eqn:Hheld; [|done]. unfold destroy_group_wake in E.
    destruct (ll_pop_cases _ (ok_idle _ _ (inv_ok s1 Hinv))) as [[Ei Ep]|(t & l & Ei & Ep & Hl)];
      rewrite Ep in E; cbn in E.
    { simplify_eq. unfold weight. cbn. rewrite Hheld. lia. }
    destruct (inv_wake s1 t l Hinv Hheld Ei Hl) as (wk & Ht & Hsl & _).
    destruct (wake_thread s1 t _) eqn:Ew; cbn in E; [|done].
    destruct (wake_thread_Ok _ _ _ _ _ Ht Hsl Ew) as [Hpc ->]. cbn in E. simplify_eq.
    unfold weight. cbn [workers clients grp held set_lists gq idleThrds].
    pose proof (sum_list_with_insert worker_weight (workers s1) t wk
      (MkWorker (MkTThread running (currTask (wt wk))) PWait) Ht) as H1.
    rewrite Hheld, Ei, (sleeping_weight wk Hsl Hpc) in *. cbn in H1 |- *.
    rewrite decide_False in H1 by done. lia.
Qed.

Lemma internal_inv s s' : Inv s → internal_step s s' → Inv s'.
Proof. intros Hinv Hst. destruct Hst. eapply inv_step; [done|by econstructor]. Qed.

Lemma internal_submitted s s' : internal_step s s' → submitted s' = submitted s.
Proof.
  destruct 1 as [e s s' Hi E]. destruct e as [t|c w|c| |env| |]; try done; cbn [run] in E.
  - destruct (workers s !! t) as [wk|]; cbn in E; [|done]. unfold worker_step in E.
    destruct (pc wk); repeat case_match; simplify_eq; try done;
      apply res_bind_Ok in E as ([[] ?] & _ & E) || apply res_bind_Ok in E as (? & _ & E); by simplify_eq.
  - destruct (clients s !! c) as [[|t w]|]; try done.
    destruct (wake_thread s t _); cbn in E; [|done]. injection E as E.
    apply res_bind_Ok in E as (? & _ & E). by simplify_eq.
  - destruct (held s); [|done].
    destruct (destroy_group_wake (grp s)) as [[[t|] g]| | |]; simplify_eq; [|done].
    destruct (wake_thread s t _); cbn in E; [|done]. injection E as E.
    apply res_bind_Ok in E as (? & _ & E). by simplify_eq.
Qed.

(** ** Quiescence *)

Lemma quiescent_held s : Inv s → quiescent s → held s = false.
Proof.
  intros Hinv Hq. destruct (held s) eqn:Hheld; [|done].
  pose proof (Hq EWake eq_refl) as E. cbn in E. rewrite Hheld in E. unfold destroy_group_wake in E.
  destruct (ll_pop_cases _ (ok_idle _ _ (inv_ok s Hinv))) as [[Ei Ep]|(t & l & Ei & Ep & Hl)];
    rewrite Ep in E; cbn in E; [done|].
  destruct (inv_wake s t l Hinv Hheld Ei Hl) as (wk & Ht & Hsl & _).
  pose proof (Hq (EWorker t) eq_refl) as E'. cbn in E'. rewrite Ht in E'. cbn in E'.
  unfold worker_step, wake_thread in *. rewrite Ht in E.
  destruct Hsl as (_ & [Hpc|Hpc] & _); rewrite Hpc in *; done.
Qed.

(** A worker that cannot move sleeps, or is gone. *)
Lemma quiescent_worker s t wk :
  Inv s → quiescent s → workers s !! t = Some wk →
  pc wk = PWait ∧ tstate (wt wk) = idle ∨ pc wk = PDead.
Proof.
  intros Hinv Hq Ht. pose proof (quiescent_held s Hinv Hq) as Hheld.
  pose proof (Hq (EWorker t) eq_refl) as E. cbn in E. rewrite Ht in E. cbn in E.
  unfold worker_step in E. rewrite Hheld in E.
  destruct (pc wk); try done; [|by right]. case_decide; [by left|done].
Qed.

Lemma quiescent_clients s c t w : Inv s → quiescent s → clients s !! c ≠ Some (CAssign t w).
Proof.
  intros Hinv Hq Hc. destruct (assign_facts s c t w Hinv Hc) as (wk & Ht & _ & _ & Hsl).
  destruct (quiescent_worker s t wk Hinv Hq Ht) as [[Hpc _]|Hpc].
  - pose proof (Hq (EAssign c) eq_refl) as E. cbn in E. rewrite Hc in E.
    unfold wake_thread in E. by rewrite Ht, Hpc in E.
  - destruct Hsl as (_ & [?|?] & _); congruence.
Qed.

Lemma quiescent_task s t wk :
  Inv s → quiescent s → workers s !! t = Some wk → currTask (wt wk) = None.
Proof.
  intros Hinv Hq Ht. pose proof (inv_place s Hinv t wk Ht) as Hp.
  pose proof (quiescent_worker s t wk Hinv Hq Ht) as Hw.
  unfold place, awake, sleeping in Hp.
  destruct Hw as [[Hpc Hst]|Hpc]; rewrite Hpc in Hp; intuition congruence.
Qed.

Lemma quiescent_queue s : Inv s → quiescent s → items (work (gq (grp s))) = [].
Proof.
  intros Hinv Hq. destruct (items (work (gq (grp s)))) eqn:Eq; [done|].
  assert (Hne : items (work (gq (grp s))) ≠ []) by (by rewrite Eq).
  pose proof (inv_work s Hinv Hne) as Hi. pose proof (active_nonempty s Hinv Hne) as Ha.
  destruct (items (activeThrds (grp s))) as [|t ts] eqn:Ea; [done|].
  assert (Htlt : (t < length (workers s))%nat).
  { apply (ok_idx _ _ (inv_ok s Hinv)). rewrite Ea, elem_of_app, elem_of_cons. tauto. }
  destruct (lookup_lt_is_Some_2 _ _ Htlt) as [wk Ht].
  pose proof (inv_place s Hinv t wk Ht) as Hp. unfold place, awake in Hp.
  assert (Hin : t ∈ items (activeThrds (grp s))) by (rewrite Ea, elem_of_cons; tauto).
  assert (Hnp : not (pending (clients s) t)).
  { intros (c & w' & Hc). by eapply quiescent_clients. }
  destruct (quiescent_worker s t wk Hinv Hq Ht) as [[Hpc Hst]|Hpc]; rewrite Hpc in Hp;
    intuition congruence.
Qed.

Lemma omap_nil {A B} (f : A → option B) (l : list A) :
  (∀ i x, l !! i = Some x → f x = None) → omap f l = [].
Proof.
  induction l as [|a l IH]; intros H; [done|]. cbn. rewrite (H 0%nat a eq_refl).
  apply IH. intros i x Hx. by apply (H (S i)).
Qed.

Lemma quiescent_done s : Inv s → quiescent s → executed s ≡ₚ submitted s.
Proof.
  intros Hinv Hq. rewrite (inv_cons s Hinv), (quiescent_queue s Hinv Hq).
  rewrite (omap_nil cwork), (omap_nil wtask); [done|..].
  - intros t wk Ht. by eapply quiescent_task.
  - intros c [|t w] Hc; [done|]. by apply quiescent_clients in Hc.
Qed.

(** A reachable state is quiescent or can make an internal step. *)
Definition candidates (s : Sys) : list event :=
  EWake :: (EWorker <$> seq 0 (length (workers s))) ++ (EAssign <$> seq 0 (length (clients s))).

Lemma run_candidate e s : internal e = true → is_Some (run e s) → e ∈ candidates s.
Proof.
  unfold candidates. intros Hi [r E]. destruct e; try done; cbn in E.
  - destruct (workers s !! t) eqn:Ht; cbn in E; [|done]. apply lookup_lt_Some in Ht.
    apply elem_of_cons; right. apply elem_of_app; left.
    apply list_elem_of_fmap. exists t. split; [done|apply elem_of_seq; lia].
  - destruct (clients s !! c) eqn:Hc; [|done]. apply lookup_lt_Some in Hc.
    apply elem_of_cons; right. apply elem_of_app; right.
    apply list_elem_of_fmap. exists c. split; [done|apply elem_of_seq; lia].
  - set_solver.
Qed.

Lemma candidates_internal e s : e ∈ candidates s → internal e = true.
Proof.
  unfold candidates. intros [->|[[? [-> _]]%list_elem_of_fmap|[? [-> _]]%list_elem_of_fmap]%elem_of_app]%elem_of_cons; done.
Qed.

Lemma internal_progress s : Inv s → quiescent s ∨ ∃ s', internal_step s s'.
Proof.
  intros Hinv. destruct (decide (Exists (λ e, is_Some (run e s)) (candidates s))) as [Hx|Hx].
  - right. apply Exists_exists in Hx as (e & He & [r E]). pose proof (candidates_internal e s He) as Hi.
    assert (env_good e) as Hg by (by destruct e).
    pose proof (run_safe e s r Hinv Hg E) as Hok. destruct r as [s'| | |]; try done.
    exists s'. by econstructor.
  - left. intros e Hi. destruct (run e s) eqn:E; [|done]. destruct Hx.
    apply Exists_exists. exists e. split; [|by eexists]. apply run_candidate; [done|by rewrite E].
Qed.

(** ** A concrete run, for the instances below

    A dynamic group of 2 to 4 threads and two clients: both threads go to sleep,
    one client hands a job to an idle thread and the other one too, then a third
    job is queued. *)

Definition demo_env : nat → Env := λ _, env_ok.

Definition demo_events : list event :=
  [EWorker 0; EWorker 1; EWorker 0; EWorker 1;
   EDoWork 0 (MkWork 1 10); EAssign 0; EDoWork 1 (MkWork 2 20); EDoWork 0 (MkWork 3 30);
   EWorker 0; EWorker 0].

Definition demo_run (es : list event) : option (res Sys) :=
  match initial demo_env 2 4 GROUP_DYNAMIC 2 with
  | Ok s => run_all es s
  | _ => None
  end.

Lemma run_all_rtc es s s' : run_all es s = Some (Ok s') → rtc step s s'.
Proof.
  revert s. induction es as [|e es IH]; intros s E; cbn in E; [by simplify_eq|].
  destruct (run e s) as [[s1| | |]|] eqn:Er; cbn in E; try done.
  eapply rtc_l; [by econstructor|by apply IH].
Qed.

Lemma demo_reachable es s : demo_run es = Some (Ok s) → reachable s.
Proof.
  unfold demo_run. destruct (initial _ _ _ _ _) as [s0| | |] eqn:E0; try done. intros E.
  exists demo_env, 2, 4, GROUP_DYNAMIC, 2%nat, s0. split_and!; [lia|lia|done|done|].
  by eapply run_all_rtc.
Qed.

(** ** The properties *)

(** C2.  No reachable event fails an assertion or has undefined behaviour as long as
    thread creation succeeds: the worker never reads [wait] unassigned, a leaving
    thread is never idle, [thrds] is never written out of bounds, no freed thread
    is woken, and no list operation pops a head. *)
Theorem group_never_fails s e r :
  reachable s → env_good e → run e s = Some r → ∃ s', r = Ok s'.
Proof.
  intros Hs He E. pose proof (run_safe e s r (reachable_inv s Hs) He E). destruct r; try done. eauto.
Qed.

Lemma group_never_fails_witness :
  ∃ s r, demo_run demo_events = Some (Ok s) ∧ run (EAssign 1) s = Some r ∧ ∃ s', r = Ok s'.
Proof.
  eexists _, _. split; [vm_compute; reflexivity|]. split; [vm_compute; reflexivity|].
  eapply (group_never_fails _ (EAssign 1)); [apply (demo_reachable demo_events); vm_compute; reflexivity|
    exact I|vm_compute; reflexivity].
Defined.

(** C1.  No accepted job is lost or duplicated: at every moment the jobs [do_work]
    accepted are exactly those in the queue, those a client is handing over, those
    the threads carry and those that were executed. *)
Theorem no_job_lost s :
  reachable s →
  submitted s ≡ₚ items (work (gq (grp s))) ++ omap cwork (clients s)
    ++ omap wtask (workers s) ++ executed s.
Proof. intros Hs. apply inv_cons, reachable_inv, Hs. Qed.

Lemma no_job_lost_witness :
  ∃ s, demo_run demo_events = Some (Ok s) ∧
    submitted s ≡ₚ items (work (gq (grp s))) ++ omap cwork (clients s)
      ++ omap wtask (workers s) ++ executed s ∧ length (submitted s) = 3%nat.
Proof.
  eexists. split; [vm_compute; reflexivity|]. split; [|vm_compute; reflexivity].
  eapply no_job_lost, (demo_reachable demo_events). vm_compute. reflexivity.
Defined.

(** C4.  While a job waits in the queue no thread of the group is idle, and some
    thread is working that will come back for the queue. *)
Theorem no_idle_while_queued s :
  reachable s → items (work (gq (grp s))) ≠ [] →
  items (idleThrds (grp s)) = [] ∧
  ∃ t wk, t ∈ items (activeThrds (grp s)) ∧ workers s !! t = Some wk ∧ not (leaving wk).
Proof.
  intros Hs Hq. pose proof (reachable_inv s Hs) as Hinv. split; [by apply inv_work|].
  pose proof (active_nonempty s Hinv Hq) as Ha.
  destruct (items (activeThrds (grp s))) as [|t ts] eqn:Ea; [done|].
  assert (Htlt : (t < length (workers s))%nat).
  { apply (ok_idx _ _ (inv_ok s Hinv)). rewrite Ea, elem_of_app, elem_of_cons. tauto. }
  destruct (lookup_lt_is_Some_2 _ _ Htlt) as [wk Ht]. exists t, wk.
  split_and!; [apply elem_of_cons; tauto|done|]. intros Hl. by destruct (inv_leave s Hinv t wk Ht Hl).
Qed.

Lemma no_idle_while_queued_witness :
  ∃ s, demo_run (take 8 demo_events) = Some (Ok s) ∧
    items (idleThrds (grp s)) = [] ∧
    ∃ t wk, t ∈ items (activeThrds (grp s)) ∧ workers s !! t = Some wk ∧ not (leaving wk).
Proof.
  eexists. split; [vm_compute; reflexivity|].
  eapply no_idle_while_queued; [|vm_compute; discriminate].
  apply (demo_reachable (take 8 demo_events)). vm_compute. reflexivity.
Defined.

(** A thread in a list of the group has not exited. *)
Lemma listed_alive s t :
  Inv s → t ∈ items (idleThrds (grp s)) ++ items (activeThrds (grp s)) → ∃ wk, workers s !! t = Some wk ∧ pc wk ≠ PDead.
Proof.
  intros Hinv Hin. destruct (lookup_lt_is_Some_2 (workers s) t) as [wk Ht]; [by apply (ok_idx _ _ (inv_ok s Hinv))|].
  exists wk. split; [done|]. intros Hpc. apply elem_of_app in Hin. pose proof (inv_place s Hinv t wk Ht) as Hp.
  unfold place, awake, sleeping in Hp. rewrite Hpc in Hp. intuition congruence.
Qed.

(** C33.  Once every thread of the group has exited, as [internal_destroy_group]
    waits for with [pthread_join] before it frees the group, the queue and both
    lists of threads are empty, no client still has a job to hand over, and every
    job that was ever accepted has been executed, exactly once. *)
Theorem drained_at_join s :
  reachable s → (∀ t wk, workers s !! t = Some wk → pc wk = PDead) →
  items (work (gq (grp s))) = [] ∧ len (work (gq (grp s))) = 0 ∧
  items (idleThrds (grp s)) = [] ∧ items (activeThrds (grp s)) = [] ∧
  (∀ c t w, clients s !! c ≠ Some (CAssign t w)) ∧ executed s ≡ₚ submitted s.
Proof.
  intros Hs Hdead. pose proof (reachable_inv s Hs) as Hinv.
  destruct (lookup_lt_is_Some_2 (workers s) 0 (inv_some s Hinv)) as [wk0 H0].
  destruct (inv_leave s Hinv _ _ H0 (or_intror (Hdead _ _ H0))) as [Hq _].
  assert (Hl : items (idleThrds (grp s)) ++ items (activeThrds (grp s)) = []).
  { apply elem_of_nil_inv. intros t Ht. destruct (listed_alive s t Hinv Ht) as (wk & Hwk & Hpc). by apply Hpc, (Hdead t). }
  assert (Hc : ∀ c t w, clients s !! c ≠ Some (CAssign t w)).
  { intros c t w Hc. destruct (assign_facts s c t w Hinv Hc) as (wk & Ht & _ & _ & Hsl).
    specialize (Hdead t wk Ht). destruct Hsl as (_ & [?|?] & _); congruence. }
  apply app_nil in Hl as [Hi Ha]. destruct (ok_queue _ _ (inv_ok s Hinv)) as [Eq _].
  split; [done|]. split; [by rewrite Eq, Hq|]. split; [done|]. split; [done|]. split; [done|].
  rewrite (inv_cons s Hinv), Hq, (omap_nil cwork), (omap_nil wtask); [done|..].
  - intros t wk Ht. pose proof (inv_place s Hinv t wk Ht) as Hp.
    unfold place, awake, sleeping in Hp. rewrite (Hdead t wk Ht) in Hp. intuition congruence.
  - intros c [|t w] H; [done|]. by apply Hc in H.
Qed.

(** The run of the instance: after the jobs above the group is destroyed and
    both threads run to their end. *)
Definition demo_shutdown : list event :=
  demo_events ++ [EAssign 1; EClose; EWake] ++
  concat (replicate 5 [EWorker 0; EWorker 1]).

Lemma drained_at_join_witness :
  ∃ s, demo_run demo_shutdown = Some (Ok s) ∧ length (executed s) = 3%nat ∧
    items (work (gq (grp s))) = [] ∧ len (work (gq (grp s))) = 0 ∧
    items (idleThrds (grp s)) = [] ∧ items (activeThrds (grp s)) = [] ∧
    (∀ c t w, clients s !! c ≠ Some (CAssign t w)) ∧ executed s ≡ₚ submitted s.
Proof.
  eexists. split; [vm_compute; reflexivity|]. split; [vm_compute; reflexivity|].
  eapply drained_at_join; [apply (demo_reachable demo_shutdown); vm_compute; reflexivity|].
  intros [|[|t]] wk Ht; cbn in Ht; simplify_eq; reflexivity.
Defined.

Lemma internal_rtc_inv s s' : Inv s → rtc internal_step s s' → Inv s' ∧ submitted s' = submitted s.
Proof.
  intros Hinv. induction 1 as [|a b c Hab _ IH]; [done|].
  destruct IH as [Hc E]; [by eapply internal_inv|]. split; [done|].
  rewrite E. by apply internal_submitted.
Qed.

Lemma internal_bounded n s s' : Inv s → nsteps internal_step n s s' → (n ≤ weight s)%nat.
Proof.
  intros Hinv. induction 1 as [|n a b c Hab _ IH]; [lia|].
  specialize (IH ltac:(by eapply internal_inv)). pose proof (internal_weight _ _ Hinv Hab). lia.
Qed.

Lemma internal_terminates s : Inv s → ∃ s', rtc internal_step s s' ∧ quiescent s'.
Proof.
  induction s as [s IH] using (induction_ltof1 _ weight). intros Hinv.
  destruct (internal_progress s Hinv) as [Hq|[s1 H1]]; [by exists s|].
  destruct (IH s1) as (s' & Hr & Hq); [by apply internal_weight|by eapply internal_inv|].
  exists s'. split; [by eapply rtc_l|done].
Qed.

(** C3.  When no new call arrives the group completes its work under every
    schedule of the steps already under way: those of the workers, the hand-over
    of an accepted job by the client that holds it, and the wake-ups of a
    destroyer that holds the group.  A run of these has at most [weight] steps,
    such a run reaches a state where nothing can move, and wherever it gets stuck
    every accepted job has been executed exactly once. *)
Theorem group_completes s :
  reachable s →
  (∀ n s', nsteps internal_step n s s' → (n ≤ weight s)%nat) ∧
  (∃ s', rtc internal_step s s' ∧ quiescent s') ∧
  (∀ s', rtc internal_step s s' → quiescent s' → executed s' ≡ₚ submitted s).
Proof.
  intros Hs. pose proof (reachable_inv s Hs) as Hinv. split_and!.
  - intros n s'. by apply internal_bounded.
  - by apply internal_terminates.
  - intros s' Hr Hq. destruct (internal_rtc_inv s s' Hinv Hr) as [Hinv' <-]. by apply quiescent_done.
Qed.

Lemma group_completes_witness :
  ∃ s, demo_run demo_events = Some (Ok s) ∧ weight s = 11%nat ∧
    (∃ s', rtc internal_step s s' ∧ quiescent s').
Proof.
  eexists. split; [vm_compute; reflexivity|]. split; [vm_compute; reflexivity|].
  apply group_completes, (demo_reachable demo_events). vm_compute. reflexivity.
Defined.

(** A group never has more threads than its maximum; each thread that has not
    exited is in exactly one of the two lists, and their lengths and the queue's
    are what their [len] fields say, within the queue's capacity. *)
Theorem group_bounded s :
  reachable s →
  numThrds (grp s) = Z.of_nat (length (workers s)) ∧
  1 ≤ numThrds (grp s) ≤ gthrdMax (grp s) ∧
  NoDup (items (idleThrds (grp s)) ++ items (activeThrds (grp s))) ∧
  (∀ t, t ∈ items (idleThrds (grp s)) ++ items (activeThrds (grp s)) ↔
     ∃ wk, workers s !! t = Some wk ∧ pc wk ≠ PDead) ∧
  len (idleThrds (grp s)) = Z.of_nat (length (items (idleThrds (grp s)))) ∧
  len (activeThrds (grp s)) = Z.of_nat (length (items (activeThrds (grp s)))) ∧
  len (work (gq (grp s))) = Z.of_nat (length (items (work (gq (grp s))))) ∧
  len (work (gq (grp s))) ≤ qcapacity (gq (grp s)).
Proof.
  intros Hs. pose proof (reachable_inv s Hs) as Hinv. pose proof (inv_ok s Hinv) as Hok.
  pose proof (inv_some s Hinv). pose proof (ok_num _ _ Hok). pose proof (ok_max _ _ Hok).
  pose proof (ok_cap _ _ Hok). destruct (ok_queue _ _ Hok) as [Eq _].
  split_and!; try apply Hok; try lia.
  intros t. rewrite elem_of_app. split.
  - intros Hin. apply listed_alive; [done|]. by rewrite elem_of_app.
  - intros (wk & Ht & Hpc). pose proof (inv_place s Hinv t wk Ht) as Hp. unfold place in Hp. tauto.
Qed.

Lemma group_bounded_witness :
  ∃ s, demo_run demo_events = Some (Ok s) ∧ 1 ≤ numThrds (grp s) ≤ gthrdMax (grp s).
Proof.
  eexists. split; [vm_compute; reflexivity|].
  eapply group_bounded, (demo_reachable demo_events). vm_compute. reflexivity.
Defined.

(** A group that [wait_pool] marked keeps an active thread until the mark is
    cleared, as long as it is not being destroyed: some thread will clear it. *)
Theorem wait_mark_served s :
  reachable s → has_flag (gflags (grp s)) GROUP_WAIT = true → closed (grp s) = false →
  ∃ t wk, t ∈ items (activeThrds (grp s)) ∧ workers s !! t = Some wk ∧ not (leaving wk).
Proof.
  intros Hs Hw Hcl. pose proof (reachable_inv s Hs) as Hinv.
  pose proof (inv_wait s Hinv Hw Hcl) as Ha.
  destruct (items (activeThrds (grp s))) as [|t ts] eqn:Ea; [done|].
  assert (Htlt : (t < length (workers s))%nat).
  { apply (ok_idx _ _ (inv_ok s Hinv)). rewrite Ea, elem_of_app, elem_of_cons. tauto. }
  destruct (lookup_lt_is_Some_2 _ _ Htlt) as [wk Ht]. exists t, wk.
  split_and!; [apply elem_of_cons; tauto|done|]. intros Hl.
  destruct (inv_leave s Hinv t wk Ht Hl). congruence.
Qed.

Lemma wait_mark_served_witness :
  ∃ s, demo_run (demo_events ++ [EMark]) = Some (Ok s) ∧
    ∃ t wk, t ∈ items (activeThrds (grp s)) ∧ workers s !! t = Some wk ∧ not (leaving wk).
Proof.
  eexists. split; [vm_compute; reflexivity|].
  eapply wait_mark_served; [apply (demo_reachable (demo_events ++ [EMark])); vm_compute; reflexivity|
    vm_compute; reflexivity|vm_compute; reflexivity].
Defined.

(** [wait_pool] does not wait for running jobs: a group can have a thread in the
    middle of a job while [internal_wait_helper] refuses to wait for it. *)
Theorem wait_ignores_running :
  ∃ s t wk w, reachable s ∧ workers s !! t = Some wk ∧ pc wk = PRun w ∧ executed s = [] ∧
    internal_wait_helper (grp s) = (POOL_ERROR, grp s).
Proof.
  eexists _, 0%nat, _, (MkWork 1 10). split.
  - apply (demo_reachable [EWorker 0; EWorker 1; EWorker 0; EWorker 1;
      EDoWork 0 (MkWork 1 10); EAssign 0; EWorker 0; EWorker 0]). vm_compute. reflexivity.
  - split_and!; vm_compute; reflexivity.
Qed.
