(* ===== verification/PoolOps.v ===== *)
(** * The pool of groups (src/pool.c)

    The operations on [struct TPool]: creating it, adding and destroying groups,
    waiting, and the manager's round over the groups.  The sections under
    [mutexPool] are definitions on the pool; [add_group], [do_work],
    [wait_pool]'s entry and the manager's round compose them with the sections
    of the groups over a [World]. *)

From S2P Require Import Prelude Il Pool.

(** [groups] lists the groups by number.  [managers] counts the manager threads
    that were started. *)
Record TPool : Type := MkTPool {
  totalThrds : Z;
  thrdMax : Z;
  groups : LL nat;
  groupsWaiting : Z;
  pflags : Z;
  pstate : State;
  managers : nat }.

(** [init_pool]: the return code and, when [*tp] was set, the pool; [nonnull] says
    that the caller's pointer is not NULL. *)
Definition init_pool (nonnull alloc : bool) (maxThrds : Z) : Z * option TPool :=
  if negb nonnull then (POOL_ERROR, None)
  else if negb alloc then (POOL_ERROR, None)
  else if maxThrds =? 0 then (POOL_ERROR, None)
  else (POOL_SUCCESS, Some (MkTPool 0 maxThrds ll_init 0 0 dead 0)).

(** ** Sections under [mutexPool] *)

(** [add_group], lines 240-254: the limits of the new group, if there is room. *)
Definition add_group_reserve (p : TPool) (min max : Z) : option (Z * Z) :=
  let min := if min =? 0 then 1 else min in
  let availableThrds := u32 (thrdMax p - totalThrds p) in
  let max := if availableThrds <? max then availableThrds else max in
  if ((max =? 0) || (max <? min))%bool then None else Some (min, max).

(** [add_group], lines 308-318: the first group starts a manager thread. *)
Definition add_group_publish (e : Env) (p : TPool) (g : nat) (max : Z) : res TPool :=
  let first := len (groups p) =? 0 in
  c_assert (negb first || create_ok e)%bool;;
  Ok (MkTPool (u32 (totalThrds p + max)) (thrdMax p) (ll_append (groups p) g) (groupsWaiting p)
        (pflags p) (if first then idle else pstate p)
        (if first then S (managers p) else managers p)).

(** [destroy_group], lines 336-338 and 342-345. *)
Definition destroy_group_unlink (p : TPool) (g : nat) : TPool :=
  MkTPool (totalThrds p) (thrdMax p) (ll_item_remove (groups p) g) (groupsWaiting p)
    (pflags p) (pstate p) (managers p).

Definition destroy_group_account (p : TPool) (tg : TGroup) : TPool :=
  MkTPool (u32 (totalThrds p - gthrdMax tg)) (thrdMax p) (ll_dec (groups p)) (groupsWaiting p)
    (pflags p) (pstate p) (managers p).

(** [do_work], lines 410-415. *)
Definition do_work_signal (p : TPool) (h : Health) : TPool :=
  if decide (h = well) then p
  else MkTPool (totalThrds p) (thrdMax p) (groups p) (groupsWaiting p) (pflags p) running (managers p).

(** The worker's notification, lines 647-652: whether it broadcasts. *)
Definition worker_notify (p : TPool) : bool * TPool :=
  let p := MkTPool (totalThrds p) (thrdMax p) (groups p) (groupsWaiting p - 1) (pflags p)
             (pstate p) (managers p) in
  (groupsWaiting p =? 0, p).

(** The manager's wait condition, line 690, and its test of the kill flag. *)
Definition manager_waits (p : TPool) (timedout : bool) : bool :=
  (negb (timedout || bool_decide (pstate p = running)) || has_flag (pflags p) POOL_WAITING)%bool.

(** [destroy_pool], lines 192-196: killing the manager, when one was started. *)
Definition destroy_pool_kill (p : TPool) : TPool :=
  if decide (pstate p = dead) then p
  else MkTPool (totalThrds p) (thrdMax p) (groups p) (groupsWaiting p)
         (set_flag (pflags p) HARD_KILL) running (managers p).

(** ** The operations over all groups *)

Record World : Type := MkWorld {
  wpool : TPool;
  groupTab : gmap nat TGroup;
  threadTab : list TThread }.

Definition set_pool (w : World) (p : TPool) : World := MkWorld p (groupTab w) (threadTab w).
Definition set_group (w : World) (g : nat) (tg : TGroup) : World :=
  MkWorld (wpool w) (<[g := tg]> (groupTab w)) (threadTab w).

(** [add_group] run by one caller: [None] is the NULL it returns. *)
Definition add_group (env : nat → Env) (w : World) (g : nat) (min max flags : Z)
  : res (option nat * World) :=
  match add_group_reserve (wpool w) min max with
  | None => Ok (None, w)
  | Some (min, max) =>
      '(ths, tg) ← add_group_create env min max flags (length (threadTab w));
      p ← add_group_publish (env (length (threadTab w) + length ths)%nat) (wpool w) g max;
      Ok (Some g, MkWorld p (<[g := tg]> (groupTab w)) (threadTab w ++ ths))
  end.

(** [do_work] run by one caller. *)
Definition do_work (w : World) (g : nat) (wk : Work) : res (Z * World) :=
  match groupTab w !! g with
  | None => UB
  | Some tg =>
      '(r, tg) ← do_work_section tg wk;
      let w := set_group w g tg in
      match r with
      | DWRet rc => Ok (rc, w)
      | DWQueued rc h => Ok (rc, set_pool w (do_work_signal (wpool w) h))
      | DWAssign t =>
          match threadTab w !! t with
          | None => UB
          | Some th => Ok (POOL_SUCCESS, MkWorld (wpool w) (groupTab w)
                             (<[t := do_work_assign wk th]> (threadTab w)))
          end
      end
  end.

(** [wait_pool]'s loop, lines 164-170: mark the groups with queued work and count
    the others off. *)
Fixpoint wait_pool_mark (gs : list nat) (w : World) : res World :=
  match gs with
  | [] => Ok w
  | g :: gs =>
      match groupTab w !! g with
      | None => UB
      | Some tg =>
          let '(rc, tg) := internal_wait_helper tg in
          let p := wpool w in
          let p := if rc =? 0 then p
                   else MkTPool (totalThrds p) (thrdMax p) (groups p) (groupsWaiting p - 1)
                          (pflags p) (pstate p) (managers p) in
          wait_pool_mark gs (set_pool (set_group w g tg) p)
      end
  end.

(** [wait_pool], lines 159-173: the world when the caller first tests
    [groupsWaiting > 0], and whether it blocks there. *)
Definition wait_pool (w : World) : res (bool * World) :=
  let p := wpool w in
  let p := MkTPool (totalThrds p) (thrdMax p) (groups p) (len (groups p)) (pflags p) (pstate p)
             (managers p) in
  w ← wait_pool_mark (items (groups p)) (set_pool w p);
  let p := wpool w in
  let p := MkTPool (totalThrds p) (thrdMax p) (groups p) (groupsWaiting p)
             (set_flag (pflags p) POOL_WAITING) (pstate p) (managers p) in
  Ok (0 <? groupsWaiting p, set_pool w p).

(** [wait_pool], line 176, once the count is 0. *)
Definition wait_pool_end (p : TPool) : TPool :=
  MkTPool (totalThrds p) (thrdMax p) (groups p) (groupsWaiting p)
    (clear_flag (pflags p) POOL_WAITING) (pstate p) (managers p).

(** The manager's loop over the groups, lines 701-742. *)
Fixpoint manager_round (env : nat → Env) (gs : list nat) (w : World) : res World :=
  match gs with
  | [] => Ok w
  | g :: gs =>
      match groupTab w !! g with
      | None => UB
      | Some tg =>
          '(ths, tg) ← manager_section env tg (length (threadTab w));
          manager_round env gs (MkWorld (wpool w) (<[g := tg]> (groupTab w)) (threadTab w ++ ths))
      end
  end.

(** One turn of [manager_thread_function] after its wait, lines 694-743: [None]
    when it leaves the loop. *)
Definition manager_turn (env : nat → Env) (w : World) : res (option World) :=
  if has_flag (pflags (wpool w)) HARD_KILL then Ok None
  else
    w ← manager_round env (items (groups (wpool w))) w;
    let p := wpool w in
    Ok (Some (set_pool w (MkTPool (totalThrds p) (thrdMax p) (groups p) (groupsWaiting p) (pflags p)
                            idle (managers p)))).

(** [destroy_pool], lines 208-215: pop each group, destroy it (its threads are
    joined there, see Group.v) and give its threads back; the groups destroyed,
    in order.  One round per item of the list, and one that finds it empty. *)
Fixpoint destroy_pool_groups (fuel : nat) (w : World) : res (list nat * World) :=
  match fuel with
  | O => NoFuel
  | S fuel =>
      '(curr, l) ← ll_pop (groups (wpool w));
      match curr with
      | None => Ok ([], w)
      | Some g =>
          match groupTab w !! g with
          | None => UB
          | Some tg =>
              let p := wpool w in
              let p := MkTPool (u32 (totalThrds p - gthrdMax tg)) (thrdMax p) l (groupsWaiting p)
                         (pflags p) (pstate p) (managers p) in
              '(gs, w) ← destroy_pool_groups fuel (MkWorld p (delete g (groupTab w)) (threadTab w));
              Ok (g :: gs, w)
          end
      end
  end.

(** ** Lemmas *)

Lemma start_thread_max e g t w th g' :
  start_thread e g t w = Ok (th, g') → gthrdMax g' = gthrdMax g.
Proof.
  unfold start_thread. intros E. apply res_bind_Ok in E as ([th'|] & _ & E); [|done].
  apply res_bind_Ok in E as ([] & _ & E). case_bool; by simplify_eq.
Qed.

Lemma add_group_threads_max env n g t ths g' :
  add_group_threads env n g t = Ok (ths, g') → gthrdMax g' = gthrdMax g ∧ length ths = n.
Proof.
  revert g t ths. induction n as [|n IH]; intros g t ths E; cbn in E; [by simplify_eq|].
  apply res_bind_Ok in E as ([th g1] & E1 & E). apply res_bind_Ok in E as ([ths' g2] & E2 & E).
  simplify_eq. apply start_thread_max in E1. apply IH in E2 as [-> Hl].
  split; [done|cbn; by rewrite Hl].
Qed.

Lemma add_group_create_max env min max flags t ths tg :
  add_group_create env min max flags t = Ok (ths, tg) →
  gthrdMax tg = (if ((flags =? GROUP_FIXED) || (min =? max))%bool then min else max) ∧
  length ths = Z.to_nat min.
Proof.
  unfold add_group_create. intros E. apply res_bind_Ok in E as ([] & _ & E).
  apply add_group_threads_max in E as [-> ->]. done.
Qed.

Lemma reserve_bounds p min max min' max' :
  0 ≤ totalThrds p ≤ thrdMax p → thrdMax p < 2 ^ 32 → 0 ≤ min → 0 ≤ max →
  add_group_reserve p min max = Some (min', max') →
  1 ≤ min' ≤ max' ∧ max' ≤ max ∧ max' ≤ thrdMax p - totalThrds p ∧ min' = Z.max 1 min.
Proof.
  intros Ht Hm Hmin Hmax. unfold add_group_reserve. rewrite u32_small by lia.
  destruct (Z.eqb_spec min 0), (Z.ltb_spec (thrdMax p - totalThrds p) max);
    match goal with |- context [(?a =? 0) || (?a <? ?b)] =>
      destruct (Z.eqb_spec a 0), (Z.ltb_spec a b) end; cbn; intros; simplify_eq; lia.
Qed.

(** One caller at a time, [add_group] never commits more threads than the pool
    has: it fails exactly when fewer than [max 1 min] threads are left, and
    otherwise commits between that and [max] of them to a group that starts
    with exactly [max 1 min] threads. *)
Theorem add_group_commits env w g min max flags r w' :
  0 ≤ totalThrds (wpool w) ≤ thrdMax (wpool w) → thrdMax (wpool w) < 2 ^ 32 →
  0 ≤ min ≤ max → 0 < max →
  add_group env w g min max flags = Ok (r, w') →
  match r with
  | None => w' = w ∧ thrdMax (wpool w) - totalThrds (wpool w) < Z.max 1 min
  | Some g' => g' = g ∧ Z.max 1 min ≤ thrdMax (wpool w) - totalThrds (wpool w) ∧
      totalThrds (wpool w') = totalThrds (wpool w)
        + Z.min max (thrdMax (wpool w) - totalThrds (wpool w)) ∧
      0 ≤ totalThrds (wpool w') ≤ thrdMax (wpool w') ∧
      Z.of_nat (length (threadTab w')) = Z.of_nat (length (threadTab w)) + Z.max 1 min
  end.
Proof.
  intros Ht Hm Hmin Hmax E. unfold add_group in E.
  destruct (add_group_reserve (wpool w) min max) as [[min' max']|] eqn:Er.
  - pose proof (reserve_bounds _ min max min' max' Ht Hm ltac:(lia) ltac:(lia) Er) as (H1 & H2 & H3 & H4).
    assert (Hmax' : max' = Z.min max (thrdMax (wpool w) - totalThrds (wpool w))).
    { unfold add_group_reserve in Er. rewrite u32_small in Er by lia.
      destruct (_ || _)%bool in Er; [done|]. simplify_eq.
      destruct (Z.ltb_spec (thrdMax (wpool w) - totalThrds (wpool w)) max); lia. }
    apply res_bind_Ok in E as ([ths tg] & Ec & E). apply res_bind_Ok in E as (p & Ep & E). simplify_eq.
    apply add_group_create_max in Ec as [_ Hlen].
    unfold add_group_publish in Ep. apply res_bind_Ok in Ep as ([] & _ & Ep). simplify_eq.
    cbn [wpool threadTab totalThrds thrdMax]. rewrite length_app, u32_small by lia.
    split_and!; lia.
  - injection E as <- <-. split; [done|]. unfold add_group_reserve in Er.
    rewrite u32_small in Er by lia.
    destruct (_ || _)%bool eqn:Eb in Er; [|done]. apply orb_true_iff in Eb.
    rewrite Z.eqb_eq, Z.ltb_lt in Eb.
    destruct (Z.ltb_spec (thrdMax (wpool w) - totalThrds (wpool w)) max), (Z.eqb_spec min 0); lia.
Qed.

Definition empty_world (n : Z) : World := MkWorld (MkTPool 0 n ll_init 0 0 dead 0) ∅ [].
Definition good_env : nat → Env := λ _, env_ok.

Lemma add_group_commits_witness :
  ∃ w', add_group good_env (empty_world 14) 0 2 4 GROUP_DYNAMIC = Ok (Some 0%nat, w') ∧
    totalThrds (wpool w') = 4 ∧ 0 ≤ totalThrds (wpool w') ≤ thrdMax (wpool w').
Proof.
  eexists. split; [vm_compute; reflexivity|]. split; [vm_compute; reflexivity|].
  refine (let H := add_group_commits good_env (empty_world 14) 0 2 4 GROUP_DYNAMIC (Some 0%nat) _
    _ _ _ _ _ in proj1 (proj2 (proj2 (proj2 H)))); try (cbn; lia). vm_compute. reflexivity.
Defined.

(** Adding a group and destroying it gives every thread back, except for a
    fixed group: that one commits [max] threads and gives back only [min]. *)
Theorem add_destroy_accounting env w g min max flags w' tg min' max' :
  0 ≤ totalThrds (wpool w) ≤ thrdMax (wpool w) → thrdMax (wpool w) < 2 ^ 32 →
  0 ≤ min → 0 ≤ max →
  add_group_reserve (wpool w) min max = Some (min', max') →
  add_group env w g min max flags = Ok (Some g, w') →
  groupTab w' !! g = Some tg →
  totalThrds (destroy_group_account (destroy_group_unlink (wpool w') g) tg)
  = totalThrds (wpool w) + (if flags =? GROUP_FIXED then max' - min' else 0).
Proof.
  intros Ht Hm Hmin Hmax Er E Htg. unfold add_group in E. rewrite Er in E.
  pose proof (reserve_bounds _ min max min' max' Ht Hm Hmin Hmax Er) as (H1 & H2 & H3 & H4).
  apply res_bind_Ok in E as ([ths tg'] & Ec & E). apply res_bind_Ok in E as (p & Ep & E).
  injection E as <-. cbn [groupTab] in Htg. rewrite lookup_insert_eq in Htg. injection Htg as <-.
  apply add_group_create_max in Ec as [Hmx _].
  unfold add_group_publish in Ep. apply res_bind_Ok in Ep as ([] & _ & Ep). injection Ep as <-.
  cbn [wpool destroy_group_account destroy_group_unlink totalThrds]. rewrite Hmx.
  rewrite (u32_small (totalThrds (wpool w) + max')) by lia.
  destruct (flags =? GROUP_FIXED); cbn [orb]; [rewrite u32_small; lia|].
  destruct (Z.eqb_spec min' max'); rewrite u32_small; lia.
Qed.

Lemma add_destroy_accounting_witness :
  ∃ w' tg, add_group good_env (empty_world 14) 0 2 5 GROUP_FIXED = Ok (Some 0%nat, w') ∧
    groupTab w' !! 0%nat = Some tg ∧
    totalThrds (destroy_group_account (destroy_group_unlink (wpool w') 0) tg) = 0 + (5 - 2).
Proof.
  eexists _, _. split; [vm_compute; reflexivity|]. split; [vm_compute; reflexivity|].
  apply (add_destroy_accounting good_env (empty_world 14) 0 2 5 GROUP_FIXED _ _ 2 5);
    try (cbn; lia); vm_compute; reflexivity.
Defined.

(** [add_group] checks the room and commits the threads in two separate
    sections: two callers that both check before either commits leave the pool
    with twice its threads, and the room computed from there on wraps around to
    almost 2^32. *)
Theorem concurrent_add_overcommits m max :
  1 ≤ m < 2 ^ 31 → 1 ≤ max ≤ 2 ^ 32 - m →
  let p := MkTPool 0 m ll_init 0 0 dead 0 in
  add_group_reserve p 1 m = Some (1, m) ∧
  ∃ p1 p2, add_group_publish env_ok p 0 m = Ok p1 ∧ add_group_publish env_ok p1 1 m = Ok p2 ∧
    thrdMax p2 < totalThrds p2 ∧ add_group_reserve p2 1 max = Some (1, max).
Proof.
  intros Hm Hmax p. split.
  - unfold add_group_reserve, p. cbn [thrdMax totalThrds].
    rewrite u32_small, Z.sub_0_r, Z.ltb_irrefl by lia. cbn [Z.eqb].
    destruct (Z.eqb_spec m 0), (Z.ltb_spec m 1); cbn; try lia; done.
  - eexists _, _. split; [reflexivity|]. split; [reflexivity|].
    unfold add_group_reserve. cbn [thrdMax totalThrds p].
    rewrite (u32_small (0 + m)), (u32_small (0 + m + m)) by lia. split; [lia|].
    rewrite (u32_neg (m - (0 + m + m))) by lia. cbn [Z.eqb].
    destruct (Z.ltb_spec (m - (0 + m + m) + 4294967296) max); [lia|].
    destruct (Z.eqb_spec max 0), (Z.ltb_spec max 1); cbn; try lia; done.
Qed.

Lemma concurrent_add_overcommits_witness :
  ∃ p1 p2, add_group_publish env_ok (MkTPool 0 14 ll_init 0 0 dead 0) 0 14 = Ok p1 ∧
    add_group_publish env_ok p1 1 14 = Ok p2 ∧ thrdMax p2 < totalThrds p2 ∧
    add_group_reserve p2 1 1000 = Some (1, 1000).
Proof.
  refine (proj2 (concurrent_add_overcommits 14 1000 _ _)); lia.
Defined.

(** A second manager: a group added after the last one was destroyed starts
    another manager thread although the first was never stopped, and only the
    newest one is recorded in [tp->manager]. *)
Theorem second_manager env w g g' min max flags min2 max2 flags2 w1 tg w2 :
  groups (wpool w) = ll_init →
  add_group env w g min max flags = Ok (Some g, w1) →
  groupTab w1 !! g = Some tg →
  add_group env (set_pool w1 (destroy_group_account (destroy_group_unlink (wpool w1) g) tg))
    g' min2 max2 flags2 = Ok (Some g', w2) →
  managers (wpool w2) = S (S (managers (wpool w))).
Proof.
  intros Hg E1 Htg E2. unfold add_group in E1, E2.
  destruct (add_group_reserve (wpool w) min max) as [[min' max']|]; [|done].
  apply res_bind_Ok in E1 as ([ths tg'] & _ & E1). apply res_bind_Ok in E1 as (p & Ep & E1).
  injection E1 as <-.
  unfold add_group_publish in Ep. apply res_bind_Ok in Ep as ([] & _ & Ep). rewrite Hg in Ep.
  injection Ep as <-.
  destruct (add_group_reserve _ min2 max2) as [[min2' max2']|]; [|done].
  apply res_bind_Ok in E2 as ([ths2 tg2] & _ & E2). apply res_bind_Ok in E2 as (p2 & Ep & E2).
  injection E2 as <-.
  unfold add_group_publish in Ep. apply res_bind_Ok in Ep as ([] & _ & Ep). by injection Ep as <-.
Qed.

Lemma second_manager_witness :
  ∃ w1 tg w2, add_group good_env (empty_world 14) 0 1 1 GROUP_FIXED = Ok (Some 0%nat, w1) ∧
    groupTab w1 !! 0%nat = Some tg ∧
    add_group good_env (set_pool w1 (destroy_group_account (destroy_group_unlink (wpool w1) 0) tg))
      1 2 4 GROUP_DYNAMIC = Ok (Some 1%nat, w2) ∧
    managers (wpool w2) = 2%nat.
Proof.
  eexists _, _, _. split; [vm_compute; reflexivity|]. split; [vm_compute; reflexivity|].
  split; [vm_compute; reflexivity|].
  apply (second_manager good_env (empty_world 14) 0 1 1 1 GROUP_FIXED 2 4 GROUP_DYNAMIC
    (match add_group good_env (empty_world 14) 0 1 1 GROUP_FIXED with
     | Ok (_, w) => w | _ => empty_world 0 end)
    (match add_group good_env (empty_world 14) 0 1 1 GROUP_FIXED with
     | Ok (_, w) => default (MkTGroup 0 (q_init 0) ll_init ll_init 0 0 0 []) (groupTab w !! 0%nat)
     | _ => MkTGroup 0 (q_init 0) ll_init ll_init 0 0 0 [] end)); vm_compute; reflexivity.
Defined.

(** ** Waiting *)

(** Group [g] has a job in its queue. *)
Definition has_jobs (w : World) (g : nat) : bool :=
  match groupTab w !! g with Some tg => negb (q_empty (gq tg)) | None => false end.

Definition busy_groups (w : World) (gs : list nat) : list nat := filter (λ g, has_jobs w g = true) gs.

Lemma has_jobs_insert_ne w g g' tg p :
  g ≠ g' → has_jobs (set_pool (set_group w g tg) p) g' = has_jobs w g'.
Proof. intros. unfold has_jobs. cbn. by rewrite lookup_insert_ne. Qed.

Lemma busy_groups_ext w w' gs :
  (∀ g, g ∈ gs → has_jobs w' g = has_jobs w g) → busy_groups w' gs = busy_groups w gs.
Proof.
  unfold busy_groups. induction gs as [|g gs IH]; intros H; [done|]. rewrite !filter_cons.
  rewrite (H g) by set_solver. rewrite IH by set_solver. done.
Qed.

Lemma wait_pool_mark_spec gs w :
  NoDup gs → (∀ g, g ∈ gs → is_Some (groupTab w !! g)) →
  ∃ w', wait_pool_mark gs w = Ok w' ∧
    groupsWaiting (wpool w') = groupsWaiting (wpool w) - Z.of_nat (length gs)
      + Z.of_nat (length (busy_groups w gs)) ∧
    pflags (wpool w') = pflags (wpool w) ∧
    ∀ g, groupTab w' !! g = if decide (g ∈ gs)
         then (λ tg, (internal_wait_helper tg).2) <$> groupTab w !! g else groupTab w !! g.
Proof.
  revert w. induction gs as [|g gs IH]; intros w Hnd Hin.
  - exists w. split_and!; [done|cbn; lia|done|]. intros g. by rewrite decide_False by set_solver.
  - apply NoDup_cons in Hnd as [Hg Hnd]. destruct (Hin g ltac:(set_solver)) as [tg Htg].
    cbn [wait_pool_mark]. rewrite Htg. destruct (internal_wait_helper tg) as [rc tg'] eqn:Ew.
    match goal with |- context [wait_pool_mark gs (set_pool _ ?p)] => set (p' := p) end.
    destruct (IH (set_pool (set_group w g tg') p')) as (w' & E & Ec & Ef & Et); [done| |].
    { intros g' Hg'. cbn. rewrite lookup_insert_ne by set_solver. apply Hin. set_solver. }
    exists w'. split; [done|]. rewrite Ec, Ef, (busy_groups_ext w _ gs).
    2:{ intros g' Hg'. apply has_jobs_insert_ne. set_solver. }
    assert (Hrc : has_jobs w g = (rc =? 0)).
    { unfold has_jobs. rewrite Htg. unfold internal_wait_helper in Ew.
      by destruct (q_empty (gq tg)); simplify_eq. }
    split_and!.
    + unfold busy_groups at 2. rewrite filter_cons, Hrc. unfold p'.
      destruct (rc =? 0); cbn [wpool set_pool groupsWaiting].
      * rewrite decide_True by done. cbn [length]. fold (busy_groups w gs). lia.
      * rewrite decide_False by done. cbn [length]. fold (busy_groups w gs). lia.
    + unfold p'. by destruct (rc =? 0).
    + intros g'. rewrite Et. cbn. destruct (decide (g' = g)) as [->|Hne].
      * rewrite decide_False, decide_True by set_solver.
        rewrite lookup_insert_eq, Htg. cbn. by rewrite Ew.
      * rewrite lookup_insert_ne by done. destruct (decide (g' ∈ gs)).
        -- by rewrite decide_True by set_solver.
        -- by rewrite decide_False by set_solver.
Qed.

(** [wait_pool] marks exactly the groups that have queued jobs, waits for as many
    notifications as there are such groups, and does not block when there is
    none. *)
Theorem wait_pool_waits w :
  ll_wf (groups (wpool w)) → NoDup (items (groups (wpool w))) →
  (∀ g, g ∈ items (groups (wpool w)) → is_Some (groupTab w !! g)) →
  let busy := busy_groups w (items (groups (wpool w))) in
  ∃ w', wait_pool w = Ok (bool_decide (busy ≠ []), w') ∧
    groupsWaiting (wpool w') = Z.of_nat (length busy) ∧
    has_flag (pflags (wpool w')) POOL_WAITING = true ∧
    ∀ g tg, groupTab w !! g = Some tg →
      groupTab w' !! g = Some (if bool_decide (g ∈ busy)
        then set_gflags tg (set_flag (gflags tg) GROUP_WAIT) else tg).
Proof.
  intros [Hlen _] Hnd Hin busy. unfold wait_pool.
  match goal with |- context [wait_pool_mark _ (set_pool w ?p)] => set (p1 := p) end.
  destruct (wait_pool_mark_spec (items (groups (wpool w))) (set_pool w p1)) as (w' & E & Ec & Ef & Et);
    [done|done|].
  change (busy_groups (set_pool w p1) (items (groups (wpool w)))) with busy in Ec.
  cbn [p1 wpool set_pool groupsWaiting] in Ec. rewrite Hlen in Ec.
  cbn [p1 groups]. rewrite E. cbn [mbind res_bind]. eexists. split; [|split_and!].
  - f_equal. f_equal. cbn [groupsWaiting]. rewrite Ec. destruct busy.
    + rewrite bool_decide_eq_false_2 by tauto. apply Z.ltb_ge. cbn. lia.
    + rewrite bool_decide_eq_true_2 by done. apply Z.ltb_lt. cbn [length]. lia.
  - cbn. lia.
  - cbn [wpool set_pool pflags]. change POOL_WAITING with (2 ^ 7). rewrite has_set_flag by lia.
    by rewrite orb_true_r.
  - intros g tg Htg. cbn [groupTab set_pool]. rewrite Et. cbn [groupTab set_pool]. rewrite Htg.
    assert (Hb : g ∈ busy ↔ q_empty (gq tg) = false ∧ g ∈ items (groups (wpool w))).
    { unfold busy, busy_groups. rewrite list_elem_of_filter. unfold has_jobs. rewrite Htg.
      destruct (q_empty (gq tg)); cbn; intuition discriminate. }
    unfold internal_wait_helper. destruct (decide (g ∈ items (groups (wpool w)))).
    + cbn [fmap option_fmap option_map]. destruct (q_empty (gq tg)); cbn [snd];
        (rewrite bool_decide_eq_false_2 + rewrite bool_decide_eq_true_2); intuition congruence.
    + by rewrite bool_decide_eq_false_2 by tauto.
Qed.

(** The world of the instances: two groups, the second with two queued jobs. *)
Definition demo_group (q : list Work) : TGroup :=
  MkTGroup GROUP_DYNAMIC (MkQ (MkLL q (Z.of_nat (length q))) 400) ll_init (MkLL [0%nat; 1%nat] 2) 4 2 2
    [Some 0%nat; Some 1%nat; None; None].

Definition demo_world : World :=
  MkWorld (MkTPool 8 14 (MkLL [0%nat; 1%nat] 2) 0 0 idle 1)
    (<[0%nat := demo_group []]> (<[1%nat := demo_group [MkWork 1 10; MkWork 2 20]]> ∅)) [].

Lemma wait_pool_waits_witness :
  ∃ w', wait_pool demo_world = Ok (true, w') ∧ groupsWaiting (wpool w') = 1.
Proof.
  destruct (wait_pool_waits demo_world) as (w' & E & Ec & _).
  - split; reflexivity.
  - apply (bool_decide_unpack _). vm_compute. exact I.
  - intros g Hg. apply elem_of_cons in Hg as [->|Hg]; [eexists; reflexivity|].
    apply list_elem_of_singleton in Hg as ->. eexists; reflexivity.
  - exists w'. split; [exact E|exact Ec].
Defined.

(** The notifications release the waiter exactly once: counting down from [n],
    the [k]-th notification broadcasts if and only if it is the last. *)
Theorem last_notification_broadcasts p n k :
  groupsWaiting p = Z.of_nat n → (0 < k ≤ n)%nat →
  (worker_notify (Nat.iter (k - 1) (λ p, (worker_notify p).2) p)).1 = bool_decide (k = n).
Proof.
  intros Hn Hk.
  assert (H : ∀ j, groupsWaiting (Nat.iter j (λ p, (worker_notify p).2) p) = Z.of_nat n - Z.of_nat j).
  { induction j as [|j IH]; [cbn; lia|]. rewrite Nat.iter_succ.
    change (groupsWaiting (worker_notify ?q).2) with (groupsWaiting q - 1). rewrite IH. lia. }
  unfold worker_notify. cbn [groupsWaiting fst]. rewrite H. case_bool_decide.
  - apply Z.eqb_eq. lia.
  - apply Z.eqb_neq. lia.
Qed.

Lemma last_notification_broadcasts_witness :
  (worker_notify (Nat.iter (2 - 1) (λ p, (worker_notify p).2)
     (MkTPool 8 14 (MkLL [0%nat; 1%nat] 2) 2 POOL_WAITING idle 1))).1 = bool_decide (2%nat = 2%nat).
Proof. apply last_notification_broadcasts; [reflexivity|lia]. Defined.

(** ** The manager's round *)

Lemma start_thread_shape e g t w th g' :
  start_thread e g t w = Ok (th, g') →
  currTask th = w ∧ gq g' = gq g ∧ numThrds g' = u32 (numThrds g + 1) ∧ gthrdMax g' = gthrdMax g.
Proof.
  unfold start_thread, internal_create_thread. intros E.
  apply res_bind_Ok in E as ([th'|] & E1 & E); [|done].
  apply res_bind_Ok in E1 as ([] & _ & E1). apply res_bind_Ok in E as ([] & _ & E).
  destruct (init_ok e); [|done]. case_bool; by simplify_eq.
Qed.

Lemma manager_grow_shape env n g t ths g' :
  ll_wf (work (gq g)) → 0 ≤ numThrds g → numThrds g + Z.of_nat n < 2 ^ 32 →
  manager_grow env n g t = Ok (ths, g') →
  length ths = n ∧ numThrds g' = numThrds g + Z.of_nat n ∧ gthrdMax g' = gthrdMax g ∧
  omap currTask ths = take n (items (work (gq g))) ∧
  items (work (gq g')) = drop n (items (work (gq g))).
Proof.
  revert g t ths. induction n as [|n IH]; intros g t ths Hwf H0 Hn E; cbn in E.
  - simplify_eq. split_and!; [done|lia|done|done|done].
  - apply res_bind_Ok in E as ([w q'] & Ef & E). apply res_bind_Ok in E as ([th g1] & Es & E).
    assert (Hq : ll_wf (work q') ∧ items (work (gq g)) =
      match w with Some w => [w] | None => [] end ++ items (work q') ∧
      (w = None → items (work q') = [])).
    { unfold q_fetch, q_empty in Ef. rewrite (ll_empty_spec _ Hwf) in Ef.
      destruct (ll_pop_cases _ Hwf) as [[Ei Ep]|(x & l & Ei & Ep & Hl)].
      - rewrite Ei in Ef. cbn in Ef. by injection Ef as <- <-.
      - rewrite bool_decide_eq_false_2 in Ef by (by rewrite Ei). rewrite Ep in Ef. cbn in Ef.
        by injection Ef as <- <-. }
    apply res_bind_Ok in E as ([ths' g2] & Er & E). injection E as <- <-.
    apply start_thread_shape in Es as (Ew & Eq & En & Em). cbn in Eq, En, Em.
    rewrite u32_small in En by lia.
    destruct Hq as (Hwf' & Ei & Hnone).
    apply IH in Er as (Hl & Hnum & Hm & Ht & Hd); [|by rewrite Eq|lia..].
    rewrite Eq in *. split_and!; [cbn; by rewrite Hl|lia|congruence| |].
    + cbn [omap list_omap]. rewrite Ew, Ht, Ei. destruct w; [done|]. cbn.
      rewrite Hnone by done. by rewrite take_nil.
    + rewrite Hd, Ei. destruct w; [done|]. cbn. rewrite Hnone by done. by rewrite drop_nil.
Qed.

(** The manager's section brings a group in poor health to its maximum and gives
    a group in moderate health half of the threads it lacks; each new thread
    starts on the next job of the queue. *)
Theorem manager_section_grows env g t ths g' :
  ll_wf (work (gq g)) → 0 ≤ numThrds g ≤ gthrdMax g → gthrdMax g < 2 ^ 32 →
  manager_section env g t = Ok (ths, g') →
  numThrds g' = numThrds g + (match internal_health_check g with
                              | well => 0
                              | moderate => (gthrdMax g - numThrds g) / 2
                              | poor => gthrdMax g - numThrds g
                              end) ∧
  Z.of_nat (length ths) = numThrds g' - numThrds g ∧
  omap currTask ths ++ items (work (gq g')) = items (work (gq g)).
Proof.
  intros Hwf Hn Hm E. unfold manager_section, manager_add_thrds in E.
  rewrite u32_small in E by lia.
  set (k := match internal_health_check g with
            | well => 0 | moderate => (gthrdMax g - numThrds g) / 2 | poor => gthrdMax g - numThrds g end) in *.
  assert (Hk : 0 ≤ k ≤ gthrdMax g - numThrds g).
  { unfold k. destruct (internal_health_check g); [lia| |lia].
    split; [apply Z.div_pos; lia|apply Z.div_le_upper_bound; lia]. }
  apply manager_grow_shape in E as (Hl & Hnum & _ & Ht & Hd); [|done|lia|lia].
  rewrite Ht, Hd, take_drop. split_and!; [lia|lia|done].
Qed.

Lemma manager_section_grows_witness :
  ∃ ths g', manager_section good_env (demo_group (replicate 150 (MkWork 1 10))) 2 = Ok (ths, g') ∧
    numThrds g' = 2 + (4 - 2).
Proof.
  eexists _, _. split; [vm_compute; reflexivity|].
  refine (proj1 (manager_section_grows good_env (demo_group (replicate 150 (MkWork 1 10))) 2 _ _ _ _ _ _)).
  - split; vm_compute; reflexivity.
  - split; vm_compute; discriminate.
  - vm_compute. reflexivity.
  - vm_compute. reflexivity.
Defined.
