(* ===== verification/Cook.v ===== *)
(** * The scheduler of the read groups (src/cook.c)

    [init_thread_groups] makes one writer group and a list of three reader
    groups; [scheduler] hands a job to the next reader group with room.  The
    list is the one of il.h, turned with [list_rotate].  A [CGrps] node is the
    group it holds, [None] when [add_group] returned NULL. *)

From S2P Require Import Prelude Il Pool PoolOps.

(** The globals of cook.c and the pool behind [tp]; [None] is a NULL [tp]. *)
Record Cook : Type := MkCook { tp : option World; wr : option nat; rdrs : LL (option nat) }.

(** [init_thread_pool]: passes [tp] itself, a [TPool*], where [init_pool] takes a
    [TPool**].  A NULL [tp] is refused; any other value is written through as if
    it pointed to a pointer. *)
Definition init_thread_pool (alloc : bool) (c : Cook) : res Cook :=
  match tp c with
  | None => let '(_, _) := init_pool false alloc 14 in Ok c
  | Some _ => UB
  end.

(** [add_group(tp, ...)] with its test for NULL. *)
Definition add_group_tp (env : nat → Env) (t : option World) (g : nat) (min max flags : Z)
  : res (option nat * option World) :=
  match t with
  | None => Ok (None, None)
  | Some w => '(r, w) ← add_group env w g min max flags; Ok (r, Some w)
  end.

(** The loop of [init_thread_groups], lines 40-55; the groups are numbered from [g]. *)
Fixpoint add_reader_groups (env : nat → Env) (alloc : bool) (n g : nat) (c : Cook) : res Cook :=
  match n with
  | O => Ok c
  | S n =>
      c_assert alloc;;
      '(tg, t) ← add_group_tp env (tp c) g 2 4 GROUP_DYNAMIC;
      add_reader_groups env alloc n (S g) (MkCook t (wr c) (ll_append (rdrs c) tg))
  end.

Definition init_thread_groups (env : nat → Env) (alloc : bool) (c : Cook) : res Cook :=
  '(w, t) ← add_group_tp env (tp c) 0 1 1 GROUP_FIXED;
  add_reader_groups env alloc 3 1 (MkCook t w ll_init).

(** [do_work(cg->tg, work)] with its test for NULL. *)
Definition do_work_tp (t : option World) (g : option nat) (wk : Work) : res (Z * option World) :=
  match t, g with
  | Some w, Some g => '(rc, w) ← do_work w g wk; Ok (rc, Some w)
  | _, _ => Ok (POOL_ERROR, t)
  end.

(** [scheduler]'s loop, lines 73-84: [i] is the loop counter; the code the caller
    sees is whether a group took the job. *)
Fixpoint scheduler_loop (fuel : nat) (i : Z) (wk : Work) (c : Cook) : res (bool * Cook) :=
  match fuel with
  | O => NoFuel
  | S fuel =>
      if i <? len (rdrs c) then
        '(g, l) ← ll_rotate (rdrs c);
        '(rc, t) ← do_work_tp (tp c) g wk;
        let c := MkCook t (wr c) l in
        c_assert (negb (rc =? POOL_ERROR));;
        if negb (rc =? GROUP_FULL) then Ok (true, c) else scheduler_loop fuel (i + 1) wk c
      else Ok (false, c)
  end.

(** [scheduler]: the job runs [cook_func] with no argument. *)
Definition cook_work (cook_func : Z) : Work := MkWork cook_func 0.

Definition scheduler (fuel : nat) (cook_func : Z) (alloc : bool) (c : Cook) : res (bool * Cook) :=
  c_assert alloc;;
  scheduler_loop fuel 0 (cook_work cook_func) c.

(** ** The reader list shrinks *)

Lemma ll_rotate_cases {A} (l : LL A) x l' :
  ll_rotate l = Ok (x, l') → 0 < len l < 2 ^ 64 →
  len l' = len l - 1 ∧ ∃ xs, items l = x :: xs ∧ items l' = xs ++ [x].
Proof.
  unfold ll_rotate, ll_pop, ll_empty. intros E Hl.
  rewrite (proj2 (Z.eqb_neq _ _)) in E by lia.
  destruct (items l) as [|y xs]; cbn -[u64] in E; [done|]. simplify_eq. cbn -[u64].
  rewrite u64_small by lia. eauto.
Qed.

Lemma do_work_fuel w g wk : do_work w g wk ≠ NoFuel.
Proof.
  unfold do_work, do_work_section, ll_pop. destruct (groupTab w !! g) as [tg|]; [|done].
  destruct (has_flag _ _); [done|]. destruct (ll_empty (idleThrds tg)).
  - cbn. by destruct (q_append _ _).
  - destruct (items (idleThrds tg)) as [|t ts]; cbn; [done|]. by destruct (threadTab w !! t).
Qed.

(** Every round of the loop takes one off the length of the list. *)
Lemma scheduler_loop_len fuel i wk c b c' :
  0 ≤ i → 0 ≤ len (rdrs c) < 2 ^ 64 → scheduler_loop fuel i wk c = Ok (b, c') →
  0 ≤ len (rdrs c') ≤ len (rdrs c) ∧ (i < len (rdrs c) → len (rdrs c') < len (rdrs c)) ∧
  (len (rdrs c) ≤ i → b = false ∧ c' = c).
Proof.
  revert i c. induction fuel as [|fuel IH]; intros i c Hi Hl E; [done|]. cbn [scheduler_loop] in E.
  destruct (Z.ltb_spec i (len (rdrs c))); [|simplify_eq; lia || (split_and!; [lia|lia|lia|done])].
  apply res_bind_Ok in E as ([g l] & Er & E). apply ll_rotate_cases in Er as [Hlen _]; [|lia].
  apply res_bind_Ok in E as ([rc t] & _ & E). apply res_bind_Ok in E as ([] & _ & E).
  destruct (negb (rc =? GROUP_FULL)).
  - simplify_eq. cbn. lia.
  - apply IH in E as (H1 & H2 & H3); cbn in *; lia.
Qed.

(** [n] calls of [scheduler] in a row, and whether each handed out its job. *)
Fixpoint scheduler_calls (fuel n : nat) (cook_func : Z) (c : Cook) : res (list bool * Cook) :=
  match n with
  | O => Ok ([], c)
  | S n =>
      '(b, c) ← scheduler fuel cook_func true c;
      '(bs, c) ← scheduler_calls fuel n cook_func c;
      Ok (b :: bs, c)
  end.

Lemma scheduler_calls_len fuel n f c bs c' :
  0 ≤ len (rdrs c) < 2 ^ 64 → scheduler_calls fuel n f c = Ok (bs, c') →
  0 ≤ len (rdrs c') ≤ Z.max 0 (len (rdrs c) - Z.of_nat n).
Proof.
  revert c bs. induction n as [|n IH]; intros c bs Hl E; cbn [scheduler_calls] in E; [simplify_eq; lia|].
  apply res_bind_Ok in E as ([b c1] & E1 & E). apply res_bind_Ok in E as ([bs' c2] & E2 & E).
  simplify_eq. unfold scheduler in E1. cbn [c_assert mbind res_bind] in E1.
  apply scheduler_loop_len in E1 as (H1 & H2 & _); [|lia..].
  apply IH in E2; lia.
Qed.

(** C35.  The scheduler starves: the rotation takes one off the length of the reader
    list at every turn and nothing puts it back, so after as many calls as
    there are reader groups every further call returns without handing its job
    to any group, although the groups are still there. *)
Theorem scheduler_starves fuel n f c bs c' :
  0 ≤ len (rdrs c) < 2 ^ 64 → len (rdrs c) ≤ Z.of_nat n →
  scheduler_calls fuel n f c = Ok (bs, c') →
  len (rdrs c') = 0 ∧ ∀ fuel' g, scheduler (S fuel') g true c' = Ok (false, c').
Proof.
  intros Hl Hn E. apply scheduler_calls_len in E; [|done].
  assert (H0 : len (rdrs c') = 0) by lia. split; [done|]. intros fuel' g.
  unfold scheduler. cbn [c_assert mbind res_bind scheduler_loop]. by rewrite H0.
Qed.

(** One round never loops, whatever the group answers. *)
Lemma scheduler_round_fuel (l : LL (option nat)) t wk :
  ll_rotate l ≠ NoFuel ∧ ∀ g, do_work_tp t g wk ≠ NoFuel.
Proof.
  split.
  - unfold ll_rotate, ll_pop. destruct (ll_empty l); [done|]. by destruct (items l).
  - intros g. unfold do_work_tp. destruct t as [w|], g as [g|]; try done.
    pose proof (do_work_fuel w g wk). by destruct (do_work w g wk) as [[]| | |].
Qed.

Lemma scheduler_loop_total fuel i wk c :
  0 ≤ i → 0 ≤ len (rdrs c) < 2 ^ 64 → (Z.to_nat (len (rdrs c) - i) < fuel)%nat →
  scheduler_loop fuel i wk c ≠ NoFuel.
Proof.
  revert i c. induction fuel as [|fuel IH]; intros i c Hi Hc Hf; [lia|].
  cbn [scheduler_loop]. destruct (Z.ltb_spec i (len (rdrs c))); [|done].
  destruct (scheduler_round_fuel (rdrs c) (tp c) wk) as [Hr Hd].
  destruct (ll_rotate (rdrs c)) as [[g l]| | |] eqn:Er; cbn [mbind res_bind]; try done.
  apply ll_rotate_cases in Er as [Hlen _]; [|lia]. specialize (Hd g).
  destruct (do_work_tp _ _ _) as [[rc t]| | |]; cbn [mbind res_bind]; try done.
  unfold c_assert. destruct (negb (rc =? POOL_ERROR)); cbn [mbind res_bind]; [|done].
  destruct (negb (rc =? GROUP_FULL)); [done|]. apply IH; cbn; lia.
Qed.

(** One call of [scheduler] always returns, after at most one round per counted
    reader group, whatever the groups answer. *)
Theorem scheduler_terminates fuel f alloc c :
  0 ≤ len (rdrs c) < 2 ^ 64 → (Z.to_nat (len (rdrs c)) < fuel)%nat →
  scheduler fuel f alloc c ≠ NoFuel.
Proof.
  intros Hl Hf. unfold scheduler, c_assert. destruct alloc; [|done].
  cbn [mbind res_bind]. apply scheduler_loop_total; [done|done|]. by rewrite Z.sub_0_r.
Qed.

(** ** The groups made at the start *)

Lemma start_thread_good g t w :
  0 ≤ numThrds g < Z.of_nat (length (thrds g)) → Z.of_nat (length (thrds g)) < 2 ^ 32 →
  ∃ th g', start_thread env_ok g t w = Ok (th, g') ∧ numThrds g' = numThrds g + 1 ∧
    length (thrds g') = length (thrds g).
Proof.
  intros Hn Hl. unfold start_thread. cbn [internal_create_thread c_assert malloc_ok init_ok
    create_ok env_ok mbind res_bind].
  cbn [numThrds thrds set_lists]. rewrite (proj2 (Z.ltb_lt _ _)) by lia.
  eexists _, _. split; [done|]. cbn [numThrds thrds set_thrds]. rewrite u32_small by lia.
  by rewrite length_insert.
Qed.

Lemma add_group_threads_good n g t :
  0 ≤ numThrds g → numThrds g + Z.of_nat n ≤ Z.of_nat (length (thrds g)) →
  Z.of_nat (length (thrds g)) < 2 ^ 32 →
  is_ok (add_group_threads good_env n g t) = true.
Proof.
  revert g t. induction n as [|n IH]; intros g t H0 Hn Hl; [done|]. cbn [add_group_threads].
  destruct (start_thread_good g t None) as (th & g' & E & En & El); [lia..|].
  change (good_env t) with env_ok. rewrite E. cbn [mbind res_bind].
  specialize (IH g' (S t) ltac:(lia) ltac:(lia) ltac:(lia)).
  by destruct (add_group_threads _ n g' _) as [[]| | |].
Qed.

(** A pool with room for [max] threads gives them to the new group when every
    creation succeeds. *)
Lemma add_group_good w g min max flags :
  0 ≤ totalThrds (wpool w) → totalThrds (wpool w) + max ≤ thrdMax (wpool w) < 2 ^ 32 →
  0 < min ≤ max →
  ∃ w', add_group good_env w g min max flags = Ok (Some g, w') ∧
    totalThrds (wpool w') = totalThrds (wpool w) + max ∧ thrdMax (wpool w') = thrdMax (wpool w).
Proof.
  intros H0 Hroom Hmin. unfold add_group, add_group_reserve.
  rewrite (proj2 (Z.eqb_neq min 0)) by lia. rewrite (u32_small (_ - _)) by lia.
  rewrite (proj2 (Z.ltb_ge (thrdMax (wpool w) - _) max)) by lia.
  rewrite (proj2 (Z.eqb_neq max 0)), (proj2 (Z.ltb_ge max min)) by lia. cbn [orb].
  unfold add_group_create. cbn [c_assert malloc_ok good_env env_ok mbind res_bind].
  match goal with |- context [add_group_threads good_env ?n ?g0 ?t] =>
    pose proof (add_group_threads_good n g0 t) as Hok; set (G := g0) in * end.
  cbn [numThrds thrds G] in Hok. rewrite length_replicate in Hok.
  specialize (Hok ltac:(lia) ltac:(lia) ltac:(lia)).
  destruct (add_group_threads _ _ _ _) as [[ths tg]| | |]; try done. cbn [mbind res_bind].
  unfold add_group_publish, c_assert, good_env, env_ok. cbn [create_ok]. rewrite orb_true_r.
  cbn [mbind res_bind]. eexists. split; [done|]. cbn. rewrite u32_small by lia. done.
Qed.

(** On an unused pool of at least 13 threads in which every creation
    succeeds, [init_thread_groups] makes the writer group and a list of three
    distinct reader groups, and commits 13 threads. *)
Theorem thread_groups_fit w c :
  totalThrds (wpool w) = 0 → 13 ≤ thrdMax (wpool w) < 2 ^ 32 → tp c = Some w →
  ∃ w', init_thread_groups good_env true c
    = Ok (MkCook (Some w') (Some 0%nat) (MkLL [Some 1%nat; Some 2%nat; Some 3%nat] 3)) ∧
    totalThrds (wpool w') = 13.
Proof.
  intros H0 Hm Htp. unfold init_thread_groups. rewrite Htp. cbn [add_group_tp].
  destruct (add_group_good w 0 1 1 GROUP_FIXED) as (w1 & -> & T1 & M1); [lia..|].
  cbn [mbind res_bind add_reader_groups c_assert tp add_group_tp].
  destruct (add_group_good w1 1 2 4 GROUP_DYNAMIC) as (w2 & -> & T2 & M2); [lia..|].
  cbn [mbind res_bind tp add_group_tp].
  destruct (add_group_good w2 2 2 4 GROUP_DYNAMIC) as (w3 & -> & T3 & M3); [lia..|].
  cbn [mbind res_bind tp add_group_tp].
  destruct (add_group_good w3 3 2 4 GROUP_DYNAMIC) as (w4 & -> & T4 & M4); [lia..|].
  cbn [mbind res_bind wr rdrs]. exists w4. split; [done|]. lia.
Qed.

Definition demo_cook : Cook := MkCook (Some (empty_world 14)) None ll_init.

Lemma thread_groups_fit_witness :
  ∃ w', init_thread_groups good_env true demo_cook
    = Ok (MkCook (Some w') (Some 0%nat) (MkLL [Some 1%nat; Some 2%nat; Some 3%nat] 3)) ∧
    totalThrds (wpool w') = 13.
Proof.
  apply (thread_groups_fit (empty_world 14) demo_cook);
    [reflexivity | split; vm_compute; congruence || reflexivity | reflexivity].
Defined.

(** The globals after [init_thread_groups]. *)
Definition demo_started : Cook :=
  match init_thread_groups good_env true demo_cook with Ok c => c | _ => demo_cook end.

Lemma scheduler_terminates_witness : scheduler 4 7 true demo_started ≠ NoFuel.
Proof. apply scheduler_terminates; vm_compute; repeat split; congruence || lia. Defined.

Lemma scheduler_starves_witness :
  ∃ c', scheduler_calls 4 3 7 demo_started = Ok ([true; true; true], c') ∧
    len (rdrs c') = 0 ∧ ∀ fuel' g, scheduler (S fuel') g true c' = Ok (false, c').
Proof.
  eexists. split; [vm_compute; reflexivity|].
  apply (scheduler_starves 4 3 7 demo_started [true; true; true]);
    [split; vm_compute; congruence || reflexivity | vm_compute; congruence | vm_compute; reflexivity].
Defined.
