(* ===== verification/Logger.v ===== *)
(** * The logger (src/logger.c, include/logger.h)

    [trash_log] queues a message under [logMutex]; the thread [log_func] prints
    the queued messages; [close_logger] closes the queue and joins the thread.
    Calls and the rounds of the thread are interleaved by [run].  The time is the
    string that [asctime] returned; [beyond] is the memory after the array
    [timestamp], which the code prints with [%s]. *)

From stdpp Require Import pretty.
From S2P Require Import Prelude Utilities Il.

Definition CLOSE_Q : Z := 0x01.
Definition OPEN_Q : Z := 0x02.
Definition MAX_LEVEL_LEN : Z := 5.
Definition TIME_LENGTH : Z := 26.
Definition LOG_ERROR : Z := TRASH_ERROR.
Definition LOGGED : Z := TRASH_SUCCESS.
Definition LOG_DIR : bytes := lit "./test/logs/".
Definition EACCES : Z := 13.

Inductive LEVEL : Type := INFO | DEBUG | WARN | ERROR.

Record LogInfo : Type := MkLogInfo {
  message : bytes;
  log_file : bytes;
  line : Z;
  level : LEVEL }.

(** Where [log_func] is: about to lock the mutex, in [pthread_cond_wait], woken
    from it, or returned, in which case it still holds the mutex. *)
Inductive lpc : Type := LTop | LWait | LWoken | LDone.

#[export] Instance lpc_eq_dec : EqDecision lpc.
Proof. solve_decision. Defined.

(** [out] is the log file; [accepted] records the messages [trash_log] queued. *)
Record Log : Type := MkLog {
  logs : LL LogInfo;
  lflags : Z;
  thread : lpc;
  out : list bytes;
  accepted : list LogInfo }.

(** ** Opening *)

(** One round of the loop of [init_logger], lines 58-72: whether [f] is set. *)
Definition init_attempt {F} `{OS F} (filepath : bytes) (f : F) : res (bool * F) :=
  let '(opened, f) := os_fopen f filepath in
  if opened : bool then Ok (true, f)
  else
    f ← (if os_errno f =? ENOENT then
           '(rc, f) ← trash_no_file_dir filepath f; c_assert (rc =? 0);; Ok f
         else Ok f);
    c_assert (negb (os_errno f =? EACCES));;
    Ok (false, f).

(** [init_logger]: the return code, the logger and the file system; the loop makes
    at most two attempts, [create] is the result of [pthread_create]. *)
Definition init_logger {F} `{OS F} (logFile : bytes) (create : Z) (flags : Z) (f : F)
  : res (Z * Log * F) :=
  let filepath := snprintf 256 (LOG_DIR ++ logFile) in
  '(opened, f) ← init_attempt filepath f;
  '(opened, f) ← (if opened : bool then Ok (true, f) else init_attempt filepath f);
  if opened : bool
  then Ok (create, MkLog ll_init (set_flag flags OPEN_Q) LTop [] [], f)
  else Ok (TRASH_ERROR, MkLog ll_init flags LTop [] [], f).

(** ** Printing a message *)

Definition level_name (l : LEVEL) : bytes :=
  match l with
  | INFO => lit "INFO"
  | DEBUG => lit "DEBUG"
  | WARN => lit "WARN"
  | ERROR => lit "ERROR"
  end.

(** [level_to_char]: [strcpy] of the name and its NUL. *)
Definition level_to_char (buff : block) (l : LEVEL) : res block :=
  write_bytes buff 0 (level_name l ++ [0]).

(** [current_time]: the copy of the string of [asctime]. *)
Definition current_time (timestamp : block) (asct : bytes) : res block :=
  copy_block timestamp 0 ((Some <$> asct) ++ [Some 0]) 0 (TIME_LENGTH - 2).

Definition LOG_FMT (timestamp level file : bytes) (line : Z) (message : bytes) : bytes :=
  lit "[" ++ timestamp ++ lit "][" ++ level ++ lit "][" ++ file ++ lit ":" ++ lit (pretty line)
  ++ lit "][" ++ message ++ lit "]" ++ [10].

(** Lines 218-220. *)
Definition print_log (l : LogInfo) (asct : bytes) (beyond : block) : res bytes :=
  levelBuff ← level_to_char (fresh_block (MAX_LEVEL_LEN + 1)) (level l);
  timestamp ← current_time (fresh_block (TIME_LENGTH - 2)) asct;
  ts ← c_str (timestamp ++ beyond);
  lv ← c_str levelBuff;
  Ok (LOG_FMT ts lv (log_file l) (line l) (message l)).

(** ** The calls and the thread *)

(** [pthread_cond_signal(&logCond)] *)
Definition signal (t : lpc) : lpc := if decide (t = LWait) then LWoken else t.

(** [trash_log] with the mutex free. *)
Definition trash_log (l : LogInfo) (s : Log) : Z * Log :=
  if negb (has_flag (lflags s) OPEN_Q) then (LOG_ERROR, s)
  else
    let q := ll_append (logs s) l in
    let t := if len q <? 1 then signal (thread s) else thread s in
    (LOGGED, MkLog q (lflags s) t (out s) (accepted s ++ [l])).

(** [close_logger] up to the join. *)
Definition close_logger (s : Log) : Log :=
  MkLog (logs s) CLOSE_Q (signal (thread s)) (out s) (accepted s).

(** A round of [log_func] from the lock, or from the return of the wait. *)
Definition log_func_round (asct : bytes) (beyond : block) (s : Log) : res Log :=
  if ((len (logs s) =? 0) && has_flag (lflags s) OPEN_Q)%bool
  then Ok (MkLog (logs s) (lflags s) LWait (out s) (accepted s))
  else if ((len (logs s) =? 0) && has_flag (lflags s) CLOSE_Q)%bool
  then Ok (MkLog (logs s) (lflags s) LDone (out s) (accepted s))
  else
    '(item, q) ← ll_pop (logs s);
    match item with
    | None => UB
    | Some l =>
        text ← print_log l asct beyond;
        Ok (MkLog q (lflags s) LTop (out s ++ [text]) (accepted s))
    end.

Inductive event : Type :=
| ELog (l : LogInfo)
| ERound (asct : bytes) (beyond : block)
| ESpurious
| EClose.

(** [None] when the event is not enabled: the mutex is held by the thread that
    returned, or the thread waits. *)
Definition run (e : event) (s : Log) : option (res Log) :=
  match e, thread s with
  | ELog _, LDone | EClose, LDone => None
  | ELog l, _ => Some (Ok (trash_log l s).2)
  | EClose, _ => Some (Ok (close_logger s))
  | ERound a b, (LTop | LWoken) => Some (log_func_round a b s)
  | ERound _ _, _ => None
  | ESpurious, LWait => Some (Ok (MkLog (logs s) (lflags s) LWoken (out s) (accepted s)))
  | ESpurious, _ => None
  end.

Fixpoint run_all (es : list event) (s : Log) : option (res Log) :=
  match es with
  | [] => Some (Ok s)
  | e :: es => r ← run e s; match r with Ok s => run_all es s | r => Some r end
  end.

(** The logger as [init_logger] leaves it. *)
Definition started : Log := MkLog ll_init OPEN_Q LTop [] [].

Definition reachable (s : Log) : Prop := ∃ es, run_all es started = Some (Ok s).

(** ** Every accepted message is printed once, in order *)

(** The lines of the log file are those of the first accepted messages and the
    queue holds the rest; the thread has returned only from an empty, closed
    queue.  The length is exact while fewer than 2^64 messages were accepted. *)
Record log_inv (s : Log) : Prop := {
  li_out : ∃ ps, out s = (λ p, LOG_FMT p.1 (level_name (level p.2)) (log_file p.2) (line p.2) (message p.2)) <$> ps
    ∧ accepted s = ps.*2 ++ items (logs s);
  li_wf : ll_wf (logs s);
  li_flags : lflags s = OPEN_Q ∨ lflags s = CLOSE_Q;
  li_done : thread s = LDone → items (logs s) = [] ∧ lflags s = CLOSE_Q }.

Definition few (s : Log) : Prop := Z.of_nat (length (accepted s)) < 2 ^ 64.

Lemma level_name_cstr l : is_cstr (level_name l).
Proof. apply (bool_decide_unpack _). by destruct l. Qed.

(** The level fits its buffer. *)
Lemma level_to_char_fits l :
  ∃ b, level_to_char (fresh_block (MAX_LEVEL_LEN + 1)) l = Ok b ∧ c_str b = Ok (level_name l).
Proof. destruct l; (eexists; split; [vm_compute; reflexivity|reflexivity]). Qed.

Lemma print_log_format l asct beyond text :
  print_log l asct beyond = Ok text →
  ∃ ts, text = LOG_FMT ts (level_name (level l)) (log_file l) (line l) (message l).
Proof.
  unfold print_log. intros E. destruct (level_to_char_fits (level l)) as (b & Eb & Ec).
  rewrite Eb in E. apply res_bind_Ok in E as (b' & [= <-] & E).
  apply res_bind_Ok in E as (t & _ & E). apply res_bind_Ok in E as (ts & _ & E).
  rewrite Ec in E. cbn in E. injection E as <-. by exists ts.
Qed.

Lemma started_inv : log_inv started.
Proof. split; cbn; [by exists []|apply ll_wf_init|by left|done]. Qed.

Lemma trash_log_inv l s : thread s ≠ LDone → few (trash_log l s).2 → log_inv s → log_inv (trash_log l s).2.
Proof.
  unfold trash_log, few. intros Ht Hf [(ps & Eo & Ea) Hwf Hfl Hd].
  destruct (negb (has_flag (lflags s) OPEN_Q)); cbn [snd accepted] in *; [split; eauto|].
  split; cbn [out accepted logs lflags thread items ll_append].
  - exists ps. split; [done|]. by rewrite Ea, app_assoc.
  - apply ll_append_wf; [done|]. rewrite Ea, !length_app in Hf. cbn in Hf. lia.
  - done.
  - unfold signal. intros H. exfalso. destruct (_ <? _), (decide (thread s = LWait)); congruence.
Qed.

Lemma close_logger_inv s : thread s ≠ LDone → log_inv s → log_inv (close_logger s).
Proof.
  intros Ht [(ps & Eo & Ea) Hwf Hfl Hd]. split; cbn; [by exists ps|done|by right|].
  unfold signal. intros H. exfalso. destruct (decide (thread s = LWait)); congruence.
Qed.

(** The outcomes of a round. *)
Lemma log_func_round_cases a b s s' :
  log_inv s → log_func_round a b s = Ok s' →
  lflags s' = lflags s ∧ accepted s' = accepted s ∧
  (items (logs s) = [] ∧ logs s' = logs s ∧ out s' = out s ∧
     thread s' = (if has_flag (lflags s) OPEN_Q then LWait else LDone) ∨
   ∃ l text, items (logs s) = l :: items (logs s') ∧ print_log l a b = Ok text ∧
     out s' = out s ++ [text] ∧ thread s' = LTop ∧ ll_wf (logs s')).
Proof.
  intros [_ Hwf Hfl _] E. unfold log_func_round in E.
  change (len (logs s) =? 0) with (ll_empty (logs s)) in E.
  rewrite (ll_empty_spec _ Hwf) in E.
  destruct (ll_pop_cases _ Hwf) as [[Hn _]|(l & q & Hi & Hp & Hq)].
  - rewrite bool_decide_eq_true_2 in E by done. cbn [andb] in E.
    destruct Hfl as [Hfl|Hfl]; rewrite Hfl in *; cbn in E; injection E as <-; cbn;
      (split_and!; [done..|]); left; done.
  - rewrite bool_decide_eq_false_2 in E by (rewrite Hi; done). cbn [andb] in E.
    rewrite Hp in E. cbn [mbind res_bind] in E. apply res_bind_Ok in E as (text & Et & E).
    injection E as <-. cbn. split_and!; [done..|]. right. by exists l, text.
Qed.

Lemma log_func_round_inv a b s s' : log_inv s → log_func_round a b s = Ok s' → log_inv s'.
Proof.
  intros Hinv E. destruct (log_func_round_cases _ _ _ _ Hinv E) as (Ef & Ea' & Hc).
  destruct Hinv as [(ps & Eo & Ea) Hwf Hfl Hd].
  destruct Hc as [(Hi & El & Eo' & Et)|(l & text & Hi & Ep & Eo' & Et & Hq)].
  - split; rewrite ?El, ?Eo', ?Ea', ?Ef; [by exists ps|done|done|]. intros Hdone. split; [done|].
    destruct Hfl as [Hfl|?]; [|done]. rewrite Et, Hfl in Hdone. done.
  - apply print_log_format in Ep as [ts ->]. split; rewrite ?Ea', ?Ef, ?Et; [|done|done|done].
    exists (ps ++ [(ts, l)]). rewrite !fmap_app, Eo', Eo, Ea, Hi, <-app_assoc. done.
Qed.

(** Messages are only added to [accepted]. *)
Lemma log_func_round_accepted a b s s' : log_func_round a b s = Ok s' → accepted s' = accepted s.
Proof.
  unfold log_func_round. intros E. repeat (case_bool; [by injection E as <-|]).
  apply res_bind_Ok in E as ([[l|] q] & _ & E); [|done].
  apply res_bind_Ok in E as (text & _ & E). by injection E as <-.
Qed.

Lemma run_few e s s' : run e s = Some (Ok s') → few s' → few s.
Proof.
  intros E. unfold run in E. unfold few.
  destruct e as [l|a b| |], (thread s) eqn:Et; try done; try (injection E as <-; done);
    try (injection E as <-; unfold trash_log; destruct (negb _); cbn; [done|];
         rewrite length_app; cbn; lia).
  all: injection E as E; apply log_func_round_accepted in E as ->; done.
Qed.

Lemma run_inv e s s' : run e s = Some (Ok s') → log_inv s → few s' → log_inv s'.
Proof.
  intros E Hinv Hf. unfold run in E.
  destruct e as [l|a b| |], (thread s) eqn:Et; try done; injection E as E; try subst s';
    try (apply trash_log_inv; [congruence|done|done]);
    try (apply close_logger_inv; [congruence|done]);
    try (by eapply log_func_round_inv).
  destruct Hinv. by split.
Qed.

Lemma run_all_cons e es s s' :
  run_all (e :: es) s = Some (Ok s') →
  ∃ s1, run e s = Some (Ok s1) ∧ run_all es s1 = Some (Ok s').
Proof. cbn. destruct (run e s) as [[s1| | |]|] eqn:E; cbn; try done. by exists s1. Qed.

Lemma run_all_few es s s' : run_all es s = Some (Ok s') → few s' → few s.
Proof.
  revert s. induction es as [|e es IH]; intros s E Hf; [by injection E as <-|].
  apply run_all_cons in E as (s1 & E1 & E). eapply run_few; eauto.
Qed.

Lemma run_all_inv es s s' : run_all es s = Some (Ok s') → log_inv s → few s' → log_inv s'.
Proof.
  revert s. induction es as [|e es IH]; intros s E Hinv Hf; [by injection E as <-|].
  apply run_all_cons in E as (s1 & E1 & E). apply (IH s1); [done| |done].
  eapply run_inv; [done..|]. by eapply run_all_few.
Qed.

Lemma reachable_log_inv s : reachable s → few s → log_inv s.
Proof. intros [es E] Hf. eapply run_all_inv; eauto using started_inv. Qed.

(** C38.  In every reachable state the log file holds, in order, a line for each of
    the messages accepted first, and the queue holds exactly the others; when
    the thread has returned every accepted message is in the file. *)
Theorem log_in_order s :
  reachable s → few s →
  ∃ ps, out s = (λ p, LOG_FMT p.1 (level_name (level p.2)) (log_file p.2) (line p.2) (message p.2)) <$> ps
    ∧ accepted s = ps.*2 ++ items (logs s) ∧ (thread s = LDone → accepted s = ps.*2).
Proof.
  intros Hr Hf. destruct (reachable_log_inv s Hr Hf) as [(ps & Eo & Ea) _ _ Hd].
  exists ps. split_and!; [done|done|]. intros Ht. rewrite Ea, (proj1 (Hd Ht)). apply app_nil_r.
Qed.

(** Rounds of the thread with the same time and memory. *)
Definition rounds (n : nat) (asct : bytes) (beyond : block) : list event := repeat (ERound asct beyond) n.

Lemma current_time_copies asct :
  (24 ≤ length asct)%nat →
  current_time (fresh_block (TIME_LENGTH - 2)) asct = Ok (Some <$> take 24 asct).
Proof.
  intros Hl. unfold current_time, copy_block, fresh_block, TIME_LENGTH.
  rewrite length_replicate, length_app, length_fmap. cbn [length].
  rewrite !(proj2 (Z.leb_le _ _)) by lia. cbn [andb]. f_equal.
  change (Z.to_nat 0) with 0%nat. change (Z.to_nat (26 - 2)) with 24%nat.
  change (Z.to_nat (0 + (26 - 2))) with 24%nat.
  rewrite take_0, drop_0, drop_replicate, Nat.sub_diag, take_app_le by (rewrite length_fmap; lia).
  by rewrite app_nil_r, fmap_take.
Qed.

(** The line of a message whose time is printed as [ts]. *)
Definition log_line (ts : bytes) (l : LogInfo) : bytes := LOG_FMT ts (level_name (level l)) (log_file l) (line l) (message l).

Lemma print_log_ok l asct beyond ts :
  (24 ≤ length asct)%nat → c_str ((Some <$> take 24 asct) ++ beyond) = Ok ts → print_log l asct beyond = Ok (log_line ts l).
Proof.
  intros Hl Hc. unfold print_log. destruct (level_to_char_fits (level l)) as (b & -> & Ec).
  cbn [mbind res_bind]. rewrite current_time_copies by done. cbn [mbind res_bind].
  rewrite Hc. cbn [mbind res_bind]. by rewrite Ec.
Qed.

Lemma rounds_flush n asct beyond ts s :
  (24 ≤ length asct)%nat → c_str ((Some <$> take 24 asct) ++ beyond) = Ok ts → log_inv s → lflags s = CLOSE_Q → thread s = LTop ∨ thread s = LWoken →
  length (items (logs s)) = n →
  ∃ s', run_all (rounds (S n) asct beyond) s = Some (Ok s') ∧ thread s' = LDone ∧
    accepted s' = accepted s ∧ items (logs s') = [] ∧ out s' = out s ++ (log_line ts <$> items (logs s)).
Proof.
  intros Hl24 Hts. revert s. induction n as [|n IH]; intros s Hinv Hfl Ht Hn.
  - apply nil_length_inv in Hn.
    assert (E : log_func_round asct beyond s
      = Ok (MkLog (logs s) (lflags s) LDone (out s) (accepted s))).
    { unfold log_func_round. change (len (logs s) =? 0) with (ll_empty (logs s)).
      by rewrite (ll_empty_spec _ (li_wf _ Hinv)), Hn, bool_decide_eq_true_2, Hfl by done. }
    exists (MkLog (logs s) (lflags s) LDone (out s) (accepted s)). cbn [logs out thread accepted].
    rewrite Hn, app_nil_r. split; [|done]. cbn [rounds repeat run_all]. unfold run.
    destruct Ht as [-> | ->]; cbn [mbind option_bind]; rewrite E; done.
  - destruct (ll_pop_cases _ (li_wf _ Hinv)) as [[Hi _]|(l & q & Hi & Hpop & Hq)];
      [by rewrite Hi in Hn|].
    pose proof (print_log_ok l asct beyond ts Hl24 Hts) as Et.
    assert (E : log_func_round asct beyond s
      = Ok (MkLog q (lflags s) LTop (out s ++ [log_line ts l]) (accepted s))).
    { unfold log_func_round. change (len (logs s) =? 0) with (ll_empty (logs s)).
      rewrite (ll_empty_spec _ (li_wf _ Hinv)), Hi, bool_decide_eq_false_2 by done.
      cbn [andb]. rewrite Hpop. cbn [mbind res_bind]. by rewrite Et. }
    destruct (IH (MkLog q (lflags s) LTop (out s ++ [log_line ts l]) (accepted s))) as (s' & E' & Hd & Ha & Hi' & Ho');
      [by eapply log_func_round_inv|done|by left|cbn; rewrite Hi in Hn; cbn in Hn; lia|].
    exists s'. split; [|split; [done|split; [done|split; [done|]]]].
    2:{ rewrite Ho', Hi. cbn. by rewrite <-app_assoc. }
    change (rounds (S (S n)) asct beyond) with (ERound asct beyond :: rounds (S n) asct beyond).
    cbn [run_all]. unfold run. destruct Ht as [-> | ->]; cbn [mbind option_bind]; rewrite E; done.
Qed.

(** C39.  [close_logger] flushes: from every reachable state in which the thread has
    not returned, after the queue is closed the thread needs one round per
    queued message and one more to return, when it prints each of them: the log
    file grows by a line for every queued message, in order, and the queue is
    empty.  The time has 24 characters, and there is a NUL somewhere behind its
    array, up to which it is printed.  The thread returns without unlocking, so
    no later call of [trash_log] or [close_logger] can take the mutex. *)
Theorem close_flushes s asct beyond ts :
  reachable s → few s → thread s ≠ LDone → (24 ≤ length asct)%nat → c_str ((Some <$> take 24 asct) ++ beyond) = Ok ts →
  ∃ s', run_all (EClose :: rounds (S (length (items (logs s)))) asct beyond) s = Some (Ok s') ∧
    thread s' = LDone ∧ accepted s' = accepted s ∧
    items (logs s') = [] ∧ out s' = out s ++ (log_line ts <$> items (logs s)) ∧
    ∀ l, run (ELog l) s' = None ∧ run EClose s' = None.
Proof.
  intros Hr Hf Ht Hl Hc. pose proof (close_logger_inv s Ht (reachable_log_inv s Hr Hf)) as Hinv.
  destruct (rounds_flush (length (items (logs s))) asct beyond ts (close_logger s))
    as (s' & E & Hd & Ha & Hi & Ho); [done|done|done|done| |done|].
  { cbn. unfold signal. destruct (thread s); cbn; auto; done. }
  exists s'. split_and!; [|done|done|done|done|].
  - cbn [run_all]. unfold run. destruct (thread s) eqn:Et; [..|done]; exact E.
  - intros l. unfold run. by rewrite Hd.
Qed.

(** [trash_log] signals the thread only if the queue has less than one message
    after the append, which is never the case: once the thread waits, nothing
    is printed however many messages are logged, until the queue is closed or
    the wait returns by itself. *)
Theorem log_never_signals ls s s' :
  log_inv s → thread s = LWait → Z.of_nat (length (items (logs s)) + length ls) < 2 ^ 64 →
  run_all (ELog <$> ls) s = Some (Ok s') →
  thread s' = LWait ∧ out s' = out s ∧ ∀ a b, run (ERound a b) s' = None.
Proof.
  intros Hinv Ht. pose proof (li_wf _ Hinv) as Hwf. clear Hinv.
  revert s Ht Hwf. induction ls as [|l ls IH]; intros s Ht Hwf Hlen E.
  - injection E as <-. split_and!; [done|done|]. intros a b. unfold run. by rewrite Ht.
  - rewrite fmap_cons in E. apply run_all_cons in E as (s1 & E1 & E).
    unfold run in E1. rewrite Ht in E1. injection E1 as <-. unfold trash_log in E.
    destruct (negb (has_flag (lflags s) OPEN_Q)); cbn [snd] in E.
    { apply (IH s); [done|done|cbn in Hlen; lia|done]. }
    cbn [length] in Hlen. pose proof Hwf as [Hl _].
    rewrite (proj2 (Z.ltb_ge (len (ll_append (logs s) l)) 1)) in E.
    2:{ cbn [ll_append len]. rewrite Hl, u64_small; lia. }
    apply (IH _) in E; [|done|apply ll_append_wf; [done|lia]|].
    2:{ cbn [logs ll_append items]. rewrite length_app. cbn. lia. }
    done.
Qed.

(** [current_time] leaves the 24 bytes of the time without a NUL and the line is
    printed with [%s]: unless the memory after the array happens to hold a NUL,
    printing the first message reads past it. *)
Theorem timestamp_unterminated l asct :
  (24 ≤ length asct)%nat → is_cstr asct → print_log l asct [] = UB.
Proof.
  intros Hl Hs. unfold print_log. destruct (level_to_char_fits (level l)) as (b & -> & Ec).
  cbn [mbind res_bind]. rewrite current_time_copies by done. cbn [mbind res_bind].
  rewrite app_nil_r.
  assert (Hu : ∀ t, is_cstr t → c_str (Some <$> t) = UB).
  { unfold is_cstr. induction t as [|c t IHt]; intros Ht; [done|]. cbn.
    rewrite (proj2 (Z.eqb_neq c 0)) by set_solver. by rewrite IHt by set_solver. }
  rewrite Hu; [done|]. intros Hin. apply Hs.
  apply elem_of_take in Hin as (i & Hi & _). by eapply list_elem_of_lookup_2.
Qed.

(** ** A concrete run *)

Definition demo_info (m : string) : LogInfo := MkLogInfo (lit m) (lit "a.c") 7 INFO.
Definition demo_time : bytes := lit "Mon Jan 01 23:59:59 2024".
Definition demo_beyond : block := [Some 0].

(** The thread waits, two messages are logged, the wait returns by itself. *)
Definition demo_events : list event :=
  [ERound demo_time demo_beyond; ELog (demo_info "one"); ELog (demo_info "two"); ESpurious;
   ERound demo_time demo_beyond].

Definition demo_log : Log :=
  match run_all demo_events started with Some (Ok s) => s | _ => started end.

Lemma demo_log_reachable : reachable demo_log.
Proof. exists demo_events. vm_compute. reflexivity. Qed.

Lemma log_in_order_witness :
  ∃ ps, out demo_log = (λ p, LOG_FMT p.1 (level_name (level p.2)) (log_file p.2) (line p.2) (message p.2)) <$> ps
    ∧ accepted demo_log = ps.*2 ++ items (logs demo_log)
    ∧ (thread demo_log = LDone → accepted demo_log = ps.*2).
Proof. exact (log_in_order demo_log demo_log_reachable eq_refl). Defined.

Lemma close_flushes_witness :
  ∃ s', run_all (EClose :: rounds 2 demo_time demo_beyond) demo_log = Some (Ok s') ∧
    thread s' = LDone ∧ accepted s' = [demo_info "one"; demo_info "two"] ∧
    items (logs s') = [] ∧ out s' = out demo_log ++ [log_line demo_time (demo_info "two")] ∧
    ∀ l, run (ELog l) s' = None ∧ run EClose s' = None.
Proof.
  refine (close_flushes demo_log demo_time demo_beyond demo_time demo_log_reachable eq_refl _ _ _).
  - vm_compute. congruence.
  - vm_compute. lia.
  - vm_compute. reflexivity.
Defined.

Lemma log_never_signals_witness :
  ∃ s s', run_all [ERound demo_time demo_beyond] started = Some (Ok s) ∧
    run_all (ELog <$> [demo_info "one"; demo_info "two"]) s = Some (Ok s') ∧
    thread s' = LWait ∧ out s' = out s ∧ ∀ a b, run (ERound a b) s' = None.
Proof.
  eexists _, _. split; [vm_compute; reflexivity|]. split; [vm_compute; reflexivity|].
  refine (log_never_signals [demo_info "one"; demo_info "two"] (MkLog ll_init OPEN_Q LWait [] []) _
    _ _ _ _); [|reflexivity|reflexivity|vm_compute; reflexivity].
  split; cbn; [by exists []|split; reflexivity|by left|done].
Defined.

Lemma timestamp_unterminated_witness : print_log (demo_info "one") demo_time [] = UB.
Proof.
  apply timestamp_unterminated; [vm_compute; lia|].
  apply (bool_decide_unpack _). vm_compute. exact I.
Defined.
