(* ===== verification/Lmdb.v ===== *)
(** * What db.c relies on of LMDB (include/lmdb.h)

    [LMDB] is the part of the API that db.c calls, over the state of an
    environment; [LMDBLaws] states what lmdb.h documents of it, in terms of what
    a transaction sees and what is committed.  [Ref] is a small store with
    snapshots that satisfies the laws; it shows that they can hold and runs the
    examples.  A key or a value is a list of bytes. *)

From S2P Require Import Prelude.

Definition MDB_NOSYNC : Z := 0x10000.
Definition MDB_RDONLY : Z := 0x20000.
Definition MDB_NOMETASYNC : Z := 0x40000.
Definition MDB_CREATE : Z := 0x40000.
Definition MDB_DUPSORT : Z := 0x04.
Definition MDB_NOOVERWRITE : Z := 0x10.
Definition MDB_KEYEXIST : Z := -30799.
Definition MDB_NOTFOUND : Z := -30798.
Definition MDB_NEXT : Z := 8.
Definition MDB_SET_RANGE : Z := 17.

(** A cursor read gives the key, the bytes that follow the key in the memory
    of the map, and the value. *)
Class LMDB (E : Type) : Type := {
  mdb_env_set_maxdbs : E → Z → Z * E;
  mdb_env_set_maxreaders : E → Z → Z * E;
  mdb_env_set_mapsize : E → Z → Z * E;
  mdb_env_open : E → bytes → Z → Z → Z * E;
  mdb_env_close : E → E;
  mdb_txn_begin : E → Z → Z * nat * E;
  mdb_txn_commit : E → nat → Z * E;
  mdb_txn_abort : E → nat → E;
  mdb_txn_reset : E → nat → E;
  mdb_txn_renew : E → nat → Z * E;
  mdb_dbi_open : E → nat → bytes → Z → Z * Z * E;
  mdb_put : E → nat → Z → bytes → bytes → Z → Z * E;
  mdb_get : E → nat → Z → bytes → Z * bytes;
  mdb_cursor_open : E → nat → Z → Z * nat * E;
  mdb_cursor_renew : E → nat → nat → Z * E;
  mdb_cursor_close : E → nat → E;
  mdb_cursor_get : E → nat → bytes → Z → Z * bytes * bytes * bytes * E }.

(** The order of keys: [memcmp], a prefix first. *)
Fixpoint bytes_le (a b : bytes) : bool :=
  match a, b with
  | [], _ => true
  | _ :: _, [] => false
  | x :: a, y :: b => if x =? y then bytes_le a b else x <? y
  end.

(** Insertion into a sorted list of entries. *)
Fixpoint insert_entry (kv : bytes * bytes) (l : list (bytes * bytes)) : list (bytes * bytes) :=
  match l with
  | [] => [kv]
  | x :: l => if bytes_le kv.1 x.1 then kv :: x :: l else x :: insert_entry kv l
  end.

(** The entries from the key [k] on, in order. *)
Definition range_entries (m : gmap bytes bytes) (k : bytes) : list (bytes * bytes) :=
  filter (λ kv, bytes_le k kv.1 = true) (foldr insert_entry [] (map_to_list m)).

Inductive txn_status : Type :=
| TFree
| TActive (write : bool)
| TReset.

(** [view e t d]: the contents of database [d] as transaction [t] sees them, for
    the databases opened without [MDB_DUPSORT] that [t] may use.  [stored e d]:
    its committed contents.  [rest e c]: the entries after the position of [c]. *)
Class LMDBLaws (E : Type) `{LMDB E} : Type := {
  status : E → nat → txn_status;
  view : E → nat → Z → option (gmap bytes bytes);
  stored : E → Z → option (gmap bytes bytes);
  rest : E → nat → option (list (bytes * bytes));
  same_but (e e' : E) (t : nat) : Prop :=
    ∀ t', t' ≠ t → status e' t' = status e t' ∧ ∀ d, view e' t' d = view e t' d;
  begin_spec : ∀ e fl t e', mdb_txn_begin e fl = (0, t, e') →
    status e t = TFree ∧ status e' t = TActive (negb (has_flag fl MDB_RDONLY)) ∧
    (∀ d, view e' t d = stored e d) ∧ (∀ d, stored e' d = stored e d) ∧ same_but e e' t;
  commit_spec : ∀ e t, status e t = TActive true → (mdb_txn_commit e t).1 = 0 →
    let e' := (mdb_txn_commit e t).2 in
    (∀ d, stored e' d = view e t d) ∧ status e' t = TFree ∧ same_but e e' t;
  abort_spec : ∀ e t, status e t ≠ TFree → let e' := mdb_txn_abort e t in
    (∀ d, stored e' d = stored e d) ∧ status e' t = TFree ∧ same_but e e' t;
  reset_spec : ∀ e t, status e t = TActive false → let e' := mdb_txn_reset e t in
    (∀ d, stored e' d = stored e d) ∧ status e' t = TReset ∧ same_but e e' t;
  renew_spec : ∀ e t, status e t = TReset → let e' := (mdb_txn_renew e t).2 in
    ((mdb_txn_renew e t).1 = 0 → status e' t = TActive false ∧ ∀ d, view e' t d = stored e d) ∧
    (∀ d, stored e' d = stored e d) ∧ same_but e e' t;
  renew_active : ∀ e t w, status e t = TActive w → let e' := (mdb_txn_renew e t).2 in
    (mdb_txn_renew e t).1 ≠ 0 ∧ (∀ t', status e' t' = status e t') ∧
    (∀ t' d, view e' t' d = view e t' d) ∧ (∀ d, stored e' d = stored e d);
  dbi_spec : ∀ e t name fl d e', mdb_dbi_open e t name fl = (0, d, e') →
    (∀ d', is_Some (view e t d') → view e' t d' = view e t d') ∧
    (has_flag fl MDB_DUPSORT = false → is_Some (view e' t d)) ∧
    (∀ d', stored e' d' = stored e d') ∧ (∀ c, rest e' c = rest e c) ∧
    status e' t = status e t ∧ same_but e e' t;
  put_spec : ∀ e t d k v fl m, status e t = TActive true → view e t d = Some m → fl = 0 ∨ fl = MDB_NOOVERWRITE →
    let '(rc, e') := mdb_put e t d k v fl in
    (rc = 0 → view e' t d = Some (<[k := v]> m)) ∧
    (fl = MDB_NOOVERWRITE → is_Some (m !! k) → rc = MDB_KEYEXIST) ∧
    (∀ d', d' ≠ d → view e' t d' = view e t d') ∧
    (∀ d', stored e' d' = stored e d') ∧ status e' t = status e t ∧ same_but e e' t;
  get_spec : ∀ e t d k m, view e t d = Some m →
    mdb_get e t d k = match m !! k with Some v => (0, v) | None => (MDB_NOTFOUND, []) end;
  next_spec : ∀ e c k l, rest e c = Some l →
    match l, mdb_cursor_get e c k MDB_NEXT with
    | [], (rc, _, _, _, _) => rc = MDB_NOTFOUND
    | kv :: l, (rc, k', _, v', e') => rc = 0 ∧ (k', v') = kv ∧ rest e' c = Some l
    end }.

(** ** A reference store *)

Module Ref.

(** A transaction: whether it writes, whether it is active, and what it sees: the
    names of the databases and their contents. *)
Record Txn : Type := MkTxn {
  writes : bool;
  active : bool;
  names : gmap bytes Z;
  tables : gmap Z (gmap bytes bytes) }.

Record Env : Type := MkEnv {
  cnames : gmap bytes Z;
  ctables : gmap Z (gmap bytes bytes);
  txns : gmap nat Txn;
  cursors : gmap nat (nat * Z * list (bytes * bytes));
  next : nat }.

Definition empty : Env := MkEnv ∅ ∅ ∅ ∅ 0.

Definition set_txn (e : Env) (t : nat) (x : Txn) : Env :=
  MkEnv (cnames e) (ctables e) (<[t := x]> (txns e)) (cursors e) (next e).

Definition snapshot (e : Env) (w : bool) : Txn := MkTxn w true (cnames e) (ctables e).

Definition free (e : Env) (t : nat) : Env :=
  MkEnv (cnames e) (ctables e) (delete t (txns e)) (cursors e) (next e).

(** A write transaction while another is open would block: an error here. *)
Definition begin (e : Env) (fl : Z) : Z * nat * Env :=
  let w := negb (has_flag fl MDB_RDONLY) in
  if decide (w = true ∧ map_Exists (λ _ x, writes x = true) (txns e)) then (16, 0%nat, e)
  else if decide (txns e !! next e = None) then
    (0, next e, MkEnv (cnames e) (ctables e) (<[next e := snapshot e w]> (txns e)) (cursors e) (S (next e)))
  else (12, 0%nat, e).

Definition commit (e : Env) (t : nat) : Z * Env :=
  match txns e !! t with
  | Some (MkTxn true true n m) => (0, MkEnv n m (delete t (txns e)) (cursors e) (next e))
  | _ => (22, e)
  end.

Definition reset (e : Env) (t : nat) : Env :=
  match txns e !! t with
  | Some (MkTxn false true n m) => set_txn e t (MkTxn false false n m)
  | _ => e
  end.

Definition renew (e : Env) (t : nat) : Z * Env :=
  match txns e !! t with
  | Some (MkTxn false false _ _) => (0, set_txn e t (snapshot e false))
  | _ => (22, e)
  end.

Definition table (e : Env) (t : nat) (d : Z) : option (gmap bytes bytes) :=
  match txns e !! t with
  | Some (MkTxn _ true _ m) => m !! d
  | _ => None
  end.

Definition dbi_open (e : Env) (t : nat) (name : bytes) (fl : Z) : Z * Z * Env :=
  match txns e !! t with
  | Some (MkTxn w true n m) =>
      match n !! name with
      | Some d => if decide (is_Some (m !! d)) then (0, d, e) else (22, 0, e)
      | None =>
          let d := 2 + Z.of_nat (size n) in
          if negb (has_flag fl MDB_CREATE) then (MDB_NOTFOUND, 0, e)
          else if negb w then (13, 0, e)
          else if decide (is_Some (m !! d)) then (22, 0, e)
          else (0, d, set_txn e t (MkTxn w true (<[name := d]> n) (<[d := ∅]> m)))
      end
  | _ => (22, 0, e)
  end.

Definition put (e : Env) (t : nat) (d : Z) (k v : bytes) (fl : Z) : Z * Env :=
  match txns e !! t with
  | Some (MkTxn true true n m) =>
      match m !! d with
      | Some tbl =>
          if decide (fl = MDB_NOOVERWRITE ∧ is_Some (tbl !! k)) then (MDB_KEYEXIST, e)
          else (0, set_txn e t (MkTxn true true n (<[d := <[k := v]> tbl]> m)))
      | None => (-30780, e)
      end
  | _ => (13, e)
  end.

Definition get (e : Env) (t : nat) (d : Z) (k : bytes) : Z * bytes :=
  match table e t d with
  | Some tbl => match tbl !! k with Some v => (0, v) | None => (MDB_NOTFOUND, []) end
  | None => (-30780, [])
  end.

Definition set_cursor (e : Env) (c : nat) (x : nat * Z * list (bytes * bytes)) : Env :=
  MkEnv (cnames e) (ctables e) (txns e) (<[c := x]> (cursors e)) (next e).

Definition cursor_open (e : Env) (t : nat) (d : Z) : Z * nat * Env :=
  match table e t d with
  | Some _ => (0, next e, MkEnv (cnames e) (ctables e) (txns e)
                 (<[next e := (t, d, [])]> (cursors e)) (S (next e)))
  | None => (22, 0%nat, e)
  end.

Definition cursor_renew (e : Env) (t c : nat) : Z * Env :=
  match cursors e !! c with
  | Some (_, d, _) => (0, set_cursor e c (t, d, []))
  | None => (22, e)
  end.

(** The next of [l], whose key is followed by its value in the map. *)
Definition step (e : Env) (c t : nat) (d : Z) (l : list (bytes * bytes)) : Z * bytes * bytes * bytes * Env :=
  match l with
  | [] => (MDB_NOTFOUND, [], [], [], e)
  | (k, v) :: l => (0, k, v, v, set_cursor e c (t, d, l))
  end.

Definition cursor_get (e : Env) (c : nat) (k : bytes) (op : Z) : Z * bytes * bytes * bytes * Env :=
  match cursors e !! c with
  | None => (22, [], [], [], e)
  | Some (t, d, l) =>
      if op =? MDB_SET_RANGE then
        match table e t d with
        | Some m => step e c t d (range_entries m k)
        | None => (22, [], [], [], e)
        end
      else if op =? MDB_NEXT then step e c t d l
      else (22, [], [], [], e)
  end.

Definition cursor_close (e : Env) (c : nat) : Env :=
  MkEnv (cnames e) (ctables e) (txns e) (delete c (cursors e)) (next e).

Definition tstatus (e : Env) (t : nat) : txn_status :=
  match txns e !! t with
  | Some (MkTxn w true _ _) => TActive w
  | Some (MkTxn false false _ _) => TReset
  | _ => TFree
  end.

(** ** The laws hold *)

Definition same (e e' : Env) (t : nat) : Prop :=
  tstatus e' t = tstatus e t ∧ ∀ d, table e' t d = table e t d.

Lemma same_txns e e' t : txns e' !! t = txns e !! t → same e e' t.
Proof. intros E. unfold same, tstatus, table. by rewrite E. Qed.

Lemma set_txn_other e t x t' : t' ≠ t → same e (set_txn e t x) t'.
Proof. intros. apply same_txns. by apply lookup_insert_ne. Qed.

Lemma free_other e t t' n m c k : t' ≠ t → same e (MkEnv n m (delete t (txns e)) c k) t'.
Proof. intros. apply same_txns. by apply lookup_delete_ne. Qed.

Lemma status_lookup e t x :
  txns e !! t = Some x →
  tstatus e t = (if active x then TActive (writes x) else if writes x then TFree else TReset).
Proof. unfold tstatus. intros ->. by destruct x as [[] []]. Qed.

Lemma table_lookup e t x d :
  txns e !! t = Some x → table e t d = if active x then tables x !! d else None.
Proof. unfold table. intros ->. by destruct x as [? []]. Qed.

(** An active transaction. *)
Lemma status_active e t w : tstatus e t = TActive w → ∃ n m, txns e !! t = Some (MkTxn w true n m).
Proof. unfold tstatus. destruct (txns e !! t) as [[[] [] n m]|]; intros; simplify_eq; eauto. Qed.

Lemma status_reset e t : tstatus e t = TReset → ∃ n m, txns e !! t = Some (MkTxn false false n m).
Proof. unfold tstatus. destruct (txns e !! t) as [[[] [] n m]|]; intros; simplify_eq; eauto. Qed.

Lemma table_Some e t d m : table e t d = Some m → ∃ w n ts, txns e !! t = Some (MkTxn w true n ts) ∧ ts !! d = Some m.
Proof. unfold table. destruct (txns e !! t) as [[w [] n ts]|]; intros; simplify_eq; eauto. Qed.

Lemma status_free e t : txns e !! t = None → tstatus e t = TFree.
Proof. unfold tstatus. by intros ->. Qed.

(** The entry a transaction has after [set_txn]. *)
Lemma set_txn_self e t x : txns (set_txn e t x) !! t = Some x.
Proof. apply lookup_insert_eq. Qed.

End Ref.

#[export] Instance Ref_LMDB : LMDB Ref.Env := {
  mdb_env_set_maxdbs e _ := (0, e);
  mdb_env_set_maxreaders e _ := (0, e);
  mdb_env_set_mapsize e _ := (0, e);
  mdb_env_open e _ _ _ := (0, e);
  mdb_env_close e := e;
  mdb_txn_begin := Ref.begin;
  mdb_txn_commit := Ref.commit;
  mdb_txn_abort := Ref.free;
  mdb_txn_reset := Ref.reset;
  mdb_txn_renew := Ref.renew;
  mdb_dbi_open := Ref.dbi_open;
  mdb_put := Ref.put;
  mdb_get := Ref.get;
  mdb_cursor_open := Ref.cursor_open;
  mdb_cursor_renew := Ref.cursor_renew;
  mdb_cursor_close := Ref.cursor_close;
  mdb_cursor_get := Ref.cursor_get }.

#[export] Instance Ref_laws : LMDBLaws Ref.Env.
Proof.
  refine {| status := Ref.tstatus; view := Ref.table;
            stored := λ e d, Ref.ctables e !! d;
            rest := λ e c, (λ x, x.2) <$> Ref.cursors e !! c |}; cbn [mdb_txn_begin mdb_txn_commit
    mdb_txn_abort mdb_txn_reset mdb_txn_renew mdb_dbi_open mdb_put mdb_get mdb_cursor_open
    mdb_cursor_get mdb_cursor_close Ref_LMDB].
  - intros e fl t e' E. unfold Ref.begin in E. repeat case_decide; simplify_eq.
    assert (El : ∀ n m c k, Ref.txns (Ref.MkEnv n m (<[Ref.next e := Ref.snapshot e
      (negb (has_flag fl MDB_RDONLY))]> (Ref.txns e)) c k) !! Ref.next e = Some (Ref.snapshot e
      (negb (has_flag fl MDB_RDONLY)))) by (intros; apply lookup_insert_eq).
    split_and!; [by apply Ref.status_free| |intros d|done|intros t' Ht'].
    + by erewrite Ref.status_lookup by apply El.
    + by erewrite Ref.table_lookup by apply El.
    + apply Ref.same_txns. by apply lookup_insert_ne.
  - intros e t Hs Hrc. apply Ref.status_active in Hs as (n & m & Et).
    unfold Ref.commit in *. rewrite Et in *. cbn. split_and!.
    + intros d. by rewrite (Ref.table_lookup _ _ _ _ Et).
    + apply Ref.status_free. apply lookup_delete_eq.
    + intros t' Ht'. by apply Ref.free_other.
  - intros e t _. split_and!; [done|apply Ref.status_free; apply lookup_delete_eq|].
    intros t' Ht'. by apply Ref.free_other.
  - intros e t Hs. apply Ref.status_active in Hs as (n & m & Et). unfold Ref.reset. rewrite Et.
    split_and!; [done|by erewrite Ref.status_lookup by apply Ref.set_txn_self|].
    intros t' Ht'. by apply Ref.set_txn_other.
  - intros e t Hs. apply Ref.status_reset in Hs as (n & m & Et). unfold Ref.renew. rewrite Et. cbn.
    split_and!; [intros _; split|done|].
    + by erewrite Ref.status_lookup by apply Ref.set_txn_self.
    + intros d. by erewrite Ref.table_lookup by apply Ref.set_txn_self.
    + intros t' Ht'. by apply Ref.set_txn_other.
  - intros e t w Hs. apply Ref.status_active in Hs as (n & m & Et). unfold Ref.renew. rewrite Et.
    by destruct w.
  - intros e t name fl d e' E. unfold Ref.dbi_open in E.
    destruct (Ref.txns e !! t) as [[w [] n m]|] eqn:Et; [|done..].
    destruct (n !! name) as [d0|].
    { case_decide as Hd; simplify_eq. split_and!; try done. intros _.
      by rewrite (Ref.table_lookup _ _ _ _ Et). }
    destruct (negb (has_flag fl MDB_CREATE)); [done|]. destruct (negb w); [done|].
    case_decide as Hd; simplify_eq. split_and!; [|intros _|done|done| |].
    + intros d' [x Hx]. rewrite (Ref.table_lookup _ _ _ _ Et) in Hx.
      erewrite (Ref.table_lookup _ _ (Ref.MkTxn w true _ _)) by apply Ref.set_txn_self.
      rewrite (Ref.table_lookup _ _ _ _ Et). cbn in *. rewrite lookup_insert_ne; [done|].
      intros <-. apply Hd. eauto.
    + erewrite (Ref.table_lookup _ _ (Ref.MkTxn w true _ _)) by apply Ref.set_txn_self. cbn.
      rewrite lookup_insert_eq. eauto.
    + erewrite (Ref.status_lookup _ _ (Ref.MkTxn w true _ _)) by apply Ref.set_txn_self.
      by rewrite (Ref.status_lookup _ _ _ Et).
    + intros t' Ht'. by apply Ref.set_txn_other.
  - intros e t d k v fl m Hs Hv Hfl. apply Ref.status_active in Hs as (n & ts & Et).
    unfold Ref.put. rewrite (Ref.table_lookup _ _ _ _ Et) in Hv. cbn in Hv. rewrite Et, Hv.
    case_decide as Hex.
    + by split_and!.
    + split_and!; try done.
      * intros _. erewrite (Ref.table_lookup _ _ (Ref.MkTxn true true _ _)) by apply Ref.set_txn_self.
        apply lookup_insert_eq.
      * intros ? ?. exfalso. by apply Hex.
      * intros d' Hd'. erewrite (Ref.table_lookup _ _ (Ref.MkTxn true true _ _)) by apply Ref.set_txn_self.
        rewrite (Ref.table_lookup _ _ _ _ Et). cbn. by apply lookup_insert_ne.
      * erewrite (Ref.status_lookup _ _ (Ref.MkTxn true true _ _)) by apply Ref.set_txn_self.
        by rewrite (Ref.status_lookup _ _ _ Et).
      * intros t' Ht'. by apply Ref.set_txn_other.
  - intros e t d k m Hv. unfold Ref.get. by rewrite Hv.
  - intros e c k l Hl. apply fmap_Some in Hl as ([[t d] l'] & Hc & ->). unfold Ref.cursor_get.
    rewrite Hc. cbn. destruct l' as [|[k' v'] l]; [done|]. cbn. by rewrite lookup_insert_eq.
Defined.
