(* ===== verification/Db.v ===== *)
(** * The database layer (src/db.c, include/db.h)

    [oEnv], the open databases, the transaction structs and the reader pool of
    one thread are the state [St]; LMDB is an [LMDB] interface (Lmdb.v).  The
    structs are named by numbers.  A database name is the string its pointer
    reads when the struct is made: the code keeps the pointer, and the model
    assumes that what it points to does not change. *)

From S2P Require Import Prelude Utilities Il Lmdb.

Definition METADATA : bytes := lit "metadata".
Definition DB_EXISTS : Z := 0x04.
Definition DB_DNE : Z := 0x08.
Definition TRASH_RD_TXN : Z := 0x01.
Definition TRASH_WR_TXN : Z := 0x02.
Definition TRASH_TXN_COMMIT : Z := 0x04.
Definition TRASH_TXN_DONT_FIN : Z := 0x08.
Definition METADATA_FLAGS : Z := MDB_CREATE.
Definition META_META : bytes := lit "meta_meta".
Definition DB_PREFIX : bytes := lit "dbs:".
Definition TXN_POOL_CAPACITY : Z := 1.
Definition DB_DIR : bytes := lit "./test/".

(** [struct OpenDb] without the mutex and the unused [action]. *)
Record OpenDb : Type := MkOpenDb {
  name : bytes;
  oflags : Z;
  id : Z;
  count : Z }.

(** [TrashTxn]: the LMDB transaction, the actions and the database. *)
Record TrashTxn : Type := MkTrashTxn {
  txn : nat;
  actions : Z;
  db : option nat }.

(** [struct Readers]: an entry of [txns] or [iCurr] is [None] until it is set. *)
Record Readers : Type := MkReaders {
  iCurr : option nat;
  txns : list (option nat);
  numTxns : Z }.

(** [dbs] is the list of [oEnv], [None] when [oEnv] is NULL; [odbs] and [tts] hold
    the structs, [ntt] the number of the next [TrashTxn]. *)
Record St (E : Type) : Type := MkSt {
  env : E;
  dbs : option (LL nat);
  odbs : list OpenDb;
  tts : gmap nat TrashTxn;
  ntt : nat;
  rdrPool : option Readers }.
Arguments MkSt {E} env dbs odbs tts ntt rdrPool.
Arguments env {E} s.
Arguments dbs {E} s.
Arguments odbs {E} s.
Arguments tts {E} s.
Arguments ntt {E} s.
Arguments rdrPool {E} s.

(** [uint32_t] as four bytes, low byte first, as [struct DbMeta] is stored. *)
Definition le32 (z : Z) : bytes := [u8 z; u8 (z / 2 ^ 8); u8 (z / 2 ^ 16); u8 (z / 2 ^ 24)].

Definition read_le32 (b : block) : res Z :=
  b0 ← read_byte b 0; b1 ← read_byte b 1; b2 ← read_byte b 2; b3 ← read_byte b 3;
  Ok (b0 + 2 ^ 8 * b1 + 2 ^ 16 * b2 + 2 ^ 24 * b3).

Section Db.
Context {E : Type} `{LMDB E}.
(** The size of the block that [malloc(sizeof(tt))] returns, [None] when it fails. *)
Context (malloc_tt : option Z).

Abbreviation M := (SM (St E)).

Definition lift {A} (r : res A) : M A := λ s, match r with
  | Ok a => Ok (a, s) | AssertFail => AssertFail | UB => UB | NoFuel => NoFuel end.
Definition get_st : M (St E) := λ s, Ok (s, s).
Definition put_env (e : E) : M unit := λ s, Ok (tt, MkSt e (dbs s) (odbs s) (tts s) (ntt s) (rdrPool s)).
Definition put_pool (r : option Readers) : M unit := λ s,
  Ok (tt, MkSt (env s) (dbs s) (odbs s) (tts s) (ntt s) r).

Definition put_dbs (l : option (LL nat)) : M unit := λ s,
  Ok (tt, MkSt (env s) l (odbs s) (tts s) (ntt s) (rdrPool s)).

(** A call that returns a code and changes the environment. *)
Definition call (f : E → Z * E) : M Z := λ s,
  let '(rc, e) := f (env s) in Ok (rc, MkSt e (dbs s) (odbs s) (tts s) (ntt s) (rdrPool s)).
Definition call_ (f : E → E) : M unit := λ s,
  Ok (tt, MkSt (f (env s)) (dbs s) (odbs s) (tts s) (ntt s) (rdrPool s)).
Definition call2 {A} (f : E → Z * A * E) : M (Z * A) := λ s,
  let '(rc, a, e) := f (env s) in Ok (rc, a, MkSt e (dbs s) (odbs s) (tts s) (ntt s) (rdrPool s)).

Definition load_tt (p : nat) : M TrashTxn := λ s,
  match tts s !! p with Some x => Ok (x, s) | None => UB end.
Definition store_tt (p : nat) (x : TrashTxn) : M unit := λ s,
  match tts s !! p with
  | Some _ => Ok (tt, MkSt (env s) (dbs s) (odbs s) (<[p := x]> (tts s)) (ntt s) (rdrPool s))
  | None => UB
  end.
Definition free_tt (p : nat) : M unit := λ s,
  match tts s !! p with
  | Some _ => Ok (tt, MkSt (env s) (dbs s) (odbs s) (delete p (tts s)) (ntt s) (rdrPool s))
  | None => UB
  end.
Definition load_db (d : option nat) : M OpenDb := λ s,
  match d with
  | Some i => match odbs s !! i with Some x => Ok (x, s) | None => UB end
  | None => UB
  end.
Definition store_db (i : nat) (x : OpenDb) : M unit := λ s,
  match odbs s !! i with
  | Some _ => Ok (tt, MkSt (env s) (dbs s) (<[i := x]> (odbs s)) (tts s) (ntt s) (rdrPool s))
  | None => UB
  end.

(** [db->count += n] under [odbMutex], an [unsigned int]. *)
Definition add_count (d : option nat) (n : Z) : M unit :=
  x ← load_db d;
  match d with
  | Some i => store_db i (MkOpenDb (name x) (oflags x) (id x) (u32 (count x + n)))
  | None => lift UB
  end.

Definition or_actions (p : nat) (f : Z) : M unit :=
  x ← load_tt p; store_tt p (MkTrashTxn (txn x) (set_flag (actions x) f) (db x)).
Definition clear_actions (p : nat) (f : Z) : M unit :=
  x ← load_tt p; store_tt p (MkTrashTxn (txn x) (clear_flag (actions x) f) (db x)).
Definition set_db (p : nat) (d : nat) : M unit :=
  x ← load_tt p; store_tt p (MkTrashTxn (txn x) (actions x) (Some d)).

(** ** Matching and opening *)

Definition db_match (d : option nat) (dbname : bytes) : M Z :=
  match d with
  | None => mret TRASH_ERROR
  | Some _ => x ← load_db d; mret (if decide (name x = dbname) then TRASH_SUCCESS else TRASH_ERROR)
  end.

(** [internal_create_trash_txn]: three fields of 8 bytes are written into the block. *)
Definition internal_create_trash_txn (t : nat) (rdwr : Z) : M nat :=
  match malloc_tt with
  | None => lift AssertFail
  | Some n =>
      if n <? 24 then lift UB
      else λ s, Ok (ntt s, MkSt (env s) (dbs s) (odbs s)
                             (<[ntt s := MkTrashTxn t rdwr None]> (tts s)) (S (ntt s)) (rdrPool s))
  end.

(** [internal_get_read_txn]: the first branch ignores the code of [mdb_txn_begin]
    and uses the handle it did not set. *)
Definition internal_get_read_txn : M nat :=
  s ← get_st;
  match rdrPool s with
  | None =>
      '(rc, t) ← call2 (λ e, mdb_txn_begin e MDB_RDONLY);
      if rc =? 0 then internal_create_trash_txn t TRASH_RD_TXN else lift UB
  | Some r =>
      if numTxns r =? 0 then lift AssertFail
      else
        let n := u64 (numTxns r - 1) in
        match txns r !! Z.to_nat n with
        | Some (Some p) =>
            put_pool (Some (MkReaders (iCurr r) (txns r) n));;
            x ← load_tt p;
            rc ← call (λ e, mdb_txn_renew e (txn x));
            lift (c_assert (rc =? 0));;
            mret p
        | _ => lift UB
        end
  end.

Definition internal_begin_txn (rdwr : Z) : M nat :=
  if rdwr =? TRASH_RD_TXN then internal_get_read_txn
  else
    '(rc, t) ← call2 (λ e, mdb_txn_begin e 0);
    lift (c_assert (rc =? 0));;
    internal_create_trash_txn t TRASH_WR_TXN.

(** The first open database with that name, lines 157-164. *)
Fixpoint find_db (l : list nat) (dbname : bytes) : M (option nat) :=
  match l with
  | [] => mret None
  | i :: l =>
      rc ← db_match (Some i) dbname;
      if rc =? TRASH_SUCCESS then mret (Some i) else find_db l dbname
  end.

Definition change_txn_db (p : nat) (dbname : bytes) : M Z :=
  x ← load_tt p;
  rc ← db_match (db x) dbname;
  if negb (rc =? TRASH_ERROR) then mret rc
  else
    s ← get_st;
    match dbs s with
    | None => lift UB
    | Some l =>
        d ← find_db (items l) dbname;
        match d with
        | None => mret DB_DNE
        | Some i => add_count (Some i) 1;; set_db p i;; mret TRASH_SUCCESS
        end
    end.

Definition begin_txn (dbname : bytes) (rd : Z) : M (Z * nat) :=
  p ← internal_begin_txn rd;
  rc ← change_txn_db p dbname;
  mret (rc, p).

(** ** Returning a transaction *)

(** Lines 227-233: back to the pool, or abort the handle when the pool is full. *)
Definition return_to_pool (p : nat) : M unit :=
  s ← get_st;
  match rdrPool s with
  | None => lift UB
  | Some r =>
      if numTxns r <? TXN_POOL_CAPACITY then
        if decide (Z.to_nat (numTxns r) < length (txns r))%nat then
          put_pool (Some (MkReaders (iCurr r) (<[Z.to_nat (numTxns r) := Some p]> (txns r))
                            (u64 (numTxns r + 1))))
        else lift UB
      else x ← load_tt p; call_ (λ e, mdb_txn_abort e (txn x))
  end.

(** Lines 237-245. *)
Definition return_end (p : nat) : M unit :=
  x ← load_tt p;
  add_count (db x) (-1);;
  if has_flag (actions x) TRASH_WR_TXN then free_tt p else mret tt.

Definition return_txn (p : nat) : M unit :=
  x ← load_tt p;
  let commit := has_flag (actions x) TRASH_TXN_COMMIT in
  (if commit then
     rc ← call (λ e, mdb_txn_commit e (txn x));
     lift (c_assert (rc =? 0));;
     clear_actions p TRASH_TXN_COMMIT
   else mret tt);;
  x ← load_tt p;
  (if (has_flag (actions x) TRASH_WR_TXN && negb commit)%bool
   then call_ (λ e, mdb_txn_abort e (txn x)) else mret tt);;
  if has_flag (actions x) TRASH_RD_TXN then
    (if commit then mret tt else call_ (λ e, mdb_txn_reset e (txn x)));;
    if has_flag (actions x) TRASH_TXN_DONT_FIN then clear_actions p TRASH_TXN_DONT_FIN
    else return_to_pool p;; return_end p
  else return_end p.

(** ** Cursors *)

Definition create_cursor (tt : option nat) : M nat :=
  p ← match tt with Some p => mret p | None => internal_get_read_txn end;
  x ← load_tt p;
  match db x with
  | None => change_txn_db p METADATA;; mret ()
  | Some _ => mret ()
  end;;
  x ← load_tt p;
  s ← get_st;
  rc ← match rdrPool s with
       | Some _ => if has_flag (actions x) TRASH_RD_TXN then db_match (db x) METADATA else mret TRASH_ERROR
       | None => mret TRASH_ERROR
       end;
  match rdrPool s with
  | Some r =>
      if rc =? 0 then
        match iCurr r with
        | None => lift UB
        | Some c =>
            rc ← call (λ e, mdb_cursor_renew e (txn x) c);
            lift (c_assert (rc =? 0));; mret c
        end
      else
        d ← load_db (db x);
        '(rc, c) ← call2 (λ e, mdb_cursor_open e (txn x) (id d));
        lift (c_assert (rc =? 0));; mret c
  | None =>
      d ← load_db (db x);
      '(rc, c) ← call2 (λ e, mdb_cursor_open e (txn x) (id d));
      lift (c_assert (rc =? 0));; mret c
  end.

Definition return_cursor (curr : option nat) : M unit :=
  match curr with
  | None => mret ()
  | Some c => call_ (λ e, mdb_cursor_close e c)
  end.

(** ** Reading and writing *)

Definition trash_put (p : nat) (key val : bytes) (flags : Z) : M Z :=
  x ← load_tt p;
  if has_flag (actions x) TRASH_RD_TXN then mret TRASH_ERROR
  else
    d ← load_db (db x);
    rc ← call (λ e, mdb_put e (txn x) (id d) key val flags);
    (if rc =? 0 then or_actions p TRASH_TXN_COMMIT else mret ());;
    mret rc.

Definition trash_get (p : nat) (key : bytes) : M (Z * bytes) :=
  x ← load_tt p;
  d ← load_db (db x);
  s ← get_st;
  mret (mdb_get (env s) (txn x) (id d) key).

(** ** Opening a database *)

(** A new [struct OpenDb] at the end of the list [l] of [oEnv]. *)
Definition push_db (l : LL nat) (dbname : bytes) (d flags : Z) : M nat := λ s,
  let i := length (odbs s) in
  Ok (i, MkSt (env s) (Some (ll_append l i)) (odbs s ++ [MkOpenDb dbname flags d 0])
           (tts s) (ntt s) (rdrPool s)).

Definition internal_add_db (alloc : bool) (dbname : bytes) (d : Z) (flags : Z) : M nat :=
  lift (c_assert alloc);;
  s ← get_st;
  match dbs s with
  | None => lift UB
  | Some l => push_db l dbname d flags
  end.

(** The key of a database in the metadata database, in a buffer of 256 bytes. *)
Definition db_key (dbname : bytes) : bytes := snprintf 256 (DB_PREFIX ++ dbname).

Definition open_db (alloc : bool) (p : nat) (dbname : bytes) (flags : Z) : M unit :=
  change_txn_db p METADATA;;
  '(rc, data) ← trash_get p dbname;
  '(temp, dbMeta, flags) ←
    (if rc =? MDB_NOTFOUND then
       x ← load_tt p;
       temp ← (if has_flag (actions x) TRASH_RD_TXN then
                 or_actions p TRASH_TXN_DONT_FIN;;
                 return_txn p;;
                 '(_, temp) ← begin_txn METADATA TRASH_WR_TXN;
                 mret temp
               else mret p);
       mret (temp, flags, set_flag flags MDB_CREATE)
     else if rc =? 0 then
       b ← lift (write_bytes (fresh_block 4) 0 data);
       meta ← lift (read_le32 b);
       mret (p, meta, Z.land flags meta)
     else lift AssertFail);
  x ← load_tt temp;
  '(rc, d) ← call2 (λ e, mdb_dbi_open e (txn x) dbname flags);
  lift (c_assert (rc =? 0));;
  dbMeta ←
    (if has_flag flags MDB_CREATE then
       let dbMeta := clear_flag dbMeta MDB_CREATE in
       rc ← trash_put temp (db_key dbname) (le32 dbMeta) 0;
       lift (c_assert (rc =? 0));;
       (if decide (temp ≠ p) then return_txn temp else mret ());;
       x ← load_tt p;
       call (λ e, mdb_txn_renew e (txn x));;
       mret dbMeta
     else mret dbMeta);
  i ← internal_add_db alloc dbname d dbMeta;
  set_db p i.

(** ** Start *)

(** [mdb_cursor_get]: the code, the key, what follows it in memory, the value. *)
Definition cursor_get (c : nat) (key : bytes) (op : Z) : M (Z * bytes * bytes * bytes) := λ s,
  let '(rc, k, a, v, e) := mdb_cursor_get (env s) c key op in
  Ok (rc, k, a, v, MkSt e (dbs s) (odbs s) (tts s) (ntt s) (rdrPool s)).

(** The loop of [init_metadata] over the stored databases, lines 450-470. *)
Fixpoint load_dbs (fuel : nat) (alloc : bool) (p c : nat) (key : bytes) (dbMeta : block) (op : Z) : M unit :=
  match fuel with
  | O => lift NoFuel
  | S fuel =>
      '(rc, key, after, val) ← cursor_get c key op;
      if negb (rc =? 0) then mret ()
      else
        let mem := key ++ after in
        if decide (length mem < 4)%nat then lift UB
        else if negb (bool_decide (take 4 mem = DB_PREFIX)) then mret ()
        else
          dbname ← lift (c_str (Some <$> drop 4 mem));
          dbMeta ← lift (write_bytes dbMeta 0 val);
          meta ← lift (read_le32 dbMeta);
          x ← load_tt p;
          '(rc, d) ← call2 (λ e, mdb_dbi_open e (txn x) dbname meta);
          lift (c_assert (rc =? 0));;
          internal_add_db alloc dbname d meta;;
          load_dbs fuel alloc p c key dbMeta MDB_NEXT
  end.

(** [init_metadata]; [struct EnvMeta] has no field and no size. *)
Definition init_metadata (fuel : nat) (alloc : bool) : M unit :=
  '(rc, p) ← begin_txn METADATA TRASH_WR_TXN;
  if negb (rc =? DB_DNE) then mret ()
  else
    x ← load_tt p;
    '(rc, dbi) ← call2 (λ e, mdb_dbi_open e (txn x) METADATA METADATA_FLAGS);
    lift (c_assert (rc =? 0));;
    i ← internal_add_db alloc METADATA dbi METADATA_FLAGS;
    set_db p i;;
    or_actions p TRASH_TXN_COMMIT;;
    rc ← trash_put p META_META [] MDB_NOOVERWRITE;
    lift (c_assert ((rc =? 0) || (rc =? MDB_KEYEXIST))%bool);;
    c ← create_cursor (Some p);
    load_dbs fuel alloc p c DB_PREFIX (Some <$> le32 METADATA_FLAGS) MDB_SET_RANGE;;
    return_cursor (Some c);;
    return_txn p.

(** The loop of [init_thread_local_readers], lines 57-70. *)
Fixpoint create_readers (n : nat) : M (list (option nat)) :=
  match n with
  | O => mret []
  | S n =>
      '(rc, t) ← call2 (λ e, mdb_txn_begin e MDB_RDONLY);
      lift (c_assert (rc =? 0));;
      call_ (λ e, mdb_txn_reset e t);;
      p ← internal_create_trash_txn t TRASH_RD_TXN;
      l ← create_readers n;
      mret (Some p :: l)
  end.

Definition init_thread_local_readers (alloc : bool) : M unit :=
  s ← get_st;
  match rdrPool s with
  | Some _ => mret ()
  | None =>
      curr ← create_cursor None;
      lift (c_assert alloc);;
      l ← create_readers (Z.to_nat TXN_POOL_CAPACITY);
      put_pool (Some (MkReaders (Some curr) l TXN_POOL_CAPACITY))
  end.

(** ** The environment *)

Definition internal_set_env_fields (dbsize numdbs numthreads : Z) : M Z :=
  rc ← call (λ e, mdb_env_set_maxdbs e numdbs);
  if negb (rc =? 0) then mret TRASH_ERROR
  else
    rc ← call (λ e, mdb_env_set_maxreaders e numthreads);
    if negb (rc =? 0) then mret TRASH_ERROR
    else
      rc ← call (λ e, mdb_env_set_mapsize e dbsize);
      if negb (rc =? 0) then mret TRASH_ERROR else mret TRASH_SUCCESS.

Definition internal_create_open_env (alloc : bool) : M unit :=
  lift (c_assert alloc);; put_dbs (Some ll_init).

(** [open_env]: the file system is returned too.  The test of [errno] assigns it,
    so the branch that makes the directories is always taken. *)
Definition open_env {F} `{OS F} (regcomp : bytes → Z) (regexec : bytes → bytes → Z) (filename : bytes)
    (fuel : nat) (alloc : bool) (dbsize numdbs numthreads : Z) (f : F) : M (Z * F) :=
  s ← get_st;
  match dbs s with
  | Some _ => mret (TRASH_SUCCESS, f)
  | None =>
      if negb (validate_filename regcomp regexec filename =? 0) then mret (TRASH_ERROR, f)
      else
        let filepath := snprintf 256 (DB_DIR ++ filename) in
        let '(rc, f) := os_stat f filepath in
        '(rc, f) ← (if rc <? 0 then lift (trash_mkdir filepath f) else mret (0, f));
        if negb (rc =? 0) then mret (TRASH_ERROR, f)
        else
          rc ← internal_set_env_fields dbsize numdbs numthreads;
          if negb (rc =? TRASH_SUCCESS) then mret (TRASH_ERROR, f)
          else
            rc ← call (λ e, mdb_env_open e filepath (Z.lor MDB_NOSYNC MDB_NOMETASYNC) 0x1b4);
            if negb (rc =? 0) then lift AssertFail
            else
              internal_create_open_env alloc;;
              init_metadata fuel alloc;;
              mret (TRASH_SUCCESS, f)
  end.

(** [close_env]: a NULL [oEnv] is read. *)
Definition close_env : M unit :=
  s ← get_st;
  match dbs s with
  | None => lift UB
  | Some _ => call_ mdb_env_close
  end.

(** ** Lemmas on the primitives *)

Definition set_env (s : St E) (e : E) : St E := MkSt e (dbs s) (odbs s) (tts s) (ntt s) (rdrPool s).
Definition set_odbs (s : St E) (l : list OpenDb) : St E := MkSt (env s) (dbs s) l (tts s) (ntt s) (rdrPool s).
Definition set_tt (s : St E) (p : nat) (x : TrashTxn) : St E :=
  MkSt (env s) (dbs s) (odbs s) (<[p := x]> (tts s)) (ntt s) (rdrPool s).
Definition set_pool (s : St E) (r : option Readers) : St E :=
  MkSt (env s) (dbs s) (odbs s) (tts s) (ntt s) r.
Definition with_count (y : OpenDb) (n : Z) : OpenDb := MkOpenDb (name y) (oflags y) (id y) (u32 n).

Lemma load_tt_Ok p x s : tts s !! p = Some x → load_tt p s = Ok (x, s).
Proof. unfold load_tt. by intros ->. Qed.

Lemma add_count_Ok i y n s :
  odbs s !! i = Some y →
  add_count (Some i) n s = Ok (tt, set_odbs s (<[i := with_count y (count y + n)]> (odbs s))).
Proof.
  intros Hi. unfold add_count, load_db, store_db, mbind, SM_bind. rewrite Hi. cbn. by rewrite Hi.
Qed.

Lemma db_match_Ok i y dbname s :
  odbs s !! i = Some y →
  db_match (Some i) dbname s = Ok (if decide (name y = dbname) then TRASH_SUCCESS else TRASH_ERROR, s).
Proof. intros Hi. unfold db_match, load_db, mbind, SM_bind. by rewrite Hi. Qed.

(** The first open database with a name, as a function of the state. *)
Definition named (s : St E) (dbname : bytes) (i : nat) : bool :=
  match odbs s !! i with Some y => bool_decide (name y = dbname) | None => false end.

Definition lookup_db (s : St E) (dbname : bytes) : option nat :=
  match dbs s with
  | Some l => List.find (named s dbname) (items l)
  | None => None
  end.

(** Every listed number is a database. *)
Definition dbs_wf (s : St E) : Prop :=
  ∃ l, dbs s = Some l ∧ ∀ i, i ∈ items l → is_Some (odbs s !! i).

Lemma find_db_spec l dbname s :
  (∀ i, i ∈ l → is_Some (odbs s !! i)) →
  find_db l dbname s = Ok (List.find (named s dbname) l, s).
Proof.
  induction l as [|i l IH]; intros Hl; [done|]. cbn [find_db].
  destruct (Hl i) as [y Hi]; [set_solver|].
  rewrite (SM_bind_Ok _ _ _ _ _ (db_match_Ok i y dbname s Hi)).
  cbn [List.find]. unfold named at 1. rewrite Hi.
  destruct (decide (name y = dbname)) as [En|En].
  - by rewrite bool_decide_eq_true_2.
  - rewrite bool_decide_eq_false_2 by done. apply IH. set_solver.
Qed.

(** [change_txn_db] on a transaction that is not on that database. *)
Lemma change_txn_db_Ok p x dbname s :
  tts s !! p = Some x → dbs_wf s →
  (∀ d, db x = Some d → ∃ y, odbs s !! d = Some y ∧ name y ≠ dbname) →
  change_txn_db p dbname s = match lookup_db s dbname with
  | None => Ok (DB_DNE, s)
  | Some i =>
      match odbs s !! i with
      | Some y => Ok (TRASH_SUCCESS, set_tt (set_odbs s (<[i := with_count y (count y + 1)]> (odbs s))) p
                        (MkTrashTxn (txn x) (actions x) (Some i)))
      | None => UB
      end
  end.
Proof.
  intros Hx (l & Hl & Hwf) Hd. unfold change_txn_db.
  rewrite (SM_bind_Ok _ _ _ _ _ (load_tt_Ok p x s Hx)).
  assert (Em : db_match (db x) dbname s = Ok (TRASH_ERROR, s)).
  { destruct (db x) as [d|]; [|done]. destruct (Hd d eq_refl) as (y & Hy & Hn).
    rewrite (db_match_Ok d y) by done. by rewrite decide_False. }
  rewrite (SM_bind_Ok _ _ _ _ _ Em). cbn [negb].
  change (TRASH_ERROR =? TRASH_ERROR) with true. cbn [negb].
  rewrite (SM_bind_Ok get_st _ s s s) by done. rewrite Hl.
  rewrite (SM_bind_Ok _ _ _ _ _ (find_db_spec (items l) dbname s Hwf)).
  unfold lookup_db. rewrite Hl. destruct (List.find _ _) as [i|]; [|done].
  destruct (odbs s !! i) as [y|] eqn:Hi.
  - rewrite (SM_bind_Ok _ _ _ _ _ (add_count_Ok i y 1 s Hi)).
    unfold set_db, store_tt, load_tt, mbind, SM_bind. cbn. rewrite Hx. cbn. by rewrite Hx.
  - unfold add_count, load_db, mbind, SM_bind. by rewrite Hi.
Qed.

(** [change_txn_db] on a transaction that is on a database with that name. *)
Lemma change_txn_db_same p x d y dbname s :
  tts s !! p = Some x → db x = Some d → odbs s !! d = Some y → name y = dbname →
  change_txn_db p dbname s = Ok (TRASH_SUCCESS, s).
Proof.
  intros Hx Hd Hy Hn. unfold change_txn_db.
  rewrite (SM_bind_Ok _ _ _ _ _ (load_tt_Ok p x s Hx)). rewrite Hd.
  rewrite (SM_bind_Ok _ _ _ _ _ (db_match_Ok d y dbname s Hy)). by rewrite decide_True.
Qed.

End Db.
