(* ===== verification/DbProps.v ===== *)
(** * Properties of the database layer (src/db.c)

    The counts of the open databases, the visibility of what a write transaction
    puts, the registration of a database by [open_db], and the reload of the
    stored databases at the start; for every LMDB that satisfies [LMDBLaws]. *)

From S2P Require Import Prelude Utilities Il Lmdb Db.

Section Props.
Context {E : Type} `{LMDBLaws E}.
Context (malloc_tt : option Z).

Abbreviation M := (SM (St E)).

(** ** Pooled read transactions *)

(** The pool holds the transaction struct [p]. *)
Definition pooled (s : St E) (c : option nat) (p : nat) : Prop :=
  rdrPool s = Some (MkReaders c [Some p] 1).

Lemma get_read_txn_run s c p x :
  pooled s c p → tts s !! p = Some x →
  internal_get_read_txn malloc_tt s
  = if negb ((mdb_txn_renew (env s) (txn x)).1 =? 0) then AssertFail else
    Ok (p, set_env (set_pool s (Some (MkReaders c [Some p] 0))) (mdb_txn_renew (env s) (txn x)).2).
Proof.
  intros Hp Hx. unfold internal_get_read_txn. rewrite (SM_bind_Ok get_st _ s s s) by done. rewrite Hp.
  cbn [numTxns]. change (1 =? 0) with false. cbn match. change (Z.to_nat (u64 (1 - 1))) with 0%nat.
  cbn [txns]. change ([Some p] !! 0%nat) with (Some (Some p)). change (u64 (1 - 1)) with 0.
  unfold put_pool, call, mbind, SM_bind. unfold load_tt. cbn [tts Db.env]. rewrite Hx. cbn [Db.env].
  destruct (mdb_txn_renew (env s) (txn x)) as [rc e] eqn:Er. cbn [fst snd]. unfold lift, c_assert. by destruct (rc =? 0).
Qed.

(** A pooled read transaction on the database [i], returned. *)
Lemma return_read_Ok s c p t i y :
  rdrPool s = Some (MkReaders c [Some p] 0) → tts s !! p = Some (MkTrashTxn t TRASH_RD_TXN (Some i)) →
  odbs s !! i = Some y →
  return_txn p s = Ok (tt, set_odbs (set_pool (set_env s (mdb_txn_reset (env s) t))
    (Some (MkReaders c [Some p] 1))) (<[i := with_count y (count y - 1)]> (odbs s))).
Proof.
  intros Hp Hx Hi. unfold return_txn. rewrite (SM_bind_Ok _ _ _ _ _ (load_tt_Ok p _ s Hx)).
  cbn [actions]. change (has_flag TRASH_RD_TXN TRASH_TXN_COMMIT) with false. cbn match.
  rewrite (SM_bind_Ok (mret tt) _ s tt s) by done.
  rewrite (SM_bind_Ok _ _ _ _ _ (load_tt_Ok p _ s Hx)). cbn [actions txn].
  change (has_flag TRASH_RD_TXN TRASH_WR_TXN) with false.
  change (has_flag TRASH_RD_TXN TRASH_RD_TXN) with true.
  change (has_flag TRASH_RD_TXN TRASH_TXN_DONT_FIN) with false. cbn [andb].
  rewrite (SM_bind_Ok (mret tt) _ s tt s) by done. cbn match.
  set (s1 := set_env s (mdb_txn_reset (env s) t)).
  rewrite (SM_bind_Ok _ _ s tt s1) by done.
  assert (Er : return_to_pool p s1 = Ok (tt, set_pool s1 (Some (MkReaders c [Some p] 1)))).
  { unfold return_to_pool. rewrite (SM_bind_Ok get_st _ s1 s1 s1) by done.
    unfold s1. cbn [rdrPool set_env]. rewrite Hp. done. }
  rewrite (SM_bind_Ok _ _ _ _ _ Er). unfold return_end.
  rewrite (SM_bind_Ok _ _ _ (MkTrashTxn t TRASH_RD_TXN (Some i)) _) by (by apply load_tt_Ok).
  cbn [db]. rewrite (SM_bind_Ok _ _ _ _ _ (add_count_Ok i y (-1)
    (set_pool s1 (Some (MkReaders c [Some p] 1))) Hi)). done.
Qed.

(** One use of a reader. *)
Definition use_reader (dbname : bytes) : M Z :=
  '(rc, p) ← begin_txn malloc_tt dbname TRASH_RD_TXN;
  return_txn p;;
  mret rc.

(** [n] uses in a row, all with success. *)
Fixpoint use_reader_n (n : nat) (dbname : bytes) : M unit :=
  match n with
  | O => mret tt
  | S n =>
      rc ← use_reader dbname;
      if rc =? TRASH_SUCCESS then use_reader_n n dbname else lift AssertFail
  end.

(** LMDB refuses to renew the reader: the assertion stops the program. *)
Lemma use_reader_refused s c p x dbname :
  pooled s c p → tts s !! p = Some x → (mdb_txn_renew (env s) (txn x)).1 ≠ 0 → use_reader dbname s = AssertFail.
Proof.
  intros Hp Hx Hrc. unfold use_reader, begin_txn, internal_begin_txn.
  change (TRASH_RD_TXN =? TRASH_RD_TXN) with true. cbn match. unfold mbind, SM_bind.
  by rewrite (get_read_txn_run s c p x Hp Hx), (proj2 (Z.eqb_neq _ _) Hrc).
Qed.

(** LMDB refuses to renew the reset transaction [t] in some state. *)
Definition refused (t : nat) : Prop := ∃ e, status e t = TReset ∧ (mdb_txn_renew e t).1 ≠ 0.

(** The reader of the pool on its own database: nothing changes but the count. *)
Definition ready (s : St E) (c : option nat) (p t i : nat) (y : OpenDb) : Prop :=
  pooled s c p ∧ tts s !! p = Some (MkTrashTxn t TRASH_RD_TXN (Some i)) ∧
  status (env s) t = TReset ∧ odbs s !! i = Some y.

Lemma use_reader_same s c p t i y :
  ready s c p t i y → (mdb_txn_renew (env s) t).1 = 0 →
  ∃ s', use_reader (name y) s = Ok (TRASH_SUCCESS, s') ∧
    ready s' c p t i (with_count y (count y - 1)) ∧ odbs s' = <[i := with_count y (count y - 1)]> (odbs s).
Proof.
  intros (Hp & Hx & Hs & Hi) Hrc. unfold use_reader, begin_txn, internal_begin_txn.
  change (TRASH_RD_TXN =? TRASH_RD_TXN) with true. cbn match.
  pose proof (get_read_txn_run s c p _ Hp Hx) as Eg. cbn [txn] in Eg. rewrite Hrc in Eg. cbn [Z.eqb negb] in Eg.
  destruct (renew_spec (env s) t Hs) as (Hr0 & _). destruct (Hr0 Hrc) as [Ha _]. clear Hr0.
  set (e1 := (mdb_txn_renew (env s) t).2) in *. set (s1 := set_env _ e1) in *.
  assert (Eb : (p ← internal_get_read_txn malloc_tt; rc ← change_txn_db p (name y); mret (rc, p)) s
    = Ok ((TRASH_SUCCESS, p), s1)).
  { rewrite (SM_bind_Ok _ _ _ _ _ Eg).
    by rewrite (SM_bind_Ok _ _ _ _ _ (change_txn_db_same p _ i y (name y) s1 Hx eq_refl Hi eq_refl)). }
  rewrite (SM_bind_Ok _ _ _ _ _ Eb). cbn match.
  rewrite (SM_bind_Ok _ _ _ _ _ (return_read_Ok s1 c p t i y eq_refl Hx Hi)).
  eexists. split; [done|]. split; [|done].
  destruct (reset_spec e1 t Ha) as (_ & Hr & _).
  split_and!; [done|done|done|]. cbn. by rewrite list_lookup_insert_eq by (by eapply lookup_lt_Some).
Qed.

Lemma with_count_sub y a b : with_count (with_count y a) (count (with_count y a) - b) = with_count y (a - b).
Proof. unfold with_count. cbn. f_equal. unfold u32. apply Zminus_mod_idemp_l. Qed.

Lemma lookup_db_name (s : St E) dbname i y :
  lookup_db s dbname = Some i → odbs s !! i = Some y → name y = dbname.
Proof.
  unfold lookup_db. destruct (dbs s); [|done]. intros Hf Hy.
  apply List.find_some in Hf as [_ Hn]. unfold named in Hn. rewrite Hy in Hn.
  by apply bool_decide_eq_true in Hn.
Qed.

(** The first use, by a reader that is on another database or on none. *)
Lemma use_reader_first s c p x i y dbname :
  pooled s c p → tts s !! p = Some x → actions x = TRASH_RD_TXN → status (env s) (txn x) = TReset →
  dbs_wf s → (∀ d, db x = Some d → ∃ y', odbs s !! d = Some y' ∧ name y' ≠ dbname) →
  lookup_db s dbname = Some i → odbs s !! i = Some y → (mdb_txn_renew (env s) (txn x)).1 = 0 →
  ∃ s', use_reader dbname s = Ok (TRASH_SUCCESS, s') ∧
    ready s' c p (txn x) i (with_count y (count y - 0)) ∧
    odbs s' = <[i := with_count y (count y - 0)]> (odbs s).
Proof.
  intros Hp Hx Ha Hs Hwf Hd Hl Hi Hrc. unfold use_reader, begin_txn, internal_begin_txn.
  change (TRASH_RD_TXN =? TRASH_RD_TXN) with true. cbn match.
  pose proof (get_read_txn_run s c p x Hp Hx) as Eg. rewrite Hrc in Eg. cbn [Z.eqb negb] in Eg.
  destruct (renew_spec (env s) (txn x) Hs) as (Hr0 & _). destruct (Hr0 Hrc) as [Hact _]. clear Hr0.
  set (e1 := (mdb_txn_renew (env s) (txn x)).2) in *. set (s1 := set_env _ e1) in *.
  pose proof (change_txn_db_Ok p x dbname s1 Hx Hwf Hd) as Ec.
  change (lookup_db s1 dbname) with (lookup_db s dbname) in Ec. change (odbs s1) with (odbs s) in Ec.
  rewrite Hl, Hi in Ec. rewrite Ha in Ec.
  set (s2 := set_tt _ p _) in Ec.
  assert (Eb : (p ← internal_get_read_txn malloc_tt; rc ← change_txn_db p dbname; mret (rc, p)) s
    = Ok ((TRASH_SUCCESS, p), s2)).
  { rewrite (SM_bind_Ok _ _ _ _ _ Eg). by rewrite (SM_bind_Ok _ _ _ _ _ Ec). }
  rewrite (SM_bind_Ok _ _ _ _ _ Eb). cbn match.
  assert (Hi2 : odbs s2 !! i = Some (with_count y (count y + 1))).
  { cbn. by rewrite list_lookup_insert_eq by (by eapply lookup_lt_Some). }
  assert (Hx2 : tts s2 !! p = Some (MkTrashTxn (txn x) TRASH_RD_TXN (Some i))) by apply lookup_insert_eq.
  rewrite (SM_bind_Ok _ _ _ _ _ (return_read_Ok s2 c p (txn x) i _ eq_refl Hx2 Hi2)).
  replace (with_count (with_count y (count y + 1)) (count (with_count y (count y + 1)) - 1))
    with (with_count y (count y - 0)) by (rewrite with_count_sub; f_equal; lia).
  eexists. split; [done|].
  destruct (reset_spec e1 (txn x) Hact) as (_ & Hr & _). split; [split_and!|].
  - done.
  - cbn. apply lookup_insert_eq.
  - done.
  - cbn. rewrite list_insert_insert_eq.
    by rewrite list_lookup_insert_eq by (by eapply lookup_lt_Some).
  - cbn. apply list_insert_insert_eq.
Qed.

Lemma use_reader_n_drifts s c p t i y k n :
  ready s c p t i (with_count y (count y - k)) →
  (∃ s', use_reader_n n (name y) s = Ok (tt, s') ∧
    ready s' c p t i (with_count y (count y - (k + Z.of_nat n))) ∧
    ∀ j, j ≠ i → odbs s' !! j = odbs s !! j) ∨
  (use_reader_n n (name y) s = AssertFail ∧ refused t).
Proof.
  revert s k. induction n as [|n IH]; intros s k Hr.
  - left. exists s. rewrite Z.add_0_r. done.
  - cbn [use_reader_n]. destruct (decide ((mdb_txn_renew (env s) t).1 = 0)) as [Hrc|Hrc].
    2:{ right. destruct Hr as (Hp & Hx & Hs & _). split; [|by exists (env s)].
        pose proof (use_reader_refused s c p _ (name y) Hp Hx Hrc) as Eu. unfold mbind, SM_bind. by rewrite Eu. }
    destruct (use_reader_same s c p t i _ Hr Hrc) as (s1 & E1 & Hr1 & Ho). cbn [name with_count] in E1.
    rewrite (SM_bind_Ok _ _ _ _ _ E1). change (TRASH_SUCCESS =? TRASH_SUCCESS) with true. cbn match.
    rewrite with_count_sub in Hr1, Ho. replace (count y - k - 1) with (count y - (k + 1)) in * by lia.
    destruct (IH s1 (k + 1) Hr1) as [(s' & E' & Hr' & Hj)|?]; [left|by right]. exists s'.
    replace (k + Z.of_nat (S n)) with (k + 1 + Z.of_nat n) by lia. split_and!; [done|done|].
    intros j Hne. rewrite Hj, Ho by done. by rewrite list_lookup_insert_ne.
Qed.

(** C37.  The count of a database drifts: the first begin and return of a pooled
    reader, which is not yet on it, leave the count as it was, but the struct
    keeps the database, so every further begin on the same database does not
    count it again while every return takes one off, modulo 2^32.  The uses
    succeed unless LMDB refuses to renew the reader, which trips the assertion. *)
Theorem reader_count_drifts s c p x i y dbname n :
  pooled s c p → tts s !! p = Some x → actions x = TRASH_RD_TXN → status (env s) (txn x) = TReset →
  dbs_wf s → (∀ d, db x = Some d → ∃ y', odbs s !! d = Some y' ∧ name y' ≠ dbname) →
  lookup_db s dbname = Some i → odbs s !! i = Some y →
  (∃ s', use_reader_n (S n) dbname s = Ok (tt, s') ∧
    odbs s' !! i = Some (with_count y (count y - Z.of_nat n)) ∧
    (∀ j, j ≠ i → odbs s' !! j = odbs s !! j) ∧ pooled s' c p) ∨
  (use_reader_n (S n) dbname s = AssertFail ∧ refused (txn x)).
Proof.
  intros Hp Hx Ha Hs Hwf Hd Hl Hi. cbn [use_reader_n].
  destruct (decide ((mdb_txn_renew (env s) (txn x)).1 = 0)) as [Hrc|Hrc].
  2:{ right. split; [|by exists (env s)]. unfold mbind, SM_bind. by rewrite (use_reader_refused s c p x dbname Hp Hx Hrc). }
  destruct (use_reader_first s c p x i y dbname) as (s1 & E1 & Hr1 & Ho1); [done..|].
  rewrite <-(lookup_db_name s dbname i y Hl Hi) in *. rewrite (SM_bind_Ok _ _ _ _ _ E1).
  change (TRASH_SUCCESS =? TRASH_SUCCESS) with true. cbn match.
  destruct (use_reader_n_drifts s1 c p (txn x) i y 0 n Hr1) as [(s' & E' & (Hp' & _ & _ & Hi') & Hj)|?]; [left|by right].
  exists s'. split_and!; [done|done| |done].
  intros j Hne. rewrite Hj, Ho1 by done. by rewrite list_lookup_insert_ne.
Qed.

(** ** Write transactions *)




(** A successful put sets the commit flag. *)
Lemma trash_put_success p t a i y k v fl s s1 :
  tts s !! p = Some (MkTrashTxn t a (Some i)) → odbs s !! i = Some y →
  has_flag a TRASH_RD_TXN = false → trash_put p k v fl s = Ok (0, s1) →
  ∃ e, mdb_put (env s) t (id y) k v fl = (0, e) ∧
    s1 = set_tt (set_env s e) p (MkTrashTxn t (set_flag a TRASH_TXN_COMMIT) (Some i)).
Proof.
  intros Hx Hi Ha Ep. unfold trash_put in Ep.
  rewrite (SM_bind_Ok _ _ _ _ _ (load_tt_Ok p _ s Hx)) in Ep. cbn [actions txn db] in Ep.
  rewrite Ha in Ep. rewrite (SM_bind_Ok _ _ _ y s) in Ep by (unfold load_db; by rewrite Hi).
  apply SM_bind_inv in Ep as (rc & s2 & Ec & Ep). unfold call in Ec.
  destruct (mdb_put (env s) t (id y) k v fl) as [rc' e] eqn:Em. injection Ec as <- <-.
  apply SM_bind_inv in Ep as ([] & s3 & Eo & Ep). injection Ep as -> <-.
  change (0 =? 0) with true in Eo. cbn match in Eo. exists e. split; [done|].
  unfold or_actions in Eo. rewrite (SM_bind_Ok _ _ _ (MkTrashTxn t a (Some i)) (set_env s e)) in Eo
    by (by apply load_tt_Ok).
  unfold store_tt in Eo. cbn [tts set_env] in Eo. rewrite Hx in Eo. by injection Eo as <-.
Qed.

(** Returning a write transaction: committed when the flag is set, else aborted. *)
Lemma return_write_inv p t a i y s u s1 :
  tts s !! p = Some (MkTrashTxn t a (Some i)) → odbs s !! i = Some y →
  a = TRASH_WR_TXN ∨ a = Z.lor TRASH_WR_TXN TRASH_TXN_COMMIT →
  return_txn p s = Ok (u, s1) →
  ∃ e, s1 = MkSt e (dbs s) (<[i := with_count y (count y - 1)]> (odbs s)) (delete p (tts s)) (ntt s) (rdrPool s) ∧
    if decide (a = TRASH_WR_TXN) then e = mdb_txn_abort (env s) t
    else mdb_txn_commit (env s) t = (0, e).
Proof.
  intros Hx Hi Ha Er. unfold return_txn in Er.
  rewrite (SM_bind_Ok _ _ _ _ _ (load_tt_Ok p _ s Hx)) in Er. cbn [actions txn] in Er.
  assert (Hend : ∀ s0 a', tts s0 !! p = Some (MkTrashTxn t a' (Some i)) → odbs s0 = odbs s →
    has_flag a' TRASH_WR_TXN = true → return_end p s0 = Ok (u, s1) →
    s1 = MkSt (env s0) (dbs s0) (<[i := with_count y (count y - 1)]> (odbs s)) (delete p (tts s0)) (ntt s0) (rdrPool s0)).
  { intros s0 a' Hx0 Ho Ha' Ee. unfold return_end in Ee.
    rewrite (SM_bind_Ok _ _ _ _ _ (load_tt_Ok p _ s0 Hx0)) in Ee. cbn [db actions] in Ee.
    rewrite <-Ho in Hi. rewrite (SM_bind_Ok _ _ _ _ _ (add_count_Ok i y (-1) s0 Hi)), Ha' in Ee.
    unfold free_tt in Ee. cbn [tts set_odbs] in Ee. rewrite Hx0 in Ee. injection Ee as _ <-.
    unfold set_odbs. cbn. by rewrite Ho. }
  destruct Ha as [-> | ->].
  - change (has_flag TRASH_WR_TXN TRASH_TXN_COMMIT) with false in Er.
    cbn match in Er. rewrite (SM_bind_Ok (mret tt) _ s tt s) in Er by done.
    rewrite (SM_bind_Ok _ _ _ _ _ (load_tt_Ok p _ s Hx)) in Er. cbn [actions txn] in Er.
    change (has_flag TRASH_WR_TXN TRASH_WR_TXN) with true in Er.
    change (has_flag TRASH_WR_TXN TRASH_RD_TXN) with false in Er. cbn [negb andb] in Er.
    rewrite (SM_bind_Ok _ _ s tt (set_env s (mdb_txn_abort (env s) t))) in Er by done.
    apply (Hend _ TRASH_WR_TXN) in Er; [|done..]. eexists. split; [exact Er|].
    by rewrite decide_True.
  - change (has_flag (Z.lor TRASH_WR_TXN TRASH_TXN_COMMIT) TRASH_TXN_COMMIT) with true in Er.
    cbn match in Er. apply SM_bind_inv in Er as ([] & s2 & Ec & Er).
    apply SM_bind_inv in Ec as (rc & s3 & Ecc & Ec). unfold call in Ecc.
    destruct (mdb_txn_commit (env s) t) as [rc' e] eqn:Em. injection Ecc as <- <-.
    apply SM_bind_inv in Ec as ([] & s4 & Ea & Ec). unfold lift, c_assert in Ea.
    destruct (Z.eqb_spec rc' 0); [|done]. subst rc'. injection Ea as <-.
    unfold clear_actions in Ec.
    rewrite (SM_bind_Ok _ _ _ (MkTrashTxn t (Z.lor TRASH_WR_TXN TRASH_TXN_COMMIT) (Some i)) (set_env s e))
      in Ec by (by apply load_tt_Ok).
    unfold store_tt in Ec. cbn [tts set_env] in Ec. rewrite Hx in Ec. injection Ec as <-.
    cbn [actions txn] in Er. change (clear_flag (Z.lor TRASH_WR_TXN TRASH_TXN_COMMIT) TRASH_TXN_COMMIT)
      with TRASH_WR_TXN in Er.
    set (s5 := MkSt _ _ _ _ _ _) in Er.
    assert (Hx5 : tts s5 !! p = Some (MkTrashTxn t TRASH_WR_TXN (Some i))) by apply lookup_insert_eq.
    rewrite (SM_bind_Ok _ _ _ _ _ (load_tt_Ok p _ s5 Hx5)) in Er. cbn [actions txn] in Er.
    change (has_flag TRASH_WR_TXN TRASH_WR_TXN) with true in Er.
    change (has_flag TRASH_WR_TXN TRASH_RD_TXN) with false in Er. cbn [negb andb] in Er.
    rewrite (SM_bind_Ok (mret tt) _ s5 tt s5) in Er by done.
    apply (Hend _ TRASH_WR_TXN) in Er; [|done..]. exists e. rewrite decide_False by done.
    split; [|done]. rewrite Er. unfold s5. cbn. by rewrite delete_insert_eq.
Qed.






(** [trash_get] on a transaction whose database it sees. *)
Lemma trash_get_Ok p t a i y k m (s : St E) :
  tts s !! p = Some (MkTrashTxn t a (Some i)) → odbs s !! i = Some y →
  view (env s) t (id y) = Some m →
  trash_get p k s = Ok (match m !! k with Some v => (0, v) | None => (MDB_NOTFOUND, []) end, s).
Proof.
  intros Hx Hi Hv. unfold trash_get. rewrite (SM_bind_Ok _ _ _ _ _ (load_tt_Ok p _ s Hx)). cbn [db txn].
  rewrite (SM_bind_Ok _ _ s y s) by (unfold load_db; by rewrite Hi).
  rewrite (SM_bind_Ok get_st _ s s s) by done. by rewrite (get_spec _ _ _ _ _ Hv).
Qed.



(** ** Opening a database *)

Lemma set_db_Ok p x i (s : St E) :
  tts s !! p = Some x → set_db p i s = Ok (tt, set_tt s p (MkTrashTxn (txn x) (actions x) (Some i))).
Proof. intros Hx. unfold set_db, load_tt, store_tt, mbind, SM_bind. rewrite Hx. cbn. by rewrite Hx. Qed.

(** Where a database that [open_db] creates ends up. *)
Definition opened (s s1 : St E) (p t : nat) (dbname : bytes) (flags : Z) : Prop :=
  ∃ d l, dbs s = Some l ∧ dbs s1 = Some (ll_append l (length (odbs s))) ∧
    odbs s1 !! length (odbs s) = Some (MkOpenDb dbname flags d 0) ∧
    tts s1 !! p = Some (MkTrashTxn t (Z.lor TRASH_WR_TXN TRASH_TXN_COMMIT) (Some (length (odbs s)))).

(** Storing the metadata of a new database in a write transaction, lines 343-354. *)
Definition store_meta (p : nat) (dbname : bytes) (flags : Z) : M Z :=
  let dbMeta := clear_flag flags MDB_CREATE in
  rc ← trash_put p (db_key dbname) (le32 dbMeta) 0;
  lift (c_assert (rc =? 0));;
  (if decide (p ≠ p) then return_txn p else mret tt);;
  x ← load_tt p;
  call (λ e, mdb_txn_renew e (txn x));;
  mret dbMeta.

Lemma store_meta_inv p t im y m dbname flags s meta s1 :
  tts s !! p = Some (MkTrashTxn t TRASH_WR_TXN (Some im)) → odbs s !! im = Some y →
  status (env s) t = TActive true → view (env s) t (id y) = Some m →
  store_meta p dbname flags s = Ok (meta, s1) →
  ∃ e, meta = clear_flag flags MDB_CREATE ∧
    s1 = set_env (set_tt s p (MkTrashTxn t (set_flag TRASH_WR_TXN TRASH_TXN_COMMIT) (Some im))) e ∧
    view e t (id y) = Some (<[db_key dbname := le32 (clear_flag flags MDB_CREATE)]> m).
Proof.
  intros Hx Hi Hact Hv Em. unfold store_meta in Em.
  apply SM_bind_inv in Em as (rc & s2 & Ep & Em).
  apply SM_bind_inv in Em as ([] & s3 & Ea & Em). unfold lift, c_assert in Ea.
  destruct (Z.eqb_spec rc 0); [|done]. subst rc. injection Ea as <-.
  destruct (trash_put_success p t TRASH_WR_TXN im _ _ _ _ s s2 Hx Hi eq_refl Ep) as (e2 & Epu & ->).
  pose proof (put_spec (env s) t (id y) (db_key dbname) (le32 (clear_flag flags MDB_CREATE)) 0 m Hact Hv
    (or_introl eq_refl)) as Hsp.
  rewrite Epu in Hsp. destruct Hsp as (Hv2 & _ & _ & _ & Hst2 & _).
  specialize (Hv2 eq_refl). rewrite decide_False in Em by tauto.
  rewrite (SM_bind_Ok (mret tt) _ _ _ _ eq_refl) in Em.
  rewrite (SM_bind_Ok _ _ _ (MkTrashTxn t (set_flag TRASH_WR_TXN TRASH_TXN_COMMIT) (Some im)) _) in Em
    by (apply load_tt_Ok, lookup_insert_eq).
  cbn [txn] in Em. apply SM_bind_inv in Em as (rc & s8 & Er & Em). injection Em as <- <-.
  unfold call in Er. change (env (set_tt (set_env s e2) p _)) with e2 in Er.
  destruct (renew_active e2 t true) as (_ & _ & Hv8 & _); [congruence|].
  destruct (mdb_txn_renew e2 t) as [rcr e8] eqn:Ern. injection Er as _ <-. cbn [snd] in Hv8.
  exists e8. split_and!; [done|done|by rewrite Hv8].
Qed.

Lemma add_db_inv alloc l dbname d flags i (s s1 : St E) :
  dbs s = Some l → internal_add_db alloc dbname d flags s = Ok (i, s1) →
  i = length (odbs s) ∧ s1 = MkSt (env s) (Some (ll_append l (length (odbs s))))
    (odbs s ++ [MkOpenDb dbname flags d 0]) (tts s) (ntt s) (rdrPool s).
Proof.
  intros Hl Ea. unfold internal_add_db in Ea. apply SM_bind_inv in Ea as ([] & s2 & Eal & Ea).
  unfold lift, c_assert in Eal. destruct alloc; [|done]. injection Eal as <-.
  rewrite (SM_bind_Ok get_st _ _ _ _ eq_refl) in Ea. rewrite Hl in Ea. by injection Ea as <- <-.
Qed.

Lemma open_db_new alloc p t xd im ym m dbname flags s u s1 :
  dbs_wf s → tts s !! p = Some (MkTrashTxn t TRASH_WR_TXN xd) →
  (∀ d, xd = Some d → ∃ y, odbs s !! d = Some y ∧ name y ≠ METADATA) →
  lookup_db s METADATA = Some im → odbs s !! im = Some ym →
  status (env s) t = TActive true → view (env s) t (id ym) = Some m → m !! dbname = None →
  open_db malloc_tt alloc p dbname flags s = Ok (u, s1) →
  opened s s1 p t dbname (clear_flag flags MDB_CREATE) ∧
  view (env s1) t (id ym) = Some (<[db_key dbname := le32 (clear_flag flags MDB_CREATE)]> m).
Proof.
  intros Hwf Hx Hd Hl Hi Hact Hv Hnone Eo. unfold open_db in Eo.
  pose proof (change_txn_db_Ok p _ METADATA s Hx Hwf Hd) as Ec. rewrite Hl, Hi in Ec.
  set (s2 := set_tt _ p _) in Ec. cbn [txn actions] in s2.
  rewrite (SM_bind_Ok _ _ _ _ _ Ec) in Eo.
  assert (Hi2 : odbs s2 !! im = Some (with_count ym (count ym + 1))).
  { cbn. by rewrite list_lookup_insert_eq by (by eapply lookup_lt_Some). }
  assert (Hx2 : tts s2 !! p = Some (MkTrashTxn t TRASH_WR_TXN (Some im))) by apply lookup_insert_eq.
  assert (Et : trash_get p dbname s2 = Ok ((MDB_NOTFOUND, []), s2)).
  { rewrite (trash_get_Ok p t TRASH_WR_TXN im (with_count ym (count ym + 1)) dbname m s2 Hx2 Hi2 Hv).
    by rewrite Hnone. }
  rewrite (SM_bind_Ok _ _ _ _ _ Et) in Eo. change (MDB_NOTFOUND =? MDB_NOTFOUND) with true in Eo.
  cbn match in Eo.
  rewrite (SM_bind_Ok _ _ s2 (p, flags, set_flag flags MDB_CREATE) s2) in Eo.
  2:{ rewrite (SM_bind_Ok _ _ _ _ _ (load_tt_Ok p _ s2 Hx2)). done. }
  cbn match in Eo. rewrite (SM_bind_Ok _ _ _ _ _ (load_tt_Ok p _ s2 Hx2)) in Eo. cbn [txn] in Eo.
  apply SM_bind_inv in Eo as ([rc d] & s3 & Ed & Eo). unfold call2 in Ed.
  change (env s2) with (env s) in Ed.
  destruct (mdb_dbi_open (env s) t dbname (set_flag flags MDB_CREATE)) as [[rc0 d0] e3] eqn:Edo.
  injection Ed as <- <- <-. apply SM_bind_inv in Eo as ([] & s4 & Ea & Eo). unfold lift, c_assert in Ea.
  destruct (Z.eqb_spec rc0 0); [|done]. subst rc0. injection Ea as <-.
  destruct (dbi_spec _ _ _ _ _ _ Edo) as (Hv3 & _ & _ & _ & Hst3 & _).
  specialize (Hv3 (id ym)). rewrite Hv in Hv3. specialize (Hv3 ltac:(by eexists)).
  assert (Hfl : has_flag (set_flag flags MDB_CREATE) MDB_CREATE = true).
  { change MDB_CREATE with (2 ^ 18). rewrite has_set_flag by done. apply orb_true_r. }
  rewrite Hfl in Eo. set (s3 := MkSt e3 _ _ _ _ _) in Eo.
  apply SM_bind_inv in Eo as (meta & s5 & Em & Eo).
  destruct (store_meta_inv p t im (with_count ym (count ym + 1)) m dbname flags s3 meta s5)
    as (e & -> & -> & Hv5); [exact Hx2|exact Hi2|by rewrite <-Hact|exact Hv3|exact Em|].
  apply SM_bind_inv in Eo as (i & s9 & Eadd & Eset). destruct Hwf as (l & Hdl & _).
  apply (add_db_inv _ l) in Eadd as (-> & ->); [|exact Hdl].
  rewrite (set_db_Ok p (MkTrashTxn t (set_flag TRASH_WR_TXN TRASH_TXN_COMMIT) (Some im))) in Eset
    by apply lookup_insert_eq.
  injection Eset as _ <-. cbn [env dbs odbs tts set_tt set_env txn actions].
  split; [|exact Hv5].
  exists d0, l. cbn. rewrite !length_insert. split_and!; [done|done| |apply lookup_insert_eq].
  by rewrite lookup_app_r, length_insert, Nat.sub_diag by (by rewrite length_insert).
Qed.

(** The key never equals the name it is made from, unless the buffer cut it. *)
Lemma db_key_ne dbname : (length dbname < 252)%nat → db_key dbname ≠ dbname.
Proof.
  intros Hl Heq. apply (f_equal length) in Heq. unfold db_key, snprintf in Heq.
  rewrite length_take, length_app in Heq. change (length DB_PREFIX) with 4%nat in Heq.
  change (Z.to_nat (256 - 1)) with 255%nat in Heq. lia.
Qed.

(** [open_db] of an unknown name in a write transaction appends the database
    to the list, stores its flags without [MDB_CREATE] under the prefixed key,
    and marks the transaction for commit.  The look-up uses the bare name, so
    the name is still unknown to it afterwards; and as the transaction was not
    counted, returning it leaves the count of the new database at 2^32 - 1. *)
Theorem open_db_registers alloc p t xd im ym m dbname flags s u s1 :
  dbs_wf s → tts s !! p = Some (MkTrashTxn t TRASH_WR_TXN xd) →
  (∀ d, xd = Some d → ∃ y, odbs s !! d = Some y ∧ name y ≠ METADATA) →
  lookup_db s METADATA = Some im → odbs s !! im = Some ym →
  status (env s) t = TActive true → view (env s) t (id ym) = Some m → m !! dbname = None →
  (length dbname < 252)%nat →
  open_db malloc_tt alloc p dbname flags s = Ok (u, s1) →
  opened s s1 p t dbname (clear_flag flags MDB_CREATE) ∧
  (∃ m1, view (env s1) t (id ym) = Some m1 ∧
     m1 !! db_key dbname = Some (le32 (clear_flag flags MDB_CREATE)) ∧ m1 !! dbname = None) ∧
  ∀ u' s2, return_txn p s1 = Ok (u', s2) → count <$> odbs s2 !! length (odbs s) = Some 4294967295.
Proof.
  intros Hwf Hx Hd Hl Hi Hact Hv Hnone Hlen Eo.
  destruct (open_db_new alloc p t xd im ym m dbname flags s u s1) as (Ho & Hv1); [done..|].
  split; [done|]. split.
  - exists (<[db_key dbname := le32 (clear_flag flags MDB_CREATE)]> m). split_and!; [done| |].
    + apply lookup_insert_eq.
    + rewrite lookup_insert_ne by (by apply db_key_ne). done.
  - intros u' s2 Er. destruct Ho as (d & l & _ & _ & Hy & Hx1).
    destruct (return_write_inv _ _ _ _ _ _ _ _ Hx1 Hy (or_intror eq_refl) Er) as (e & -> & _).
    cbn. by rewrite list_lookup_insert_eq by (by eapply lookup_lt_Some).
Qed.

(** ** The databases found at the start *)

(** [struct DbMeta] is stored and read back. *)
Lemma le32_roundtrip z : 0 ≤ z < 2 ^ 32 → read_le32 (Some <$> le32 z) = Ok z.
Proof.
  intros Hz. unfold read_le32. set (b := Some <$> le32 z).
  rewrite (read_byte_lookup b 0 (u8 z) eq_refl : read_byte b 0 = _).
  rewrite (read_byte_lookup b 1 (u8 (z / 2 ^ 8)) eq_refl : read_byte b 1 = _).
  rewrite (read_byte_lookup b 2 (u8 (z / 2 ^ 16)) eq_refl : read_byte b 2 = _).
  rewrite (read_byte_lookup b 3 (u8 (z / 2 ^ 24)) eq_refl : read_byte b 3 = _).
  cbn [mbind res_bind]. f_equal. unfold u8.
  change (2 ^ 8) with 256. change (2 ^ 16) with 65536. change (2 ^ 24) with 16777216.
  change (2 ^ 32) with 4294967296 in Hz.
  rewrite (Z.mod_small (z / 16777216) 256) by (split; [apply Z.div_pos; lia|apply Z.div_lt_upper_bound; lia]).
  pose proof (Z.div_mod z 256 ltac:(lia)) as H1.
  pose proof (Z.div_mod (z / 256) 256 ltac:(lia)) as H2. rewrite Z.div_div in H2 by lia.
  pose proof (Z.div_mod (z / 65536) 256 ltac:(lia)) as H3. rewrite Z.div_div in H3 by lia.
  change (256 * 256) with 65536 in *. change (65536 * 256) with 16777216 in *. lia.
Qed.

(** The entries up to the first whose key has not the prefix. *)
Fixpoint prefix_run (l : list (bytes * bytes)) : list (bytes * bytes) :=
  match l with
  | [] => []
  | kv :: l => if decide (take 4 kv.1 = DB_PREFIX) then kv :: prefix_run l else []
  end.

(** The database made from a stored entry: the name is the string at the key
    after the prefix, which goes on in the memory after the key. *)
Definition made_from (kv : bytes * bytes) (y : OpenDb) : Prop :=
  count y = 0 ∧ kv.2 = le32 (oflags y) ∧
  ∃ after, c_str (Some <$> drop 4 (kv.1 ++ after)) = Ok (name y).

(** A stored value is the flags of a database opened without [MDB_DUPSORT]. *)
Definition stored_flags (v : bytes) : Prop := ∃ f, 0 ≤ f < 2 ^ 32 ∧ v = le32 f.

(** One round of the loop, by what the cursor returns. *)
Lemma load_dbs_step fuel alloc p c key meta op k after v e x l s u s1 :
  mdb_cursor_get (env s) c key op = (0, k, after, v, e) → (4 ≤ length k)%nat →
  (take 4 k = DB_PREFIX → stored_flags v) → length meta = 4%nat → tts s !! p = Some x → dbs s = Some l →
  load_dbs (S fuel) alloc p c key meta op s = Ok (u, s1) →
  if decide (take 4 k = DB_PREFIX) then
    ∃ y e2 meta', made_from (k, v) y ∧ (∀ c', rest e2 c' = rest e c') ∧ length meta' = 4%nat ∧
      load_dbs fuel alloc p c k meta' MDB_NEXT (MkSt e2 (Some (ll_append l (length (odbs s))))
        (odbs s ++ [y]) (tts s) (ntt s) (rdrPool s)) = Ok (u, s1)
  else odbs s1 = odbs s ∧ dbs s1 = dbs s.
Proof.
  intros Ec Hk Hfl Hm Hx Hl El. cbn [load_dbs] in El.
  rewrite (SM_bind_Ok _ _ _ (0, k, after, v) (set_env s e)) in El
    by (unfold cursor_get; by rewrite Ec).
  change (negb (0 =? 0)) with false in El. cbn match in El.
  rewrite decide_False in El by (rewrite length_app; lia).
  rewrite take_app_le in El by done.
  destruct (decide (take 4 k = DB_PREFIX)) as [Hpre|Hpre].
  2:{ rewrite bool_decide_eq_false_2 in El by done. cbn [negb] in El. by injection El as _ <-. }
  rewrite bool_decide_eq_true_2 in El by done. cbn [negb] in El.
  destruct (Hfl Hpre) as (f & Hf & ->).
  apply SM_bind_inv in El as (nm & s2 & En & El). unfold lift in En.
  destruct (c_str _) as [nm'| | |] eqn:Ecs; try done. injection En as <- <-.
  apply SM_bind_inv in El as (meta' & s2 & En & El). unfold lift in En.
  destruct (write_bytes meta 0 (le32 f)) as [b| | |] eqn:Ew; try done. injection En as <- <-.
  pose proof (length_write_bytes _ _ _ _ Ew) as Hlb. rewrite Hm in Hlb.
  assert (Eb : b = Some <$> le32 f).
  { rewrite write_bytes_Ok in Ew by (cbn; lia). injection Ew as <-.
    rewrite drop_ge by (rewrite Hm; cbn; lia). done. }
  apply SM_bind_inv in El as (fl & s2 & En & El). unfold lift in En.
  rewrite Eb, le32_roundtrip in En by done. injection En as <- <-.
  rewrite (SM_bind_Ok _ _ _ x (set_env s e)) in El by (by apply load_tt_Ok).
  apply SM_bind_inv in El as ([rc d] & s2 & Ed & El). unfold call2 in Ed.
  change (env (set_env s e)) with e in Ed.
  destruct (mdb_dbi_open e (txn x) nm' f) as [[rc0 d0] e2] eqn:Edo. injection Ed as <- <- <-.
  apply SM_bind_inv in El as ([] & s3 & Ea & El). unfold lift, c_assert in Ea.
  destruct (Z.eqb_spec rc0 0); [|done]. subst rc0. injection Ea as <-.
  destruct (dbi_spec _ _ _ _ _ _ Edo) as (_ & _ & _ & Hr & _).
  apply SM_bind_inv in El as (i & s4 & Eadd & El).
  apply (add_db_inv _ l) in Eadd as (-> & ->); [|exact Hl].
  exists (MkOpenDb nm' f d0 0), e2, b. split_and!; [|done|done|exact El].
  split_and!; [done|done|]. by exists after.
Qed.

(** The start reopens what was stored: from a cursor whose remaining entries are
    [l], the loop opens one database for each entry up to the first without the
    prefix, in the order of the keys, with the stored flags, and appends
    them to the list; nothing else is added. *)
Theorem load_dbs_reopens fuel alloc p c key meta x l L s u s1 :
  rest (env s) c = Some l → Forall (λ kv, (4 ≤ length kv.1)%nat) l →
  Forall (λ kv, stored_flags kv.2) (prefix_run l) → (length l < fuel)%nat → length meta = 4%nat → tts s !! p = Some x → dbs s = Some L →
  load_dbs fuel alloc p c key meta MDB_NEXT s = Ok (u, s1) →
  ∃ new, odbs s1 = odbs s ++ new ∧ Forall2 made_from (prefix_run l) new ∧
    dbs s1 = Some (foldl ll_append L (seq (length (odbs s)) (length new))).
Proof.
  revert key meta s L l. induction fuel as [|fuel IH]; intros key meta s L l Hr Hall Hv Hf Hm Hx HL El; [lia|].
  pose proof (next_spec (env s) c key l Hr) as Hn.
  destruct l as [|kv l].
  - cbn [load_dbs] in El. apply SM_bind_inv in El as ([[[rc k] a] v] & s2 & Ec & El).
    unfold cursor_get in Ec. destruct (mdb_cursor_get (env s) c key MDB_NEXT) as [[[[rc' k'] a'] v'] e].
    injection Ec as <- <- <- <- <-. subst rc'. change (negb (MDB_NOTFOUND =? 0)) with true in El.
    cbn match in El. injection El as _ <-. exists []. rewrite app_nil_r. done.
  - destruct (mdb_cursor_get (env s) c key MDB_NEXT) as [[[[rc k] a] v] e] eqn:Ec.
    destruct Hn as (-> & <- & Hr'). apply Forall_cons in Hall as [Hk Hall].
    cbn [prefix_run fst] in Hv.
    assert (Hv0 : take 4 k = DB_PREFIX → stored_flags v).
    { intros Hp. rewrite decide_True in Hv by done. by apply Forall_cons in Hv as [? _]. }
    pose proof (load_dbs_step _ _ _ _ _ _ _ _ _ _ _ _ _ _ _ _ Ec Hk Hv0 Hm Hx HL El) as Hstep.
    cbn [prefix_run fst]. destruct (decide (take 4 k = DB_PREFIX)).
    + destruct Hstep as (y & e2 & meta' & Hy & Hr2 & Hm' & El').
      apply (IH _ _ _ (ll_append L (length (odbs s))) l) in El' as (new & H1 & H2 & H3);
        [|by rewrite <-Hr', <-Hr2|done|by apply Forall_cons in Hv as [_ ?]|cbn in Hf; lia|done|exact Hx|done].
      cbn in H1, H3. exists (y :: new). rewrite H1, H3, <-app_assoc. split_and!; [done|by constructor|].
      cbn. by rewrite length_app, Nat.add_1_r.
    + destruct Hstep as [H1 H2]. exists []. rewrite app_nil_r, H1, H2. split_and!; [done|constructor|done].
Qed.

End Props.

(** ** A run on the reference store *)

Definition blank : St Ref.Env := MkSt Ref.empty (Some ll_init) [] ∅ 0 None.

(** What the start and the first test of the repository do: the metadata database,
    the readers, and a database made in a write transaction. *)
Definition demo_prepare : SM (St Ref.Env) unit :=
  init_metadata (Some 24) 10 true;;
  init_thread_local_readers (Some 24) true;;
  '(_, p) ← begin_txn (Some 24) (lit "test") TRASH_WR_TXN;
  open_db (Some 24) true p (lit "test") MDB_CREATE;;
  return_txn p.

Definition state_of {A} (r : res (A * St Ref.Env)) : St Ref.Env :=
  match r with Ok (_, s) => s | _ => blank end.

Definition demo_state : St Ref.Env := state_of (demo_prepare blank).

Definition demo_reader : TrashTxn := MkTrashTxn 4 TRASH_RD_TXN None.
Definition demo_db : OpenDb := MkOpenDb (lit "test") 0 3 4294967295.

Lemma demo_prepared : demo_prepare blank = Ok (tt, demo_state).
Proof. vm_compute. reflexivity. Qed.

(** [dbs_wf], computed. *)
Definition dbs_wfb (s : St Ref.Env) : bool :=
  match dbs s with
  | Some l => forallb (λ i, bool_decide (is_Some (odbs s !! i))) (items l)
  | None => false
  end.

Lemma dbs_wfb_wf s : dbs_wfb s = true → dbs_wf s.
Proof.
  unfold dbs_wfb, dbs_wf. destruct (dbs s) as [l|]; [|done]. intros Hb. exists l. split; [done|].
  intros i Hi. rewrite List.forallb_forall in Hb. apply (bool_decide_eq_true_1 _), Hb.
  by apply list_elem_of_In.
Qed.

Lemma demo_wf : dbs_wf demo_state.
Proof. apply dbs_wfb_wf. vm_compute. reflexivity. Qed.

Lemma demo_other : ∀ d, db demo_reader = Some d → ∃ y', odbs demo_state !! d = Some y' ∧ name y' ≠ lit "test".
Proof. done. Qed.

Lemma reader_count_drifts_witness :
  ∃ s', use_reader_n (Some 24) 4 (lit "test") demo_state = Ok (tt, s') ∧
    odbs s' !! 1%nat = Some (with_count demo_db (4294967295 - 3)) ∧
    (∀ j, j ≠ 1%nat → odbs s' !! j = odbs demo_state !! j) ∧ pooled s' (Some 3%nat) 2.
Proof.
  destruct (reader_count_drifts (Some 24) demo_state (Some 3%nat) 2 demo_reader 1 demo_db (lit "test") 3
    ltac:(vm_compute; reflexivity) ltac:(vm_compute; reflexivity) ltac:(vm_compute; reflexivity) ltac:(vm_compute; reflexivity)
    demo_wf demo_other ltac:(vm_compute; reflexivity) ltac:(vm_compute; reflexivity)) as [Hok|[Hf _]]; [exact Hok|].
  exfalso. vm_compute in Hf. discriminate Hf.
Defined.



Definition demo_meta : OpenDb := MkOpenDb METADATA 262144 2 1.

(** A write transaction that is on no database. *)
Definition demo_writer : St Ref.Env := state_of (begin_txn (Some 24) (lit "users") TRASH_WR_TXN demo_state).

Lemma open_db_registers_witness :
  ∃ s1 m1, open_db (Some 24) true 4 (lit "users") 0 demo_writer = Ok (tt, s1) ∧
    opened demo_writer s1 4 6 (lit "users") (clear_flag 0 MDB_CREATE) ∧
    view (env s1) 6 (id demo_meta) = Some m1 ∧
    m1 !! db_key (lit "users") = Some (le32 (clear_flag 0 MDB_CREATE)) ∧ m1 !! lit "users" = None.
Proof.
  set (s1 := state_of (open_db (Some 24) true 4 (lit "users") 0 demo_writer)). exists s1.
  assert (Ho : open_db (Some 24) true 4 (lit "users") 0 demo_writer = Ok (tt, s1)) by (vm_compute; reflexivity).
  destruct (open_db_registers (Some 24) true 4 6 None 0
    demo_meta
    (<[lit "meta_meta" := []]> (<[lit "dbs:test" := le32 0]> ∅)) (lit "users") 0 demo_writer tt s1
    (dbs_wfb_wf demo_writer ltac:(vm_compute; reflexivity))
    ltac:(vm_compute; reflexivity) ltac:(done) ltac:(vm_compute; reflexivity)
    ltac:(vm_compute; reflexivity) ltac:(vm_compute; reflexivity) ltac:(vm_compute; reflexivity)
    ltac:(vm_compute; reflexivity) ltac:(vm_compute; lia) Ho) as (Hop & (m1 & H1 & H2 & H3) & _).
  exists m1. split; [exact Ho|]. split; [exact Hop|]. split; [exact H1|]. split; [exact H2|exact H3].
Defined.

(** Two more databases, and a cursor on the first of the three stored ones. *)
Definition demo_reopen : SM (St Ref.Env) nat :=
  '(_, p) ← begin_txn (Some 24) (lit "a") TRASH_WR_TXN;
  open_db (Some 24) true p (lit "b") 0;;
  open_db (Some 24) true p (lit "a") 0;;
  return_txn p;;
  '(_, p) ← begin_txn (Some 24) METADATA TRASH_WR_TXN;
  c ← create_cursor (Some 24) (Some p);
  cursor_get c (lit "dbs:") MDB_SET_RANGE;;
  mret c.

Definition demo_cursor : St Ref.Env := state_of (demo_reopen demo_state).

Lemma load_dbs_reopens_witness :
  ∃ s1 new, load_dbs 5 true 5 8 [] (fresh_block 4) MDB_NEXT demo_cursor = Ok (tt, s1) ∧
    odbs s1 = odbs demo_cursor ++ new ∧
    Forall2 made_from [(lit "dbs:b", le32 0); (lit "dbs:test", le32 0)] new.
Proof.
  set (s1 := state_of (load_dbs 5 true 5 8 [] (fresh_block 4) MDB_NEXT demo_cursor)). exists s1.
  assert (Hl : load_dbs 5 true 5 8 [] (fresh_block 4) MDB_NEXT demo_cursor = Ok (tt, s1)) by (vm_compute; reflexivity).
  destruct (load_dbs_reopens (H0 := Ref_laws) 5 true 5 8 [] (fresh_block 4) (MkTrashTxn 7 TRASH_WR_TXN (Some 0%nat))
    [(lit "dbs:b", le32 0); (lit "dbs:test", le32 0); (lit "meta_meta", [])]
    (MkLL [0; 1; 2; 3]%nat 4) demo_cursor tt s1
    ltac:(vm_compute; reflexivity) ltac:(repeat constructor; vm_compute; lia)
    ltac:(repeat constructor; exists 0; vm_compute; repeat split; congruence)
    ltac:(vm_compute; lia) ltac:(reflexivity) ltac:(vm_compute; reflexivity)
    ltac:(vm_compute; reflexivity) Hl) as (new & H1 & H2 & _).
  exists new. split; [exact Hl|]. split; [exact H1|exact H2].
Defined.
