(* ===== verification/Buffy.v ===== *)
(** * Client buffers (src/buffy.c, include/buffy.h)

    The receive buffer and its refill from the kernel, the send buffer and its
    flush, and the read callback that cuts the stream into messages.  What the
    kernel answers to [recv] and [send] is a list of results.  The file uses
    fields ([sendBuff], [msg], [partialMsg], [remainingMsg]) that its struct does
    not declare; the model has the fields the functions use.  [add_bytes_to_message]
    and [msg_len_valid] are declared or used but defined nowhere: arguments. *)

From S2P Require Import Prelude.

Definition RECV_BUFFY_SIZE : Z := 4096.
Definition SEND_BUFFY_SIZE : Z := 4096.
Definition TRASH_MSG_LEN : Z := 4.

(** One answer of the kernel: an error, interrupted or not, or a count of bytes. *)
Inductive answer (A : Type) : Type :=
| Interrupted
| Failed
| Done (a : A).
Arguments Interrupted {A}.
Arguments Failed {A}.
Arguments Done {A} a.

(** ** The receive buffer *)

(** [recvBuff] with its read and write positions. *)
Record RecvBuff : Type := MkRecvBuff { rbuff : block; recvBuffPtr : Z; recvBuffLen : Z }.

(** Lines 315-324: rewind an empty buffer, or move the unread bytes to the front. *)
Definition compact (b : RecvBuff) : res RecvBuff :=
  let b := if recvBuffLen b <=? recvBuffPtr b then MkRecvBuff (rbuff b) 0 0 else b in
  if 0 <? recvBuffPtr b then
    let untouched := u32 (recvBuffLen b - recvBuffPtr b) in
    d ← copy_block (rbuff b) 0 (rbuff b) (recvBuffPtr b) untouched;
    Ok (MkRecvBuff d 0 (u32 (recvBuffLen b - untouched)))
  else Ok b.

(** The loop around [recv], lines 326-338; the kernel stores at most as many bytes
    as it is offered.  No answer left is a call that blocks. *)
Fixpoint recv_loop (rs : list (answer bytes)) (buffLen : Z) (b : RecvBuff) : res (Z * RecvBuff) :=
  match rs with
  | [] => NoFuel
  | Interrupted :: rs => recv_loop rs buffLen b
  | Failed :: _ => Ok (TRASH_ERROR, b)
  | Done bs :: _ =>
      let bs := take (Z.to_nat (u32 (buffLen - recvBuffLen b))) bs in
      if decide (bs = []) then Ok (TRASH_EOF, b)
      else
        d ← write_bytes (rbuff b) 0 bs;
        Ok (TRASH_SUCCESS, MkRecvBuff d (recvBuffPtr b) (u32 (recvBuffLen b + Z.of_nat (length bs))))
  end.

Definition get_bytes_from_kernel (rs : list (answer bytes)) (buffLen : Z) (b : RecvBuff)
  : res (Z * RecvBuff) :=
  b ← compact b; recv_loop rs buffLen b.

(** [get_bytes_from_buff]: the bytes copied out, their count in a [uint16_t]. *)
Definition get_bytes_from_buff (b : RecvBuff) (strg : block) (strgLen : Z) : res (block * RecvBuff) :=
  let amnt := u16 (recvBuffLen b - recvBuffPtr b) in
  let amnt := if strgLen <? amnt then u16 strgLen else amnt in
  strg ← copy_block strg 0 (rbuff b) (recvBuffPtr b) amnt;
  Ok (strg, MkRecvBuff (rbuff b) (u32 (recvBuffPtr b + amnt)) (recvBuffLen b)).

(** ** The send buffer *)

Record SendBuff : Type := MkSendBuff {
  sendBuff : block;
  sendBuffLen : Z;
  startPtr : Z;
  endPtr : Z }.

(** [resize_send_buff]: a failed [realloc] stores NULL, which is [None]. *)
Definition resize_send_buff (alloc : bool) (b : block) (len needed : Z) : option block * Z :=
  if len <? needed then (if alloc then Some (realloc_block b needed) else None, needed)
  else (Some b, len).

(** [put_bytes_on_buff]; after a resize the caller keeps its pointer to the block
    that [realloc] may have freed: the new block is returned apart. *)
Definition put_bytes_on_buff (alloc : bool) (s : SendBuff) (from : bytes) : res SendBuff :=
  let fromBuffLen := Z.of_nat (length from) in
  let sendBuffSpace := u64 (sendBuffLen s - endPtr s) in
  let '(b, len) :=
    if sendBuffSpace <? fromBuffLen
    then resize_send_buff alloc (sendBuff s) (sendBuffLen s) (u64 (fromBuffLen - sendBuffSpace))
    else (Some (sendBuff s), sendBuffLen s) in
  match b with
  | None => UB
  | Some b =>
      b ← write_bytes b (endPtr s) from;
      Ok (MkSendBuff b len (startPtr s) (u64 (endPtr s + fromBuffLen)))
  end.

(** The bytes that [send] is offered: from the start of the block, whatever
    [startPtr] is. *)
Definition offered (s : SendBuff) : block := take (Z.to_nat (endPtr s - startPtr s)) (sendBuff s).

(** The loop of [flush_data], lines 374-391; [sent] collects what the kernel took:
    [Done n] is a call that took [n] of the bytes offered. *)
Fixpoint flush_loop (rs : list (answer Z)) (s : SendBuff) (len : Z) (sent : block)
  : res (Z * SendBuff * block) :=
  if endPtr s <=? startPtr s then Ok (TRASH_SUCCESS, MkSendBuff (sendBuff s) (sendBuffLen s) 0 0, sent)
  else
    match rs with
    | [] => NoFuel
    | Interrupted :: rs => flush_loop rs s len sent
    | Failed :: _ => Ok (TRASH_ERROR, s, sent)
    | Done n :: rs =>
        let n := Z.min n (Z.of_nat (length (offered s))) in
        if n <=? 0 then Ok (TRASH_EOF, s, sent)
        else
          let len := len + n in
          flush_loop rs (MkSendBuff (sendBuff s) (sendBuffLen s) (u64 (startPtr s + len)) (endPtr s)) len
            (sent ++ take (Z.to_nat n) (offered s))
    end.

Definition flush_data (rs : list (answer Z)) (s : SendBuff) : res (Z * SendBuff * block) :=
  flush_loop rs s 0 [].

(** [buffer_write_cb] after the flush, lines 300-306. *)
Definition shrink_send_buff (alloc : bool) (s : SendBuff) : option SendBuff :=
  if negb (sendBuffLen s =? SEND_BUFFY_SIZE) then
    if alloc then Some (MkSendBuff (realloc_block (sendBuff s) SEND_BUFFY_SIZE) SEND_BUFFY_SIZE 0 0)
    else None
  else Some s.

(** ** Cutting the stream into messages *)

Section ReadCallback.
Context (msg_len_valid : Z → bool).

Record Reader : Type := MkReader {
  recv : RecvBuff;
  partialMsg : bool;
  remainingMsg : Z;
  msg : block }.

(** What the callback ends with. *)
Inductive read_result : Type :=
| RClosed
| RBlocked
| RDispatched.

Definition ntohl (b : block) : res Z :=
  b0 ← read_byte b 0; b1 ← read_byte b 1; b2 ← read_byte b 2; b3 ← read_byte b 3;
  Ok (2 ^ 24 * b0 + 2 ^ 16 * b1 + 2 ^ 8 * b2 + b3).

Definition BYTES_RECV (b : RecvBuff) : Z := u32 (recvBuffLen b - recvBuffPtr b).

(** [stdio]'s end of file, which the callback compares the code with. *)
Definition EOF : Z := -1.

(** Lines 204-225: [inr] when the round goes back to [get_more_data] or returns,
    [inl] when it goes on, with [availBytes], which is [None] until it is set. *)
Definition read_more (rs : list (answer bytes)) (b : RecvBuff) (avail : option Z)
  : res (RecvBuff * (option Z + option read_result)) :=
  if 0 <? u64 (RECV_BUFFY_SIZE - recvBuffLen b) then
    '(rc, b) ← get_bytes_from_kernel rs RECV_BUFFY_SIZE b;
    if rc =? EOF then Ok (b, inr (Some RClosed))
    else if (rc =? TRASH_ERROR)%Z then Ok (b, inr (Some RBlocked))
    else
      let availBytes := BYTES_RECV b in
      Ok (b, if availBytes <=? 0 then inr None else inl (Some availBytes))
  else Ok (b, inl avail).

(** [buffer_read_cb]: one round of the code after [get_more_data] per list of
    answers. *)
Fixpoint buffer_read_cb (rss : list (list (answer bytes))) (r : Reader) (avail : option Z)
  : res (read_result * Reader) :=
  match rss with
  | [] => NoFuel
  | rs :: rss =>
      '(b, next) ← read_more rs (recv r) avail;
      let r := MkReader b (partialMsg r) (remainingMsg r) (msg r) in
      match next with
      | inr (Some rc) => Ok (rc, r)
      | inr None => buffer_read_cb rss r (Some 0)
      | inl None => UB
      | inl (Some availBytes) =>
          if partialMsg r then
            let availBytes := if remainingMsg r <? availBytes then remainingMsg r else availBytes in
            let remaining := u32 (remainingMsg r - availBytes) in
            m ← copy_block (fresh_block availBytes) 0 (rbuff b) (recvBuffPtr b) availBytes;
            if 0 <? remaining
            then buffer_read_cb rss (MkReader b true remaining (msg r ++ m)) (Some availBytes)
            else Ok (RDispatched, MkReader b false remaining (msg r ++ m))
          else if availBytes <? TRASH_MSG_LEN then buffer_read_cb rss r (Some availBytes)
          else
            '(lenBuff, b) ← get_bytes_from_buff b (fresh_block 4) 4;
            len ← ntohl lenBuff;
            let len := u32 (len - 4) in
            if negb (msg_len_valid len) then Ok (RClosed, MkReader b false (remainingMsg r) (msg r))
            else
              let availBytes := if len <? availBytes then len else availBytes in
              let remaining := u32 (len - availBytes) in
              if 0 <? remaining then
                m ← copy_block (fresh_block availBytes) 0 (rbuff b) (recvBuffPtr b) availBytes;
                buffer_read_cb rss (MkReader b true remaining (msg r ++ m)) (Some availBytes)
              else Ok (RDispatched, MkReader b false remaining (msg r))
      end
  end.
End ReadCallback.

(** ** The refill *)

Definition recv_wf (b : RecvBuff) : Prop :=
  0 ≤ recvBuffPtr b ∧ 0 ≤ recvBuffLen b ≤ RECV_BUFFY_SIZE ∧
  Z.of_nat (length (rbuff b)) = RECV_BUFFY_SIZE.

(** The bytes received and not read yet. *)
Definition unread (b : RecvBuff) : block := slice (rbuff b) (recvBuffPtr b) (recvBuffLen b).

Lemma length_copy_block dst doff src soff n d :
  copy_block dst doff src soff n = Ok d → length d = length dst.
Proof.
  unfold copy_block. intros E. case_bool; [|done]. bool_to_prop. injection E as <-.
  rewrite !length_app, !length_take, !length_drop. lia.
Qed.

(** Where [compact] leaves the positions: an empty buffer is rewound; otherwise the
    unread bytes move to the front and the write position becomes the old read
    position, instead of their count. *)
Lemma compact_spec b :
  recv_wf b → ∃ b', compact b = Ok b' ∧ recv_wf b' ∧ recvBuffPtr b' = 0 ∧
    recvBuffLen b' = (if recvBuffLen b <=? recvBuffPtr b then 0
                      else if recvBuffPtr b =? 0 then recvBuffLen b else recvBuffPtr b).
Proof.
  intros (Hp & Hl & Hb). unfold RECV_BUFFY_SIZE in *. unfold compact.
  destruct (Z.leb_spec (recvBuffLen b) (recvBuffPtr b)).
  { eexists. split; [done|]. unfold recv_wf, RECV_BUFFY_SIZE. cbn. lia. }
  destruct (Z.ltb_spec 0 (recvBuffPtr b)).
  - rewrite (u32_small (recvBuffLen b - recvBuffPtr b)) by lia. destruct (copy_block _ _ _ _ _) as [d| | |] eqn:Ed.
    2-4: unfold copy_block in Ed; rewrite !(proj2 (Z.leb_le _ _)) in Ed by lia; done.
    apply length_copy_block in Ed. cbn [mbind res_bind]. eexists. split; [done|].
    unfold recv_wf, RECV_BUFFY_SIZE. cbn. rewrite u32_small, Ed by lia.
    rewrite (proj2 (Z.eqb_neq _ _)) by lia. lia.
  - assert (recvBuffPtr b = 0) by lia. eexists. split; [done|].
    unfold recv_wf, RECV_BUFFY_SIZE. rewrite (proj2 (Z.eqb_eq _ _)) by lia. lia.
Qed.

(** [recv] retries while it is interrupted. *)
Lemma recv_interrupted n rs buffLen b :
  recv_loop (replicate n Interrupted ++ rs) buffLen b = recv_loop rs buffLen b.
Proof. induction n; [done|]. done. Qed.

(** A refill always stores the received bytes at the front of the block.  On an
    empty buffer the unread bytes are then exactly the received ones; with [p]
    unread bytes consumed and others left, they are the received bytes followed
    by [p] stale cells, so what was unread is overwritten. *)
Theorem recv_stores_at_front b bs n :
  recv_wf b → bs ≠ [] →
  let e := if recvBuffLen b <=? recvBuffPtr b then 0
           else if recvBuffPtr b =? 0 then recvBuffLen b else recvBuffPtr b in
  Z.of_nat (length bs) ≤ RECV_BUFFY_SIZE - e →
  ∃ b', get_bytes_from_kernel (replicate n Interrupted ++ [Done bs]) RECV_BUFFY_SIZE b
      = Ok (TRASH_SUCCESS, b') ∧ recv_wf b' ∧
    recvBuffPtr b' = 0 ∧ recvBuffLen b' = e + Z.of_nat (length bs) ∧
    take (length bs) (unread b') = Some <$> bs.
Proof.
  intros Hwf Hne e Hfit. destruct (compact_spec b Hwf) as (b1 & E1 & (Hp1 & Hl1 & Hb1) & Hp & Hl).
  fold e in Hl. unfold get_bytes_from_kernel. rewrite E1. cbn [mbind res_bind].
  rewrite recv_interrupted. cbn [recv_loop]. unfold RECV_BUFFY_SIZE in *. rewrite Hl in *.
  rewrite u32_small by lia. rewrite take_ge by lia. rewrite decide_False by done.
  pose proof (write_bytes_Ok (rbuff b1) 0 bs ltac:(lia) ltac:(lia)) as Ew. rewrite Ew.
  pose proof (length_write_bytes _ _ _ _ Ew) as Hlen. cbn [mbind res_bind].
  eexists. split; [done|]. rewrite u32_small by lia. unfold recv_wf, RECV_BUFFY_SIZE, unread.
  cbn [rbuff recvBuffPtr recvBuffLen] in *. rewrite Hp. split_and!; try lia.
  pose proof (slice_write _ _ _ _ 0 Ew ltac:(lia)) as Hs. unfold slice in Hs |- *.
  rewrite !Z.sub_0_r, take_take in *. change (Z.to_nat 0) with 0%nat in *. rewrite !drop_0 in *.
  rewrite Z.add_0_l, Nat2Z.id, take_0 in Hs. rewrite Nat.min_l by lia. exact Hs.
Qed.

(** The bytes that the refill leaves in front of what it receives. *)
Definition left_over (b : RecvBuff) : Z :=
  if recvBuffLen b <=? recvBuffPtr b then 0 else if recvBuffPtr b =? 0 then recvBuffLen b else recvBuffPtr b.

(** C40.  End of file is not recognised: [recv] answers 0, [get_bytes_from_kernel]
    returns -2 and the callback tests for -1.  When the refill leaves no bytes in
    the buffer, or no message is under way and it leaves fewer than the four of a
    length, the callback asks the kernel again for ever.  (With more it goes on
    with those bytes.) *)
Theorem eof_spins valid n r avail :
  recv_wf (recv r) → recvBuffLen (recv r) < RECV_BUFFY_SIZE →
  left_over (recv r) = 0 ∨ (partialMsg r = false ∧ left_over (recv r) < TRASH_MSG_LEN) →
  buffer_read_cb valid (replicate n [Done []]) r avail = NoFuel.
Proof.
  revert r avail. induction n as [|n IH]; intros r avail Hwf Hlt Hk; [done|].
  cbn [replicate buffer_read_cb]. unfold read_more. pose proof Hwf as (Hp & Hl & Hb).
  unfold RECV_BUFFY_SIZE in *. rewrite u64_small, (proj2 (Z.ltb_lt _ _)) by lia.
  destruct (compact_spec (recv r) Hwf) as (b1 & E1 & Hwf1 & Hp1 & Hl1). fold (left_over (recv r)) in Hl1.
  assert (Hlo : 0 ≤ left_over (recv r) < 4096) by (unfold left_over; repeat case_match; lia).
  assert (Hk1 : left_over b1 = left_over (recv r)).
  { unfold left_over at 1. rewrite Hp1, Hl1. destruct (Z.leb_spec (left_over (recv r)) 0); [lia|done]. }
  unfold get_bytes_from_kernel. rewrite E1. cbn [mbind res_bind recv_loop].
  rewrite take_nil, decide_True by done. cbn [mbind res_bind].
  change (TRASH_EOF =? EOF) with false. change (TRASH_EOF =? TRASH_ERROR) with false. cbn match.
  unfold BYTES_RECV. rewrite Hp1, Hl1, Z.sub_0_r, u32_small by lia.
  destruct (Z.leb_spec (left_over (recv r)) 0) as [H0|H0]; cbn [mbind res_bind].
  - apply IH; cbn; [done|lia|by rewrite Hk1].
  - destruct Hk as [?|[Hpm H4]]; [lia|]. cbn [partialMsg]. rewrite Hpm, (proj2 (Z.ltb_lt _ _)) by done.
    apply IH; cbn; [done|lia|by rewrite Hk1; right].
Qed.

(** ** The send buffer *)

Definition send_wf (s : SendBuff) : Prop :=
  0 ≤ startPtr s ≤ endPtr s ∧ endPtr s ≤ sendBuffLen s < 2 ^ 63 ∧
  Z.of_nat (length (sendBuff s)) = sendBuffLen s.

(** [put_bytes_on_buff] appends what fits.  What does not fit and lacks no more
    than the length of the block leaves the block as it is and is written past
    its end: the new length is the missing part, not the sum. *)
Theorem put_bytes_appends_or_overflows alloc s from :
  send_wf s → Z.of_nat (length from) < 2 ^ 62 →
  (Z.of_nat (length from) ≤ sendBuffLen s - endPtr s →
   ∃ s', put_bytes_on_buff alloc s from = Ok s' ∧ send_wf s' ∧
     slice (sendBuff s') (startPtr s') (endPtr s')
     = slice (sendBuff s) (startPtr s) (endPtr s) ++ (Some <$> from)) ∧
  (0 < Z.of_nat (length from) - (sendBuffLen s - endPtr s) ≤ sendBuffLen s →
   put_bytes_on_buff alloc s from = UB).
Proof.
  intros (Hs & He & Hb) Hf. unfold put_bytes_on_buff. rewrite u64_small by lia. split; intros Hfit.
  - rewrite (proj2 (Z.ltb_ge _ _)) by lia.
    pose proof (write_bytes_Ok (sendBuff s) (endPtr s) from ltac:(lia) ltac:(lia)) as Ew. rewrite Ew.
    pose proof (length_write_bytes _ _ _ _ Ew) as Hlen. cbn [mbind res_bind].
    eexists. split; [done|]. rewrite u64_small by lia. unfold send_wf.
    cbn [sendBuff sendBuffLen startPtr endPtr]. split_and!; try lia.
    apply (slice_write _ _ _ _ _ Ew). lia.
  - rewrite (proj2 (Z.ltb_lt _ _)) by lia. unfold resize_send_buff. rewrite u64_small by lia.
    rewrite (proj2 (Z.ltb_ge _ _)) by lia. by rewrite write_bytes_UB by lia.
Qed.

(** [flush_data] sends the buffer when the kernel takes it in one call.  When the
    first call takes only [n] bytes, the next one is offered the first bytes
    again: the peer receives them twice and never gets the last ones. *)
Theorem flush_resends s n :
  send_wf s → startPtr s = 0 → 0 < n ≤ endPtr s →
  flush_data [Done n; Done (endPtr s - n)] s
  = Ok (TRASH_SUCCESS, MkSendBuff (sendBuff s) (sendBuffLen s) 0 0,
        take (Z.to_nat n) (sendBuff s) ++ take (Z.to_nat (endPtr s - n)) (sendBuff s)).
Proof.
  intros (Hs & He & Hb) H0 Hn. unfold flush_data. cbn [flush_loop]. rewrite H0.
  rewrite (proj2 (Z.leb_gt (endPtr s) 0)) by lia. unfold offered. rewrite H0, Z.sub_0_r, length_take.
  rewrite Z.min_l by lia. rewrite (proj2 (Z.leb_gt n 0)) by lia.
  rewrite take_take, Nat.min_l by lia. rewrite !Z.add_0_l, u64_small by lia. cbn [app].
  destruct (decide (n = endPtr s)) as [->|Hne].
  { cbn [flush_loop endPtr startPtr]. rewrite Z.leb_refl, Z.sub_diag. cbn. by rewrite take_0, app_nil_r. }
  cbn [flush_loop endPtr startPtr sendBuff sendBuffLen].
  rewrite (proj2 (Z.leb_gt (endPtr s) n)) by lia. unfold offered.
  cbn [endPtr startPtr sendBuff sendBuffLen]. rewrite length_take, Z.min_l by lia.
  rewrite (proj2 (Z.leb_gt (endPtr s - n) 0)) by lia. rewrite take_take, Nat.min_id.
  rewrite u64_small by lia. by rewrite (proj2 (Z.leb_le _ _)) by lia.
Qed.

(** ** Concrete buffers *)

(** Ten bytes received, of which four were read. *)
Definition demo_recv : RecvBuff :=
  MkRecvBuff ((Some <$> seqZ 1 10) ++ replicate 4086 None) 4 10.

Lemma demo_recv_wf : recv_wf demo_recv.
Proof. unfold recv_wf. split_and!; vm_compute; congruence. Qed.

Lemma recv_stores_at_front_witness :
  ∃ b', get_bytes_from_kernel [Interrupted; Done [7; 8; 9]] RECV_BUFFY_SIZE demo_recv
      = Ok (TRASH_SUCCESS, b') ∧ recv_wf b' ∧ recvBuffPtr b' = 0 ∧ recvBuffLen b' = 7 ∧
    take 3 (unread b') = Some <$> [7; 8; 9].
Proof.
  apply (recv_stores_at_front demo_recv [7; 8; 9] 1 demo_recv_wf); [done|]. vm_compute. congruence.
Defined.

Definition demo_client : Reader :=
  MkReader (MkRecvBuff (replicate 4096 None) 0 0) false 0 [].

Lemma eof_spins_witness :
  buffer_read_cb (λ _, true) (replicate 1000 [Done []]) demo_client None = NoFuel.
Proof.
  apply eof_spins; [|reflexivity|by left].
  unfold recv_wf, RECV_BUFFY_SIZE, demo_client. cbn [recv recvBuffPtr recvBuffLen rbuff].
  rewrite length_replicate. lia.
Defined.

Definition demo_send : SendBuff := MkSendBuff [Some 1; Some 2; Some 3; None] 4 0 3.

Lemma demo_send_wf : send_wf demo_send.
Proof. unfold send_wf. cbn. lia. Qed.

Lemma put_bytes_appends_or_overflows_witness :
  (∃ s', put_bytes_on_buff true demo_send [4] = Ok s' ∧ send_wf s' ∧
     slice (sendBuff s') (startPtr s') (endPtr s') = [Some 1; Some 2; Some 3] ++ (Some <$> [4])) ∧
  put_bytes_on_buff true demo_send [4; 5] = UB.
Proof.
  split.
  - apply (proj1 (put_bytes_appends_or_overflows true demo_send [4] demo_send_wf eq_refl)).
    vm_compute. congruence.
  - apply (proj2 (put_bytes_appends_or_overflows true demo_send [4; 5] demo_send_wf eq_refl)).
    split; [reflexivity|vm_compute; congruence].
Defined.

Lemma flush_resends_witness :
  flush_data [Done 1; Done 2] demo_send
  = Ok (TRASH_SUCCESS, MkSendBuff (sendBuff demo_send) 4 0 0, [Some 1] ++ [Some 1; Some 2]).
Proof.
  apply (flush_resends demo_send 1 demo_send_wf eq_refl). split; [reflexivity|vm_compute; congruence].
Defined.
