(* ===== verification/Server.v ===== *)
(** * Listening sockets (src/server.c)

    [create_tcp_sock] over the list of addresses that [getaddrinfo] returned,
    [create_unix_sock], [init_server_sock] and [clean_listening_sockets].  The
    answers of the system calls are functions of their arguments. *)

From S2P Require Import Prelude Utilities Il.

Definition SOCKET_SUFFIX : bytes := lit "/trash.socket".

(** [struct addrinfo] of the result list. *)
Record AddrInfo : Type := MkAddrInfo { ai_family : Z; ai_addr : block }.

(** The system calls, by what they depend on. *)
Record Sys : Type := MkSys {
  sys_socket : Z → Z;
  sys_setsockopt : AddrInfo → Z;
  sys_bind : AddrInfo → Z;
  sys_bind_unix : block → Z → Z;
  sys_chmod : Z;
  sys_listen : Z → Z }.

(** The loop of [create_tcp_sock], lines 139-162: the descriptor, and the address
    that was bound.  An address whose option cannot be set is tried again. *)
Fixpoint tcp_loop (fuel : nat) (sys : Sys) (fd : Z) (server_info : list AddrInfo)
  : res (Z * option AddrInfo) :=
  match fuel with
  | O => NoFuel
  | S fuel =>
      match server_info with
      | [] => Ok (fd, None)
      | ai :: next =>
          let fd := sys_socket sys (ai_family ai) in
          if fd =? -1 then tcp_loop fuel sys fd next
          else if ((ai_family ai =? AF_INET) && negb (sys_setsockopt sys ai =? 0))%bool
          then tcp_loop fuel sys fd (ai :: next)
          else if sys_bind sys ai =? 0 then Ok (fd, Some ai)
          else tcp_loop fuel sys fd next
      end
  end.

(** [create_tcp_sock]: the code, the descriptor and the address; [gai] is what
    [getaddrinfo] returned.  The list is freed before the address is copied:
    [freed] is what the freed memory of an address holds. *)
Definition create_tcp_sock (fuel : nat) (sys : Sys) (gai : option (list AddrInfo))
    (freed : AddrInfo → block) (fd : Z) (taddr : TrashAddr) (sockFam : Z) : res (Z * Z * TrashAddr) :=
  match gai with
  | None => Ok (TRASH_ERROR, fd, taddr)
  | Some l =>
      '(fd, found) ← tcp_loop fuel sys fd l;
      match found with
      | None => Ok (TRASH_ERROR, fd, taddr)
      | Some ai => taddr ← set_ip_trash_addr taddr (freed ai) sockFam; Ok (TRASH_SUCCESS, fd, taddr)
      end
  end.

(** [struct sockaddr_un]: the family and [sun_path]. *)
Definition SOCKADDR_UN : Z := 110.

(** [evutil_snprintf] of the path at [sunIndex] of [sun_path], with the size of the
    whole array: at most 107 bytes and the NUL. *)
Definition unix_addr (sockDir : bytes) (isSockAbstract : bool) : res block :=
  a ← set_family (replicate (Z.to_nat SOCKADDR_UN) (Some 0)) AF_UNIX;
  let sunIndex := if isSockAbstract then 1 else 0 in
  a ← (if isSockAbstract then write_bytes a SUN_PATH_OFF [0] else Ok a);
  write_bytes a (SUN_PATH_OFF + sunIndex) (snprintf SUN_PATH (sockDir ++ SOCKET_SUFFIX) ++ [0]).

(** The length given to [bind], lines 196-198: for an abstract socket, what
    [strlen] finds at [sun_path]. *)
Definition unix_addrlen (a : block) (isSockAbstract : bool) : res Z :=
  if isSockAbstract then
    path ← c_str (drop (Z.to_nat SUN_PATH_OFF) a);
    Ok (SUN_PATH_OFF + Z.of_nat (length path))
  else Ok SOCKADDR_UN.

Definition create_unix_sock (sys : Sys) (fd : Z) (taddr : TrashAddr) (sockDir : bytes)
    (isSockAbstract : bool) : res (Z * Z * TrashAddr) :=
  let fd := sys_socket sys AF_UNIX in
  if fd =? -1 then Ok (TRASH_ERROR, fd, taddr)
  else
    a ← unix_addr sockDir isSockAbstract;
    len ← unix_addrlen a isSockAbstract;
    if negb (sys_bind_unix sys a len =? 0) then Ok (TRASH_ERROR, fd, taddr)
    else
      d ← copy_block (addr taddr) 0 a 0 len;
      let taddr := MkTrashAddr d len in
      if (negb isSockAbstract && (sys_chmod sys =? -1))%bool then Ok (TRASH_ERROR, fd, taddr)
      else Ok (TRASH_SUCCESS, fd, taddr).

(** [struct Listener]; the event is set when the loop starts. *)
Record Listener : Type := MkListener { lfd : Z; active : bool; localaddr : TrashAddr }.

(** [init_server_sock]: the code and the list of listeners.  [AF_INET6] makes no
    socket and listens on descriptor -1. *)
Definition init_server_sock (fuel : nat) (sys : Sys) (alloc : bool) (gai : option (list AddrInfo))
    (freed : AddrInfo → block) (sockFam : Z) (hostName : bytes) (isSockAbstract : bool) (listeners : LL Listener)
  : res (Z * LL Listener) :=
  if negb alloc then Ok (TRASH_ERROR, listeners)
  else
    let zero := MkTrashAddr (replicate (Z.to_nat STORAGE) (Some 0)) 0 in
    '(rc, fd, taddr) ←
      (if sockFam =? AF_UNIX then
         a ← set_family (addr zero) AF_UNIX;
         create_unix_sock sys (-1) (MkTrashAddr a 0) hostName isSockAbstract
       else if sockFam =? AF_INET then
         a ← set_family (addr zero) AF_INET;
         create_tcp_sock fuel sys gai freed (-1) (MkTrashAddr a 0) sockFam
       else if sockFam =? AF_INET6 then Ok (TRASH_SUCCESS, -1, zero)
       else Ok (TRASH_ERROR, -1, zero));
    if negb (rc =? 0) then Ok (TRASH_ERROR, listeners)
    else if negb (sys_listen sys fd =? 0) then Ok (TRASH_ERROR, listeners)
    else Ok (TRASH_SUCCESS, ll_append listeners (MkListener fd false taddr)).

Definition init_server (fuel : nat) (sys : Sys) (alloc : bool) (gai : option (list AddrInfo))
    (freed : AddrInfo → block) (sockFam : Z) (hostname : bytes) (isSockAbstract : bool) (listeners : LL Listener)
  : res (Z * LL Listener) :=
  '(rc, listeners) ← init_server_sock fuel sys alloc gai freed sockFam hostname isSockAbstract listeners;
  Ok (if rc =? 0 then TRASH_SUCCESS else TRASH_ERROR, listeners).

(** [start_accepting_connections]: the listeners whose event was added are active. *)
Definition start_accepting_connections (event_add : Listener → bool) (listeners : LL Listener)
  : LL Listener :=
  MkLL ((λ ls, if event_add ls then MkListener (lfd ls) true (localaddr ls) else ls)
          <$> items listeners) (len listeners).

(** [clean_listening_sockets]: the paths that are unlinked, in order. *)
Fixpoint clean_listening_sockets (fuel : nat) (listeners : LL Listener) : res (list bytes * LL Listener) :=
  match fuel with
  | O => NoFuel
  | S fuel =>
      '(ls, rest) ← ll_pop listeners;
      match ls with
      | None => Ok ([], rest)
      | Some ls =>
          u ← is_unix_socket (localaddr ls);
          paths ← (if u : bool then
                     c ← read_byte (addr (localaddr ls)) SUN_PATH_OFF;
                     if c =? 0 then Ok []
                     else p ← c_str (drop (Z.to_nat SUN_PATH_OFF) (addr (localaddr ls))); Ok [p]
                   else Ok []);
          '(more, rest) ← clean_listening_sockets fuel rest;
          Ok (paths ++ more, rest)
      end
  end.

(** ** Choosing an address *)

(** The tests an address passes, and the one it must not fail to let the loop go on. *)
Definition bindable (sys : Sys) (ai : AddrInfo) : bool :=
  (negb (sys_socket sys (ai_family ai) =? -1)
   && (negb (ai_family ai =? AF_INET) || (sys_setsockopt sys ai =? 0))
   && (sys_bind sys ai =? 0))%bool.

Definition sticks (sys : Sys) (ai : AddrInfo) : bool :=
  (negb (sys_socket sys (ai_family ai) =? -1)
   && (ai_family ai =? AF_INET) && negb (sys_setsockopt sys ai =? 0))%bool.

(** The loop of [create_tcp_sock] binds the first address that has a socket, takes
    the option and can be bound, or none when there is none, as long as no
    address before it refuses the option; such an address is tried for ever. *)
Theorem tcp_loop_first sys fd l1 ai l2 :
  Forall (λ a, bindable sys a = false ∧ sticks sys a = false) l1 →
  (bindable sys ai = true →
   tcp_loop (S (length l1)) sys fd (l1 ++ ai :: l2)
   = Ok (sys_socket sys (ai_family ai), Some ai)) ∧
  (sticks sys ai = true → ∀ fuel, tcp_loop fuel sys fd (l1 ++ ai :: l2) = NoFuel).
Proof.
  intros Hl. revert fd. induction Hl as [|a l1 [Hb Hs] _ IH]; intros fd; cbn [app length].
  - split.
    + intros Hb. cbn [tcp_loop]. unfold bindable in Hb.
      apply andb_true_iff in Hb as [[H1%negb_true_iff H2]%andb_true_iff H3]. rewrite H1, H3.
      destruct (ai_family ai =? AF_INET), (sys_setsockopt sys ai =? 0); done.
    + intros Hs fuel. revert fd. induction fuel as [|fuel IHf]; intros fd; [done|]. cbn [tcp_loop].
      pose proof Hs as Hs'. unfold sticks in Hs'.
      apply andb_true_iff in Hs' as [[H1%negb_true_iff H2]%andb_true_iff H3].
      rewrite H1, H2, H3. cbn [andb]. apply IHf.
  - assert (Hstep : ∀ fuel, tcp_loop (S fuel) sys fd (a :: l1 ++ ai :: l2)
        = tcp_loop fuel sys (sys_socket sys (ai_family a)) (l1 ++ ai :: l2)).
    { intros fuel. cbn [tcp_loop]. unfold bindable, sticks in *.
      destruct (sys_socket sys (ai_family a) =? -1); [done|].
      destruct (ai_family a =? AF_INET), (sys_setsockopt sys a =? 0), (sys_bind sys a =? 0); done. }
    split.
    + intros H. rewrite Hstep. by apply IH.
    + intros H [|fuel]; [done|]. rewrite Hstep. by apply IH.
Qed.

(** The length of an abstract address covers the family only: the name is after
    the NUL that [strlen] stops at. *)
Lemma abstract_addrlen sockDir a :
  unix_addr sockDir true = Ok a → unix_addrlen a true = Ok SUN_PATH_OFF.
Proof.
  unfold unix_addr, set_family. intros E. apply res_bind_Ok in E as (a1 & E1 & E).
  apply res_bind_Ok in E as (a2 & E2 & E).
  assert (Hz : a !! 2%nat = Some (Some 0)).
  { pose proof (length_write_bytes _ _ _ _ E1) as L1. rewrite length_replicate in L1. change (Z.to_nat SOCKADDR_UN) with 110%nat in L1.
    unfold write_bytes in E, E2. case_bool; [|done]. injection E as <-.
    case_bool; [|done]. injection E2 as <-.
    change (Z.to_nat (SUN_PATH_OFF + 1)) with 3%nat. change (Z.to_nat SUN_PATH_OFF) with 2%nat.
    rewrite lookup_app_l by (rewrite length_take, !length_app, length_take, L1; cbn; lia).
    rewrite lookup_take_lt by lia. rewrite lookup_app_r by (rewrite length_take, L1; cbn; lia).
    rewrite length_take, L1. done. }
  unfold unix_addrlen. change (Z.to_nat SUN_PATH_OFF) with 2%nat.
  destruct a as [|c0 [|c1 [|c2 a]]]; try done. injection Hz as ->. done.
Qed.

(** ** Concrete addresses *)

Definition demo_ai (n : Z) : AddrInfo := MkAddrInfo AF_INET [Some n].

(** A system on which the address 1 cannot be bound and 3 refuses the option. *)
Definition demo_sys : Sys :=
  MkSys (λ _, 5) (λ a, if decide (ai_addr a = [Some 3]) then -1 else 0)
    (λ a, if decide (ai_addr a = [Some 1]) then -1 else 0) (λ _ _, 0) 0 (λ _, 0).

Lemma tcp_loop_first_witness :
  tcp_loop 2 demo_sys (-1) [demo_ai 1; demo_ai 2] = Ok (5, Some (demo_ai 2)) ∧
  tcp_loop 1000 demo_sys (-1) [demo_ai 1; demo_ai 3] = NoFuel.
Proof.
  assert (Hl : Forall (λ a, bindable demo_sys a = false ∧ sticks demo_sys a = false) [demo_ai 1])
    by (repeat constructor).
  split.
  - apply (proj1 (tcp_loop_first demo_sys (-1) [demo_ai 1] (demo_ai 2) [] Hl)). reflexivity.
  - apply (proj2 (tcp_loop_first demo_sys (-1) [demo_ai 1] (demo_ai 3) [] Hl)). reflexivity.
Defined.
