(* ===== verification/Midl.v ===== *)
(** * LMDB's ID lists (src/lib/lmdb/midl.c, midl.h)

    The part of the vendored LMDB that is self-contained: arrays of IDs with their
    count in cell 0 and their room in cell -1.  [ids] is the array from cell 0
    on, as a block whose cells are [None] until they are written. *)

From stdpp Require Import sorting.
From S2P Require Import Prelude.

Definition MDB_IDL_LOGN : Z := 16.
Definition MDB_IDL_UM_SIZE : Z := Z.shiftl 1 (MDB_IDL_LOGN + 1).
Definition MDB_IDL_UM_MAX : Z := MDB_IDL_UM_SIZE - 1.
Definition ENOMEM : Z := 12.

(** [room] is [ids[-1]]. *)
Record IDL : Type := MkIDL { room : Z; ids : block }.

Definition rd (b : block) (i : Z) : res Z := read_byte b i.
Definition wr (b : block) (i x : Z) : res block := write_bytes b i [x].

(** ** Searching *)

Definition CMP (x y : Z) : Z := if x <? y then -1 else if y <? x then 1 else 0.

(** The loop of the searches: [f] compares the cell with the ID.  The flag tells the
    [return] inside the loop, on equality, from the one behind it. *)
Fixpoint search_loop (fuel : nat) (f : Z → res Z) (base cursor val n : Z) : res (Z * bool) :=
  match fuel with
  | O => NoFuel
  | S fuel =>
      if 0 <? n then
        let pivot := Z.shiftr n 1 in
        let cursor := u32 (base + pivot + 1) in
        val ← f cursor;
        if val <? 0 then search_loop fuel f base cursor val pivot
        else if 0 <? val then search_loop fuel f cursor cursor val (u32 (n - (pivot + 1)))
        else Ok (cursor, true)
      else Ok (if 0 <? val then u32 (cursor + 1) else cursor, false)
  end.

Definition mdb_midl_search (fuel : nat) (ids : block) (id : Z) : res Z :=
  n ← rd ids 0;
  '(cursor, _) ← search_loop fuel (λ c, x ← rd ids c; Ok (CMP x id)) 0 1 0 (u32 n);
  Ok cursor.

(** ** Room *)

Definition mdb_midl_alloc (alloc : bool) (num : Z) : option IDL :=
  if alloc then Some (MkIDL num (Some 0 :: replicate (Z.to_nat num) None)) else None.

Definition mdb_midl_shrink (alloc : bool) (l : IDL) : IDL :=
  if ((MDB_IDL_UM_MAX <? room l) && alloc)%bool
  then MkIDL MDB_IDL_UM_MAX (realloc_block (ids l) (MDB_IDL_UM_MAX + 1))
  else l.

(** The conversion of an unsigned number to [int]. *)
Definition to_int (z : Z) : Z := if u32 z <? 2 ^ 31 then u32 z else u32 z - 2 ^ 32.

Definition mdb_midl_grow (alloc : bool) (l : IDL) (num : Z) : Z * IDL :=
  if alloc then (0, MkIDL (u64 (room l + num)) (realloc_block (ids l) (u64 (room l + num + 2) - 1)))
  else (ENOMEM, l).

Definition mdb_midl_need (alloc : bool) (l : IDL) (num : Z) : res (Z * IDL) :=
  n0 ← rd (ids l) 0;
  let num := u32 (num + n0) in
  if room l <? num then
    let num := Z.land (u32 (num + num / 4 + (256 + 2))) (u32 (-256)) in
    if alloc then Ok (0, MkIDL (u32 (num - 2)) (realloc_block (ids l) (num - 1)))
    else Ok (ENOMEM, l)
  else Ok (0, l).

(** ** Appending *)

Definition mdb_midl_append (alloc : bool) (l : IDL) (id : Z) : res (Z * IDL) :=
  n ← rd (ids l) 0;
  let '(rc, l) := if room l <=? n then mdb_midl_grow alloc l MDB_IDL_UM_MAX else (0, l) in
  if negb (rc =? 0) then Ok (ENOMEM, l)
  else
    b ← wr (ids l) 0 (u64 (n + 1));
    b ← wr b (u64 (n + 1)) id;
    Ok (0, MkIDL (room l) b).

(** [mdb_midl_xappend] *)
Definition mdb_midl_xappend (b : block) (id : Z) : res block :=
  n ← rd b 0;
  b ← wr b 0 (u64 (n + 1));
  wr b (u64 (n + 1)) id.

Definition mdb_midl_append_list (alloc : bool) (l : IDL) (app : block) : res (Z * IDL) :=
  n ← rd (ids l) 0;
  m ← rd app 0;
  let '(rc, l) := if room l <=? u64 (n + m) then mdb_midl_grow alloc l (to_int m) else (0, l) in
  if negb (rc =? 0) then Ok (ENOMEM, l)
  else
    b ← copy_block (ids l) (n + 1) app 1 m;
    b ← wr b 0 (u64 (n + m));
    Ok (0, MkIDL (room l) b).

(** [while (n) ids[n--] = id++], with [ids] moved by [len]. *)
Fixpoint append_range_loop (n : nat) (b : block) (len id : Z) : res block :=
  match n with
  | O => Ok b
  | S n' => b ← wr b (len + Z.of_nat n) id; append_range_loop n' b len (u64 (id + 1))
  end.

Definition mdb_midl_append_range (alloc : bool) (l : IDL) (id n : Z) : res (Z * IDL) :=
  len ← rd (ids l) 0;
  let '(rc, l) :=
    if room l <? u64 (len + n) then mdb_midl_grow alloc l (to_int (Z.lor n MDB_IDL_UM_MAX)) else (0, l) in
  if negb (rc =? 0) then Ok (ENOMEM, l)
  else
    b ← wr (ids l) 0 (u64 (len + n));
    b ← append_range_loop (Z.to_nat n) b len id;
    Ok (0, MkIDL (room l) b).

(** ** Merging *)

(** [for (; old_id < merge_id; old_id = idl[--j]) idl[k--] = old_id;] *)
Fixpoint xmerge_shift (fuel : nat) (idl : block) (j k old_id merge_id : Z) : res (block * Z * Z * Z) :=
  match fuel with
  | O => NoFuel
  | S fuel =>
      if old_id <? merge_id then
        idl ← wr idl k old_id;
        old_id ← rd idl (j - 1);
        xmerge_shift fuel idl (j - 1) (k - 1) old_id merge_id
      else Ok (idl, j, k, old_id)
  end.

(** The loop over [merge], from its cell [i] down. *)
Fixpoint xmerge_loop (fuel : nat) (i : nat) (idl merge : block) (j k old_id : Z) : res block :=
  match i with
  | O => Ok idl
  | S i' =>
      merge_id ← rd merge (Z.of_nat i);
      '(idl, j, k, old_id) ← xmerge_shift fuel idl j k old_id merge_id;
      idl ← wr idl k merge_id;
      xmerge_loop fuel i' idl merge j (k - 1) old_id
  end.

Definition mdb_midl_xmerge (fuel : nat) (idl merge : block) : res block :=
  i ← rd merge 0;
  j ← rd idl 0;
  let k := u64 (i + j) in
  idl ← wr idl 0 (u64 (-1));
  old_id ← rd idl j;
  idl ← xmerge_loop fuel (Z.to_nat i) idl merge j k old_id;
  wr idl 0 k.

(** ** Sorting *)

Definition SMALL : Z := 8.

(** [MIDL_SWAP] of two cells. *)
Definition swap (b : block) (i j : Z) : res block :=
  x ← rd b i; y ← rd b j; b ← wr b i y; wr b j x.

Definition swap_if_less (b : block) (i j : Z) : res block :=
  x ← rd b i; y ← rd b j; if x <? y then swap b i j else Ok b.

(** Lines 235-239: [a] moves down from [i + 1] to its place. *)
Fixpoint insert_down (i : nat) (b : block) (a : Z) : res block :=
  match i with
  | O => wr b 1 a
  | S i' =>
      x ← rd b (Z.of_nat i);
      if a <=? x then wr b (Z.of_nat i + 1) a
      else b ← wr b (Z.of_nat i + 1) x; insert_down i' b a
  end.

(** Lines 233-240 for the [n] cells from [j] on. *)
Fixpoint insertion_sort (n : nat) (j : Z) (b : block) : res block :=
  match n with
  | O => Ok b
  | S n =>
      a ← rd b j;
      b ← insert_down (Z.to_nat (j - 1)) b a;
      insertion_sort n (j + 1) b
  end.

(** [do i++; while(ids[i] > a)] and [do j--; while(ids[j] < a)]. *)
Fixpoint scan_up (fuel : nat) (b : block) (i a : Z) : res Z :=
  match fuel with
  | O => NoFuel
  | S fuel => x ← rd b (i + 1); if a <? x then scan_up fuel b (i + 1) a else Ok (i + 1)
  end.

Fixpoint scan_down (fuel : nat) (b : block) (j a : Z) : res Z :=
  match fuel with
  | O => NoFuel
  | S fuel => x ← rd b (j - 1); if x <? a then scan_down fuel b (j - 1) a else Ok (j - 1)
  end.

(** Lines 259-264. *)
Fixpoint partition_loop (fuel : nat) (b : block) (i j a : Z) : res (block * Z * Z) :=
  match fuel with
  | O => NoFuel
  | S fuel' =>
      i ← scan_up fuel b i a;
      j ← scan_down fuel b j a;
      if j <? i then Ok (b, i, j)
      else b ← swap b i j; partition_loop fuel' b i j a
  end.

(** Lines 245-266: the median of three, the partition and the pivot in its place. *)
Definition partition (fuel : nat) (b : block) (l ir : Z) : res (block * Z * Z) :=
  if 2 ^ 31 <=? l + ir then UB else
  b ← swap b (Z.shiftr (l + ir) 1) (l + 1);
  b ← swap_if_less b l ir;
  b ← swap_if_less b (l + 1) ir;
  b ← swap_if_less b l (l + 1);
  a ← rd b (l + 1);
  '(b, i, j) ← partition_loop fuel b (l + 1) ir a;
  x ← rd b j;
  b ← wr b (l + 1) x;
  b ← wr b j a;
  Ok (b, i, j).

(** The loop of [mdb_midl_sort]; [istack] holds pairs, 64 cells in all. *)
Fixpoint sort_loop (fuel : nat) (b : block) (l ir : Z) (istack : list (Z * Z)) : res block :=
  match fuel with
  | O => NoFuel
  | S fuel' =>
      if ir - l <? SMALL then
        b ← insertion_sort (Z.to_nat (ir - l)) (l + 1) b;
        match istack with
        | [] => Ok b
        | (l, ir) :: istack => sort_loop fuel' b l ir istack
        end
      else
        '(b, i, j) ← partition fuel b l ir;
        if decide (31 ≤ length istack)%nat then UB
        else if j - l <=? ir - i + 1 then sort_loop fuel' b l (j - 1) ((i, ir) :: istack)
        else sort_loop fuel' b i ir ((l, j - 1) :: istack)
  end.

Definition mdb_midl_sort (fuel : nat) (b : block) : res block :=
  n ← rd b 0; sort_loop fuel b 1 (to_int n) [].

(** ** Lists of pairs *)

(** [MDB_ID2]; the array is a list of cells, [None] until written. *)
Record ID2 : Type := MkID2 { mid : Z; mptr : Z }.

Definition rd2 (l : list (option ID2)) (i : Z) : res ID2 :=
  if 0 <=? i then match l !! Z.to_nat i with Some (Some x) => Ok x | _ => UB end else UB.

Definition wr2 (l : list (option ID2)) (i : Z) (x : ID2) : res (list (option ID2)) :=
  if ((0 <=? i) && (i <? Z.of_nat (length l)))%bool then Ok (<[Z.to_nat i := Some x]> l) else UB.

Definition mdb_mid2l_search (fuel : nat) (l : list (option ID2)) (id : Z) : res Z :=
  n ← rd2 l 0;
  '(cursor, _) ← search_loop fuel (λ c, x ← rd2 l c; Ok (CMP id (mid x))) 0 1 0 (u32 (mid n));
  Ok cursor.

(** [for (i = n; i > x; i--) ids[i] = ids[i-1]] for the [k] cells above [x]. *)
Fixpoint shift_up (k : nat) (x : Z) (l : list (option ID2)) : res (list (option ID2)) :=
  match k with
  | O => Ok l
  | S k' => y ← rd2 l (x + Z.of_nat k - 1); l ← wr2 l (x + Z.of_nat k) y; shift_up k' x l
  end.

Definition mdb_mid2l_insert (fuel : nat) (l : list (option ID2)) (id : ID2) : res (Z * list (option ID2)) :=
  x ← mdb_mid2l_search fuel l (mid id);
  if x <? 1 then Ok (-2, l)
  else
    n ← rd2 l 0;
    dup ← (if x <=? mid n then y ← rd2 l x; Ok (mid y =? mid id) else Ok false);
    if dup : bool then Ok (-1, l)
    else if MDB_IDL_UM_MAX <=? mid n then Ok (-2, l)
    else
      l ← wr2 l 0 (MkID2 (u64 (mid n + 1)) (mptr n));
      l ← shift_up (Z.to_nat (mid n + 1 - x)) x l;
      l ← wr2 l x id;
      Ok (0, l).

Definition mdb_mid2l_append (l : list (option ID2)) (id : ID2) : res (Z * list (option ID2)) :=
  n ← rd2 l 0;
  if MDB_IDL_UM_MAX <=? mid n then Ok (-2, l)
  else
    l ← wr2 l 0 (MkID2 (u64 (mid n + 1)) (mptr n));
    l ← wr2 l (u64 (mid n + 1)) id;
    Ok (0, l).

(** ** The searches are right *)

(** The comparison changes sign once, from positive to negative, over the cells
    [1..n]. *)
Definition changes_once (g : Z → Z) (n : Z) : Prop :=
  ∀ c c', 1 ≤ c < c' → c' ≤ n → g c ≤ 0 → g c' < 0.

Lemma search_loop_step fuel f base cursor val n :
  search_loop (S fuel) f base cursor val n =
  if 0 <? n then
    let pivot := Z.shiftr n 1 in
    let cursor := u32 (base + pivot + 1) in
    val ← f cursor;
    if val <? 0 then search_loop fuel f base cursor val pivot
    else if 0 <? val then search_loop fuel f cursor cursor val (u32 (n - (pivot + 1)))
    else Ok (cursor, true)
  else Ok (if 0 <? val then u32 (cursor + 1) else cursor, false).
Proof. done. Qed.

Lemma search_loop_spec fuel f g n0 base cursor val n :
  (∀ c, 1 ≤ c ≤ n0 → f c = Ok (g c)) → changes_once g n0 → n0 < 2 ^ 32 - 1 →
  0 ≤ base → 0 ≤ n → base + n ≤ n0 → n < 2 ^ Z.of_nat fuel →
  (∀ c, 1 ≤ c ≤ base → 0 < g c) → (∀ c, base + n < c ≤ n0 → g c < 0) →
  (0 < val → cursor = base) → (val < 0 → cursor = base + n + 1) →
  (val = 0 → cursor = base + 1) →
  ∃ r eq, search_loop (S fuel) f base cursor val n = Ok (r, eq) ∧ 1 ≤ r ≤ n0 + 1 ∧
    (∀ c, 1 ≤ c < r → 0 < g c) ∧ (∀ c, r ≤ c ≤ n0 → g c ≤ 0) ∧
    (if eq then r ≤ n0 ∧ g r = 0 else ∀ c, r ≤ c ≤ n0 → g c < 0).
Proof.
  intros Hf Hg Hn0. revert base cursor val n.
  induction fuel as [|fuel IH]; intros base cursor val n Hb Hn Hbn Hfu Hlo Hhi Hp Hm Hz.
  { assert (n = 0) by (cbn in Hfu; lia). subst n. cbn. exists (base + 1), false.
    split; [|split_and!; [lia|lia| | |]]; [|intros c Hc; apply Hlo; lia|
      intros c Hc; specialize (Hhi c); lia|intros c Hc; apply Hhi; lia].
    destruct (Z.ltb_spec 0 val); [rewrite Hp, u32_small by lia; done|].
    do 2 f_equal. destruct (Z.eq_dec val 0); [by apply Hz|rewrite Hm; lia]. }
  rewrite search_loop_step. cbv zeta. destruct (Z.ltb_spec 0 n).
  2:{ assert (n = 0) by lia. subst n. exists (base + 1), false.
      split; [|split_and!; [lia|lia| | |]]; [|intros c Hc; apply Hlo; lia|
        intros c Hc; specialize (Hhi c); lia|intros c Hc; apply Hhi; lia].
      destruct (Z.ltb_spec 0 val); [rewrite Hp, u32_small by lia; done|].
      do 2 f_equal. destruct (Z.eq_dec val 0); [by apply Hz|rewrite Hm; lia]. }
  rewrite Z.shiftr_div_pow2 by lia. change (2 ^ 1) with 2.
  assert (Hd : 0 ≤ n / 2 ∧ 2 * (n / 2) ≤ n < 2 * (n / 2) + 2).
  { pose proof (Z.div_mod n 2). pose proof (Z.mod_pos_bound n 2). lia. }
  set (p := n / 2) in *. rewrite u32_small by lia. rewrite Hf by lia. cbn [mbind res_bind].
  replace (Z.of_nat (S fuel)) with (Z.of_nat fuel + 1) in Hfu by lia.
  rewrite Z.pow_add_r in Hfu by lia. change (2 ^ 1) with 2 in Hfu.
  destruct (Z.ltb_spec (g (base + p + 1)) 0) as [Hneg|Hneg].
  { apply (IH base); try lia; [done|]. intros c Hc.
    destruct (Z.eq_dec c (base + p + 1)) as [->|]; [done|]. apply (Hg (base + p + 1)); lia. }
  destruct (Z.ltb_spec 0 (g (base + p + 1))) as [Hpos|Hpos].
  { rewrite u32_small by lia. apply (IH (base + p + 1)); try lia.
    - intros c Hc. destruct (Z.le_gt_cases c base); [apply Hlo; lia|].
      destruct (Z.le_gt_cases (g c) 0) as [Hle|]; [|done].
      destruct (Z.eq_dec c (base + p + 1)) as [->|]; [lia|].
      specialize (Hg c (base + p + 1)). lia.
    - intros c Hc. apply Hhi. lia. }
  exists (base + p + 1), true. split_and!; [done|lia|lia| | |lia|lia].
  - intros c Hc. destruct (Z.le_gt_cases (g c) 0) as [Hle|]; [|done].
    specialize (Hg c (base + p + 1)). lia.
  - intros c Hc. destruct (Z.eq_dec c (base + p + 1)) as [->|]; [lia|].
    specialize (Hg (base + p + 1) c). lia.
Qed.

Lemma StronglySorted_lookup {A} (R : relation A) l i j x y :
  StronglySorted R l → l !! i = Some x → l !! j = Some y → (i < j)%nat → R x y.
Proof.
  intros Hs Hi Hj Hij. apply list_elem_of_split_length in Hi as (l1 & l2 & -> & Hl).
  apply StronglySorted_app_1_r, StronglySorted_cons in Hs as [Hx _].
  rewrite lookup_app_r, lookup_cons_ne_0 in Hj by lia.
  rewrite Forall_lookup in Hx. by eapply Hx.
Qed.

Lemma StronglySorted_weaken {A} (R R' : relation A) l :
  (∀ x y, R x y → R' x y) → StronglySorted R l → StronglySorted R' l.
Proof.
  intros HR. induction 1; constructor; [done|]. eapply Forall_impl; eauto.
Qed.

(** The search of a list of keys [ks], of which [h] gives the sign. *)
Lemma search_list_spec {A} fuel (f : Z → res Z) (h : A → Z) (ks : list A) :
  (33 ≤ fuel)%nat →
  (∀ i k, ks !! i = Some k → f (Z.of_nat (S i)) = Ok (h k)) →
  StronglySorted (λ a b, h a ≤ 0 → h b < 0) ks → Z.of_nat (length ks) < 2 ^ 32 - 1 →
  ∃ r eq, search_loop fuel f 0 1 0 (Z.of_nat (length ks)) = Ok (Z.of_nat (S r), eq) ∧
    (r ≤ length ks)%nat ∧ Forall (λ k, 0 < h k) (take r ks) ∧ Forall (λ k, h k ≤ 0) (drop r ks) ∧
    (if eq then ∃ k, ks !! r = Some k ∧ h k = 0 else Forall (λ k, h k < 0) (drop r ks)).
Proof.
  intros Hfuel Hf Hs Hl. destruct fuel as [|fuel]; [lia|].
  assert (Hpow : 2 ^ 32 ≤ 2 ^ Z.of_nat fuel) by (apply Z.pow_le_mono_r; lia).
  set (g := λ c : Z, match ks !! Z.to_nat (c - 1) with Some k => h k | None => 0 end).
  assert (Hg : ∀ i k, ks !! i = Some k → g (Z.of_nat (S i)) = h k).
  { intros i k Hi. unfold g. replace (Z.to_nat (Z.of_nat (S i) - 1)) with i by lia. by rewrite Hi. }
  assert (Hlk : ∀ c, 1 ≤ c ≤ Z.of_nat (length ks) → ∃ i k, c = Z.of_nat (S i) ∧ ks !! i = Some k).
  { intros c Hc. destruct (lookup_lt_is_Some_2 ks (Z.to_nat (c - 1))) as [k Hk]; [lia|].
    exists (Z.to_nat (c - 1)), k. split; [lia|done]. }
  destruct (search_loop_spec fuel f g (Z.of_nat (length ks)) 0 1 0 (Z.of_nat (length ks)))
    as (r & eq & E & Hr & Hlo & Hhi & Heq); try lia.
  - intros c Hc. destruct (Hlk c Hc) as (i & k & -> & Hi). by rewrite (Hf i k Hi), (Hg i k Hi).
  - intros c c' Hc Hc' Hle. destruct (Hlk c) as (i & k & -> & Hi); [lia|].
    destruct (Hlk c') as (i' & k' & -> & Hi'); [lia|].
    rewrite (Hg i k Hi) in Hle. rewrite (Hg i' k' Hi').
    apply (StronglySorted_lookup _ ks i i' k k' Hs Hi Hi'); [lia|done].
  - exists (Z.to_nat (r - 1)), eq. split; [rewrite E; do 2 f_equal; lia|]. split; [lia|]. split; [|split].
    + apply Forall_lookup. intros i k Hi. apply lookup_take_Some in Hi as [Hi Hlt].
      rewrite <-(Hg i k Hi). apply Hlo. lia.
    + apply Forall_lookup. intros i k Hi. rewrite lookup_drop in Hi.
      pose proof (lookup_lt_Some _ _ _ Hi). rewrite <-(Hg _ k Hi). apply Hhi. lia.
    + destruct eq.
      * destruct Heq as [Hrn Hr0]. destruct (Hlk r) as (i & k & -> & Hi); [lia|].
        exists k. rewrite (Hg i k Hi) in Hr0. replace (Z.to_nat (Z.of_nat (S i) - 1)) with i by lia. done.
      * apply Forall_lookup. intros i k Hi. rewrite lookup_drop in Hi.
        pose proof (lookup_lt_Some _ _ _ Hi). rewrite <-(Hg _ k Hi). apply Heq. lia.
Qed.

(** An ID list in memory. *)
Definition midl_cells (xs : list Z) (junk : block) : block :=
  Some (Z.of_nat (length xs)) :: (Some <$> xs) ++ junk.

Lemma midl_cells_rd xs junk i x :
  xs !! i = Some x → rd (midl_cells xs junk) (Z.of_nat (S i)) = Ok x.
Proof.
  intros Hi. apply read_byte_lookup. unfold midl_cells.
  change (((Some <$> xs) ++ junk) !! i = Some (Some x)).
  rewrite lookup_app_l by (rewrite length_fmap; by eapply lookup_lt_Some).
  by rewrite list_lookup_fmap, Hi.
Qed.

Lemma CMP_cases x y : CMP x y = -1 ∧ x < y ∨ CMP x y = 0 ∧ x = y ∨ CMP x y = 1 ∧ y < x.
Proof. unfold CMP. destruct (Z.ltb_spec x y), (Z.ltb_spec y x); lia. Qed.

(** A list in which only the IDs that are not sought may be there more than once. *)
Lemma midl_search_once fuel xs junk id :
  (33 ≤ fuel)%nat →
  StronglySorted (λ a b, a ≤ id → b < id) xs → Z.of_nat (length xs) < 2 ^ 32 - 1 →
  ∃ r, mdb_midl_search fuel (midl_cells xs junk) id = Ok (Z.of_nat (S r)) ∧
    Forall (λ x, id < x) (take r xs) ∧ Forall (λ x, x ≤ id) (drop r xs) ∧
    (id ∈ xs → xs !! r = Some id).
Proof.
  intros Hfuel Hs Hl.
  destruct (search_list_spec fuel (λ c, x ← rd (midl_cells xs junk) c; Ok (CMP x id)) (λ x, CMP x id) xs Hfuel)
    as (r & eq & E & Hr & Hlo & Hhi & _).
  - intros i x Hi. by rewrite (midl_cells_rd xs junk i x Hi).
  - eapply StronglySorted_weaken; [|exact Hs]. cbn. intros a b Hab.
    destruct (CMP_cases a id), (CMP_cases b id); lia.
  - done.
  - exists r. unfold mdb_midl_search.
    change (rd (midl_cells xs junk) 0) with (Ok (Z.of_nat (length xs))). cbn [mbind res_bind].
    rewrite u32_small by lia. rewrite E. split; [done|].
    assert (Hlo' : Forall (λ x, id < x) (take r xs)).
    { eapply Forall_impl; [exact Hlo|]. cbn. intros x Hx. destruct (CMP_cases x id); lia. }
    assert (Hhi' : Forall (λ x, x ≤ id) (drop r xs)).
    { eapply Forall_impl; [exact Hhi|]. cbn. intros x Hx. destruct (CMP_cases x id); lia. }
    split; [done|split; [done|]]. intros Hin.
    apply list_elem_of_lookup in Hin as [i Hi].
    destruct (decide (i < r)%nat) as [Hlt|Hge].
    { rewrite Forall_lookup in Hlo'. specialize (Hlo' i id). rewrite lookup_take_lt in Hlo' by done.
      specialize (Hlo' Hi). lia. }
    destruct (decide (i = r)) as [->|Hne]; [done|].
    destruct (lookup_lt_is_Some_2 xs r) as [x Hx]; [pose proof (lookup_lt_Some _ _ _ Hi); lia|].
    pose proof (StronglySorted_lookup _ xs r i x id Hs Hx Hi ltac:(lia)) as Hlt.
    rewrite Forall_lookup in Hhi'. specialize (Hhi' 0%nat x). rewrite lookup_drop, Nat.add_0_r in Hhi'.
    specialize (Hhi' Hx). cbn in Hlt. specialize (Hlt Hhi'). lia.
Qed.

Lemma midl_search_spec fuel xs junk id :
  (33 ≤ fuel)%nat →
  StronglySorted (λ a b, b < a) xs → Z.of_nat (length xs) < 2 ^ 32 - 1 →
  ∃ r, mdb_midl_search fuel (midl_cells xs junk) id = Ok (Z.of_nat (S r)) ∧
    Forall (λ x, id < x) (take r xs) ∧ Forall (λ x, x ≤ id) (drop r xs) ∧
    (id ∈ xs → xs !! r = Some id).
Proof.
  intros Hfuel Hs. apply midl_search_once; [done|]. eapply StronglySorted_weaken; [|exact Hs]. cbn. lia.
Qed.

(** C30.  [mdb_midl_search] on a strictly descending list of less than 2^32 - 1 IDs
    ends within 33 rounds, at the first position whose ID is not greater than
    the one sought: that ID's position when it is in the list.  midl.h:84 documents
    the first ID greater than or equal to it, which is another one when the ID is
    not in the list: then the ID that is found is smaller. *)
Theorem midl_search_finds fuel xs junk id :
  (33 ≤ fuel)%nat →
  StronglySorted (λ a b, b < a) xs → Z.of_nat (length xs) < 2 ^ 32 - 1 →
  ∃ r, mdb_midl_search fuel (midl_cells xs junk) id = Ok (Z.of_nat (S r)) ∧
    Forall (λ x, id < x) (take r xs) ∧ Forall (λ x, x ≤ id) (drop r xs) ∧
    (id ∈ xs → xs !! r = Some id).
Proof. apply midl_search_spec. Qed.

Lemma midl_search_finds_witness :
  mdb_midl_search 33 (midl_cells [9; 7; 4] []) 4 = Ok 3 ∧
  ∃ r, mdb_midl_search 33 (midl_cells [9; 7; 4] []) 5 = Ok (Z.of_nat (S r)) ∧
    Forall (λ x, 5 < x) (take r [9; 7; 4]) ∧ Forall (λ x, x ≤ 5) (drop r [9; 7; 4]) ∧
    (5 ∈ [9; 7; 4] → [9; 7; 4] !! r = Some 5).
Proof.
  split; [reflexivity|].
  apply (midl_search_finds 33); [lia|repeat constructor; lia|cbn; lia].
Defined.

(** ** Cells *)

Lemma rd_app l1 x l2 i : i = Z.of_nat (length l1) → rd (l1 ++ Some x :: l2) i = Ok x.
Proof.
  intros ->. apply read_byte_lookup. by rewrite lookup_app_r, Nat.sub_diag by lia.
Qed.

Lemma wr_app l1 c l2 i x :
  i = Z.of_nat (length l1) → wr (l1 ++ c :: l2) i x = Ok (l1 ++ Some x :: l2).
Proof.
  intros ->. unfold wr. rewrite write_byte_insert by (rewrite length_app; cbn; lia).
  by rewrite insert_app_r_alt, Nat.sub_diag by lia.
Qed.

(** ** The merge *)

Abbreviation descending := (StronglySorted Z.ge).

(** The cell of [idl] that the scan reads next: the last of [xs], or the
    delimiter. *)
Definition last_cell (xs : list Z) : Z := default (u64 (-1)) (last xs).

Lemma last_cell_snoc xs x : last_cell (xs ++ [x]) = x.
Proof. unfold last_cell. by rewrite last_snoc. Qed.

Definition merge_cells (xs : list Z) (gap : block) (done_ : list Z) (rest : block) : block :=
  (Some <$> u64 (-1) :: xs) ++ gap ++ (Some <$> done_) ++ rest.

Lemma rd_last_cell xs gap d rest :
  rd (merge_cells xs gap d rest) (Z.of_nat (length xs)) = Ok (last_cell xs).
Proof.
  unfold merge_cells, last_cell. destruct xs as [|x xs _] using rev_ind; [done|].
  rewrite last_snoc, app_comm_cons, fmap_app, <-(assoc_L (++)). cbn [fmap list_fmap app].
  apply (rd_app (Some (u64 (-1)) :: (Some <$> xs))). rewrite length_app. cbn.
  rewrite length_fmap. lia.
Qed.

Lemma xmerge_shift_spec fuel xs gap d rest y :
  (length xs < fuel)%nat → gap ≠ [] → 0 ≤ y < 2 ^ 64 →
  ∃ xs1 xs2 gap', xs = xs1 ++ xs2 ∧ length gap' = length gap ∧
    Forall (λ x, x < y) xs2 ∧ y ≤ last_cell xs1 ∧
    xmerge_shift fuel (merge_cells xs gap d rest) (Z.of_nat (length xs))
      (Z.of_nat (length xs + length gap)) (last_cell xs) y
    = Ok (merge_cells xs1 gap' (xs2 ++ d) rest, Z.of_nat (length xs1),
          Z.of_nat (length xs1 + length gap), last_cell xs1).
Proof.
  revert fuel gap d. induction xs as [|x xs IH] using rev_ind; intros fuel gap d Hfu Hgap Hy.
  { destruct fuel as [|fuel]; [lia|]. exists [], [], gap. split_and!; [done|done|done| |].
    - change (last_cell []) with (2 ^ 64 - 1). lia.
    - cbn [xmerge_shift]. change (last_cell []) with (2 ^ 64 - 1).
      by rewrite (proj2 (Z.ltb_ge _ _)) by lia. }
  destruct fuel as [|fuel]; [lia|]. rewrite length_app in *. cbn in Hfu.
  cbn [xmerge_shift]. rewrite last_cell_snoc.
  destruct (Z.ltb_spec x y).
  2:{ exists (xs ++ [x]), [], gap. split_and!; [by rewrite app_nil_r|done|done| |].
      - by rewrite last_cell_snoc.
      - by rewrite length_app, last_cell_snoc. }
  destruct gap as [|c gap _] using rev_ind; [done|].
  destruct (IH fuel (Some x :: gap) (x :: d)) as (xs1 & xs2 & gap' & -> & Hg & Hlt & Hle & E);
    [lia|done|done|].
  exists xs1, (xs2 ++ [x]), gap'. split_and!.
  - by rewrite (assoc_L (++)).
  - rewrite Hg, length_app. cbn. lia.
  - apply Forall_app. split; [done|]. by constructor.
  - done.
  - assert (Hw : wr (merge_cells ((xs1 ++ xs2) ++ [x]) (gap ++ [c]) d rest)
        (Z.of_nat (length (xs1 ++ xs2) + length [x] + length (gap ++ [c]))) x
      = Ok (merge_cells (xs1 ++ xs2) (Some x :: gap) (x :: d) rest)).
    { unfold merge_cells.
      replace ((Some <$> u64 (-1) :: (xs1 ++ xs2) ++ [x]) ++ (gap ++ [c]) ++ (Some <$> d) ++ rest)
        with (((Some <$> u64 (-1) :: (xs1 ++ xs2) ++ [x]) ++ gap) ++ c :: ((Some <$> d) ++ rest))
        by (by rewrite <-!(assoc_L (++))).
      rewrite wr_app by (rewrite !length_app, length_fmap; cbn; rewrite !length_app; cbn; lia).
      f_equal. rewrite app_comm_cons, fmap_app. by rewrite <-!(assoc_L (++)). }
    rewrite Hw. cbn [mbind res_bind].
    replace (Z.of_nat (length (xs1 ++ xs2) + length [x]) - 1) with (Z.of_nat (length (xs1 ++ xs2)))
      by (cbn; lia).
    rewrite rd_last_cell. cbn [mbind res_bind].
    replace (Z.of_nat (length (xs1 ++ xs2) + length [x] + length (gap ++ [c])) - 1)
      with (Z.of_nat (length (xs1 ++ xs2) + length (Some x :: gap)))
      by (rewrite !length_app; cbn; lia).
    rewrite E, <-(assoc_L (++)).
    replace (length (gap ++ [c])) with (length (Some x :: gap)) by (rewrite length_app; cbn; lia).
    done.
Qed.

Lemma descending_mid xs y zs :
  (∀ x, last xs = Some x → y ≤ x) → Forall (λ z, z ≤ y) zs →
  descending (xs ++ zs) → descending (xs ++ y :: zs).
Proof.
  intros Hl Hz Hs. apply StronglySorted_app in Hs as (Hc & Hxs & Hzs).
  apply StronglySorted_app. split_and!; [|done|].
  - intros x z Hx [->|Hz']%elem_of_cons; [|by apply Hc].
    destruct xs as [|x' xs _] using rev_ind; [by apply not_elem_of_nil in Hx|].
    specialize (Hl x'). rewrite last_snoc in Hl. specialize (Hl eq_refl).
    apply elem_of_app in Hx as [Hx|Hx%list_elem_of_singleton]; [|lia].
    apply (StronglySorted_app_1_elem_of _ _ _ x x') in Hxs; [lia|done|set_solver].
  - constructor; [done|]. eapply Forall_impl; [exact Hz|]. cbn. lia.
Qed.

Lemma xmerge_loop_spec fuel mg xs ys gap d rest :
  length gap = length ys → (length xs < fuel)%nat →
  (∀ i y, ys !! i = Some y → rd mg (Z.of_nat (S i)) = Ok y) →
  Forall (λ y, 0 ≤ y < 2 ^ 64) ys → descending (xs ++ d) → descending (ys ++ d) →
  ∃ zs, descending zs ∧ zs ≡ₚ xs ++ ys ++ d ∧
    xmerge_loop fuel (length ys) (merge_cells xs gap d rest) mg
      (Z.of_nat (length xs)) (Z.of_nat (length xs + length gap)) (last_cell xs)
    = Ok (merge_cells zs [] [] rest).
Proof.
  revert xs gap d. induction ys as [|y ys IH] using rev_ind; intros xs gap d Hgap Hfu Hmg Hys Hd Hyd.
  { destruct gap; [|done]. exists (xs ++ d). split_and!; [done|done|]. cbn [xmerge_loop length].
    unfold merge_cells. cbn [app fmap list_fmap]. by rewrite fmap_app, <-(assoc_L (++)). }
  apply Forall_app in Hys as [Hys Hy].
  rewrite Forall_singleton in Hy.
  destruct (xmerge_shift_spec fuel xs gap d rest y) as (xs1 & xs2 & gap' & -> & Hg & Hlt & Hle & E);
    [done|intros ->; rewrite length_app in Hgap; cbn in Hgap; lia|exact Hy|].
  rewrite length_app in Hgap. cbn in Hgap. rewrite Hgap in Hg.
  destruct gap' as [|c gap' _] using rev_ind; [cbn in Hg; lia|]. rewrite length_app in Hg. cbn in Hg.
  assert (Hyd' := proj1 (StronglySorted_app _ _ _) Hyd). destruct Hyd' as (Hyd1 & Hys' & _).
  assert (Hyx : Forall (λ z, z ≤ y) (xs2 ++ d)).
  { apply Forall_app. split; [eapply Forall_impl; [exact Hlt|]; cbn; lia|].
    apply Forall_forall. intros z Hz. assert (y >= z) by (apply Hyd1; set_solver). lia. }
  destruct (IH xs1 gap' (y :: xs2 ++ d)) as (zs & Hzs & Hp & E').
  - lia.
  - rewrite length_app in Hfu. lia.
  - intros i z Hi. apply Hmg. by apply lookup_app_l_Some.
  - done.
  - rewrite <-(assoc_L (++)) in Hd. apply descending_mid; [|done|done].
    intros x Hx. unfold last_cell in Hle. by rewrite Hx in Hle.
  - rewrite <-(assoc_L (++)) in Hd.
    assert (Hs := proj1 (StronglySorted_app _ _ _) Hd). destruct Hs as (_ & _ & Hs).
    apply StronglySorted_app. apply StronglySorted_app in Hys' as (Hys1 & Hys2 & _).
    split_and!; [|done|].
    + intros a z Ha [->|Hz]%elem_of_cons; [by apply Hys1; set_solver|].
      assert (a >= y) by (apply Hys1; set_solver).
      rewrite Forall_forall in Hyx. specialize (Hyx z Hz). lia.
    + constructor; [exact Hs|]. eapply Forall_impl; [exact Hyx|]. cbn. lia.
  - exists zs. split_and!; [done| |].
    + rewrite Hp, <-!(assoc_L (++)). f_equiv. change (y :: xs2 ++ d) with ([y] ++ xs2 ++ d).
      rewrite !(assoc_L (++)). f_equiv. rewrite <-(assoc_L (++) xs2). apply Permutation_app_comm.
    + rewrite length_app, Nat.add_1_r. cbn [xmerge_loop].
      rewrite (Hmg (length ys) y) by (by rewrite lookup_app_r, Nat.sub_diag by lia).
      cbn [mbind res_bind].
      rewrite E. cbn [mbind res_bind].
      assert (Hw : wr (merge_cells xs1 (gap' ++ [c]) (xs2 ++ d) rest)
          (Z.of_nat (length xs1 + length gap)) y
        = Ok (merge_cells xs1 gap' (y :: xs2 ++ d) rest)).
      { unfold merge_cells.
        replace ((Some <$> u64 (-1) :: xs1) ++ (gap' ++ [c]) ++ (Some <$> xs2 ++ d) ++ rest)
          with (((Some <$> u64 (-1) :: xs1) ++ gap') ++ c :: ((Some <$> xs2 ++ d) ++ rest))
          by (by rewrite <-!(assoc_L (++))).
        rewrite wr_app by (rewrite length_app, length_fmap; cbn; lia).
        by rewrite <-!(assoc_L (++)). }
      rewrite Hw. cbn [mbind res_bind].
      replace (Z.of_nat (length xs1 + length gap) - 1) with (Z.of_nat (length xs1 + length gap')) by lia.
      exact E'.
Qed.

Lemma xmerge_spec fuel xs ys gap rest junk :
  length gap = length ys → (length xs < fuel)%nat →
  Z.of_nat (length xs + length ys) < 2 ^ 64 →
  Forall (λ y, 0 ≤ y < 2 ^ 64) ys → descending xs → descending ys →
  ∃ zs, descending zs ∧ zs ≡ₚ xs ++ ys ∧
    mdb_midl_xmerge fuel (midl_cells xs (gap ++ rest)) (midl_cells ys junk) = Ok (midl_cells zs rest).
Proof.
  intros Hgap Hfu Hlen Hys Hdx Hdy.
  destruct (xmerge_loop_spec fuel (midl_cells ys junk) xs ys gap [] rest)
    as (zs & Hzs & Hp & E); rewrite ?app_nil_r; try done.
  { intros i y Hi. by apply midl_cells_rd. }
  exists zs. rewrite app_nil_r in Hp. split_and!; [done|done|].
  unfold mdb_midl_xmerge.
  change (rd (midl_cells ys junk) 0) with (Ok (Z.of_nat (length ys))).
  change (rd (midl_cells xs (gap ++ rest)) 0) with (Ok (Z.of_nat (length xs))).
  cbn [mbind res_bind].
  assert (Hw : wr (midl_cells xs (gap ++ rest)) 0 (u64 (-1)) = Ok (merge_cells xs gap [] rest)).
  { exact (wr_app [] _ _ 0 _ eq_refl). }
  rewrite Hw. cbn [mbind res_bind]. rewrite rd_last_cell. cbn [mbind res_bind].
  rewrite u64_small, Nat2Z.id by lia.
  replace (Z.of_nat (length ys) + Z.of_nat (length xs)) with (Z.of_nat (length xs + length gap)) by lia.
  rewrite E. cbn [mbind res_bind].
  replace (length xs + length gap)%nat with (length zs)
    by (apply Permutation_length in Hp; rewrite length_app in Hp; lia).
  exact (wr_app [] _ _ 0 _ eq_refl).
Qed.

(** [mdb_midl_xmerge] of two descending lists, the first with room for the
    second behind its IDs, leaves in the first the descending list of all IDs;
    the scan never leaves the block. *)
Theorem xmerge_merges fuel xs ys gap rest junk :
  length gap = length ys → (length xs < fuel)%nat →
  Z.of_nat (length xs + length ys) < 2 ^ 64 →
  Forall (λ y, 0 ≤ y < 2 ^ 64) ys → descending xs → descending ys →
  ∃ zs, descending zs ∧ zs ≡ₚ xs ++ ys ∧
    mdb_midl_xmerge fuel (midl_cells xs (gap ++ rest)) (midl_cells ys junk) = Ok (midl_cells zs rest).
Proof. apply xmerge_spec. Qed.

Lemma xmerge_merges_witness :
  mdb_midl_xmerge 4 (midl_cells [9; 5; 2] [None; None; None]) (midl_cells [7; 5] [])
  = Ok (midl_cells [9; 7; 5; 5; 2] [None]) ∧
  ∃ zs, descending zs ∧ zs ≡ₚ [9; 5; 2] ++ [7; 5] ∧
    mdb_midl_xmerge 4 (midl_cells [9; 5; 2] ([None; None] ++ [None])) (midl_cells [7; 5] [])
    = Ok (midl_cells zs [None]).
Proof.
  split; [reflexivity|].
  apply xmerge_merges; [reflexivity|cbn; lia|cbn; lia|repeat constructor; lia..].
Defined.

(** ** Lists of pairs *)

Definition mid2l_cells (p : Z) (l : list ID2) (junk : list (option ID2)) : list (option ID2) :=
  Some (MkID2 (Z.of_nat (length l)) p) :: (Some <$> l) ++ junk.

Lemma rd2_app l1 x l2 i : i = Z.of_nat (length l1) → rd2 (l1 ++ Some x :: l2) i = Ok x.
Proof.
  intros ->. unfold rd2. rewrite (proj2 (Z.leb_le _ _)), Nat2Z.id by lia.
  by rewrite lookup_app_r, Nat.sub_diag by lia.
Qed.

Lemma wr2_app l1 c l2 i x :
  i = Z.of_nat (length l1) → wr2 (l1 ++ c :: l2) i x = Ok (l1 ++ Some x :: l2).
Proof.
  intros ->. unfold wr2.
  rewrite (proj2 (Z.leb_le _ _)), (proj2 (Z.ltb_lt _ _)) by (rewrite ?length_app; cbn; lia).
  cbn [andb]. by rewrite Nat2Z.id, insert_app_r_alt, Nat.sub_diag by lia.
Qed.

Lemma mid2l_cells_rd p l junk i y :
  l !! i = Some y → rd2 (mid2l_cells p l junk) (Z.of_nat (S i)) = Ok y.
Proof.
  intros Hi. apply list_elem_of_split_length in Hi as (l1 & l2 & -> & Hl).
  unfold mid2l_cells. rewrite fmap_app, fmap_cons, <-(assoc_L (++)), app_comm_cons, <-app_comm_cons.
  rewrite app_comm_cons. apply rd2_app. cbn. rewrite length_fmap. lia.
Qed.

Lemma shift_up_spec l1 post c l2 :
  ∃ c', shift_up (length post) (Z.of_nat (length l1)) (l1 ++ (Some <$> post) ++ c :: l2)
    = Ok (l1 ++ c' :: (Some <$> post) ++ l2).
Proof.
  revert c l2. induction post as [|y post IH] using rev_ind; intros c l2; [by exists c|].
  rewrite length_app, Nat.add_1_r, fmap_app, <-(assoc_L (++)). cbn [shift_up fmap list_fmap app].
  rewrite (assoc_L (++)), rd2_app by (rewrite length_app, length_fmap; lia).
  cbn [mbind res_bind].
  replace ((l1 ++ (Some <$> post)) ++ Some y :: c :: l2)
    with ((l1 ++ (Some <$> post) ++ [Some y]) ++ c :: l2) by (by rewrite <-!(assoc_L (++))).
  rewrite wr2_app by (rewrite !length_app, length_fmap; cbn; lia). cbn [mbind res_bind].
  destruct (IH (Some y) (Some y :: l2)) as [c' E]. exists c'.
  rewrite <-!(assoc_L (++)). cbn [app]. by rewrite E.
Qed.

Lemma mid2l_search_spec fuel p l junk id :
  (33 ≤ fuel)%nat →
  StronglySorted (λ a b, mid a < mid b) l → Z.of_nat (length l) < 2 ^ 32 - 1 →
  ∃ pre post, l = pre ++ post ∧
    mdb_mid2l_search fuel (mid2l_cells p l junk) id = Ok (Z.of_nat (S (length pre))) ∧
    Forall (λ y, mid y < id) pre ∧ Forall (λ y, id ≤ mid y) post.
Proof.
  intros Hfuel Hs Hl.
  destruct (search_list_spec fuel (λ c, x ← rd2 (mid2l_cells p l junk) c; Ok (CMP id (mid x)))
    (λ x, CMP id (mid x)) l Hfuel) as (r & eq & E & Hr & Hlo & Hhi & _).
  - intros i y Hi. by rewrite (mid2l_cells_rd p l junk i y Hi).
  - eapply StronglySorted_weaken; [|exact Hs]. cbn. intros a b Hab.
    destruct (CMP_cases id (mid a)), (CMP_cases id (mid b)); lia.
  - done.
  - exists (take r l), (drop r l). split_and!.
    + by rewrite take_drop.
    + unfold mdb_mid2l_search.
      change (rd2 (mid2l_cells p l junk) 0) with (Ok (MkID2 (Z.of_nat (length l)) p)).
      cbn [mbind res_bind mid].
      rewrite u32_small by lia. rewrite E. by rewrite length_take_le by done.
    + eapply Forall_impl; [exact Hlo|]. cbn. intros y Hy. destruct (CMP_cases id (mid y)); lia.
    + eapply Forall_impl; [exact Hhi|]. cbn. intros y Hy. destruct (CMP_cases id (mid y)); lia.
Qed.

Lemma filter_all {A} (P : A → Prop) `{∀ x, Decision (P x)} l : Forall P l → filter P l = l.
Proof. induction 1; [done|]. rewrite filter_cons_True by done. by f_equal. Qed.

Lemma filter_none {A} (P : A → Prop) `{∀ x, Decision (P x)} l : Forall (λ x, not (P x)) l → filter P l = [].
Proof. induction 1; [done|]. by rewrite filter_cons_False. Qed.

Lemma filter_around pre post id :
  Forall (λ y, mid y < id) pre → Forall (λ y, id < mid y) post →
  filter (λ y, mid y < id) (pre ++ post) = pre ∧ filter (λ y, id < mid y) (pre ++ post) = post.
Proof.
  intros Hpre Hpost. rewrite !filter_app.
  rewrite (filter_all (λ y, mid y < id) pre), (filter_none (λ y, mid y < id) post),
    (filter_none (λ y, id < mid y) pre), (filter_all (λ y, id < mid y) post), app_nil_r; try done.
  - eapply Forall_impl; [exact Hpre|]. cbn. lia.
  - eapply Forall_impl; [exact Hpost|]. cbn. lia.
Qed.

(** The insertion once its place is known and free. *)
Lemma mid2l_insert_place p pre post c junk id :
  let l := pre ++ post in
  Z.of_nat (length l) < MDB_IDL_UM_MAX →
  (l1 ← wr2 (mid2l_cells p l (c :: junk)) 0 (MkID2 (u64 (Z.of_nat (length l) + 1)) p);
   l1 ← shift_up (Z.to_nat (Z.of_nat (length l) + 1 - Z.of_nat (S (length pre))))
          (Z.of_nat (S (length pre))) l1;
   l1 ← wr2 l1 (Z.of_nat (S (length pre))) id;
   Ok (0, l1))
  = Ok (0, mid2l_cells p (pre ++ id :: post) junk).
Proof.
  intros l Hl. subst l. change MDB_IDL_UM_MAX with 131071 in Hl. unfold mid2l_cells.
  rewrite (wr2_app [] _ _ 0 _ eq_refl : wr2 (_ :: _) 0 _ = Ok (_ :: _)).
  cbn [mbind res_bind app]. rewrite u64_small by lia.
  replace (Z.to_nat (Z.of_nat (length (pre ++ post)) + 1 - Z.of_nat (S (length pre))))
    with (length post) by (rewrite length_app; lia).
  set (h := MkID2 (Z.of_nat (length (pre ++ post)) + 1) p).
  destruct (shift_up_spec (Some h :: (Some <$> pre)) post c junk) as [c' E].
  replace (Z.of_nat (length (Some h :: (Some <$> pre)))) with (Z.of_nat (S (length pre))) in E
    by (cbn; by rewrite length_fmap).
  rewrite fmap_app, <-(assoc_L (++)). cbn [app] in E. rewrite E. cbn [mbind res_bind].
  rewrite app_comm_cons, wr2_app by (cbn; rewrite length_fmap; lia). cbn [mbind res_bind app].
  rewrite fmap_app, fmap_cons, <-(assoc_L (++)). cbn [app]. unfold h. do 5 f_equal.
  rewrite !length_app. cbn. lia.
Qed.

(** [mdb_mid2l_insert] on an ascending list refuses an ID that is present
    (-1) and a list of the greatest length (-2), and otherwise leaves the
    list with the pair between the smaller and the greater IDs. *)
Theorem mid2l_insert_sorted fuel p l c junk id :
  (33 ≤ fuel)%nat →
  StronglySorted (λ a b, mid a < mid b) l → Z.of_nat (length l) ≤ MDB_IDL_UM_MAX →
  mdb_mid2l_insert fuel (mid2l_cells p l (c :: junk)) id
  = Ok (if decide (mid id ∈ mid <$> l) then (-1, mid2l_cells p l (c :: junk))
        else if MDB_IDL_UM_MAX <=? Z.of_nat (length l) then (-2, mid2l_cells p l (c :: junk))
        else (0, mid2l_cells p (filter (λ y, mid y < mid id) l ++ id ::
                                filter (λ y, mid id < mid y) l) junk)).
Proof.
  intros Hfuel Hs Hl. assert (Hmax : MDB_IDL_UM_MAX = 131071) by done.
  destruct (mid2l_search_spec fuel p l (c :: junk) (mid id) Hfuel Hs) as (pre & post & -> & E & Hpre & Hpost);
    [lia|].
  unfold mdb_mid2l_insert. rewrite E. cbn [mbind res_bind].
  rewrite (proj2 (Z.ltb_ge _ 1)) by lia.
  change (rd2 (mid2l_cells p (pre ++ post) (c :: junk)) 0)
    with (Ok (MkID2 (Z.of_nat (length (pre ++ post))) p)). cbn [mbind res_bind mid].
  destruct post as [|y post].
  - rewrite app_nil_r in *. rewrite (proj2 (Z.leb_gt (Z.of_nat (S _)) _)) by lia. cbn [mbind res_bind mptr].
    rewrite decide_False.
    2:{ intros (z & Hz & Hin)%list_elem_of_fmap. rewrite Forall_forall in Hpre.
        specialize (Hpre z Hin). lia. }
    destruct (Z.leb_spec MDB_IDL_UM_MAX (Z.of_nat (length pre))); [done|].
    pose proof (mid2l_insert_place p pre [] c junk id) as Hp. cbv zeta in Hp.
    rewrite app_nil_r in Hp. rewrite Hp by done.
    destruct (filter_around pre [] (mid id)) as [F1 F2]; [done|done|].
    rewrite app_nil_r in F1, F2. by rewrite F1, F2.
  - rewrite (proj2 (Z.leb_le (Z.of_nat (S _)) _)) by (rewrite length_app; cbn; lia).
    rewrite (mid2l_cells_rd _ _ _ _ y) by (by rewrite lookup_app_r, Nat.sub_diag by lia).
    cbn [mbind res_bind mptr]. destruct (Z.eqb_spec (mid y) (mid id)) as [Heq|Hne].
    { rewrite decide_True; [done|]. apply list_elem_of_fmap. exists y. split; [done|set_solver]. }
    apply StronglySorted_app_1_r, StronglySorted_cons in Hs as [Hy _].
    assert (Hpost' : Forall (λ z, mid id < mid z) (y :: post)).
    { apply Forall_cons in Hpost as [Hyid _]. constructor; [lia|].
      eapply Forall_impl; [exact Hy|]. cbn. lia. }
    rewrite decide_False.
    2:{ intros (z & Hz & [Hin|Hin]%elem_of_app)%list_elem_of_fmap.
        - rewrite Forall_forall in Hpre. specialize (Hpre z Hin). lia.
        - rewrite Forall_forall in Hpost'. specialize (Hpost' z Hin). lia. }
    destruct (Z.leb_spec MDB_IDL_UM_MAX (Z.of_nat (length (pre ++ y :: post)))); [done|].
    rewrite (mid2l_insert_place p pre (y :: post) c junk id) by done.
    destruct (filter_around pre (y :: post) (mid id) Hpre Hpost') as [F1 F2]. by rewrite F1, F2.
Qed.

Lemma mid2l_insert_sorted_witness :
  let l := [MkID2 2 20; MkID2 5 50] in
  mdb_mid2l_insert 33 (mid2l_cells 0 l [None]) (MkID2 3 30)
  = Ok (if decide (3 ∈ mid <$> l) then (-1, mid2l_cells 0 l [None])
        else if MDB_IDL_UM_MAX <=? 2 then (-2, mid2l_cells 0 l [None])
        else (0, mid2l_cells 0 (filter (λ y, mid y < 3) l ++ MkID2 3 30 ::
                                filter (λ y, 3 < mid y) l) [])).
Proof.
  apply (mid2l_insert_sorted 33 0 [MkID2 2 20; MkID2 5 50] None [] (MkID2 3 30));
    [lia|apply (bool_decide_unpack _); vm_compute; exact I|by vm_compute].
Defined.
