(* ===== verification/MidlSort.v ===== *)
(** * The sort of midl.c is right

    [mdb_midl_sort] of Midl.v: a quicksort whose scans run to a sentinel, with
    an insertion sort below nine cells and a stack of 32 pairs.  The proof follows the
    code: the array only changes by swaps inside the segment being sorted, and the
    cells of different pending segments are already in order. *)

From stdpp Require Import sorting.
From S2P Require Import Prelude.
From S2P Require Import Midl.

(** ** Arrays *)

(** An initialised array in memory, and its cells as numbers. *)
Definition cells (v : list Z) (junk : block) : block := (Some <$> v) ++ junk.
Definition at_ (v : list Z) (i : Z) : Z := v !!! Z.to_nat i.
Definition upd (v : list Z) (i x : Z) : list Z := <[Z.to_nat i := x]> v.

Definition inb (v : list Z) (i : Z) : Prop := 0 ≤ i < Z.of_nat (length v).

Lemma rd_cells v junk i : inb v i → rd (cells v junk) i = Ok (at_ v i).
Proof.
  intros Hi. unfold inb in Hi. rewrite <-(Z2Nat.id i) at 1 by lia. apply read_byte_lookup.
  unfold cells, at_. rewrite lookup_app_l by (rewrite length_fmap; lia).
  rewrite list_lookup_fmap, list_lookup_lookup_total_lt by lia. done.
Qed.

Lemma wr_cells v junk i x : inb v i → wr (cells v junk) i x = Ok (cells (upd v i x) junk).
Proof.
  intros Hi. unfold inb in Hi. unfold wr, cells, upd. rewrite <-(Z2Nat.id i) at 1 by lia.
  rewrite write_byte_insert by (rewrite length_app, length_fmap; lia).
  rewrite insert_app_l by (rewrite length_fmap; lia). by rewrite list_fmap_insert.
Qed.

Lemma length_upd v i x : length (upd v i x) = length v.
Proof. apply length_insert. Qed.

Lemma at_upd v i x j : inb v i → 0 ≤ j → at_ (upd v i x) j = if i =? j then x else at_ v j.
Proof.
  intros Hi Hj. unfold inb, at_, upd in *. destruct (Z.eqb_spec i j) as [->|Hne].
  - apply list_lookup_total_insert_eq. lia.
  - apply list_lookup_total_insert_ne. lia.
Qed.

(** The exchange of two cells. *)
Definition exch (v : list Z) (i j : Z) : list Z := upd (upd v i (at_ v j)) j (at_ v i).

Lemma at_exch v i j k :
  inb v i → inb v j → 0 ≤ k →
  at_ (exch v i j) k = if j =? k then at_ v i else if i =? k then at_ v j else at_ v k.
Proof.
  intros Hi Hj Hk. unfold exch. rewrite at_upd; [|unfold inb; by rewrite length_upd|done].
  case_bool; [done|]. by apply at_upd.
Qed.

Lemma length_exch v i j : length (exch v i j) = length v.
Proof. unfold exch. by rewrite !length_upd. Qed.

Lemma exch_perm v i j : inb v i → inb v j → exch v i j ≡ₚ v.
Proof.
  intros Hi Hj. unfold inb in *. unfold exch, upd, at_.
  destruct (decide (i = j)) as [->|Hne].
  { rewrite list_insert_insert_eq, list_insert_id; [done|]. apply list_lookup_lookup_total_lt. lia. }
  destruct (insert_Permutation_inv v (Z.to_nat i) (v !!! Z.to_nat i) (v !!! Z.to_nat j))
    as (r & E1 & E2); [apply list_lookup_lookup_total_lt; lia|].
  set (w := <[Z.to_nat i:=v !!! Z.to_nat j]> v) in *.
  destruct (insert_Permutation_inv w (Z.to_nat j) (v !!! Z.to_nat j) (v !!! Z.to_nat i))
    as (r' & E3 & E4).
  { unfold w. rewrite list_lookup_insert_ne by lia. apply list_lookup_lookup_total_lt. lia. }
  etransitivity; [exact E4|]. etransitivity; [|symmetry; exact E1]. constructor.
  apply (Permutation_cons_inv (a := v !!! Z.to_nat j)).
  etransitivity; [symmetry; exact E3|exact E2].
Qed.

Lemma swap_cells v junk i j :
  inb v i → inb v j → swap (cells v junk) i j = Ok (cells (exch v i j) junk).
Proof.
  intros Hi Hj. unfold swap. rewrite !rd_cells by done. cbn [mbind res_bind].
  rewrite wr_cells by done. cbn [mbind res_bind].
  by rewrite wr_cells by (unfold inb; rewrite length_upd; exact Hj).
Qed.

(** ** Swaps inside a segment *)

Definition swapped (l r : Z) : relation (list Z) := λ v v',
  ∃ i j, l ≤ i ≤ r ∧ l ≤ j ≤ r ∧ v' = exch v i j.

(** [v'] is [v] with the cells [l..r] permuted. *)
Definition shuffled (l r : Z) : relation (list Z) := rtc (swapped l r).

Definition seg (v : list Z) (l r : Z) : Prop := 0 ≤ l ∧ r < Z.of_nat (length v).

(** What holds of every cell of the segment. *)
Definition all_in (P : Z → Prop) (l r : Z) (v : list Z) : Prop :=
  ∀ k, l ≤ k ≤ r → P (at_ v k).

#[export] Instance shuffled_preorder l r : PreOrder (shuffled l r).
Proof. unfold shuffled. apply _. Qed.

Lemma shuffled_once v l r i j :
  l ≤ i ≤ r → l ≤ j ≤ r → shuffled l r v (exch v i j).
Proof. intros Hi Hj. apply rtc_once. by exists i, j. Qed.

Lemma shuffled_weaken v v' l r l' r' :
  l' ≤ l → r ≤ r' → shuffled l r v v' → shuffled l' r' v v'.
Proof.
  intros Hl Hr. apply rtc_subrel. intros a b (i & j & ? & ? & ->). exists i, j. split_and!; lia || done.
Qed.

(** A property of lists that every swap of the segment keeps. *)
Lemma shuffled_ind (P : list Z → Prop) v v' l r :
  seg v l r → shuffled l r v v' →
  (∀ w i j, length w = length v → l ≤ i ≤ r → l ≤ j ≤ r → P w → P (exch w i j)) → P v → P v'.
Proof.
  intros Hv Hs Hstep HP.
  apply (rtc_invariant (swapped l r) (λ w, length w = length v ∧ P w) v v'); [|done|done].
  intros a b [Ha HPa] (i & j & Hi & Hj & ->). rewrite length_exch. split; [done|]. by apply Hstep.
Qed.

Lemma shuffled_length v v' l r : seg v l r → shuffled l r v v' → length v' = length v.
Proof.
  intros Hv Hs. apply (shuffled_ind (λ w, length w = length v) v v' l r Hv Hs); [|done].
  intros. by rewrite length_exch.
Qed.

Lemma shuffled_perm v v' l r : seg v l r → shuffled l r v v' → v' ≡ₚ v.
Proof.
  intros Hv Hs. apply (shuffled_ind (λ w, w ≡ₚ v) v v' l r Hv Hs); [|done].
  intros w i j Hw Hi Hj HP. unfold seg in Hv. rewrite exch_perm; [done|unfold inb; lia..].
Qed.

Lemma shuffled_outside v v' l r k :
  seg v l r → shuffled l r v v' → 0 ≤ k → k < l ∨ r < k → at_ v' k = at_ v k.
Proof.
  intros Hv Hs Hk Ho. apply (shuffled_ind (λ w, at_ w k = at_ v k) v v' l r Hv Hs); [|done].
  intros w i j Hw Hi Hj HP. unfold seg in Hv. rewrite at_exch by (unfold inb; lia).
  by rewrite !(proj2 (Z.eqb_neq _ _)) by lia.
Qed.

Lemma shuffled_all_in P v v' l r :
  seg v l r → shuffled l r v v' → all_in P l r v → all_in P l r v'.
Proof.
  intros Hv Hs. apply (shuffled_ind (all_in P l r) v v' l r Hv Hs).
  intros w i j Hw Hi Hj HP k Hk. unfold seg in Hv. rewrite at_exch by (unfold inb; lia).
  repeat case_bool; by apply HP.
Qed.

Lemma shuffled_seg v v' l r l' r' :
  seg v l r → shuffled l r v v' → seg v l' r' → seg v' l' r'.
Proof. intros Hv Hs. unfold seg. by rewrite (shuffled_length v v' l r Hv Hs). Qed.

(** ** The insertion sort *)

Definition sorted_seg (l r : Z) (v : list Z) : Prop :=
  ∀ x y, l ≤ x → x ≤ y → y ≤ r → at_ v y ≤ at_ v x.

(** A hole at [h], with a value [a] in hand that is not greater than the cells
    before the hole and not smaller than those behind it. *)
Lemma fill_hole v l m h a :
  0 ≤ l → l ≤ h ≤ m → seg v l m →
  sorted_seg l (h - 1) v → sorted_seg (h + 1) m v →
  (∀ x y, l ≤ x < h → h < y ≤ m → at_ v y ≤ at_ v x) →
  all_in (λ x, a ≤ x) l (h - 1) v → all_in (λ x, x ≤ a) (h + 1) m v →
  sorted_seg l m (upd v h a).
Proof.
  intros Hl Hh Hv H1 H2 H3 H4 H5 x y Hx Hxy Hy. unfold seg in Hv.
  rewrite !at_upd by (unfold inb; lia).
  destruct (Z.eqb_spec h y), (Z.eqb_spec h x); subst; try lia.
  - apply H4. lia.
  - apply H5. lia.
  - destruct (Z.lt_ge_cases y h); [apply H1; lia|].
    destruct (Z.lt_ge_cases h x); [apply H2; lia|]. apply H3; lia.
Qed.

(** Shifting the cell before the hole is a swap. *)
Lemma shift_hole v h a :
  0 ≤ h - 1 → inb v h → upd (upd v h (at_ v (h - 1))) (h - 1) a = exch (upd v h a) (h - 1) h.
Proof.
  intros Hh Hi. unfold exch. rewrite !at_upd by (unfold inb in *; lia).
  rewrite Z.eqb_refl, (proj2 (Z.eqb_neq h (h - 1))) by lia. unfold upd.
  rewrite !(list_insert_insert_ne v (Z.to_nat (h - 1)) (Z.to_nat h)) by (unfold inb in *; lia).
  by rewrite list_insert_insert_eq.
Qed.

Lemma insert_down_spec l m a junk i v :
  1 ≤ l → l ≤ Z.of_nat i + 1 ≤ m → seg v l m → (1 < l → a ≤ at_ v (l - 1)) →
  sorted_seg l (Z.of_nat i) v → sorted_seg (Z.of_nat i + 2) m v →
  (∀ x y, l ≤ x ≤ Z.of_nat i → Z.of_nat i + 2 ≤ y ≤ m → at_ v y ≤ at_ v x) →
  all_in (λ x, x ≤ a) (Z.of_nat i + 2) m v →
  ∃ v', insert_down i (cells v junk) a = Ok (cells v' junk) ∧
    shuffled l m (upd v (Z.of_nat i + 1) a) v' ∧ sorted_seg l m v'.
Proof.
  intros Hl. revert v. induction i as [|i IH]; intros v Hi Hv Hsent H1 H2 H3 H4;
    assert (Hv' := Hv); unfold seg in Hv'.
  { exists (upd v 1 a). split_and!; [|apply rtc_refl|].
    - cbn. by apply wr_cells; unfold inb; lia.
    - apply fill_hole; try done; try lia; intros ? **; lia. }
  cbn [insert_down]. rewrite rd_cells by (unfold inb; lia). cbn [mbind res_bind].
  set (p := Z.of_nat (S i)) in *. destruct (Z.leb_spec a (at_ v p)) as [Hle|Hgt].
  - exists (upd v (p + 1) a). split_and!; [apply wr_cells; unfold inb; lia|apply rtc_refl|].
    apply fill_hole; try done; try lia.
    + by replace (p + 1 - 1) with p by lia.
    + by replace (p + 1 + 1) with (p + 2) by lia.
    + intros x y Hx Hy. apply H3; lia.
    + intros k Hk. cbn. transitivity (at_ v p); [done|]. apply H1; lia.
    + by replace (p + 1 + 1) with (p + 2) by lia.
  - assert (l ≤ p).
    { destruct (Z.le_gt_cases l p); [done|]. replace (l - 1) with p in Hsent by lia. lia. }
    rewrite wr_cells by (unfold inb; lia). cbn [mbind res_bind].
    assert (Hat : ∀ k, 0 ≤ k → at_ (upd v (p + 1) (at_ v p)) k = if p + 1 =? k then at_ v p else at_ v k)
      by (intros; apply at_upd; unfold inb; lia).
    destruct (IH (upd v (p + 1) (at_ v p))) as (v' & E & Hs & Hsort).
    + lia.
    + unfold seg. by rewrite length_upd.
    + intros Hl1. rewrite Hat by lia. rewrite (proj2 (Z.eqb_neq _ _)) by lia. by apply Hsent.
    + intros x y Hx Hxy Hy. rewrite !Hat by lia.
      rewrite !(proj2 (Z.eqb_neq _ _)) by lia. apply H1; lia.
    + intros x y Hx Hxy Hy. rewrite !Hat by lia.
      destruct (Z.eqb_spec (p + 1) y), (Z.eqb_spec (p + 1) x); try lia; [apply H3; lia|apply H2; lia].
    + intros x y Hx Hy. rewrite !Hat by lia. rewrite (proj2 (Z.eqb_neq _ x)) by lia.
      case_bool; [apply H1; lia|bool_to_prop; apply H3; lia].
    + intros k Hk. cbn. rewrite Hat by lia. case_bool; [lia|]. bool_to_prop. apply H4. lia.
    + exists v'. split_and!; [done| |done].
      replace (Z.of_nat i + 1) with p in Hs by lia.
      pose proof (shift_hole v (p + 1) a) as Hsh. replace (p + 1 - 1) with p in Hsh by lia.
      rewrite Hsh in Hs by (unfold inb; lia).
      etransitivity; [|exact Hs]. apply shuffled_once; lia.
Qed.

(** The sentinel on the left of a segment. *)
Definition sentinel (l r : Z) (v : list Z) : Prop :=
  1 < l → all_in (λ x, x ≤ at_ v (l - 1)) l r v.

Lemma upd_same v i : inb v i → upd v i (at_ v i) = v.
Proof. intros Hi. unfold inb in Hi. apply list_insert_id, list_lookup_lookup_total_lt. lia. Qed.

Lemma sentinel_shuffled v v' l r :
  1 ≤ l → seg v l r → shuffled l r v v' → sentinel l r v → sentinel l r v'.
Proof.
  intros Hl Hv Hs Hsent Hl1. rewrite (shuffled_outside v v' l r (l - 1)) by (done || lia).
  apply (shuffled_all_in _ v v' l r Hv Hs). by apply Hsent.
Qed.

Lemma insertion_sort_spec l junk n j v :
  1 ≤ l → l < j → seg v l (j + Z.of_nat n - 1) →
  sentinel l (j + Z.of_nat n - 1) v → sorted_seg l (j - 1) v →
  ∃ v', insertion_sort n j (cells v junk) = Ok (cells v' junk) ∧
    shuffled l (j + Z.of_nat n - 1) v v' ∧ sorted_seg l (j + Z.of_nat n - 1) v'.
Proof.
  intros Hl. revert j v. induction n as [|n IH]; intros j v Hj Hv Hsent Hs.
  { replace (j + Z.of_nat 0 - 1) with (j - 1) in * by lia. exists v. by split_and!; [|apply rtc_refl|]. }
  assert (Hv' := Hv); unfold seg in Hv'.
  cbn [insertion_sort]. rewrite rd_cells by (unfold inb; lia). cbn [mbind res_bind].
  destruct (insert_down_spec l j (at_ v j) junk (Z.to_nat (j - 1)) v) as (v1 & E1 & Hs1 & Hsort1);
    rewrite ?Z2Nat.id by lia; try lia; try (intros ? **; lia).
  - unfold seg. lia.
  - intros Hl1. apply (Hsent Hl1). lia.
  - done.
  - rewrite E1. cbn [mbind res_bind]. rewrite Z2Nat.id in Hs1 by lia.
    replace (j - 1 + 1) with j in Hs1 by lia. rewrite upd_same in Hs1 by (unfold inb; lia).
    apply (shuffled_weaken _ _ _ _ l (j + Z.of_nat (S n) - 1)) in Hs1; [|lia..].
    replace (j + Z.of_nat (S n) - 1) with (j + 1 + Z.of_nat n - 1) in * by lia.
    destruct (IH (j + 1) v1) as (v' & E & Hs' & Hsort').
    + lia.
    + by eapply shuffled_seg.
    + by eapply sentinel_shuffled.
    + by replace (j + 1 - 1) with j by lia.
    + exists v'. split_and!; [done| |done]. by etransitivity.
Qed.

(** ** The partition *)

Lemma scan_up_spec v junk a bd fuel i :
  i < bd → bd - i ≤ Z.of_nat fuel → 0 ≤ i → inb v bd → at_ v bd ≤ a →
  ∃ i', scan_up fuel (cells v junk) i a = Ok i' ∧ i < i' ≤ bd ∧
    at_ v i' ≤ a ∧ all_in (λ x, a < x) (i + 1) (i' - 1) v.
Proof.
  revert i. induction fuel as [|fuel IH]; intros i Hi Hfu H0 Hbd Ha; [lia|].
  cbn [scan_up]. rewrite rd_cells by (unfold inb in *; lia). cbn [mbind res_bind].
  destruct (Z.ltb_spec a (at_ v (i + 1))) as [Hlt|Hge].
  - assert (i + 1 ≠ bd) by (intros <-; lia).
    destruct (IH (i + 1)) as (i' & E & Hi' & Hle & Hall); try lia; [done..|].
    exists i'. split_and!; [done|lia|lia|done|].
    intros k Hk. destruct (Z.eq_dec k (i + 1)) as [->|]; [done|]. apply Hall. lia.
  - exists (i + 1). split_and!; [done|lia|lia|done|]. intros k Hk. lia.
Qed.

Lemma scan_down_spec v junk a bd fuel j :
  bd < j → j - bd ≤ Z.of_nat fuel → 0 ≤ bd → inb v (j - 1) → a ≤ at_ v bd →
  ∃ j', scan_down fuel (cells v junk) j a = Ok j' ∧ bd ≤ j' < j ∧
    a ≤ at_ v j' ∧ all_in (λ x, x < a) (j' + 1) (j - 1) v.
Proof.
  revert j. induction fuel as [|fuel IH]; intros j Hj Hfu H0 Hjb Ha; [lia|].
  cbn [scan_down]. rewrite rd_cells by done. cbn [mbind res_bind].
  destruct (Z.ltb_spec (at_ v (j - 1)) a) as [Hlt|Hge].
  - assert (j - 1 ≠ bd) by (intros <-; lia).
    destruct (IH (j - 1)) as (j' & E & Hj' & Hle & Hall); try lia; [unfold inb in *; lia|].
    exists j'. split_and!; [done|lia|lia|done|].
    intros k Hk. destruct (Z.eq_dec k (j - 1)) as [->|]; [done|]. apply Hall. lia.
  - exists (j - 1). split_and!; [done|lia|lia|done|]. intros k Hk. lia.
Qed.

(** The cells from [l] to [i] are not smaller than the pivot, those from [j] to [r]
    not greater. *)
Definition parted (l r i j a : Z) (v : list Z) : Prop :=
  all_in (λ x, a ≤ x) l i v ∧ all_in (λ x, x ≤ a) j r v.

(** The scans meet at most one cell apart (both stop on a cell equal to the pivot). *)
Lemma partition_loop_spec l r a junk fuel i j v :
  1 ≤ l → l ≤ i → i < r → i ≤ j → l < j ≤ r → r - i + 1 ≤ Z.of_nat fuel → seg v l r →
  parted l r i j a v →
  ∃ v' i' j', partition_loop fuel (cells v junk) i j a = Ok (cells v' junk, i', j') ∧
    shuffled (l + 1) (r - 1) v v' ∧ l ≤ j' < i' ∧ i' ≤ r ∧
    parted l r (i' - 1) (j' + 1) a v' ∧ a ≤ at_ v' j' ∧ at_ v' i' ≤ a.
Proof.
  intros Hl. revert i j v. induction fuel as [|fuel IH]; intros i j v Hi Hir Hij Hj Hfu Hv [Hup Hdn];
    [lia|].
  assert (Hv' := Hv); unfold seg in Hv'. cbn [partition_loop].
  destruct (scan_up_spec v junk a (Z.max j (i + 1)) (S fuel) i) as (i1 & Ei & Hi1 & Hai & Halli);
    [lia|lia|lia|unfold inb; lia|apply Hdn; lia|].
  destruct (scan_down_spec v junk a (Z.min i (j - 1)) (S fuel) j) as (j1 & Ej & Hj1 & Haj & Hallj);
    [lia|lia|lia|unfold inb; lia|apply Hup; lia|].
  rewrite Ei. cbn [mbind res_bind]. rewrite Ej. cbn [mbind res_bind].
  destruct (Z.ltb_spec j1 i1) as [Hlt|Hge].
  - exists v, i1, j1. split; [done|]. split; [reflexivity|]. split; [lia|].
    split; [lia|]. split; [|done]. split.
    + intros k Hk. destruct (Z.le_gt_cases k i); [apply Hup; lia|].
      apply Z.lt_le_incl, Halli. lia.
    + intros k Hk. destruct (Z.le_gt_cases j k); [apply Hdn; lia|].
      apply Z.lt_le_incl, Hallj. lia.
  - rewrite swap_cells by (unfold inb; lia). cbn [mbind res_bind].
    assert (Hat : ∀ k, 0 ≤ k → at_ (exch v i1 j1) k
      = if j1 =? k then at_ v i1 else if i1 =? k then at_ v j1 else at_ v k)
      by (intros; apply at_exch; unfold inb; lia).
    destruct (IH i1 j1 (exch v i1 j1)) as (v' & i' & j' & E & Hs & Hpos); try lia.
    + unfold seg. by rewrite length_exch.
    + split.
      * intros k Hk. cbn. rewrite Hat by lia. repeat case_bool; bool_to_prop; [|done|].
        -- assert (i1 = j1) as -> by lia. done.
        -- destruct (Z.le_gt_cases k i); [apply Hup; lia|]. apply Z.lt_le_incl, Halli. lia.
      * intros k Hk. cbn. rewrite Hat by lia. repeat case_bool; bool_to_prop; [done|lia|].
        destruct (Z.le_gt_cases j k); [apply Hdn; lia|]. apply Z.lt_le_incl, Hallj. lia.
    + exists v', i', j'. split; [done|]. split; [|done].
      etransitivity; [|exact Hs]. apply shuffled_once; lia.
Qed.

Lemma swap_if_less_spec v junk i j l r :
  i ≠ j → l ≤ i ≤ r → l ≤ j ≤ r → seg v l r →
  ∃ v', swap_if_less (cells v junk) i j = Ok (cells v' junk) ∧ shuffled l r v v' ∧
    at_ v' i = Z.max (at_ v i) (at_ v j) ∧ at_ v' j = Z.min (at_ v i) (at_ v j) ∧
    ∀ k, 0 ≤ k → k ≠ i → k ≠ j → at_ v' k = at_ v k.
Proof.
  intros Hne Hi Hj Hv. unfold seg in Hv. unfold swap_if_less.
  rewrite !rd_cells by (unfold inb; lia). cbn [mbind res_bind].
  destruct (Z.ltb_spec (at_ v i) (at_ v j)).
  - exists (exch v i j). split; [apply swap_cells; unfold inb; lia|].
    split; [by apply shuffled_once|]. rewrite !at_exch by (unfold inb; lia).
    rewrite !Z.eqb_refl, (proj2 (Z.eqb_neq j i)) by lia. split; [lia|]. split; [lia|].
    intros k Hk Hki Hkj. rewrite at_exch by (unfold inb; lia).
    by rewrite !(proj2 (Z.eqb_neq _ k)) by lia.
  - exists v. split; [done|]. split; [reflexivity|]. split; [lia|]. by split; [lia|].
Qed.

(** The cells before [i] are not smaller than those from [j] on. *)
Definition cut (l r i j : Z) (v : list Z) : Prop :=
  ∃ a, all_in (λ x, a ≤ x) l (i - 1) v ∧ all_in (λ x, x ≤ a) j r v.

(** The median of three: it lies in [l + 1], between its neighbours. *)
Lemma median_spec v junk l r :
  1 ≤ l → l + 8 ≤ r → seg v l r →
  ∃ v', (b ← swap (cells v junk) (Z.shiftr (l + r) 1) (l + 1);
         b ← swap_if_less b l r;
         b ← swap_if_less b (l + 1) r;
         swap_if_less b l (l + 1)) = Ok (cells v' junk) ∧ shuffled l r v v' ∧
    at_ v' (l + 1) ≤ at_ v' l ∧ at_ v' r ≤ at_ v' (l + 1).
Proof.
  intros Hl Hr Hv. assert (Hv' := Hv); unfold seg in Hv'.
  rewrite Z.shiftr_div_pow2 by lia. change (2 ^ 1) with 2.
  assert (Hk : l ≤ (l + r) / 2 ≤ r).
  { pose proof (Z.div_mod (l + r) 2). pose proof (Z.mod_pos_bound (l + r) 2). lia. }
  rewrite swap_cells by (unfold inb; lia). cbn [mbind res_bind].
  set (v0 := exch v ((l + r) / 2) (l + 1)).
  assert (Hs0 : shuffled l r v v0) by (apply shuffled_once; lia).
  assert (Hv0 : seg v0 l r) by (by eapply shuffled_seg).
  destruct (swap_if_less_spec v0 junk l r l r) as (v1 & E1 & Hs1 & M1 & N1 & O1); try lia; [done|].
  assert (Hv1 : seg v1 l r) by (by eapply (shuffled_seg v0)).
  destruct (swap_if_less_spec v1 junk (l + 1) r l r) as (v2 & E2 & Hs2 & M2 & N2 & O2); try lia; [done|].
  assert (Hv2 : seg v2 l r) by (by eapply (shuffled_seg v1)).
  destruct (swap_if_less_spec v2 junk l (l + 1) l r) as (v3 & E3 & Hs3 & M3 & N3 & O3); try lia; [done|].
  exists v3. rewrite E1. cbn [mbind res_bind]. rewrite E2. cbn [mbind res_bind]. split; [done|].
  split; [by repeat (etransitivity; [eassumption|])|].
  rewrite (O3 r) by lia. rewrite (O1 (l + 1)) in M2, N2 by lia. rewrite (O2 l) in M3, N3 by lia.
  lia.
Qed.

Lemma partition_spec fuel v junk l r :
  1 ≤ l → l + 8 ≤ r → l + r < 2 ^ 31 → r - l ≤ Z.of_nat fuel → seg v l r →
  ∃ v' i j, partition fuel (cells v junk) l r = Ok (cells v' junk, i, j) ∧
    shuffled l r v v' ∧ l + 1 ≤ j < i ∧ i ≤ r ∧ cut l r i j v'.
Proof.
  intros Hl Hr Hov Hfu Hv.
  destruct (median_spec v junk l r Hl Hr Hv) as (v1 & E1 & Hs1 & Hm1 & Hm2).
  assert (Hv1 : seg v1 l r) by (by eapply (shuffled_seg v)).
  assert (Hb1 := Hv1); unfold seg in Hb1. set (a := at_ v1 (l + 1)) in *.
  destruct (partition_loop_spec (l + 1) r a junk fuel (l + 1) r v1)
    as (v2 & i & j & E2 & Hs2 & Hj & Hi & [Hup Hdn] & Haj & Hai); try lia.
  { unfold seg. lia. }
  { split; intros k Hk; [by replace k with (l + 1) by lia|by replace k with r by lia]. }
  assert (Hsg : seg v1 (l + 1 + 1) (r - 1)) by (unfold seg; lia).
  assert (Ha2 : at_ v2 (l + 1) = a) by (apply (shuffled_outside _ _ _ _ _ Hsg Hs2); lia).
  assert (Hl2 : at_ v2 l = at_ v1 l) by (apply (shuffled_outside _ _ _ _ _ Hsg Hs2); lia).
  assert (Hb2 : seg v2 l r) by (by eapply (shuffled_seg v1)). unfold seg in Hb2.
  exists (exch v2 (l + 1) j), i, j. split.
  { unfold partition. rewrite (proj2 (Z.leb_gt _ _)) by lia.
    assert (Hassoc : ∀ f : block → res (block * Z * Z),
      (b ← swap (cells v junk) (Z.shiftr (l + r) 1) (l + 1);
       b ← swap_if_less b l r; b ← swap_if_less b (l + 1) r;
       b ← swap_if_less b l (l + 1); f b) = f (cells v1 junk)).
    { intros f. revert E1. destruct (swap _ _ _) as [b1| | |]; try done. cbn [mbind res_bind].
      destruct (swap_if_less b1 _ _) as [b2| | |]; try done. cbn [mbind res_bind].
      destruct (swap_if_less b2 _ _) as [b3| | |]; try done. cbn [mbind res_bind].
      intros ->. done. }
    rewrite Hassoc. rewrite rd_cells by (unfold inb; lia). cbn [mbind res_bind]. fold a.
    rewrite E2. cbn [mbind res_bind]. rewrite rd_cells by (unfold inb; lia). cbn [mbind res_bind].
    rewrite wr_cells by (unfold inb; lia). cbn [mbind res_bind].
    rewrite wr_cells by (unfold inb; rewrite length_upd; lia). cbn [mbind res_bind].
    unfold exch. by rewrite Ha2. }
  split; [|split; [lia|split; [lia|]]].
  - etransitivity; [exact Hs1|]. etransitivity; [eapply shuffled_weaken, Hs2; lia|].
    apply shuffled_once; lia.
  - exists a. split; intros k Hk; cbn; rewrite at_exch, Ha2 by (unfold inb; lia).
    + repeat case_bool; bool_to_prop; [done|lia|].
      destruct (Z.eq_dec k l) as [->|]; [lia|]. apply Hup. lia.
    + repeat case_bool; bool_to_prop; [done|lia|]. apply Hdn. lia.
Qed.

(** ** The pending segments *)

Definition disj (s s' : Z * Z) : Prop := s.2 < s'.1 ∨ s'.2 < s.1.
Definition within (st : list (Z * Z)) (x y : Z) : Prop := Exists (λ s, s.1 ≤ x ∧ y ≤ s.2) st.

(** Two cells are in order unless a pending segment holds both. *)
Definition ordered (n : Z) (st : list (Z * Z)) (v : list Z) : Prop :=
  ∀ x y, 1 ≤ x → x ≤ y → y ≤ n → within st x y ∨ at_ v y ≤ at_ v x.

Definition size (s : Z * Z) : Z := s.2 - s.1 + 1.

(** The rounds the loop still needs. *)
Fixpoint work (st : list (Z * Z)) : Z :=
  match st with [] => 0 | s :: st => 2 * size s + 1 + work st end.

(** A segment with [k] segments below it has at most n / 2^k cells: the loop goes on
    with the smaller half. *)
Fixpoint halved (n : Z) (st : list (Z * Z)) : Prop :=
  match st with [] => True | s :: st => size s * 2 ^ Z.of_nat (length st) ≤ n ∧ halved n st end.

Record pending (n : Z) (st : list (Z * Z)) : Prop := Pending {
  p_range : Forall (λ s, 1 ≤ s.1 ∧ s.1 ≤ s.2 + 1 ∧ s.2 ≤ n) st;
  p_disj : StronglySorted disj st;
  p_halved : halved n st }.

Lemma not_within_disj st l r x y :
  Forall (disj (l, r)) st → x ≤ y → l ≤ y → x ≤ r → l ≤ r → (l ≤ x ∨ y ≤ r) → not (within st x y).
Proof.
  intros Hd Hxy Hl Hr Hlr Hor (s & Hs & H1 & H2)%Exists_exists.
  rewrite Forall_forall in Hd. destruct (Hd s Hs); cbn in *; lia.
Qed.

Lemma ordered_shuffled n l r st v v' :
  ordered n ((l, r) :: st) v → shuffled l r v v' → seg v l r → 1 ≤ l → r ≤ n →
  Forall (disj (l, r)) st → ordered n ((l, r) :: st) v'.
Proof.
  intros Ho Hs Hv Hl Hr Hd x y Hx Hxy Hy.
  assert (Hout : ∀ k, 0 ≤ k → k < l ∨ r < k → at_ v' k = at_ v k)
    by (intros; by eapply shuffled_outside).
  destruct (Z.le_gt_cases l y), (Z.le_gt_cases y r), (Z.le_gt_cases l x), (Z.le_gt_cases x r);
    try (rewrite !Hout by lia; by apply Ho); try lia.
  - left. apply Exists_cons_hd. cbn. lia.
  - right. rewrite (Hout x) by lia.
    apply (shuffled_all_in (λ z, z ≤ at_ v x) v v' l r Hv Hs); [|lia]. intros k Hk.
    destruct (Ho x k) as [[Hw|Hw]%Exists_cons|]; [lia..| | |done]; [cbn in Hw; lia|].
    exfalso. eapply (not_within_disj st l r x k); eauto; lia.
  - right. rewrite (Hout y) by lia.
    apply (shuffled_all_in (λ z, at_ v y ≤ z) v v' l r Hv Hs); [|lia]. intros k Hk.
    destruct (Ho k y) as [[Hw|Hw]%Exists_cons|]; [lia..| | |done]; [cbn in Hw; lia|].
    exfalso. eapply (not_within_disj st l r k y); eauto; lia.
Qed.

Lemma ordered_sorted n l r st v :
  ordered n ((l, r) :: st) v → sorted_seg l r v → ordered n st v.
Proof.
  intros Ho Hs x y Hx Hxy Hy.
  destruct (Ho x y) as [[[H1 H2]|Hw]%Exists_cons|]; [done..| |by left|by right].
  right. by apply Hs.
Qed.

Lemma ordered_cut n l r i j st v :
  ordered n ((l, r) :: st) v → cut l r i j v →
  ordered n ((l, j - 1) :: (i, r) :: st) v.
Proof.
  intros Ho (a & Hup & Hdn) x y Hx Hxy Hy.
  destruct (Ho x y) as [[[H1 H2]|Hw]%Exists_cons|]; [done..| | |by right]; cbn in *.
  2:{ left. by do 2 apply Exists_cons_tl. }
  destruct (Z.le_gt_cases y (j - 1)); [left; apply Exists_cons_hd; cbn; lia|].
  destruct (Z.le_gt_cases i x); [left; apply Exists_cons_tl, Exists_cons_hd; cbn; lia|].
  right. specialize (Hup x). specialize (Hdn y). cbn in *. lia.
Qed.

Lemma ordered_sentinel n l r st v :
  ordered n ((l, r) :: st) v → Forall (disj (l, r)) st → r ≤ n → sentinel l r v.
Proof.
  intros Ho Hd Hr Hl k Hk. cbn.
  destruct (Ho (l - 1) k) as [[Hw|Hw]%Exists_cons|]; [lia..| | |done]; [cbn in Hw; lia|].
  exfalso. eapply (not_within_disj st l r (l - 1) k); eauto; lia.
Qed.

Lemma ordered_swap_head n s s' st v : ordered n (s :: s' :: st) v → ordered n (s' :: s :: st) v.
Proof.
  intros Ho x y Hx Hxy Hy. destruct (Ho x y Hx Hxy Hy) as [Hw|]; [left|by right].
  unfold within in *. rewrite !Exists_cons in *. tauto.
Qed.

Definition inside (l r : Z) (s : Z * Z) : Prop := l ≤ s.1 ∧ s.1 ≤ s.2 + 1 ∧ s.2 ≤ r.

Lemma inside_disj l r s st : inside l r s → Forall (disj (l, r)) st → Forall (disj s) st.
Proof.
  intros (H1 & H2 & H3) Hd. eapply Forall_impl; [exact Hd|].
  intros s' [Hs|Hs]; cbn in *; [left|right]; lia.
Qed.

(** Replacing a segment by two smaller ones, the greater below. *)
Lemma pending_split n l r s1 s2 st :
  pending n ((l, r) :: st) → inside l r s1 → inside l r s2 → disj s1 s2 →
  size s1 ≤ size s2 → size s1 + size s2 < size (l, r) →
  pending n (s1 :: s2 :: st) ∧ work (s1 :: s2 :: st) < work ((l, r) :: st).
Proof.
  intros [Hr Hd Hh] Hi1 Hi2 H12 Hle Hlt. split; [|cbn [work]; lia].
  apply Forall_cons in Hr as [Hr0 Hr]. apply StronglySorted_cons in Hd as [Hd0 Hd].
  cbn [halved fst snd] in *. destruct Hh as [Hh0 Hh].
  assert (0 < 2 ^ Z.of_nat (length st)) by (apply Z.pow_pos_nonneg; lia).
  destruct (Hi1) as (?&?&?), (Hi2) as (?&?&?).
  assert (0 ≤ size s1 ∧ 0 ≤ size s2) by (unfold size; lia).
  set (p := 2 ^ Z.of_nat (length st)) in *.
  split.
  - constructor; [lia|]. constructor; [lia|done].
  - constructor; [constructor; [done|]|].
    + by eapply inside_disj.
    + constructor; [done|]. by eapply inside_disj.
  - cbn [halved length].
    rewrite Nat2Z.inj_succ, Z.pow_succ_r by lia. fold p. split_and!; [| |done].
    + transitivity (size (l, r) * p); [|done].
      rewrite Z.mul_assoc. apply Z.mul_le_mono_nonneg_r; lia.
    + transitivity (size (l, r) * p); [|done]. apply Z.mul_le_mono_nonneg_r; lia.
Qed.

(** The stack has room while a segment of more than eight cells is split. *)
Lemma pending_room n l r st : n < 2 ^ 31 → pending n ((l, r) :: st) → l + 8 ≤ r → (length st < 31)%nat.
Proof.
  intros Hn [_ _ [Hh _]] Hr. unfold size in Hh. cbn [fst snd] in Hh.
  destruct (decide (length st < 31)%nat) as [|Hge]; [done|exfalso].
  assert (2 ^ 31 ≤ 2 ^ Z.of_nat (length st)) by (apply Z.pow_le_mono_r; lia). nia.
Qed.

Lemma pending_tail n s st : pending n (s :: st) → pending n st.
Proof.
  intros [Hr Hd [_ Hh]]. apply Forall_cons in Hr as [_ Hr]. apply StronglySorted_cons in Hd as [_ Hd].
  by constructor.
Qed.

(** ** The loop *)

Lemma small_sort v junk l r :
  1 ≤ l → seg v l r → sentinel l r v →
  ∃ v', insertion_sort (Z.to_nat (r - l)) (l + 1) (cells v junk) = Ok (cells v' junk) ∧
    shuffled l r v v' ∧ sorted_seg l r v'.
Proof.
  intros Hl Hv Hsent. destruct (Z.le_gt_cases r l) as [Hle|Hgt].
  { exists v. replace (Z.to_nat (r - l)) with 0%nat by lia. split; [done|]. split; [reflexivity|].
    intros x y Hx Hxy Hy. by replace x with y by lia. }
  pose proof (insertion_sort_spec l junk (Z.to_nat (r - l)) (l + 1) v) as H.
  rewrite Z2Nat.id in H by lia. replace (l + 1 + (r - l) - 1) with r in H by lia.
  apply H; try done; try lia. intros x y Hx Hxy Hy. by replace x with y by lia.
Qed.

Lemma work_nonneg n st : pending n st → 0 ≤ work st.
Proof.
  intros [Hr _ _]. induction Hr as [|s st Hs _ IH]; cbn [work]; [lia|]. unfold size. lia.
Qed.

Lemma sort_loop_spec n junk fuel l r st v :
  n < 2 ^ 30 → n < Z.of_nat (length v) → pending n ((l, r) :: st) → ordered n ((l, r) :: st) v →
  work ((l, r) :: st) ≤ Z.of_nat fuel →
  ∃ v', sort_loop fuel (cells v junk) l r st = Ok (cells v' junk) ∧
    shuffled 1 n v v' ∧ ordered n [] v'.
Proof.
  intros Hn. revert l r st v. induction fuel as [|fuel IH]; intros l r st v Hv Hp Ho Hw;
    pose proof (work_nonneg n st (pending_tail n _ st Hp)) as Hst;
    assert (Hp' := Hp); destruct Hp' as [Hr Hd _];
    apply Forall_cons in Hr as [(Hl & Hlr & Hrn) _]; apply StronglySorted_cons in Hd as [Hd _];
    cbn [fst snd work] in *; unfold size in Hw; cbn [fst snd] in Hw; [lia|].
  assert (Hseg : seg v l r) by (unfold seg; lia).
  cbn [sort_loop]. change SMALL with 8. destruct (Z.ltb_spec (r - l) 8) as [Hsm|Hbig].
  - destruct (small_sort v junk l r) as (v1 & E & Hs & Hsort);
      [done|done|by eapply ordered_sentinel|].
    rewrite E. cbn [mbind res_bind].
    assert (Ho1 : ordered n st v1) by (eapply ordered_sorted; [|done]; by eapply ordered_shuffled).
    apply (shuffled_weaken _ _ _ _ 1 n) in Hs as Hs1; [|lia..].
    assert (Hlen : length v1 = length v) by (by eapply shuffled_length).
    destruct st as [|[l' r'] st]; [by exists v1|].
    destruct (IH l' r' st v1) as (v' & E' & Hs' & Ho'); [lia|by eapply pending_tail|done|cbn [work] in *; lia|].
    exists v'. split; [done|]. split; [|done]. by etransitivity.
  - destruct (partition_spec (S fuel) v junk l r) as (v1 & i & j & E & Hs & Hj & Hi & Hcut);
      [done|lia|lia|lia|done|].
    rewrite E. cbn [mbind res_bind].
    assert (Hroom : (length st < 31)%nat) by (apply (pending_room n l r st); [lia|done|lia]).
    rewrite decide_False by lia.
    assert (Ho1 : ordered n ((l, j - 1) :: (i, r) :: st) v1)
      by (eapply ordered_cut; [|done]; by eapply ordered_shuffled).
    apply (shuffled_weaken _ _ _ _ 1 n) in Hs as Hs1; [|lia..].
    assert (Hlen : length v1 = length v) by (by eapply shuffled_length).
    destruct (Z.leb_spec (j - l) (r - i + 1)).
    + destruct (pending_split n l r (l, j - 1) (i, r) st Hp) as [Hp1 Hw1];
        [unfold inside; cbn; lia|unfold inside; cbn; lia|left; cbn; lia|
         unfold size; cbn; lia|unfold size; cbn; lia|].
      destruct (IH l (j - 1) ((i, r) :: st) v1) as (v' & E' & Hs' & Ho'); [lia|done|done| |].
      { cbn [work] in *. unfold size in *. cbn [fst snd] in *. lia. }
      exists v'. split; [done|]. split; [|done]. by etransitivity.
    + destruct (pending_split n l r (i, r) (l, j - 1) st Hp) as [Hp1 Hw1];
        [unfold inside; cbn; lia|unfold inside; cbn; lia|right; cbn; lia|
         unfold size; cbn; lia|unfold size; cbn; lia|].
      destruct (IH i r ((l, j - 1) :: st) v1) as (v' & E' & Hs' & Ho');
        [lia|done|by apply ordered_swap_head| |].
      { cbn [work] in *. unfold size in *. cbn [fst snd] in *. lia. }
      exists v'. split; [done|]. split; [|done]. by etransitivity.
Qed.

Lemma sorted_seg_descending xs n :
  sorted_seg 1 (Z.of_nat (length xs)) (n :: xs) → descending xs.
Proof.
  intros Hs. induction xs as [|x xs IH] using rev_ind; [constructor|].
  rewrite length_app in Hs. cbn in Hs.
  assert (Hat : ∀ k y, (xs ++ [x]) !! k = Some y → at_ (n :: xs ++ [x]) (Z.of_nat (S k)) = y).
  { intros k y Hk. unfold at_. rewrite Nat2Z.id. by apply list_lookup_total_correct. }
  apply StronglySorted_app. split_and!; [| |by repeat constructor].
  - intros a b Ha Hb%list_elem_of_singleton. subst b. apply list_elem_of_lookup in Ha as [k Hk].
    pose proof (lookup_lt_Some _ _ _ Hk).
    specialize (Hs (Z.of_nat (S k)) (Z.of_nat (S (length xs)))).
    rewrite (Hat k a) in Hs by (by apply lookup_app_l_Some).
    rewrite (Hat (length xs) x) in Hs by (by rewrite lookup_app_r, Nat.sub_diag by lia). lia.
  - apply IH. intros a b Ha Hab Hb.
    assert (Heq : ∀ c, 1 ≤ c ≤ Z.of_nat (length xs) → at_ (n :: xs) c = at_ (n :: xs ++ [x]) c).
    { intros c Hc. destruct (lookup_lt_is_Some_2 xs (Z.to_nat (c - 1))) as [y Hy]; [lia|].
      replace c with (Z.of_nat (S (Z.to_nat (c - 1)))) by lia.
      rewrite (Hat _ y) by (by apply lookup_app_l_Some).
      unfold at_. rewrite Nat2Z.id. by apply list_lookup_total_correct. }
    rewrite !Heq by lia. apply Hs; lia.
Qed.

Lemma midl_sort_spec fuel xs junk :
  Z.of_nat (length xs) < 2 ^ 30 → 2 * Z.of_nat (length xs) + 1 ≤ Z.of_nat fuel →
  ∃ zs, descending zs ∧ zs ≡ₚ xs ∧
    mdb_midl_sort fuel (midl_cells xs junk) = Ok (midl_cells zs junk).
Proof.
  intros Hn Hfu. set (n := Z.of_nat (length xs)) in *.
  assert (Hv : seg (n :: xs) 1 n) by (unfold seg; cbn; lia).
  destruct (sort_loop_spec n junk fuel 1 n [] (n :: xs)) as (v' & E & Hs & Ho).
  - done.
  - cbn. lia.
  - split; [constructor; [cbn; lia|constructor]|repeat constructor|]. cbn. unfold size. cbn. lia.
  - intros x y Hx Hxy Hy. left. apply Exists_cons_hd. cbn. lia.
  - cbn. unfold size. cbn. lia.
  - assert (H0 : at_ v' 0 = n) by (apply (shuffled_outside (n :: xs) v' 1 n 0); done || lia).
    assert (Hp : v' ≡ₚ n :: xs) by (by eapply shuffled_perm).
    destruct v' as [|n' zs]; [by apply Permutation_length in Hp|].
    change (at_ (n' :: zs) 0) with n' in H0. subst n'.
    apply (Permutation_cons_inv (a := n)) in Hp. exists zs. split; [|split; [done|]].
    + apply (sorted_seg_descending zs n). rewrite (Permutation_length Hp).
      intros x y Hx Hxy Hy. destruct (Ho x y) as [Hw|]; [done..| |done].
      by apply Exists_nil in Hw.
    + unfold mdb_midl_sort.
      change (rd (midl_cells xs junk) 0) with (Ok n). cbn [mbind res_bind].
      unfold to_int. rewrite u32_small by lia. rewrite (proj2 (Z.ltb_lt _ _)) by lia.
      change (midl_cells xs junk) with (cells (n :: xs) junk). rewrite E.
      unfold midl_cells. by rewrite (Permutation_length Hp).
Qed.

(** C23.  [mdb_midl_sort] of a list of less than 2^30 IDs ends and leaves the IDs
    in descending order, with 2 n + 1 rounds: no access leaves the array, the
    scans find their sentinels and the stack of 32 pairs is never full. *)
Theorem midl_sort_sorts fuel xs junk :
  Z.of_nat (length xs) < 2 ^ 30 → 2 * Z.of_nat (length xs) + 1 ≤ Z.of_nat fuel →
  ∃ zs, descending zs ∧ zs ≡ₚ xs ∧
    mdb_midl_sort fuel (midl_cells xs junk) = Ok (midl_cells zs junk).
Proof. apply midl_sort_spec. Qed.

Lemma midl_sort_sorts_witness :
  let xs := [3; 1; 4; 1; 5; 9; 2; 6; 5; 3; 5] in
  mdb_midl_sort 23 (midl_cells xs [None]) = Ok (midl_cells [9; 6; 5; 5; 5; 4; 3; 3; 2; 1; 1] [None]) ∧
  ∃ zs, descending zs ∧ zs ≡ₚ xs ∧ mdb_midl_sort 23 (midl_cells xs [None]) = Ok (midl_cells zs [None]).
Proof.
  split; [reflexivity|]. apply midl_sort_sorts; [by vm_compute|by vm_compute].
Defined.
