(* ===== verification/Page.v ===== *)
(** * LMDB pages (src/lib/lmdb/mdb.c): definitions

    The B+tree page of the vendored LMDB as the array of its bytes, for a 64-bit
    little-endian machine with MDB_DEVEL 0 and assertions on: the comparison
    functions, the search of a page, and the addition, deletion and shrinking of
    nodes.  The node headers and the array of pointers are read and written in
    16-bit fields, as in the code.  What mdb_page_alloc returns is an argument. *)

From S2P Require Import Prelude.

(** ** Memory *)

Definition page : Type := list Z.

(** Reads and writes of [n] bytes, and [memmove] inside the page. *)
Definition mread (p : page) (off n : Z) : res (list Z) :=
  if ((0 <=? off) && (0 <=? n) && (off + n <=? Z.of_nat (length p)))%bool
  then Ok (take (Z.to_nat n) (drop (Z.to_nat off) p)) else UB.

Definition mwrite (p : page) (off : Z) (bs : list Z) : res page :=
  if ((0 <=? off) && (off + Z.of_nat (length bs) <=? Z.of_nat (length p)))%bool
  then Ok (take (Z.to_nat off) p ++ bs ++ drop (Z.to_nat off + length bs) p) else UB.

Definition mmove (p : page) (dst src n : Z) : res page :=
  bs ← mread p src n; mwrite p dst bs.

(** Little-endian numbers. *)
Fixpoint le (bs : list Z) : Z := match bs with [] => 0 | b :: bs => b + 256 * le bs end.
Definition le16 (z : Z) : list Z := [z mod 256; z / 256 mod 256].

Definition rd16 (p : page) (off : Z) : res Z := bs ← mread p off 2; Ok (le bs).
Definition wr16 (p : page) (off z : Z) : res page := mwrite p off (le16 z).

(** ** The header of a page, and its nodes *)

Definition P_BRANCH : Z := 1.
Definition P_LEAF : Z := 2.
Definition P_OVERFLOW : Z := 4.
Definition P_DIRTY : Z := 16.
Definition P_LEAF2 : Z := 32.
Definition F_BIGDATA : Z := 1.
Definition MDB_RESERVE : Z := 65536.
Definition MDB_PAGE_FULL : Z := -30786.

Definition F_ISSET (w f : Z) : bool := Z.land w f =? f.
Definition EVEN (n : Z) : Z := Z.land (n + 1) (-2).

Definition PAGEHDRSZ : Z := 16.
Definition NODESIZE : Z := 8.

Definition MP_FLAGS (p : page) : res Z := rd16 p 10.
Definition MP_LOWER (p : page) : res Z := rd16 p 12.
Definition MP_UPPER (p : page) : res Z := rd16 p 14.
Definition set_MP_LOWER (p : page) (z : Z) : res page := wr16 p 12 z.
Definition set_MP_UPPER (p : page) (z : Z) : res page := wr16 p 14 z.
Definition MP_PTRS (p : page) (i : Z) : res Z := rd16 p (PAGEHDRSZ + 2 * i).
Definition set_MP_PTRS (p : page) (i z : Z) : res page := wr16 p (PAGEHDRSZ + 2 * i) z.

Definition NUMKEYS (p : page) : res Z := l ← MP_LOWER p; Ok (Z.shiftr (u32 (l - PAGEHDRSZ)) 1).
Definition SIZELEFT (p : page) : res Z := u ← MP_UPPER p; l ← MP_LOWER p; Ok (u16 (u - l)).
Definition IS_LEAF (p : page) : res bool := f ← MP_FLAGS p; Ok (F_ISSET f P_LEAF).
Definition IS_LEAF2 (p : page) : res bool := f ← MP_FLAGS p; Ok (F_ISSET f P_LEAF2).
Definition IS_BRANCH (p : page) : res bool := f ← MP_FLAGS p; Ok (F_ISSET f P_BRANCH).

(** A node is at the offset [a] of its page. *)
Definition mn_lo (p : page) (a : Z) : res Z := rd16 p a.
Definition mn_hi (p : page) (a : Z) : res Z := rd16 p (a + 2).
Definition mn_flags (p : page) (a : Z) : res Z := rd16 p (a + 4).
Definition mn_ksize (p : page) (a : Z) : res Z := rd16 p (a + 6).

Definition NODEPTR (p : page) (i : Z) : res Z := MP_PTRS p i.
Definition NODEKEY (a : Z) : Z := a + NODESIZE.
Definition NODEDATA (p : page) (a : Z) : res Z := k ← mn_ksize p a; Ok (a + NODESIZE + k).
Definition NODEDSZ (p : page) (a : Z) : res Z :=
  lo ← mn_lo p a; hi ← mn_hi p a; Ok (Z.lor lo (Z.shiftl hi 16)).
Definition NODEPGNO (p : page) (a : Z) : res Z :=
  lo ← mn_lo p a; hi ← mn_hi p a; fl ← mn_flags p a;
  Ok (Z.lor (Z.lor lo (Z.shiftl hi 16)) (Z.shiftl fl 32)).
Definition SETDSZ (p : page) (a size : Z) : res page :=
  p ← wr16 p a (Z.land size 65535); wr16 p (a + 2) (Z.shiftr size 16).
Definition SETPGNO (p : page) (a pgno : Z) : res page :=
  p ← wr16 p a (Z.land pgno 65535);
  p ← wr16 p (a + 2) (Z.shiftr pgno 16);
  wr16 p (a + 4) (Z.shiftr pgno 32).

Definition LEAF2KEY (i ks : Z) : Z := PAGEHDRSZ + i * ks.

(** A key or a datum: its size and the bytes it points at (more than the size for a
    datum on an overflow page: there it points at a page number). *)
Record MDB_val : Type := MkVal { mv_size : Z; mv_data : list Z }.

Definition val_bytes (v : MDB_val) (n : Z) : res (list Z) := mread (mv_data v) 0 n.

(** ** Comparisons *)

(** [memcmp]: the sign of the first difference. *)
Fixpoint memcmp (a b : list Z) : Z :=
  match a, b with
  | x :: a, y :: b => if x =? y then memcmp a b else Z.sgn (x - y)
  | _, _ => 0
  end.

Definition cmp_num (n : Z) (a b : MDB_val) : res Z :=
  x ← val_bytes a n; y ← val_bytes b n;
  Ok (if le x <? le y then -1 else if le y <? le x then 1 else 0).

Definition mdb_cmp_long (a b : MDB_val) : res Z := cmp_num 8 a b.
Definition mdb_cmp_int (a b : MDB_val) : res Z := cmp_num 4 a b.

(** [u] and [c] move down from [off], in both items. *)
Fixpoint cint_loop (fuel : nat) (a b : MDB_val) (off : Z) : res Z :=
  match fuel with
  | O => NoFuel
  | S fuel =>
      let off := off - 2 in
      u ← rd16 (mv_data a) off; c ← rd16 (mv_data b) off;
      if ((u - c =? 0) && (0 <? off))%bool then cint_loop fuel a b off else Ok (u - c)
  end.

Definition mdb_cmp_cint (fuel : nat) (a b : MDB_val) : res Z := cint_loop fuel a b (mv_size a).

Definition len_diff_result (d : Z) : Z := if d <? 0 then -1 else d.

Definition mdb_cmp_memn (a b : MDB_val) : res Z :=
  let len := u32 (mv_size a) in
  let len_diff := mv_size a - mv_size b in
  let '(len, len_diff) := if 0 <? len_diff then (u32 (mv_size b), 1) else (len, len_diff) in
  x ← val_bytes a len; y ← val_bytes b len;
  let diff := memcmp x y in
  Ok (if negb (diff =? 0) then diff else len_diff_result len_diff).

(** [n] bytes are left between [p1] and [p1_lim]. *)
Fixpoint memnr_loop (n : nat) (a b : list Z) (p1 p2 : Z) : res Z :=
  match n with
  | O => Ok 0
  | S n =>
      x ← mread a (p1 - 1) 1; y ← mread b (p2 - 1) 1;
      let diff := le x - le y in
      if negb (diff =? 0) then Ok diff else memnr_loop n a b (p1 - 1) (p2 - 1)
  end.

Definition mdb_cmp_memnr (a b : MDB_val) : res Z :=
  let len_diff := mv_size a - mv_size b in
  let '(lim, len_diff) := if 0 <? len_diff then (len_diff, 1) else (0, len_diff) in
  diff ← memnr_loop (Z.to_nat (mv_size a - lim)) (mv_data a) (mv_data b) (mv_size a) (mv_size b);
  Ok (if negb (diff =? 0) then diff else len_diff_result len_diff).

(** [md_cmp]: one of the above, or the user's function. *)
Inductive MDB_cmp_func : Type :=
| Cmp_long | Cmp_int | Cmp_cint | Cmp_memn | Cmp_memnr
| Cmp_user (f : MDB_val → MDB_val → res Z).

Definition run_cmp (c : MDB_cmp_func) (a b : MDB_val) : res Z :=
  match c with
  | Cmp_long => mdb_cmp_long a b
  | Cmp_int => mdb_cmp_int a b
  | Cmp_cint => mdb_cmp_cint (S (Z.to_nat (mv_size a))) a b
  | Cmp_memn => mdb_cmp_memn a b
  | Cmp_memnr => mdb_cmp_memnr a b
  | Cmp_user f => f a b
  end.

(** ** Searching a page *)

(** The loop of both branches: [f] compares the key with the entry [i]. *)
Fixpoint node_loop (fuel : nat) (f : Z → res Z) (low high i rc : Z) : res (Z * Z) :=
  match fuel with
  | O => NoFuel
  | S fuel =>
      if low <=? high then
        let i := Z.shiftr (low + high) 1 in
        rc ← f i;
        if rc =? 0 then Ok (i, rc)
        else if 0 <? rc then node_loop fuel f (i + 1) high i rc
        else node_loop fuel f low (i - 1) i rc
      else Ok (i, rc)
  end.

Definition node_key (p : page) (i : Z) : res MDB_val :=
  a ← NODEPTR p i; k ← mn_ksize p a; bs ← mread p (NODEKEY a) k; Ok (MkVal k bs).

Definition leaf2_key (p : page) (ks i : Z) : res MDB_val :=
  bs ← mread p (LEAF2KEY i ks) ks; Ok (MkVal ks bs).

(** The comparison a search uses: integer keys are aligned in branch pages. *)
Definition search_cmp (p : page) (cmp : MDB_cmp_func) : res MDB_cmp_func :=
  match cmp with
  | Cmp_cint =>
      br ← IS_BRANCH p;
      if br : bool then a ← NODEPTR p 1; k ← mn_ksize p a; Ok (if k =? 8 then Cmp_long else Cmp_int)
      else Ok cmp
  | _ => Ok cmp
  end.

(** Returns whether the node returned is not NULL (the loop was entered, and an
    entry is not less than the key), [exactp] and the index left in the cursor. *)
Definition mdb_node_search (fuel : nat) (p : page) (md_pad : Z) (cmp : MDB_cmp_func) (key : MDB_val)
  : res (bool * bool * Z) :=
  nkeys ← NUMKEYS p;
  leaf ← IS_LEAF p;
  leaf2 ← IS_LEAF2 p;
  let low := if leaf : bool then 0 else 1 in
  cmp ← search_cmp p cmp;
  '(i, rc) ← node_loop fuel
    (λ i, nodekey ← (if leaf2 : bool then leaf2_key p md_pad i else node_key p i);
          run_cmp cmp key nodekey) low (nkeys - 1) 0 0;
  let i := if 0 <? rc then i + 1 else i in
  let node := (leaf2 || (low <=? nkeys - 1))%bool in
  Ok ((node && (i <? nkeys))%bool, ((rc =? 0) && (0 <? nkeys))%bool, i).

(** ** Sizes *)

Definition INDXSIZE (key : option MDB_val) : Z :=
  NODESIZE + match key with None => 0 | Some k => mv_size k end.
Definition LEAFSIZE (key data : MDB_val) : Z := NODESIZE + mv_size key + mv_size data.
Definition OVPAGES (size psize : Z) : Z := (PAGEHDRSZ - 1 + size) / psize + 1.

Definition mdb_leaf_size (nodemax : Z) (key data : MDB_val) : Z :=
  let sz := LEAFSIZE key data in
  let sz := if nodemax <? sz then sz - (mv_size data - 8) else sz in
  EVEN (sz + 2).

Definition mdb_branch_size (key : option MDB_val) : Z := INDXSIZE key + 2.

(** ** Adding a node *)

(** [for (i = NUMKEYS(mp); i > indx; i--) MP_PTRS(mp)[i] = MP_PTRS(mp)[i - 1];] for the
    [k] pointers from [indx] on. *)
Fixpoint ptrs_up (k : nat) (p : page) (indx : Z) : res page :=
  match k with
  | O => Ok p
  | S k' =>
      x ← MP_PTRS p (indx + Z.of_nat k - 1);
      p ← set_MP_PTRS p (indx + Z.of_nat k) x;
      ptrs_up k' p indx
  end.

(** What the addition of a node leaves: the return code (the transaction is marked
    with MDB_TXN_ERROR exactly when it is not 0), the page, the overflow
    page it allocated with its number, and for MDB_RESERVE the offset that the
    datum points to (in the overflow page, if there is one). *)
Record Added : Type := MkAdded {
  a_rc : Z; a_page : page; a_ofp : option (Z * page); a_ndata : option Z }.

(** The branch of pages without node headers. *)
Definition add_leaf2 (p : page) (md_pad indx : Z) (key : MDB_val) : res page :=
  let ptr := LEAF2KEY indx md_pad in
  nkeys ← NUMKEYS p;
  let dif := nkeys - indx in
  p ← (if 0 <? dif then mmove p (ptr + md_pad) ptr (dif * md_pad) else Ok p);
  bs ← val_bytes key md_pad;
  p ← mwrite p ptr bs;
  l ← MP_LOWER p; p ← set_MP_LOWER p (l + 2);
  u ← MP_UPPER p; set_MP_UPPER p (u - (md_pad - 2)).

(** The size of the node and the place of its datum: [None] is [goto full]; otherwise the node's size, the flags and
    the overflow page.  [alloc n] is what [mdb_page_new] gives for [n] overflow
    pages: an error code, or a number and a page. *)
Definition add_place (p : page) (nodemax psize : Z) (alloc : Z → Z + Z * page)
    (key data : option MDB_val) (flags : Z) : res (option (Z + Z * Z * option (Z * page))) :=
  left ← SIZELEFT p;
  let room := left - 2 in
  let node_size := INDXSIZE key in
  leaf ← IS_LEAF p;
  if leaf : bool then
    match key, data with
    | Some _, Some d =>
        if F_ISSET flags F_BIGDATA then
          let node_size := EVEN (node_size + 8) in
          Ok (if room <? node_size then None else Some (inr (node_size, flags, None)))
        else if nodemax <? node_size + mv_size d then
          let node_size := EVEN (node_size + 8) in
          if room <? node_size then Ok None
          else match alloc (OVPAGES (mv_size d) psize) with
               | inl rc => Ok (Some (inl rc))
               | inr ofp => Ok (Some (inr (node_size, Z.lor flags F_BIGDATA, Some ofp)))
               end
        else
          let node_size := EVEN (node_size + mv_size d) in
          Ok (if room <? node_size then None else Some (inr (node_size, flags, None)))
    | _, _ => AssertFail
    end
  else
    let node_size := EVEN node_size in
    Ok (if room <? node_size then None else Some (inr (node_size, flags, None))).

(** The pointers and the free space; returns the offset of the node. *)
Definition add_pointer (p : page) (indx node_size : Z) : res (page * Z) :=
  nkeys ← NUMKEYS p;
  p ← ptrs_up (Z.to_nat (nkeys - indx)) p indx;
  u ← MP_UPPER p;
  let ofs := u16 (u - node_size) in
  l ← MP_LOWER p;
  c_assert (l + 2 <=? ofs);;
  p ← set_MP_PTRS p indx ofs;
  p ← set_MP_UPPER p ofs;
  p ← set_MP_LOWER p (l + 2);
  Ok (p, ofs).

(** The header of the node and its key. *)
Definition add_header (p : page) (a : Z) (key data : option MDB_val) (pgno flags : Z) : res page :=
  p ← wr16 p (a + 6) (match key with None => 0 | Some k => mv_size k end);
  p ← wr16 p (a + 4) flags;
  leaf ← IS_LEAF p;
  p ← (if leaf : bool then match data with Some d => SETDSZ p a (mv_size d) | None => UB end
       else SETPGNO p a pgno);
  match key with
  | Some k => bs ← val_bytes k (mv_size k); mwrite p (NODEKEY a) bs
  | None => Ok p
  end.

(** The datum, in the node or on the overflow page. *)
Definition add_data (p : page) (a : Z) (data : option MDB_val) (flags : Z) (ofp : option (Z * page))
    : res Added :=
  leaf ← IS_LEAF p;
  if leaf : bool then
    match data with
    | None => UB
    | Some d =>
        ndata ← NODEDATA p a;
        match ofp with
        | None =>
            if F_ISSET flags F_BIGDATA then
              bs ← val_bytes d 8; p ← mwrite p ndata bs; Ok (MkAdded 0 p None None)
            else if F_ISSET flags MDB_RESERVE then Ok (MkAdded 0 p None (Some ndata))
            else bs ← val_bytes d (mv_size d); p ← mwrite p ndata bs; Ok (MkAdded 0 p None None)
        | Some (pgno, op) =>
            bs ← mread op 0 8; p ← mwrite p ndata bs;
            if F_ISSET flags MDB_RESERVE then Ok (MkAdded 0 p (Some (pgno, op)) (Some PAGEHDRSZ))
            else bs ← val_bytes d (mv_size d); op ← mwrite op PAGEHDRSZ bs;
                 Ok (MkAdded 0 p (Some (pgno, op)) None)
        end
    end
  else Ok (MkAdded 0 p None None).

Definition mdb_node_add (p : page) (nodemax psize md_pad : Z) (alloc : Z → Z + Z * page)
    (indx : Z) (key data : option MDB_val) (pgno flags : Z) : res Added :=
  u ← MP_UPPER p;
  l ← MP_LOWER p;
  c_assert (l <=? u);;
  leaf2 ← IS_LEAF2 p;
  if leaf2 : bool then
    match key with
    | Some k => p ← add_leaf2 p md_pad indx k; Ok (MkAdded 0 p None None)
    | None => UB
    end
  else
    place ← add_place p nodemax psize alloc key data flags;
    match place with
    | None => Ok (MkAdded MDB_PAGE_FULL p None None)
    | Some (inl rc) => Ok (MkAdded rc p None None)
    | Some (inr (node_size, flags, ofp)) =>
        '(p, ofs) ← add_pointer p indx node_size;
        p ← add_header p ofs key data pgno flags;
        add_data p ofs data flags ofp
    end.

(** ** Deleting a node *)

Definition del_leaf2 (p : page) (ksize indx numkeys : Z) : res page :=
  let x := numkeys - 1 - indx in
  let base := LEAF2KEY indx ksize in
  p ← (if x =? 0 then Ok p else mmove p base (base + ksize) (x * ksize));
  l ← MP_LOWER p; p ← set_MP_LOWER p (l - 2);
  u ← MP_UPPER p; set_MP_UPPER p (u + (ksize - 2)).

(** The size of a node, as the deletion computes it. *)
Definition node_size_at (p : page) (a : Z) : res Z :=
  k ← mn_ksize p a;
  let sz := NODESIZE + k in
  leaf ← IS_LEAF p;
  if leaf : bool then
    fl ← mn_flags p a;
    if F_ISSET fl F_BIGDATA then Ok (EVEN (sz + 8))
    else d ← NODEDSZ p a; Ok (EVEN (sz + d))
  else Ok (EVEN sz).

(** The loop over the pointers in the deletion, for the [n] pointers from [i] on. *)
Fixpoint ptrs_del (n : nat) (p : page) (i j indx ptr sz : Z) : res page :=
  match n with
  | O => Ok p
  | S n =>
      if i =? indx then ptrs_del n p (i + 1) j indx ptr sz
      else
        x ← MP_PTRS p i; p ← set_MP_PTRS p j x;
        x ← MP_PTRS p i;
        p ← (if x <? ptr then y ← MP_PTRS p j; set_MP_PTRS p j (y + sz) else Ok p);
        ptrs_del n p (i + 1) (j + 1) indx ptr sz
  end.

Definition mdb_node_del (p : page) (indx ksize : Z) : res page :=
  numkeys ← NUMKEYS p;
  c_assert (indx <? numkeys);;
  leaf2 ← IS_LEAF2 p;
  if leaf2 : bool then del_leaf2 p ksize indx numkeys
  else
    a ← NODEPTR p indx;
    sz ← node_size_at p a;
    ptr ← MP_PTRS p indx;
    p ← ptrs_del (Z.to_nat numkeys) p 0 0 indx ptr sz;
    base ← MP_UPPER p;
    p ← mmove p (base + sz) base (ptr - base);
    l ← MP_LOWER p; p ← set_MP_LOWER p (l - 2);
    u ← MP_UPPER p; set_MP_UPPER p (u + sz).

(** ** Shrinking a node with a sub-page

    The sub-page [sp] is in the datum of the node; its fields are at their offsets in
    the main page. *)

(** [MP_PTRS(xp)[i] = MP_PTRS(sp)[i] - delta] for the [k] pointers of the sub-page. *)
Fixpoint sub_ptrs (k : nat) (p : page) (sp delta : Z) : res page :=
  match k with
  | O => Ok p
  | S k' =>
      x ← rd16 p (sp + PAGEHDRSZ + 2 * Z.of_nat k');
      p ← wr16 p (sp + delta + PAGEHDRSZ + 2 * Z.of_nat k') (x - delta);
      sub_ptrs k' p sp delta
  end.

(** The pointers of the nodes that move with the sub-page. *)
Fixpoint ptrs_shift (k : nat) (p : page) (ptr delta : Z) : res page :=
  match k with
  | O => Ok p
  | S k' =>
      x ← MP_PTRS p (Z.of_nat k');
      p ← (if x <=? ptr then set_MP_PTRS p (Z.of_nat k') (x + delta) else Ok p);
      ptrs_shift k' p ptr delta
  end.

Definition mdb_node_shrink (p : page) (indx : Z) : res page :=
  a ← NODEPTR p indx;
  sp ← NODEDATA p a;
  sup ← rd16 p (sp + 14); slo ← rd16 p (sp + 12); sfl ← rd16 p (sp + 10);
  let delta := u16 (sup - slo) in
  dsz ← NODEDSZ p a;
  let nsize := u16 (dsz - delta) in
  let leaf2 := F_ISSET sfl P_LEAF2 in
  if (leaf2 && Z.odd nsize)%bool then Ok p
  else
    p ← (if leaf2 then Ok p
         else sub_ptrs (Z.to_nat (Z.shiftr (u32 (slo - PAGEHDRSZ)) 1)) p sp delta);
    let len := if leaf2 then nsize else PAGEHDRSZ in
    lo ← rd16 p (sp + 12);
    p ← wr16 p (sp + 14) lo;
    pgno ← mread p 0 8;
    p ← mwrite p sp pgno;
    p ← SETDSZ p a nsize;
    base ← MP_UPPER p;
    p ← mmove p (base + delta) base (sp + len - base);
    ptr ← MP_PTRS p indx;
    nkeys ← NUMKEYS p;
    p ← ptrs_shift (Z.to_nat nkeys) p ptr delta;
    u ← MP_UPPER p;
    set_MP_UPPER p (u + delta).

(** ** Whole pages *)

(** [memcpy] of [n] bytes at the same offset of two pages. *)
Definition mcopy (dst src : page) (off n : Z) : res page :=
  bs ← mread src off n; mwrite dst off bs.

Definition mdb_page_copy (dst src : page) (psize : Z) : res page :=
  upper ← MP_UPPER src;
  lower ← MP_LOWER src;
  let unused := Z.land (u16 (upper - lower)) (-8) in
  leaf2 ← IS_LEAF2 src;
  if (negb (unused =? 0) && negb leaf2)%bool then
    let upper := Z.land upper (-8) in
    dst ← mcopy dst src 0 (Z.land (lower + 7) (-8));
    mcopy dst src upper (psize - upper)
  else mcopy dst src 0 (psize - unused).

(** The record of a database. *)
Record MDB_db : Type := MkDb {
  md_pad : Z; md_flags : Z; md_depth : Z; md_branch_pages : Z; md_leaf_pages : Z;
  md_overflow_pages : Z; md_entries : Z; md_root : Z }.

(** [db] with other page counters. *)
Definition set_pages (db : MDB_db) (branch leaf overflow : Z) : MDB_db :=
  MkDb (md_pad db) (md_flags db) (md_depth db) branch leaf overflow (md_entries db)
    (md_root db).

Definition count_page (db : MDB_db) (flags num : Z) : MDB_db :=
  let '(b, l, o) := (md_branch_pages db, md_leaf_pages db, md_overflow_pages db) in
  if F_ISSET flags P_BRANCH then set_pages db (u64 (b + 1)) l o
  else if F_ISSET flags P_LEAF then set_pages db b (u64 (l + 1)) o
  else if F_ISSET flags P_OVERFLOW then set_pages db b l (u64 (o + num))
  else db.

(** [alloc] is what [mdb_page_alloc] gives: an error code, or a page. *)
Definition mdb_page_new (alloc : Z → Z + page) (psize : Z) (db : MDB_db) (flags num : Z)
    : res (Z * MDB_db * option page) :=
  match alloc num with
  | inl rc => Ok (rc, db, None)
  | inr np =>
      np ← wr16 np 10 (Z.lor flags P_DIRTY);
      np ← set_MP_LOWER np PAGEHDRSZ;
      np ← set_MP_UPPER np psize;
      fl ← MP_FLAGS np;
      np ← (if (negb (F_ISSET fl P_BRANCH) && negb (F_ISSET fl P_LEAF) && F_ISSET fl P_OVERFLOW)%bool
            then np ← wr16 np 12 num; wr16 np 14 (Z.shiftr num 16) else Ok np);
      Ok (0, count_page db fl num, Some np)
  end.
