(* ===== verification/PageProps.v ===== *)
(** * LMDB pages: theorems

    A page of Page.v described by the list of its nodes: the pointer array holds
    the address of each node in index order, and the nodes fill the end of the page
    without holes.  Adding and deleting a node keep this shape and change the
    list of nodes as the code means to; the search finds the place of a key. *)

From S2P Require Import Prelude.
From S2P Require Import Page.

(** ** Memory *)

Lemma mread_at p l1 m l2 off n :
  p = l1 ++ m ++ l2 → off = Z.of_nat (length l1) → n = Z.of_nat (length m) → mread p off n = Ok m.
Proof.
  intros -> -> ->. unfold mread.
  rewrite !(proj2 (Z.leb_le _ _)) by (rewrite ?length_app; lia). cbn [andb].
  by rewrite !Nat2Z.id, drop_app_length, take_app_length.
Qed.

Lemma mwrite_at p l1 m l2 off bs :
  p = l1 ++ m ++ l2 → off = Z.of_nat (length l1) → length bs = length m →
  mwrite p off bs = Ok (l1 ++ bs ++ l2).
Proof.
  intros -> -> Hl. unfold mwrite.
  rewrite !(proj2 (Z.leb_le _ _)) by (rewrite ?length_app; lia). cbn [andb].
  rewrite Nat2Z.id, take_app_length. do 3 f_equal.
  rewrite Hl, (assoc_L (++)), <-length_app. apply drop_app_length.
Qed.

Lemma length_le16 z : length (le16 z) = 2%nat.
Proof. done. Qed.

Lemma le_le16 z : 0 ≤ z < 65536 → le (le16 z) = z.
Proof.
  intros Hz. cbn. rewrite (Z.mod_small (z / 256)).
  - pose proof (Z.div_mod z 256). lia.
  - split; [apply Z.div_pos; lia|apply Z.div_lt_upper_bound; lia].
Qed.

Lemma rd16_at p l1 z l2 off :
  p = l1 ++ le16 z ++ l2 → off = Z.of_nat (length l1) → 0 ≤ z < 65536 → rd16 p off = Ok z.
Proof.
  intros Hp Ho Hz. unfold rd16. rewrite (mread_at p l1 (le16 z) l2) by done.
  cbn [mbind res_bind]. by rewrite le_le16.
Qed.

Lemma wr16_at p l1 m l2 off z :
  p = l1 ++ m ++ l2 → off = Z.of_nat (length l1) → length m = 2%nat →
  wr16 p off z = Ok (l1 ++ le16 z ++ l2).
Proof. intros Hp Ho Hm. by apply (mwrite_at p l1 m l2). Qed.

(** Writing what 16 bits keep of a number. *)
Lemma le16_u16 z : le16 (u16 z) = le16 z.
Proof.
  unfold le16, u16. change (2 ^ 16) with 65536.
  assert (Hz : z = z mod 65536 + (z / 65536 * 256) * 256) by (pose proof (Z.div_mod z 65536); lia).
  rewrite Hz at 3 4. by rewrite Z.mod_add, Z.div_add, Z.mod_add by lia.
Qed.

(** Solves the side conditions: a page is a concatenation, an offset is a length. *)
Ltac app_eq := cbn [app]; rewrite <-?(assoc_L (++)); cbn [app]; rewrite <-?(assoc_L (++)); done.
Ltac len := rewrite ?length_app; cbn [length le16]; rewrite ?length_app; cbn [length le16]; lia.

(** ** The header *)

Record Head : Type := MkHead { h_pre : list Z; h_flags : Z; h_lower : Z; h_upper : Z }.

Definition head_bytes (h : Head) : list Z :=
  h_pre h ++ le16 (h_flags h) ++ le16 (h_lower h) ++ le16 (h_upper h).

Definition u16_ok (z : Z) : Prop := 0 ≤ z < 65536.

Record head_ok (h : Head) : Prop := HeadOk {
  ho_pre : length (h_pre h) = 10%nat; ho_flags : u16_ok (h_flags h);
  ho_lower : u16_ok (h_lower h); ho_upper : u16_ok (h_upper h) }.

Lemma length_head h : length (h_pre h) = 10%nat → length (head_bytes h) = 16%nat.
Proof. intros H. unfold head_bytes. len. Qed.

Lemma MP_FLAGS_at h l : head_ok h → MP_FLAGS (head_bytes h ++ l) = Ok (h_flags h).
Proof.
  intros [Hp ? ? ?]. unfold MP_FLAGS. eapply (rd16_at _ (h_pre h)); [unfold head_bytes; app_eq|lia|done].
Qed.

Lemma MP_LOWER_at h l : head_ok h → MP_LOWER (head_bytes h ++ l) = Ok (h_lower h).
Proof.
  intros [Hp ? ? ?]. unfold MP_LOWER.
  eapply (rd16_at _ (h_pre h ++ le16 (h_flags h))); [unfold head_bytes; app_eq|len|done].
Qed.

Lemma MP_UPPER_at h l : head_ok h → MP_UPPER (head_bytes h ++ l) = Ok (h_upper h).
Proof.
  intros [Hp ? ? ?]. unfold MP_UPPER.
  eapply (rd16_at _ (h_pre h ++ le16 (h_flags h) ++ le16 (h_lower h)));
    [unfold head_bytes; app_eq|len|done].
Qed.

Lemma set_MP_LOWER_at h l z :
  head_ok h → set_MP_LOWER (head_bytes h ++ l) z
    = Ok (head_bytes (MkHead (h_pre h) (h_flags h) z (h_upper h)) ++ l).
Proof.
  intros [Hp ? ? ?]. unfold set_MP_LOWER.
  rewrite (wr16_at _ (h_pre h ++ le16 (h_flags h)) (le16 (h_lower h)) (le16 (h_upper h) ++ l));
    [unfold head_bytes; f_equal; app_eq|unfold head_bytes; app_eq|len|done].
Qed.

Lemma set_MP_UPPER_at h l z :
  head_ok h → set_MP_UPPER (head_bytes h ++ l) z
    = Ok (head_bytes (MkHead (h_pre h) (h_flags h) (h_lower h) z) ++ l).
Proof.
  intros [Hp ? ? ?]. unfold set_MP_UPPER.
  rewrite (wr16_at _ (h_pre h ++ le16 (h_flags h) ++ le16 (h_lower h)) (le16 (h_upper h)) l);
    [unfold head_bytes; f_equal; app_eq|unfold head_bytes; app_eq|len|done].
Qed.

Lemma IS_LEAF_at h l : head_ok h → IS_LEAF (head_bytes h ++ l) = Ok (F_ISSET (h_flags h) P_LEAF).
Proof. intros H. unfold IS_LEAF. by rewrite MP_FLAGS_at. Qed.

Lemma IS_LEAF2_at h l : head_ok h → IS_LEAF2 (head_bytes h ++ l) = Ok (F_ISSET (h_flags h) P_LEAF2).
Proof. intros H. unfold IS_LEAF2. by rewrite MP_FLAGS_at. Qed.

Lemma NUMKEYS_at h l n :
  head_ok h → h_lower h = 16 + 2 * n → 0 ≤ n → NUMKEYS (head_bytes h ++ l) = Ok n.
Proof.
  intros H Hl Hn. destruct (ho_lower h H). unfold NUMKEYS. rewrite MP_LOWER_at by done.
  cbn [mbind res_bind]. rewrite Hl, u32_small by (unfold PAGEHDRSZ in *; lia).
  rewrite Z.shiftr_div_pow2 by lia. f_equal. unfold PAGEHDRSZ.
  replace (16 + 2 * n - 16) with (n * 2) by lia. by apply Z.div_mul.
Qed.

(** ** The pointers *)

Definition ptr_bytes (xs : list Z) : list Z := concat (le16 <$> xs).

Lemma ptr_bytes_app xs ys : ptr_bytes (xs ++ ys) = ptr_bytes xs ++ ptr_bytes ys.
Proof. unfold ptr_bytes. by rewrite fmap_app, concat_app. Qed.

Lemma ptr_bytes_cons x xs : ptr_bytes (x :: xs) = le16 x ++ ptr_bytes xs.
Proof. done. Qed.

Lemma length_ptr_bytes xs : length (ptr_bytes xs) = (2 * length xs)%nat.
Proof. induction xs as [|x xs IH]; [done|]. rewrite ptr_bytes_cons, length_app, IH. cbn. lia. Qed.

Lemma MP_PTRS_at H xs x l i :
  length H = 16%nat → i = Z.of_nat (length xs) → u16_ok x →
  MP_PTRS (H ++ ptr_bytes xs ++ le16 x ++ l) i = Ok x.
Proof.
  intros HH -> Hx. unfold MP_PTRS. eapply (rd16_at _ (H ++ ptr_bytes xs)); [app_eq| |done].
  rewrite length_app, length_ptr_bytes. unfold PAGEHDRSZ. lia.
Qed.

Lemma set_MP_PTRS_at H xs m l i z :
  length H = 16%nat → i = Z.of_nat (length xs) → length m = 2%nat →
  set_MP_PTRS (H ++ ptr_bytes xs ++ m ++ l) i z = Ok (H ++ ptr_bytes xs ++ le16 z ++ l).
Proof.
  intros HH -> Hm. unfold set_MP_PTRS. rewrite (wr16_at _ (H ++ ptr_bytes xs) m l); [|app_eq| |done].
  - f_equal. app_eq.
  - rewrite length_app, length_ptr_bytes. unfold PAGEHDRSZ. lia.
Qed.

(** Moving the pointers behind [xs1] up by one. *)
Lemma ptrs_up_spec H xs1 xs2 m l :
  length H = 16%nat → length m = 2%nat → Forall u16_ok xs2 →
  ∃ m', length m' = 2%nat ∧
    ptrs_up (length xs2) (H ++ ptr_bytes xs1 ++ ptr_bytes xs2 ++ m ++ l) (Z.of_nat (length xs1))
    = Ok (H ++ ptr_bytes xs1 ++ m' ++ ptr_bytes xs2 ++ l).
Proof.
  intros HH. revert m l. induction xs2 as [|x xs2 IH] using rev_ind; intros m l Hm Hx; [by exists m|].
  apply Forall_app in Hx as [Hx2 Hx]. rewrite Forall_singleton in Hx.
  destruct (IH (le16 x) (le16 x ++ l)) as (m' & Hm' & E); [done|done|].
  exists m'. split; [done|]. rewrite length_app, Nat.add_1_r. cbn [ptrs_up].
  rewrite ptr_bytes_app, (assoc_L (++) (ptr_bytes xs1)), (assoc_L (++) (ptr_bytes xs1)), <-ptr_bytes_app.
  rewrite <-(assoc_L (++) (ptr_bytes (xs1 ++ xs2))).
  change (ptr_bytes [x]) with (le16 x).
  rewrite MP_PTRS_at by (done || rewrite ?length_app; lia). cbn [mbind res_bind].
  replace (H ++ ptr_bytes (xs1 ++ xs2) ++ le16 x ++ m ++ l)
    with (H ++ ptr_bytes (xs1 ++ xs2 ++ [x]) ++ m ++ l)
    by (rewrite !ptr_bytes_app; change (ptr_bytes [x]) with (le16 x); app_eq).
  rewrite set_MP_PTRS_at by (done || (rewrite !length_app; cbn; lia)). cbn [mbind res_bind].
  rewrite !ptr_bytes_app. change (ptr_bytes [x]) with (le16 x). rewrite <-!(assoc_L (++)).
  by rewrite E.
Qed.

(** What the deletion of a node of [sz] bytes at [ptr] does to a pointer. *)
Definition shifted (ptr sz x : Z) : Z := if x <? ptr then x + sz else x.

(** One round of the loop of the deletion, with [m] the slot to fill. *)
Lemma ptrs_del_behind H ys m xs l indx ptr sz :
  length H = 16%nat → length m = 2%nat → Forall u16_ok xs → indx ≤ Z.of_nat (length ys) →
  ∃ m', length m' = 2%nat ∧
    ptrs_del (length xs) (H ++ ptr_bytes ys ++ m ++ ptr_bytes xs ++ l)
      (Z.of_nat (length ys) + 1) (Z.of_nat (length ys)) indx ptr sz
    = Ok (H ++ ptr_bytes (ys ++ (shifted ptr sz <$> xs)) ++ m' ++ l).
Proof.
  intros HH. revert ys m. induction xs as [|x xs IH]; intros ys m Hm Hx Hi.
  { exists m. split; [done|]. by rewrite app_nil_r. }
  apply Forall_cons in Hx as [Hx Hxs].
  destruct (IH (ys ++ [shifted ptr sz x]) (le16 x)) as (m' & Hm' & E);
    [done|done|rewrite length_app; lia|].
  exists m'. split; [done|]. cbn [ptrs_del length]. rewrite (proj2 (Z.eqb_neq _ _)) by lia.
  rewrite ptr_bytes_cons.
  assert (Hrd : ∀ m0, length m0 = 2%nat →
    MP_PTRS (H ++ ptr_bytes ys ++ m0 ++ (le16 x ++ ptr_bytes xs) ++ l) (Z.of_nat (length ys) + 1) = Ok x).
  { intros m0 Hm0. unfold MP_PTRS. eapply (rd16_at _ (H ++ ptr_bytes ys ++ m0)); [app_eq| |done].
    rewrite !length_app, length_ptr_bytes. unfold PAGEHDRSZ. lia. }
  rewrite Hrd by done. cbn [mbind res_bind].
  rewrite set_MP_PTRS_at by done. cbn [mbind res_bind].
  rewrite Hrd by done. cbn [mbind res_bind].
  assert (Hfin : (if x <? ptr
     then y ← MP_PTRS (H ++ ptr_bytes ys ++ le16 x ++ (le16 x ++ ptr_bytes xs) ++ l) (Z.of_nat (length ys));
          set_MP_PTRS (H ++ ptr_bytes ys ++ le16 x ++ (le16 x ++ ptr_bytes xs) ++ l)
            (Z.of_nat (length ys)) (y + sz)
     else Ok (A := page) (H ++ ptr_bytes ys ++ le16 x ++ (le16 x ++ ptr_bytes xs) ++ l))
    = Ok (A := page) (H ++ ptr_bytes (ys ++ [shifted ptr sz x]) ++ le16 x ++ ptr_bytes xs ++ l)).
  { unfold shifted. case_bool.
    - rewrite MP_PTRS_at by done. cbn [mbind res_bind]. rewrite set_MP_PTRS_at by done.
      rewrite ptr_bytes_app, ptr_bytes_cons. f_equal. cbn [ptr_bytes fmap list_fmap concat]. app_eq.
    - rewrite ptr_bytes_app, ptr_bytes_cons. f_equal. cbn [ptr_bytes fmap list_fmap concat]. app_eq. }
  rewrite Hfin. cbn [mbind res_bind]. rewrite length_app in E. cbn [length] in E.
  rewrite Nat2Z.inj_add in E. change (Z.of_nat 1) with 1 in E. rewrite E.
  by rewrite <-(assoc_L (++)).
Qed.

(** The loop of the deletion: the pointer of the node goes, the others move with
    their nodes. *)
Lemma ptrs_del_spec H ys xs1 z xs2 l ptr sz :
  length H = 16%nat → Forall u16_ok xs1 → Forall u16_ok xs2 →
  ∃ m', length m' = 2%nat ∧
    ptrs_del (length xs1 + S (length xs2))
      (H ++ ptr_bytes ys ++ ptr_bytes (xs1 ++ z :: xs2) ++ l)
      (Z.of_nat (length ys)) (Z.of_nat (length ys)) (Z.of_nat (length ys + length xs1)) ptr sz
    = Ok (H ++ ptr_bytes (ys ++ (shifted ptr sz <$> xs1 ++ xs2)) ++ m' ++ l).
Proof.
  intros HH. revert ys. induction xs1 as [|x xs1 IH]; intros ys H1 H2.
  { destruct (ptrs_del_behind H ys (le16 z) xs2 l (Z.of_nat (length ys)) ptr sz)
      as (m' & Hm' & E); [done|done|done|lia|].
    exists m'. split; [done|]. cbn [length Nat.add ptrs_del app].
    rewrite Nat.add_0_r, Z.eqb_refl, ptr_bytes_cons, <-(assoc_L (++)). exact E. }
  apply Forall_cons in H1 as [Hx H1].
  destruct (IH (ys ++ [shifted ptr sz x])) as (m' & Hm' & E); [done|done|].
  exists m'. split; [done|]. cbn [length Nat.add ptrs_del].
  rewrite (proj2 (Z.eqb_neq _ _)) by lia. rewrite <-app_comm_cons, ptr_bytes_cons.
  rewrite <-(assoc_L (++) (le16 x)).
  rewrite MP_PTRS_at by done. cbn [mbind res_bind].
  rewrite set_MP_PTRS_at by done. cbn [mbind res_bind].
  rewrite MP_PTRS_at by done. cbn [mbind res_bind].
  assert (Hfin : (if x <? ptr
     then set_MP_PTRS (H ++ ptr_bytes ys ++ le16 x ++ ptr_bytes (xs1 ++ z :: xs2) ++ l)
            (Z.of_nat (length ys)) (x + sz)
     else Ok (A := page) (H ++ ptr_bytes ys ++ le16 x ++ ptr_bytes (xs1 ++ z :: xs2) ++ l))
    = Ok (A := page) (H ++ ptr_bytes (ys ++ [shifted ptr sz x]) ++ ptr_bytes (xs1 ++ z :: xs2) ++ l)).
  { unfold shifted. case_bool.
    - rewrite set_MP_PTRS_at by done.
      by rewrite (ptr_bytes_app ys), <-(assoc_L (++) (ptr_bytes ys)).
    - by rewrite (ptr_bytes_app ys), <-(assoc_L (++) (ptr_bytes ys)). }
  rewrite Hfin. cbn [mbind res_bind]. rewrite length_app in E. cbn [length] in E.
  replace (Z.of_nat (length ys) + 1) with (Z.of_nat (length ys + 1)) by lia.
  replace (length ys + S (length xs1))%nat with (length ys + 1 + length xs1)%nat by lia.
  rewrite E. by rewrite <-(assoc_L (++) ys).
Qed.

(** ** Nodes *)

Record node : Type := Node { n_lo : Z; n_hi : Z; n_flags : Z; n_ksize : Z; n_data : list Z }.

Definition node_bytes (n : node) : list Z :=
  le16 (n_lo n) ++ le16 (n_hi n) ++ le16 (n_flags n) ++ le16 (n_ksize n) ++ n_data n.

Definition n_dsz (n : node) : Z := Z.lor (n_lo n) (Z.shiftl (n_hi n) 16).
Definition n_key (n : node) : list Z := take (Z.to_nat (n_ksize n)) (n_data n).

(** The size of a node: its header, its key and, on a leaf, its datum or the number of
    an overflow page, rounded up. *)
Definition node_size (leaf : bool) (n : node) : Z :=
  EVEN (NODESIZE + n_ksize n +
        if leaf then (if F_ISSET (n_flags n) F_BIGDATA then 8 else n_dsz n) else 0).

Record node_ok (leaf : bool) (n : node) : Prop := NodeOk {
  no_lo : u16_ok (n_lo n); no_hi : u16_ok (n_hi n); no_flags : u16_ok (n_flags n);
  no_ksize : u16_ok (n_ksize n);
  no_size : Z.of_nat (length (node_bytes n)) = node_size leaf n }.

(** The nodes from the address [u] on, with their addresses. *)
Fixpoint layout (u : Z) (lay : list node) : list (Z * node) :=
  match lay with
  | [] => []
  | n :: lay => (u, n) :: layout (u + Z.of_nat (length (node_bytes n))) lay
  end.

Definition body (lay : list node) : list Z := concat (node_bytes <$> lay).

Lemma body_app l1 l2 : body (l1 ++ l2) = body l1 ++ body l2.
Proof. unfold body. by rewrite fmap_app, concat_app. Qed.

Lemma body_cons n l : body (n :: l) = node_bytes n ++ body l.
Proof. done. Qed.

Lemma layout_app u l1 l2 :
  layout u (l1 ++ l2) = layout u l1 ++ layout (u + Z.of_nat (length (body l1))) l2.
Proof.
  revert u. induction l1 as [|n l1 IH]; intros u; cbn [app layout].
  - change (length (body [])) with 0%nat. by rewrite Z.add_0_r.
  - rewrite IH, body_cons, length_app. do 3 f_equal. lia.
Qed.

Lemma length_layout u l : length (layout u l) = length l.
Proof. revert u. induction l; intros u; [done|]. cbn. by f_equal. Qed.

Lemma layout_snd u l : (layout u l).*2 = l.
Proof. revert u. induction l; intros u; [done|]. cbn. by f_equal. Qed.

Lemma elem_of_layout u l a n :
  (a, n) ∈ layout u l → ∃ l1 l2, l = l1 ++ n :: l2 ∧ a = u + Z.of_nat (length (body l1)).
Proof.
  revert u. induction l as [|n' l IH]; intros u H; [by apply not_elem_of_nil in H|].
  cbn [layout] in H. apply elem_of_cons in H as [[= -> ->]|H].
  - exists [], l. split; [done|]. cbn. lia.
  - destruct (IH _ H) as (l1 & l2 & -> & ->). exists (n' :: l1), l2. split; [done|].
    rewrite body_cons, length_app. lia.
Qed.

Lemma layout_bounds u l a n :
  (a, n) ∈ layout u l →
  u ≤ a ∧ a + Z.of_nat (length (node_bytes n)) ≤ u + Z.of_nat (length (body l)).
Proof.
  intros H. apply elem_of_layout in H as (l1 & l2 & -> & ->).
  rewrite body_app, body_cons, !length_app. lia.
Qed.

Lemma layout_shift u d l : (λ e, (e.1 + d, e.2)) <$> layout u l = layout (u + d) l.
Proof.
  revert u. induction l as [|n l IH]; intros u; [done|]. cbn. f_equal. rewrite IH. f_equal. lia.
Qed.

(** ** Pages that hold nodes *)

Definition page_bytes (h : Head) (es : list (Z * node)) (gap : list Z) (lay : list node) : page :=
  head_bytes h ++ ptr_bytes es.*1 ++ gap ++ body lay.

Record holds_with (leaf : bool) (h : Head) (es : list (Z * node)) (gap : list Z) (lay : list node)
  : Prop := Holds {
  hw_head : head_ok h;
  hw_leaf : F_ISSET (h_flags h) P_LEAF = leaf;
  hw_leaf2 : F_ISSET (h_flags h) P_LEAF2 = false;
  hw_lower : h_lower h = 16 + 2 * Z.of_nat (length es);
  hw_upper : h_upper h = h_lower h + Z.of_nat (length gap);
  hw_end : h_upper h + Z.of_nat (length (body lay)) < 65536;
  hw_nodes : Forall (node_ok leaf) lay;
  hw_es : es ≡ₚ layout (h_upper h) lay }.

(** The page [p] is a page of single nodes (a leaf, or a branch), and they are
    [ns] in index order. *)
Definition holds (leaf : bool) (p : page) (ns : list node) : Prop :=
  ∃ h es gap lay, holds_with leaf h es gap lay ∧ p = page_bytes h es gap lay ∧ es.*2 = ns.

Section holds.
  Context {leaf : bool} {h : Head} {es : list (Z * node)} {gap : list Z} {lay : list node}.
  Context (HW : holds_with leaf h es gap lay).

Lemma holds_ptrs_ok : Forall u16_ok es.*1.
Proof using HW.
  destruct HW as [Hh _ _ Hlo Hup Hend _ Hes]. apply Forall_forall. intros a Ha.
  apply list_elem_of_fmap in Ha as ([a' n] & -> & Hin). rewrite Hes in Hin.
  apply layout_bounds in Hin. destruct (ho_upper h Hh). unfold u16_ok. cbn. lia.
Qed.

Lemma holds_split i a n :
  es !! i = Some (a, n) → ∃ es1 es2 l1 l2, es = es1 ++ (a, n) :: es2 ∧ length es1 = i ∧
    lay = l1 ++ n :: l2 ∧ a = h_upper h + Z.of_nat (length (body l1)).
Proof using HW.
  intros Hi. pose proof (list_elem_of_lookup_2 _ _ _ Hi) as Hin.
  apply list_elem_of_split_length in Hi as (es1 & es2 & -> & Hl).
  rewrite (hw_es _ _ _ _ _ HW) in Hin. apply elem_of_layout in Hin as (l1 & l2 & -> & ->).
  by exists es1, es2, l1, l2.
Qed.

Lemma holds_head : length (head_bytes h) = 16%nat.
Proof using HW. apply length_head, ho_pre, (hw_head _ _ _ _ _ HW). Qed.

Lemma holds_MP_UPPER : MP_UPPER (page_bytes h es gap lay) = Ok (h_upper h).
Proof using HW. apply MP_UPPER_at, (hw_head _ _ _ _ _ HW). Qed.

Lemma holds_MP_LOWER : MP_LOWER (page_bytes h es gap lay) = Ok (h_lower h).
Proof using HW. apply MP_LOWER_at, (hw_head _ _ _ _ _ HW). Qed.

Lemma holds_IS_LEAF : IS_LEAF (page_bytes h es gap lay) = Ok leaf.
Proof using HW. rewrite <-(hw_leaf _ _ _ _ _ HW). apply IS_LEAF_at, (hw_head _ _ _ _ _ HW). Qed.

Lemma holds_IS_LEAF2 : IS_LEAF2 (page_bytes h es gap lay) = Ok false.
Proof using HW. rewrite <-(hw_leaf2 _ _ _ _ _ HW). apply IS_LEAF2_at, (hw_head _ _ _ _ _ HW). Qed.

Lemma holds_NUMKEYS : NUMKEYS (page_bytes h es gap lay) = Ok (Z.of_nat (length es)).
Proof using HW.
  destruct HW as [Hh _ _ Hlo _ _ _ _]. apply NUMKEYS_at; [done|done|lia].
Qed.

(** The part of the page before the bytes of the node at [a]. *)
Lemma holds_node i a n :
  es !! i = Some (a, n) → ∃ l1 l2,
    page_bytes h es gap lay = l1 ++ node_bytes n ++ l2 ∧ a = Z.of_nat (length l1) ∧ node_ok leaf n.
Proof using HW.
  intros Hi. destruct (holds_split i a n Hi) as (es1 & es2 & l1 & l2 & He & Hl & Hlay & ->).
  exists (head_bytes h ++ ptr_bytes es.*1 ++ gap ++ body l1), (body l2). split_and!.
  - unfold page_bytes. rewrite Hlay, body_app, body_cons. app_eq.
  - rewrite !length_app, holds_head, length_ptr_bytes, length_fmap.
    destruct HW as [_ _ _ Hlo Hup _ _ _]. lia.
  - eapply Forall_forall; [apply (hw_nodes _ _ _ _ _ HW)|]. rewrite Hlay. set_solver.
Qed.

Lemma holds_NODEPTR i a n :
  es !! i = Some (a, n) → NODEPTR (page_bytes h es gap lay) (Z.of_nat i) = Ok a.
Proof using HW.
  intros Hi. pose proof holds_ptrs_ok as Hok. pose proof holds_head as Hhd.
  apply list_elem_of_split_length in Hi as (es1 & es2 & -> & Hl).
  unfold NODEPTR, page_bytes. rewrite fmap_app, ptr_bytes_app, fmap_cons, ptr_bytes_cons.
  rewrite fmap_app, Forall_app, fmap_cons, Forall_cons in Hok.
  rewrite <-!(assoc_L (++)). apply MP_PTRS_at; [done|by rewrite length_fmap, Hl|tauto].
Qed.

End holds.

(** Reading the header of a node. *)
Section read_node.
  Context {leaf : bool} {p : page} {l1 l2 : list Z} {n : node} {a : Z}.
  Context (Hp : p = l1 ++ node_bytes n ++ l2) (Ha : a = Z.of_nat (length l1)) (Hn : node_ok leaf n).

Lemma mn_lo_at : mn_lo p a = Ok (n_lo n).
Proof using All.
  destruct Hn. subst p. unfold mn_lo. eapply (rd16_at _ l1); [unfold node_bytes; app_eq|done|done].
Qed.

Lemma mn_hi_at : mn_hi p a = Ok (n_hi n).
Proof using All.
  destruct Hn. subst p. unfold mn_hi.
  eapply (rd16_at _ (l1 ++ le16 (n_lo n))); [unfold node_bytes; app_eq|len|done].
Qed.

Lemma mn_flags_at : mn_flags p a = Ok (n_flags n).
Proof using All.
  destruct Hn. subst p. unfold mn_flags.
  eapply (rd16_at _ (l1 ++ le16 (n_lo n) ++ le16 (n_hi n))); [unfold node_bytes; app_eq|len|done].
Qed.

Lemma mn_ksize_at : mn_ksize p a = Ok (n_ksize n).
Proof using All.
  destruct Hn. subst p. unfold mn_ksize.
  eapply (rd16_at _ (l1 ++ le16 (n_lo n) ++ le16 (n_hi n) ++ le16 (n_flags n)));
    [unfold node_bytes; app_eq|len|done].
Qed.

End read_node.

Lemma node_bytes_pos n : (0 < length (node_bytes n))%nat.
Proof. unfold node_bytes. len. Qed.

Lemma NODEDSZ_at leaf p l1 n l2 a :
  p = l1 ++ node_bytes n ++ l2 → a = Z.of_nat (length l1) → node_ok leaf n →
  NODEDSZ p a = Ok (n_dsz n).
Proof.
  intros Hp Ha Hn. unfold NODEDSZ. rewrite (mn_lo_at Hp Ha Hn). cbn [mbind res_bind].
  by rewrite (mn_hi_at Hp Ha Hn).
Qed.

Lemma node_size_at_spec leaf p h l l1 n l2 a :
  p = head_bytes h ++ l → head_ok h → F_ISSET (h_flags h) P_LEAF = leaf →
  p = l1 ++ node_bytes n ++ l2 → a = Z.of_nat (length l1) → node_ok leaf n →
  node_size_at p a = Ok (node_size leaf n).
Proof.
  intros Hh Hho Hl Hp Ha Hn. unfold node_size_at, node_size.
  rewrite (mn_ksize_at Hp Ha Hn). cbn [mbind res_bind].
  rewrite Hh at 1. rewrite IS_LEAF_at, Hl by done. cbn [mbind res_bind].
  destruct leaf; [|by rewrite Z.add_0_r].
  rewrite (mn_flags_at Hp Ha Hn). cbn [mbind res_bind].
  destruct (F_ISSET (n_flags n) F_BIGDATA); [reflexivity|]. by rewrite (NODEDSZ_at true p l1 n l2 a).
Qed.

(** Deleting a node from the layout moves the nodes below it up. *)
Lemma layout_delete u l1 n l2 es1 es2 :
  let a := u + Z.of_nat (length (body l1)) in
  let sz := Z.of_nat (length (node_bytes n)) in
  es1 ++ (a, n) :: es2 ≡ₚ layout u (l1 ++ n :: l2) →
  (λ e, (shifted a sz e.1, e.2)) <$> (es1 ++ es2) ≡ₚ layout (u + sz) (l1 ++ l2).
Proof.
  intros a sz H. rewrite layout_app in H. cbn [layout] in H. fold a sz in H.
  rewrite <-!Permutation_middle in H. apply Permutation_cons_inv in H.
  etransitivity; [apply fmap_Permutation, H|]. rewrite fmap_app, layout_app.
  replace (u + sz + Z.of_nat (length (body l1))) with (a + sz) by (unfold a; lia).
  apply Permutation_app; apply reflexive_eq.
  - rewrite <-layout_shift. apply list_fmap_ext. intros k [b m] Hk.
    apply list_elem_of_lookup_2, layout_bounds in Hk. pose proof (node_bytes_pos m).
    cbn. unfold shifted. rewrite (proj2 (Z.ltb_lt _ _)) by (unfold a; lia). done.
  - rewrite <-(list_fmap_id (layout (a + sz) l2)) at 2. apply list_fmap_ext. intros k [b m] Hk.
    apply list_elem_of_lookup_2, layout_bounds in Hk. pose proof (node_bytes_pos n).
    cbn. unfold shifted. rewrite (proj2 (Z.ltb_ge _ _)) by (unfold sz in *; lia). done.
Qed.

(** The removal of the bytes of a node: what is below it moves up. *)
Lemma mmove_body pre b1 nb b2 off :
  off = Z.of_nat (length pre) →
  mmove (pre ++ b1 ++ nb ++ b2) (off + Z.of_nat (length nb)) off (Z.of_nat (length b1))
  = Ok (pre ++ take (length nb) (b1 ++ nb) ++ b1 ++ b2).
Proof.
  intros ->. unfold mmove. rewrite (mread_at _ pre b1 (nb ++ b2)) by done. cbn [mbind res_bind].
  rewrite (mwrite_at _ (pre ++ take (length nb) (b1 ++ nb)) (drop (length nb) (b1 ++ nb)) b2).
  - f_equal. app_eq.
  - rewrite <-(assoc_L (++) pre), (assoc_L (++) (take _ _)), take_drop. app_eq.
  - rewrite length_app, length_take, length_app. lia.
  - rewrite length_drop, length_app. lia.
Qed.

Lemma node_del_result leaf h es1 a n es2 gap l1 l2 m :
  let es := es1 ++ (a, n) :: es2 in
  let sz := Z.of_nat (length (node_bytes n)) in
  a = h_upper h + Z.of_nat (length (body l1)) → length m = 2%nat →
  holds_with leaf h es gap (l1 ++ n :: l2) →
  holds_with leaf (MkHead (h_pre h) (h_flags h) (h_lower h - 2) (h_upper h + sz))
    ((λ e, (shifted a sz e.1, e.2)) <$> (es1 ++ es2))
    (m ++ gap ++ take (length (node_bytes n)) (body l1 ++ node_bytes n)) (l1 ++ l2).
Proof.
  intros es sz Ha Hm [Hh Hl Hl2 Hlo Hup Hend Hns Hes]. subst es sz.
  rewrite body_app, body_cons, !length_app in Hend. rewrite length_app in Hlo. cbn [length] in Hlo.
  assert (Hlow := ho_lower h Hh). unfold u16_ok in Hlow.
  split; cbn [h_pre h_flags h_lower h_upper]; try done.
  - split; cbn [h_pre h_flags h_lower h_upper]; try apply Hh; unfold u16_ok; lia.
  - rewrite length_fmap, length_app. lia.
  - rewrite !length_app, length_take, length_app. lia.
  - rewrite body_app, length_app. lia.
  - apply Forall_app in Hns as [H1 H2]. apply Forall_cons in H2 as [_ H2]. by apply Forall_app.
  - subst a. by apply layout_delete.
Qed.

Lemma node_del_holds leaf p ns i ksize :
  holds leaf p ns → (i < length ns)%nat →
  ∃ p', mdb_node_del p (Z.of_nat i) ksize = Ok p' ∧ holds leaf p' (delete i ns).
Proof.
  intros (h & es & gap & lay & HW & -> & <-) Hi. rewrite length_fmap in Hi.
  destruct (lookup_lt_is_Some_2 es i Hi) as [[a n] Hn].
  assert (HWh := HW). destruct HWh as [Hh Hl Hl2 Hlo Hup Hend Hns Hes].
  unfold mdb_node_del. rewrite (holds_NUMKEYS HW).
  cbn [mbind res_bind]. rewrite (proj2 (Z.ltb_lt _ _)) by lia. cbn [c_assert mbind res_bind].
  rewrite (holds_IS_LEAF2 HW). cbn [mbind res_bind].
  assert (Hptr := holds_NODEPTR HW i a n Hn). assert (Hok := holds_ptrs_ok HW).
  destruct (holds_node HW i a n Hn) as (q1 & q2 & Hq & Hqa & Hnok).
  rewrite Hptr. cbn [mbind res_bind].
  rewrite (node_size_at_spec leaf _ h (ptr_bytes es.*1 ++ gap ++ body lay) q1 n q2) by done.
  cbn [mbind res_bind]. unfold NODEPTR in Hptr. rewrite Hptr. cbn [mbind res_bind].
  rewrite <-(no_size leaf n Hnok).
  destruct (holds_split HW i a n Hn) as (es1 & es2 & l1 & l2 & -> & <- & -> & Ha).
  rewrite fmap_app, fmap_cons, Forall_app, Forall_cons in Hok. destruct Hok as (Hok1 & _ & Hok2).
  destruct (ptrs_del_spec (head_bytes h) [] es1.*1 a es2.*1 (gap ++ body (l1 ++ n :: l2)) a
    (Z.of_nat (length (node_bytes n)))) as (m & Hm & E);
    [exact (holds_head HW)|done|done|].
  rewrite !length_fmap in E. cbn [length Nat.add] in E.
  change (ptr_bytes [] ++ ?x) with x in E. change ([] ++ ?x) with x in E.
  unfold page_bytes. rewrite fmap_app, fmap_cons, Nat2Z.id, length_app. cbn [length fst].
  change (Z.of_nat 0) with 0 in E.
  rewrite E. cbn [mbind res_bind]. rewrite MP_UPPER_at by done. cbn [mbind res_bind].
  set (P := ptr_bytes (shifted a (Z.of_nat (length (node_bytes n))) <$> es1.*1 ++ es2.*1)).
  assert (HP : length P = (2 * (length es1 + length es2))%nat).
  { unfold P. by rewrite length_ptr_bytes, length_fmap, length_app, !length_fmap. }
  replace (head_bytes h ++ P ++ m ++ gap ++ body (l1 ++ n :: l2))
    with ((head_bytes h ++ P ++ m ++ gap) ++ body l1 ++ node_bytes n ++ body l2)
    by (rewrite body_app, body_cons; app_eq).
  replace (a - h_upper h) with (Z.of_nat (length (body l1))) by lia.
  rewrite mmove_body.
  2:{ rewrite !length_app, (holds_head HW), HP. rewrite length_app in Hlo. cbn [length] in Hlo. lia. }
  cbn [mbind res_bind]. rewrite <-(assoc_L (++) (head_bytes h)).
  rewrite MP_LOWER_at by done. cbn [mbind res_bind]. rewrite set_MP_LOWER_at by done.
  cbn [mbind res_bind].
  pose proof (node_del_result leaf h es1 a n es2 gap l1 l2 m Ha Hm HW) as HW'.
  assert (Hh1 : head_ok (MkHead (h_pre h) (h_flags h) (h_lower h - 2) (h_upper h))).
  { destruct (hw_head _ _ _ _ _ HW') as [? ? Hlo' _]. destruct Hh. by split. }
  rewrite MP_UPPER_at by done. cbn [mbind res_bind]. rewrite set_MP_UPPER_at by done.
  eexists. split; [reflexivity|]. eexists _, _, _, _. split; [exact HW'|]. split.
  - unfold page_bytes. cbn [h_pre h_flags h_lower h_upper].
    rewrite <-list_fmap_compose, !body_app.
    replace (ptr_bytes _) with P.
    { rewrite <-!(assoc_L (++)). done. }
    unfold P. by rewrite <-fmap_app, <-list_fmap_compose.
  - rewrite <-list_fmap_compose, fmap_app. cbn [fmap list_fmap snd].
    rewrite (fmap_app snd es1). cbn [fmap list_fmap snd].
    rewrite <-(length_fmap snd es1), delete_middle. done.
Qed.

(** C21.  [mdb_node_del] on a page of single nodes removes the node of the index and keeps
    the page well formed: the others keep their contents and their order. *)
Theorem node_del_removes leaf p ns i ksize :
  holds leaf p ns → (i < length ns)%nat →
  ∃ p', mdb_node_del p (Z.of_nat i) ksize = Ok p' ∧ holds leaf p' (delete i ns).
Proof. apply node_del_holds. Qed.

(** ** Adding a node *)

Lemma SIZELEFT_at leaf h es gap lay :
  holds_with leaf h es gap lay → SIZELEFT (page_bytes h es gap lay) = Ok (Z.of_nat (length gap)).
Proof.
  intros [Hh _ _ Hlo Hup Hend _ _]. unfold SIZELEFT, page_bytes.
  rewrite MP_UPPER_at by done. cbn [mbind res_bind]. rewrite MP_LOWER_at by done.
  cbn [mbind res_bind]. rewrite u16_small by lia. f_equal. lia.
Qed.

(** The gap gives two bytes to the pointers and [size] bytes to the node. *)
Lemma add_pointer_spec leaf h es gap lay i size :
  holds_with leaf h es gap lay → (i ≤ length es)%nat → 0 ≤ size → size + 2 ≤ Z.of_nat (length gap) →
  ∃ g r, length gap = (2 + length g + length r)%nat ∧ Z.of_nat (length r) = size ∧
    add_pointer (page_bytes h es gap lay) (Z.of_nat i) size
    = Ok (head_bytes (MkHead (h_pre h) (h_flags h) (h_lower h + 2) (h_upper h - size))
          ++ ptr_bytes (take i es.*1 ++ (h_upper h - size) :: drop i es.*1) ++ g ++ r ++ body lay,
          h_upper h - size).
Proof.
  intros HW Hi Hs Hroom. assert (HWh := HW). destruct HWh as [Hh _ _ Hlo Hup Hend _ _].
  assert (Hlow := ho_lower h Hh). unfold u16_ok in Hlow.
  set (m := take 2 gap). set (g := take (length gap - 2 - Z.to_nat size) (drop 2 gap)).
  set (r := drop (length gap - 2 - Z.to_nat size) (drop 2 gap)).
  assert (Hgap : gap = m ++ g ++ r) by (unfold m, g, r; by rewrite !take_drop).
  assert (Hm : length m = 2%nat) by (unfold m; rewrite length_take; lia).
  assert (Hr : Z.of_nat (length r) = size) by (unfold r; rewrite !length_drop; lia).
  assert (Hlen : length gap = (2 + length g + length r)%nat) by (rewrite Hgap, !length_app; lia).
  exists g, r. split; [done|]. split; [done|].
  unfold add_pointer, page_bytes. rewrite (NUMKEYS_at _ _ (Z.of_nat (length es))) by (done || lia).
  cbn [mbind res_bind].
  set (xs1 := take i es.*1). set (xs2 := drop i es.*1).
  assert (Hx1 : length xs1 = i) by (unfold xs1; rewrite length_take, length_fmap; lia).
  assert (Hx2 : Z.to_nat (Z.of_nat (length es) - Z.of_nat i) = length xs2)
    by (unfold xs2; rewrite length_drop, length_fmap; lia).
  assert (Hok2 : Forall u16_ok xs2) by (apply Forall_drop, (holds_ptrs_ok HW)).
  destruct (ptrs_up_spec (head_bytes h) xs1 xs2 m (g ++ r ++ body lay) (holds_head HW) Hm Hok2)
    as (m' & Hm' & E).
  rewrite Hx1 in E. rewrite Hx2, <-(take_drop i es.*1). fold xs1 xs2. rewrite ptr_bytes_app, Hgap.
  replace (head_bytes h ++ (ptr_bytes xs1 ++ ptr_bytes xs2) ++ (m ++ g ++ r) ++ body lay)
    with (head_bytes h ++ ptr_bytes xs1 ++ ptr_bytes xs2 ++ m ++ g ++ r ++ body lay) by app_eq.
  rewrite E. cbn [mbind res_bind]. rewrite MP_UPPER_at by done. cbn [mbind res_bind].
  rewrite u16_small by lia. rewrite MP_LOWER_at by done. cbn [mbind res_bind].
  rewrite (proj2 (Z.leb_le _ _)) by lia. cbn [c_assert mbind res_bind].
  rewrite set_MP_PTRS_at by (done || lia || apply (holds_head HW)). cbn [mbind res_bind].
  rewrite set_MP_UPPER_at by done. cbn [mbind res_bind].
  assert (Hh1 : head_ok (MkHead (h_pre h) (h_flags h) (h_lower h) (h_upper h - size)))
    by (destruct Hh; split; cbn; unfold u16_ok in *; (done || lia)).
  rewrite set_MP_LOWER_at by done. cbn [mbind res_bind h_pre h_flags h_lower h_upper].
  rewrite ptr_bytes_app, ptr_bytes_cons. do 2 f_equal. app_eq.
Qed.

Lemma drop_split {A} k n (l : list A) : drop k l = take n (drop k l) ++ drop (k + n) l.
Proof. by rewrite <-drop_drop, take_drop. Qed.

(** The bytes of the new node go where its pointer shows. *)
Lemma add_header_leaf h l pre r k rd post key d pgno flags :
  pre = head_bytes h ++ l → head_ok h → F_ISSET (h_flags h) P_LEAF = true →
  length r = (8 + length k + length rd)%nat → drop (8 + length k) r = rd →
  mv_size key = Z.of_nat (length k) → mv_data key = k →
  add_header (pre ++ r ++ post) (Z.of_nat (length pre)) (Some key) (Some d) pgno flags
  = Ok (pre ++ node_bytes (Node (u16 (Z.land (mv_size d) 65535)) (u16 (Z.shiftr (mv_size d) 16))
                             (u16 flags) (u16 (mv_size key)) (k ++ rd)) ++ post).
Proof.
  intros Hpre Hh Hl Hr Hrd Hks Hkd.
  set (r0 := take 2 r). set (r1 := take 2 (drop 2 r)). set (r2 := take 2 (drop 4 r)).
  set (r3 := take 2 (drop 6 r)). set (rk := take (length k) (drop 8 r)).
  assert (Hsplit : r = r0 ++ r1 ++ r2 ++ r3 ++ rk ++ rd).
  { rewrite <-Hrd. unfold r0, r1, r2, r3, rk.
    by rewrite <-(drop_split 8), <-(drop_split 6 2), <-(drop_split 4 2), <-(drop_split 2 2), take_drop. }
  assert (L0 : length r0 = 2%nat) by (unfold r0; rewrite length_take; lia).
  assert (L1 : length r1 = 2%nat) by (unfold r1; rewrite length_take, length_drop; lia).
  assert (L2 : length r2 = 2%nat) by (unfold r2; rewrite length_take, length_drop; lia).
  assert (L3 : length r3 = 2%nat) by (unfold r3; rewrite length_take, length_drop; lia).
  assert (Lk : length rk = length k) by (unfold rk; rewrite length_take, length_drop; lia).
  clearbody r0 r1 r2 r3 rk. subst r. unfold add_header.
  rewrite (wr16_at _ (pre ++ r0 ++ r1 ++ r2) r3 (rk ++ rd ++ post)) by (app_eq || len || done).
  cbn [mbind res_bind].
  rewrite (wr16_at _ (pre ++ r0 ++ r1) r2 (le16 (mv_size key) ++ rk ++ rd ++ post)) by (app_eq || len || done).
  cbn [mbind res_bind]. rewrite Hpre at 1. rewrite <-!(assoc_L (++)), IS_LEAF_at, Hl by done.
  cbn [mbind res_bind]. unfold SETDSZ.
  rewrite (wr16_at _ pre r0 (r1 ++ le16 flags ++ le16 (mv_size key) ++ rk ++ rd ++ post))
    by (app_eq || len || done).
  cbn [mbind res_bind].
  rewrite (wr16_at _ (pre ++ le16 (Z.land (mv_size d) 65535)) r1
    (le16 flags ++ le16 (mv_size key) ++ rk ++ rd ++ post)) by (app_eq || len || done).
  cbn [mbind res_bind]. unfold val_bytes.
  rewrite (mread_at _ [] k []) by (rewrite ?app_nil_r; done). cbn [mbind res_bind].
  unfold NODEKEY, NODESIZE.
  rewrite (mwrite_at _ (pre ++ le16 (Z.land (mv_size d) 65535) ++ le16 (Z.shiftr (mv_size d) 16)
    ++ le16 flags ++ le16 (mv_size key)) rk (rd ++ post)) by (app_eq || len || done).
  f_equal. unfold node_bytes. cbn [n_lo n_hi n_flags n_ksize n_data]. rewrite !le16_u16. app_eq.
Qed.

Lemma EVEN_spec n : EVEN n = 2 * ((n + 1) / 2).
Proof.
  unfold EVEN. change (-2) with (Z.lnot (Z.ones 1)). rewrite <-Z.ldiff_land, Z.ldiff_ones_r by lia.
  rewrite Z.shiftl_mul_pow2, Z.shiftr_div_pow2 by lia. change (2 ^ 1) with 2. lia.
Qed.

Lemma EVEN_bounds n : n ≤ EVEN n ≤ n + 1.
Proof.
  rewrite EVEN_spec. pose proof (Z.div_mod (n + 1) 2). pose proof (Z.mod_pos_bound (n + 1) 2). lia.
Qed.

Lemma EVEN_plus2 n : EVEN (n + 2) = EVEN n + 2.
Proof.
  rewrite !EVEN_spec. replace (n + 2 + 1) with (n + 1 + 1 * 2) by lia. rewrite Z.div_add by lia. lia.
Qed.

(** The halves of a size of 32 bits. *)
Lemma dsz_halves z :
  0 ≤ z < 2 ^ 32 → Z.lor (u16 (Z.land z 65535)) (Z.shiftl (u16 (Z.shiftr z 16)) 16) = z.
Proof.
  intros Hz. change 65535 with (Z.ones 16). rewrite Z.land_ones, Z.shiftr_div_pow2 by lia.
  assert (H1 : 0 ≤ z mod 2 ^ 16 < 2 ^ 16) by (apply Z.mod_pos_bound; lia).
  assert (H2 : 0 ≤ z / 2 ^ 16 < 2 ^ 16) by (split; [apply Z.div_pos; lia|apply Z.div_lt_upper_bound; lia]).
  unfold u16. rewrite (Z.mod_small (z mod 2 ^ 16)), (Z.mod_small (z / 2 ^ 16)) by done. rewrite Z.lor_comm.
  apply Z.bits_inj'. intros k Hk. rewrite Z.lor_spec.
  destruct (Z.lt_ge_cases k 16).
  - rewrite Z.shiftl_spec_low, Z.mod_pow2_bits_low by lia. done.
  - rewrite Z.shiftl_spec, Z.mod_pow2_bits_high, orb_false_r by lia.
    rewrite Z.div_pow2_bits by lia. f_equal. lia.
Qed.

(** The page after the addition of a node of the size of the hole. *)
Lemma holds_insert leaf h es gap lay i g new :
  holds_with leaf h es gap lay → (i ≤ length es)%nat → node_ok leaf new →
  length gap = (2 + length g + length (node_bytes new))%nat →
  let ofs := h_upper h - Z.of_nat (length (node_bytes new)) in
  holds leaf (head_bytes (MkHead (h_pre h) (h_flags h) (h_lower h + 2) ofs)
      ++ ptr_bytes (take i es.*1 ++ ofs :: drop i es.*1) ++ g ++ node_bytes new ++ body lay)
    (take i es.*2 ++ new :: drop i es.*2).
Proof.
  intros [Hh Hl Hl2 Hlo Hup Hend Hns Hes] Hi Hnew Hgap ofs.
  exists (MkHead (h_pre h) (h_flags h) (h_lower h + 2) ofs), (take i es ++ (ofs, new) :: drop i es),
    g, (new :: lay).
  assert (Hlow := ho_lower h Hh). unfold u16_ok in Hlow. split; [|split].
  - split; cbn [h_pre h_flags h_lower h_upper]; try done.
    + destruct Hh. split; cbn [h_pre h_flags h_lower h_upper]; try done; unfold u16_ok, ofs in *; lia.
    + rewrite length_app, length_take. cbn [length]. rewrite length_drop. lia.
    + unfold ofs. lia.
    + rewrite body_cons, length_app. unfold ofs. lia.
    + by constructor.
    + rewrite <-Permutation_middle, take_drop. cbn [layout]. constructor.
      replace (ofs + Z.of_nat (length (node_bytes new))) with (h_upper h) by (unfold ofs; lia). done.
  - unfold page_bytes. rewrite fmap_app, fmap_cons, fmap_take, fmap_drop, body_cons. done.
  - by rewrite fmap_app, fmap_cons, fmap_take, fmap_drop.
Qed.

(** The node of a leaf: [datum] is the datum, or the number of an overflow page. *)
Definition leaf_node (key : list Z) (dsz flags : Z) (datum pad : list Z) : node :=
  Node (u16 (Z.land dsz 65535)) (u16 (Z.shiftr dsz 16)) (u16 flags) (Z.of_nat (length key))
    (key ++ datum ++ pad).

Lemma leaf_node_ok key dsz flags datum pad :
  0 ≤ dsz < 2 ^ 32 → Z.of_nat (length key) < 65536 → 0 ≤ flags < 65536 →
  Z.of_nat (length datum) = (if F_ISSET flags F_BIGDATA then 8 else dsz) →
  Z.of_nat (8 + length key + length datum + length pad) = EVEN (8 + Z.of_nat (length key + length datum)) →
  node_ok true (leaf_node key dsz flags datum pad).
Proof.
  intros Hd Hk Hf Hl He. split; cbn [leaf_node n_lo n_hi n_flags n_ksize]; try apply u16_range.
  - unfold u16_ok. lia.
  - unfold node_size, n_dsz. cbn [leaf_node n_lo n_hi n_flags n_ksize].
    rewrite (u16_small flags) by lia. rewrite dsz_halves by done. rewrite <-Hl. unfold NODESIZE.
    replace (8 + Z.of_nat (length key) + Z.of_nat (length datum))
      with (8 + Z.of_nat (length key + length datum)) by lia.
    rewrite <-He. unfold node_bytes. cbn [leaf_node n_lo n_hi n_flags n_ksize n_data]. len.
Qed.

(** The datum goes behind the key; what is left of the hole is padding. *)
Lemma write_datum pre post k dsz flags datum rd :
  let n0 := Node (u16 (Z.land dsz 65535)) (u16 (Z.shiftr dsz 16)) (u16 flags)
              (u16 (Z.of_nat (length k))) (k ++ rd) in
  Z.of_nat (length k) < 65536 → (length datum ≤ length rd)%nat →
  mn_ksize (pre ++ node_bytes n0 ++ post) (Z.of_nat (length pre)) = Ok (Z.of_nat (length k)) ∧
  mwrite (pre ++ node_bytes n0 ++ post) (Z.of_nat (length pre) + NODESIZE + Z.of_nat (length k)) datum
  = Ok (pre ++ node_bytes (leaf_node k dsz flags datum (drop (length datum) rd)) ++ post).
Proof.
  intros n0 Hk Hd. split.
  - unfold mn_ksize. eapply (rd16_at _ (pre ++ le16 (n_lo n0) ++ le16 (n_hi n0) ++ le16 (n_flags n0)));
      [|len|unfold u16_ok; lia]. unfold node_bytes, n0. cbn [n_lo n_hi n_flags n_ksize n_data].
    rewrite (u16_small (Z.of_nat (length k))) by lia. app_eq.
  - rewrite (mwrite_at _ (pre ++ le16 (n_lo n0) ++ le16 (n_hi n0) ++ le16 (n_flags n0) ++ le16 (n_ksize n0) ++ k)
      (take (length datum) rd) (drop (length datum) rd ++ post)).
    + f_equal. unfold node_bytes, leaf_node, n0. cbn [n_lo n_hi n_flags n_ksize n_data].
      rewrite (u16_small (Z.of_nat (length k))) by lia. app_eq.
    + unfold node_bytes, n0. cbn [n_lo n_hi n_flags n_ksize n_data].
      rewrite <-(take_drop (length datum) rd) at 1. app_eq.
    + unfold NODESIZE. len.
    + rewrite length_take. lia.
Qed.

Lemma not_reserve flags : 0 ≤ flags < 65536 → F_ISSET flags MDB_RESERVE = false.
Proof.
  intros Hf. unfold F_ISSET. apply Z.eqb_neq. intros H.
  assert (Z.testbit (Z.land flags MDB_RESERVE) 16 = true) as H' by (by rewrite H).
  rewrite Z.land_spec in H'. apply andb_true_iff in H' as [H' _].
  rewrite <-(Z.mod_small flags (2 ^ 16)), Z.mod_pow2_bits_high in H' by lia. done.
Qed.

(** The addition on a leaf, for the datum, the flags and the overflow page that
    [add_place] chose. *)
Lemma add_leaf_writes h es gap lay i k d flags ofp datum pgno :
  let key := MkVal (Z.of_nat (length k)) k in
  let size := EVEN (8 + Z.of_nat (length k + length datum)) in
  holds_with true h es gap lay → (i ≤ length es)%nat →
  Z.of_nat (length k) < 65536 → 0 ≤ mv_size d < 2 ^ 32 → 0 ≤ flags < 65536 →
  size + 2 ≤ Z.of_nat (length gap) →
  match ofp with
  | Some (_, op) => mread op 0 8 = Ok datum ∧ F_ISSET flags F_BIGDATA = true
  | None => if F_ISSET flags F_BIGDATA then val_bytes d 8 = Ok datum
            else val_bytes d (mv_size d) = Ok datum
  end →
  Z.of_nat (length datum) = (if F_ISSET flags F_BIGDATA then 8 else mv_size d) →
  ∃ p' pad, holds true p' (take i es.*2 ++ leaf_node k (mv_size d) flags datum pad :: drop i es.*2) ∧
    ('(p, ofs) ← add_pointer (page_bytes h es gap lay) (Z.of_nat i) size;
     p ← add_header p ofs (Some key) (Some d) pgno flags;
     add_data p ofs (Some d) flags ofp)
    = match ofp with
      | None => Ok (MkAdded 0 p' None None)
      | Some (n, op) =>
          bs ← val_bytes d (mv_size d); op ← mwrite op PAGEHDRSZ bs; Ok (MkAdded 0 p' (Some (n, op)) None)
      end.
Proof.
  intros key size HW Hi Hk Hd Hf Hroom Hdat Hlen.
  pose proof (EVEN_bounds (8 + Z.of_nat (length k + length datum))) as Hsz. fold size in Hsz.
  destruct (add_pointer_spec true h es gap lay i size HW Hi) as (g & r & Hgap & Hr & E); [lia|lia|].
  rewrite E. cbn [mbind res_bind]. set (h' := MkHead _ _ _ _) in *.
  set (P := ptr_bytes (_ ++ _ :: _)) in *.
  assert (HWh := HW). destruct HWh as [Hh Hl _ Hlo Hup Hend _ _].
  assert (Hlow := ho_lower h Hh). unfold u16_ok in Hlow.
  assert (Hh' : head_ok h') by (destruct Hh; split; cbn; unfold u16_ok in *; (done || lia)).
  set (pre := head_bytes h' ++ P ++ g). set (rd := drop (8 + length k) r).
  assert (Hofs : h_upper h - size = Z.of_nat (length pre)).
  { unfold pre, P. rewrite !length_app, length_ptr_bytes, (length_head h' (ho_pre _ Hh')), length_app.
    cbn [length]. rewrite length_take, length_drop, length_fmap. lia. }
  replace (head_bytes h' ++ P ++ g ++ r ++ body lay) with (pre ++ r ++ body lay)
    by (unfold pre; app_eq).
  rewrite Hofs.
  rewrite (add_header_leaf h' (P ++ g) pre r k rd (body lay) key d pgno flags); try done;
    [|unfold rd; rewrite length_drop; lia].
  cbn [mbind res_bind mv_size key]. unfold add_data.
  set (n0 := Node _ _ _ _ (k ++ rd)).
  assert (Hleaf : IS_LEAF (pre ++ node_bytes n0 ++ body lay) = Ok true).
  { unfold pre. rewrite <-!(assoc_L (++)), IS_LEAF_at by done. by rewrite <-Hl. }
  rewrite Hleaf. cbn [mbind res_bind].
  assert (Hlrd : length rd = (length r - (8 + length k))%nat) by (unfold rd; by rewrite length_drop).
  destruct (write_datum pre (body lay) k (mv_size d) flags datum rd) as [Hks Hw]; [lia|lia|].
  unfold NODEDATA. fold n0 in Hks, Hw. rewrite Hks. cbn [mbind res_bind].
  set (pad := drop (length datum) rd) in *.
  assert (Hnode : node_ok true (leaf_node k (mv_size d) flags datum pad)).
  { apply leaf_node_ok; try done. fold size. unfold pad. rewrite length_drop. lia. }
  assert (Hnlen : Z.of_nat (length (node_bytes (leaf_node k (mv_size d) flags datum pad))) = size).
  { unfold node_bytes, leaf_node. cbn [n_lo n_hi n_flags n_ksize n_data]. unfold pad.
    rewrite !length_app, length_drop. cbn [length le16]. lia. }
  pose proof (holds_insert true h es gap lay i g _ HW Hi Hnode) as HH. cbv zeta in HH.
  rewrite Hnlen in HH. fold h' P in HH. exists (pre ++ node_bytes (leaf_node k (mv_size d) flags datum pad) ++ body lay), pad.
  split.
  { unfold pre. rewrite <-!(assoc_L (++)). apply HH. lia. }
  destruct ofp as [[n op]|].
  - destruct Hdat as [-> HF]. cbn [mbind res_bind]. rewrite Hw. cbn [mbind res_bind].
    rewrite (not_reserve flags) by done. done.
  - destruct (F_ISSET flags F_BIGDATA).
    + rewrite Hdat. cbn [mbind res_bind]. by rewrite Hw.
    + rewrite (not_reserve flags) by done. rewrite Hdat. cbn [mbind res_bind]. by rewrite Hw.
Qed.

Lemma node_add_holds p nodemax psize md_pad alloc ns i k d pgno flags left :
  let key := MkVal (Z.of_nat (length k)) k in
  let data := MkVal (Z.of_nat (length d)) d in
  holds true p ns → (i ≤ length ns)%nat → 0 ≤ flags < 65536 → F_ISSET flags F_BIGDATA = false →
  LEAFSIZE key data ≤ nodemax → nodemax < 65536 → SIZELEFT p = Ok left →
  ∃ p' pad,
    mdb_node_add p nodemax psize md_pad alloc (Z.of_nat i) (Some key) (Some data) pgno flags
    = Ok (if mdb_leaf_size nodemax key data <=? left then MkAdded 0 p' None None
          else MkAdded MDB_PAGE_FULL p None None) ∧
    (mdb_leaf_size nodemax key data ≤ left →
     holds true p' (take i ns ++ leaf_node k (Z.of_nat (length d)) flags d pad :: drop i ns)).
Proof.
  intros key data (h & es & gap & lay & HW & -> & <-) Hi Hf HB Hfit Hmax Hleft.
  rewrite length_fmap in Hi. rewrite (SIZELEFT_at _ _ _ _ _ HW) in Hleft. injection Hleft as <-.
  assert (HWh := HW). destruct HWh as [Hh Hl Hl2 Hlo Hup _ _ _].
  unfold LEAFSIZE, NODESIZE in Hfit. cbn [key data mv_size] in Hfit.
  set (size := EVEN (8 + Z.of_nat (length k + length d))).
  assert (Hsz : mdb_leaf_size nodemax key data = size + 2).
  { unfold mdb_leaf_size, LEAFSIZE, NODESIZE. cbn [key data mv_size].
    rewrite (proj2 (Z.ltb_ge _ _)), EVEN_plus2 by lia. unfold size. do 2 f_equal. lia. }
  rewrite Hsz. unfold mdb_node_add.
  rewrite (holds_MP_UPPER HW). cbn [mbind res_bind]. rewrite (holds_MP_LOWER HW). cbn [mbind res_bind].
  rewrite (proj2 (Z.leb_le (h_lower h) _)) by lia. cbn [c_assert mbind res_bind].
  rewrite (holds_IS_LEAF2 HW). cbn [mbind res_bind].
  assert (Hplace : add_place (page_bytes h es gap lay) nodemax psize alloc (Some key) (Some data) flags
    = Ok (if Z.of_nat (length gap) - 2 <? size then None else Some (inr (size, flags, None)))).
  { unfold add_place. rewrite (SIZELEFT_at _ _ _ _ _ HW). cbn [mbind res_bind].
    rewrite (holds_IS_LEAF HW). cbn [mbind res_bind]. rewrite HB.
    unfold INDXSIZE, NODESIZE. cbn [key data mv_size]. rewrite (proj2 (Z.ltb_ge nodemax _)) by lia.
    unfold size. replace (8 + Z.of_nat (length k) + Z.of_nat (length d)) with
      (8 + Z.of_nat (length k + length d)) by lia. done. }
  rewrite Hplace. cbn [mbind res_bind].
  destruct (Z.ltb_spec (Z.of_nat (length gap) - 2) size) as [Hlt|Hge].
  { exists [], []. rewrite (proj2 (Z.leb_gt _ _)) by lia. split; [done|lia]. }
  destruct (add_leaf_writes h es gap lay i k data flags None d pgno HW Hi) as (p' & pad & HH & E).
  - lia.
  - cbn. lia.
  - done.
  - fold size. lia.
  - rewrite HB. unfold val_bytes. cbn [data mv_size mv_data].
    apply (mread_at _ [] d []); by rewrite ?app_nil_r.
  - by rewrite HB.
  - exists p', pad. rewrite (proj2 (Z.leb_le _ _)) by lia. split; [exact E|done].
Qed.

(** C20.  [mdb_node_add] of a key and a datum that fit the page together puts their node
    at the index, in a page that stays well formed and keeps the other nodes,
    exactly when the page has [mdb_leaf_size] bytes left; otherwise it returns
    MDB_PAGE_FULL and the page is untouched. *)
Theorem node_add_inserts p nodemax psize md_pad alloc ns i k d pgno flags left :
  let key := MkVal (Z.of_nat (length k)) k in
  let data := MkVal (Z.of_nat (length d)) d in
  holds true p ns → (i ≤ length ns)%nat → 0 ≤ flags < 65536 → F_ISSET flags F_BIGDATA = false →
  LEAFSIZE key data ≤ nodemax → nodemax < 65536 → SIZELEFT p = Ok left →
  ∃ p' pad,
    mdb_node_add p nodemax psize md_pad alloc (Z.of_nat i) (Some key) (Some data) pgno flags
    = Ok (if mdb_leaf_size nodemax key data <=? left then MkAdded 0 p' None None
          else MkAdded MDB_PAGE_FULL p None None) ∧
    (mdb_leaf_size nodemax key data ≤ left →
     holds true p' (take i ns ++ leaf_node k (Z.of_nat (length d)) flags d pad :: drop i ns)).
Proof. apply node_add_holds. Qed.

(** The overflow pages hold the header and the datum. *)
Lemma OVPAGES_enough size psize : 0 ≤ size → 0 < psize → PAGEHDRSZ + size ≤ psize * OVPAGES size psize.
Proof.
  intros Hs Hp. unfold OVPAGES, PAGEHDRSZ. pose proof (Z.mul_succ_div_gt (16 - 1 + size) psize Hp). lia.
Qed.

Lemma F_ISSET_set flags : F_ISSET (Z.lor flags F_BIGDATA) F_BIGDATA = true.
Proof.
  unfold F_ISSET. apply Z.eqb_eq. rewrite Z.land_lor_distr_l. change (Z.land F_BIGDATA F_BIGDATA) with F_BIGDATA.
  apply Z.bits_inj'. intros k Hk. rewrite Z.lor_spec, Z.land_spec. by destruct (Z.testbit flags k), (Z.testbit F_BIGDATA k).
Qed.

Lemma flags_set_range flags : 0 ≤ flags < 65536 → 0 ≤ Z.lor flags F_BIGDATA < 65536.
Proof.
  intros Hf. unfold F_BIGDATA. split; [apply Z.lor_nonneg; lia|].
  destruct (Z.eq_dec (Z.lor flags 1) 0) as [->|Hne]; [lia|].
  change 65536 with (2 ^ 16). apply Z.log2_lt_pow2.
  - assert (0 ≤ Z.lor flags 1) by (apply Z.lor_nonneg; lia). lia.
  - rewrite Z.log2_lor by lia. apply Z.max_lub_lt; [|done].
    destruct (Z.eq_dec flags 0) as [->|]; [done|]. apply Z.log2_lt_pow2; lia.
Qed.

(** C24.  [mdb_node_add] of a datum that is too large for the page puts the datum, behind
    their header, on the overflow pages it asks for, which are enough, and a node
    with their number at the index. *)
Theorem node_add_overflow p nodemax psize md_pad alloc ns i k d pgno flags left n op :
  let key := MkVal (Z.of_nat (length k)) k in
  let data := MkVal (Z.of_nat (length d)) d in
  holds true p ns → (i ≤ length ns)%nat → 0 ≤ flags < 65536 → F_ISSET flags F_BIGDATA = false →
  nodemax < LEAFSIZE key data → Z.of_nat (length k) < 65536 → Z.of_nat (length d) < 2 ^ 32 →
  0 < psize → alloc (OVPAGES (Z.of_nat (length d)) psize) = inr (n, op) →
  Z.of_nat (length op) = psize * OVPAGES (Z.of_nat (length d)) psize →
  SIZELEFT p = Ok left → mdb_leaf_size nodemax key data ≤ left →
  ∃ p' pad,
    mdb_node_add p nodemax psize md_pad alloc (Z.of_nat i) (Some key) (Some data) pgno flags
    = Ok (MkAdded 0 p' (Some (n, take 16 op ++ d ++ drop (16 + length d) op)) None) ∧
    holds true p' (take i ns ++
      leaf_node k (Z.of_nat (length d)) (Z.lor flags F_BIGDATA) (take 8 op) pad :: drop i ns).
Proof.
  intros key data (h & es & gap & lay & HW & -> & <-) Hi Hf HB Hbig Hk Hd Hps Hal Hop Hleft Hroom.
  pose proof (OVPAGES_enough (Z.of_nat (length d)) psize ltac:(lia) Hps) as Hov.
  rewrite <-Hop in Hov. unfold PAGEHDRSZ in Hov.
  rewrite length_fmap in Hi. rewrite (SIZELEFT_at _ _ _ _ _ HW) in Hleft. injection Hleft as <-.
  assert (HWh := HW). destruct HWh as [Hh Hl Hl2 Hlo Hup _ _ _].
  unfold LEAFSIZE, NODESIZE in Hbig. cbn [key data mv_size] in Hbig.
  assert (H8 : length (take 8 op) = 8%nat) by (rewrite length_take; lia).
  set (size := EVEN (8 + Z.of_nat (length k + length (take 8 op)))).
  assert (Hsz : mdb_leaf_size nodemax key data = size + 2).
  { unfold mdb_leaf_size, LEAFSIZE, NODESIZE. cbn [key data mv_size].
    rewrite (proj2 (Z.ltb_lt _ _)), EVEN_plus2 by lia. unfold size. rewrite H8. do 2 f_equal. lia. }
  rewrite Hsz in Hroom. unfold mdb_node_add.
  rewrite (holds_MP_UPPER HW). cbn [mbind res_bind]. rewrite (holds_MP_LOWER HW). cbn [mbind res_bind].
  rewrite (proj2 (Z.leb_le (h_lower h) _)) by lia. cbn [c_assert mbind res_bind].
  rewrite (holds_IS_LEAF2 HW). cbn [mbind res_bind].
  assert (Hplace : add_place (page_bytes h es gap lay) nodemax psize alloc (Some key) (Some data) flags
    = Ok (Some (inr (size, Z.lor flags F_BIGDATA, Some (n, op))))).
  { unfold add_place. rewrite (SIZELEFT_at _ _ _ _ _ HW). cbn [mbind res_bind].
    rewrite (holds_IS_LEAF HW). cbn [mbind res_bind]. rewrite HB.
    unfold INDXSIZE, NODESIZE. cbn [key data mv_size]. rewrite (proj2 (Z.ltb_lt nodemax _)) by lia.
    replace (EVEN (8 + Z.of_nat (length k) + 8)) with size by (unfold size; rewrite H8; f_equal; lia).
    rewrite (proj2 (Z.ltb_ge _ size)) by lia. by rewrite Hal. }
  rewrite Hplace. cbn [mbind res_bind].
  destruct (add_leaf_writes h es gap lay i k data (Z.lor flags F_BIGDATA) (Some (n, op)) (take 8 op) pgno HW Hi)
    as (p' & pad & HH & E).
  - lia.
  - cbn. lia.
  - by apply flags_set_range.
  - fold size. lia.
  - split; [|apply F_ISSET_set]. apply (mread_at _ [] (take 8 op) (drop 8 op));
      [by rewrite take_drop|done|by rewrite H8].
  - rewrite F_ISSET_set, H8. done.
  - exists p', pad. split; [|exact HH]. fold size key in E. rewrite E. unfold val_bytes. cbn [data mv_size mv_data].
    rewrite (mread_at d [] d []) by (by rewrite ?app_nil_r). cbn [mbind res_bind].
    rewrite (mwrite_at op (take 16 op) (take (length d) (drop 16 op)) (drop (16 + length d) op)).
    + done.
    + by rewrite <-(drop_split 16 (length d)), take_drop.
    + rewrite length_take. unfold PAGEHDRSZ. lia.
    + rewrite length_take, length_drop. lia.
Qed.

(** ** The search *)

Lemma node_ksize_le leaf n : node_ok leaf n → n_ksize n ≤ Z.of_nat (length (n_data n)).
Proof.
  intros [Hlo Hhi Hf Hk Hs]. unfold u16_ok in *. unfold node_size, NODESIZE in Hs.
  set (x := if leaf then _ else 0) in Hs.
  assert (0 ≤ x).
  { unfold x. destruct leaf; [|done]. destruct (F_ISSET _ _); [done|].
    apply Z.lor_nonneg. split; [lia|]. apply Z.shiftl_nonneg. lia. }
  pose proof (EVEN_bounds (8 + n_ksize n + x)). unfold node_bytes in Hs.
  rewrite !length_app, !length_le16 in Hs. lia.
Qed.

Lemma holds_node_key leaf h es gap lay i a n :
  holds_with leaf h es gap lay → es !! i = Some (a, n) →
  node_key (page_bytes h es gap lay) (Z.of_nat i) = Ok (MkVal (n_ksize n) (n_key n)).
Proof.
  intros HW Hi. unfold node_key. rewrite (holds_NODEPTR HW i a n Hi). cbn [mbind res_bind].
  destruct (holds_node HW i a n Hi) as (l1 & l2 & Hp & Ha & Hn).
  rewrite (mn_ksize_at Hp Ha Hn). cbn [mbind res_bind].
  pose proof (node_ksize_le leaf n Hn). destruct (no_ksize leaf n Hn).
  rewrite (mread_at _ (l1 ++ le16 (n_lo n) ++ le16 (n_hi n) ++ le16 (n_flags n) ++ le16 (n_ksize n))
    (n_key n) (drop (Z.to_nat (n_ksize n)) (n_data n) ++ l2)); [done| | |].
  - rewrite Hp. unfold node_bytes, n_key. rewrite <-(take_drop (Z.to_nat (n_ksize n)) (n_data n)) at 1. app_eq.
  - unfold NODEKEY, NODESIZE. len.
  - unfold n_key. rewrite length_take. lia.
Qed.

Lemma node_loop_spec fuel f g low0 n low high i rc :
  (∀ j, low0 ≤ j < n → f j = Ok (g j)) →
  (∀ j j', low0 ≤ j < j' → j' < n → g j ≤ 0 → g j' < 0) →
  low0 ≤ low → low ≤ high + 1 → high < n → 0 ≤ low0 → high - low + 1 < 2 ^ Z.of_nat fuel →
  (∀ j, low0 ≤ j < low → 0 < g j) → (∀ j, high < j < n → g j < 0) →
  (0 < rc → i = low - 1) → (rc < 0 → i = high + 1) → (rc = 0 → low ≤ high) →
  ∃ i' rc', node_loop (S fuel) f low high i rc = Ok (i', rc') ∧
    let r := if 0 <? rc' then i' + 1 else i' in
    low0 ≤ r ≤ n ∧ (∀ j, low0 ≤ j < r → 0 < g j) ∧ (∀ j, r ≤ j < n → g j ≤ 0) ∧
    (rc' = 0 ↔ r < n ∧ g r = 0).
Proof.
  intros Hf Hg. revert low high i rc.
  induction fuel as [|fuel IH]; intros low high i rc Hl Hlh Hh H0 Hfu Hlo Hhi Hp Hm Hz;
    cbn [node_loop]; destruct (Z.leb_spec low high) as [Hle|Hgt];
    try (cbn in Hfu; lia).
  1, 3: exists i, rc; split; [done|]; cbv zeta;
    assert (Hr : (if 0 <? rc then i + 1 else i) = low)
      by (destruct (Z.ltb_spec 0 rc); [lia|]; destruct (Z.eq_dec rc 0); lia);
    rewrite Hr; split; [lia|]; split; [done|]; split;
      [intros j Hj; specialize (Hhi j); lia|];
    split; [lia|]; intros [Hlt Hg0]; specialize (Hhi low); lia.
  rewrite Z.shiftr_div_pow2 by lia. change (2 ^ 1) with 2.
  assert (Hd : low ≤ (low + high) / 2 ≤ high).
  { pose proof (Z.div_mod (low + high) 2). pose proof (Z.mod_pos_bound (low + high) 2). lia. }
  assert (Hd2 : 2 * ((low + high) / 2) ≤ low + high ≤ 2 * ((low + high) / 2) + 1).
  { pose proof (Z.div_mod (low + high) 2). pose proof (Z.mod_pos_bound (low + high) 2). lia. }
  set (k := (low + high) / 2) in *. clearbody k. rewrite (Hf k) by lia. cbn [mbind res_bind].
  replace (Z.of_nat (S fuel)) with (Z.of_nat fuel + 1) in Hfu by lia.
  rewrite Z.pow_add_r in Hfu by lia. change (2 ^ 1) with 2 in Hfu.
  destruct (Z.eqb_spec (g k) 0) as [Heq|Hne].
  { exists k, (g k). split; [done|]. cbv zeta. rewrite (proj2 (Z.ltb_ge _ _)) by lia.
    split; [lia|]. split; [|split; [|tauto || (split; [split; [lia|done]|intros _; done])]].
    - intros j Hj. destruct (Z.le_gt_cases (g j) 0); [specialize (Hg j k); lia|done].
    - intros j Hj. destruct (Z.eq_dec j k) as [->|]; [lia|]. specialize (Hg k j). lia. }
  destruct (Z.ltb_spec 0 (g k)) as [Hpos|Hneg].
  - apply IH; try lia.
    + intros j Hj. destruct (Z.le_gt_cases (g j) 0); [|done].
      destruct (Z.eq_dec j k) as [->|]; [lia|specialize (Hg j k); lia].
    + done.
  - apply IH; try lia.
    + done.
    + intros j Hj. destruct (Z.eq_dec j k) as [->|]; [lia|]. apply (Hg k j); lia.
Qed.

(** The search needs to know only what it reads of the page: the number of its keys, its
    kind, and the keys. *)
Lemma node_search_reads fuel (leaf : bool) p (ns : list node) md_pad cmp cmp' key (kv : node → MDB_val) (c : node → Z) :
  let low0 := (if leaf then 0 else 1)%nat in
  (17 ≤ fuel)%nat → NUMKEYS p = Ok (Z.of_nat (length ns)) → IS_LEAF p = Ok leaf → IS_LEAF2 p = Ok false →
  (∀ j n, ns !! j = Some n → node_key p (Z.of_nat j) = Ok (kv n)) →
  Z.of_nat (length ns) < 2 ^ 16 → (leaf = false → (2 ≤ length ns)%nat) →
  search_cmp p cmp = Ok cmp' →
  (∀ j n, (low0 ≤ j)%nat → ns !! j = Some n → run_cmp cmp' key (kv n) = Ok (c n)) →
  (∀ j j' n n', (low0 ≤ j < j')%nat → ns !! j = Some n → ns !! j' = Some n' → c n ≤ 0 → c n' < 0) →
  ∃ r, (low0 ≤ r ≤ length ns)%nat ∧
    (∀ j n, (low0 ≤ j < r)%nat → ns !! j = Some n → 0 < c n) ∧
    (∀ j n, (r ≤ j)%nat → ns !! j = Some n → c n ≤ 0) ∧
    mdb_node_search fuel p md_pad cmp key
    = Ok (bool_decide (r < length ns)%nat,
          match ns !! r with Some n => c n =? 0 | None => false end, Z.of_nat r).
Proof.
  intros low0 Hfuel Hnk Hleaf Hleaf2 Hkey Hn Hbr Hcmp Hc Hord.
  destruct fuel as [|fuel]; [lia|].
  assert (Hpow : 2 ^ 16 ≤ 2 ^ Z.of_nat fuel) by (apply Z.pow_le_mono_r; lia).
  unfold mdb_node_search. rewrite Hnk. cbn [mbind res_bind]. rewrite Hleaf. cbn [mbind res_bind].
  rewrite Hleaf2. cbn [mbind res_bind]. rewrite Hcmp. cbn [mbind res_bind orb].
  replace (if leaf then 0 else 1) with (Z.of_nat low0) by (by destruct leaf).
  set (f := λ i : Z, nodekey ← node_key _ i; run_cmp cmp' key nodekey).
  set (g := λ j : Z, match ns !! Z.to_nat j with Some n => c n | None => 0 end).
  assert (Hf : ∀ j, Z.of_nat low0 ≤ j < Z.of_nat (length ns) → f j = Ok (g j)).
  { intros j Hj. destruct (lookup_lt_is_Some_2 ns (Z.to_nat j)) as [n Hi]; [lia|].
    unfold f, g. rewrite Hi. rewrite <-(Z2Nat.id j) at 1 by lia.
    rewrite (Hkey _ _ Hi). cbn [mbind res_bind]. apply (Hc (Z.to_nat j)); [lia|done]. }
  assert (Hg : ∀ j j', Z.of_nat low0 ≤ j < j' → j' < Z.of_nat (length ns) → g j ≤ 0 → g j' < 0).
  { intros j j' Hj Hj'. unfold g.
    destruct (lookup_lt_is_Some_2 ns (Z.to_nat j)) as [n Hi]; [lia|].
    destruct (lookup_lt_is_Some_2 ns (Z.to_nat j')) as [n' Hi']; [lia|].
    rewrite Hi, Hi'. apply (Hord (Z.to_nat j) (Z.to_nat j')); [lia|done|done]. }
  destruct (decide (length ns = 0%nat)) as [H0|H0].
  { exists 0%nat. destruct ns; [|done]. destruct leaf; [|specialize (Hbr eq_refl); cbn in Hbr; lia].
    split; [cbn; lia|]. split; [intros; lia|]. split; [done|]. done. }
  destruct (node_loop_spec fuel f g (Z.of_nat low0) (Z.of_nat (length ns)) (Z.of_nat low0)
    (Z.of_nat (length ns) - 1) 0 0) as (i & rc & E & Hr & Hlo & Hhi & Hrc); try done; try lia.
  1-2: unfold low0; destruct leaf; lia.
  set (r := if 0 <? rc then i + 1 else i) in *.
  assert (Hgn : ∀ j n, ns !! j = Some n → g (Z.of_nat j) = c n)
    by (intros j n Hj; unfold g; by rewrite Nat2Z.id, Hj).
  assert (Hlt : ∀ j n, ns !! j = Some n → (j < length ns)%nat)
    by (intros j n Hj; by apply lookup_lt_Some in Hj).
  exists (Z.to_nat r). split; [lia|]. split; [|split].
  - intros j n Hj Hjn. rewrite <-(Hgn j n Hjn). apply Hlo. lia.
  - intros j n Hj Hjn. rewrite <-(Hgn j n Hjn). apply Hhi. specialize (Hlt j n Hjn). lia.
  - rewrite E. cbn [mbind res_bind]. fold r.
    assert (Hle : Z.of_nat low0 ≤ Z.of_nat (length ns) - 1)
      by (unfold low0; destruct leaf; [lia|specialize (Hbr eq_refl); lia]).
    rewrite (proj2 (Z.leb_le _ _)), (proj2 (Z.ltb_lt 0 _)), andb_true_r, Z2Nat.id by lia.
    cbn [andb]. do 3 f_equal.
    + apply eq_true_iff_eq. rewrite Z.ltb_lt, bool_decide_eq_true. lia.
    + apply eq_true_iff_eq. rewrite Z.eqb_eq, Hrc.
      destruct (ns !! Z.to_nat r) as [n|] eqn:En.
      * rewrite Z.eqb_eq, <-(Hgn _ n En), Z2Nat.id by lia. specialize (Hlt _ n En). lia.
      * apply lookup_ge_None in En. split; [lia|done].
Qed.

(** C22.  [mdb_node_search] on a page whose nodes are in the order of the comparison (of
    a branch, those behind the first) ends within 17 rounds at the index of the first
    node that is not smaller than the key, and says whether it is equal; it returns
    NULL when there is none. *)
Theorem node_search_finds fuel (leaf : bool) p (ns : list node) md_pad cmp cmp' key (c : node → Z) :
  let low0 := (if leaf then 0 else 1)%nat in
  (17 ≤ fuel)%nat → holds leaf p ns → (leaf = false → (2 ≤ length ns)%nat) →
  search_cmp p cmp = Ok cmp' →
  Forall (λ n, run_cmp cmp' key (MkVal (n_ksize n) (n_key n)) = Ok (c n)) ns →
  (∀ j j' n n', (low0 ≤ j < j')%nat → ns !! j = Some n → ns !! j' = Some n' → c n ≤ 0 → c n' < 0) →
  ∃ r, (low0 ≤ r ≤ length ns)%nat ∧
    (∀ j n, (low0 ≤ j < r)%nat → ns !! j = Some n → 0 < c n) ∧
    (∀ j n, (r ≤ j)%nat → ns !! j = Some n → c n ≤ 0) ∧
    mdb_node_search fuel p md_pad cmp key
    = Ok (bool_decide (r < length ns)%nat,
          match ns !! r with Some n => c n =? 0 | None => false end, Z.of_nat r).
Proof.
  intros low0 Hfuel (h & es & gap & lay & HW & -> & <-) Hbr Hcmp Hc Hord.
  apply (node_search_reads _ _ _ _ _ _ cmp' _ (λ n, MkVal (n_ksize n) (n_key n))); try done.
  - rewrite length_fmap. apply (holds_NUMKEYS HW).
  - apply (holds_IS_LEAF HW).
  - apply (holds_IS_LEAF2 HW).
  - intros j n Hj. apply list_lookup_fmap_Some in Hj as ([a n'] & -> & Hj).
    by apply (holds_node_key leaf h es gap lay j a n' HW).
  - destruct HW as [Hh _ _ Hlo _ _ _ _]. destruct (ho_lower h Hh). rewrite length_fmap. lia.
  - intros j n _ Hj. rewrite Forall_lookup in Hc. by apply (Hc j).
Qed.

(** ** Examples *)

(** An empty leaf of 64 bytes, and the nodes of the keys 1 and 3. *)
Definition ex_head (flags lower upper : Z) : Head := MkHead (replicate 10 0) flags lower upper.
Definition ex_leaf : page := page_bytes (ex_head 2 16 64) [] (replicate 48 0) [].
Definition ex_node (k : Z) : node := leaf_node [k] 1 0 [7] [].
Definition ex_leaf2 : page :=
  page_bytes (ex_head 2 20 44) [(54, ex_node 1); (44, ex_node 3)] (replicate 24 0) [ex_node 3; ex_node 1].

Lemma ex_leaf_holds : holds true ex_leaf [].
Proof.
  exists (ex_head 2 16 64), [], (replicate 48 0), [].
  split; [|split; reflexivity]. by split; try done; split.
Qed.

Lemma ex_node_ok k : node_ok true (ex_node k).
Proof.
  apply leaf_node_ok; cbn [length]; try lia; [by vm_compute|by vm_compute].
Qed.

Lemma ex_leaf2_holds : holds true ex_leaf2 [ex_node 1; ex_node 3].
Proof.
  exists (ex_head 2 20 44), [(54, ex_node 1); (44, ex_node 3)], (replicate 24 0), [ex_node 3; ex_node 1].
  split; [|split; reflexivity]. split; try done.
  - repeat constructor; apply ex_node_ok.
  - apply perm_swap.
Qed.

Lemma node_del_removes_witness :
  ∃ p', mdb_node_del ex_leaf2 0 0 = Ok p' ∧ holds true p' (delete 0%nat [ex_node 1; ex_node 3]).
Proof. apply (node_del_removes true ex_leaf2 [ex_node 1; ex_node 3] 0 0 ex_leaf2_holds). cbn. lia. Defined.

Definition no_alloc (n : Z) : Z + Z * page := inl 12.

Lemma node_add_inserts_witness :
  let key := MkVal 2 [97; 98] in
  let data := MkVal 3 [120; 121; 122] in
  (mdb_leaf_size 24 key data <=? 48) = true ∧
  ∃ p' pad,
    mdb_node_add ex_leaf 24 64 0 no_alloc 0 (Some key) (Some data) 0 0
    = Ok (if mdb_leaf_size 24 key data <=? 48 then MkAdded 0 p' None None
          else MkAdded MDB_PAGE_FULL ex_leaf None None) ∧
    (mdb_leaf_size 24 key data ≤ 48 →
     holds true p' (take 0 [] ++ leaf_node [97; 98] 3 0 [120; 121; 122] pad :: drop 0 [])).
Proof.
  split; [reflexivity|].
  apply (node_add_inserts ex_leaf 24 64 0 no_alloc [] 0 [97; 98] [120; 121; 122] 0 0 48);
    [exact ex_leaf_holds|cbn; lia|lia|reflexivity|by vm_compute|lia|by vm_compute].
Defined.

(** One overflow page of 64 bytes, with the number 5. *)
Definition one_page (n : Z) : Z + Z * page := inr (5, 5 :: replicate 63 0).

Lemma node_add_overflow_witness :
  let d := replicate 30 7 in
  ∃ p' pad,
    mdb_node_add ex_leaf 24 64 0 one_page 0 (Some (MkVal 2 [97; 98])) (Some (MkVal 30 d)) 0 0
    = Ok (MkAdded 0 p' (Some (5, take 16 (5 :: replicate 63 0) ++ d ++ drop 46 (5 :: replicate 63 0))) None) ∧
    holds true p' (take 0 [] ++
      leaf_node [97; 98] 30 (Z.lor 0 F_BIGDATA) (take 8 (5 :: replicate 63 0)) pad :: drop 0 []).
Proof.
  apply (node_add_overflow ex_leaf 24 64 0 one_page [] 0 [97; 98] (replicate 30 7) 0 0 48 5
    (5 :: replicate 63 0));
    [exact ex_leaf_holds|cbn; lia|lia|reflexivity|by vm_compute|cbn; lia|by vm_compute|lia|reflexivity|
     by vm_compute|by vm_compute|by vm_compute].
Defined.

Lemma node_search_finds_witness :
  let ns := [ex_node 1; ex_node 3] in
  let c := λ n, Z.sgn (2 - hd 0 (n_key n)) in
  ∃ r, (0 ≤ r ≤ length ns)%nat ∧
    (∀ j n, (0 ≤ j < r)%nat → ns !! j = Some n → 0 < c n) ∧
    (∀ j n, (r ≤ j)%nat → ns !! j = Some n → c n ≤ 0) ∧
    mdb_node_search 17 ex_leaf2 0 Cmp_memn (MkVal 1 [2])
    = Ok (bool_decide (r < length ns)%nat,
          match ns !! r with Some n => c n =? 0 | None => false end, Z.of_nat r).
Proof.
  apply (node_search_finds 17 true ex_leaf2 [ex_node 1; ex_node 3] 0 Cmp_memn Cmp_memn (MkVal 1 [2])
    (λ n, Z.sgn (2 - hd 0 (n_key n)))).
  - lia.
  - exact ex_leaf2_holds.
  - done.
  - reflexivity.
  - repeat constructor.
  - intros j j' n n' Hj Hn Hn'.
    destruct j as [|[|j]], j' as [|[|j']]; try lia; try done. injection Hn as <-. by cbn.
Defined.
