(* ===== verification/PageMore.v ===== *)
(** * LMDB pages: whole pages and comparisons

    New and copied pages hold what they should, adding and deleting a node are
    inverse on the list of nodes, and the comparison functions agree with each
    other where the code exchanges them. *)

From S2P Require Import Prelude.
From S2P Require Import Page.
From S2P Require Import PageProps.

(** ** Whole pages *)

Lemma holds_length leaf h es gap lay :
  holds_with leaf h es gap lay →
  Z.of_nat (length (page_bytes h es gap lay)) = h_upper h + Z.of_nat (length (body lay)).
Proof.
  intros HW. unfold page_bytes. rewrite !length_app, (holds_head HW), length_ptr_bytes, length_fmap.
  destruct HW as [_ _ _ Hlo Hup _ _ _]. lia.
Qed.

(** The bytes between the pointers and the nodes do not matter. *)
Lemma holds_regap leaf h es gap gap' lay :
  holds_with leaf h es gap lay → length gap' = length gap →
  holds leaf (page_bytes h es gap' lay) es.*2.
Proof.
  intros [? ? ? ? Hup ? ? ?] Hg. exists h, es, gap', lay. split; [|done].
  split; try done. by rewrite Hg.
Qed.

Lemma align_down x : Z.land x (-8) = 8 * (x / 8).
Proof.
  change (-8) with (Z.lnot (Z.ones 3)). rewrite <-Z.ldiff_land, Z.ldiff_ones_r by lia.
  rewrite Z.shiftl_mul_pow2, Z.shiftr_div_pow2 by lia. change (2 ^ 3) with 8. lia.
Qed.

Lemma align_down_bounds x : Z.land x (-8) ≤ x < Z.land x (-8) + 8.
Proof. rewrite align_down. pose proof (Z.div_mod x 8). pose proof (Z.mod_pos_bound x 8). lia. Qed.

(** Copying [n] bytes at [off]. *)
Lemma mcopy_spec dst src off n :
  length dst = length src → 0 ≤ off → 0 ≤ n → off + n ≤ Z.of_nat (length src) →
  mcopy dst src off n
  = Ok (take (Z.to_nat off) dst ++ take (Z.to_nat n) (drop (Z.to_nat off) src)
        ++ drop (Z.to_nat (off + n)) dst).
Proof.
  intros Hlen Ho Hn Hon. unfold mcopy.
  rewrite (mread_at src (take (Z.to_nat off) src) (take (Z.to_nat n) (drop (Z.to_nat off) src))
    (drop (Z.to_nat (off + n)) src)).
  - cbn [mbind res_bind].
    rewrite (mwrite_at dst (take (Z.to_nat off) dst) (take (Z.to_nat n) (drop (Z.to_nat off) dst))
      (drop (Z.to_nat (off + n)) dst)).
    + done.
    + rewrite Z2Nat.inj_add by lia. by rewrite <-drop_split, take_drop.
    + rewrite length_take. lia.
    + rewrite !length_take, !length_drop. lia.
  - rewrite Z2Nat.inj_add by lia. by rewrite <-drop_split, take_drop.
  - rewrite length_take. lia.
  - rewrite length_take, length_drop. lia.
Qed.

(** Two copies, of the ends of a page, keep the ends. *)
Lemma copy_ends (dst src : page) lo up L U :
  length dst = length src → (lo ≤ L)%nat → (L ≤ U)%nat → (U ≤ up)%nat → (up ≤ length src)%nat →
  ∃ mid, length mid = (up - lo)%nat ∧
    take U (take L src ++ drop L dst) ++ drop U src = take lo src ++ mid ++ drop up src.
Proof.
  intros Hlen H1 H2 H3 H4. set (p := take U (take L src ++ drop L dst) ++ drop U src).
  assert (Hp : length p = length src).
  { unfold p. rewrite length_app, length_take, length_app, length_take, !length_drop. lia. }
  exists (take (up - lo) (drop lo p)). split; [rewrite length_take, length_drop; lia|].
  assert (Hlo : take lo p = take lo src).
  { unfold p. rewrite take_app_le by (rewrite length_take, length_app, length_take, length_drop; lia).
    rewrite take_take, Nat.min_l by lia. rewrite take_app_le by (rewrite length_take; lia).
    by rewrite take_take, Nat.min_l by lia. }
  assert (Hup : drop up p = drop up src).
  { unfold p. rewrite drop_app_ge by (rewrite length_take, length_app, length_take, length_drop; lia).
    rewrite length_take, length_app, length_take, length_drop, drop_drop. f_equal. lia. }
  rewrite <-Hlo, <-Hup. replace up with (lo + (up - lo))%nat at 2 by lia.
  by rewrite <-drop_split, take_drop.
Qed.

(** [mdb_page_copy] keeps the nodes, the header and the size, whether it copies the whole
    page or only its used ends. *)
Lemma page_copy_spec leaf dst src ns psize :
  holds leaf src ns → length dst = length src → psize = Z.of_nat (length src) →
  ∃ p, mdb_page_copy dst src psize = Ok p ∧ holds leaf p ns ∧ MP_FLAGS p = MP_FLAGS src ∧ length p = length src.
Proof.
  intros (h & es & gap & lay & HW & -> & <-) Hlen ->.
  set (src := page_bytes h es gap lay) in *. pose proof (holds_length leaf h es gap lay HW) as Hsz.
  fold src in Hsz. assert (HWh := HW). destruct HWh as [Hh _ _ Hlo Hup Hend _ _].
  unfold mdb_page_copy. rewrite (holds_MP_UPPER HW : MP_UPPER src = _). cbn [mbind res_bind].
  rewrite (holds_MP_LOWER HW : MP_LOWER src = _). cbn [mbind res_bind].
  rewrite (holds_IS_LEAF2 HW : IS_LEAF2 src = _). cbn [mbind res_bind negb].
  rewrite andb_true_r, u16_small by lia.
  pose proof (align_down_bounds (h_upper h - h_lower h)) as Hun.
  destruct (Z.eqb_spec (Z.land (h_upper h - h_lower h) (-8)) 0) as [->|Hne]; cbn [negb].
  { exists src. split; [|split; [by exists h, es, gap, lay|done]].
    rewrite mcopy_spec by lia. f_equal. rewrite Z.sub_0_r, Nat2Z.id. change (Z.to_nat 0) with 0%nat.
    rewrite Z.add_0_l, Nat2Z.id, (drop_ge dst), app_nil_r by lia. by rewrite take_0, drop_0, firstn_all. }
  pose proof (align_down_bounds (h_lower h + 7)) as HL. pose proof (align_down_bounds (h_upper h)) as HU.
  assert (HLU : Z.land (h_lower h + 7) (-8) ≤ Z.land (h_upper h) (-8)).
  { rewrite align_down in Hne, Hun, HL, HU. rewrite !align_down in *. lia. }
  set (L := Z.land (h_lower h + 7) (-8)) in *. set (U := Z.land (h_upper h) (-8)) in *.
  destruct (copy_ends dst src (Z.to_nat (h_lower h)) (Z.to_nat (h_upper h)) (Z.to_nat L) (Z.to_nat U))
    as (mid & Hmid & E); [done|lia|lia|lia|lia|].
  exists (page_bytes h es mid lay). split; [|split; [apply (holds_regap leaf h es gap mid lay HW); lia|split]].
  2:{ unfold src, page_bytes. by rewrite !(MP_FLAGS_at h _ Hh). }
  2:{ unfold src, page_bytes. rewrite !length_app. lia. }
  rewrite mcopy_spec by lia. cbn [mbind res_bind]. change (Z.to_nat 0) with 0%nat.
  rewrite take_0, drop_0, Z.add_0_l. cbn [app].
  rewrite mcopy_spec by (rewrite ?length_app, ?length_take, ?length_drop; lia).
  replace (U + (Z.of_nat (length src) - U)) with (Z.of_nat (length src)) by lia.
  rewrite (drop_ge _ (Z.to_nat (Z.of_nat (length src))))
    by (rewrite length_app, length_take, length_drop; lia).
  rewrite app_nil_r, (take_ge (drop (Z.to_nat U) src)) by (rewrite length_drop; lia).
  rewrite E. f_equal. unfold src, page_bytes. rewrite (assoc_L (++) (head_bytes h)).
  assert (Hx : length (head_bytes h ++ ptr_bytes es.*1) = Z.to_nat (h_lower h))
    by (rewrite length_app, (holds_head HW), length_ptr_bytes, length_fmap; lia).
  rewrite <-Hx, take_app_length. rewrite (assoc_L (++) _ gap).
  assert (Hy : length ((head_bytes h ++ ptr_bytes es.*1) ++ gap) = Z.to_nat (h_upper h))
    by (rewrite length_app, Hx; lia).
  rewrite <-Hy, drop_app_length. app_eq.
Qed.

(** [mdb_page_copy] of a page of single nodes gives a page that holds the same nodes,
    whether it copies the whole page or only its used ends. *)
Theorem page_copy_holds leaf dst src ns psize :
  holds leaf src ns → length dst = length src → psize = Z.of_nat (length src) →
  ∃ p, mdb_page_copy dst src psize = Ok p ∧ holds leaf p ns.
Proof. intros Hs Hd Hp. destruct (page_copy_spec leaf dst src ns psize Hs Hd Hp) as (p & E & Hh & _). by exists p. Qed.

Definition ex_src : page := page_bytes (ex_head 2 16 56) [] (replicate 40 7) [].

Lemma page_copy_holds_witness :
  negb (Z.land (56 - 16) (-8) =? 0) = true ∧
  ∃ p, mdb_page_copy (replicate 56 0) ex_src 56 = Ok p ∧ holds true p [].
Proof.
  split; [reflexivity|]. apply (page_copy_holds true (replicate 56 0) ex_src []); [|done|done].
  exists (ex_head 2 16 56), [], (replicate 40 7), [].
  split; [|split; reflexivity]. by split; try done; split.
Defined.

(** A page from the allocator: its size is the page size, [psize]. *)
Lemma page_new_page np psize fl :
  Z.of_nat (length np) = psize → 16 ≤ psize < 65536 → u16_ok fl →
  ∃ pre rest, length pre = 10%nat ∧ Z.of_nat (length rest) = psize - 16 ∧
    (np ← wr16 np 10 fl; np ← set_MP_LOWER np PAGEHDRSZ; set_MP_UPPER np psize)
    = Ok (head_bytes (MkHead pre fl 16 psize) ++ rest).
Proof.
  intros Hlen Hps Hfl. exists (take 10 np), (drop 16 np).
  split; [rewrite length_take; lia|]. split; [rewrite length_drop; lia|].
  assert (Hnp : np = take 10 np ++ take 2 (drop 10 np) ++ take 2 (drop 12 np) ++ take 2 (drop 14 np) ++ drop 16 np)
    by (by rewrite <-(drop_split 14 2), <-(drop_split 12 2), <-(drop_split 10 2), take_drop).
  assert (L0 : length (take 10 np) = 10%nat) by (rewrite length_take; lia).
  assert (L1 : length (take 2 (drop 10 np)) = 2%nat) by (rewrite length_take, length_drop; lia).
  assert (L2 : length (take 2 (drop 12 np)) = 2%nat) by (rewrite length_take, length_drop; lia).
  assert (L3 : length (take 2 (drop 14 np)) = 2%nat) by (rewrite length_take, length_drop; lia).
  rewrite Hnp at 1. unfold set_MP_LOWER, set_MP_UPPER.
  rewrite (wr16_at _ (take 10 np) (take 2 (drop 10 np))
    (take 2 (drop 12 np) ++ take 2 (drop 14 np) ++ drop 16 np)) by (done || lia). cbn [mbind res_bind].
  rewrite (wr16_at _ (take 10 np ++ le16 fl) (take 2 (drop 12 np))
    (take 2 (drop 14 np) ++ drop 16 np)) by (app_eq || len). cbn [mbind res_bind].
  rewrite (wr16_at _ (take 10 np ++ le16 fl ++ le16 PAGEHDRSZ) (take 2 (drop 14 np)) (drop 16 np))
    by (app_eq || len).
  unfold head_bytes. cbn [h_pre h_flags h_lower h_upper]. f_equal. app_eq.
Qed.

(** C31.  [mdb_page_new] makes, of any page the allocator gives, an empty leaf or branch
    page of the page size, and counts it. *)
Theorem page_new_empty leaf alloc np psize db :
  alloc 1 = inr np → Z.of_nat (length np) = psize → 16 ≤ psize < 65536 →
  ∃ p, mdb_page_new alloc psize db (if leaf : bool then P_LEAF else P_BRANCH) 1
       = Ok (0, if leaf
                then set_pages db (md_branch_pages db) (u64 (md_leaf_pages db + 1)) (md_overflow_pages db)
                else set_pages db (u64 (md_branch_pages db + 1)) (md_leaf_pages db) (md_overflow_pages db), Some p) ∧
    holds leaf p [] ∧ SIZELEFT p = Ok (psize - 16).
Proof.
  intros Hal Hlen Hps. set (fl := Z.lor (if leaf then P_LEAF else P_BRANCH) P_DIRTY).
  assert (Hfl : u16_ok fl) by (unfold fl; destruct leaf; split; by vm_compute).
  destruct (page_new_page np psize fl Hlen Hps Hfl) as (pre & rest & Hpre & Hrest & E).
  assert (HW : holds_with leaf (MkHead pre fl 16 psize) [] rest []).
  { split; cbn [h_pre h_flags h_lower h_upper]; try done.
    - split; cbn [h_pre h_flags h_lower h_upper]; try done; unfold u16_ok; lia.
    - unfold fl. by destruct leaf.
    - unfold fl. by destruct leaf.
    - lia.
    - cbn. lia. }
  assert (Hp : head_bytes (MkHead pre fl 16 psize) ++ rest = page_bytes (MkHead pre fl 16 psize) [] rest [])
    by (unfold page_bytes; cbn [ptr_bytes body fmap list_fmap concat app]; by rewrite app_nil_r).
  exists (head_bytes (MkHead pre fl 16 psize) ++ rest). split; [|split].
  - unfold mdb_page_new. rewrite Hal. fold fl. revert E.
    destruct (wr16 np 10 fl) as [p1| | |]; try done. cbn [mbind res_bind].
    destruct (set_MP_LOWER p1 PAGEHDRSZ) as [p2| | |]; try done. cbn [mbind res_bind].
    intros ->. cbn [mbind res_bind]. rewrite MP_FLAGS_at by apply (hw_head _ _ _ _ _ HW).
    cbn [mbind res_bind h_flags]. unfold fl. by destruct leaf.
  - rewrite Hp. by exists (MkHead pre fl 16 psize), [], rest, [].
  - rewrite Hp, (SIZELEFT_at _ _ _ _ _ HW). f_equal. lia.
Qed.

Definition ex_db : MDB_db := MkDb 0 0 0 0 0 0 0 1.

Lemma page_new_empty_witness :
  ∃ p, mdb_page_new (λ _, inr (replicate 64 255)) 64 ex_db P_LEAF 1
       = Ok (0, set_pages ex_db 0 (u64 (0 + 1)) 0, Some p) ∧
    holds true p [] ∧ SIZELEFT p = Ok (64 - 16).
Proof.
  apply (page_new_empty true (λ _, inr (replicate 64 255)) (replicate 64 255) 64 ex_db);
    [done|done|lia].
Defined.

(** Adding a node that fits and deleting it again gives a page with the nodes there
    were. *)
Theorem node_add_del p nodemax psize md_pad alloc ns i k d pgno flags left ksize :
  let key := MkVal (Z.of_nat (length k)) k in
  let data := MkVal (Z.of_nat (length d)) d in
  holds true p ns → (i ≤ length ns)%nat → 0 ≤ flags < 65536 → F_ISSET flags F_BIGDATA = false →
  LEAFSIZE key data ≤ nodemax → nodemax < 65536 → SIZELEFT p = Ok left →
  mdb_leaf_size nodemax key data ≤ left →
  ∃ a p', mdb_node_add p nodemax psize md_pad alloc (Z.of_nat i) (Some key) (Some data) pgno flags = Ok a ∧
    a_rc a = 0 ∧ mdb_node_del (a_page a) (Z.of_nat i) ksize = Ok p' ∧ holds true p' ns.
Proof.
  intros key data Hp Hi Hf HB Hfit Hmax Hleft Hroom.
  destruct (node_add_holds p nodemax psize md_pad alloc ns i k d pgno flags left)
    as (p1 & pad & E & Hh); [done..|].
  rewrite (proj2 (Z.leb_le _ _)) in E by done. specialize (Hh Hroom).
  destruct (node_del_holds true p1 _ i ksize Hh) as (p2 & E2 & Hh2).
  { rewrite length_app, length_take. cbn. lia. }
  exists (MkAdded 0 p1 None None), p2. split; [exact E|]. split; [done|]. split; [done|].
  assert (Hlt : length (take i ns) = i) by (rewrite length_take; lia).
  rewrite <-Hlt in Hh2 at 1. rewrite delete_middle, take_drop in Hh2. done.
Qed.

Lemma node_add_del_witness :
  ∃ a p', mdb_node_add ex_leaf2 24 64 0 no_alloc 1 (Some (MkVal 1 [2])) (Some (MkVal 2 [5; 6])) 0 0 = Ok a ∧
    a_rc a = 0 ∧ mdb_node_del (a_page a) 1 0 = Ok p' ∧ holds true p' [ex_node 1; ex_node 3].
Proof.
  apply (node_add_del ex_leaf2 24 64 0 no_alloc [ex_node 1; ex_node 3] 1 [2] [5; 6] 0 0 24 0);
    [exact ex_leaf2_holds|cbn; lia|lia|done|by vm_compute|lia|done|by vm_compute].
Defined.

(** ** Comparisons *)

Definition byte_ok (b : Z) : Prop := 0 ≤ b < 256.

Lemma le_app l1 l2 : le (l1 ++ l2) = le l1 + 256 ^ Z.of_nat (length l1) * le l2.
Proof.
  induction l1 as [|b l1 IH]; [cbn; lia|].
  cbn [app le length]. rewrite IH, Nat2Z.inj_succ, Z.pow_succ_r by lia. lia.
Qed.

Lemma le_range l : Forall byte_ok l → 0 ≤ le l < 256 ^ Z.of_nat (length l).
Proof.
  induction 1 as [|b l Hb _ IH]; [cbn; lia|].
  cbn [le length]. unfold byte_ok in Hb. rewrite Nat2Z.inj_succ, Z.pow_succ_r by lia. lia.
Qed.

(** The greater high word decides. *)
Lemma sgn_high x y u c m : 0 ≤ x < m → 0 ≤ y < m → u ≠ c → Z.sgn (x + m * u - (y + m * c)) = Z.sgn (u - c).
Proof.
  intros Hx Hy Hne. destruct (Z.lt_gt_cases u c) as [Hd _]. destruct (Hd Hne).
  - rewrite (Z.sgn_neg (u - c)) by lia. apply Z.sgn_neg. nia.
  - rewrite (Z.sgn_pos (u - c)) by lia. apply Z.sgn_pos. nia.
Qed.

Lemma cint_loop_step fuel n a1 a2 ra b1 b2 rb sa sb :
  length a1 = (2 * n)%nat → length b1 = (2 * n)%nat → length a2 = 2%nat → length b2 = 2%nat →
  cint_loop (S fuel) (MkVal sa (a1 ++ a2 ++ ra)) (MkVal sb (b1 ++ b2 ++ rb)) (Z.of_nat (2 * S n))
  = if ((le a2 - le b2 =? 0) && (0 <? Z.of_nat (2 * n)))%bool
    then cint_loop fuel (MkVal sa (a1 ++ a2 ++ ra)) (MkVal sb (b1 ++ b2 ++ rb)) (Z.of_nat (2 * n))
    else Ok (le a2 - le b2).
Proof.
  intros H1 H2 H3 H4. cbn [cint_loop mv_data]. unfold rd16.
  rewrite (mread_at (a1 ++ a2 ++ ra) a1 a2 ra) by (done || lia). cbn [mbind res_bind].
  rewrite (mread_at (b1 ++ b2 ++ rb) b1 b2 rb) by (done || lia). cbn [mbind res_bind].
  by replace (Z.of_nat (2 * S n) - 2) with (Z.of_nat (2 * n)) by lia.
Qed.

Lemma split_top n (a : list Z) :
  length a = (2 * S n)%nat → ∃ a1 a2, a = a1 ++ a2 ∧ length a1 = (2 * n)%nat ∧ length a2 = 2%nat.
Proof.
  intros Ha. exists (take (2 * n) a), (drop (2 * n) a).
  rewrite take_drop, length_take, length_drop. split_and!; [done|lia|lia].
Qed.

Lemma cint_loop_spec n a b ra rb sa sb fuel :
  length a = (2 * S n)%nat → length b = (2 * S n)%nat → Forall byte_ok a → Forall byte_ok b →
  (n < fuel)%nat →
  ∃ r, cint_loop fuel (MkVal sa (a ++ ra)) (MkVal sb (b ++ rb)) (Z.of_nat (2 * S n)) = Ok r ∧
    Z.sgn r = Z.sgn (le a - le b).
Proof.
  revert a b ra rb fuel. induction n as [|n IH]; intros a b ra rb fuel Ha Hb Oa Ob Hfu;
    (destruct fuel as [|fuel]; [lia|]);
    destruct (split_top _ a Ha) as (a1 & a2 & -> & La1 & La2);
    destruct (split_top _ b Hb) as (b1 & b2 & -> & Lb1 & Lb2);
    rewrite <-!(assoc_L (++)), cint_loop_step by done;
    apply Forall_app in Oa as [Oa _], Ob as [Ob _];
    pose proof (le_range a1 Oa) as Ra; pose proof (le_range b1 Ob) as Rb;
    rewrite !le_app, La1, Lb1; rewrite La1 in Ra; rewrite Lb1 in Rb.
  - exists (le a2 - le b2). destruct a1, b1; try done. rewrite andb_false_r. split; [done|].
    f_equal. cbn. lia.
  - destruct (Z.eqb_spec (le a2 - le b2) 0) as [H0|H0]; cbn [andb].
    + rewrite (proj2 (Z.ltb_lt _ _)) by lia.
      destruct (IH a1 b1 (a2 ++ ra) (b2 ++ rb) fuel) as (r & E & Hr); [done|done|done|done|lia|].
      exists r. split; [exact E|]. rewrite Hr. f_equal. replace (le a2) with (le b2) by lia. lia.
    + exists (le a2 - le b2). split; [done|]. symmetry. apply sgn_high; [done|done|lia].
Qed.

Lemma cmp_num_spec n a b sa sb ra rb :
  length a = n → length b = n →
  cmp_num (Z.of_nat n) (MkVal sa (a ++ ra)) (MkVal sb (b ++ rb)) = Ok (Z.sgn (le a - le b)).
Proof.
  intros Ha Hb. unfold cmp_num, val_bytes. cbn [mv_data].
  rewrite (mread_at (a ++ ra) [] a ra), (mread_at (b ++ rb) [] b rb) by (done || lia). cbn [mbind res_bind]. f_equal.
  destruct (Z.ltb_spec (le a) (le b)); [by rewrite Z.sgn_neg by lia|].
  destruct (Z.ltb_spec (le b) (le a)); [by rewrite Z.sgn_pos by lia|].
  by replace (le a - le b) with 0 by lia.
Qed.

(** On two unsigned integers of 4 or 8 bytes, [mdb_cmp_cint] (16 bits at a time, from the
    top) has the sign of [mdb_cmp_int] or [mdb_cmp_long]: [mdb_node_search] may take
    the one for the other. *)
Theorem cmp_cint_agrees n a b ra rb :
  n = 4%nat ∨ n = 8%nat → length a = n → length b = n → Forall byte_ok a → Forall byte_ok b →
  let va := MkVal (Z.of_nat n) (a ++ ra) in
  let vb := MkVal (Z.of_nat n) (b ++ rb) in
  ∃ r r', run_cmp Cmp_cint va vb = Ok r ∧
    run_cmp (if decide (n = 8%nat) then Cmp_long else Cmp_int) va vb = Ok r' ∧ Z.sgn r = r' ∧
    r' = Z.sgn (le a - le b).
Proof.
  intros Hn Ha Hb Oa Ob va vb.
  assert (Hm : ∃ m, n = (2 * S m)%nat) by (destruct Hn as [->| ->]; [by exists 1%nat|by exists 3%nat]).
  destruct Hm as [m Hm].
  destruct (cint_loop_spec m a b ra rb (Z.of_nat n) (Z.of_nat n) (S n)) as (r & E & Hr);
    [by rewrite Ha|by rewrite Hb|done|done|lia|].
  exists r, (Z.sgn (le a - le b)). split_and!; [| |done|done].
  2:{ destruct Hn as [->| ->]; [apply (cmp_num_spec 4)|apply (cmp_num_spec 8)]; done. }
  cbn [run_cmp]. unfold mdb_cmp_cint. unfold va, vb. cbn [mv_size]. rewrite Nat2Z.id.
  rewrite <-Hm in E. exact E.
Qed.

Lemma cmp_cint_agrees_witness :
  let va := MkVal 4 ([1; 0; 2; 0] ++ []) in
  let vb := MkVal 4 ([9; 0; 1; 0] ++ []) in
  ∃ r r', run_cmp Cmp_cint va vb = Ok r ∧ run_cmp Cmp_int va vb = Ok r' ∧ Z.sgn r = r' ∧
    r' = Z.sgn (le [1; 0; 2; 0] - le [9; 0; 1; 0]).
Proof.
  apply (cmp_cint_agrees 4 [1; 0; 2; 0] [9; 0; 1; 0] [] []);
    [by left|done|done|repeat constructor; lia..].
Defined.

(** [memcmp] of the first bytes, from the end of both items. *)
Lemma memnr_loop_spec n a b ra rb :
  (n ≤ length a)%nat → (n ≤ length b)%nat →
  ∃ d, memnr_loop n (a ++ ra) (b ++ rb) (Z.of_nat (length a)) (Z.of_nat (length b)) = Ok d ∧
    Z.sgn d = memcmp (take n (rev a)) (take n (rev b)).
Proof.
  revert a b ra rb. induction n as [|n IH]; intros a b ra rb Ha Hb; [by exists 0|].
  destruct a as [|x a _] using rev_ind; [cbn in Ha; lia|].
  destruct b as [|y b _] using rev_ind; [cbn in Hb; lia|].
  rewrite length_app in Ha, Hb. cbn [length] in Ha, Hb.
  rewrite !rev_app_distr. cbn [rev app take memcmp memnr_loop].
  rewrite (mread_at ((a ++ [x]) ++ ra) a [x] ra) by (app_eq || len). cbn [mbind res_bind].
  rewrite (mread_at ((b ++ [y]) ++ rb) b [y] rb) by (app_eq || len). cbn [mbind res_bind le].
  replace (x + 256 * 0 - (y + 256 * 0)) with (x - y) by lia.
  destruct (Z.eqb_spec x y) as [->|Hne].
  - rewrite Z.sub_diag. cbn [Z.eqb negb].
    destruct (IH a b ([y] ++ ra) ([y] ++ rb)) as (d & E & Hd); [lia|lia|].
    exists d. split; [|done]. rewrite <-!(assoc_L (++)), !length_app. cbn [length].
    replace (Z.of_nat (length a + 1) - 1) with (Z.of_nat (length a)) by lia.
    by replace (Z.of_nat (length b + 1) - 1) with (Z.of_nat (length b)) by lia.
  - rewrite (proj2 (Z.eqb_neq (x - y) 0)) by lia. cbn [negb]. by exists (x - y).
Qed.

Lemma memcmp_sgn a b : Z.sgn (memcmp a b) = memcmp a b.
Proof. revert b. induction a as [|x a IH]; intros [|y b]; try done. cbn. case_bool; [done|apply Z.sgn_sgn]. Qed.

Lemma memcmp_eq a b : length a = length b → memcmp a b = 0 ↔ a = b.
Proof.
  revert b. induction a as [|x a IH]; intros [|y b] Hl; try done. cbn.
  destruct (Z.eqb_spec x y) as [->|Hne].
  - rewrite IH by (cbn in Hl; lia). split; [by intros ->|by intros [=]].
  - split; [|by intros [=]]. intros H. apply Z.sgn_null_iff in H. lia.
Qed.

(** [mdb_cmp_memnr] is [mdb_cmp_memn] on the reversed items: they have the same sign. *)
Theorem cmp_memnr_reverse a b :
  Z.of_nat (length a) < 2 ^ 32 → Z.of_nat (length b) < 2 ^ 32 →
  ∃ r r', mdb_cmp_memnr (MkVal (Z.of_nat (length a)) a) (MkVal (Z.of_nat (length b)) b) = Ok r ∧
    mdb_cmp_memn (MkVal (Z.of_nat (length a)) (rev a)) (MkVal (Z.of_nat (length b)) (rev b)) = Ok r' ∧
    Z.sgn r = Z.sgn r' ∧ (r' = 0 ↔ a = b).
Proof.
  intros Ha Hb. set (m := Nat.min (length a) (length b)).
  set (l := len_diff_result (if 0 <? Z.of_nat (length a) - Z.of_nat (length b) then 1
                             else Z.of_nat (length a) - Z.of_nat (length b))).
  destruct (memnr_loop_spec m a b [] []) as (d & E & Hd); [lia|lia|]. rewrite !app_nil_r in E.
  set (c := memcmp (take m (rev a)) (take m (rev b))) in *.
  exists (if negb (d =? 0) then d else l), (if negb (c =? 0) then c else l). split_and!.
  - unfold mdb_cmp_memnr. cbn [mv_size mv_data]. unfold l.
    destruct (Z.ltb_spec 0 (Z.of_nat (length a) - Z.of_nat (length b)));
      (replace (Z.to_nat _) with m by lia); rewrite E; done.
  - unfold mdb_cmp_memn, val_bytes. cbn [mv_size mv_data]. unfold l.
    assert (Hrd : ∀ x k, (m ≤ length x)%nat → k = Z.of_nat m → mread (rev x) 0 k = Ok (take m (rev x))).
    { intros x k Hx ->. apply (mread_at _ [] _ (drop m (rev x))); [by rewrite take_drop|done|].
      rewrite length_take, length_rev. lia. }
    destruct (Z.ltb_spec 0 (Z.of_nat (length a) - Z.of_nat (length b))); rewrite u32_small by lia;
      rewrite (Hrd a), (Hrd b) by lia; done.
  - destruct (Z.eqb_spec d 0), (Z.eqb_spec c 0); cbn [negb]; lia.
  - assert (Hl : l = 0 ↔ length a = length b).
    { unfold l, len_diff_result. repeat case_bool; bool_to_prop; lia. }
    destruct (Z.eqb_spec c 0) as [Hc|Hc]; cbn [negb].
    + rewrite Hl. split; [|by intros ->]. intros Hlen.
      apply memcmp_eq in Hc; [|rewrite !length_take, !length_rev; lia].
      rewrite !take_ge in Hc by (rewrite length_rev; lia).
      by rewrite <-(rev_involutive a), Hc, rev_involutive.
    + split; [done|]. intros ->. exfalso. apply Hc. by apply memcmp_eq.
Qed.

Lemma cmp_memnr_reverse_witness :
  ∃ r r', mdb_cmp_memnr (MkVal 3 [1; 2; 3]) (MkVal 2 [9; 3]) = Ok r ∧
    mdb_cmp_memn (MkVal 3 (rev [1; 2; 3])) (MkVal 2 (rev [9; 3])) = Ok r' ∧
    Z.sgn r = Z.sgn r' ∧ (r' = 0 ↔ [1; 2; 3] = [9; 3]).
Proof. apply (cmp_memnr_reverse [1; 2; 3] [9; 3]); by vm_compute. Defined.
