(* ===== verification/Tree.v ===== *)
(** * LMDB's B+tree (src/lib/lmdb/mdb.c): cursors and searches

    The read path of the tree up to the search: the stack of a cursor, the lookup of a
    page in the dirty lists, the spilled pages and the map, the descent from the root,
    and the set-up of cursors and sub-cursors.  The calls on top of them are in
    Cursor.v.  A page is the bytes of Page.v; a pointer to a page is a place in the map or in a page that the
    transaction allocated, and a sub-page is a place inside a page.  What a call
    returns through a pointer is the bytes it points to.

    [fuel] bounds every search and every loop.  [mdb_page_touch], which belongs to the
    write path, is an argument: it runs only when a search is asked to modify. *)

From S2P Require Import Prelude.
From S2P Require Import Lmdb Midl Page.

(** ** Constants *)

Definition MDB_TXN_FINISHED : Z := 0x01.
Definition MDB_TXN_ERROR : Z := 0x02.
Definition MDB_TXN_HAS_CHILD : Z := 0x10.
Definition MDB_TXN_BLOCKED : Z := Z.lor MDB_TXN_FINISHED (Z.lor MDB_TXN_ERROR MDB_TXN_HAS_CHILD).
Definition MDB_TXN_RDONLY : Z := MDB_RDONLY.
Definition MDB_TXN_WRITEMAP : Z := 0x80000.

Definition CURSOR_STACK : Z := 32.
Definition C_INITIALIZED : Z := 0x01.
Definition C_EOF : Z := 0x02.
Definition C_SUB : Z := 0x04.
Definition C_DEL : Z := 0x08.

Definition MDB_PS_MODIFY : Z := 1.
Definition MDB_PS_ROOTONLY : Z := 2.
Definition MDB_PS_FIRST : Z := 4.
Definition MDB_PS_LAST : Z := 8.

Definition DB_STALE : Z := 0x02.
Definition DB_VALID : Z := 0x08.
Definition DB_USRVALID : Z := 0x10.
Definition DB_DUPDATA : Z := 0x20.
Definition MAIN_DBI : Z := 1.
Definition P_INVALID : Z := 2 ^ 64 - 1.
Definition PERSISTENT_FLAGS : Z := Z.land 0xffff (Z.lnot 0x8000).

Definition F_SUBDATA : Z := 0x02.
Definition F_DUPDATA : Z := 0x04.

Definition MDB_INTEGERKEY : Z := 0x08.
Definition MDB_DUPFIXED : Z := 0x10.
Definition MDB_INTEGERDUP : Z := 0x20.

Definition MDB_SUCCESS : Z := 0.
Definition EINVAL : Z := 22.
Definition MDB_PAGE_NOTFOUND : Z := -30797.
Definition MDB_CORRUPTED : Z := -30796.
Definition MDB_CURSOR_FULL : Z := -30787.
Definition MDB_INCOMPATIBLE : Z := -30784.
Definition MDB_BAD_TXN : Z := -30782.
Definition MDB_BAD_VALSIZE : Z := -30781.
Definition MDB_BAD_DBI : Z := -30780.

Inductive MDB_cursor_op : Type :=
| MDB_FIRST | MDB_FIRST_DUP | MDB_GET_BOTH | MDB_GET_BOTH_RANGE | MDB_GET_CURRENT
| MDB_GET_MULTIPLE | MDB_LAST | MDB_LAST_DUP | MDB_NEXT | MDB_NEXT_DUP | MDB_NEXT_MULTIPLE
| MDB_NEXT_NODUP | MDB_PREV | MDB_PREV_DUP | MDB_PREV_NODUP | MDB_SET | MDB_SET_KEY
| MDB_SET_RANGE | MDB_PREV_MULTIPLE.

#[export] Instance MDB_cursor_op_eq_dec : EqDecision MDB_cursor_op.
Proof. solve_decision. Defined.

(** ** State *)

(** A pointer: an offset in the map, or in a page the transaction allocated. *)
Inductive Ptr : Type := InMap (off : Z) | InHeap (a off : Z).

#[export] Instance Ptr_eq_dec : EqDecision Ptr.
Proof. solve_decision. Defined.

Definition ptr_add (p : Ptr) (n : Z) : Ptr :=
  match p with InMap off => InMap (off + n) | InHeap a off => InHeap a (off + n) end.

Record Mem : Type := MkMem { me_map : list Z; me_psize : Z; heap : gmap Z (list Z) }.

(** What is in memory from the pointer on, to the end of the map or of the block. *)
Definition from (m : Mem) (p : Ptr) : res page :=
  match p with
  | InMap off =>
      if ((0 <=? off) && (off <=? Z.of_nat (length (me_map m))))%bool
      then Ok (drop (Z.to_nat off) (me_map m)) else UB
  | InHeap a off =>
      match heap m !! a with
      | Some b =>
          if ((0 <=? off) && (off <=? Z.of_nat (length b)))%bool then Ok (drop (Z.to_nat off) b) else UB
      | None => UB
      end
  end.

Record MDB_dbx : Type := MkDbx {
  md_name : MDB_val; md_cmp : option MDB_cmp_func; md_dcmp : option MDB_cmp_func }.

(** The cells of the stacks are [None] when they hold NULL or were never written. *)
Record MDB_cursor : Type := MkCursor {
  mc_dbi : Z;
  mc_snum : Z;
  mc_top : Z;
  mc_flags : Z;
  mc_pg : list (option Ptr);
  mc_ki : block }.

(** The database of the duplicates of a key. *)
Record SubDb : Type := MkSubDb {
  mx_db : option MDB_db; mx_dbx : MDB_dbx; mx_dbflag : option Z }.

Record MDB_xcursor : Type := MkXcursor { mx_cursor : MDB_cursor; mx_sub : SubDb }.

(** What a write transaction has besides, with what it uses of its environment: its number,
    how many more pages it may dirty, its loose pages, the pages that it freed, and for each
    database the cursors to keep right, where [None] is the cursor at hand; then the pages
    that can be used again, the last record they came from, the oldest reader as it was last
    seen, the size of the file, the flags, the address of the map, and memory for pages to
    use again. *)
Record MDB_wtxn : Type := MkWtx {
  mw_txnid : Z;
  mw_room : Z;
  mw_loose : list Z;
  mw_loose_count : Z;
  mw_free_pgs : IDL;
  mw_cursors : list (list (option (MDB_cursor * option MDB_xcursor)));
  mw_pghead : option IDL;
  mw_pglast : Z;
  mw_pgoldest : Z;
  mw_maxpg : Z;
  mw_flags : Z;
  mw_map : Z;
  mw_dpages : list Z }.

(** What a transaction that only reads has of these. *)
Definition no_wtxn : MDB_wtxn := MkWtx 0 0 [] 0 (MkIDL 0 []) [] None 0 0 0 0 0 [].

(** [mt_lists]: the spilled pages and the dirty list of the transaction, and then
    those of its parents. *)
Record MDB_txn : Type := MkTxn {
  mt_flags : Z;
  mt_next_pgno : Z;
  mt_lists : list (option block * list (option ID2));
  mt_dbs : list MDB_db;
  mt_dbxs : list MDB_dbx;
  mt_dbflags : list Z;
  mt_dbiseqs : list Z;
  me_dbiseqs : list Z;
  mt_w : MDB_wtxn }.

(** The memory, the transaction, and the cursor at hand: [st_own] is its database
    when it is a sub-cursor, [st_x] is [mc_xcursor]. *)
Record St : Type := MkSt {
  st_mem : Mem;
  st_txn : MDB_txn;
  st_mc : MDB_cursor;
  st_own : option SubDb;
  st_x : option MDB_xcursor }.

Abbreviation M := (SM St).

Definition lift {A} (r : res A) : M A := λ s,
  match r with Ok a => Ok (a, s) | AssertFail => AssertFail | UB => UB | NoFuel => NoFuel end.

Definition ub {A} : M A := lift UB.

Definition cell {A} (l : list A) (i : Z) : res A :=
  if 0 <=? i then match l !! Z.to_nat i with Some x => Ok x | None => UB end else UB.

Definition set_cell {A} (l : list A) (i : Z) (x : A) : res (list A) :=
  if ((0 <=? i) && (i <? Z.of_nat (length l)))%bool then Ok (<[Z.to_nat i := x]> l) else UB.

(** *** The cursor *)

Definition mc : M MDB_cursor := λ s, Ok (st_mc s, s).
Definition put_mc (c : MDB_cursor) : M unit := λ s,
  Ok (tt, MkSt (st_mem s) (st_txn s) c (st_own s) (st_x s)).

Definition set_snum_top (c : MDB_cursor) (snum top : Z) : MDB_cursor :=
  MkCursor (mc_dbi c) (u16 snum) (u16 top) (mc_flags c) (mc_pg c) (mc_ki c).
Definition set_mc_flags (c : MDB_cursor) (f : Z) : MDB_cursor :=
  MkCursor (mc_dbi c) (mc_snum c) (mc_top c) f (mc_pg c) (mc_ki c).
Definition set_mc_pg (c : MDB_cursor) (pg : list (option Ptr)) : MDB_cursor :=
  MkCursor (mc_dbi c) (mc_snum c) (mc_top c) (mc_flags c) pg (mc_ki c).
Definition set_mc_ki (c : MDB_cursor) (ki : block) : MDB_cursor :=
  MkCursor (mc_dbi c) (mc_snum c) (mc_top c) (mc_flags c) (mc_pg c) ki.

Definition upd_flags (f : Z → Z) : M unit := c ← mc; put_mc (set_mc_flags c (f (mc_flags c))).
Definition raise_flag (m : Z) : M unit := upd_flags (λ f, set_flag f m).
Definition drop_flag (m : Z) : M unit := upd_flags (λ f, clear_flag f m).

Definition pg_at (i : Z) : M Ptr :=
  c ← mc; p ← lift (cell (mc_pg c) i); match p with Some p => mret p | None => ub end.
Definition set_pg (i : Z) (p : option Ptr) : M unit :=
  c ← mc; pg ← lift (set_cell (mc_pg c) i p); put_mc (set_mc_pg c pg).
Definition ki_at (i : Z) : M Z := c ← mc; lift (read_byte (mc_ki c) i).
Definition set_ki (i v : Z) : M unit :=
  c ← mc; ki ← lift (set_cell (mc_ki c) i (Some (u16 v))); put_mc (set_mc_ki c ki).

(** [mc->mc_pg[mc->mc_top]] and [mc->mc_ki[mc->mc_top]]. *)
Definition top_pg : M Ptr := c ← mc; pg_at (mc_top c).
Definition top_ki : M Z := c ← mc; ki_at (mc_top c).
Definition set_top_ki (v : Z) : M unit := c ← mc; set_ki (mc_top c) v.

Definition page_of (p : Ptr) : M page := λ s,
  match from (st_mem s) p with Ok b => Ok (b, s) | AssertFail => AssertFail | UB => UB | NoFuel => NoFuel end.

(** *** The transaction, and the database of the cursor *)

Definition txn : M MDB_txn := λ s, Ok (st_txn s, s).
Definition put_txn (t : MDB_txn) : M unit := λ s,
  Ok (tt, MkSt (st_mem s) t (st_mc s) (st_own s) (st_x s)).

Definition txn_error : M unit :=
  t ← txn;
  put_txn (MkTxn (set_flag (mt_flags t) MDB_TXN_ERROR) (mt_next_pgno t) (mt_lists t) (mt_dbs t) (mt_dbxs t)
             (mt_dbflags t) (mt_dbiseqs t) (me_dbiseqs t) (mt_w t)).

Definition own : M (option SubDb) := λ s, Ok (st_own s, s).

Definition init_cell {A} (x : option A) : M A := match x with Some a => mret a | None => ub end.

Definition mc_db : M MDB_db :=
  o ← own;
  match o with
  | Some d => init_cell (mx_db d)
  | None => c ← mc; t ← txn; lift (cell (mt_dbs t) (mc_dbi c))
  end.

Definition mc_dbx : M MDB_dbx :=
  o ← own;
  match o with
  | Some d => mret (mx_dbx d)
  | None => c ← mc; t ← txn; lift (cell (mt_dbxs t) (mc_dbi c))
  end.

Definition mc_dbflag : M Z :=
  o ← own;
  match o with
  | Some d => init_cell (mx_dbflag d)
  | None => c ← mc; t ← txn; lift (cell (mt_dbflags t) (mc_dbi c))
  end.

(** The end of the refresh of a stale database: its record and its flag. *)
Definition refresh_db (db : MDB_db) : M unit :=
  c ← mc; t ← txn; f ← mc_dbflag;
  dbs ← lift (set_cell (mt_dbs t) (mc_dbi c) db);
  fl ← lift (set_cell (mt_dbflags t) (mc_dbi c) (clear_flag f DB_STALE));
  put_txn (MkTxn (mt_flags t) (mt_next_pgno t) (mt_lists t) dbs (mt_dbxs t) fl (mt_dbiseqs t) (me_dbiseqs t) (mt_w t)).

(** *** Other cursors *)

Definition uninit_cursor : MDB_cursor :=
  MkCursor 0 0 0 0 (replicate (Z.to_nat CURSOR_STACK) None) (replicate (Z.to_nat CURSOR_STACK) None).

(** A computation on a new cursor of the same transaction. *)
Definition on_new {A} (f : M A) : M A := λ s,
  match f (MkSt (st_mem s) (st_txn s) uninit_cursor None None) with
  | Ok (a, s') => Ok (a, MkSt (st_mem s') (st_txn s') (st_mc s) (st_own s) (st_x s))
  | AssertFail => AssertFail
  | UB => UB
  | NoFuel => NoFuel
  end.

(** A computation on [mc->mc_xcursor->mx_cursor]. *)
Definition on_sub {A} (f : M A) : M A := λ s,
  match st_x s with
  | None => UB
  | Some x =>
      match f (MkSt (st_mem s) (st_txn s) (mx_cursor x) (Some (mx_sub x)) None) with
      | Ok (a, s') =>
          match st_own s' with
          | Some d => Ok (a, MkSt (st_mem s') (st_txn s') (st_mc s) (st_own s) (Some (MkXcursor (st_mc s') d)))
          | None => UB
          end
      | AssertFail => AssertFail
      | UB => UB
      | NoFuel => NoFuel
      end
  end.

(** [mc->mc_xcursor]. *)
Definition xcursor : M (option MDB_xcursor) := λ s, Ok (st_x s, s).
Definition put_x (x : option MDB_xcursor) : M unit := λ s,
  Ok (tt, MkSt (st_mem s) (st_txn s) (st_mc s) (st_own s) x).
Definition put_own (d : option SubDb) : M unit := λ s,
  Ok (tt, MkSt (st_mem s) (st_txn s) (st_mc s) d (st_x s)).

(** ** Finding a page *)

Definition lists_of (fuel : nat) (pgno : Z) (psize : Z) (l : option block * list (option ID2))
    : res (option Ptr) :=
  let '(spill, dl) := l in
  spilled ← match spill with
            | None => Ok false
            | Some sl =>
                let pn := u64 (Z.shiftl pgno 1) in
                x ← mdb_midl_search fuel sl pn;
                n ← rd sl 0;
                if x <=? n then y ← rd sl x; Ok (y =? pn) else Ok false
            end;
  if spilled : bool then Ok (Some (InMap (u64 (psize * pgno))))
  else
    n ← rd2 dl 0;
    if mid n =? 0 then Ok None
    else
      x ← mdb_mid2l_search fuel dl pgno;
      if x <=? mid n then
        y ← rd2 dl x;
        Ok (if mid y =? pgno then Some (InHeap (mptr y) 0) else None)
      else Ok None.

(** The loop over the transaction and its parents. *)
Fixpoint dirty_page (fuel : nat) (pgno psize level : Z) (ls : list (option block * list (option ID2)))
    : res (option (Ptr * Z)) :=
  match ls with
  | [] => Ok None
  | l :: ls =>
      p ← lists_of fuel pgno psize l;
      match p with
      | Some p => Ok (Some (p, level))
      | None => dirty_page fuel pgno psize (level + 1) ls
      end
  end.

(** The page and its level, or [None] when it is not found. *)
Definition page_find (fuel : nat) (m : Mem) (t : MDB_txn) (pgno : Z) : res (option (Ptr * Z)) :=
  d ← (if has_flag (mt_flags t) (Z.lor MDB_TXN_RDONLY MDB_TXN_WRITEMAP) then Ok None
       else dirty_page fuel pgno (me_psize m) 1 (mt_lists t));
  match d with
  | Some x => Ok (Some x)
  | None => Ok (if pgno <? mt_next_pgno t then Some (InMap (u64 (me_psize m * pgno)), 0) else None)
  end.

(** A call that can fail returns a code on the left. *)
Definition mdb_page_get (fuel : nat) (pgno : Z) : M (Z + Ptr * Z) := λ s,
  match page_find fuel (st_mem s) (st_txn s) pgno with
  | Ok (Some x) => Ok (inr x, s)
  | Ok None => (txn_error;; mret (inl MDB_PAGE_NOTFOUND)) s
  | AssertFail => AssertFail
  | UB => UB
  | NoFuel => NoFuel
  end.

(** ** The stack of a cursor *)

Definition mdb_cursor_pop : M unit :=
  c ← mc;
  if mc_snum c =? 0 then mret tt
  else
    let snum := u16 (mc_snum c - 1) in
    if negb (snum =? 0) then put_mc (set_snum_top c snum (mc_top c - 1))
    else put_mc (set_mc_flags (set_snum_top c snum (mc_top c)) (clear_flag (mc_flags c) C_INITIALIZED)).

Definition mdb_cursor_push (mp : Ptr) : M Z :=
  c ← mc;
  if CURSOR_STACK <=? mc_snum c then txn_error;; mret MDB_CURSOR_FULL
  else
    put_mc (set_snum_top c (mc_snum c + 1) (mc_snum c));;
    set_pg (mc_snum c) (Some mp);;
    set_ki (mc_snum c) 0;;
    mret MDB_SUCCESS.

(** ** The descent *)

(** [mdb_node_search(mc, key, &exact)]: whether the node is not NULL, and [exact]. *)
Definition search_node (fuel : nat) (key : MDB_val) : M (bool * bool) :=
  mp ← top_pg; p ← page_of mp; db ← mc_db; dbx ← mc_dbx;
  cmp ← init_cell (md_cmp dbx);
  '(node, exact, i) ← lift (mdb_node_search fuel p (md_pad db) cmp key);
  set_top_ki i;;
  mret (node, exact).

Section Search.
Context (fuel : nat) (mdb_page_touch : M Z).

(** The index to follow in the branch page [p], or [None] when the cursor already is in
    the right place. *)
Definition branch_index (p : page) (nkeys : Z) (key : option MDB_val) (flags : Z) : M (option Z) :=
  if has_flag flags (Z.lor MDB_PS_FIRST MDB_PS_LAST) then
    if has_flag flags MDB_PS_LAST then
      let i := u16 (nkeys - 1) in
      c ← mc;
      if has_flag (mc_flags c) C_INITIALIZED then
        k ← top_ki; mret (if k =? i then None else Some i)
      else mret (Some i)
    else mret (Some 0)
  else
    match key with
    | None => ub
    | Some key =>
        '(node, exact) ← search_node fuel key;
        if negb node then mret (Some (u16 (nkeys - 1)))
        else
          i ← top_ki;
          if exact : bool then mret (Some i)
          else lift (c_assert (0 <? i));; mret (Some (u16 (i - 1)))
    end.

(** One round of the loop on the page [mp]: a code, or the next page. *)
Definition root_step (mp : Ptr) (p : page) (key : option MDB_val) (flags : Z) : M (Z + Ptr) :=
  nkeys ← lift (NUMKEYS p);
  c ← mc;
  lift (c_assert ((mc_dbi c =? 0) || (1 <? nkeys)));;
  i ← branch_index p nkeys key flags;
  next ← match i with
         | None =>
             c ← mc;
             put_mc (set_snum_top c (mc_snum c + 1) (mc_snum c));;
             mp ← top_pg; mret (inr mp)
         | Some i =>
             lift (c_assert (i <? nkeys));;
             a ← lift (NODEPTR p i); pgno ← lift (NODEPGNO p a);
             r ← mdb_page_get fuel pgno;
             match r with
             | inl rc => mret (inl rc)
             | inr (mp, _) =>
                 set_top_ki i;;
                 rc ← mdb_cursor_push mp;
                 mret (if negb (rc =? 0) then inl rc else inr mp)
             end
         end;
  match next with
  | inl rc => mret (inl rc)
  | inr mp =>
      if has_flag flags MDB_PS_MODIFY then
        rc ← mdb_page_touch;
        if negb (rc =? 0) then mret (inl rc) else mp ← top_pg; mret (inr mp)
      else mret (inr mp)
  end.

Fixpoint root_loop (n : nat) (mp : Ptr) (key : option MDB_val) (flags : Z) : M (Z + Ptr) :=
  match n with
  | O => lift NoFuel
  | S n =>
      p ← page_of mp;
      branch ← lift (IS_BRANCH p);
      if negb branch then mret (inr mp)
      else
        r ← root_step mp p key flags;
        match r with
        | inl rc => mret (inl rc)
        | inr mp => root_loop n mp key flags
        end
  end.

Definition mdb_page_search_root (key : option MDB_val) (flags : Z) : M Z :=
  mp ← top_pg;
  r ← root_loop fuel mp key flags;
  match r with
  | inl rc => mret rc
  | inr mp =>
      p ← page_of mp;
      leaf ← lift (IS_LEAF p);
      if negb leaf then txn_error;; mret MDB_CORRUPTED
      else raise_flag C_INITIALIZED;; drop_flag C_EOF;; mret MDB_SUCCESS
  end.

Definition mdb_page_search_lowest : M Z :=
  mp ← top_pg;
  p ← page_of mp;
  a ← lift (NODEPTR p 0); pgno ← lift (NODEPGNO p a);
  r ← mdb_page_get fuel pgno;
  match r with
  | inl rc => mret rc
  | inr (mp, _) =>
      set_top_ki 0;;
      rc ← mdb_cursor_push mp;
      if negb (rc =? 0) then mret rc else mdb_page_search_root None MDB_PS_FIRST
  end.

(** The bytes of a key and of a datum: the node is at [a] in the page [p]. *)
Definition get_key (p : page) (a : Z) : res MDB_val :=
  k ← mn_ksize p a; bs ← mread p (NODEKEY a) k; Ok (MkVal k bs).

Definition mdb_node_read (p : page) (leaf : Z) : M (Z + MDB_val) :=
  fl ← lift (mn_flags p leaf);
  size ← lift (NODEDSZ p leaf);
  off ← lift (NODEDATA p leaf);
  if negb (F_ISSET fl F_BIGDATA) then bs ← lift (mread p off size); mret (inr (MkVal size bs))
  else
    bs ← lift (mread p off 8);
    r ← mdb_page_get fuel (le bs);
    match r with
    | inl rc => mret (inl rc)
    | inr (omp, _) =>
        op ← page_of omp; bs ← lift (mread op PAGEHDRSZ size); mret (inr (MkVal size bs))
    end.

(** [memcpy] into the record of a database. *)
Definition read_db (bs : list Z) : res MDB_db :=
  let field off n := b ← mread bs off n; Ok (le b) in
  pad ← field 0 4; fl ← field 4 2; depth ← field 6 2; branch ← field 8 8; leaf ← field 16 8;
  ovf ← field 24 8; entries ← field 32 8; root ← field 40 8;
  Ok (MkDb pad fl depth branch leaf ovf entries root).

Definition mdb_xcursor_init0 : M unit :=
  main ← mc;
  dbx ← mc_dbx;
  x ← xcursor;
  let '(c, db, fl) := match x with
                      | Some x => (mx_cursor x, mx_db (mx_sub x), mx_dbflag (mx_sub x))
                      | None => (uninit_cursor, None, None)
                      end in
  put_x (Some (MkXcursor (MkCursor (mc_dbi main) 0 0 C_SUB (mc_pg c) (mc_ki c))
                 (MkSubDb db (MkDbx (MkVal 0 []) (md_dcmp dbx) None) fl))).

(** [mdb_cursor_init]; [search] is [mdb_page_search], [mx] whether there is room for a
    sub-cursor. *)
Definition cursor_init (search : option MDB_val → Z → M Z) (dbi : Z) (mx : bool) : M unit :=
  c ← mc;
  put_mc (MkCursor dbi 0 0 0 (<[0%nat := None]> (mc_pg c)) (<[0%nat := Some 0]> (mc_ki c)));;
  put_own None;;
  db ← mc_db;
  (if has_flag (md_flags db) MDB_DUPSORT then lift (c_assert mx);; mdb_xcursor_init0 else put_x None);;
  f ← mc_dbflag;
  if has_flag f DB_STALE then _ ← search None MDB_PS_ROOTONLY; mret tt else mret tt.

(** The record of the named database, read again: 0 or a code. *)
Definition refresh_stale (search : option MDB_val → Z → M Z) : M Z :=
  c ← mc; t ← txn;
  s1 ← lift (cell (mt_dbiseqs t) (mc_dbi c));
  s2 ← lift (cell (me_dbiseqs t) (mc_dbi c));
  if negb (s1 =? s2) then mret MDB_BAD_DBI
  else
    dbx ← mc_dbx;
    data ← on_new (
      cursor_init search MAIN_DBI false;;
      rc ← search (Some (md_name dbx)) 0;
      if negb (rc =? 0) then mret (inl rc)
      else
        '(_, exact) ← search_node fuel (md_name dbx);
        if negb exact then mret (inl MDB_NOTFOUND)
        else
          mp ← top_pg; p ← page_of mp; i ← top_ki;
          leaf ← lift (NODEPTR p i);
          fl ← lift (mn_flags p leaf);
          if negb (Z.land fl (Z.lor F_DUPDATA F_SUBDATA) =? F_SUBDATA) then mret (inl MDB_INCOMPATIBLE)
          else mdb_node_read p leaf);
    match data with
    | inl rc => mret rc
    | inr data =>
        fl ← lift (rd16 (mv_data data) 4);
        db ← mc_db;
        if negb (Z.land (md_flags db) PERSISTENT_FLAGS =? fl) then mret MDB_INCOMPATIBLE
        else new ← lift (read_db (mv_data data)); refresh_db new;; mret MDB_SUCCESS
    end.

(** The part behind the refresh. *)
Definition search_from_root (key : option MDB_val) (flags : Z) : M Z :=
  db ← mc_db;
  let root := md_root db in
  if root =? P_INVALID then mret MDB_NOTFOUND
  else
    lift (c_assert (1 <? root));;
    c ← mc;
    pg0 ← lift (cell (mc_pg c) 0);
    other ← match pg0 with
            | None => mret true
            | Some mp => p ← page_of mp; bs ← lift (mread p 0 8); mret (negb (le bs =? root))
            end;
    r ← (if other : bool then
           r ← mdb_page_get fuel root;
           match r with inl rc => mret rc | inr (mp, _) => set_pg 0 (Some mp);; mret MDB_SUCCESS end
         else mret MDB_SUCCESS);
    if negb (r =? 0) then mret r
    else
      c ← mc;
      put_mc (set_snum_top c 1 0);;
      r ← (if has_flag flags MDB_PS_MODIFY then mdb_page_touch else mret MDB_SUCCESS);
      if negb (r =? 0) then mret r
      else if has_flag flags MDB_PS_ROOTONLY then mret MDB_SUCCESS
      else mdb_page_search_root key flags.

(** [n] bounds the nesting of the refreshes: a named database is found in the main one,
    which is never stale. *)
Fixpoint page_search (n : nat) (key : option MDB_val) (flags : Z) : M Z :=
  match n with
  | O => lift NoFuel
  | S n =>
      t ← txn;
      if has_flag (mt_flags t) MDB_TXN_BLOCKED then mret MDB_BAD_TXN
      else
        f ← mc_dbflag;
        rc ← (if has_flag f DB_STALE then refresh_stale (page_search n) else mret MDB_SUCCESS);
        if negb (rc =? 0) then mret rc else search_from_root key flags
  end.

Definition mdb_page_search (key : option MDB_val) (flags : Z) : M Z := page_search fuel key flags.

Definition mdb_cursor_init (dbi : Z) (mx : bool) : M unit := cursor_init mdb_page_search dbi mx.

(** ** Sub-cursors *)

(** [mdb_xcursor_init1] for a sub-page: its pointer, its bytes and the record made up
    for it; [main] is the record of the database. *)
Definition subpage_db (main : MDB_db) (fp : page) : res MDB_db :=
  n ← NUMKEYS fp; root ← mread fp 0 8; pad ← rd16 fp 8;
  let fixed := has_flag (md_flags main) MDB_DUPFIXED in
  let fl := if has_flag (md_flags main) MDB_INTEGERDUP then Z.lor MDB_DUPFIXED MDB_INTEGERKEY
            else MDB_DUPFIXED in
  Ok (MkDb (if fixed then pad else 0) (if fixed then fl else 0) 1 0 1 0 n (le root)).

(** The node with the duplicates is at [a] in the page [p] at [mp]. *)
Definition mdb_xcursor_init1 (mp : Ptr) (p : page) (a : Z) : M unit :=
  x ← xcursor;
  match x with
  | None => ub
  | Some (MkXcursor c d) =>
      fl ← lift (mn_flags p a);
      off ← lift (NODEDATA p a);
      main ← mc_db;
      '(c, db) ←
        (if has_flag fl F_SUBDATA then
           bs ← lift (mread p off 48); db ← lift (read_db bs);
           pg ← lift (set_cell (mc_pg c) 0 None);
           mret (MkCursor (mc_dbi c) 0 0 C_SUB pg (mc_ki c), db)
         else
           db ← lift (subpage_db main (drop (Z.to_nat off) p));
           pg ← lift (set_cell (mc_pg c) 0 (Some (ptr_add mp off)));
           ki ← lift (set_cell (mc_ki c) 0 (Some 0));
           mret (MkCursor (mc_dbi c) 1 0 (Z.lor C_INITIALIZED C_SUB) pg ki, db));
      let cmp := match md_cmp (mx_dbx d) with
                 | Some Cmp_int => if md_pad db =? 8 then Some Cmp_long else Some Cmp_int
                 | cmp => cmp
                 end in
      put_x (Some (MkXcursor c (MkSubDb (Some db) (MkDbx (md_name (mx_dbx d)) cmp (md_dcmp (mx_dbx d)))
                                  (Some (Z.lor DB_VALID (Z.lor DB_USRVALID DB_DUPDATA))))))
  end.

End Search.
