(* ===== verification/TreeProps.v ===== *)
(** * LMDB's B+tree: the shape of a tree, and the searches

    A tree is described by its entries in order, of any depth and page contents: a
    leaf holds its entries, a branch page the keys that separate its children.  This
    file says what the code reads from the pages of a tree, runs the operations on
    the stack of a cursor, and shows where the descent to a key ends. *)

From S2P Require Import Prelude.
From S2P Require Import Lmdb Midl Page PageProps Tree.

(** ** Reading a page in a longer piece of memory *)

Lemma mread_app p q off n bs : mread p off n = Ok bs → mread (p ++ q) off n = Ok bs.
Proof.
  unfold mread. case_bool; [|done]. bool_to_prop. intros [= <-].
  rewrite !(proj2 (Z.leb_le _ _)) by (rewrite ?length_app; lia). cbn [andb].
  rewrite drop_app_le by lia. rewrite take_app_le by (rewrite length_drop; lia). done.
Qed.

(** Reads that succeed in a page succeed when more memory follows it. *)
Definition stable {A} (f : page → res A) : Prop := ∀ p q x, f p = Ok x → f (p ++ q) = Ok x.

Lemma stable_bind {A B} (f : page → res A) (g : A → page → res B) :
  stable f → (∀ a, stable (g a)) → stable (λ p, f p ≫= λ a, g a p).
Proof.
  intros Hf Hg p q x H. apply res_bind_Ok in H as (a & Ha & H). apply res_bind_Ok.
  exists a. split; [by apply Hf|by apply Hg].
Qed.

Lemma stable_const {A} (r : res A) : stable (λ _, r).
Proof. by intros p q x. Qed.

Lemma stable_mread off n : stable (λ p, mread p off n).
Proof. intros p q x. apply mread_app. Qed.

Create HintDb stable.
#[export] Hint Resolve stable_bind stable_const stable_mread : stable.

(** A read in terms of reads that are stable. *)
Ltac stable_read := intros; repeat first
  [ apply stable_const | apply stable_mread | solve [auto with stable]
  | apply (stable_bind (λ p, _) (λ a p, _)); [|intros ?] ].

Lemma stable_rd16 off : stable (λ p, rd16 p off).
Proof. unfold rd16. stable_read. Qed.
#[export] Hint Resolve stable_rd16 : stable.

Lemma stable_MP_FLAGS : stable MP_FLAGS.
Proof. apply stable_rd16. Qed.
Lemma stable_MP_LOWER : stable MP_LOWER.
Proof. apply stable_rd16. Qed.
Lemma stable_NODEPTR i : stable (λ p, NODEPTR p i).
Proof. apply stable_rd16. Qed.
Lemma stable_mn_lo a : stable (λ p, mn_lo p a).
Proof. apply stable_rd16. Qed.
Lemma stable_mn_hi a : stable (λ p, mn_hi p a).
Proof. apply stable_rd16. Qed.
Lemma stable_mn_flags a : stable (λ p, mn_flags p a).
Proof. apply stable_rd16. Qed.
Lemma stable_mn_ksize a : stable (λ p, mn_ksize p a).
Proof. apply stable_rd16. Qed.
#[export] Hint Resolve stable_MP_FLAGS stable_MP_LOWER stable_NODEPTR stable_mn_lo stable_mn_hi
  stable_mn_flags stable_mn_ksize : stable.

Lemma stable_NUMKEYS : stable NUMKEYS.
Proof. unfold NUMKEYS. apply stable_bind; auto with stable. Qed.
Lemma stable_IS_LEAF : stable IS_LEAF.
Proof. unfold IS_LEAF. apply stable_bind; auto with stable. Qed.
Lemma stable_IS_LEAF2 : stable IS_LEAF2.
Proof. unfold IS_LEAF2. apply stable_bind; auto with stable. Qed.
Lemma stable_IS_BRANCH : stable IS_BRANCH.
Proof. unfold IS_BRANCH. apply stable_bind; auto with stable. Qed.
Lemma stable_NODEDATA a : stable (λ p, NODEDATA p a).
Proof. unfold NODEDATA. stable_read. Qed.
Lemma stable_NODEDSZ a : stable (λ p, NODEDSZ p a).
Proof. unfold NODEDSZ. stable_read. Qed.
Lemma stable_NODEPGNO a : stable (λ p, NODEPGNO p a).
Proof. unfold NODEPGNO. stable_read. Qed.
Lemma stable_node_key i : stable (λ p, node_key p i).
Proof. unfold node_key. stable_read. Qed.
Lemma stable_get_key a : stable (λ p, get_key p a).
Proof. unfold get_key. stable_read. Qed.

(** ** What the code reads from a page *)

Definition val (b : bytes) : MDB_val := MkVal (Z.of_nat (length b)) b.

Definition n_pgno (n : node) : Z :=
  Z.lor (Z.lor (n_lo n) (Z.shiftl (n_hi n) 16)) (Z.shiftl (n_flags n) 32).

(** The datum of a node: its bytes, or the number of an overflow page. *)
Definition n_val (n : node) : bytes :=
  take (Z.to_nat (if F_ISSET (n_flags n) F_BIGDATA then 8 else n_dsz n))
    (drop (Z.to_nat (n_ksize n)) (n_data n)).

Record node_reads (leaf : bool) (P : page) (i : Z) (n : node) (a : Z) : Prop := NodeReads {
  nr_ptr : NODEPTR P i = Ok a;
  nr_flags : mn_flags P a = Ok (n_flags n);
  nr_klen : Z.of_nat (length (n_key n)) < 2 ^ 16;
  nr_key : get_key P a = Ok (val (n_key n));
  nr_nodekey : node_key P i = Ok (val (n_key n));
  nr_dsz : NODEDSZ P a = Ok (n_dsz n);
  nr_pgno : NODEPGNO P a = Ok (n_pgno n);
  nr_data : leaf = true → ∃ off, NODEDATA P a = Ok off ∧
    mread P off (if F_ISSET (n_flags n) F_BIGDATA then 8 else n_dsz n) = Ok (n_val n) }.

Record page_reads (leaf : bool) (P : page) (ns : list node) : Prop := PageReads {
  pr_num : NUMKEYS P = Ok (Z.of_nat (length ns));
  pr_leaf : IS_LEAF P = Ok leaf;
  pr_leaf2 : IS_LEAF2 P = Ok false;
  pr_branch : IS_BRANCH P = Ok (negb leaf);
  pr_max : Z.of_nat (length ns) < 2 ^ 15;
  pr_node : ∀ i n, ns !! i = Some n → ∃ a, node_reads leaf P (Z.of_nat i) n a }.

Lemma length_n_key leaf n : node_ok leaf n → Z.of_nat (length (n_key n)) = n_ksize n.
Proof.
  intros Hn. pose proof (node_ksize_le leaf n Hn). destruct (no_ksize leaf n Hn).
  unfold n_key. rewrite length_take. lia.
Qed.

Lemma n_dsz_range leaf n : node_ok leaf n → 0 ≤ n_dsz n.
Proof.
  intros [[? _] [? _] _ _ _]. unfold n_dsz. apply Z.lor_nonneg. rewrite Z.shiftl_nonneg. lia.
Qed.

Section reads.
  Context {p : page} {leaf : bool} {l1 l2 : list Z} {n : node} {a : Z}.
  Context (Hp : p = l1 ++ node_bytes n ++ l2) (Ha : a = Z.of_nat (length l1)) (Hn : node_ok leaf n).

Lemma get_key_at : get_key p a = Ok (val (n_key n)).
Proof using All.
  unfold get_key. rewrite (mn_ksize_at Hp Ha Hn). cbn [mbind res_bind].
  pose proof (length_n_key leaf n Hn). pose proof (node_ksize_le leaf n Hn).
  rewrite (mread_at _ (l1 ++ le16 (n_lo n) ++ le16 (n_hi n) ++ le16 (n_flags n) ++ le16 (n_ksize n))
    (n_key n) (drop (Z.to_nat (n_ksize n)) (n_data n) ++ l2)); [| | |lia].
  - cbn [mbind res_bind]. unfold val. do 2 f_equal. lia.
  - rewrite Hp. unfold node_bytes, n_key. rewrite <-(take_drop (Z.to_nat (n_ksize n)) (n_data n)) at 1. app_eq.
  - unfold NODEKEY, NODESIZE. len.
Qed.

Lemma NODEPGNO_at : NODEPGNO p a = Ok (n_pgno n).
Proof using All.
  unfold NODEPGNO. rewrite (mn_lo_at Hp Ha Hn). cbn [mbind res_bind].
  rewrite (mn_hi_at Hp Ha Hn). cbn [mbind res_bind]. by rewrite (mn_flags_at Hp Ha Hn).
Qed.

Lemma n_val_at :
  leaf = true → ∃ off, NODEDATA p a = Ok off ∧
    mread p off (if F_ISSET (n_flags n) F_BIGDATA then 8 else n_dsz n) = Ok (n_val n).
Proof using All.
  intros ->. unfold NODEDATA. rewrite (mn_ksize_at Hp Ha Hn). cbn [mbind res_bind].
  eexists. split; [done|]. set (z := if F_ISSET (n_flags n) F_BIGDATA then 8 else n_dsz n).
  pose proof (n_dsz_range true n Hn) as Hd. destruct (no_ksize true n Hn) as [Hk _].
  assert (Hz : 0 ≤ z) by (unfold z; destruct (F_ISSET _ _); lia).
  pose proof (no_size true n Hn) as Hs. unfold node_size in Hs. fold z in Hs.
  pose proof (EVEN_bounds (NODESIZE + n_ksize n + z)) as He.
  assert (Hl : n_ksize n + z ≤ Z.of_nat (length (n_data n)))
    by (unfold node_bytes, NODESIZE in *; rewrite !length_app in Hs; cbn in Hs; lia).
  rewrite (mread_at _ (l1 ++ le16 (n_lo n) ++ le16 (n_hi n) ++ le16 (n_flags n) ++ le16 (n_ksize n) ++ n_key n)
    (n_val n) (drop (Z.to_nat z) (drop (Z.to_nat (n_ksize n)) (n_data n)) ++ l2)); [done| | |].
  - rewrite Hp. unfold node_bytes, n_key, n_val. fold z.
    rewrite <-(take_drop (Z.to_nat (n_ksize n)) (n_data n)) at 1.
    rewrite <-(take_drop (Z.to_nat z) (drop (Z.to_nat (n_ksize n)) (n_data n))) at 1. app_eq.
  - pose proof (length_n_key true n Hn). unfold NODESIZE. len.
  - unfold n_val. fold z. rewrite length_take, length_drop. lia.
Qed.

End reads.

Lemma holds_reads leaf p ns : holds leaf p ns → IS_BRANCH p = Ok (negb leaf) → page_reads leaf p ns.
Proof.
  intros (h & es & gap & lay & HW & -> & <-) Hb. split; rewrite ?length_fmap.
  - apply (holds_NUMKEYS HW).
  - apply (holds_IS_LEAF HW).
  - apply (holds_IS_LEAF2 HW).
  - done.
  - destruct HW as [Hh _ _ Hlo _ _ _ _]. destruct (ho_lower h Hh). lia.
  - intros i n Hi. apply list_lookup_fmap_Some in Hi as ([a n'] & -> & Hi). cbn [snd]. exists a.
    destruct (holds_node HW i a n' Hi) as (l1 & l2 & Hp & Ha & Hn). split.
    + apply (holds_NODEPTR HW i a n' Hi).
    + apply (mn_flags_at Hp Ha Hn).
    + rewrite (length_n_key leaf n' Hn). apply (no_ksize leaf n' Hn).
    + apply (get_key_at Hp Ha Hn).
    + rewrite (holds_node_key leaf h es gap lay i a n' HW Hi).
      unfold val. by rewrite (length_n_key leaf n' Hn).
    + apply (NODEDSZ_at leaf _ l1 n' l2); done.
    + apply (NODEPGNO_at Hp Ha Hn).
    + apply (n_val_at Hp Ha Hn).
Qed.

Lemma page_reads_app leaf p q ns : page_reads leaf p ns → page_reads leaf (p ++ q) ns.
Proof.
  intros [H1 H2 H3 H4 H5 H6]. split; [by apply stable_NUMKEYS|by apply stable_IS_LEAF|
    by apply stable_IS_LEAF2|by apply stable_IS_BRANCH|done|].
  intros i n Hi. destruct (H6 i n Hi) as (a & [N1 N2 N0 N3 N4 N5 N6 N7]). exists a.
  split; [by apply stable_NODEPTR|by apply stable_mn_flags|done|by apply stable_get_key|
    by apply stable_node_key|by apply stable_NODEDSZ|by apply stable_NODEPGNO|].
  intros Hl. destruct (N7 Hl) as (off & E1 & E2). exists off.
  split; [by apply stable_NODEDATA|by apply mread_app].
Qed.

(** ** The order of the keys *)

(** What the theorems need of a comparison function: on the keys that it is meant for it
    is a total order, and a search uses the same function on leaves and branch pages. *)
Class KeyOrder (cmp : MDB_cmp_func) : Type := {
  ord : bytes → bytes → Z;
  key_ok : bytes → Prop;
  key_size a : key_ok a → 0 < Z.of_nat (length a) < 2 ^ 32;
  ord_run a b : key_ok a → key_ok b → run_cmp cmp (val a) (val b) = Ok (ord a b);
  ord_eq a b : ord a b = 0 ↔ a = b;
  ord_anti a b : ord a b < 0 ↔ 0 < ord b a;
  ord_trans a b c : ord a b < 0 → ord b c < 0 → ord a c < 0;
  ord_search p : search_cmp p cmp = Ok cmp }.

Section order.
Context `{!KeyOrder cmp}.
Implicit Types a b c : bytes.

Lemma ord_refl a : ord a a = 0.
Proof. by apply ord_eq. Qed.

Lemma ord_le_lt a b c : ord a b ≤ 0 → ord b c < 0 → ord a c < 0.
Proof.
  intros Hab Hbc. destruct (Z.eq_dec (ord a b) 0) as [->%ord_eq|]; [done|].
  apply (ord_trans a b c); [lia|done].
Qed.

Lemma ord_lt_le a b c : ord a b < 0 → ord b c ≤ 0 → ord a c < 0.
Proof.
  intros Hab Hbc. destruct (Z.eq_dec (ord b c) 0) as [<-%ord_eq|]; [done|].
  apply (ord_trans a b c); [done|lia].
Qed.

Lemma ord_gt a b : 0 < ord a b → ord b a < 0.
Proof. apply ord_anti. Qed.
Lemma ord_lt a b : ord a b < 0 → 0 < ord b a.
Proof. apply ord_anti. Qed.
Lemma ord_ge a b : 0 ≤ ord a b → ord b a ≤ 0.
Proof.
  intros H. destruct (Z.eq_dec (ord a b) 0) as [->%ord_eq|]; [by rewrite ord_refl|].
  assert (ord b a < 0) by (apply ord_gt; lia). lia.
Qed.
End order.

(** The lexicographic order of the default comparison. *)
Fixpoint lex (a b : bytes) : Z :=
  match a, b with
  | [], [] => 0
  | [], _ :: _ => -1
  | _ :: _, [] => 1
  | x :: a, y :: b => if x =? y then lex a b else Z.sgn (x - y)
  end.

Lemma lex_memcmp a b :
  let n := (length a `min` length b)%nat in
  lex a b = (if negb (memcmp (take n a) (take n b) =? 0) then memcmp (take n a) (take n b)
             else Z.sgn (Z.of_nat (length a) - Z.of_nat (length b))).
Proof.
  revert b. induction a as [|x a IH]; intros [|y b]; cbn -[Z.of_nat]; [done|lia|lia|].
  destruct (Z.eqb_spec x y) as [->|Hne].
  - rewrite IH. cbn zeta. case_bool; [done|]. lia.
  - destruct (Z.eqb_spec (Z.sgn (x - y)) 0); [lia|done].
Qed.

Lemma memn_lex a b :
  Z.of_nat (length a) < 2 ^ 32 → Z.of_nat (length b) < 2 ^ 32 →
  run_cmp Cmp_memn (val a) (val b) = Ok (lex a b).
Proof.
  intros Ha Hb. cbn [run_cmp]. unfold mdb_cmp_memn, val. cbn [mv_size mv_data].
  rewrite lex_memcmp. cbn zeta. unfold val_bytes. cbn [mv_data].
  assert (Hr : ∀ (l : bytes) n, 0 ≤ n ≤ Z.of_nat (length l) → mread l 0 n = Ok (take (Z.to_nat n) l)).
  { intros l n Hn. unfold mread. rewrite !(proj2 (Z.leb_le _ _)) by lia. by rewrite drop_0. }
  destruct (Z.ltb_spec 0 (Z.of_nat (length a) - Z.of_nat (length b))).
  - rewrite !u32_small by lia. rewrite !Hr by lia. cbn [mbind res_bind].
    rewrite Nat2Z.id, Nat.min_r by lia. unfold len_diff_result. case_bool; [done|]. f_equal. change (1 <? 0) with false. cbn match. lia.
  - rewrite !u32_small by lia. rewrite !Hr by lia. cbn [mbind res_bind].
    rewrite Nat2Z.id, Nat.min_l by lia. unfold len_diff_result. case_bool; [done|].
    f_equal. destruct (Z.ltb_spec (Z.of_nat (length a) - Z.of_nat (length b)) 0); lia.
Qed.

Lemma lex_eq a b : lex a b = 0 ↔ a = b.
Proof.
  revert b. induction a as [|x a IH]; intros [|y b]; cbn; [done|done|done|].
  destruct (Z.eqb_spec x y) as [->|Hne].
  - rewrite IH. split; [by intros ->|by intros [= ->]].
  - split; [lia|intros [= -> _]; done].
Qed.

Lemma lex_anti a b : lex a b < 0 ↔ 0 < lex b a.
Proof.
  revert b. induction a as [|x a IH]; intros [|y b]; cbn; [lia|lia|lia|].
  rewrite (Z.eqb_sym y x). destruct (Z.eqb_spec x y); [apply IH|lia].
Qed.

Lemma lex_trans a b c : lex a b < 0 → lex b c < 0 → lex a c < 0.
Proof.
  revert b c. induction a as [|x a IH]; intros [|y b] [|z c]; cbn; try lia.
  destruct (Z.eqb_spec x y) as [->|], (Z.eqb_spec y z) as [->|]; try lia.
  - apply IH.
  - rewrite (proj2 (Z.eqb_neq x z)) by done. lia.
  - destruct (Z.eqb_spec x z); lia.
Qed.

#[export] Instance memn_order : KeyOrder Cmp_memn := {
  ord := lex; key_ok a := 0 < Z.of_nat (length a) < 2 ^ 32; key_size a H := H;
  ord_run a b Ha Hb := memn_lex a b (proj2 Ha) (proj2 Hb); ord_eq := lex_eq; ord_anti := lex_anti; ord_trans := lex_trans;
  ord_search p := eq_refl }.

(** ** The stack of a cursor *)

(** The cursor whose stack is [stk], from the root down; [rp] and [rk] are the cells
    above it. *)
Definition cur (dbi fl : Z) (stk : list (Ptr * Z)) (rp : list (option Ptr)) (rk : block) : MDB_cursor :=
  MkCursor dbi (Z.of_nat (length stk)) (Z.of_nat (pred (length stk))) fl
    ((Some <$> stk.*1) ++ rp) ((Some <$> stk.*2) ++ rk).

Lemma lift_Ok {A} (r : res A) a s : r = Ok a → lift r s = Ok (a, s).
Proof. by intros ->. Qed.

(** One step of a computation whose first call returns. *)
Ltac step H := rewrite (SM_bind_Ok _ _ _ _ _ H).
Ltac step_lift H := rewrite (SM_bind_Ok _ _ _ _ _ (lift_Ok _ _ _ H)).

Section stack.
Context (m : Mem) (t : MDB_txn) (dbi : Z).

(** The state of a plain cursor. *)
Definition st (c : MDB_cursor) : St := MkSt m t c None None.

Lemma mc_at c : mc (st c) = Ok (c, st c).
Proof. done. Qed.
Lemma own_at c : own (st c) = Ok (None, st c).
Proof. done. Qed.
Lemma txn_at c : txn (st c) = Ok (t, st c).
Proof. done. Qed.

Lemma cell_at {A} (l : list A) n x : l !! n = Some x → cell l (Z.of_nat n) = Ok x.
Proof. intros H. unfold cell. by rewrite (proj2 (Z.leb_le _ _)), Nat2Z.id, H by lia. Qed.

Lemma set_cell_at {A} (l : list A) n x y :
  l !! n = Some y → set_cell l (Z.of_nat n) x = Ok (<[n := x]> l).
Proof.
  intros H. apply lookup_lt_Some in H. unfold set_cell.
  rewrite (proj2 (Z.leb_le _ _)), (proj2 (Z.ltb_lt _ _)), Nat2Z.id by lia. done.
Qed.

Lemma lookup_stack {A} (f : Ptr * Z → A) stk x r :
  ((Some <$> (f <$> stk ++ [x])) ++ r) !! length stk = Some (Some (f x)).
Proof.
  rewrite !fmap_app, <-(assoc_L (++)).
  rewrite lookup_app_r by (rewrite !length_fmap; lia). by rewrite !length_fmap, Nat.sub_diag.
Qed.

Lemma insert_stack {A} (f : Ptr * Z → A) stk x y r :
  <[length stk := Some (f y)]> ((Some <$> (f <$> stk ++ [x])) ++ r)
  = (Some <$> (f <$> stk ++ [y])) ++ r.
Proof.
  rewrite !fmap_app, <-!(assoc_L (++)).
  rewrite insert_app_r_alt by (rewrite !length_fmap; lia).
  by rewrite !length_fmap, Nat.sub_diag.
Qed.

Lemma length_snoc {A} (l : list A) x : length (l ++ [x]) = S (length l).
Proof. rewrite length_app. cbn. lia. Qed.

Section top.
Context (fl : Z) (stk : list (Ptr * Z)) (q : Ptr) (k : Z) (rp : list (option Ptr)) (rk : block).
Let c : MDB_cursor := cur dbi fl (stk ++ [(q, k)]) rp rk.

Lemma cur_top : mc_top c = Z.of_nat (length stk).
Proof using Type. unfold c, cur. cbn [mc_top]. by rewrite length_snoc. Qed.

Lemma cur_snum : mc_snum c = Z.of_nat (S (length stk)).
Proof using Type. unfold c, cur. cbn [mc_snum]. by rewrite length_snoc. Qed.

Lemma top_pg_at : top_pg (st c) = Ok (q, st c).
Proof using Type.
  unfold top_pg, pg_at. step (mc_at c). step (mc_at c). rewrite cur_top.
  by step_lift (cell_at _ _ _ (lookup_stack fst stk (q, k) rp)).
Qed.

Lemma top_ki_at : top_ki (st c) = Ok (k, st c).
Proof using Type.
  unfold top_ki, ki_at. step (mc_at c). step (mc_at c). rewrite cur_top.
  apply lift_Ok, read_byte_lookup, (lookup_stack snd stk (q, k) rk).
Qed.

Lemma set_top_ki_at v :
  0 ≤ v < 65536 → set_top_ki v (st c) = Ok (tt, st (cur dbi fl (stk ++ [(q, v)]) rp rk)).
Proof using Type.
  intros Hv. unfold set_top_ki, set_ki. step (mc_at c). step (mc_at c). rewrite cur_top.
  rewrite u16_small by done.
  step_lift (set_cell_at _ _ (Some v) _ (lookup_stack snd stk (q, k) rk)).
  unfold put_mc, set_mc_ki, st, c, cur. cbn. do 3 f_equal. f_equal.
  - by rewrite !length_snoc.
  - by rewrite !length_snoc.
  - by rewrite !fmap_app.
  - apply (insert_stack snd stk (q, k) (q, v)).
Qed.

Lemma upd_flags_at f : upd_flags f (st c) = Ok (tt, st (cur dbi (f fl) (stk ++ [(q, k)]) rp rk)).
Proof using Type. done. Qed.

Lemma pop_at :
  stk ≠ [] → Z.of_nat (length stk) < 65535 →
  mdb_cursor_pop (st c) = Ok (tt, st (cur dbi fl stk (Some q :: rp) (Some k :: rk))).
Proof using Type.
  intros Hne Hl. unfold mdb_cursor_pop. step (mc_at c).
  destruct (decide (length stk = 0%nat)) as [?%nil_length_inv|]; [done|].
  rewrite cur_snum, (proj2 (Z.eqb_neq _ _)) by lia.
  replace (Z.of_nat (S (length stk)) - 1) with (Z.of_nat (length stk)) by lia.
  rewrite u16_small, (proj2 (Z.eqb_neq _ _)) by lia. cbn [negb].
  unfold put_mc, set_snum_top, st. rewrite cur_top, !u16_small by lia. unfold c, cur. cbn.
  rewrite !fmap_app, <-!(assoc_L (++)). cbn. do 4 f_equal. lia.
Qed.

Lemma unpop_at :
  stk ≠ [] → Z.of_nat (length stk) < 65534 →
  put_mc (set_snum_top (cur dbi fl stk (Some q :: rp) (Some k :: rk))
    (mc_snum (cur dbi fl stk (Some q :: rp) (Some k :: rk)) + 1)
    (mc_top (cur dbi fl stk (Some q :: rp) (Some k :: rk)) + 1))
    (st (cur dbi fl stk (Some q :: rp) (Some k :: rk))) = Ok (tt, st c).
Proof using Type.
  intros Hne Hl. destruct (decide (length stk = 0%nat)) as [?%nil_length_inv|]; [done|].
  unfold put_mc, set_snum_top, st, c, cur. cbn.
  rewrite !u16_small by lia. rewrite !fmap_app, <-!(assoc_L (++)), !length_snoc. cbn. do 4 f_equal; lia.
Qed.
End top.

Lemma push_at fl stk q x y rp rk :
  stk ≠ [] → (length stk < 32)%nat →
  mdb_cursor_push q (st (cur dbi fl stk (x :: rp) (y :: rk)))
  = Ok (MDB_SUCCESS, st (cur dbi fl (stk ++ [(q, 0)]) rp rk)).
Proof.
  intros Hne Hl. destruct (decide (length stk = 0%nat)) as [?%nil_length_inv|]; [done|].
  unfold mdb_cursor_push. step (mc_at (cur dbi fl stk (x :: rp) (y :: rk))).
  change (mc_snum (cur dbi fl stk (x :: rp) (y :: rk))) with (Z.of_nat (length stk)). unfold CURSOR_STACK. rewrite (proj2 (Z.leb_gt _ _)) by lia.
  assert (Hx : ∀ {A} (l : list A) z r, length l = length stk → (l ++ z :: r) !! length stk = Some z).
  { intros A l z r E. rewrite lookup_app_r by lia. by rewrite E, Nat.sub_diag. }
  assert (Hi : ∀ {A} (l : list A) z z' r, length l = length stk →
    <[length stk := z']> (l ++ z :: r) = l ++ z' :: r).
  { intros A l z z' r E. rewrite insert_app_r_alt by lia. by rewrite E, Nat.sub_diag. }
  set (c1 := MkCursor dbi (Z.of_nat (S (length stk))) (Z.of_nat (length stk)) fl
    ((Some <$> stk.*1) ++ x :: rp) ((Some <$> stk.*2) ++ y :: rk)).
  assert (E1 : put_mc (set_snum_top (cur dbi fl stk (x :: rp) (y :: rk)) (Z.of_nat (length stk) + 1)
    (Z.of_nat (length stk))) (st (cur dbi fl stk (x :: rp) (y :: rk))) = Ok (tt, st c1)).
  { unfold put_mc, set_snum_top, st, c1, cur. cbn. rewrite !u16_small by lia. do 4 f_equal. lia. }
  step E1. set (c2 := set_mc_pg c1 ((Some <$> stk.*1) ++ Some q :: rp)).
  assert (E2 : set_pg (Z.of_nat (length stk)) (Some q) (st c1) = Ok (tt, st c2)).
  { unfold set_pg. step (mc_at c1).
    step_lift (set_cell_at (mc_pg c1) _ (Some q) _ (Hx _ (Some <$> stk.*1) x rp ltac:(by rewrite !length_fmap))).
    unfold c2, c1. cbn [mc_pg]. by rewrite Hi by (by rewrite !length_fmap). }
  step E2. set (c3 := set_mc_ki c2 ((Some <$> stk.*2) ++ Some 0 :: rk)).
  assert (E3 : set_ki (Z.of_nat (length stk)) 0 (st c2) = Ok (tt, st c3)).
  { unfold set_ki. step (mc_at c2). change (u16 0) with 0.
    step_lift (set_cell_at (mc_ki c2) _ (Some 0) _ (Hx _ (Some <$> stk.*2) y rk ltac:(by rewrite !length_fmap))).
    unfold c3, c2, c1. cbn [mc_ki set_mc_pg]. by rewrite Hi by (by rewrite !length_fmap). }
  step E3. unfold c3, c2, c1, st, cur, set_mc_ki, set_mc_pg. cbn.
  rewrite !fmap_app, <-!(assoc_L (++)), length_snoc. done.
Qed.
End stack.

(** ** Trees *)

(** An open database: its record, the comparison of its keys, and nothing that would
    stop a search. *)
Record opened (t : MDB_txn) (dbi : Z) (db : MDB_db) (cmp : MDB_cmp_func) : Prop := Opened {
  op_db : cell (mt_dbs t) dbi = Ok db;
  op_dbx : ∃ dbx, cell (mt_dbxs t) dbi = Ok dbx ∧ md_cmp dbx = Some cmp;
  op_flag : ∃ f, cell (mt_dbflags t) dbi = Ok f ∧ has_flag f DB_STALE = false;
  op_txn : has_flag (mt_flags t) MDB_TXN_BLOCKED = false;
  op_dup : has_flag (md_flags db) MDB_DUPSORT = false }.

Section tree.
Context (fuel : nat) (m : Mem) (t : MDB_txn) (cmp : MDB_cmp_func) `{!KeyOrder cmp}.

Abbreviation entries := (list (bytes * bytes)).

(** The page of a number is at [q]. *)
Definition found (pgno : Z) (q : Ptr) : Prop := ∃ lvl, page_find fuel m t pgno = Ok (Some (q, lvl)).

Definition page_at (leaf : bool) (q : Ptr) (ns : list node) : Prop :=
  ∃ P, from m q = Ok P ∧ page_reads leaf P ns.

(** The datum of a node, in the node or on overflow pages. *)
Definition datum (n : node) (v : bytes) : Prop :=
  if F_ISSET (n_flags n) F_BIGDATA
  then ∃ q P, found (le (n_val n)) q ∧ from m q = Ok P ∧ mread P PAGEHDRSZ (n_dsz n) = Ok v
  else v = n_val n.

Definition entry (n : node) (kv : bytes * bytes) : Prop :=
  n_key n = kv.1 ∧ datum n kv.2 ∧ F_ISSET (n_flags n) F_DUPDATA = false.

(** Proper keys, in order from the index [i0] on. *)
Definition ascending (i0 : nat) (ks : list bytes) : Prop :=
  (∀ i a, (i0 ≤ i)%nat → ks !! i = Some a → key_ok a) ∧
  (∀ i j a b, (i0 ≤ i < j)%nat → ks !! i = Some a → ks !! j = Some b → ord a b < 0).

Definition above (lo : option bytes) (k : bytes) : Prop :=
  match lo with Some l => ord l k ≤ 0 | None => True end.
Definition below (hi : option bytes) (k : bytes) : Prop :=
  match hi with Some h => ord k h < 0 | None => True end.

(** The bounds of the child [i]: the key of its node and of the next one; the key of
    the first node does not count. *)
Definition lo_at (bs : list node) (lo : option bytes) (i : nat) : option bytes :=
  match i with O => lo | _ => n_key <$> bs !! i end.
Definition hi_at (bs : list node) (hi : option bytes) (i : nat) : option bytes :=
  match bs !! S i with Some b => Some (n_key b) | None => hi end.

Fixpoint tree (d : nat) (pgno : Z) (lo hi : option bytes) (es : entries) : Prop :=
  Forall (λ k, above lo k ∧ below hi k) es.*1 ∧
  match d with
  | O => ∃ q ns, found pgno q ∧ page_at true q ns ∧ Forall2 entry ns es ∧ es ≠ [] ∧ ascending 0 es.*1
  | S d => ∃ q bs (ess : list entries), found pgno q ∧ page_at false q bs ∧ (2 ≤ length bs)%nat ∧
             length ess = length bs ∧ es = concat ess ∧ ascending 1 (n_key <$> bs) ∧
             ∀ i b e, bs !! i = Some b → ess !! i = Some e →
               tree d (n_pgno b) (lo_at bs lo i) (hi_at bs hi i) e
  end.

Definition branch (d : nat) (pgno : Z) (lo hi : option bytes) (q : Ptr) (bs : list node)
    (ess : list entries) : Prop :=
  found pgno q ∧ page_at false q bs ∧ (2 ≤ length bs)%nat ∧ length ess = length bs ∧
  ascending 1 (n_key <$> bs) ∧
  ∀ i b e, bs !! i = Some b → ess !! i = Some e →
    tree d (n_pgno b) (lo_at bs lo i) (hi_at bs hi i) e.

(** The path [stk] leads from the root of a tree of the entries [all] to the subtree
    [pgno]: [bef] and [aft] are the entries on its left and on its right. *)
Inductive spine (root : Z) (all : entries) :
    list (Ptr * Z) → nat → Z → option bytes → option bytes → entries → entries → entries → Prop :=
| spine_nil d : tree d root None None all → spine root all [] d root None None [] all []
| spine_snoc stk d pgno lo hi bef aft q bs ess i b e :
    spine root all stk (S d) pgno lo hi bef (concat ess) aft → branch d pgno lo hi q bs ess →
    bs !! i = Some b → ess !! i = Some e →
    spine root all (stk ++ [(q, Z.of_nat i)]) d (n_pgno b) (lo_at bs lo i) (hi_at bs hi i)
      (bef ++ concat (take i ess)) e (concat (drop (S i) ess) ++ aft).

Lemma concat_split {A} (ess : list (list A)) i e :
  ess !! i = Some e → concat ess = concat (take i ess) ++ e ++ concat (drop (S i) ess).
Proof.
  intros Hi. rewrite <-(take_drop_middle ess i e) at 1 by done.
  by rewrite concat_app.
Qed.

Lemma spine_all root all stk d pgno lo hi bef es aft :
  spine root all stk d pgno lo hi bef es aft → all = bef ++ es ++ aft.
Proof.
  induction 1 as [d|stk d pgno lo hi bef aft q bs ess i b e Hs IH Hb Hi He];
    [by rewrite app_nil_r|].
  rewrite IH, (concat_split ess i e He). by rewrite <-!(assoc_L (++)).
Qed.

Lemma spine_tree root all stk d pgno lo hi bef es aft :
  spine root all stk d pgno lo hi bef es aft → tree d pgno lo hi es.
Proof.
  destruct 1 as [d|stk d pgno lo hi bef aft q bs ess i b e Hs Hb Hi He]; [done|].
  destruct Hb as (_ & _ & _ & _ & _ & Ht). by apply Ht.
Qed.

Lemma tree_found d pgno lo hi es : tree d pgno lo hi es → ∃ q, found pgno q.
Proof. destruct d; [intros (_ & q & ns & ? & _)|intros (_ & q & bs & ess & ? & _)]; by exists q. Qed.

Lemma tree_nonempty d pgno lo hi es : tree d pgno lo hi es → es ≠ [].
Proof.
  revert pgno lo hi es. induction d as [|d IH]; intros pgno lo hi es.
  - by intros (_ & q & ns & _ & _ & _ & ? & _).
  - intros (_ & q & bs & ess & _ & _ & H2 & Hl & -> & _ & Ht).
    destruct bs as [|b bs]; [cbn in H2; lia|]. destruct ess as [|e ess]; [done|].
    specialize (Ht 0%nat b e eq_refl eq_refl). apply IH in Ht. cbn. by destruct e.
Qed.

Lemma tree_bounds d pgno lo hi es : tree d pgno lo hi es → Forall (λ k, above lo k ∧ below hi k) es.*1.
Proof. by destruct d; intros [? _]. Qed.

Lemma tree_branch d pgno lo hi es :
  tree (S d) pgno lo hi es → ∃ q bs ess, branch d pgno lo hi q bs ess ∧ es = concat ess.
Proof.
  intros (_ & q & bs & ess & Hf & Hp & H2 & Hl & -> & Ha & Ht). by exists q, bs, ess.
Qed.

(** ** The descent *)

Context (dbi : Z) (db : MDB_db) (Ho : opened t dbi db cmp).
Abbreviation st := (st m t).
Abbreviation cur := (cur dbi).

Lemma mc_db_at fl stk rp rk : mc_db (st (cur fl stk rp rk)) = Ok (db, st (cur fl stk rp rk)).
Proof using Ho.
  set (c := cur fl stk rp rk). unfold mc_db. step (own_at m t c). step (mc_at m t c). step (txn_at m t c).
  apply lift_Ok, (op_db _ _ _ _ Ho).
Qed.

Lemma mc_dbx_at fl stk rp rk :
  ∃ dbx, mc_dbx (st (cur fl stk rp rk)) = Ok (dbx, st (cur fl stk rp rk)) ∧ md_cmp dbx = Some cmp.
Proof using Ho.
  destruct (op_dbx _ _ _ _ Ho) as (dbx & E & Hc). exists dbx. split; [|done].
  set (c := cur fl stk rp rk). unfold mc_dbx. step (own_at m t c). step (mc_at m t c). step (txn_at m t c).
  apply lift_Ok, E.
Qed.

Lemma page_of_at q P c : from m q = Ok P → page_of q (st c) = Ok (P, st c).
Proof using Type. intros H. unfold page_of. cbn [st_mem TreeProps.st]. by rewrite H. Qed.

(** [mdb_node_search] on the top page: the first entry that is not less than the key. *)
Lemma search_page (leaf : bool) q ns fl stk k0 rp rk key :
  let low0 := (if leaf then 0 else 1)%nat in
  (17 ≤ fuel)%nat → page_at leaf q ns → (leaf = false → (2 ≤ length ns)%nat) →
  ascending low0 (n_key <$> ns) → key_ok key →
  ∃ r, (low0 ≤ r ≤ length ns)%nat ∧
    (∀ j n, (low0 ≤ j < r)%nat → ns !! j = Some n → 0 < ord key (n_key n)) ∧
    (∀ j n, (r ≤ j)%nat → ns !! j = Some n → ord key (n_key n) ≤ 0) ∧
    search_node fuel (val key) (st (cur fl (stk ++ [(q, k0)]) rp rk))
    = Ok ((bool_decide (r < length ns)%nat,
           match ns !! r with Some n => ord key (n_key n) =? 0 | None => false end),
          st (cur fl (stk ++ [(q, Z.of_nat r)]) rp rk)).
Proof using Ho.
  intros low0 Hfuel (P & HP & HR) H2 [Hok Hasc] Hkey.
  destruct (node_search_reads fuel leaf P ns (md_pad db) cmp cmp (val key) (λ n, val (n_key n))
    (λ n, ord key (n_key n))) as (r & Hr & Hlo & Hhi & E); try done.
  - apply (pr_num _ _ _ HR).
  - apply (pr_leaf _ _ _ HR).
  - apply (pr_leaf2 _ _ _ HR).
  - intros j n Hj. destruct (pr_node _ _ _ HR j n Hj) as [a Ha]. apply (nr_nodekey _ _ _ _ _ Ha).
  - pose proof (pr_max _ _ _ HR). lia.
  - apply ord_search.
  - intros j n Hl Hj. apply ord_run; [done|]. apply (Hok j); [done|by rewrite list_lookup_fmap, Hj].
  - intros j j' n n' Hj Hn Hn' Hle. apply ord_le_lt with (n_key n); [done|].
    apply (Hasc j j'); [done|by rewrite list_lookup_fmap, Hn|by rewrite list_lookup_fmap, Hn'].
  - exists r. split_and!; [lia|lia|done|done|].
    unfold search_node. step (top_pg_at m t dbi fl stk q k0 rp rk).
    step (page_of_at q P (cur fl (stk ++ [(q, k0)]) rp rk) HP).
    step (mc_db_at fl (stk ++ [(q, k0)]) rp rk).
    destruct (mc_dbx_at fl (stk ++ [(q, k0)]) rp rk) as (dbx & Ex & Hc). step Ex.
    rewrite Hc. change (init_cell (Some cmp)) with (mret cmp : M MDB_cmp_func).
    rewrite (SM_bind_Ok (mret cmp) _ _ cmp _ eq_refl). step_lift E.
    pose proof (pr_max _ _ _ HR).
    by step (set_top_ki_at m t dbi fl stk q k0 rp rk (Z.of_nat r) ltac:(lia)).
Qed.

Lemma found_inj pgno q q' : found pgno q → found pgno q' → q = q'.
Proof using Type. intros [l E] [l' E']. rewrite E in E'. by injection E'. Qed.

Lemma page_get_at pgno q c :
  found pgno q → ∃ lvl, mdb_page_get fuel pgno (st c) = Ok (inr (q, lvl), st c).
Proof using Type.
  intros [lvl E]. exists lvl. unfold mdb_page_get. cbn [st_mem st_txn TreeProps.st]. by rewrite E.
Qed.

(** The stack with the cells above it has the 32 cells of the cursor. *)
Definition room {A B} (stk : list A) (rp : list B) (rk : block) : Prop :=
  (length stk + length rp = 32)%nat ∧ length rk = length rp.

Context (touch : M Z).

(** One round of the descent, to the child [i]. *)
Lemma root_step_at d pgno lo hi q bs ess P key flags fl stk k0 k1 rp rk i b :
  branch d pgno lo hi q bs ess → from m q = Ok P → bs !! i = Some b →
  branch_index fuel P (Z.of_nat (length bs)) key flags (st (cur fl (stk ++ [(q, k0)]) rp rk))
  = Ok (Some (Z.of_nat i), st (cur fl (stk ++ [(q, k1)]) rp rk)) →
  has_flag flags MDB_PS_MODIFY = false → room (stk ++ [(q, k0)]) rp rk → rp ≠ [] →
  ∃ q' rp' rk', found (n_pgno b) q' ∧
    root_step fuel touch q P key flags (st (cur fl (stk ++ [(q, k0)]) rp rk))
    = Ok (inr q', st (cur fl ((stk ++ [(q, Z.of_nat i)]) ++ [(q', 0)]) rp' rk')) ∧
    length rp = S (length rp') ∧ length rk' = length rp'.
Proof using Type.
  intros (Hf & (P' & HP' & HR) & H2 & Hl & Ha & Ht) HP Hb Hbi Hmod [Hr1 Hr2] Hne.
  rewrite HP in HP'. injection HP' as <-.
  destruct (lookup_lt_is_Some_2 ess i) as [e He]; [rewrite Hl; by apply lookup_lt_Some in Hb|].
  destruct (tree_found _ _ _ _ _ (Ht i b e Hb He)) as [q' Hq'].
  destruct rp as [|x rp]; [done|]. destruct rk as [|y rk]; [done|].
  exists q', rp, rk. split; [done|]. split; [|cbn in Hr2; split; [done|lia]].
  pose proof (pr_max _ _ _ HR) as Hmax. apply lookup_lt_Some in Hb as Hi.
  destruct (pr_node _ _ _ HR i b Hb) as [a Hna].
  unfold root_step. step_lift (pr_num _ _ _ HR).
  step (mc_at m t (cur fl (stk ++ [(q, k0)]) (x :: rp) (y :: rk))).
  assert (Ec : ∀ b : bool, c_assert (b || (1 <? Z.of_nat (length bs)))%bool = Ok tt).
  { intros b'. rewrite (proj2 (Z.ltb_lt _ _)) by lia. by rewrite orb_true_r. }
  step_lift (Ec (mc_dbi (cur fl (stk ++ [(q, k0)]) (x :: rp) (y :: rk)) =? 0)). step Hbi.
  assert (Ec2 : c_assert (Z.of_nat i <? Z.of_nat (length bs)) = Ok tt) by (by rewrite (proj2 (Z.ltb_lt _ _)) by lia).
  set (c := cur fl (stk ++ [(q, k1)]) (x :: rp) (y :: rk)).
  destruct (page_get_at (n_pgno b) q' c Hq') as [lvl Eg].
  assert (Einner : (lift (c_assert (Z.of_nat i <? Z.of_nat (length bs)));;
      a ← lift (NODEPTR P (Z.of_nat i)); pgno ← lift (NODEPGNO P a);
      r ← mdb_page_get fuel pgno;
      match r with
      | inl rc => mret (inl rc)
      | inr (mp, _) => set_top_ki (Z.of_nat i);; rc ← mdb_cursor_push mp;
                       mret (if negb (rc =? 0) then inl rc else inr mp)
      end : M (Z + Ptr)) (st c)
    = Ok (inr q', st (cur fl ((stk ++ [(q, Z.of_nat i)]) ++ [(q', 0)]) rp rk))).
  { step_lift Ec2. step_lift (nr_ptr _ _ _ _ _ Hna). step_lift (nr_pgno _ _ _ _ _ Hna). step Eg.
    unfold c. step (set_top_ki_at m t dbi fl stk q k1 (x :: rp) (y :: rk) (Z.of_nat i) ltac:(lia)).
    assert (Hlen : (length (stk ++ [(q, Z.of_nat i)]) < 32)%nat)
      by (rewrite length_app in *; cbn in *; lia).
    step (push_at m t dbi fl (stk ++ [(q, Z.of_nat i)]) q' x y rp rk ltac:(by destruct stk) Hlen). done. }
  step Einner. by rewrite Hmod.
Qed.

Section descends.
Context (key : option MDB_val) (flags fl : Z) (Good : entries → entries → Prop).

(** The way the code chooses a child keeps [Good] of the entries on both sides. *)
Definition chooses : Prop := ∀ d pgno lo hi q bs ess bef aft stk k0 rp rk P,
  from m q = Ok P → branch d pgno lo hi q bs ess → Good bef aft →
  ∃ i b e k1, bs !! i = Some b ∧ ess !! i = Some e ∧
    branch_index fuel P (Z.of_nat (length bs)) key flags (st (cur fl (stk ++ [(q, k0)]) rp rk))
    = Ok (Some (Z.of_nat i), st (cur fl (stk ++ [(q, k1)]) rp rk)) ∧
    Good (bef ++ concat (take i ess)) (concat (drop (S i) ess) ++ aft).

Lemma root_loop_at root all d n stk q k0 pgno lo hi bef es aft rp rk :
  chooses → has_flag flags MDB_PS_MODIFY = false → (d < n)%nat →
  spine root all stk d pgno lo hi bef es aft → found pgno q → Good bef aft →
  (d ≤ length rp)%nat → room (stk ++ [(q, k0)]) rp rk →
  ∃ stk' q' k' pgno' lo' hi' bef' es' aft' rp' rk',
    root_loop fuel touch n q key flags (st (cur fl (stk ++ [(q, k0)]) rp rk))
    = Ok (inr q', st (cur fl (stk' ++ [(q', k')]) rp' rk')) ∧
    spine root all stk' 0 pgno' lo' hi' bef' es' aft' ∧ found pgno' q' ∧ Good bef' aft' ∧
    room (stk' ++ [(q', k')]) rp' rk'.
Proof using Type.
  intros Hch Hmod. revert n stk q k0 pgno lo hi bef es aft rp rk.
  induction d as [|d IH]; intros n stk q k0 pgno lo hi bef es aft rp rk Hn Hs Hf Hg Hd Hroom;
    (destruct n as [|n]; [lia|]); pose proof (spine_tree _ _ _ _ _ _ _ _ _ _ Hs) as Ht.
  - destruct Ht as (_ & q1 & ns & Hf1 & (P & HP & HR) & _).
    rewrite <-(found_inj _ _ _ Hf Hf1) in HP.
    exists stk, q, k0, pgno, lo, hi, bef, es, aft, rp, rk. split_and!; try done.
    cbn [root_loop]. step (page_of_at q P (cur fl (stk ++ [(q, k0)]) rp rk) HP).
    by step_lift (pr_branch _ _ _ HR).
  - apply tree_branch in Ht as (q1 & bs & ess & Hbr & ->).
    assert (q1 = q) as -> by (apply (found_inj pgno); [apply Hbr|done]).
    pose proof Hbr as (_ & (P & HP & HR) & _ & _ & _ & Ht).
    destruct (Hch d pgno lo hi q bs ess bef aft stk k0 rp rk P) as (i & b & e & k1 & Hb & He & Hbi & Hg');
      [done|done|done|].
    destruct (root_step_at d pgno lo hi q bs ess P key flags fl stk k0 k1 rp rk i b) as
      (q' & rp' & rk' & Hf' & Es & Hl1 & Hl2); try done.
    { intros ->. cbn in Hd. lia. }
    destruct (IH n (stk ++ [(q, Z.of_nat i)]) q' 0 (n_pgno b) (lo_at bs lo i) (hi_at bs hi i)
      (bef ++ concat (take i ess)) e (concat (drop (S i) ess) ++ aft) rp' rk')
      as (stk' & q2 & k' & pgno' & lo' & hi' & bef' & es' & aft' & rp2 & rk2 & E & H'); try done; try lia.
    { by apply spine_snoc with pgno. }
    { destruct Hroom as [Hr1 Hr2]. rewrite !length_app in *. cbn in *. split; [|done]. 
      rewrite !length_app. cbn. lia. }
    exists stk', q2, k', pgno', lo', hi', bef', es', aft', rp2, rk2. split; [|done].
    cbn [root_loop]. step (page_of_at q P (cur fl (stk ++ [(q, k0)]) rp rk) HP).
    step_lift (pr_branch _ _ _ HR). cbn [negb]. step Es. exact E.
Qed.
End descends.

(** The entries before and behind a key. *)
Definition around (key : bytes) (bef aft : entries) : Prop :=
  Forall (λ kv, ord kv.1 key < 0) bef ∧ Forall (λ kv, ord key kv.1 < 0) aft.

Lemma Forall_concat {A} (P : A → Prop) (ls : list (list A)) :
  (∀ i l, ls !! i = Some l → Forall P l) → Forall P (concat ls).
Proof.
  intros H. apply Forall_concat, Forall_forall. intros l Hl.
  apply list_elem_of_lookup in Hl as [i Hi]. by apply (H i).
Qed.

(** The child [i] is the one for the key: the key of its node is not greater, and the
    next one is. *)
Lemma around_child d pgno lo hi q bs ess bef aft i key :
  branch d pgno lo hi q bs ess → around key bef aft → (i < length bs)%nat →
  (∀ j b, (1 ≤ j ≤ i)%nat → bs !! j = Some b → ord (n_key b) key ≤ 0) →
  (∀ j b, (i < j)%nat → bs !! j = Some b → ord key (n_key b) < 0) →
  around key (bef ++ concat (take i ess)) (concat (drop (S i) ess) ++ aft).
Proof using Type.
  intros (_ & _ & _ & Hl & _ & Ht) [Hbef Haft] Hi Hle Hgt.
  assert (Hch : ∀ j e, ess !! j = Some e → ∃ b, bs !! j = Some b ∧
    Forall (λ kv, above (lo_at bs lo j) kv.1 ∧ below (hi_at bs hi j) kv.1) e).
  { intros j e He. destruct (lookup_lt_is_Some_2 bs j) as [b Hb]; [rewrite <-Hl; by apply lookup_lt_Some in He|].
    exists b. split; [done|]. pose proof (tree_bounds _ _ _ _ _ (Ht j b e Hb He)) as H.
    by rewrite Forall_fmap in H. }
  split; apply Forall_app; (split; [|done]) || (split; [done|]); apply Forall_concat; intros j e He.
  - apply lookup_take_Some in He as [He Hj]. destruct (Hch j e He) as (b & Hb & Hall).
    destruct (lookup_lt_is_Some_2 bs (S j)) as [b' Hb']; [lia|].
    eapply Forall_impl; [apply Hall|]. intros kv [_ Hb2]. unfold hi_at in Hb2. rewrite Hb' in Hb2.
    apply ord_lt_le with (n_key b'); [done|]. apply (Hle (S j)); [lia|done].
  - rewrite lookup_drop in He. destruct (Hch _ e He) as (b & Hb & Hall).
    eapply Forall_impl; [apply Hall|]. intros kv [Ha _]. cbn [lo_at] in Ha.
    change (above (n_key <$> bs !! (S i + j)%nat) kv.1) in Ha. rewrite Hb in Ha. cbn in Ha.
    apply ord_lt_le with (n_key b); [|done]. apply (Hgt (S i + j)%nat); [lia|done].
Qed.

Lemma chooses_key key fl :
  (17 ≤ fuel)%nat → key_ok key → chooses (Some (val key)) 0 fl (around key).
Proof using Ho.
  intros Hfuel Hk d pgno lo hi q bs ess bef aft stk k0 rp rk P HP Hbr Hg.
  pose proof Hbr as (_ & Hpage & H2 & Hl & Hasc & _).
  destruct (search_page false q bs fl stk k0 rp rk key Hfuel Hpage (λ _, H2) Hasc Hk)
    as (r & Hr & Hlo & Hhi & E).
  set (exact := match bs !! r with Some n => ord key (n_key n) =? 0 | None => false end) in *.
  set (i := if exact then r else (r - 1)%nat).
  assert (Hex : exact = true → (r < length bs)%nat).
  { unfold exact. destruct (bs !! r) eqn:Er; [|done]. by apply lookup_lt_Some in Er. }
  assert (Hi : (i < length bs)%nat) by (unfold i; destruct exact; [by apply Hex|lia]).
  destruct (lookup_lt_is_Some_2 bs i Hi) as [b Hb].
  destruct (lookup_lt_is_Some_2 ess i) as [e He]; [lia|].
  exists i, b, e, (Z.of_nat r). split_and!; [done|done| |].
  - unfold branch_index. change (has_flag 0 (Z.lor MDB_PS_FIRST MDB_PS_LAST)) with false. cbn match.
    step E. destruct Hpage as (P' & _ & HR). pose proof (pr_max _ _ _ HR) as Hm.
    destruct (decide (r < length bs)%nat) as [Hlt|Hge].
    + rewrite bool_decide_eq_true_2 by done. cbn [negb]. step (top_ki_at m t dbi fl stk q (Z.of_nat r) rp rk).
      unfold i. destruct exact; [done|].
      assert (Ec : c_assert (0 <? Z.of_nat r) = Ok tt) by (by rewrite (proj2 (Z.ltb_lt _ _)) by lia).
      step_lift Ec. rewrite u16_small by lia. unfold mret, SM_ret. do 3 f_equal. lia.
    + rewrite bool_decide_eq_false_2 by done. cbn [negb]. rewrite u16_small by lia.
      unfold i. destruct exact; [specialize (Hex eq_refl); lia|]. unfold mret, SM_ret. do 3 f_equal. lia.
  - apply around_child with d pgno lo hi q bs; try done.
    + intros j b' Hj Hb'. destruct (decide (j < r)%nat) as [Hjr|Hjr].
      { assert (ord (n_key b') key < 0); [|lia]. apply ord_gt. apply (Hlo j); [lia|done]. }
      revert Hj. unfold i, exact. destruct (bs !! r) as [n|] eqn:Er; [|lia].
      destruct (Z.eqb_spec (ord key (n_key n)) 0) as [Heq|]; [|lia]. intros Hj.
      assert (j = r) as -> by lia. rewrite Er in Hb'. injection Hb' as <-.
      apply ord_eq in Heq as ->. by rewrite ord_refl.
    + intros j b' Hj Hb'. assert (Hjr : (r ≤ j)%nat) by (unfold i in Hj; destruct exact; lia).
      specialize (Hhi j b' Hjr Hb') as Hle. destruct (Z.eq_dec (ord key (n_key b')) 0) as [Heq|]; [|lia].
      exfalso. destruct (decide (j = r)) as [->|].
      { revert Hj. unfold i, exact. rewrite Hb', Heq. cbn. lia. }
      destruct (lookup_lt_is_Some_2 bs r) as [b0 Hn]; [apply lookup_lt_Some in Hb'; lia|].
      pose proof (Hhi r b0 ltac:(lia) Hn) as Hrn. apply ord_eq in Heq. subst key.
      assert (Ha : ord (n_key b0) (n_key b') < 0).
      { apply (proj2 Hasc r j); [lia|by rewrite list_lookup_fmap, Hn|by rewrite list_lookup_fmap, Hb']. }
      apply ord_lt in Ha. lia.
Qed.

Lemma chooses_first fl : chooses None MDB_PS_FIRST fl (λ bef _, bef = []).
Proof using Type.
  intros d pgno lo hi q bs ess bef aft stk k0 rp rk P HP (_ & _ & H2 & Hl & _) ->.
  destruct (lookup_lt_is_Some_2 bs 0) as [b Hb]; [lia|].
  destruct (lookup_lt_is_Some_2 ess 0) as [e He]; [lia|].
  by exists 0%nat, b, e, k0.
Qed.

Lemma chooses_last fl :
  has_flag fl C_INITIALIZED = false → chooses None MDB_PS_LAST fl (λ _ aft, aft = []).
Proof using Type.
  intros Hfl d pgno lo hi q bs ess bef aft stk k0 rp rk P HP (_ & (P' & _ & HR) & H2 & Hl & _) ->.
  destruct (lookup_lt_is_Some_2 bs (length bs - 1)) as [b Hb]; [lia|].
  destruct (lookup_lt_is_Some_2 ess (length bs - 1)) as [e He]; [lia|].
  exists (length bs - 1)%nat, b, e, k0. split_and!; [done|done| |].
  - unfold branch_index. change (has_flag MDB_PS_LAST (Z.lor MDB_PS_FIRST MDB_PS_LAST)) with true.
    change (has_flag MDB_PS_LAST MDB_PS_LAST) with true. cbn match.
    step (mc_at m t (cur fl (stk ++ [(q, k0)]) rp rk)).
    change (mc_flags (cur fl (stk ++ [(q, k0)]) rp rk)) with fl. rewrite Hfl.
    pose proof (pr_max _ _ _ HR). rewrite u16_small by lia. unfold mret, SM_ret. do 3 f_equal. lia.
  - replace (S (length bs - 1)) with (length bs) by lia. by rewrite <-Hl, drop_all.
Qed.

Lemma mread_start leaf P ns : page_reads leaf P ns → ∃ bs, mread P 0 8 = Ok bs.
Proof using Type.
  intros HR. pose proof (pr_leaf _ _ _ HR) as E. unfold IS_LEAF, MP_FLAGS, rd16 in E.
  apply res_bind_Ok in E as (f & E & _). apply res_bind_Ok in E as (bs & E & _).
  unfold mread in *. destruct (_ && _)%bool eqn:Eb in E; [|done]. bool_to_prop.
  rewrite !(proj2 (Z.leb_le _ _)) by lia. by eexists.
Qed.

(** The place a search leaves the cursor at: on a leaf, with the flags [fl]. *)
Definition on_leaf (all : entries) (fl : Z) (Good : entries → entries → Prop) (c : MDB_cursor) : Prop :=
  ∃ stk q k pgno lo hi bef es aft rp rk, c = cur fl (stk ++ [(q, k)]) rp rk ∧
    spine (md_root db) all stk 0 pgno lo hi bef es aft ∧ found pgno q ∧ Good bef aft ∧
    room (stk ++ [(q, k)]) rp rk.

(** A cursor before a search: nothing is known of its stack but, maybe, the root. *)
Definition before_search (fl : Z) (c : MDB_cursor) : Prop :=
  ∃ snum top p0 k0 rp rk, c = MkCursor dbi snum top fl (p0 :: rp) (Some k0 :: rk) ∧
    length rp = 31%nat ∧ length rk = 31%nat ∧ (p0 = None ∨ ∃ q, p0 = Some q ∧ found (md_root db) q).

Definition tree_of (all : entries) : Prop :=
  ∃ d, tree d (md_root db) None None all ∧ (d < fuel)%nat ∧ (d ≤ 31)%nat ∧ 1 < md_root db < P_INVALID.

Lemma page_search_root_at all d c q k0 rp rk key flags fl Good :
  chooses key flags fl Good → has_flag flags MDB_PS_MODIFY = false → Good [] [] →
  tree d (md_root db) None None all → (d < fuel)%nat → (d ≤ 31)%nat →
  c = cur fl [(q, k0)] rp rk → found (md_root db) q → length rp = 31%nat → length rk = 31%nat →
  ∃ c', mdb_page_search_root fuel touch key flags (st c) = Ok (MDB_SUCCESS, st c') ∧
    on_leaf all (clear_flag (set_flag fl C_INITIALIZED) C_EOF) Good c'.
Proof using Type.
  intros Hch Hmod Hg Ht Hd Hd31 -> Hf Hrp Hrk.
  destruct (root_loop_at key flags fl Good (md_root db) all d fuel [] q k0 (md_root db) None None [] all [] rp rk)
    as (stk' & q' & k' & pgno' & lo' & hi' & bef' & es' & aft' & rp' & rk' & E & Hs & Hf' & Hg' & Hroom);
    try done; [by constructor|lia|split; [cbn; lia|lia]|].
  exists (cur (clear_flag (set_flag fl C_INITIALIZED) C_EOF) (stk' ++ [(q', k')]) rp' rk'). split.
  - unfold mdb_page_search_root. step (top_pg_at m t dbi fl [] q k0 rp rk). step E.
    pose proof (spine_tree _ _ _ _ _ _ _ _ _ _ Hs) as (_ & q1 & ns & Hf1 & (P & HP & HR) & _).
    rewrite <-(found_inj _ _ _ Hf' Hf1) in HP.
    step (page_of_at q' P (cur fl (stk' ++ [(q', k')]) rp' rk') HP). by step_lift (pr_leaf _ _ _ HR).
  - by exists stk', q', k', pgno', lo', hi', bef', es', aft', rp', rk'.
Qed.

(** A search starts with the root page on the stack. *)
Lemma page_search_enters all d key flags fl snum top p0 k0 q rp rk :
  (1 ≤ fuel)%nat → tree d (md_root db) None None all → 1 < md_root db < P_INVALID →
  has_flag flags MDB_PS_MODIFY = false → has_flag flags MDB_PS_ROOTONLY = false →
  found (md_root db) q → p0 = None ∨ (∃ q, p0 = Some q ∧ found (md_root db) q) →
  mdb_page_search fuel touch key flags (st (MkCursor dbi snum top fl (p0 :: rp) (Some k0 :: rk)))
  = mdb_page_search_root fuel touch key flags (st (cur fl [(q, k0)] rp rk)).
Proof using Ho.
  intros Hfuel Ht Hroot Hmod Hro Hq Hp0.
  assert (Hpage : ∃ P leaf ns, from m q = Ok P ∧ page_reads leaf P ns).
  { destruct d; [destruct Ht as (_ & q1 & ns & Hf & (P & HP & HR) & _)|
      destruct Ht as (_ & q1 & ns & _ & Hf & (P & HP & HR) & _)];
      rewrite <-(found_inj _ _ _ Hq Hf) in HP; eauto. }
  destruct Hpage as (P & leaf & ns & HP & HR). destruct (mread_start _ _ _ HR) as [pg Hpg].
  unfold mdb_page_search.
  assert (∃ n, fuel = S n) as [n Efuel] by (exists (pred fuel); lia).
  replace (page_search fuel touch fuel) with (page_search fuel touch (S n)) by (by rewrite <-Efuel).
  cbn [page_search].
  set (c := MkCursor dbi snum top fl (p0 :: rp) (Some k0 :: rk)).
  step (txn_at m t c). rewrite (op_txn _ _ _ _ Ho).
  destruct (op_flag _ _ _ _ Ho) as (f & Ef & Hst).
  assert (Edf : mc_dbflag (st c) = Ok (f, st c)).
  { unfold mc_dbflag. step (own_at m t c). step (mc_at m t c). step (txn_at m t c). by apply lift_Ok. }
  step Edf. rewrite Hst. rewrite (SM_bind_Ok (mret MDB_SUCCESS) _ _ MDB_SUCCESS (st c) eq_refl). cbn match.
  change (negb (MDB_SUCCESS =? 0)) with false. cbn match. unfold search_from_root.
  assert (Edb : mc_db (st c) = Ok (db, st c)).
  { unfold mc_db. step (own_at m t c). step (mc_at m t c). step (txn_at m t c). apply lift_Ok, (op_db _ _ _ _ Ho). }
  step Edb. rewrite (proj2 (Z.eqb_neq _ _)) by lia.
  assert (Ec : c_assert (1 <? md_root db) = Ok tt) by (by rewrite (proj2 (Z.ltb_lt _ _)) by lia).
  step_lift Ec. step (mc_at m t c). step_lift (eq_refl : cell (mc_pg c) 0 = Ok p0).
  (* the check of the root page that is there already *)
  assert (Eo : ∃ other, (match p0 with
      | None => mret true
      | Some mp => p ← page_of mp; bs ← lift (mread p 0 8); mret (negb (le bs =? md_root db))
      end : M bool) (st c) = Ok (other, st c) ∧ (other = false → p0 = Some q)).
  { destruct Hp0 as [-> | (q0 & -> & Hq0)]; [by exists true|].
    rewrite (found_inj _ _ _ Hq0 Hq). eexists. split; [|done].
    step (page_of_at q P c HP). by step_lift Hpg. }
  destruct Eo as (other & Eo & Hother). step Eo.
  destruct (page_get_at (md_root db) q c Hq) as [lvl Eg].
  set (c1 := set_mc_pg c (Some q :: rp)).
  assert (Er : (if other then
      r ← mdb_page_get fuel (md_root db);
      match r with inl rc => mret rc | inr (mp, _) => set_pg 0 (Some mp);; mret MDB_SUCCESS end
      else mret MDB_SUCCESS : M Z) (st c) = Ok (MDB_SUCCESS, st c1)).
  { destruct other.
    - assert (Es : set_pg 0 (Some q) (st c) = Ok (tt, st c1)).
      { unfold set_pg. step (mc_at m t c).
        by step_lift (eq_refl : set_cell (mc_pg c) 0 (Some q) = Ok (Some q :: rp)). }
      step Eg. by step Es.
    - specialize (Hother eq_refl). unfold c1, c, set_mc_pg. cbn. by rewrite Hother. }
  step Er. change (negb (MDB_SUCCESS =? 0)) with false. cbn match.
  step (mc_at m t c1).
  assert (Ep : put_mc (set_snum_top c1 1 0) (st c1) = Ok (tt, st (cur fl [(q, k0)] rp rk))) by done.
  step Ep. rewrite Hmod. rewrite (SM_bind_Ok (mret MDB_SUCCESS) _ _ MDB_SUCCESS _ eq_refl).
  change (negb (MDB_SUCCESS =? 0)) with false. cbn match. by rewrite Hro.
Qed.

Lemma page_search_at all c key flags fl Good :
  chooses key flags fl Good → has_flag flags MDB_PS_MODIFY = false →
  has_flag flags MDB_PS_ROOTONLY = false → Good [] [] → tree_of all → before_search fl c →
  ∃ c', mdb_page_search fuel touch key flags (st c) = Ok (MDB_SUCCESS, st c') ∧
    on_leaf all (clear_flag (set_flag fl C_INITIALIZED) C_EOF) Good c'.
Proof using Ho.
  intros Hch Hmod Hro Hg (d & Ht & Hd & Hd31 & Hroot) (snum & top & p0 & k0 & rp & rk & -> & Hrp & Hrk & Hp0).
  destruct (tree_found _ _ _ _ _ Ht) as [q Hq].
  destruct (page_search_root_at all d (cur fl [(q, k0)] rp rk) q k0 rp rk key flags fl Good)
    as (c' & E & Hc'); try done.
  exists c'. split; [|done].
  by rewrite (page_search_enters all d key flags fl snum top p0 k0 q rp rk) by (done || lia).
Qed.
End tree.
