(* ===== verification/Cursor.v ===== *)
(** * LMDB's B+tree (src/lib/lmdb/mdb.c): the moves of a cursor and the calls

    The moves between siblings, to the first, the last, the next and the previous entry
    and to a key, and [mdb_get], [mdb_cursor_get], [mdb_cursor_count], [mdb_cursor_open],
    [mdb_cursor_renew], [mdb_stat] and [mdb_dbi_flags].  Of a
    database with duplicates each move ends with the same move of the sub-cursor: the
    recursive calls run on the sub-cursor and [d] bounds their depth. *)

From S2P Require Import Prelude.
From S2P Require Import Lmdb Midl Page Tree.

Section Cursor.
Context (fuel : nat) (mdb_page_touch : M Z).

(** ** Moving a cursor *)

(** What a call returns: the code, and what it stored in [*key] and [*data]. *)
Record Got : Type := MkGot { g_rc : Z; g_key : option MDB_val; g_data : option MDB_val }.

Definition code (rc : Z) : Got := MkGot rc None None.

(** Whether a pointer argument is not NULL. *)
Abbreviation wanted := bool.

Definition top_page : M (Ptr * page) := mp ← top_pg; p ← page_of mp; mret (mp, p).
Definition keys_of (i : Z) : M Z := mp ← pg_at i; p ← page_of mp; lift (NUMKEYS p).

(** The loop of [mdb_cursor_sibling] is its recursion over the stack. *)
Fixpoint cursor_sibling (n : nat) (move_right : bool) : M Z :=
  match n with
  | O => lift NoFuel
  | S n =>
      c ← mc;
      if mc_snum c <? 2 then mret MDB_NOTFOUND
      else
        mdb_cursor_pop;;
        k ← top_ki;
        last ← (if move_right then '(_, p) ← top_page; nk ← lift (NUMKEYS p); mret (nk <=? k + 1)
                else mret (k =? 0));
        rc ← (if last : bool then
                rc ← cursor_sibling n move_right;
                (if rc =? 0 then mret rc
                 else c ← mc; put_mc (set_snum_top c (mc_snum c + 1) (mc_top c + 1));; mret rc)
              else set_top_ki (if move_right then k + 1 else k - 1);; mret MDB_SUCCESS);
        if negb (rc =? 0) then mret rc
        else
          '(_, p) ← top_page;
          branch ← lift (IS_BRANCH p); lift (c_assert branch);;
          k ← top_ki;
          a ← lift (NODEPTR p k); pgno ← lift (NODEPGNO p a);
          r ← mdb_page_get fuel pgno;
          match r with
          | inl rc => drop_flag (Z.lor C_INITIALIZED C_EOF);; mret rc
          | inr (mp, _) =>
              _ ← mdb_cursor_push mp;
              if move_right then mret MDB_SUCCESS
              else p ← page_of mp; nk ← lift (NUMKEYS p); set_top_ki (nk - 1);; mret MDB_SUCCESS
          end
  end.

Definition mdb_cursor_sibling (move_right : bool) : M Z := cursor_sibling fuel move_right.

(** [mc->mc_xcursor->mx_cursor.mc_flags &= ~(C_INITIALIZED|C_EOF)] *)
Definition clear_sub : M unit := on_sub (drop_flag (Z.lor C_INITIALIZED C_EOF)).
Definition clear_sub_if_any : M unit :=
  x ← xcursor; match x with Some _ => clear_sub | None => mret tt end.

(** The key of an entry of a page without node headers. *)
Definition return_leaf2 (p : page) (wk : wanted) (i : Z) : M Got :=
  db ← mc_db;
  if wk then k ← lift (leaf2_key p (md_pad db) i); mret (MkGot MDB_SUCCESS (Some k) None)
  else mret (code MDB_SUCCESS).

(** The end of the moves, for the node at [a]; [sub] is the call on the sub-cursor. *)
Definition return_node (mp : Ptr) (p : page) (a : Z) (wk wd : wanted) (sub : M Got) : M Got :=
  fl ← lift (mn_flags p a);
  r ← (if F_ISSET fl F_DUPDATA then
         mdb_xcursor_init1 mp p a;;
         g ← on_sub sub; mret (MkGot (g_rc g) None (g_key g))
       else if wd then
         r ← mdb_node_read fuel p a;
         mret (match r with inl rc => code rc | inr v => MkGot MDB_SUCCESS None (Some v) end)
       else mret (code MDB_SUCCESS));
  if negb (g_rc r =? 0) then mret r
  else if wk then k ← lift (get_key p a); mret (MkGot MDB_SUCCESS (Some k) (g_data r))
  else mret r.

(** A sub-cursor has no sub-cursor: [d] bounds the depth, 1 is enough. *)
Fixpoint mdb_cursor_first (d : nat) (wk wd : wanted) : M Got :=
  clear_sub_if_any;;
  c ← mc;
  rc ← (if (negb (has_flag (mc_flags c) C_INITIALIZED) || negb (mc_top c =? 0))%bool
        then mdb_page_search fuel mdb_page_touch None MDB_PS_FIRST else mret MDB_SUCCESS);
  if negb (rc =? 0) then mret (code rc)
  else
    '(mp, p) ← top_page;
    leaf ← lift (IS_LEAF p); lift (c_assert leaf);;
    a ← lift (NODEPTR p 0);
    raise_flag C_INITIALIZED;; drop_flag C_EOF;;
    set_top_ki 0;;
    leaf2 ← lift (IS_LEAF2 p);
    if leaf2 : bool then return_leaf2 p wk 0
    else return_node mp p a wk wd (match d with O => ub | S d => mdb_cursor_first d wd false end).

Fixpoint mdb_cursor_last (d : nat) (wk wd : wanted) : M Got :=
  clear_sub_if_any;;
  c ← mc;
  rc ← (if (negb (has_flag (mc_flags c) C_INITIALIZED) || negb (mc_top c =? 0))%bool
        then mdb_page_search fuel mdb_page_touch None MDB_PS_LAST else mret MDB_SUCCESS);
  if negb (rc =? 0) then mret (code rc)
  else
    '(mp, p) ← top_page;
    leaf ← lift (IS_LEAF p); lift (c_assert leaf);;
    nk ← lift (NUMKEYS p);
    set_top_ki (nk - 1);;
    raise_flag (Z.lor C_INITIALIZED C_EOF);;
    k ← top_ki;
    a ← lift (NODEPTR p k);
    leaf2 ← lift (IS_LEAF2 p);
    if leaf2 : bool then return_leaf2 p wk k
    else return_node mp p a wk wd (match d with O => ub | S d => mdb_cursor_last d wd false end).

(** The move on the duplicates of the current key, lines 5920-5936: [None] when the
    cursor goes on to the next node. *)
Definition next_dup (p : page) (wk wd : wanted) (op : MDB_cursor_op) (sub : M Got) : M (option Got) :=
  k ← top_ki;
  leaf ← lift (NODEPTR p k); fl ← lift (mn_flags p leaf);
  if F_ISSET fl F_DUPDATA then
    if decide (op = MDB_NEXT ∨ op = MDB_NEXT_DUP) then
      g ← on_sub sub;
      if (bool_decide (op ≠ MDB_NEXT) || negb (g_rc g =? MDB_NOTFOUND))%bool then
        (if ((g_rc g =? 0) && wk)%bool
         then k ← lift (get_key p leaf); mret (Some (MkGot (g_rc g) (Some k) (g_key g)))
         else mret (Some (MkGot (g_rc g) None (g_key g))))
      else mret None
    else mret None
  else
    clear_sub;;
    mret (if decide (op = MDB_NEXT_DUP) then Some (code MDB_NOTFOUND) else None).

(** The step to the next node, lines 5940-5954. *)
Definition next_node (p : page) : M Z :=
  c ← mc;
  if has_flag (mc_flags c) C_DEL then upd_flags (λ f, Z.lxor f C_DEL);; mret MDB_SUCCESS
  else
    k ← top_ki; nk ← lift (NUMKEYS p);
    if nk <=? k + 1 then
      rc ← mdb_cursor_sibling true;
      (if rc =? 0 then mret rc else raise_flag C_EOF;; mret rc)
    else set_top_ki (k + 1);; mret MDB_SUCCESS.

Fixpoint mdb_cursor_next (d : nat) (wk wd : wanted) (op : MDB_cursor_op) : M Got :=
  c ← mc;
  if (has_flag (mc_flags c) C_DEL && bool_decide (op = MDB_NEXT_DUP))%bool then mret (code MDB_NOTFOUND)
  else if negb (has_flag (mc_flags c) C_INITIALIZED) then mdb_cursor_first d wk wd
  else
    '(_, p) ← top_page;
    k ← top_ki; nk ← lift (NUMKEYS p);
    if (has_flag (mc_flags c) C_EOF && (u32 (nk - 1) <=? k))%bool then mret (code MDB_NOTFOUND)
    else
      (if has_flag (mc_flags c) C_EOF then upd_flags (λ f, Z.lxor f C_EOF) else mret tt);;
      db ← mc_db;
      dup ← (if has_flag (md_flags db) MDB_DUPSORT
             then next_dup p wk wd op
                    (match d with O => ub | S d => mdb_cursor_next d wd false MDB_NEXT end)
             else mret None);
      match dup with
      | Some g => mret g
      | None =>
          rc ← next_node p;
          if negb (rc =? 0) then mret (code rc)
          else
            '(mp, p) ← top_page;
            k ← top_ki;
            leaf2 ← lift (IS_LEAF2 p);
            if leaf2 : bool then (if wk then return_leaf2 p wk k else ub)
            else
              leaf ← lift (IS_LEAF p); lift (c_assert leaf);;
              a ← lift (NODEPTR p k);
              return_node mp p a wk wd (match d with O => ub | S d => mdb_cursor_first d wd false end)
      end.

(** Lines 5990-5995: the cursor that is not positioned starts behind the last entry. *)
Definition prev_start (last : M Got) : M Got :=
  c ← mc;
  if has_flag (mc_flags c) C_INITIALIZED then mret (code MDB_SUCCESS)
  else
    g ← last;
    (if g_rc g =? 0 then k ← top_ki; set_top_ki (k + 1);; mret g else mret g).

(** The result [r] of a call after one that stored what [g] says. *)
Definition stored_over (g r : Got) : Got :=
  MkGot (g_rc r) (match g_key r with Some k => Some k | None => g_key g end)
    (match g_data r with Some v => Some v | None => g_data g end).

(** Lines 6000-6019. *)
Definition prev_dup (p : page) (wk wd : wanted) (op : MDB_cursor_op) (sub : M Got) : M (option Got) :=
  k ← top_ki;
  leaf ← lift (NODEPTR p k); fl ← lift (mn_flags p leaf);
  if F_ISSET fl F_DUPDATA then
    if decide (op = MDB_PREV ∨ op = MDB_PREV_DUP) then
      g ← on_sub sub;
      if (bool_decide (op ≠ MDB_PREV) || negb (g_rc g =? MDB_NOTFOUND))%bool then
        (if g_rc g =? 0 then
           key ← (if wk then k ← lift (get_key p leaf); mret (Some k) else mret None);
           drop_flag C_EOF;;
           mret (Some (MkGot (g_rc g) key (g_key g)))
         else mret (Some (MkGot (g_rc g) None (g_key g))))
      else mret None
    else mret None
  else
    clear_sub;;
    mret (if decide (op = MDB_PREV_DUP) then Some (code MDB_NOTFOUND) else None).

(** Lines 6026-6036. *)
Definition prev_node : M Z :=
  k ← top_ki;
  if k =? 0 then
    rc ← mdb_cursor_sibling false;
    if negb (rc =? 0) then mret rc
    else '(_, p) ← top_page; nk ← lift (NUMKEYS p); set_top_ki (nk - 1);; mret MDB_SUCCESS
  else set_top_ki (k - 1);; mret MDB_SUCCESS.

Fixpoint mdb_cursor_prev (d : nat) (wk wd : wanted) (op : MDB_cursor_op) : M Got :=
  g ← prev_start (mdb_cursor_last d wk wd);
  if negb (g_rc g =? 0) then mret g
  else
    '(_, p) ← top_page;
    k ← top_ki; nk ← lift (NUMKEYS p);
    db ← mc_db;
    dup ← (if (has_flag (md_flags db) MDB_DUPSORT && (k <? nk))%bool
           then prev_dup p wk wd op
                  (match d with O => ub | S d => mdb_cursor_prev d wd false MDB_PREV end)
           else mret None);
    match dup with
    | Some r => mret (stored_over g r)
    | None =>
        drop_flag (Z.lor C_EOF C_DEL);;
        rc ← prev_node;
        if negb (rc =? 0) then mret (stored_over g (code rc))
        else
          '(mp, p) ← top_page;
          k ← top_ki;
          leaf ← lift (IS_LEAF p);
          if negb leaf then mret (stored_over g (code MDB_CORRUPTED))
          else
            leaf2 ← lift (IS_LEAF2 p);
            r ← (if leaf2 : bool then (if wk then return_leaf2 p wk k else ub)
                 else
                   a ← lift (NODEPTR p k);
                   return_node mp p a wk wd
                     (match d with O => ub | S d => mdb_cursor_last d wd false end));
            mret (stored_over g r)
    end.

(** ** Setting a cursor *)

(** [leaf] of an entry; of a page without node headers it is not used. *)
Definition leaf_at (p : page) (leaf2 : bool) (i : Z) : res Z := if leaf2 then Ok 0 else NODEPTR p i.

Definition entry_key (p : page) (leaf2 : bool) (pad i : Z) : res MDB_val :=
  if leaf2 then leaf2_key p pad i else node_key p i.

(** Where [mdb_cursor_set] goes on: [return], the search, [set1] and [set2]. *)
Inductive set_next : Type := SetRet (rc : Z) | SetSearch | SetOne (leaf : Z) | SetTwo.

(** Lines 6110-6148, for a key behind the first one of the page. *)
Definition set_within (p : page) (leaf2 : bool) (pad nkeys : Z) (cmp : MDB_cmp_func) (key : MDB_val)
    : M (option set_next) :=
  if nkeys <=? 1 then mret None
  else
    nodekey ← lift (entry_key p leaf2 pad (nkeys - 1));
    rc ← lift (run_cmp cmp key nodekey);
    if rc =? 0 then
      set_top_ki (nkeys - 1);; leaf ← lift (leaf_at p leaf2 (nkeys - 1)); mret (Some (SetOne leaf))
    else if rc <? 0 then
      k ← top_ki;
      rc ← (if k <? nkeys then
              nodekey ← lift (entry_key p leaf2 pad k); lift (run_cmp cmp key nodekey)
            else mret 1);
      if rc =? 0 then leaf ← lift (leaf_at p leaf2 k); mret (Some (SetOne leaf))
      else drop_flag C_EOF;; mret (Some SetTwo)
    else mret None.

(** The loop of lines 6152-6155 over the [n] levels from [i] on. *)
Fixpoint has_right (n : nat) (i : Z) : M bool :=
  match n with
  | O => mret false
  | S n =>
      k ← ki_at i; nk ← keys_of i;
      if k <? u32 (nk - 1) then mret true else has_right n (i + 1)
  end.

(** Lines 6082-6173: the cursor is already placed. *)
Definition set_here (key : MDB_val) (op : MDB_cursor_op) (exactp : bool) : M set_next :=
  '(_, p) ← top_page;
  nkeys ← lift (NUMKEYS p);
  if nkeys =? 0 then set_top_ki 0;; mret (SetRet MDB_NOTFOUND)
  else
    leaf2 ← lift (IS_LEAF2 p);
    db ← mc_db; dbx ← mc_dbx; cmp ← init_cell (md_cmp dbx);
    leaf0 ← lift (leaf_at p leaf2 0);
    nodekey ← lift (entry_key p leaf2 (md_pad db) 0);
    rc ← lift (run_cmp cmp key nodekey);
    if rc =? 0 then set_top_ki 0;; mret (SetOne leaf0)
    else
      c ← mc;
      next ← (if 0 <? rc then
                next ← set_within p leaf2 (md_pad db) nkeys cmp key;
                match next with
                | Some x => mret (Some x)
                | None =>
                    right ← has_right (Z.to_nat (mc_top c)) 0;
                    if right : bool then mret None
                    else set_top_ki nkeys;; mret (Some (SetRet MDB_NOTFOUND))
                end
              else mret None);
      match next with
      | Some x => mret x
      | None =>
          if mc_top c =? 0 then
            set_top_ki 0;;
            mret (if (bool_decide (op = MDB_SET_RANGE) && negb exactp)%bool then SetOne leaf0
                  else SetRet MDB_NOTFOUND)
          else mret SetSearch
      end.

(** Lines 6182-6198: a code, or the leaf. *)
Definition set_two (key : MDB_val) (exactp : bool) : M (Z + Z) :=
  '(_, p) ← top_page;
  leaf2 ← lift (IS_LEAF2 p);
  '(node, exact) ← search_node fuel key;
  if (exactp && negb exact)%bool then mret (inl MDB_NOTFOUND)
  else if negb node then
    rc ← mdb_cursor_sibling true;
    if negb (rc =? 0) then raise_flag C_EOF;; mret (inl rc)
    else
      '(_, p) ← top_page;
      leaf ← lift (IS_LEAF p); lift (c_assert leaf);;
      a ← lift (NODEPTR p 0); mret (inr a)
  else k ← top_ki; a ← lift (leaf_at p leaf2 k); mret (inr a).

(** Lines 6228-6253 for a node without duplicates: the code and the datum. *)
Definition set_data (p : page) (leaf : Z) (data : MDB_val) (op : MDB_cursor_op) : M (Z * option MDB_val) :=
  if decide (op = MDB_GET_BOTH ∨ op = MDB_GET_BOTH_RANGE) then
    r ← mdb_node_read fuel p leaf;
    match r with
    | inl rc => mret (rc, None)
    | inr olddata =>
        dbx ← mc_dbx;
        dcmp ← init_cell (md_dcmp dbx);
        let dcmp := match dcmp with
                    | Cmp_int => if mv_size olddata =? 8 then Cmp_long else Cmp_int
                    | f => f
                    end in
        rc ← lift (run_cmp dcmp data olddata);
        mret (if (negb (rc =? 0) && (bool_decide (op = MDB_GET_BOTH) || (0 <? rc)))%bool
              then (MDB_NOTFOUND, None) else (MDB_SUCCESS, Some olddata))
    end
  else
    clear_sub_if_any;;
    r ← mdb_node_read fuel p leaf;
    mret (match r with inl rc => (rc, None) | inr v => (MDB_SUCCESS, Some v) end).

Definition gives_key (op : MDB_cursor_op) : bool := bool_decide (op = MDB_SET_RANGE ∨ op = MDB_SET_KEY).

(** The label [set1]; [first] and [set] are the calls on the sub-cursor. *)
Definition set_one (leaf : Z) (data : option MDB_val) (op : MDB_cursor_op) (first : M Got)
    (set : MDB_val → bool → M Got) : M Got :=
  raise_flag C_INITIALIZED;; drop_flag C_EOF;;
  '(mp, p) ← top_page;
  leaf2 ← lift (IS_LEAF2 p);
  if leaf2 : bool then
    k ← top_ki;
    if gives_key op then return_leaf2 p true k else mret (code MDB_SUCCESS)
  else
    fl ← lift (mn_flags p leaf);
    '(rc, out, stop) ←
      (if F_ISSET fl F_DUPDATA then
         mdb_xcursor_init1 mp p leaf;;
         if decide (op = MDB_SET ∨ op = MDB_SET_KEY ∨ op = MDB_SET_RANGE) then
           g ← on_sub first; mret (g_rc g, g_key g, false)
         else
           match data with
           | None => ub
           | Some v =>
               g ← on_sub (set v (bool_decide (op = MDB_GET_BOTH)));
               mret (g_rc g, g_key g, negb (g_rc g =? 0))
           end
       else
         match data with
         | None => mret (0, None, false)
         | Some v => '(rc, out) ← set_data p leaf v op; mret (rc, out, negb (rc =? 0))
         end);
    if stop : bool then mret (MkGot rc None out)
    else if gives_key op then k ← lift (get_key p leaf); mret (MkGot rc (Some k) out)
    else mret (MkGot rc None out).

(** [data] is [None] when the pointer is NULL, and [exactp] says whether the pointer is
    not NULL; what is stored there is not read by the callers on the read path. *)
Fixpoint mdb_cursor_set (d : nat) (key : MDB_val) (data : option MDB_val) (op : MDB_cursor_op)
    (exactp : bool) : M Got :=
  if mv_size key =? 0 then mret (code MDB_BAD_VALSIZE)
  else
    clear_sub_if_any;;
    c ← mc;
    next ← (if has_flag (mc_flags c) C_INITIALIZED then set_here key op exactp
            else set_pg 0 None;; mret SetSearch);
    next ← match next with
           | SetSearch =>
               rc ← mdb_page_search fuel mdb_page_touch (Some key) 0;
               if negb (rc =? 0) then mret (SetRet rc)
               else '(_, p) ← top_page; leaf ← lift (IS_LEAF p); lift (c_assert leaf);; mret SetTwo
           | x => mret x
           end;
    next ← match next with
           | SetTwo =>
               r ← set_two key exactp;
               mret (match r with inl rc => SetRet rc | inr leaf => SetOne leaf end)
           | x => mret x
           end;
    match next with
    | SetOne leaf =>
        set_one leaf data op
          (match d with O => ub | S d => mdb_cursor_first d (bool_decide (is_Some data)) false end)
          (λ v ex, match d with O => ub | S d => mdb_cursor_set d v None MDB_SET_RANGE ex end)
    | SetRet rc => mret (code rc)
    | _ => ub
    end.

(** ** The calls of the interface *)

(** [fetchm]: all the entries of the page of the sub-cursor. *)
Definition fetch_multiple : M MDB_val :=
  on_sub ('(_, p) ← top_page;
          nk ← lift (NUMKEYS p); db ← mc_db;
          bs ← lift (mread p PAGEHDRSZ (nk * md_pad db));
          set_top_ki (nk - 1);;
          mret (MkVal (nk * md_pad db) bs)).

Definition sub_flags : M Z := on_sub (c ← mc; mret (mc_flags c)).

(** [MDB_GET_CURRENT] *)
Definition get_current (wk wd : wanted) (sub : M Got) : M Got :=
  c ← mc;
  if negb (has_flag (mc_flags c) C_INITIALIZED) then mret (code EINVAL)
  else
    '(_, p) ← top_page;
    nkeys ← lift (NUMKEYS p); k ← top_ki;
    if ((nkeys =? 0) || (nkeys <=? k))%bool then set_top_ki nkeys;; mret (code MDB_NOTFOUND)
    else
      leaf2 ← lift (IS_LEAF2 p);
      if leaf2 : bool then (if wk then return_leaf2 p wk k else ub)
      else
        leaf ← lift (NODEPTR p k);
        key ← (if wk then k ← lift (get_key p leaf); mret (Some k) else mret None);
        if wd then
          fl ← lift (mn_flags p leaf);
          (if F_ISSET fl F_DUPDATA then g ← on_sub sub; mret (MkGot (g_rc g) key (g_key g))
           else
             r ← mdb_node_read fuel p leaf;
             mret (match r with inl rc => MkGot rc key None | inr v => MkGot MDB_SUCCESS key (Some v) end))
        else mret (MkGot MDB_SUCCESS key None).

(** [MDB_GET_MULTIPLE], [MDB_NEXT_MULTIPLE] and [MDB_PREV_MULTIPLE]. *)
Definition get_multiple (wd : wanted) : M Got :=
  c ← mc;
  if (negb wd || negb (has_flag (mc_flags c) C_INITIALIZED))%bool then mret (code EINVAL)
  else
    db ← mc_db;
    if negb (has_flag (md_flags db) MDB_DUPFIXED) then mret (code MDB_INCOMPATIBLE)
    else
      f ← sub_flags;
      if (negb (has_flag f C_INITIALIZED) || has_flag f C_EOF)%bool then mret (code MDB_SUCCESS)
      else v ← fetch_multiple; mret (MkGot MDB_SUCCESS None (Some v)).

Definition next_multiple (d : nat) (wk wd : wanted) : M Got :=
  if negb wd then mret (code EINVAL)
  else
    db ← mc_db;
    if negb (has_flag (md_flags db) MDB_DUPFIXED) then mret (code MDB_INCOMPATIBLE)
    else
      g ← mdb_cursor_next d wk wd MDB_NEXT_DUP;
      if negb (g_rc g =? 0) then mret g
      else
        f ← sub_flags;
        if has_flag f C_INITIALIZED then
          v ← fetch_multiple; mret (stored_over g (MkGot MDB_SUCCESS None (Some v)))
        else mret (stored_over g (code MDB_NOTFOUND)).

Definition prev_multiple (d : nat) (wk wd : wanted) : M Got :=
  if negb wd then mret (code EINVAL)
  else
    db ← mc_db;
    if negb (has_flag (md_flags db) MDB_DUPFIXED) then mret (code MDB_INCOMPATIBLE)
    else
      c ← mc;
      g ← (if has_flag (mc_flags c) C_INITIALIZED then mret (code MDB_SUCCESS) else mdb_cursor_last d wk wd);
      if negb (g_rc g =? 0) then mret g
      else
        f ← sub_flags;
        if has_flag f C_INITIALIZED then
          rc ← on_sub (mdb_cursor_sibling false);
          (if rc =? 0 then v ← fetch_multiple; mret (stored_over g (MkGot MDB_SUCCESS None (Some v)))
           else mret (stored_over g (code rc)))
        else mret (stored_over g (code MDB_NOTFOUND)).

(** The label [mmove]; [mfunc] is the call on the sub-cursor. *)
Definition move_dup (wk wd : wanted) (mfunc : M Got) : M Got :=
  c ← mc;
  if (negb wd || negb (has_flag (mc_flags c) C_INITIALIZED))%bool then mret (code EINVAL)
  else
    x ← xcursor;
    if decide (is_Some x) then
      '(_, p) ← top_page;
      nk ← lift (NUMKEYS p); k ← top_ki;
      if nk <=? k then set_top_ki nk;; mret (code MDB_NOTFOUND)
      else
        drop_flag C_EOF;;
        leaf ← lift (NODEPTR p k); fl ← lift (mn_flags p leaf);
        if negb (F_ISSET fl F_DUPDATA) then
          key ← (if wk then k ← lift (get_key p leaf); mret (Some k) else mret None);
          r ← mdb_node_read fuel p leaf;
          mret (match r with inl rc => MkGot rc key None | inr v => MkGot MDB_SUCCESS key (Some v) end)
        else
          f ← sub_flags;
          if negb (has_flag f C_INITIALIZED) then mret (code EINVAL)
          else g ← on_sub mfunc; mret (MkGot (g_rc g) None (g_key g))
    else mret (code MDB_INCOMPATIBLE).

(** The [switch] of [mdb_cursor_get]; [current] is its call on the sub-cursor. *)
Definition cursor_op (d : nat) (key data : option MDB_val) (op : MDB_cursor_op) (current : M Got) : M Got :=
  let wk := bool_decide (is_Some key) in
  let wd := bool_decide (is_Some data) in
  let set := match key with
             | None => mret (code EINVAL)
             | Some k => mdb_cursor_set d k data op (bool_decide (op ≠ MDB_SET_RANGE))
             end in
  match op with
  | MDB_GET_CURRENT => get_current wk wd current
  | MDB_GET_BOTH | MDB_GET_BOTH_RANGE =>
      if negb wd then mret (code EINVAL)
      else x ← xcursor; (if decide (is_Some x) then set else mret (code MDB_INCOMPATIBLE))
  | MDB_SET | MDB_SET_KEY | MDB_SET_RANGE => set
  | MDB_GET_MULTIPLE => get_multiple wd
  | MDB_NEXT_MULTIPLE => next_multiple d wk wd
  | MDB_PREV_MULTIPLE => prev_multiple d wk wd
  | MDB_NEXT | MDB_NEXT_DUP | MDB_NEXT_NODUP => mdb_cursor_next d wk wd op
  | MDB_PREV | MDB_PREV_DUP | MDB_PREV_NODUP => mdb_cursor_prev d wk wd op
  | MDB_FIRST => mdb_cursor_first d wk wd
  | MDB_FIRST_DUP =>
      move_dup wk wd (match d with O => ub | S d => mdb_cursor_first d wd false end)
  | MDB_LAST => mdb_cursor_last d wk wd
  | MDB_LAST_DUP =>
      move_dup wk wd (match d with O => ub | S d => mdb_cursor_last d wd false end)
  end.

Fixpoint mdb_cursor_get (d : nat) (key data : option MDB_val) (op : MDB_cursor_op) : M Got :=
  t ← txn;
  if has_flag (mt_flags t) MDB_TXN_BLOCKED then mret (code MDB_BAD_TXN)
  else
    g ← cursor_op d key data op
          (match d with O => ub | S d => mdb_cursor_get d data None MDB_GET_CURRENT end);
    upd_flags (λ f, if has_flag f C_DEL then Z.lxor f C_DEL else f);;
    mret g.

(** [TXN_DBI_EXIST]; [mt_numdbs] is the number of the records. *)
Definition TXN_DBI_EXIST (t : MDB_txn) (dbi validity : Z) : bool :=
  match cell (mt_dbflags t) dbi with Ok f => has_flag f validity | _ => false end.

(** [mdb_get]; its cursor and sub-cursor are its own. *)
Definition mdb_get (dbi : Z) (key data : option MDB_val) : M Got :=
  t ← txn;
  match key, data with
  | Some key, Some v =>
      if negb (TXN_DBI_EXIST t dbi DB_USRVALID) then mret (code EINVAL)
      else if has_flag (mt_flags t) MDB_TXN_BLOCKED then mret (code MDB_BAD_TXN)
      else on_new (mdb_cursor_init fuel mdb_page_touch dbi true;; mdb_cursor_set 1 key (Some v) MDB_SET true)
  | _, _ => mret (code EINVAL)
  end.

(** [mdb_cursor_count] with pointers that are not NULL: the code and the count. *)
Definition mdb_cursor_count : M (Z * option Z) :=
  x ← xcursor; t ← txn; c ← mc;
  match x with
  | None => mret (MDB_INCOMPATIBLE, None)
  | Some x =>
      if has_flag (mt_flags t) MDB_TXN_BLOCKED then mret (MDB_BAD_TXN, None)
      else if negb (has_flag (mc_flags c) C_INITIALIZED) then mret (EINVAL, None)
      else if mc_snum c =? 0 then mret (MDB_NOTFOUND, None)
      else
        '(_, p) ← top_page;
        nk ← lift (NUMKEYS p); k ← top_ki;
        if (has_flag (mc_flags c) C_EOF && (nk <=? k))%bool then mret (MDB_NOTFOUND, None)
        else
          upd_flags (λ f, if has_flag f C_EOF then Z.lxor f C_EOF else f);;
          leaf ← lift (NODEPTR p k); fl ← lift (mn_flags p leaf);
          if negb (F_ISSET fl F_DUPDATA) then mret (MDB_SUCCESS, Some 1)
          else if negb (has_flag (mc_flags (mx_cursor x)) C_INITIALIZED) then mret (EINVAL, None)
          else db ← init_cell (mx_db (mx_sub x)); mret (MDB_SUCCESS, Some (md_entries db))
  end.

(** ** Opening a cursor, and the state of a database *)

Definition FREE_DBI : Z := 0.
Definition C_UNTRACK : Z := 0x40.


(** [mdb_cursor_open]: [alloc] tells whether [malloc] succeeds.  Only the transactions
    that write have [mt_cursors], the list that this puts the cursor in. *)
Definition mdb_cursor_open (alloc : bool) (dbi : Z) : M Z :=
  t ← txn;
  if negb (TXN_DBI_EXIST t dbi DB_VALID) then mret EINVAL
  else if has_flag (mt_flags t) MDB_TXN_BLOCKED then mret MDB_BAD_TXN
  else
    let rdonly := F_ISSET (mt_flags t) MDB_TXN_RDONLY in
    if ((dbi =? FREE_DBI) && negb rdonly)%bool then mret EINVAL
    else if negb alloc then mret ENOMEM
    else
      mdb_cursor_init fuel mdb_page_touch dbi true;;
      (if negb rdonly then raise_flag C_UNTRACK else mret tt);;
      mret MDB_SUCCESS.

Definition mdb_cursor_renew : M Z :=
  t ← txn; c ← mc;
  if negb (TXN_DBI_EXIST t (mc_dbi c) DB_VALID) then mret EINVAL
  else if (has_flag (mc_flags c) C_UNTRACK || negb (F_ISSET (mt_flags t) MDB_TXN_RDONLY))%bool then mret EINVAL
  else if has_flag (mt_flags t) MDB_TXN_BLOCKED then mret MDB_BAD_TXN
  else
    x ← xcursor;
    mdb_cursor_init fuel mdb_page_touch (mc_dbi c) (bool_decide (is_Some x));;
    mret MDB_SUCCESS.

Record MDB_stat : Type := MkStat {
  ms_psize : Z; ms_depth : Z; ms_branch_pages : Z; ms_leaf_pages : Z; ms_overflow_pages : Z; ms_entries : Z }.

Definition mdb_stat0 (psize : Z) (db : MDB_db) : MDB_stat :=
  MkStat psize (md_depth db) (md_branch_pages db) (md_leaf_pages db) (md_overflow_pages db) (md_entries db).

(** [txn->mt_env->me_psize] *)
Definition env_psize : M Z := λ s, Ok (me_psize (st_mem s), s).

(** [mdb_stat] and [mdb_dbi_flags]: the code, and what is stored when it is 0. *)
Definition mdb_stat (dbi : Z) : M (Z + MDB_stat) :=
  t ← txn;
  if negb (TXN_DBI_EXIST t dbi DB_VALID) then mret (inl EINVAL)
  else if has_flag (mt_flags t) MDB_TXN_BLOCKED then mret (inl MDB_BAD_TXN)
  else
    f ← lift (cell (mt_dbflags t) dbi);
    (if has_flag f DB_STALE then on_new (mdb_cursor_init fuel mdb_page_touch dbi true) else mret tt);;
    t ← txn; db ← lift (cell (mt_dbs t) dbi);
    psize ← env_psize; mret (inr (mdb_stat0 psize db)).

Definition mdb_dbi_flags (dbi : Z) : M (Z + Z) :=
  t ← txn;
  if negb (TXN_DBI_EXIST t dbi DB_USRVALID) then mret (inl EINVAL)
  else db ← lift (cell (mt_dbs t) dbi); mret (inr (Z.land (md_flags db) PERSISTENT_FLAGS)).

End Cursor.
