(* ===== verification/CursorProps.v ===== *)
(** * LMDB's B+tree: what the calls find

    [mdb_get] on a well-formed tree is the lookup in its entries; a cursor goes
    through the entries in order, in both directions, and [MDB_SET_RANGE] places it at
    the first entry that is not less than the key. *)

From S2P Require Import Prelude.
From S2P Require Import Lmdb Midl Page PageProps Tree TreeProps Cursor.

Lemma mread_length p off n bs : mread p off n = Ok bs → Z.of_nat (length bs) = n.
Proof.
  unfold mread. case_bool; [|done]. bool_to_prop. intros [= <-].
  rewrite length_take, length_drop. lia.
Qed.

Section cursor.
Context (fuel : nat) (touch : M Z) (m : Mem) (t : MDB_txn) (cmp : MDB_cmp_func) `{!KeyOrder cmp}.
Context (dbi : Z) (db : MDB_db) (Ho : opened t dbi db cmp).
Abbreviation entries := (list (bytes * bytes)).
Abbreviation st := (st m t).
Abbreviation cur := (cur dbi).
Abbreviation found := (found fuel m t).
Abbreviation page_at := (page_at m).
Abbreviation entry := (entry fuel m t).
Abbreviation tree := (tree fuel m t cmp).
Abbreviation spine := (spine fuel m t cmp).
Abbreviation tree_of := (tree_of fuel m t cmp db).
Abbreviation on_leaf := (on_leaf fuel m t cmp dbi db).
Abbreviation before_search := (before_search fuel m t dbi db).

(** ** Reading an entry *)

Lemma node_read_at q P i n a v c :
  from m q = Ok P → node_reads true P i n a → datum fuel m t n v →
  mdb_node_read fuel P a (st c) = Ok (inr (val v), st c).
Proof.
  intros HP Hn Hd. destruct (nr_data _ _ _ _ _ Hn eq_refl) as (off & Eo & Er).
  unfold mdb_node_read. step_lift (nr_flags _ _ _ _ _ Hn). step_lift (nr_dsz _ _ _ _ _ Hn). step_lift Eo.
  unfold datum in Hd. destruct (F_ISSET (n_flags n) F_BIGDATA); cbn [negb].
  - destruct Hd as (q' & P' & Hf & HP' & Ev). step_lift Er.
    destruct (page_get_at fuel m t (le (n_val n)) q' c Hf) as [lvl Eg]. step Eg.
    step (page_of_at m t q' P' c HP'). step_lift Ev. unfold val, mret, SM_ret.
    by rewrite (mread_length _ _ _ _ Ev).
  - step_lift Er. subst v. unfold val, mret, SM_ret. by rewrite (mread_length _ _ _ _ Er).
Qed.

(** The leaf a cursor is on. *)
Lemma leaf_of pgno q lo hi es :
  tree 0 pgno lo hi es → found pgno q →
  ∃ P ns, from m q = Ok P ∧ page_reads true P ns ∧ Forall2 entry ns es ∧ es ≠ [] ∧
    ascending cmp 0 (n_key <$> ns) ∧ (n_key <$> ns) = es.*1.
Proof.
  intros (_ & q1 & ns & Hf & (P & HP & HR) & H2 & Hne & Hasc) Hq.
  rewrite <-(found_inj fuel m t _ _ _ Hq Hf) in HP. exists P, ns.
  assert (Ek : (n_key <$> ns) = es.*1).
  { clear -H2. induction H2 as [|n kv ns es [Hk _] _ IH]; [done|]. cbn. by rewrite Hk, IH. }
  rewrite Ek. done.
Qed.

Lemma top_page_at fl stk q k rp rk P :
  from m q = Ok P →
  top_page (st (cur fl (stk ++ [(q, k)]) rp rk)) = Ok ((q, P), st (cur fl (stk ++ [(q, k)]) rp rk)).
Proof.
  intros HP. unfold top_page. step (top_pg_at m t dbi fl stk q k rp rk).
  by step (page_of_at m t q P (cur fl (stk ++ [(q, k)]) rp rk) HP).
Qed.

(** The end of a move, on a node without duplicates. *)
Lemma return_node_at q P i n a kv wk wd sub c :
  from m q = Ok P → node_reads true P i n a → entry n kv →
  return_node fuel q P a wk wd sub (st c)
  = Ok (MkGot MDB_SUCCESS (if wk then Some (val kv.1) else None) (if wd then Some (val kv.2) else None), st c).
Proof.
  intros HP Hn (Hk & Hd & Hdup). unfold return_node. step_lift (nr_flags _ _ _ _ _ Hn). rewrite Hdup.
  assert (Er : (if wd then
         r ← mdb_node_read fuel P a;
         mret (match r with inl rc => code rc | inr v => MkGot MDB_SUCCESS None (Some v) end)
       else mret (code MDB_SUCCESS) : M Got) (st c)
    = Ok (MkGot MDB_SUCCESS None (if wd then Some (val kv.2) else None), st c)).
  { destruct wd; [|done]. by step (node_read_at q P i n a kv.2 c HP Hn Hd). }
  step Er. cbn [g_rc]. change (negb (MDB_SUCCESS =? 0)) with false. cbn match.
  destruct wk; [|done]. step_lift (nr_key _ _ _ _ _ Hn). by rewrite Hk.
Qed.

(** ** [mdb_get] *)

(** The database is empty, or has a tree. *)
Definition db_holds (all : entries) : Prop := md_root db = P_INVALID ∧ all = [] ∨ tree_of all.

Definition new_cursor : MDB_cursor := MkCursor dbi 0 0 0 (None :: replicate 31 None) (Some 0 :: replicate 31 None).

Lemma before_new : before_search 0 new_cursor.
Proof. exists 0, 0, None, 0, (replicate 31 None), (replicate 31 None). split_and!; try done. by left. Qed.

Lemma cursor_init_at mx : mdb_cursor_init fuel touch dbi mx (st uninit_cursor) = Ok (tt, st new_cursor).
Proof using Ho.
  unfold mdb_cursor_init, cursor_init. step (mc_at m t uninit_cursor).
  assert (Ep : put_mc (MkCursor dbi 0 0 0 (<[0%nat := None]> (mc_pg uninit_cursor))
    (<[0%nat := Some 0]> (mc_ki uninit_cursor))) (st uninit_cursor) = Ok (tt, st new_cursor)) by done.
  step Ep. assert (Eo : put_own None (st new_cursor) = Ok (tt, st new_cursor)) by done. step Eo.
  assert (Edb : mc_db (st new_cursor) = Ok (db, st new_cursor)).
  { unfold mc_db. step (own_at m t new_cursor). step (mc_at m t new_cursor). step (txn_at m t new_cursor).
    apply lift_Ok, (op_db _ _ _ _ Ho). }
  step Edb. rewrite (op_dup _ _ _ _ Ho).
  assert (Ex : put_x None (st new_cursor) = Ok (tt, st new_cursor)) by done. step Ex.
  destruct (op_flag _ _ _ _ Ho) as (f & Ef & Hst).
  assert (Edf : mc_dbflag (st new_cursor) = Ok (f, st new_cursor)).
  { unfold mc_dbflag. step (own_at m t new_cursor). step (mc_at m t new_cursor). step (txn_at m t new_cursor).
    by apply lift_Ok. }
  step Edf. by rewrite Hst.
Qed.

(** The lookup of a key among entries that are around it. *)
Lemma lookup_around key bef es aft r :
  around cmp key bef aft → ascending cmp 0 es.*1 →
  (∀ j kv, (j < r)%nat → es !! j = Some kv → 0 < ord key kv.1) →
  (∀ j kv, (r ≤ j)%nat → es !! j = Some kv → ord key kv.1 ≤ 0) →
  (list_to_map (bef ++ es ++ aft) : gmap bytes bytes) !! key
  = match es !! r with Some kv => if ord key kv.1 =? 0 then Some kv.2 else None | None => None end.
Proof.
  intros [Hbef Haft] Hasc Hlo Hhi. rewrite !list_to_map_app.
  assert (Hnot : ∀ l : entries, (∀ kv, kv ∈ l → ord key kv.1 ≠ 0) → (list_to_map l : gmap bytes bytes) !! key = None).
  { intros l Hl. apply not_elem_of_list_to_map_1. intros (kv & Hk & Hin)%list_elem_of_fmap.
    apply (Hl kv Hin). by apply ord_eq. }
  rewrite lookup_union_r.
  2:{ apply Hnot. intros kv Hin. rewrite Forall_forall in Hbef. specialize (Hbef kv Hin).
      apply ord_lt in Hbef. lia. }
  rewrite lookup_union_l.
  2:{ apply Hnot. intros kv Hin. rewrite Forall_forall in Haft. specialize (Haft kv Hin). lia. }
  destruct (es !! r) as [kv|] eqn:Er.
  - destruct (Z.eqb_spec (ord key kv.1) 0) as [Heq|Hne].
    + apply elem_of_list_to_map_1.
      * apply NoDup_alt. intros i j x Hi Hj. destruct (Nat.lt_trichotomy i j) as [Hij|[Hij|Hij]]; [|done|].
        -- pose proof (proj2 Hasc i j x x ltac:(lia) Hi Hj) as H. rewrite ord_refl in H. lia.
        -- pose proof (proj2 Hasc j i x x ltac:(lia) Hj Hi) as H. rewrite ord_refl in H. lia.
      * apply ord_eq in Heq as ->. destruct kv. by apply list_elem_of_lookup_2 in Er.
    + apply Hnot. intros kv' [j Hj]%list_elem_of_lookup Heq.
      destruct (decide (j < r)%nat) as [Hjr|]; [specialize (Hlo j kv' Hjr Hj); lia|].
      destruct (decide (j = r)) as [->|]; [rewrite Er in Hj; by injection Hj as <-|].
      apply ord_eq in Heq. pose proof (Hhi r kv ltac:(lia) Er) as Hle.
      assert (H : ord kv.1 kv'.1 < 0).
      { apply (proj2 Hasc r j); [lia|by rewrite list_lookup_fmap, Er|by rewrite list_lookup_fmap, Hj]. }
      rewrite <-Heq in H. apply ord_lt in H. lia.
  - apply Hnot. intros kv' [j Hj]%list_elem_of_lookup Heq.
    apply lookup_ge_None in Er. apply lookup_lt_Some in Hj as Hlt.
    specialize (Hlo j kv' ltac:(lia) Hj). lia.
Qed.

(** The search of the leaf the key belongs to. *)
Lemma leaf_search key fl stk q k0 rp rk pgno lo hi es :
  (17 ≤ fuel)%nat → key_ok key → tree 0 pgno lo hi es → found pgno q →
  ∃ r P ns, (r ≤ length es)%nat ∧ from m q = Ok P ∧ page_reads true P ns ∧ Forall2 entry ns es ∧
    (∀ j kv, (j < r)%nat → es !! j = Some kv → 0 < ord key kv.1) ∧
    (∀ j kv, (r ≤ j)%nat → es !! j = Some kv → ord key kv.1 ≤ 0) ∧
    search_node fuel (val key) (st (cur fl (stk ++ [(q, k0)]) rp rk))
    = Ok ((bool_decide (r < length es)%nat,
           match es !! r with Some kv => ord key kv.1 =? 0 | None => false end),
          st (cur fl (stk ++ [(q, Z.of_nat r)]) rp rk)).
Proof using Ho.
  intros Hfuel Hk Ht Hq. destruct (leaf_of _ _ _ _ _ Ht Hq) as (P & ns & HP & HR & H2 & Hne & Hasc & Ek).
  destruct (search_page fuel m t cmp dbi db Ho true q ns fl stk k0 rp rk key) as (r & Hr & Hlo & Hhi & E);
    [done|by exists P|done|exact Hasc|done|].
  pose proof (Forall2_length _ _ _ H2) as Hlen. exists r, P, ns. rewrite <-Hlen.
  split_and!; try done; [lia| | |].
  - intros j kv Hj Hkv. apply (Forall2_lookup_r _ _ _ _ _ H2) in Hkv as (n & Hn & [<- _]).
    apply (Hlo j); [lia|done].
  - intros j kv Hj Hkv. apply (Forall2_lookup_r _ _ _ _ _ H2) in Hkv as (n & Hn & [<- _]).
    by apply (Hhi j).
  - rewrite E. do 3 f_equal. destruct (es !! r) as [kv|] eqn:Er.
    + apply (Forall2_lookup_r _ _ _ _ _ H2) in Er as (n & -> & [<- _]). done.
    + apply lookup_ge_None in Er. rewrite <-Hlen in Er. by rewrite (proj2 (lookup_ge_None ns r)).
Qed.

Lemma clear_sub_at c : clear_sub_if_any (st c) = Ok (tt, st c).
Proof. done. Qed.

(** The flags of a cursor that a search has placed. *)
Definition placed (fl : Z) : Z := clear_flag (set_flag fl C_INITIALIZED) C_EOF.

(** The label [set1] for a node without duplicates. *)
Lemma set_one_at fl stk q k rp rk P i n a kv data op first set :
  from m q = Ok P → IS_LEAF2 P = Ok false → node_reads true P i n a → entry n kv →
  op = MDB_SET ∨ op = MDB_SET_KEY ∨ op = MDB_SET_RANGE →
  set_one fuel a data op first set (st (cur fl (stk ++ [(q, k)]) rp rk))
  = Ok (MkGot MDB_SUCCESS (if gives_key op then Some (val kv.1) else None)
          (match data with Some _ => Some (val kv.2) | None => None end),
        st (cur (placed fl) (stk ++ [(q, k)]) rp rk)).
Proof.
  intros HP H2 Hn (Hk & Hd & Hdup) Hop. unfold set_one, raise_flag, drop_flag.
  step (upd_flags_at m t dbi fl stk q k rp rk (λ f, set_flag f C_INITIALIZED)).
  step (upd_flags_at m t dbi (set_flag fl C_INITIALIZED) stk q k rp rk (λ f, clear_flag f C_EOF)).
  fold (placed fl). set (c := cur (placed fl) (stk ++ [(q, k)]) rp rk).
  step (top_page_at (placed fl) stk q k rp rk P HP). fold c. step_lift H2.
  step_lift (nr_flags _ _ _ _ _ Hn). rewrite Hdup.
  assert (Es : ∀ v, set_data fuel P a v op (st c) = Ok ((MDB_SUCCESS, Some (val kv.2)), st c)).
  { intros v. unfold set_data. rewrite decide_False by naive_solver. step (clear_sub_at c).
    by step (node_read_at q P i n a kv.2 c HP Hn Hd). }
  assert (Eg : ∀ out : option MDB_val,
    (if gives_key op then k ← lift (get_key P a); mret (MkGot MDB_SUCCESS (Some k) out)
     else mret (MkGot MDB_SUCCESS None out) : M Got) (st c)
    = Ok (MkGot MDB_SUCCESS (if gives_key op then Some (val kv.1) else None) out, st c)).
  { intros out. destruct (gives_key op); [|done]. step_lift (nr_key _ _ _ _ _ Hn). by rewrite Hk. }
  destruct data as [v|].
  - assert (Ed : ('(rc, out) ← set_data fuel P a v op; mret (rc, out, negb (rc =? 0)) : M _) (st c)
      = Ok ((MDB_SUCCESS, Some (val kv.2), false), st c)) by (by step (Es v)).
    step Ed. apply Eg.
  - assert (Ed : (mret (0, None, false) : M (Z * option MDB_val * bool)) (st c) = Ok ((0, None, false), st c)) by done.
    step Ed. apply Eg.
Qed.

(** The search for a key ends on the leaf whose entries are around it. *)
Lemma search_key_at all key c fl :
  (17 ≤ fuel)%nat → key_ok key → tree_of all → before_search fl c →
  ∃ c', mdb_page_search fuel touch (Some (val key)) 0 (st c) = Ok (MDB_SUCCESS, st c') ∧
    on_leaf all (placed fl) (around cmp key) c'.
Proof using Ho.
  intros Hfuel Hk Ht Hc. apply (page_search_at fuel m t cmp dbi db Ho touch); try done.
  by apply (chooses_key fuel m t cmp dbi db Ho).
Qed.

Lemma page_search_empty key flags c :
  (1 ≤ fuel)%nat → mc_dbi c = dbi → md_root db = P_INVALID →
  mdb_page_search fuel touch key flags (st c) = Ok (MDB_NOTFOUND, st c).
Proof using Ho.
  intros Hfuel Hc Hr. unfold mdb_page_search.
  assert (∃ n, fuel = S n) as [n Efuel] by (exists (pred fuel); lia).
  replace (page_search fuel touch fuel) with (page_search fuel touch (S n)) by (by rewrite <-Efuel).
  cbn [page_search]. step (txn_at m t c). rewrite (op_txn _ _ _ _ Ho).
  destruct (op_flag _ _ _ _ Ho) as (f & Ef & Hst).
  assert (Edf : mc_dbflag (st c) = Ok (f, st c)).
  { unfold mc_dbflag. step (own_at m t c). step (mc_at m t c). step (txn_at m t c). rewrite Hc. by apply lift_Ok. }
  step Edf. rewrite Hst. rewrite (SM_bind_Ok (mret MDB_SUCCESS) _ _ MDB_SUCCESS (st c) eq_refl).
  change (negb (MDB_SUCCESS =? 0)) with false. cbn match. unfold search_from_root.
  assert (Edb : mc_db (st c) = Ok (db, st c)).
  { unfold mc_db. step (own_at m t c). step (mc_at m t c). step (txn_at m t c). rewrite Hc.
    apply lift_Ok, (op_db _ _ _ _ Ho). }
  step Edb. by rewrite Hr.
Qed.

(** [mdb_cursor_set] on a new cursor: the descent, the search of the leaf, and [set1]. *)
Lemma cursor_set_new all key data op exactp d :
  (17 ≤ fuel)%nat → key_ok key → tree_of all →
  ∃ c1 first set, on_leaf all (placed 0) (around cmp key) c1 ∧
    mdb_cursor_set fuel touch (S d) (val key) data op exactp (st new_cursor)
    = (r ← set_two fuel (val key) exactp;
       match r with inl rc => mret (code rc) | inr leaf => set_one fuel leaf data op first set end) (st c1).
Proof using Ho.
  intros Hfuel Hk Ht. pose proof (key_size _ Hk) as Hsize.
  destruct (search_key_at all key new_cursor 0 Hfuel Hk Ht before_new) as (c1 & Es & H1).
  exists c1. eexists _, _. split; [exact H1|]. cbn [mdb_cursor_set].
  rewrite (proj2 (Z.eqb_neq (mv_size (val key)) 0)) by (cbn; lia).
  step (clear_sub_at new_cursor). step (mc_at m t new_cursor).
  change (has_flag (mc_flags new_cursor) C_INITIALIZED) with false. cbn match.
  assert (En : (set_pg 0 None;; mret SetSearch : M set_next) (st new_cursor) = Ok (SetSearch, st new_cursor))
    by done.
  step En.
  destruct H1 as (stk & q & k & pgno & lo & hi & bef & es & aft & rp & rk & -> & Hs & Hf & _).
  destruct (leaf_of _ _ _ _ _ (spine_tree _ _ _ _ _ _ _ _ _ _ _ _ _ _ Hs) Hf) as (P & ns & HP & HR & _).
  assert (E2 : (rc ← mdb_page_search fuel touch (Some (val key)) 0;
      if negb (rc =? 0) then mret (SetRet rc)
      else '(_, p) ← top_page; leaf ← lift (IS_LEAF p); lift (c_assert leaf);; mret SetTwo : M set_next)
      (st new_cursor) = Ok (SetTwo, st (cur (placed 0) (stk ++ [(q, k)]) rp rk))).
  { step Es. change (negb (MDB_SUCCESS =? 0)) with false. cbn match.
    step (top_page_at (placed 0) stk q k rp rk P HP). by step_lift (pr_leaf _ _ _ HR). }
  step E2. unfold mbind at 1 3, SM_bind at 1 3. unfold mbind, SM_bind.
  destruct (set_two fuel (val key) exactp _) as [[[rc|leaf] s]| | |]; reflexivity.
Qed.

Lemma cursor_set_empty key data op exactp d :
  (17 ≤ fuel)%nat → key_ok key → md_root db = P_INVALID →
  mdb_cursor_set fuel touch (S d) (val key) data op exactp (st new_cursor) = Ok (code MDB_NOTFOUND, st new_cursor).
Proof using Ho.
  intros Hfuel Hk Hr. pose proof (key_size _ Hk) as Hsize. cbn [mdb_cursor_set].
  rewrite (proj2 (Z.eqb_neq (mv_size (val key)) 0)) by (cbn; lia).
  step (clear_sub_at new_cursor). step (mc_at m t new_cursor).
  change (has_flag (mc_flags new_cursor) C_INITIALIZED) with false. cbn match.
  assert (En : (set_pg 0 None;; mret SetSearch : M set_next) (st new_cursor) = Ok (SetSearch, st new_cursor))
    by done.
  step En.
  assert (Es : (rc ← mdb_page_search fuel touch (Some (val key)) 0;
      if negb (rc =? 0) then mret (SetRet rc)
      else '(_, p) ← top_page; leaf ← lift (IS_LEAF p); lift (c_assert leaf);; mret SetTwo : M set_next)
      (st new_cursor) = Ok (SetRet MDB_NOTFOUND, st new_cursor)).
  { by step (page_search_empty (Some (val key)) 0 new_cursor ltac:(lia) eq_refl Hr). }
  by step Es.
Qed.

(** [MDB_SET] on a new cursor. *)
Lemma cursor_set_get all key v0 :
  (17 ≤ fuel)%nat → key_ok key → db_holds all →
  ∃ c', mdb_cursor_set fuel touch 1 (val key) (Some v0) MDB_SET true (st new_cursor)
  = Ok (match (list_to_map all : gmap bytes bytes) !! key with
        | Some v => MkGot MDB_SUCCESS None (Some (val v))
        | None => code MDB_NOTFOUND
        end, st c').
Proof using Ho.
  intros Hfuel Hk [[Hr ->]|Ht]; [exists new_cursor; by rewrite cursor_set_empty by (done || lia)|].
  destruct (cursor_set_new all key (Some v0) MDB_SET true 0 Hfuel Hk Ht) as (c1 & first & set & H1 & ->).
  destruct H1 as (stk & q & k & pgno & lo & hi & bef & es & aft & rp & rk & -> & Hs & Hf & Hg & Hroom).
  set (fl := placed 0) in *. pose proof (spine_tree _ _ _ _ _ _ _ _ _ _ _ _ _ _ Hs) as Hleaf.
  destruct (leaf_search key fl stk q k rp rk pgno lo hi es Hfuel Hk Hleaf Hf)
    as (r & P & ns & Hr & HP & HR & H2 & Hlo & Hhi & E).
  destruct (leaf_of _ _ _ _ _ Hleaf Hf) as (P' & ns' & _ & _ & _ & _ & Hasc & Ek). rewrite Ek in Hasc.
  rewrite (spine_all _ _ _ _ _ _ _ _ _ _ _ _ _ _ Hs), (lookup_around key bef es aft r Hg Hasc Hlo Hhi).
  exists (cur (placed fl) (stk ++ [(q, Z.of_nat r)]) rp rk).
  set (c := cur fl (stk ++ [(q, Z.of_nat r)]) rp rk) in *.
  assert (E2 : set_two fuel (val key) true (st (cur fl (stk ++ [(q, k)]) rp rk))
    = (if match es !! r with Some kv => ord key kv.1 =? 0 | None => false end
       then k ← top_ki; a ← lift (leaf_at P false k); mret (inr a) else mret (inl MDB_NOTFOUND) : M (Z + Z)) (st c)).
  { unfold set_two. step (top_page_at fl stk q k rp rk P HP). step_lift (pr_leaf2 _ _ _ HR). step E. fold c.
    destruct (es !! r) as [kv|] eqn:Er; [|done]. apply lookup_lt_Some in Er.
    rewrite bool_decide_eq_true_2 by done. by destruct (_ =? 0). }
  destruct (es !! r) as [kv|] eqn:Er; [destruct (Z.eqb_spec (ord key kv.1) 0) as [Heq|Hneq]|];
    [|by step E2..].
  pose proof (Forall2_lookup_r _ _ _ _ _ H2 Er) as (n & Hn & Hent).
  destruct (pr_node _ _ _ HR r n Hn) as [a Ha].
  assert (E3 : set_two fuel (val key) true (st (cur fl (stk ++ [(q, k)]) rp rk)) = Ok (inr a, st c)).
  { rewrite E2. step (top_ki_at m t dbi fl stk q (Z.of_nat r) rp rk). by step_lift (nr_ptr _ _ _ _ _ Ha). }
  step E3.
  apply (set_one_at fl stk q (Z.of_nat r) rp rk P (Z.of_nat r) n a kv (Some v0) MDB_SET _ _ HP
    (pr_leaf2 _ _ _ HR) Ha Hent (or_introl eq_refl)).
Qed.

(** [mdb_get] finds the entry of the key, and leaves the caller's state as it is. *)
Lemma mdb_get_lookup all key v0 s :
  (17 ≤ fuel)%nat → key_ok key → db_holds all →
  TXN_DBI_EXIST t dbi DB_USRVALID = true → st_mem s = m → st_txn s = t →
  mdb_get fuel touch dbi (Some (val key)) (Some v0) s
  = Ok (match (list_to_map all : gmap bytes bytes) !! key with
        | Some v => MkGot MDB_SUCCESS None (Some (val v))
        | None => code MDB_NOTFOUND
        end, s).
Proof using Ho.
  intros Hfuel Hk Hall Hv Hm Ht.
  destruct (cursor_set_get all key v0 Hfuel Hk Hall) as (c' & E).
  unfold mdb_get. assert (Etx : txn s = Ok (t, s)) by (unfold txn; by rewrite Ht). step Etx.
  rewrite Hv, (op_txn _ _ _ _ Ho). cbn [negb]. unfold on_new. rewrite Hm, Ht.
  change (MkSt m t uninit_cursor None None) with (st uninit_cursor).
  step (cursor_init_at true). rewrite E. cbn. by destruct s; cbn in *; subst.
Qed.

(** ** Siblings *)

(** The parts of [mdb_cursor_sibling] behind the pop: the move of the parent, and the
    push of the child it points to. *)
Definition parent_move (n : nat) (right last : bool) (k : Z) : M Z :=
  if last then
    rc ← cursor_sibling fuel n right;
    (if rc =? 0 then mret rc else c ← mc; put_mc (set_snum_top c (mc_snum c + 1) (mc_top c + 1));; mret rc)
  else set_top_ki (if right then k + 1 else k - 1);; mret MDB_SUCCESS.

Definition child_push (right : bool) : M Z :=
  '(_, p) ← top_page;
  branch ← lift (IS_BRANCH p); lift (c_assert branch);;
  k ← top_ki;
  a ← lift (NODEPTR p k); pgno ← lift (NODEPGNO p a);
  r ← mdb_page_get fuel pgno;
  match r with
  | inl rc => drop_flag (Z.lor C_INITIALIZED C_EOF);; mret rc
  | inr (mp, _) =>
      _ ← mdb_cursor_push mp;
      if right then mret MDB_SUCCESS
      else p ← page_of mp; nk ← lift (NUMKEYS p); set_top_ki (nk - 1);; mret MDB_SUCCESS
  end.

Lemma sibling_unfold n right fl stk q0 i P bs q k rp rk :
  from m q0 = Ok P → page_reads false P bs → (length stk < 31)%nat →
  cursor_sibling fuel (S n) right (st (cur fl ((stk ++ [(q0, Z.of_nat i)]) ++ [(q, k)]) rp rk))
  = (rc ← parent_move n right
            (if right then Z.of_nat (length bs) <=? Z.of_nat i + 1 else Z.of_nat i =? 0) (Z.of_nat i);
     if negb (rc =? 0) then mret rc else child_push right)
    (st (cur fl (stk ++ [(q0, Z.of_nat i)]) (Some q :: rp) (Some k :: rk))).
Proof.
  intros HP HR Hl. set (c := cur fl ((stk ++ [(q0, Z.of_nat i)]) ++ [(q, k)]) rp rk).
  cbn [cursor_sibling]. step (mc_at m t c). unfold c at 1.
  rewrite (cur_snum dbi fl (stk ++ [(q0, Z.of_nat i)]) q k rp rk), length_app.
  rewrite (proj2 (Z.ltb_ge _ _)) by (cbn; lia). unfold c.
  step (pop_at m t dbi fl (stk ++ [(q0, Z.of_nat i)]) q k rp rk ltac:(by destruct stk)
    ltac:(rewrite length_app; cbn; lia)).
  step (top_ki_at m t dbi fl stk q0 (Z.of_nat i) (Some q :: rp) (Some k :: rk)).
  destruct right; [|reflexivity].
  assert (El : ('(_, p) ← top_page; nk ← lift (NUMKEYS p); mret (nk <=? Z.of_nat i + 1) : M bool)
      (st (cur fl (stk ++ [(q0, Z.of_nat i)]) (Some q :: rp) (Some k :: rk)))
    = Ok (Z.of_nat (length bs) <=? Z.of_nat i + 1,
          st (cur fl (stk ++ [(q0, Z.of_nat i)]) (Some q :: rp) (Some k :: rk)))).
  { step (top_page_at fl stk q0 (Z.of_nat i) (Some q :: rp) (Some k :: rk) P HP).
    by step_lift (pr_num _ _ _ HR). }
  by step El.
Qed.

(** The parent cannot move: the cursor is as before. *)
Lemma parent_fails n right fl stk q0 i q k rp rk :
  let c1 := cur fl (stk ++ [(q0, i)]) (Some q :: rp) (Some k :: rk) in
  cursor_sibling fuel n right (st c1) = Ok (MDB_NOTFOUND, st c1) → (length stk < 31)%nat →
  parent_move n right true i (st c1) = Ok (MDB_NOTFOUND, st (cur fl ((stk ++ [(q0, i)]) ++ [(q, k)]) rp rk)).
Proof.
  intros c1 E Hl. unfold parent_move. step E. change (MDB_NOTFOUND =? 0) with false. cbn match.
  step (mc_at m t c1).
  by step (unpop_at m t dbi fl (stk ++ [(q0, i)]) q k rp rk ltac:(by destruct stk)
    ltac:(rewrite length_app; cbn; lia)).
Qed.

(** The index is the last one of the page. *)
Definition at_last (q : Ptr) (k : Z) : Prop :=
  ∃ P leaf ns, from m q = Ok P ∧ page_reads leaf P ns ∧ ns ≠ [] ∧ k = Z.of_nat (length ns) - 1.

Lemma at_last_eq q k P leaf ns :
  at_last q k → from m q = Ok P → page_reads leaf P ns → k = Z.of_nat (length ns - 1) ∧ ns ≠ [].
Proof.
  intros (P' & leaf' & ns' & HP' & HR' & Hne & ->) HP HR. rewrite HP in HP'. injection HP' as <-.
  pose proof (pr_num _ _ _ HR) as E. rewrite (pr_num _ _ _ HR') in E. injection E as E.
  assert (length ns' ≠ 0)%nat by (by destruct ns'). split; [lia|]. destruct ns; [cbn in E; lia|done].
Qed.

(** The child [i] of the page on top is pushed; to the left, at its last entry. *)
Lemma child_push_at right d pgno lo hi q bs ess i b fl stk x y rp rk :
  branch fuel m t cmp d pgno lo hi q bs ess → bs !! i = Some b →
  (length (stk ++ [(q, Z.of_nat i)]) < 32)%nat →
  ∃ q' k', found (n_pgno b) q' ∧ (if right : bool then k' = 0 else at_last q' k') ∧
    child_push right (st (cur fl (stk ++ [(q, Z.of_nat i)]) (x :: rp) (y :: rk)))
    = Ok (MDB_SUCCESS, st (cur fl ((stk ++ [(q, Z.of_nat i)]) ++ [(q', k')]) rp rk)).
Proof.
  intros (Hf & (P & HP & HR) & H2 & Hl & Ha & Ht) Hb Hlen.
  destruct (lookup_lt_is_Some_2 ess i) as [e He]; [rewrite Hl; by apply lookup_lt_Some in Hb|].
  pose proof (Ht i b e Hb He) as Hte.
  assert (Hc : ∃ q' P' leaf ns, found (n_pgno b) q' ∧ from m q' = Ok P' ∧ page_reads leaf P' ns ∧ ns ≠ []).
  { destruct d; [destruct Hte as (_ & q1 & ns & Hf1 & (P1 & HP1 & HR1) & H2e & Hne & _)|
      destruct Hte as (_ & q1 & ns & ess1 & Hf1 & (P1 & HP1 & HR1) & H21 & _)];
      exists q1, P1; [exists true|exists false]; exists ns; (split; [done|]); (split; [done|]);
      (split; [done|]); [|by destruct ns; [cbn in H21; lia|]].
    intros ->. apply Forall2_nil_inv_l in H2e. done. }
  destruct Hc as (q' & P' & leaf & ns & Hq' & HP' & HR' & Hne).
  destruct (pr_node _ _ _ HR i b Hb) as [a Hna].
  exists q', (if right then 0 else Z.of_nat (length ns) - 1). split; [done|].
  split; [destruct right; [done|by exists P', leaf, ns]|].
  unfold child_push. step (top_page_at fl stk q (Z.of_nat i) (x :: rp) (y :: rk) P HP).
  step_lift (pr_branch _ _ _ HR). cbn [negb].
  step_lift (eq_refl : c_assert true = Ok tt).
  step (top_ki_at m t dbi fl stk q (Z.of_nat i) (x :: rp) (y :: rk)).
  step_lift (nr_ptr _ _ _ _ _ Hna). step_lift (nr_pgno _ _ _ _ _ Hna).
  destruct (page_get_at fuel m t (n_pgno b) q' (cur fl (stk ++ [(q, Z.of_nat i)]) (x :: rp) (y :: rk)) Hq')
    as [lvl Eg].
  step Eg.
  step (push_at m t dbi fl (stk ++ [(q, Z.of_nat i)]) q' x y rp rk ltac:(by destruct stk) Hlen).
  destruct right; [done|].
  step (page_of_at m t q' P' (cur fl ((stk ++ [(q, Z.of_nat i)]) ++ [(q', 0)]) rp rk) HP').
  step_lift (pr_num _ _ _ HR'). pose proof (pr_max _ _ _ HR').
  assert (length ns ≠ 0)%nat by (by destruct ns).
  by step (set_top_ki_at m t dbi fl (stk ++ [(q, Z.of_nat i)]) q' 0 rp rk (Z.of_nat (length ns) - 1) ltac:(lia)).
Qed.

(** A path that ends in a page of some depth is continued in one of its children. *)
Lemma spine_child root all stk d pgno lo hi bef es aft q i :
  spine root all stk (S d) pgno lo hi bef es aft → found pgno q →
  (∀ bs ess, branch fuel m t cmp d pgno lo hi q bs ess → es = concat ess → (i bs < length bs)%nat) →
  ∃ bs ess b e, branch fuel m t cmp d pgno lo hi q bs ess ∧ es = concat ess ∧ bs !! i bs = Some b ∧
    ess !! i bs = Some e ∧
    spine root all (stk ++ [(q, Z.of_nat (i bs))]) d (n_pgno b) (lo_at bs lo (i bs)) (hi_at bs hi (i bs))
      (bef ++ concat (take (i bs) ess)) e (concat (drop (S (i bs)) ess) ++ aft).
Proof.
  intros Hs Hf Hi. pose proof (spine_tree _ _ _ _ _ _ _ _ _ _ _ _ _ _ Hs) as Ht.
  apply tree_branch in Ht as (q1 & bs & ess & Hbr & ->).
  assert (q1 = q) as -> by (apply (found_inj fuel m t pgno); [apply Hbr|done]).
  pose proof Hbr as (_ & _ & _ & Hl & _). specialize (Hi bs ess Hbr eq_refl).
  destruct (lookup_lt_is_Some_2 bs (i bs)) as [b Hb]; [lia|].
  destruct (lookup_lt_is_Some_2 ess (i bs)) as [e He]; [lia|].
  exists bs, ess, b, e. split_and!; try done. by apply spine_snoc with pgno.
Qed.

(** The move to the next page of the same depth. *)
Lemma sibling_right root all n stk d pgno lo hi bef es aft q k fl rp rk :
  spine root all stk d pgno lo hi bef es aft → (length stk < n)%nat → room (stk ++ [(q, k)]) rp rk →
  let c := cur fl (stk ++ [(q, k)]) rp rk in
  aft = [] ∧ cursor_sibling fuel n true (st c) = Ok (MDB_NOTFOUND, st c) ∨
  ∃ stk' q' pgno' lo' hi' es' aft',
    cursor_sibling fuel n true (st c) = Ok (MDB_SUCCESS, st (cur fl (stk' ++ [(q', 0)]) rp rk)) ∧
    spine root all stk' d pgno' lo' hi' (bef ++ es) es' aft' ∧ aft = es' ++ aft' ∧
    found pgno' q' ∧ length stk' = length stk.
Proof.
  intros Hs. revert n q k rp rk.
  induction Hs as [d Ht|stk d pgno lo hi bef aft q0 bs ess i b e Hs IH Hbr Hb He];
    intros n q k rp rk Hn Hroom c; (destruct n as [|n]; [cbn in Hn; lia|]).
  { left. split; [done|]. by unfold c; cbn [cursor_sibling]; step (mc_at m t (cur fl [(q, k)] rp rk)). }
  pose proof Hbr as (Hf & (P & HP & HR) & H2 & Hl & _).
  pose proof (pr_max _ _ _ HR) as Hmax. apply lookup_lt_Some in Hb as Hi.
  destruct Hroom as [Hr1 Hr2]. rewrite !length_app in Hr1. cbn in Hr1.
  unfold c. rewrite (sibling_unfold n true fl stk q0 i P bs q k rp rk HP HR) by lia.
  set (c1 := cur fl (stk ++ [(q0, Z.of_nat i)]) (Some q :: rp) (Some k :: rk)).
  assert (Hlen : ∀ j, (length (stk ++ [(q0, j)]) < 32)%nat) by (intros; rewrite length_app; cbn; lia).
  destruct (Z.leb_spec (Z.of_nat (length bs)) (Z.of_nat i + 1)) as [Hlast|Hmore].
  - (* the parent moves first *)
    assert (Hdrop : drop (S i) ess = []) by (apply drop_ge; lia). rewrite Hdrop. cbn [concat app].
    destruct (IH n q0 (Z.of_nat i) (Some q :: rp) (Some k :: rk)) as
      [[-> E]|(stk' & q' & pgno' & lo' & hi' & es' & aft' & E & Hs' & -> & Hf' & Hl')].
    { rewrite length_app in Hn. cbn in Hn. lia. }
    { split; [rewrite length_app; cbn; lia|cbn; lia]. }
    + left. split; [done|].
      by step (parent_fails n true fl stk q0 (Z.of_nat i) q k rp rk E ltac:(lia)).
    + right. fold c1 in E.
      assert (E' : parent_move n true true (Z.of_nat i) (st c1)
        = Ok (MDB_SUCCESS, st (cur fl (stk' ++ [(q', 0)]) (Some q :: rp) (Some k :: rk))))
        by (unfold parent_move; by step E).
      step E'. change (negb (MDB_SUCCESS =? 0)) with false. cbn match.
      destruct (spine_child _ _ _ _ _ _ _ _ _ _ q' (λ _, 0%nat) Hs' Hf')
        as (bs1 & ess1 & b1 & e1 & Hbr1 & -> & Hb1 & He1 & Hs2);
        [intros bs1 ? (_ & _ & ? & _) _; lia|].
      destruct (child_push_at true d pgno' lo' hi' q' bs1 ess1 0 b1 fl stk' (Some q) (Some k) rp rk Hbr1 Hb1)
        as (q2 & k2 & Hq2 & Hk2 & Ep); [rewrite length_app; cbn; lia|].
      subst k2.
      eexists _, q2, _, _, _, e1, _. split; [exact Ep|]. split_and!; [| |done|rewrite !length_app; cbn; lia].
      * rewrite take_0 in Hs2. cbn [concat] in Hs2. rewrite app_nil_r in Hs2.
        rewrite (concat_split ess i e He), Hdrop in Hs2. cbn [concat] in Hs2. rewrite app_nil_r in Hs2.
        rewrite <-(assoc_L (++)). exact Hs2.
      * rewrite (concat_split ess1 0 e1 He1), take_0. cbn [concat app]. by rewrite <-(assoc_L (++)).
  - (* the next child *)
    right. destruct (lookup_lt_is_Some_2 bs (S i)) as [b1 Hb1]; [lia|].
    destruct (lookup_lt_is_Some_2 ess (S i)) as [e1 He1]; [lia|].
    assert (E' : parent_move n true false (Z.of_nat i) (st c1)
      = Ok (MDB_SUCCESS, st (cur fl (stk ++ [(q0, Z.of_nat (S i))]) (Some q :: rp) (Some k :: rk)))).
    { unfold parent_move. replace (Z.of_nat i + 1) with (Z.of_nat (S i)) by lia.
      by step (set_top_ki_at m t dbi fl stk q0 (Z.of_nat i) (Some q :: rp) (Some k :: rk) (Z.of_nat (S i)) ltac:(lia)). }
    step E'. change (negb (MDB_SUCCESS =? 0)) with false. cbn match.
    destruct (child_push_at true d pgno lo hi q0 bs ess (S i) b1 fl stk (Some q) (Some k) rp rk Hbr Hb1)
      as (q2 & k2 & Hq2 & Hk2 & Ep); [rewrite length_app; cbn; lia|].
    subst k2.
    pose proof (spine_snoc _ _ _ _ _ _ stk d pgno lo hi _ aft q0 bs ess (S i) b1 e1 Hs Hbr Hb1 He1) as Hs2.
    eexists _, q2, _, _, _, e1, _. split; [exact Ep|]. split_and!; [| |done|rewrite !length_app; cbn; lia].
    + rewrite <-(assoc_L (++)). rewrite (take_S_r _ _ _ He), concat_app in Hs2. cbn in Hs2.
      rewrite app_nil_r in Hs2. exact Hs2.
    + rewrite (drop_S _ _ _ He1). cbn. by rewrite <-(assoc_L (++)).
Qed.

(** The move to the previous page of the same depth, at its last entry. *)
Lemma sibling_left root all n stk d pgno lo hi bef es aft q k fl rp rk :
  spine root all stk d pgno lo hi bef es aft → (length stk < n)%nat → room (stk ++ [(q, k)]) rp rk →
  let c := cur fl (stk ++ [(q, k)]) rp rk in
  bef = [] ∧ cursor_sibling fuel n false (st c) = Ok (MDB_NOTFOUND, st c) ∨
  ∃ stk' q' k' pgno' lo' hi' bef' es',
    cursor_sibling fuel n false (st c) = Ok (MDB_SUCCESS, st (cur fl (stk' ++ [(q', k')]) rp rk)) ∧
    spine root all stk' d pgno' lo' hi' bef' es' (es ++ aft) ∧ bef = bef' ++ es' ∧
    found pgno' q' ∧ at_last q' k' ∧ length stk' = length stk.
Proof.
  intros Hs. revert n q k rp rk.
  induction Hs as [d Ht|stk d pgno lo hi bef aft q0 bs ess i b e Hs IH Hbr Hb He];
    intros n q k rp rk Hn Hroom c; (destruct n as [|n]; [cbn in Hn; lia|]).
  { left. split; [done|]. by unfold c; cbn [cursor_sibling]; step (mc_at m t (cur fl [(q, k)] rp rk)). }
  pose proof Hbr as (Hf & (P & HP & HR) & H2 & Hl & _).
  pose proof (pr_max _ _ _ HR) as Hmax. apply lookup_lt_Some in Hb as Hi.
  destruct Hroom as [Hr1 Hr2]. rewrite !length_app in Hr1. cbn in Hr1.
  unfold c. rewrite (sibling_unfold n false fl stk q0 i P bs q k rp rk HP HR) by lia.
  set (c1 := cur fl (stk ++ [(q0, Z.of_nat i)]) (Some q :: rp) (Some k :: rk)).
  destruct (Z.eqb_spec (Z.of_nat i) 0) as [Hfirst|Hmore].
  - (* the parent moves first *)
    assert (i = 0%nat) as -> by lia. rewrite take_0. cbn [concat]. rewrite app_nil_r.
    destruct (IH n q0 0 (Some q :: rp) (Some k :: rk)) as
      [[-> E]|(stk' & q' & k' & pgno' & lo' & hi' & bef' & es' & E & Hs' & -> & Hf' & Hk' & Hl')].
    { rewrite length_app in Hn. cbn in Hn. lia. }
    { split; [rewrite length_app; cbn; lia|cbn; lia]. }
    + left. split; [done|]. by step (parent_fails n false fl stk q0 0 q k rp rk E ltac:(lia)).
    + right. fold c1 in E.
      assert (E' : parent_move n false true 0 (st c1)
        = Ok (MDB_SUCCESS, st (cur fl (stk' ++ [(q', k')]) (Some q :: rp) (Some k :: rk))))
        by (unfold parent_move; by step E).
      step E'. change (negb (MDB_SUCCESS =? 0)) with false. cbn match.
      destruct (spine_child _ _ _ _ _ _ _ _ _ _ q' (λ bs, (length bs - 1)%nat) Hs' Hf')
        as (bs1 & ess1 & b1 & e1 & Hbr1 & -> & Hb1 & He1 & Hs2);
        [intros bs1 ? (_ & _ & ? & _) _; lia|].
      pose proof Hbr1 as (_ & (P1 & HP1 & HR1) & H21 & Hl1 & _).
      destruct (at_last_eq _ _ _ _ _ Hk' HP1 HR1) as [-> _].
      destruct (child_push_at false d pgno' lo' hi' q' bs1 ess1 (length bs1 - 1) b1 fl stk' (Some q) (Some k)
        rp rk Hbr1 Hb1) as (q2 & k2 & Hq2 & Hk2 & Ep); [rewrite length_app; cbn; lia|].
      eexists _, q2, k2, _, _, _, _, e1. split; [exact Ep|].
      split_and!; [| |done|done|rewrite !length_app; cbn; lia].
      * rewrite (drop_ge ess1) in Hs2 by lia. cbn [concat app] in Hs2.
        rewrite (concat_split ess 0 e He), take_0 in Hs2. cbn [concat app] in Hs2.
        rewrite <-(assoc_L (++)) in Hs2. exact Hs2.
      * rewrite (concat_split ess1 _ e1 He1), (drop_ge ess1) by lia. cbn [concat].
        by rewrite app_nil_r, (assoc_L (++)).
  - (* the child before *)
    right. destruct i as [|i]; [lia|]. destruct (lookup_lt_is_Some_2 bs i) as [b1 Hb1]; [lia|].
    destruct (lookup_lt_is_Some_2 ess i) as [e1 He1]; [lia|].
    assert (E' : parent_move n false false (Z.of_nat (S i)) (st c1)
      = Ok (MDB_SUCCESS, st (cur fl (stk ++ [(q0, Z.of_nat i)]) (Some q :: rp) (Some k :: rk)))).
    { unfold parent_move. replace (Z.of_nat (S i) - 1) with (Z.of_nat i) by lia.
      by step (set_top_ki_at m t dbi fl stk q0 (Z.of_nat (S i)) (Some q :: rp) (Some k :: rk) (Z.of_nat i) ltac:(lia)). }
    step E'. change (negb (MDB_SUCCESS =? 0)) with false. cbn match.
    destruct (child_push_at false d pgno lo hi q0 bs ess i b1 fl stk (Some q) (Some k) rp rk Hbr Hb1)
      as (q2 & k2 & Hq2 & Hk2 & Ep); [rewrite length_app; cbn; lia|].
    pose proof (spine_snoc _ _ _ _ _ _ stk d pgno lo hi _ aft q0 bs ess i b1 e1 Hs Hbr Hb1 He1) as Hs2.
    eexists _, q2, k2, _, _, _, _, e1. split; [exact Ep|].
    split_and!; [| |done|done|rewrite !length_app; cbn; lia].
    + rewrite (drop_S _ _ _ He) in Hs2. cbn in Hs2. rewrite <-(assoc_L (++)) in Hs2. exact Hs2.
    + rewrite (take_S_r _ _ _ He1), concat_app. cbn. by rewrite app_nil_r, (assoc_L (++)).
Qed.

(** ** Moves *)

(** The cursor is on the entry [kv], between [es1] and [es2]. *)
Definition at_entry (all : entries) (fl : Z) (es1 : entries) (kv : bytes * bytes) (es2 : entries)
    (c : MDB_cursor) : Prop :=
  ∃ stk q k pgno lo hi bef es aft rp rk, c = cur fl (stk ++ [(q, Z.of_nat k)]) rp rk ∧
    spine (md_root db) all stk 0 pgno lo hi bef es aft ∧ found pgno q ∧
    room (stk ++ [(q, Z.of_nat k)]) rp rk ∧ es !! k = Some kv ∧
    es1 = bef ++ take k es ∧ es2 = drop (S k) es ++ aft.

Lemma at_entry_all all fl es1 kv es2 c : at_entry all fl es1 kv es2 c → all = es1 ++ kv :: es2.
Proof.
  intros (stk & q & k & pgno & lo & hi & bef & es & aft & rp & rk & _ & Hs & _ & _ & Hk & -> & ->).
  rewrite (spine_all _ _ _ _ _ _ _ _ _ _ _ _ _ _ Hs). rewrite <-(take_drop_middle es k kv Hk) at 1.
  by rewrite <-!(assoc_L (++)).
Qed.

Lemma at_entry_flags all fl fl' es1 kv es2 c :
  at_entry all fl es1 kv es2 c → at_entry all fl' es1 kv es2 (set_mc_flags c fl').
Proof.
  intros (stk & q & k & pgno & lo & hi & bef & es & aft & rp & rk & -> & H).
  by exists stk, q, k, pgno, lo, hi, bef, es, aft, rp, rk.
Qed.

(** What the code reads at an entry. *)
Lemma at_entry_reads all fl es1 kv es2 c :
  at_entry all fl es1 kv es2 c →
  ∃ stk q k rp rk P ns n a, c = cur fl (stk ++ [(q, Z.of_nat k)]) rp rk ∧
    from m q = Ok P ∧ page_reads true P ns ∧ ns !! k = Some n ∧ node_reads true P (Z.of_nat k) n a ∧
    entry n kv.
Proof.
  intros (stk & q & k & pgno & lo & hi & bef & es & aft & rp & rk & -> & Hs & Hf & _ & Hk & _).
  destruct (leaf_of _ _ _ _ _ (spine_tree _ _ _ _ _ _ _ _ _ _ _ _ _ _ Hs) Hf)
    as (P & ns & HP & HR & H2 & _).
  apply (Forall2_lookup_r _ _ _ _ _ H2) in Hk as (n & Hn & He).
  destruct (pr_node _ _ _ HR k n Hn) as [a Ha].
  by exists stk, q, k, rp, rk, P, ns, n, a.
Qed.

(** The step to the next entry. *)
Lemma next_node_at all fl es1 kv es2 c p ns :
  at_entry all fl es1 kv es2 c → (31 < fuel)%nat → has_flag fl C_DEL = false →
  top_page (st c) = Ok (p, st c) → page_reads true p.2 ns →
  match es2 with
  | [] => next_node fuel p.2 (st c) = Ok (MDB_NOTFOUND, st (set_mc_flags c (set_flag fl C_EOF)))
  | kv' :: es2' => ∃ c', next_node fuel p.2 (st c) = Ok (MDB_SUCCESS, st c') ∧
                     at_entry all fl (es1 ++ [kv]) kv' es2' c'
  end.
Proof.
  intros Hat Hfuel Hdel Htop HR.
  destruct Hat as (stk & q & k & pgno & lo & hi & bef & es & aft & rp & rk & -> & Hs & Hf & Hroom & Hk & -> & ->).
  destruct (leaf_of _ _ _ _ _ (spine_tree _ _ _ _ _ _ _ _ _ _ _ _ _ _ Hs) Hf)
    as (P & ns' & HP & HR' & H2 & _).
  rewrite (top_page_at fl stk q (Z.of_nat k) rp rk P HP) in Htop. injection Htop as <-. cbn [snd] in *.
  pose proof (Forall2_length _ _ _ H2) as Hlen. apply lookup_lt_Some in Hk as Hkl.
  pose proof (pr_max _ _ _ HR') as Hmax.
  set (c := cur fl (stk ++ [(q, Z.of_nat k)]) rp rk).
  assert (Enn : next_node fuel P (st c) = (if Z.of_nat (length es) <=? Z.of_nat k + 1 then
      rc ← mdb_cursor_sibling fuel true; (if rc =? 0 then mret rc else raise_flag C_EOF;; mret rc)
    else set_top_ki (Z.of_nat k + 1);; mret MDB_SUCCESS : M Z) (st c)).
  { unfold next_node. step (mc_at m t c). change (mc_flags c) with fl. rewrite Hdel.
    step (top_ki_at m t dbi fl stk q (Z.of_nat k) rp rk). step_lift (pr_num _ _ _ HR'). by rewrite Hlen. }
  rewrite !Enn. destruct (Z.leb_spec (Z.of_nat (length es)) (Z.of_nat k + 1)) as [Hlast|Hmore].
  - (* the next page *)
    rewrite (drop_ge es) by lia. cbn [app].
    destruct Hroom as [Hr1 Hr2]. rewrite length_app in Hr1. cbn in Hr1.
    destruct (sibling_right _ _ fuel _ _ _ _ _ _ _ _ q (Z.of_nat k) fl rp rk Hs) as
      [[-> E]|(stk' & q' & pgno' & lo' & hi' & es' & aft' & E & Hs' & -> & Hf' & Hl')];
      [lia|split; [rewrite length_app; cbn; lia|done]| |].
    + unfold mdb_cursor_sibling. by step E.
    + pose proof (tree_nonempty _ _ _ _ _ _ _ _ _ (spine_tree _ _ _ _ _ _ _ _ _ _ _ _ _ _ Hs')) as Hne.
      destruct es' as [|kv' es']; [done|]. cbn [app].
      exists (cur fl (stk' ++ [(q', 0)]) rp rk). split; [unfold mdb_cursor_sibling; by step E|].
      exists stk', q', 0%nat, pgno', lo', hi', (bef ++ es), (kv' :: es'), aft', rp, rk.
      split_and!; try done; [split; [rewrite length_app; cbn; lia|done]|].
      rewrite take_0, app_nil_r, <-(assoc_L (++)). f_equal.
      rewrite <-(take_S_r _ _ _ Hk). by rewrite take_ge by lia.
  - (* on the same page *)
    destruct (lookup_lt_is_Some_2 es (S k)) as [kv' Hk']; [lia|].
    rewrite (drop_S _ _ _ Hk'). cbn [app].
    exists (cur fl (stk ++ [(q, Z.of_nat (S k))]) rp rk). split.
    + replace (Z.of_nat k + 1) with (Z.of_nat (S k)) by lia.
      by step (set_top_ki_at m t dbi fl stk q (Z.of_nat k) rp rk (Z.of_nat (S k)) ltac:(lia)).
    + exists stk, q, (S k), pgno, lo, hi, bef, es, aft, rp, rk. split_and!; try done.
      * destruct Hroom as [Hr1 Hr2]. split; [|done]. rewrite length_app in *. cbn in *. lia.
      * by rewrite (take_S_r _ _ _ Hk), (assoc_L (++)).
Qed.

Definition got (wk wd : bool) (kv : bytes * bytes) : Got :=
  MkGot MDB_SUCCESS (if wk then Some (val kv.1) else None) (if wd then Some (val kv.2) else None).

Lemma mc_db_cur all fl es1 kv es2 c : at_entry all fl es1 kv es2 c → mc_db (st c) = Ok (db, st c).
Proof using Ho.
  intros (stk & q & k & pgno & lo & hi & bef & es & aft & rp & rk & -> & _).
  apply (mc_db_at m t cmp dbi db Ho).
Qed.

(** [MDB_NEXT] from an entry. *)
Lemma cursor_next_at d all fl es1 kv es2 c wk wd :
  at_entry all fl es1 kv es2 c → (31 < fuel)%nat → has_flag fl C_INITIALIZED = true →
  has_flag fl C_DEL = false → has_flag fl C_EOF = false →
  match es2 with
  | [] => mdb_cursor_next fuel touch (S d) wk wd MDB_NEXT (st c)
          = Ok (code MDB_NOTFOUND, st (set_mc_flags c (set_flag fl C_EOF)))
  | kv' :: es2' => ∃ c', mdb_cursor_next fuel touch (S d) wk wd MDB_NEXT (st c) = Ok (got wk wd kv', st c') ∧
                     at_entry all fl (es1 ++ [kv]) kv' es2' c'
  end.
Proof using Ho.
  intros Hat Hfuel Hini Hdel Heof. pose proof (mc_db_cur _ _ _ _ _ _ Hat) as Edb.
  destruct (at_entry_reads _ _ _ _ _ _ Hat) as (stk & q & k & rp & rk & P & ns & n & a & Ec & HP & HR & Hn & Ha & He).
  assert (Etop : top_page (st c) = Ok ((q, P), st c)) by (rewrite Ec; apply (top_page_at fl stk q _ rp rk P HP)).
  assert (Eki : top_ki (st c) = Ok (Z.of_nat k, st c)) by (rewrite Ec; apply (top_ki_at m t dbi fl stk q)).
  assert (Efl : mc_flags c = fl) by (by rewrite Ec).
  pose proof (next_node_at _ _ _ _ _ _ (q, P) ns Hat Hfuel Hdel Etop HR) as Hnext. cbn [snd] in Hnext.
  cbn [mdb_cursor_next]. step (mc_at m t c). rewrite Efl, Hdel, Hini. cbn [andb negb].
  step Etop. step Eki. step_lift (pr_num _ _ _ HR). rewrite Heof. cbn [andb].
  rewrite (SM_bind_Ok (mret tt) _ _ tt (st c) eq_refl). step Edb. rewrite (op_dup _ _ _ _ Ho).
  rewrite (SM_bind_Ok (mret None) _ _ None (st c) eq_refl).
  destruct es2 as [|kv' es2]; [by step Hnext|].
  destruct Hnext as (c' & En & Hat'). exists c'. split; [|done].
  step En. change (negb (MDB_SUCCESS =? 0)) with false. cbn match.
  destruct (at_entry_reads _ _ _ _ _ _ Hat')
    as (stk' & q' & k' & rp' & rk' & P' & ns' & n' & a' & -> & HP' & HR' & Hn' & Ha' & He').
  step (top_page_at fl stk' q' (Z.of_nat k') rp' rk' P' HP').
  step (top_ki_at m t dbi fl stk' q' (Z.of_nat k') rp' rk'). step_lift (pr_leaf2 _ _ _ HR').
  step_lift (pr_leaf _ _ _ HR'). step_lift (eq_refl : c_assert true = Ok tt).
  step_lift (nr_ptr _ _ _ _ _ Ha').
  apply (return_node_at q' P' (Z.of_nat k') n' a' kv' wk wd _ _ HP' Ha' He').
Qed.

(** A placed cursor, before a new search. *)
Lemma placed_before all fl es1 kv es2 c : at_entry all fl es1 kv es2 c → before_search fl c.
Proof.
  intros (stk & q & k & pgno & lo & hi & bef & es & aft & rp & rk & -> & Hs & Hf & [Hr1 Hr2] & _).
  assert (Hroot : ∃ q0 k0 stk0, stk ++ [(q, Z.of_nat k)] = (q0, k0) :: stk0 ∧ found (md_root db) q0).
  { destruct stk as [|[q0 k0] stk].
    - exists q, (Z.of_nat k), []. split; [done|]. inversion Hs as [|stk0 ? ? ? ? ? ? ? ? ? ? ? ? ? ? ? ? Ex]; subst; [done|].
      by destruct stk0.
    - exists q0, k0, (stk ++ [(q, Z.of_nat k)]). split; [done|]. clear -Hs.
      remember ((q0, k0) :: stk) as l eqn:El. revert q0 k0 stk El.
      induction Hs as [|stk1 d pgno lo hi bef aft q1 bs ess i b e Hs IH Hbr Hb He]; intros q0 k0 stk El; [done|].
      destruct stk1 as [|[q2 k2] stk1]; [|cbn in El; injection El as -> -> _; by eapply IH].
      cbn in El. injection El as -> _ _. inversion Hs as [|stk0 ? ? ? ? ? ? ? ? ? ? ? ? ? ? ? ? Ex]; subst; [apply Hbr|].
      by destruct stk0. }
  destruct Hroot as (q0 & k0 & stk0 & Eq & Hq0).
  rewrite Eq. exists (Z.of_nat (length ((q0, k0) :: stk0))), (Z.of_nat (pred (length ((q0, k0) :: stk0)))),
    (Some q0), k0, ((Some <$> stk0.*1) ++ rp), ((Some <$> stk0.*2) ++ rk).
  rewrite Eq in Hr1. cbn in Hr1.
  split_and!; [done|rewrite length_app, !length_fmap; lia|rewrite length_app, !length_fmap; lia|].
  right. by exists q0.
Qed.

(** The flags of a cursor that is on an entry. *)
Definition ready (fl : Z) : Prop :=
  has_flag fl C_INITIALIZED = true ∧ has_flag fl C_DEL = false ∧ has_flag fl C_EOF = false.

Lemma placed_ready fl : has_flag fl C_DEL = false → ready (placed fl).
Proof.
  intros Hd. unfold ready, placed. change C_INITIALIZED with (2 ^ 0). change C_EOF with (2 ^ 1).
  change C_DEL with (2 ^ 3) in *. rewrite !has_clear_flag, !has_set_flag by lia. rewrite Hd.
  by rewrite !orb_true_r, !andb_false_r.
Qed.

(** A cursor that can move to the first or last entry: not placed yet, or on an entry. *)
Definition can_start (all : entries) (fl : Z) (c : MDB_cursor) : Prop :=
  before_search fl c ∧ has_flag fl C_INITIALIZED = false ∨
  ∃ es1 kv es2, at_entry all fl es1 kv es2 c.

(** The head of a cursor on a leaf. *)
Lemma on_leaf_first all fl stk q k pgno lo hi es aft rp rk :
  spine (md_root db) all stk 0 pgno lo hi [] es aft → found pgno q → room (stk ++ [(q, k)]) rp rk →
  ∃ kv es2, all = kv :: es2 ∧
    at_entry all fl [] kv es2 (cur fl (stk ++ [(q, Z.of_nat 0)]) rp rk).
Proof.
  intros Hs Hf [Hr1 Hr2]. pose proof (tree_nonempty _ _ _ _ _ _ _ _ _ (spine_tree _ _ _ _ _ _ _ _ _ _ _ _ _ _ Hs)) as Hne.
  destruct es as [|kv es]; [done|]. exists kv, (es ++ aft).
  split; [by rewrite (spine_all _ _ _ _ _ _ _ _ _ _ _ _ _ _ Hs)|].
  exists stk, q, 0%nat, pgno, lo, hi, [], (kv :: es), aft, rp, rk. split_and!; try done.
  split; [|done]. rewrite length_app in *. cbn in *. lia.
Qed.

(** The part of [mdb_cursor_first] behind the search. *)
Lemma first_tail all fl stk q k pgno lo hi es aft rp rk wk wd (sub : M Got) :
  spine (md_root db) all stk 0 pgno lo hi [] es aft → found pgno q → room (stk ++ [(q, k)]) rp rk →
  ∃ kv es2, all = kv :: es2 ∧
    at_entry all (placed fl) [] kv es2 (cur (placed fl) (stk ++ [(q, Z.of_nat 0)]) rp rk) ∧
    ('(mp, p) ← top_page;
     leaf ← lift (IS_LEAF p); lift (c_assert leaf);;
     a ← lift (NODEPTR p 0);
     raise_flag C_INITIALIZED;; drop_flag C_EOF;;
     set_top_ki 0;;
     leaf2 ← lift (IS_LEAF2 p);
     if leaf2 : bool then return_leaf2 p wk 0 else return_node fuel mp p a wk wd sub)
      (st (cur fl (stk ++ [(q, k)]) rp rk))
    = Ok (got wk wd kv, st (cur (placed fl) (stk ++ [(q, Z.of_nat 0)]) rp rk)).
Proof.
  intros Hs Hf Hroom. destruct (on_leaf_first all (placed fl) stk q k pgno lo hi es aft rp rk Hs Hf Hroom)
    as (kv & es2 & Hall & Hat).
  exists kv, es2. split; [done|]. split; [done|].
  destruct (leaf_of _ _ _ _ _ (spine_tree _ _ _ _ _ _ _ _ _ _ _ _ _ _ Hs) Hf)
    as (P & ns & HP & HR & H2 & Hne & _).
  assert (Hkv : es !! 0%nat = Some kv).
  { pose proof (spine_all _ _ _ _ _ _ _ _ _ _ _ _ _ _ Hs) as Ea. rewrite Hall in Ea.
    destruct es as [|kv0 es]; [done|]. by injection Ea as ->. }
  apply (Forall2_lookup_r _ _ _ _ _ H2) in Hkv as (n & Hn & Hent).
  destruct (pr_node _ _ _ HR 0%nat n Hn) as [a Ha].
  step (top_page_at fl stk q k rp rk P HP). step_lift (pr_leaf _ _ _ HR).
  step_lift (eq_refl : c_assert true = Ok tt). step_lift (nr_ptr _ _ _ _ _ Ha).
  unfold raise_flag, drop_flag.
  step (upd_flags_at m t dbi fl stk q k rp rk (λ f, set_flag f C_INITIALIZED)).
  step (upd_flags_at m t dbi (set_flag fl C_INITIALIZED) stk q k rp rk (λ f, clear_flag f C_EOF)).
  fold (placed fl). step (set_top_ki_at m t dbi (placed fl) stk q k rp rk 0 ltac:(lia)).
  step_lift (pr_leaf2 _ _ _ HR).
  apply (return_node_at q P (Z.of_nat 0) n a kv wk wd _ _ HP Ha Hent).
Qed.

(** [MDB_FIRST]. *)
Lemma cursor_first_at d all fl c wk wd :
  tree_of all → can_start all fl c → has_flag fl C_DEL = false →
  ∃ kv es2 c' fl', all = kv :: es2 ∧
    mdb_cursor_first fuel touch (S d) wk wd (st c) = Ok (got wk wd kv, st c') ∧
    at_entry all fl' [] kv es2 c' ∧ ready fl'.
Proof using Ho.
  intros Ht Hc Hdel. cbn [mdb_cursor_first].
  assert (Hb : before_search fl c) by (destruct Hc as [[? _]|(es1 & kv & es2 & Hat)]; [done|by eapply placed_before]).
  step (clear_sub_at c). step (mc_at m t c).
  destruct (negb (has_flag (mc_flags c) C_INITIALIZED) || negb (mc_top c =? 0))%bool eqn:Edec.
  - destruct (page_search_at fuel m t cmp dbi db Ho touch all c None MDB_PS_FIRST fl (λ bef _, bef = []))
      as (c1 & Es & H1); try done; [apply chooses_first|].
    destruct H1 as (stk & q & k & pgno & lo & hi & bef & es & aft & rp & rk & -> & Hs & Hf & -> & Hroom).
    fold (placed fl) in *. step Es. change (negb (MDB_SUCCESS =? 0)) with false. cbn match.
    destruct (first_tail all (placed fl) stk q k pgno lo hi es aft rp rk wk wd
      (mdb_cursor_first fuel touch d wd false) Hs Hf Hroom) as (kv & es2 & Hall & Hat & E).
    exists kv, es2, (cur (placed (placed fl)) (stk ++ [(q, Z.of_nat 0)]) rp rk), (placed (placed fl)).
    split_and!; [done|exact E|done|]. apply placed_ready, (placed_ready fl Hdel).
  - apply orb_false_iff in Edec as [Ei Etop].
    destruct Hc as [[(snum & top & p0 & k0 & rp & rk & -> & _) Hi]|(es1 & kv0 & es2 & Hat)];
      [cbn [mc_flags] in Ei; by rewrite Hi in Ei|].
    destruct Hat as (stk & q & k & pgno & lo & hi & bef & es & aft & rp & rk & -> & Hs & Hf & Hroom & _).
    rewrite (cur_top dbi fl stk q (Z.of_nat k) rp rk) in Etop.
    apply negb_false_iff, Z.eqb_eq in Etop. destruct stk as [|x stk]; [|cbn in Etop; lia].
    assert (bef = []) as -> by (inversion Hs; subst; [done|by destruct stk]).
    rewrite (SM_bind_Ok (mret MDB_SUCCESS) _ _ MDB_SUCCESS _ eq_refl).
    change (negb (MDB_SUCCESS =? 0)) with false. cbn match.
    destruct (first_tail all fl [] q (Z.of_nat k) pgno lo hi es aft rp rk wk wd
      (mdb_cursor_first fuel touch d wd false) Hs Hf Hroom) as (kv & es2' & Hall & Hat & E).
    exists kv, es2', (cur (placed fl) [(q, Z.of_nat 0)] rp rk), (placed fl).
    split_and!; [done|exact E|done|by apply placed_ready].
Qed.

(** The tail of [mdb_cursor_last], on the last leaf. *)
Lemma last_tail all fl stk q k pgno lo hi bef es rp rk wk wd (sub : M Got) :
  let fl' := set_flag fl (Z.lor C_INITIALIZED C_EOF) in
  spine (md_root db) all stk 0 pgno lo hi bef es [] → found pgno q → room (stk ++ [(q, k)]) rp rk →
  ∃ kv es1 k', all = es1 ++ [kv] ∧
    at_entry all fl' es1 kv [] (cur fl' (stk ++ [(q, Z.of_nat k')]) rp rk) ∧
    ('(mp, p) ← top_page;
     leaf ← lift (IS_LEAF p); lift (c_assert leaf);;
     nk ← lift (NUMKEYS p);
     set_top_ki (nk - 1);;
     raise_flag (Z.lor C_INITIALIZED C_EOF);;
     k ← top_ki;
     a ← lift (NODEPTR p k);
     leaf2 ← lift (IS_LEAF2 p);
     if leaf2 : bool then return_leaf2 p wk k else return_node fuel mp p a wk wd sub)
      (st (cur fl (stk ++ [(q, k)]) rp rk))
    = Ok (got wk wd kv, st (cur fl' (stk ++ [(q, Z.of_nat k')]) rp rk)).
Proof.
  intros fl' Hs Hf Hroom.
  destruct (leaf_of _ _ _ _ _ (spine_tree _ _ _ _ _ _ _ _ _ _ _ _ _ _ Hs) Hf)
    as (P & ns & HP & HR & H2 & Hne & _).
  pose proof (Forall2_length _ _ _ H2) as Hlen. pose proof (pr_max _ _ _ HR) as Hmax.
  assert (length es ≠ 0)%nat by (by destruct es).
  destruct (lookup_lt_is_Some_2 es (length es - 1)) as [kv Hkv]; [lia|].
  pose proof (Forall2_lookup_r _ _ _ _ _ H2 Hkv) as (n & Hn & Hent).
  destruct (pr_node _ _ _ HR _ n Hn) as [a Ha].
  exists kv, (bef ++ take (length es - 1) es), (length es - 1)%nat.
  assert (Hdrop : drop (S (length es - 1)) es = []) by (apply drop_ge; lia).
  assert (Ees : es = take (length es - 1) es ++ [kv]).
  { rewrite <-(take_S_r _ _ _ Hkv). by rewrite take_ge by lia. }
  split_and!.
  - rewrite (spine_all _ _ _ _ _ _ _ _ _ _ _ _ _ _ Hs), app_nil_r. rewrite Ees at 1. by rewrite (assoc_L (++)).
  - exists stk, q, (length es - 1)%nat, pgno, lo, hi, bef, es, [], rp, rk. split_and!; try done.
    + destruct Hroom as [Hr1 Hr2]. split; [|done]. rewrite length_app in *. cbn in *. lia.
    + by rewrite Hdrop.
  - step (top_page_at fl stk q k rp rk P HP). step_lift (pr_leaf _ _ _ HR).
    step_lift (eq_refl : c_assert true = Ok tt). step_lift (pr_num _ _ _ HR).
    replace (Z.of_nat (length ns) - 1) with (Z.of_nat (length es - 1)) by lia.
    step (set_top_ki_at m t dbi fl stk q k rp rk (Z.of_nat (length es - 1)) ltac:(lia)).
    unfold raise_flag.
    step (upd_flags_at m t dbi fl stk q (Z.of_nat (length es - 1)) rp rk
      (λ f, set_flag f (Z.lor C_INITIALIZED C_EOF))). fold fl'.
    step (top_ki_at m t dbi fl' stk q (Z.of_nat (length es - 1)) rp rk).
    step_lift (nr_ptr _ _ _ _ _ Ha). step_lift (pr_leaf2 _ _ _ HR).
    apply (return_node_at q P _ n a kv wk wd _ _ HP Ha Hent).
Qed.

(** The flags after [mdb_cursor_last]. *)
Lemma last_flags fl :
  has_flag fl C_DEL = false →
  has_flag (set_flag fl (Z.lor C_INITIALIZED C_EOF)) C_INITIALIZED = true ∧
  has_flag (set_flag fl (Z.lor C_INITIALIZED C_EOF)) C_DEL = false.
Proof.
  intros Hd. change (Z.lor C_INITIALIZED C_EOF) with (Z.lor (2 ^ 0) (2 ^ 1)). change C_DEL with (2 ^ 3) in *.
  change C_INITIALIZED with (2 ^ 0).
  rewrite set_flag_lor, !has_set_flag by lia. split; [cbn; by rewrite orb_true_r|by rewrite Hd].
Qed.

(** The flags after [mdb_cursor_prev]. *)
Lemma prev_flags fl :
  has_flag fl C_INITIALIZED = true → has_flag fl C_DEL = false →
  has_flag (clear_flag fl (Z.lor C_EOF C_DEL)) C_INITIALIZED = true ∧
  has_flag (clear_flag fl (Z.lor C_EOF C_DEL)) C_DEL = false ∧
  has_flag (clear_flag fl (Z.lor C_EOF C_DEL)) C_EOF = false.
Proof.
  intros Hi Hd. change (Z.lor C_EOF C_DEL) with (Z.lor (2 ^ 1) (2 ^ 3)). change C_EOF with (2 ^ 1).
  change C_INITIALIZED with (2 ^ 0) in *. change C_DEL with (2 ^ 3) in *.
  rewrite clear_flag_lor, !has_clear_flag by lia. rewrite Hi, Hd. cbn. by rewrite !andb_false_r.
Qed.

(** The step to the previous entry. *)
Lemma prev_node_at all fl es1 kv es2 c :
  at_entry all fl es1 kv es2 c → (31 < fuel)%nat →
  es1 = [] ∧ prev_node fuel (st c) = Ok (MDB_NOTFOUND, st c) ∨
  ∃ es1' kv' c', es1 = es1' ++ [kv'] ∧ prev_node fuel (st c) = Ok (MDB_SUCCESS, st c') ∧
    at_entry all fl es1' kv' (kv :: es2) c'.
Proof.
  intros Hat Hfuel.
  destruct Hat as (stk & q & k & pgno & lo & hi & bef & es & aft & rp & rk & -> & Hs & Hf & Hroom & Hk & -> & ->).
  destruct (leaf_of _ _ _ _ _ (spine_tree _ _ _ _ _ _ _ _ _ _ _ _ _ _ Hs) Hf)
    as (P & ns' & HP & HR' & H2 & _).
  pose proof (Forall2_length _ _ _ H2) as Hlen. apply lookup_lt_Some in Hk as Hkl.
  pose proof (pr_max _ _ _ HR') as Hmax. destruct Hroom as [Hr1 Hr2]. rewrite length_app in Hr1. cbn in Hr1.
  unfold prev_node. step (top_ki_at m t dbi fl stk q (Z.of_nat k) rp rk).
  destruct (Z.eqb_spec (Z.of_nat k) 0) as [Hz|Hnz].
  - assert (k = 0%nat) as -> by lia. rewrite take_0, app_nil_r.
    destruct (sibling_left _ _ fuel _ _ _ _ _ _ _ _ q (Z.of_nat 0) fl rp rk Hs) as
      [[-> E]|(stk' & q' & k' & pgno' & lo' & hi' & bef' & es' & E & Hs' & -> & Hf' & Hk' & Hl')];
      [lia|split; [rewrite length_app; cbn; lia|done]| |].
    + left. split; [done|]. unfold mdb_cursor_sibling. by step E.
    + right. destruct (leaf_of _ _ _ _ _ (spine_tree _ _ _ _ _ _ _ _ _ _ _ _ _ _ Hs') Hf')
        as (P' & ns'' & HP' & HR'' & H2' & Hne' & _).
      pose proof (Forall2_length _ _ _ H2') as Hlen'. pose proof (pr_max _ _ _ HR'').
      assert (length es' ≠ 0)%nat by (by destruct es').
      destruct (lookup_lt_is_Some_2 es' (length es' - 1)) as [kv' Hkv']; [lia|].
      assert (Ees : es' = take (length es' - 1) es' ++ [kv']).
      { rewrite <-(take_S_r _ _ _ Hkv'). by rewrite take_ge by lia. }
      exists (bef' ++ take (length es' - 1) es'), kv',
        (cur fl (stk' ++ [(q', Z.of_nat (length es' - 1))]) rp rk).
      split; [rewrite Ees at 1; by rewrite (assoc_L (++))|]. split.
      * unfold mdb_cursor_sibling. step E. change (negb (MDB_SUCCESS =? 0)) with false. cbn match.
        step (top_page_at fl stk' q' k' rp rk P' HP'). step_lift (pr_num _ _ _ HR'').
        replace (Z.of_nat (length ns'') - 1) with (Z.of_nat (length es' - 1)) by lia.
        by step (set_top_ki_at m t dbi fl stk' q' k' rp rk (Z.of_nat (length es' - 1)) ltac:(lia)).
      * exists stk', q', (length es' - 1)%nat, pgno', lo', hi', bef', es', (es ++ aft), rp, rk.
        split_and!; try done; [split; [rewrite length_app; cbn; lia|done]|].
        rewrite (drop_ge es') by lia. cbn [app]. rewrite <-(drop_0 es) at 2. by rewrite (drop_S es kv 0 Hk).
  - right. destruct k as [|k]; [lia|]. destruct (lookup_lt_is_Some_2 es k) as [kv' Hk']; [lia|].
    exists (bef ++ take k es), kv', (cur fl (stk ++ [(q, Z.of_nat k)]) rp rk). split_and!.
    + by rewrite (take_S_r _ _ _ Hk'), (assoc_L (++)).
    + replace (Z.of_nat (S k) - 1) with (Z.of_nat k) by lia.
      by step (set_top_ki_at m t dbi fl stk q (Z.of_nat (S k)) rp rk (Z.of_nat k) ltac:(lia)).
    + exists stk, q, k, pgno, lo, hi, bef, es, aft, rp, rk. split_and!; try done.
      * split; [|done]. rewrite length_app. cbn. lia.
      * by rewrite (drop_S _ _ _ Hk).
Qed.

(** [MDB_PREV] from an entry. *)
Lemma cursor_prev_at d all fl es1 kv es2 c wk wd :
  at_entry all fl es1 kv es2 c → (31 < fuel)%nat → has_flag fl C_INITIALIZED = true →
  let fl' := clear_flag fl (Z.lor C_EOF C_DEL) in
  es1 = [] ∧ mdb_cursor_prev fuel touch (S d) wk wd MDB_PREV (st c)
             = Ok (code MDB_NOTFOUND, st (set_mc_flags c fl')) ∨
  ∃ es1' kv' c', es1 = es1' ++ [kv'] ∧
    mdb_cursor_prev fuel touch (S d) wk wd MDB_PREV (st c) = Ok (got wk wd kv', st c') ∧
    at_entry all fl' es1' kv' (kv :: es2) c'.
Proof using Ho.
  intros Hat Hfuel Hini fl'. pose proof (mc_db_cur _ _ _ _ _ _ Hat) as Edb.
  destruct (at_entry_reads _ _ _ _ _ _ Hat) as (stk & q & k & rp & rk & P & ns & n & a & Ec & HP & HR & Hn & Ha & He).
  assert (Efl : mc_flags c = fl) by (by rewrite Ec).
  assert (Edrop : drop_flag (Z.lor C_EOF C_DEL) (st c) = Ok (tt, st (set_mc_flags c fl')))
    by (unfold drop_flag, upd_flags; step (mc_at m t c); by rewrite Efl).
  pose proof (prev_node_at _ _ _ _ _ _ (at_entry_flags _ _ fl' _ _ _ _ Hat) Hfuel) as Hprev.
  cbn [mdb_cursor_prev].
  assert (Est : prev_start (mdb_cursor_last fuel touch (S d) wk wd) (st c) = Ok (code MDB_SUCCESS, st c)).
  { unfold prev_start. step (mc_at m t c). by rewrite Efl, Hini. }
  step Est. change (negb (g_rc (code MDB_SUCCESS) =? 0)) with false. cbn match.
  assert (Etop : top_page (st c) = Ok ((q, P), st c)) by (rewrite Ec; apply (top_page_at fl stk q _ rp rk P HP)).
  assert (Eki : top_ki (st c) = Ok (Z.of_nat k, st c)) by (rewrite Ec; apply (top_ki_at m t dbi fl stk q)).
  step Etop. step Eki. step_lift (pr_num _ _ _ HR). step Edb. rewrite (op_dup _ _ _ _ Ho). cbn [andb].
  rewrite (SM_bind_Ok (mret None) _ _ None (st c) eq_refl). step Edrop.
  destruct Hprev as [[-> En]|(es1' & kv' & c' & -> & En & Hat')]; [left|right].
  { split; [done|]. by step En. }
  exists es1', kv', c'. split; [done|]. split; [|done].
  step En. change (negb (MDB_SUCCESS =? 0)) with false. cbn match.
  destruct (at_entry_reads _ _ _ _ _ _ Hat')
    as (stk' & q' & k' & rp' & rk' & P' & ns' & n' & a' & -> & HP' & HR' & Hn' & Ha' & He').
  step (top_page_at fl' stk' q' (Z.of_nat k') rp' rk' P' HP').
  step (top_ki_at m t dbi fl' stk' q' (Z.of_nat k') rp' rk'). step_lift (pr_leaf _ _ _ HR'). cbn [negb].
  step_lift (pr_leaf2 _ _ _ HR').
  set (c' := cur fl' (stk' ++ [(q', Z.of_nat k')]) rp' rk').
  assert (Er : ∀ sub, (a ← lift (NODEPTR P' (Z.of_nat k')); return_node fuel q' P' a wk wd sub : M Got) (st c')
    = Ok (got wk wd kv', st c')).
  { intros sub. step_lift (nr_ptr _ _ _ _ _ Ha').
    apply (return_node_at q' P' (Z.of_nat k') n' a' kv' wk wd _ _ HP' Ha' He'). }
  step (Er (mdb_cursor_last fuel touch d wd false)). unfold got, stored_over. by destruct wk, wd.
Qed.

(** The entries that are not less than a key. *)
Definition from_key (key : bytes) (es : entries) : entries := filter (λ kv, ord key kv.1 ≤ 0) es.

Lemma from_key_split key bef es aft r :
  around cmp key bef aft →
  (∀ j kv, (j < r)%nat → es !! j = Some kv → 0 < ord key kv.1) →
  (∀ j kv, (r ≤ j)%nat → es !! j = Some kv → ord key kv.1 ≤ 0) →
  from_key key (bef ++ es ++ aft) = drop r es ++ aft.
Proof.
  intros [Hbef Haft] Hlo Hhi. unfold from_key. rewrite !filter_app.
  assert (Hno : ∀ l : entries, Forall (λ kv, 0 < ord key kv.1) l → filter (λ kv, ord key kv.1 ≤ 0) l = []).
  { induction 1 as [|kv l Hkv _ IH]; [done|]. by rewrite filter_cons_False by lia. }
  assert (Hyes : ∀ l : entries, Forall (λ kv, ord key kv.1 ≤ 0) l → filter (λ kv, ord key kv.1 ≤ 0) l = l).
  { induction 1 as [|kv l Hkv _ IH]; [done|]. rewrite filter_cons_True by lia. by rewrite IH. }
  rewrite (Hno bef) by (eapply Forall_impl; [exact Hbef|]; intros kv H; by apply ord_lt).
  rewrite (Hyes aft) by (eapply Forall_impl; [exact Haft|]; cbn; lia).
  rewrite <-(take_drop r es) at 1. rewrite filter_app.
  rewrite (Hno (take r es)), (Hyes (drop r es)); [done| |].
  - apply Forall_lookup. intros j kv Hj. rewrite lookup_drop in Hj. apply (Hhi (r + j)%nat); [lia|done].
  - apply Forall_lookup. intros j kv Hj. apply lookup_take_Some in Hj as [Hj Hjr]. by apply (Hlo j).
Qed.

(** The cursor is on [kv], before [es2], and [a] is the address of its node. *)
Definition at_node (all : entries) (fl : Z) (kv : bytes * bytes) (es2 : entries) (a : Z) (c : MDB_cursor) : Prop :=
  ∃ es1 stk q k rp rk P ns n, at_entry all fl es1 kv es2 c ∧ c = cur fl (stk ++ [(q, Z.of_nat k)]) rp rk ∧
    from m q = Ok P ∧ page_reads true P ns ∧ node_reads true P (Z.of_nat k) n a ∧ entry n kv.

Lemma at_node_intro all fl es1 kv es2 c :
  at_entry all fl es1 kv es2 c →
  ∃ stk q k rp rk P a, c = cur fl (stk ++ [(q, Z.of_nat k)]) rp rk ∧ from m q = Ok P ∧
    IS_LEAF P = Ok true ∧ NODEPTR P (Z.of_nat k) = Ok a ∧ at_node all fl kv es2 a c.
Proof.
  intros Hat.
  destruct (at_entry_reads _ _ _ _ _ _ Hat) as (stk & q & k & rp & rk & P & ns & n & a & -> & HP & HR & Hn & Ha & He).
  exists stk, q, k, rp, rk, P, a. split_and!; [done|done|apply (pr_leaf _ _ _ HR)|apply (nr_ptr _ _ _ _ _ Ha)|].
  by exists es1, stk, q, k, rp, rk, P, ns, n.
Qed.

(** The leaf search of [MDB_SET_RANGE], on to the next leaf when the key is behind the
    last entry. *)
Lemma set_two_range all key fl stk q k0 pgno lo hi bef es aft rp rk :
  (31 < fuel)%nat → key_ok key →
  spine (md_root db) all stk 0 pgno lo hi bef es aft → found pgno q → around cmp key bef aft →
  room (stk ++ [(q, k0)]) rp rk →
  match from_key key all with
  | [] => ∃ c', set_two fuel (val key) false (st (cur fl (stk ++ [(q, k0)]) rp rk)) = Ok (inl MDB_NOTFOUND, st c') ∧
              mc_flags c' = set_flag fl C_EOF
  | kv :: es2 => ∃ a c',
      set_two fuel (val key) false (st (cur fl (stk ++ [(q, k0)]) rp rk)) = Ok (inr a, st c') ∧
      at_node all fl kv es2 a c'
  end.
Proof using Ho.
  intros Hfuel Hk Hs Hf Hg [Hr1 Hr2]. rewrite length_app in Hr1. cbn in Hr1.
  destruct (leaf_search key fl stk q k0 rp rk pgno lo hi es ltac:(lia) Hk (spine_tree _ _ _ _ _ _ _ _ _ _ _ _ _ _ Hs) Hf)
    as (r & P & ns & Hr & HP & HR & H2 & Hlo & Hhi & E).
  assert (Hroom : ∀ j, room (stk ++ [(q, j)]) rp rk) by (intros j; split; [rewrite length_app; cbn; lia|done]).
  rewrite (spine_all _ _ _ _ _ _ _ _ _ _ _ _ _ _ Hs), (from_key_split key bef es aft r Hg Hlo Hhi).
  rewrite <-(spine_all _ _ _ _ _ _ _ _ _ _ _ _ _ _ Hs).
  unfold set_two. step (top_page_at fl stk q k0 rp rk P HP). step_lift (pr_leaf2 _ _ _ HR). step E.
  cbn [andb]. destruct (decide (r < length es)%nat) as [Hlt|Hge].
  - rewrite bool_decide_eq_true_2 by done. cbn [negb].
    destruct (lookup_lt_is_Some_2 es r) as [kv Hkv]; [done|]. rewrite (drop_S _ _ _ Hkv). cbn [app].
    assert (Hat : at_entry all fl (bef ++ take r es) kv (drop (S r) es ++ aft)
      (cur fl (stk ++ [(q, Z.of_nat r)]) rp rk)) by (by exists stk, q, r, pgno, lo, hi, bef, es, aft, rp, rk).
    pose proof (Forall2_lookup_r _ _ _ _ _ H2 Hkv) as (n & Hn & Hent).
    destruct (pr_node _ _ _ HR r n Hn) as [a Ha].
    exists a, (cur fl (stk ++ [(q, Z.of_nat r)]) rp rk). split.
    + step (top_ki_at m t dbi fl stk q (Z.of_nat r) rp rk). by step_lift (nr_ptr _ _ _ _ _ Ha).
    + by exists (bef ++ take r es), stk, q, r, rp, rk, P, ns, n.
  - rewrite bool_decide_eq_false_2 by done. cbn [negb]. rewrite drop_ge by lia. cbn [app].
    destruct (sibling_right _ _ fuel _ _ _ _ _ _ _ _ q (Z.of_nat r) fl rp rk Hs) as
      [[-> Es]|(stk' & q' & pgno' & lo' & hi' & es' & aft' & Es & Hs' & -> & Hf' & Hl')];
      [lia|apply Hroom| |].
    + exists (set_mc_flags (cur fl (stk ++ [(q, Z.of_nat r)]) rp rk) (set_flag fl C_EOF)).
      unfold mdb_cursor_sibling. by step Es.
    + pose proof (tree_nonempty _ _ _ _ _ _ _ _ _ (spine_tree _ _ _ _ _ _ _ _ _ _ _ _ _ _ Hs')) as Hne.
      destruct es' as [|kv es']; [done|]. cbn [app].
      assert (Hat : at_entry all fl (bef ++ es) kv (es' ++ aft') (cur fl (stk' ++ [(q', Z.of_nat 0)]) rp rk)).
      { exists stk', q', 0%nat, pgno', lo', hi', (bef ++ es), (kv :: es'), aft', rp, rk.
        split_and!; try done; [split; [rewrite length_app; cbn; lia|done]|by rewrite take_0, app_nil_r]. }
      destruct (leaf_of _ _ _ _ _ (spine_tree _ _ _ _ _ _ _ _ _ _ _ _ _ _ Hs') Hf')
        as (P' & ns' & HP' & HR' & H2' & _).
      pose proof (Forall2_lookup_r _ _ _ 0%nat kv H2' eq_refl) as (n & Hn & Hent).
      destruct (pr_node _ _ _ HR' _ n Hn) as [a Ha].
      exists a, (cur fl (stk' ++ [(q', Z.of_nat 0)]) rp rk). split.
      * unfold mdb_cursor_sibling. step Es. change (negb (MDB_SUCCESS =? 0)) with false. cbn match.
        step (top_page_at fl stk' q' 0 rp rk P' HP'). step_lift (pr_leaf _ _ _ HR').
        step_lift (eq_refl : c_assert true = Ok tt). by step_lift (nr_ptr _ _ _ _ _ Ha).
      * by exists (bef ++ es), stk', q', 0%nat, rp, rk, P', ns', n.
Qed.

(** [MDB_SET_RANGE] on a cursor that is not placed. *)
Lemma cursor_set_range all key (data : option MDB_val) d :
  (31 < fuel)%nat → key_ok key → db_holds all →
  match from_key key all with
  | [] => ∃ c', mdb_cursor_set fuel touch (S d) (val key) data MDB_SET_RANGE false (st new_cursor)
      = Ok (code MDB_NOTFOUND, st c') ∧ has_flag (mc_flags c') C_DEL = false
  | kv :: es2 => ∃ c' es1 fl, mdb_cursor_set fuel touch (S d) (val key) data MDB_SET_RANGE false (st new_cursor)
      = Ok (got true (if data is Some _ then true else false) kv, st c') ∧ at_entry all fl es1 kv es2 c' ∧ ready fl
  end.
Proof using Ho.
  intros Hfuel Hk [[Hr ->]|Ht];
    [exists new_cursor; split; [by rewrite cursor_set_empty by (done || lia)|done]|].
  destruct (cursor_set_new all key data MDB_SET_RANGE false d ltac:(lia) Hk Ht)
    as (c1 & first & set & H1 & ->).
  destruct H1 as (stk & q & k & pgno & lo & hi & bef & es & aft & rp & rk & -> & Hs & Hf & Hg & Hroom).
  pose proof (set_two_range all key (placed 0) stk q k pgno lo hi bef es aft rp rk Hfuel Hk Hs Hf Hg Hroom)
    as H2.
  destruct (from_key key all) as [|kv es2]; [destruct H2 as (c' & E2 & Efl); exists c'; split; [by step E2|by rewrite Efl]|].
  destruct H2 as (a & c' & E2 & (es1 & stk' & q' & k' & rp' & rk' & P & ns & n & Hat & -> & HP & HR & Ha & He)).
  exists (cur (placed (placed 0)) (stk' ++ [(q', Z.of_nat k')]) rp' rk'), es1, (placed (placed 0)).
  split_and!; [|by apply (at_entry_flags _ _ (placed (placed 0)) _ _ _ _ Hat)|by apply placed_ready].
  step E2. rewrite (set_one_at (placed 0) stk' q' (Z.of_nat k') rp' rk' P (Z.of_nat k') n a kv data
    MDB_SET_RANGE first set HP (pr_leaf2 _ _ _ HR) Ha He) by (by right; right). by destruct data.
Qed.

(** ** Sequences of calls *)

(** Calls of [mdb_cursor_get] one after the other, with pointers that are not NULL. *)
Fixpoint cursor_gets (key : MDB_val) (ops : list MDB_cursor_op) : M (list Got) :=
  match ops with
  | [] => mret []
  | op :: ops =>
      g ← mdb_cursor_get fuel touch 1 (Some key) (Some (MkVal 0 [])) op;
      gs ← cursor_gets key ops;
      mret (g :: gs)
  end.

Lemma cursor_get_at key data op g c c' :
  cursor_op fuel touch 1 (Some key) data op
    (mdb_cursor_get fuel touch 0 data None MDB_GET_CURRENT) (st c) = Ok (g, st c') →
  has_flag (mc_flags c') C_DEL = false →
  mdb_cursor_get fuel touch 1 (Some key) data op (st c) = Ok (g, st c').
Proof using Ho.
  intros E Hd. cbn [mdb_cursor_get]. step (txn_at m t c). rewrite (op_txn _ _ _ _ Ho).
  step E. unfold upd_flags.
  assert (Eu : (c ← mc; put_mc (set_mc_flags c (if has_flag (mc_flags c) C_DEL then Z.lxor (mc_flags c) C_DEL
    else mc_flags c)) : M unit) (st c') = Ok (tt, st c')).
  { step (mc_at m t c'). rewrite Hd. by destruct c'. }
  by step Eu.
Qed.

Lemma gets_cons key op ops g gs c c1 c2 :
  mdb_cursor_get fuel touch 1 (Some key) (Some (MkVal 0 [])) op (st c) = Ok (g, st c1) →
  cursor_gets key ops (st c1) = Ok (gs, st c2) →
  cursor_gets key (op :: ops) (st c) = Ok (g :: gs, st c2).
Proof using Type. intros E1 E2. cbn [cursor_gets]. step E1. by step E2. Qed.

Lemma at_entry_mc_flags all fl es1 kv es2 c : at_entry all fl es1 kv es2 c → mc_flags c = fl.
Proof using Type. by intros (stk & q & k & pgno & lo & hi & bef & es & aft & rp & rk & -> & _). Qed.

Lemma init_gets key ops gs c' :
  cursor_gets key ops (st new_cursor) = Ok (gs, st c') →
  (mdb_cursor_init fuel touch dbi true;; cursor_gets key ops) (st uninit_cursor) = Ok (gs, st c').
Proof using Ho. intros E. by step (cursor_init_at true). Qed.

End cursor.
