(* ===== verification/CursorSpec.v ===== *)
(** * LMDB's B+tree: a cursor is a position in the list of the entries

    The specification of a cursor is a list that is split at an entry; the calls of
    [mdb_cursor_get] that move a cursor or read at it refine it.  [MDB_LAST] of a
    cursor that is placed reuses the stack of the cursor, so the search for it is
    treated here. *)

From S2P Require Import Prelude.
From S2P Require Import Lmdb Midl Page PageProps Tree TreeProps Cursor CursorProps.

Section last.
Context (fuel : nat) (touch : M Z) (m : Mem) (t : MDB_txn) (cmp : MDB_cmp_func) `{!KeyOrder cmp}.
Context (dbi : Z) (db : MDB_db) (Ho : opened t dbi db cmp).
Abbreviation entries := (list (bytes * bytes)).
Abbreviation st := (st m t).
Abbreviation cur := (cur dbi).
Abbreviation found := (found fuel m t).
Abbreviation tree := (tree fuel m t cmp).
Abbreviation spine := (spine fuel m t cmp).
Abbreviation branch := (branch fuel m t cmp).
Abbreviation tree_of := (tree_of fuel m t cmp db).
Abbreviation at_entry := (at_entry fuel m t cmp dbi db).

(** The stack [l] is a way down from the page [pgno]. *)
Fixpoint path (d : nat) (pgno : Z) (l : list (Ptr * Z)) : Prop :=
  match l with
  | [] => False
  | (q, k) :: l =>
      found pgno q ∧
      match d with
      | O => l = []
      | S d => ∃ P bs i b, from m q = Ok P ∧ page_reads false P bs ∧ k = Z.of_nat i ∧ bs !! i = Some b ∧
                 path d (n_pgno b) l
      end
  end.

Lemma spine_path root all stk d pgno lo hi bef es aft l :
  spine root all stk d pgno lo hi bef es aft → path d pgno l →
  path (length stk + d) root (stk ++ l) ∧ tree (length stk + d) root None None all.
Proof.
  intros Hs. revert l. induction Hs as [|stk d pgno lo hi bef aft q bs ess i b e Hs IH Hbr Hb He]; intros l Hl;
    [done|].
  rewrite length_app, <-(assoc_L (++)), Nat.add_1_r, Nat.add_succ_l, <-Nat.add_succ_r. cbn [app].
  apply IH. destruct Hbr as (Hf & (P & HP & HR) & _). split; [done|]. by exists P, bs, i, b.
Qed.

(** What is left of the old path above the page [q], when the cursor has one. *)
Definition kept (fl : Z) (d : nat) (pgno : Z) (q : Ptr) (k : Z) (rp : list (option Ptr)) (rk : block) : Prop :=
  has_flag fl C_INITIALIZED = false ∨ k = 0 ∨
  ∃ l rp' rk', path d pgno ((q, k) :: l) ∧ rp = (Some <$> l.*1) ++ rp' ∧ rk = (Some <$> l.*2) ++ rk'.

(** The page is the right one already: the code goes up the old stack. *)
Lemma root_step_kept q P ns key flags fl stk k0 q' k' rp rk :
  from m q = Ok P → page_reads false P ns → (2 ≤ length ns)%nat → (length stk < 31)%nat →
  has_flag flags MDB_PS_MODIFY = false →
  branch_index fuel P (Z.of_nat (length ns)) key flags (st (cur fl (stk ++ [(q, k0)]) (Some q' :: rp) (Some k' :: rk)))
  = Ok (None, st (cur fl (stk ++ [(q, k0)]) (Some q' :: rp) (Some k' :: rk))) →
  root_step fuel touch q P key flags (st (cur fl (stk ++ [(q, k0)]) (Some q' :: rp) (Some k' :: rk)))
  = Ok (inr q', st (cur fl ((stk ++ [(q, k0)]) ++ [(q', k')]) rp rk)).
Proof using Type.
  intros HP HR H2 Hl Hmod Hbi. set (c := cur fl (stk ++ [(q, k0)]) (Some q' :: rp) (Some k' :: rk)) in *.
  unfold root_step. step_lift (pr_num _ _ _ HR). step (mc_at m t c).
  assert (Ec : c_assert ((mc_dbi c =? 0) || (1 <? Z.of_nat (length ns)))%bool = Ok tt)
    by (rewrite (proj2 (Z.ltb_lt _ _)) by lia; by rewrite orb_true_r).
  step_lift Ec. step Hbi. set (c' := cur fl ((stk ++ [(q, k0)]) ++ [(q', k')]) rp rk).
  assert (Ein : (c ← mc; put_mc (set_snum_top c (mc_snum c + 1) (mc_snum c));; mp ← top_pg; mret (inr mp) : M (Z + Ptr))
    (st c) = Ok (inr q', st c')).
  { step (mc_at m t c). assert (Ep : put_mc (set_snum_top c (mc_snum c + 1) (mc_snum c)) (st c) = Ok (tt, st c')).
    { unfold put_mc, set_snum_top, TreeProps.st, c, c', TreeProps.cur. cbn. rewrite !length_app. cbn.
      rewrite !u16_small by lia. rewrite !fmap_app, <-!(assoc_L (++)). cbn. do 4 f_equal; lia. }
    step Ep. by step (top_pg_at m t dbi fl (stk ++ [(q, k0)]) q' k' rp rk). }
  step Ein. by rewrite Hmod.
Qed.

(** The descent to the last leaf. *)
Lemma last_loop_at root all d n stk q k0 pgno lo hi bef es rp rk fl :
  (d < n)%nat → spine root all stk d pgno lo hi bef es [] → found pgno q →
  (d ≤ length rp)%nat → room (stk ++ [(q, k0)]) rp rk → kept fl d pgno q k0 rp rk →
  ∃ stk' q' k' pgno' lo' hi' bef' es' rp' rk',
    root_loop fuel touch n q None MDB_PS_LAST (st (cur fl (stk ++ [(q, k0)]) rp rk))
    = Ok (inr q', st (cur fl (stk' ++ [(q', k')]) rp' rk')) ∧
    spine root all stk' 0 pgno' lo' hi' bef' es' [] ∧ found pgno' q' ∧ room (stk' ++ [(q', k')]) rp' rk'.
Proof using Type.
  revert n stk q k0 pgno lo hi bef es rp rk.
  induction d as [|d IH]; intros n stk q k0 pgno lo hi bef es rp rk Hn Hs Hf Hd Hroom Hk;
    (destruct n as [|n]; [lia|]); pose proof (spine_tree _ _ _ _ _ _ _ _ _ _ _ _ _ _ Hs) as Ht.
  { destruct Ht as (_ & q1 & ns & Hf1 & (P & HP & HR) & _).
    rewrite <-(found_inj _ _ _ _ _ _ Hf Hf1) in HP.
    exists stk, q, k0, pgno, lo, hi, bef, es, rp, rk. split_and!; try done.
    cbn [root_loop]. step (page_of_at m t q P (cur fl (stk ++ [(q, k0)]) rp rk) HP).
    by step_lift (pr_branch _ _ _ HR). }
  apply tree_branch in Ht as (q1 & bs & ess & Hbr & ->).
  assert (q1 = q) as -> by (apply (found_inj fuel m t pgno); [apply Hbr|done]).
  pose proof Hbr as (_ & (P & HP & HR) & H2 & Hl & _ & Ht). pose proof (pr_max _ _ _ HR) as Hmax.
  destruct (lookup_lt_is_Some_2 bs (length bs - 1)) as [b Hb]; [lia|].
  destruct (lookup_lt_is_Some_2 ess (length bs - 1)) as [e He]; [lia|].
  set (i := (length bs - 1)%nat) in *. set (c := cur fl (stk ++ [(q, k0)]) rp rk).
  assert (Hbi : branch_index fuel P (Z.of_nat (length bs)) None MDB_PS_LAST (st c)
    = Ok (if (has_flag fl C_INITIALIZED && (k0 =? Z.of_nat i))%bool then None else Some (Z.of_nat i), st c)).
  { unfold branch_index. change (has_flag MDB_PS_LAST (Z.lor MDB_PS_FIRST MDB_PS_LAST)) with true.
    change (has_flag MDB_PS_LAST MDB_PS_LAST) with true. cbn match. rewrite u16_small by lia.
    replace (Z.of_nat (length bs) - 1) with (Z.of_nat i) by lia.
    step (mc_at m t c). change (mc_flags c) with fl. destruct (has_flag fl C_INITIALIZED); [|done].
    by step (top_ki_at m t dbi fl stk q k0 rp rk). }
  assert (Hs' : spine root all (stk ++ [(q, Z.of_nat i)]) d (n_pgno b) (lo_at bs lo i) (hi_at bs hi i)
    (bef ++ concat (take i ess)) e []).
  { replace [] with (concat (drop (S i) ess) ++ [] : entries).
    - by apply spine_snoc with pgno.
    - unfold i. rewrite drop_ge by lia. done. }
  destruct Hroom as [Hr1 Hr2]. rewrite length_app in Hr1. cbn in Hr1.
  cbn [root_loop]. step (page_of_at m t q P c HP). step_lift (pr_branch _ _ _ HR). cbn [negb].
  destruct (has_flag fl C_INITIALIZED && (k0 =? Z.of_nat i))%bool eqn:Ekeep.
  - apply andb_true_iff in Ekeep as [Hini ->%Z.eqb_eq].
    destruct Hk as [Hk|[Hk|(l & rp' & rk' & Hp & -> & ->)]]; [by rewrite Hk in Hini|lia|].
    destruct Hp as (_ & P' & bs' & i' & b' & HP' & HR' & Ei & Hb' & Hp).
    rewrite HP in HP'. injection HP' as <-. assert (i' = i) as -> by lia.
    assert (Eb : n_pgno b' = n_pgno b).
    { destruct (pr_node _ _ _ HR i b Hb) as [a Ha], (pr_node _ _ _ HR' i b' Hb') as [a' Ha'].
      pose proof (nr_ptr _ _ _ _ _ Ha) as E. rewrite (nr_ptr _ _ _ _ _ Ha') in E. injection E as ->.
      pose proof (nr_pgno _ _ _ _ _ Ha) as E. rewrite (nr_pgno _ _ _ _ _ Ha') in E. by injection E. }
    rewrite Eb in Hp. destruct l as [|[q' k'] l]; [by destruct d|].
    cbn [fmap list_fmap fst snd app length] in *.
    assert (Es : root_step fuel touch q P None MDB_PS_LAST (st c)
      = Ok (inr q', st (cur fl ((stk ++ [(q, Z.of_nat i)]) ++ [(q', k')]) ((Some <$> l.*1) ++ rp') ((Some <$> l.*2) ++ rk')))).
    { apply root_step_kept with bs; try done; lia. }
    step Es. apply (IH n _ q' k' (n_pgno b) (lo_at bs lo i) (hi_at bs hi i) (bef ++ concat (take i ess)) e);
      [lia|exact Hs'| |lia| |].
    + by destruct d, Hp as [? _].
    + rewrite !length_app in *. split; [rewrite !length_app; cbn; lia|rewrite !length_app; lia].
    + right; right. by exists l, rp', rk'.
  - destruct (root_step_at fuel m t cmp dbi touch d pgno lo hi q bs ess P None MDB_PS_LAST fl stk k0 k0 rp rk i b)
      as (q' & rp' & rk' & Hf' & Es & Hl1 & Hl2); try done.
    { split; [rewrite length_app; cbn; lia|done]. }
    { intros ->. cbn in Hd. lia. }
    fold c in Es. step Es.
    apply (IH n _ q' 0 (n_pgno b) (lo_at bs lo i) (hi_at bs hi i) (bef ++ concat (take i ess)) e);
      [lia|exact Hs'|done|lia| |by right; left].
    split; [rewrite !length_app; cbn; lia|lia].
Qed.

(** The search for the last leaf. *)
Lemma search_last all d c fl snum top p0 k0 q rp rk :
  c = MkCursor dbi snum top fl (p0 :: rp) (Some k0 :: rk) → tree d (md_root db) None None all →
  (d < fuel)%nat → (d ≤ 31)%nat → 1 < md_root db < P_INVALID → length rp = 31%nat → length rk = 31%nat →
  found (md_root db) q → p0 = None ∨ (∃ q, p0 = Some q ∧ found (md_root db) q) →
  kept fl d (md_root db) q k0 rp rk →
  ∃ stk q' k' pgno lo hi bef es rp' rk',
    mdb_page_search fuel touch None MDB_PS_LAST (st c)
    = Ok (MDB_SUCCESS, st (cur (placed fl) (stk ++ [(q', k')]) rp' rk')) ∧
    spine (md_root db) all stk 0 pgno lo hi bef es [] ∧ found pgno q' ∧ room (stk ++ [(q', k')]) rp' rk'.
Proof using Ho.
  intros -> Ht Hd Hd31 Hroot Hrp Hrk Hq Hp0 Hk.
  destruct (last_loop_at (md_root db) all d fuel [] q k0 (md_root db) None None [] all rp rk fl)
    as (stk & q' & k' & pgno & lo & hi & bef & es & rp' & rk' & E & Hs & Hf & Hroom); try done;
    [by constructor|lia|split; [cbn; lia|lia]|].
  exists stk, q', k', pgno, lo, hi, bef, es, rp', rk'. split; [|done].
  rewrite (page_search_enters fuel m t cmp dbi db Ho touch all d None MDB_PS_LAST fl snum top p0 k0 q rp rk)
    by (done || lia).
  unfold mdb_page_search_root. step (top_pg_at m t dbi fl [] q k0 rp rk). step E.
  destruct (leaf_of fuel m t cmp _ _ _ _ _ (spine_tree _ _ _ _ _ _ _ _ _ _ _ _ _ _ Hs) Hf)
    as (P & ns & HP & HR & _).
  step (page_of_at m t q' P (cur fl (stk ++ [(q', k')]) rp' rk') HP). by step_lift (pr_leaf _ _ _ HR).
Qed.

(** [MDB_LAST], of a cursor that is not placed or is on an entry. *)
Lemma cursor_last_at d all fl c wk wd :
  tree_of all → can_start fuel m t cmp dbi db all fl c → has_flag fl C_DEL = false → (31 < fuel)%nat →
  ∃ kv es1 c' fl', all = es1 ++ [kv] ∧
    mdb_cursor_last fuel touch (S d) wk wd (st c) = Ok (got wk wd kv, st c') ∧
    at_entry all fl' es1 kv [] c' ∧ has_flag fl' C_INITIALIZED = true ∧ has_flag fl' C_DEL = false.
Proof using Ho.
  intros Ht Hc Hdel Hfuel. cbn [mdb_cursor_last]. step (clear_sub_at m t c). step (mc_at m t c).
  (* the cursor on a page that is the root stays there; any other one searches *)
  assert (Hgo : ∃ fl1 stk q k pgno lo hi bef es rp rk,
    (if negb (has_flag (mc_flags c) C_INITIALIZED) || negb (mc_top c =? 0)
     then mdb_page_search fuel touch None MDB_PS_LAST else mret MDB_SUCCESS : M Z) (st c)
    = Ok (MDB_SUCCESS, st (cur fl1 (stk ++ [(q, k)]) rp rk)) ∧
    spine (md_root db) all stk 0 pgno lo hi bef es [] ∧ found pgno q ∧ room (stk ++ [(q, k)]) rp rk ∧
    has_flag fl1 C_DEL = false).
  { pose proof (placed_ready fl Hdel) as (_ & Hpd & _).
    destruct Hc as [[(snum & top & p0 & k0 & rp & rk & -> & Hrp & Hrk & Hp0) Hi]|(es1 & kv0 & es2 & Hat)].
    - destruct Ht as (d0 & Ht & Hd & Hd31 & Hroot). destruct (tree_found _ _ _ _ _ _ _ _ _ Ht) as [q Hq].
      destruct (search_last all d0 _ fl snum top p0 k0 q rp rk eq_refl Ht Hd Hd31 Hroot Hrp Hrk Hq Hp0)
        as (stk & q' & k' & pgno & lo & hi & bef & es & rp' & rk' & E & H); [by left|].
      cbn [mc_flags]. rewrite Hi. cbn [negb orb]. rewrite E. naive_solver.
    - destruct Hat as (stk & q & k & pgno & lo & hi & bef & es & aft & rp & rk & -> & Hs & Hf & [Hr1 Hr2] & _).
      destruct (spine_path _ _ stk 0 _ _ _ _ _ _ [(q, Z.of_nat k)] Hs (conj Hf eq_refl)) as [Hpath Htree].
      change (mc_flags (cur fl (stk ++ [(q, Z.of_nat k)]) rp rk)) with fl.
      rewrite (cur_top dbi fl stk q (Z.of_nat k) rp rk).
      destruct (negb (has_flag fl C_INITIALIZED) || negb (Z.of_nat (length stk) =? 0))%bool eqn:Edec.
      + destruct Ht as (_ & _ & _ & _ & Hroot). rewrite Nat.add_0_r in *. rewrite length_app in Hr1. cbn in Hr1.
        destruct (stk ++ [(q, Z.of_nat k)]) as [|[q0 k0] l] eqn:El; [by destruct stk|].
        assert (Hl : length l = length stk).
        { apply (f_equal length) in El. rewrite length_app in El. cbn in El. lia. }
        assert (Hq0 : found (md_root db) q0) by (by destruct (length stk), Hpath as [? _]).
        destruct (search_last all (length stk) (cur fl ((q0, k0) :: l) rp rk) fl _ _ (Some q0) k0 q0
          (fmap (M:=list) Some l.*1 ++ rp) (fmap (M:=list) Some l.*2 ++ rk) eq_refl Htree) as
          (stk' & q' & k' & pgno' & lo' & hi' & bef' & es' & rp' & rk' & E & H); try done; try lia.
        * rewrite length_app, !length_fmap. lia.
        * rewrite length_app, !length_fmap. lia.
        * right. by exists q0.
        * right; right. by exists l, rp, rk.
        * rewrite E. naive_solver.
      + apply orb_false_iff in Edec as [_ Etop]. apply negb_false_iff, Z.eqb_eq in Etop.
        destruct stk as [|x stk]; [|cbn in Etop; lia].
        assert (aft = []) as -> by (inversion Hs; subst; [done|by destruct stk]).
        exists fl, [], q, (Z.of_nat k), pgno, lo, hi, bef, es, rp, rk. by split_and!. }
  destruct Hgo as (fl1 & stk & q & k & pgno & lo & hi & bef & es & rp & rk & E & Hs & Hf & Hroom & Hd1).
  step E. change (negb (MDB_SUCCESS =? 0)) with false. cbn match.
  destruct (last_tail fuel m t cmp dbi db all fl1 stk q k pgno lo hi bef es rp rk wk wd
    (mdb_cursor_last fuel touch d wd false) Hs Hf Hroom) as (kv & es1 & k' & Hall & Hat & Etail).
  destruct (last_flags fl1 Hd1) as [Hi2 Hd2]. eexists kv, es1, _, _. split_and!; [done|exact Etail|done..].
Qed.
End last.

(** ** The specification *)

Section spec.
Abbreviation entries := (list (bytes * bytes)).

(** Where a cursor is: nowhere yet, on an entry of the list, or at an end where the
    specification says nothing more. *)
Inductive pos : Type :=
| Unset
| On (es1 : entries) (kv : bytes * bytes) (es2 : entries)
| Off.

(** What a move answers, and where the cursor is then; [all] are the entries.
    [MDB_SET_RANGE] is described for a cursor that is not placed. *)
Definition move {cmp} `{!KeyOrder cmp} (key : bytes) (all : entries) (op : MDB_cursor_op) (p : pos) : option (Got * pos) :=
  let first := match all with
               | [] => Some (code MDB_NOTFOUND, p)
               | kv :: es => Some (got true true kv, On [] kv es)
               end in
  let last := match reverse all with
              | [] => Some (code MDB_NOTFOUND, p)
              | kv :: es => Some (got true true kv, On (reverse es) kv [])
              end in
  match op, p with
  | _, Off => None
  | MDB_FIRST, _ => first
  | MDB_LAST, _ => last
  | MDB_NEXT, Unset => first
  | MDB_NEXT, On es1 kv [] => Some (code MDB_NOTFOUND, p)
  | MDB_NEXT, On es1 kv (kv' :: es2) => Some (got true true kv', On (es1 ++ [kv]) kv' es2)
  | MDB_PREV, Unset => last
  | MDB_PREV, On es1 kv es2 =>
      match reverse es1 with
      | [] => Some (code MDB_NOTFOUND, p)
      | kv' :: es1' => Some (got true true kv', On (reverse es1') kv' (kv :: es2))
      end
  | MDB_GET_CURRENT, Unset => Some (code EINVAL, Unset)
  | MDB_GET_CURRENT, On es1 kv es2 => Some (got true true kv, p)
  | MDB_SET_RANGE, Unset =>
      match from_key cmp key all with
      | [] => Some (code MDB_NOTFOUND, Off)
      | kv :: es2 => Some (got true true kv, On (take (length all - S (length es2)) all) kv es2)
      end
  | _, _ => None
  end.

Fixpoint moves {cmp} `{!KeyOrder cmp} (key : bytes) (all : entries) (ops : list MDB_cursor_op) (p : pos) : option (list Got) :=
  match ops with
  | [] => Some []
  | op :: ops =>
      match move key all op p with
      | Some (g, p) => (g ::.) <$> moves key all ops p
      | None => None
      end
  end.
End spec.

(** ** The refinement *)

Section refinement.
Context (fuel : nat) (touch : M Z) (m : Mem) (t : MDB_txn) (cmp : MDB_cmp_func) `{!KeyOrder cmp}.
Context (dbi : Z) (db : MDB_db) (Ho : opened t dbi db cmp) (Hfuel : (31 < fuel)%nat).
Abbreviation entries := (list (bytes * bytes)).
Abbreviation st := (st m t).
Abbreviation cur := (cur dbi).
Abbreviation tree_of := (tree_of fuel m t cmp db).
Abbreviation db_holds := (db_holds fuel m t cmp db).
Abbreviation at_entry := (at_entry fuel m t cmp dbi db).
Abbreviation new_cursor := (new_cursor dbi).

(** The cursor is on an entry; at the end of the entries it may have the flag of it. *)
Definition placed_at (all : entries) (es1 : entries) (kv : bytes * bytes) (es2 : entries) (c : MDB_cursor) : Prop :=
  ∃ fl, at_entry all fl es1 kv es2 c ∧ has_flag fl C_INITIALIZED = true ∧ has_flag fl C_DEL = false ∧
    (has_flag fl C_EOF = true → es2 = []).

Definition represents (all : entries) (p : pos) (c : MDB_cursor) : Prop :=
  match p with
  | Unset => c = new_cursor
  | On es1 kv es2 => placed_at all es1 kv es2 c
  | Off => has_flag (mc_flags c) C_DEL = false
  end.

Lemma represents_del all p c : represents all p c → has_flag (mc_flags c) C_DEL = false.
Proof.
  destruct p as [|es1 kv es2|]; cbn; [by intros ->| |done].
  intros (fl & Hat & _ & Hd & _). by rewrite (at_entry_mc_flags _ _ _ _ _ _ _ _ _ _ _ _ Hat).
Qed.

(** The calls that start anew. *)
Lemma placed_tree all es1 kv es2 c : db_holds all → placed_at all es1 kv es2 c → tree_of all.
Proof.
  intros [[_ ->]|Ht] (fl & Hat & _); [|done].
  apply at_entry_all in Hat. by destruct es1.
Qed.

Lemma first_at all p c fl :
  tree_of all → p ≠ Off → represents all p c → mc_flags c = fl →
  can_start fuel m t cmp dbi db all fl c ∧ has_flag fl C_DEL = false.
Proof.
  intros Ht Hp Hc <-. split; [|by eapply represents_del].
  destruct p as [|es1 kv es2|]; cbn in Hc; [left|right|done].
  - subst c. split; [apply before_new|done].
  - destruct Hc as (fl & Hat & _). rewrite (at_entry_mc_flags _ _ _ _ _ _ _ _ _ _ _ _ Hat). by exists es1, kv, es2.
Qed.

Lemma unset_empty all p c : all = [] → db_holds all → p ≠ Off → represents all p c → p = Unset ∧ md_root db = P_INVALID.
Proof.
  intros -> [[Hr _]|(d & Ht & _)] Hp Hc; [|by apply tree_nonempty in Ht].
  split; [|done]. destruct p as [|es1 kv es2|]; [done| |done].
  destruct Hc as (fl & Hat & _). apply at_entry_all in Hat. by destruct es1.
Qed.

Lemma first_step wd all p c :
  db_holds all → p ≠ Off → represents all p c →
  ∃ g p' c', match all with
             | [] => Some (code MDB_NOTFOUND, p)
             | kv :: es => Some (got true wd kv, On [] kv es)
             end = Some (g, p') ∧
    mdb_cursor_first fuel touch 1 true wd (st c) = Ok (g, st c') ∧ represents all p' c'.
Proof using Ho Hfuel.
  intros Hall Hp Hc. destruct all as [|kv0 es0] eqn:Eall; rewrite <-Eall in *.
  - destruct (unset_empty all p c Eall Hall Hp Hc) as [-> Hr]. rewrite Hc.
    exists (code MDB_NOTFOUND), Unset, new_cursor. split_and!; [done| |done].
    cbn [mdb_cursor_first]. step (clear_sub_at m t new_cursor). step (mc_at m t new_cursor).
    by step (page_search_empty fuel touch m t cmp dbi db Ho None MDB_PS_FIRST new_cursor ltac:(lia) eq_refl Hr).
  - destruct Hall as [[_ ?]|Ht]; [congruence|].
    destruct (first_at all p c _ Ht Hp Hc eq_refl) as [Hs Hd].
    destruct (cursor_first_at fuel touch m t cmp dbi db Ho 0 all _ c true wd Ht Hs Hd)
      as (kv & es2 & c' & fl' & Ea & E & Hat & Hi' & Hd' & He').
    rewrite Eall in Ea. injection Ea as <- <-.
    exists (got true wd kv0), (On [] kv0 es0), c'. split_and!; [done|exact E|].
    exists fl'. split_and!; try done. by rewrite He'.
Qed.

Lemma last_step all p c :
  db_holds all → p ≠ Off → represents all p c →
  ∃ g p' c', match reverse all with
             | [] => Some (code MDB_NOTFOUND, p)
             | kv :: es => Some (got true true kv, On (reverse es) kv [])
             end = Some (g, p') ∧
    mdb_cursor_last fuel touch 1 true true (st c) = Ok (g, st c') ∧ represents all p' c'.
Proof using Ho Hfuel.
  intros Hall Hp Hc. destruct all as [|kv0 es0] eqn:Eall; rewrite <-Eall in *.
  - destruct (unset_empty all p c Eall Hall Hp Hc) as [-> Hr]. rewrite Hc.
    exists (code MDB_NOTFOUND), Unset, new_cursor. split_and!; [by rewrite Eall| |done].
    cbn [mdb_cursor_last]. step (clear_sub_at m t new_cursor). step (mc_at m t new_cursor).
    by step (page_search_empty fuel touch m t cmp dbi db Ho None MDB_PS_LAST new_cursor ltac:(lia) eq_refl Hr).
  - destruct Hall as [[_ ?]|Ht]; [congruence|].
    destruct (first_at all p c _ Ht Hp Hc eq_refl) as [Hs Hd].
    destruct (cursor_last_at fuel touch m t cmp dbi db Ho 0 all _ c true true Ht Hs Hd Hfuel)
      as (kv & es1 & c' & fl' & Ea & E & Hat & Hi' & Hd').
    exists (got true true kv), (On es1 kv []), c'. split_and!; [|exact E|by exists fl'].
    by rewrite Ea, reverse_snoc, reverse_involutive.
Qed.

(** [MDB_NEXT] *)
Lemma next_eof wd all fl es1 kv c :
  at_entry all fl es1 kv [] c → has_flag fl C_INITIALIZED = true → has_flag fl C_DEL = false →
  has_flag fl C_EOF = true →
  mdb_cursor_next fuel touch 1 true wd MDB_NEXT (st c) = Ok (code MDB_NOTFOUND, st c).
Proof using Ho Hfuel.
  intros Hat Hi Hd He.
  destruct Hat as (stk & q & k & pgno & lo & hi & bef & es & aft & rp & rk & -> & Hs & Hf & _ & Hk & _ & Ed).
  destruct (leaf_of fuel m t cmp _ _ _ _ _ (spine_tree _ _ _ _ _ _ _ _ _ _ _ _ _ _ Hs) Hf)
    as (P & ns & HP & HR & H2 & _).
  pose proof (Forall2_length _ _ _ H2) as Hlen. pose proof (pr_max _ _ _ HR). apply lookup_lt_Some in Hk.
  symmetry in Ed. apply app_eq_nil in Ed as [Ed _]. apply (f_equal length) in Ed. rewrite length_drop in Ed. cbn in Ed.
  cbn [mdb_cursor_next]. set (c := cur fl (stk ++ [(q, Z.of_nat k)]) rp rk).
  step (mc_at m t c). change (mc_flags c) with fl. rewrite Hd, Hi. cbn [andb negb].
  step (top_page_at m t dbi fl stk q (Z.of_nat k) rp rk P HP).
  step (top_ki_at m t dbi fl stk q (Z.of_nat k) rp rk). step_lift (pr_num _ _ _ HR).
  rewrite He, u32_small by lia. by rewrite (proj2 (Z.leb_le _ _)) by lia.
Qed.

Lemma next_step wd all es1 kv es2 c :
  placed_at all es1 kv es2 c →
  ∃ g p' c', match es2 with
             | [] => Some (code MDB_NOTFOUND, On es1 kv es2)
             | kv' :: es2 => Some (got true wd kv', On (es1 ++ [kv]) kv' es2)
             end = Some (g, p') ∧
    mdb_cursor_next fuel touch 1 true wd MDB_NEXT (st c) = Ok (g, st c') ∧ represents all p' c'.
Proof using Ho Hfuel.
  intros (fl & Hat & Hi & Hd & He).
  destruct (has_flag fl C_EOF) eqn:Heof.
  { rewrite (He eq_refl) in *. exists (code MDB_NOTFOUND), (On es1 kv []), c.
    split_and!; [done|by apply (next_eof wd all fl es1 kv c)|]. by exists fl. }
  pose proof (cursor_next_at fuel touch m t cmp dbi db Ho 0 all fl es1 kv es2 c true wd Hat Hfuel Hi Hd Heof) as E.
  destruct es2 as [|kv' es2].
  - exists (code MDB_NOTFOUND), (On es1 kv []), (set_mc_flags c (set_flag fl C_EOF)).
    split_and!; [done|exact E|]. exists (set_flag fl C_EOF). split; [by apply (at_entry_flags _ _ _ _ _ _ _ fl)|].
    change C_EOF with (2 ^ 1) in *. change C_INITIALIZED with (2 ^ 0) in *. change C_DEL with (2 ^ 3) in *.
    rewrite !has_set_flag by lia. by rewrite Hi, Hd.
  - destruct E as (c' & E & Hat'). exists (got true wd kv'), (On (es1 ++ [kv]) kv' es2), c'.
    split_and!; [done|exact E|]. exists fl. split_and!; try done. by rewrite Heof.
Qed.

(** [MDB_PREV] *)
Lemma prev_step all es1 kv es2 c :
  placed_at all es1 kv es2 c →
  ∃ g p' c', match reverse es1 with
             | [] => Some (code MDB_NOTFOUND, On es1 kv es2)
             | kv' :: es1' => Some (got true true kv', On (reverse es1') kv' (kv :: es2))
             end = Some (g, p') ∧
    mdb_cursor_prev fuel touch 1 true true MDB_PREV (st c) = Ok (g, st c') ∧ represents all p' c'.
Proof using Ho Hfuel.
  intros (fl & Hat & Hi & Hd & He).
  destruct (prev_flags fl Hi Hd) as (Hi' & Hd' & He').
  destruct (cursor_prev_at fuel touch m t cmp dbi db Ho 0 all fl es1 kv es2 c true true Hat Hfuel Hi)
    as [[-> E]|(es1' & kv' & c' & -> & E & Hat')].
  - eexists (code MDB_NOTFOUND), (On [] kv es2), _. split_and!; [done|exact E|].
    eexists. split; [by apply (at_entry_flags _ _ _ _ _ _ _ fl)|]. split_and!; try done. by rewrite He'.
  - exists (got true true kv'), (On es1' kv' (kv :: es2)), c'. split_and!; [|exact E|].
    + by rewrite reverse_snoc, reverse_involutive.
    + eexists. split; [exact Hat'|]. split_and!; try done. by rewrite He'.
Qed.

(** [MDB_PREV] of a cursor that is not placed: [MDB_LAST], one more and one less. *)
Lemma prev_from_last all fl es1 kv c :
  at_entry all fl es1 kv [] c →
  mdb_cursor_last fuel touch 1 true true (st new_cursor) = Ok (got true true kv, st c) →
  mdb_cursor_prev fuel touch 1 true true MDB_PREV (st new_cursor)
  = Ok (got true true kv, st (set_mc_flags c (clear_flag fl (Z.lor C_EOF C_DEL)))).
Proof using Ho Hfuel.
  intros Hat El. destruct (at_entry_reads fuel m t cmp dbi db _ _ _ _ _ _ Hat)
    as (stk & q & k & rp & rk & P & ns & n & a & -> & HP & HR & Hn & Ha & Hent).
  pose proof (pr_max _ _ _ HR) as Hmax. apply lookup_lt_Some in Hn as Hk.
  set (fl' := clear_flag fl (Z.lor C_EOF C_DEL)).
  set (c2 := cur fl (stk ++ [(q, Z.of_nat k + 1)]) rp rk).
  set (c3 := cur fl' (stk ++ [(q, Z.of_nat k + 1)]) rp rk). set (c4 := cur fl' (stk ++ [(q, Z.of_nat k)]) rp rk).
  assert (Ein : (k ← top_ki; set_top_ki (k + 1);; mret (got true true kv) : M Got)
    (st (cur fl (stk ++ [(q, Z.of_nat k)]) rp rk)) = Ok (got true true kv, st c2)).
  { step (top_ki_at m t dbi fl stk q (Z.of_nat k) rp rk).
    by step (set_top_ki_at m t dbi fl stk q (Z.of_nat k) rp rk (Z.of_nat k + 1) ltac:(lia)). }
  assert (Eps : prev_start (mdb_cursor_last fuel touch 1 true true) (st new_cursor) = Ok (got true true kv, st c2)).
  { unfold prev_start. step (mc_at m t new_cursor).
    change (has_flag (mc_flags new_cursor) C_INITIALIZED) with false. cbn match. step El. exact Ein. }
  assert (Epn : prev_node fuel (st c3) = Ok (MDB_SUCCESS, st c4)).
  { unfold prev_node. step (top_ki_at m t dbi fl' stk q (Z.of_nat k + 1) rp rk).
    rewrite (proj2 (Z.eqb_neq _ _)) by lia. replace (Z.of_nat k + 1 - 1) with (Z.of_nat k) by lia.
    by step (set_top_ki_at m t dbi fl' stk q (Z.of_nat k + 1) rp rk (Z.of_nat k) ltac:(lia)). }
  assert (Eend : ∀ sub, (a ← lift (NODEPTR P (Z.of_nat k)); return_node fuel q P a true true sub : M Got) (st c4)
    = Ok (got true true kv, st c4)).
  { intros sub. step_lift (nr_ptr _ _ _ _ _ Ha).
    apply (return_node_at fuel m t q P (Z.of_nat k) n a kv true true _ _ HP Ha Hent). }
  cbn [mdb_cursor_prev]. step Eps. change (negb (g_rc (got true true kv) =? 0)) with false. cbn match.
  step (top_page_at m t dbi fl stk q (Z.of_nat k + 1) rp rk P HP).
  step (top_ki_at m t dbi fl stk q (Z.of_nat k + 1) rp rk). step_lift (pr_num _ _ _ HR).
  step (mc_db_at m t cmp dbi db Ho fl (stk ++ [(q, Z.of_nat k + 1)]) rp rk).
  rewrite (op_dup _ _ _ _ Ho). cbn [andb]. rewrite (SM_bind_Ok (mret None) _ _ None (st c2) eq_refl).
  step (eq_refl : drop_flag (Z.lor C_EOF C_DEL) (st c2) = Ok (tt, st c3)).
  step Epn. change (negb (MDB_SUCCESS =? 0)) with false. cbn match.
  step (top_page_at m t dbi fl' stk q (Z.of_nat k) rp rk P HP).
  step (top_ki_at m t dbi fl' stk q (Z.of_nat k) rp rk). step_lift (pr_leaf _ _ _ HR). cbn [negb].
  step_lift (pr_leaf2 _ _ _ HR). by step (Eend (mdb_cursor_last fuel touch 0 true false)).
Qed.

Lemma prev_unset all c :
  db_holds all → c = new_cursor →
  ∃ g p' c', match reverse all with
             | [] => Some (code MDB_NOTFOUND, Unset)
             | kv :: es => Some (got true true kv, On (reverse es) kv [])
             end = Some (g, p') ∧
    mdb_cursor_prev fuel touch 1 true true MDB_PREV (st c) = Ok (g, st c') ∧ represents all p' c'.
Proof using Ho Hfuel.
  intros Hall ->.
  destruct (last_step all Unset new_cursor Hall ltac:(done) eq_refl) as (g & p' & c1 & Em & El & Hc1).
  destruct (reverse all) as [|kv es]; injection Em as <- <-.
  - exists (code MDB_NOTFOUND), Unset, c1. split; [done|]. split; [|done]. cbn [mdb_cursor_prev].
    assert (Est : prev_start (mdb_cursor_last fuel touch 1 true true) (st new_cursor) = Ok (code MDB_NOTFOUND, st c1)).
    { unfold prev_start. step (mc_at m t new_cursor).
      change (has_flag (mc_flags new_cursor) C_INITIALIZED) with false. cbn match. by step El. }
    by step Est.
  - destruct Hc1 as (fl & Hat & Hi & Hd & _). eexists _, _, _. split; [done|].
    split; [by apply (prev_from_last all fl (reverse es))|]. destruct (prev_flags fl Hi Hd) as (? & ? & He).
    eexists. split; [by apply (at_entry_flags _ _ _ _ _ _ all fl)|]. split_and!; [done..|by rewrite He].
Qed.

(** [MDB_GET_CURRENT] *)
Lemma current_step all es1 kv es2 c sub :
  placed_at all es1 kv es2 c → get_current fuel true true sub (st c) = Ok (got true true kv, st c).
Proof using Ho Hfuel.
  intros (fl & Hat & Hi & _).
  destruct (at_entry_reads fuel m t cmp dbi db _ _ _ _ _ _ Hat)
    as (stk & q & k & rp & rk & P & ns & n & a & -> & HP & HR & Hn & Ha & (Hkey & Hdat & Hdup)).
  apply lookup_lt_Some in Hn as Hk. set (c := cur fl (stk ++ [(q, Z.of_nat k)]) rp rk).
  unfold get_current. step (mc_at m t c). change (mc_flags c) with fl. rewrite Hi. cbn [negb].
  step (top_page_at m t dbi fl stk q (Z.of_nat k) rp rk P HP). step_lift (pr_num _ _ _ HR).
  step (top_ki_at m t dbi fl stk q (Z.of_nat k) rp rk).
  rewrite (proj2 (Z.eqb_neq _ _)), (proj2 (Z.leb_gt _ _)) by lia. cbn [orb].
  step_lift (pr_leaf2 _ _ _ HR). step_lift (nr_ptr _ _ _ _ _ Ha).
  assert (Ek : (k ← lift (get_key P a); mret (Some k) : M (option MDB_val)) (st c) = Ok (Some (val kv.1), st c))
    by (step_lift (nr_key _ _ _ _ _ Ha); by rewrite Hkey).
  step Ek. step_lift (nr_flags _ _ _ _ _ Ha). rewrite Hdup.
  by step (node_read_at fuel m t q P (Z.of_nat k) n a kv.2 c HP Ha Hdat).
Qed.

(** Every call of a sequence answers what the specification says. *)
Lemma move_step all key op p c g p' :
  (op = MDB_SET_RANGE → key_ok key) → db_holds all → represents all p c →
  move (cmp:=cmp) key all op p = Some (g, p') →
  ∃ c', mdb_cursor_get fuel touch 1 (Some (val key)) (Some (MkVal 0 [])) op (st c) = Ok (g, st c') ∧
    represents all p' c'.
Proof using Ho Hfuel.
  intros Hk Hall Hc Hm.
  assert (Hlift : (∃ g1 p1 c1, Some (g1, p1) = Some (g, p') ∧
      cursor_op fuel touch 1 (Some (val key)) (Some (MkVal 0 [])) op
        (mdb_cursor_get fuel touch 0 (Some (MkVal 0 [])) None MDB_GET_CURRENT) (st c) = Ok (g1, st c1) ∧
      represents all p1 c1) →
    ∃ c', mdb_cursor_get fuel touch 1 (Some (val key)) (Some (MkVal 0 [])) op (st c) = Ok (g, st c') ∧
      represents all p' c').
  { intros (g1 & p1 & c1 & [= <- <-] & E & Hc1). exists c1. split; [|done].
    apply (cursor_get_at fuel touch m t cmp dbi db Ho); [exact E|by eapply represents_del]. }
  apply Hlift. clear Hlift. rewrite <-Hm.
  destruct p as [|es1 kv es2|]; [| |by destruct op].
  - destruct op; try done; cbn [move cursor_op].
    + destruct (first_step true all Unset c Hall ltac:(done) Hc) as (g1 & p1 & c1 & Em & H). rewrite Em. eauto 10.
    + cbn in Hc. subst c. exists (code EINVAL), Unset, new_cursor. split_and!; [done| |done].
      unfold get_current. by step (mc_at m t new_cursor).
    + destruct (last_step all Unset c Hall ltac:(done) Hc) as (g1 & p1 & c1 & Em & H). rewrite Em. eauto 10.
    + destruct (first_step true all Unset c Hall ltac:(done) Hc) as (g1 & p1 & c1 & Em & E & H). rewrite Em.
      exists g1, p1, c1. split_and!; [done| |done]. cbn in Hc. subst c. 
      cbn [mdb_cursor_next]. step (mc_at m t new_cursor). exact E.
    + destruct (prev_unset all c Hall Hc) as (g1 & p1 & c1 & Em & H). rewrite Em. eauto 10.
    + cbn in Hc. subst c. pose proof (cursor_set_range fuel touch m t cmp dbi db Ho all key (Some (MkVal 0 [])) 0 Hfuel (Hk eq_refl) Hall) as E.
      destruct (from_key cmp key all) as [|kv es2].
      * destruct E as (c1 & E & Hd). eauto 10.
      * destruct E as (c1 & es1 & fl & E & Hat & Hi & Hd & He). eexists _, _, c1. split_and!; [done|exact E|].
        exists fl. pose proof (at_entry_all _ _ _ _ _ _ _ _ _ _ _ _ Hat) as Eall.
        replace (take (length all - S (length es2)) all) with es1; [split_and!; try done; by rewrite He|].
        rewrite Eall, length_app. cbn [length]. by rewrite Nat.add_sub, take_app_length.
  - destruct op; try done; cbn [move cursor_op].
    + destruct (first_step true all (On es1 kv es2) c Hall ltac:(done) Hc) as (g1 & p1 & c1 & Em & H). rewrite Em. eauto 10.
    + exists (got true true kv), (On es1 kv es2), c. split_and!; [done|by eapply current_step|done].
    + destruct (last_step all (On es1 kv es2) c Hall ltac:(done) Hc) as (g1 & p1 & c1 & Em & H). rewrite Em. eauto 10.
    + destruct (next_step true all es1 kv es2 c Hc) as (g1 & p1 & c1 & Em & H). destruct es2; rewrite Em; eauto 10.
    + destruct (prev_step all es1 kv es2 c Hc) as (g1 & p1 & c1 & Em & H). rewrite Em. eauto 10.
Qed.
End refinement.
