(* ===== verification/Reads.v ===== *)
(** * LMDB's B+tree: what a reader sees

    The theorems on the read path: where the page of a number is looked up, what
    [mdb_get] finds, and what the moves of a cursor answer. *)

From stdpp Require Import sorting.
From S2P Require Import Prelude.
From S2P Require Import Lmdb Midl Page PageProps Tree TreeProps Cursor CursorProps CursorSpec.

(** ** Where a page is *)

(** The spilled pages and the dirty pages of a transaction, as lists. *)
Abbreviation level := (option (list Z) * list ID2)%type.

Definition level_page (psize pgno : Z) (l : level) : option Ptr :=
  if decide (2 * pgno ∈ default [] l.1) then Some (InMap (u64 (psize * pgno)))
  else (λ iy, InHeap (mptr iy.2) 0) <$> list_find (λ y, mid y = pgno) l.2.

(** The innermost transaction that has the page, with its distance. *)
Fixpoint level_find (psize pgno lvl : Z) (ls : list level) : option (Ptr * Z) :=
  match ls with
  | [] => None
  | l :: ls =>
      match level_page psize pgno l with
      | Some p => Some (p, lvl)
      | None => level_find psize pgno (lvl + 1) ls
      end
  end.

(** The order of a spill list: a page is in it once, but the marks of pages that are back,
    which are odd, may repeat when the lists of nested transactions are put together. *)
Definition spill_order (a b : Z) : Prop := b < a ∨ b = a ∧ Z.odd a = true.

Lemma spill_order_once xs n : StronglySorted spill_order xs → StronglySorted (λ a b, a ≤ 2 * n → b < 2 * n) xs.
Proof.
  apply StronglySorted_weaken. intros a b [H|[-> H]] Ha; [lia|].
  destruct (decide (a = 2 * n)) as [->|N]; [|lia]. by rewrite Z.odd_mul in H.
Qed.

(** The cells of the lists of a transaction, in the order the code keeps. *)
Definition level_cells (c : option block * list (option ID2)) (l : level) : Prop :=
  match c.1, l.1 with
  | None, None => True
  | Some b, Some xs =>
      (∃ junk, b = midl_cells xs junk) ∧ StronglySorted spill_order xs ∧ Z.of_nat (length xs) < 2 ^ 32 - 1
  | _, _ => False
  end ∧
  (∃ p junk, c.2 = mid2l_cells p l.2 junk) ∧ StronglySorted (λ a b, mid a < mid b) l.2 ∧
  Z.of_nat (length l.2) < 2 ^ 32 - 1.

Lemma spilled_spec fuel pgno xs junk :
  (33 ≤ fuel)%nat → 0 ≤ pgno < 2 ^ 63 → StronglySorted spill_order xs → Z.of_nat (length xs) < 2 ^ 32 - 1 →
  (x ← mdb_midl_search fuel (midl_cells xs junk) (u64 (Z.shiftl pgno 1));
   n ← rd (midl_cells xs junk) 0;
   if x <=? n then y ← rd (midl_cells xs junk) x; Ok (y =? u64 (Z.shiftl pgno 1)) else Ok false)
  = Ok (bool_decide (2 * pgno ∈ xs)).
Proof.
  intros Hfuel Hp Hs Hl.
  assert (Epn : u64 (Z.shiftl pgno 1) = 2 * pgno) by (rewrite Z.shiftl_mul_pow2, u64_small by lia; lia).
  rewrite Epn. destruct (midl_search_once fuel xs junk (2 * pgno) Hfuel (spill_order_once xs pgno Hs) Hl) as (r & -> & Hlo & Hhi & Hin).
  change (rd (midl_cells xs junk) 0) with (Ok (Z.of_nat (length xs))). cbn [mbind res_bind].
  destruct (Z.leb_spec (Z.of_nat (S r)) (Z.of_nat (length xs))) as [Hr|Hr].
  - destruct (lookup_lt_is_Some_2 xs r) as [x Hx]; [lia|].
    rewrite (midl_cells_rd xs junk r x Hx). cbn [mbind res_bind]. f_equal.
    apply eq_bool_prop_intro. rewrite bool_decide_spec. split.
    + intros ->%Is_true_eq_true%Z.eqb_eq. by eapply list_elem_of_lookup_2.
    + intros Hx2%Hin. rewrite Hx in Hx2. injection Hx2 as ->. by rewrite Z.eqb_refl.
  - f_equal. symmetry. apply bool_decide_eq_false_2. intros Hx%Hin. apply lookup_lt_Some in Hx. lia.
Qed.

Lemma dirty_spec fuel pgno p ys junk :
  (33 ≤ fuel)%nat → StronglySorted (λ a b, mid a < mid b) ys → Z.of_nat (length ys) < 2 ^ 32 - 1 →
  (n ← rd2 (mid2l_cells p ys junk) 0;
   if mid n =? 0 then Ok None
   else
     x ← mdb_mid2l_search fuel (mid2l_cells p ys junk) pgno;
     if x <=? mid n then
       y ← rd2 (mid2l_cells p ys junk) x;
       Ok (if mid y =? pgno then Some (InHeap (mptr y) 0) else None)
     else Ok None)
  = Ok ((λ iy, InHeap (mptr iy.2) 0) <$> list_find (λ y, mid y = pgno) ys).
Proof.
  intros Hfuel Hs Hl.
  change (rd2 (mid2l_cells p ys junk) 0) with (Ok (MkID2 (Z.of_nat (length ys)) p)). cbn [mbind res_bind mid].
  destruct (Z.eqb_spec (Z.of_nat (length ys)) 0) as [Hz|Hnz]; [by destruct ys|].
  destruct (mid2l_search_spec fuel p ys junk pgno Hfuel Hs Hl) as (pre & post & Eys & -> & Hpre & Hpost).
  cbn [mbind res_bind]. subst ys. rewrite length_app.
  assert (Hno : ∀ l, Forall (λ y, mid y ≠ pgno) l → list_find (λ y, mid y = pgno) l = None).
  { intros l Hno. by apply list_find_None. }
  assert (Hpre' : list_find (λ y, mid y = pgno) pre = None).
  { apply Hno. eapply Forall_impl; [exact Hpre|]. cbn. lia. }
  destruct post as [|y post].
  - rewrite (proj2 (Z.leb_gt _ _)) by (cbn; lia). by rewrite app_nil_r, Hpre'.
  - rewrite (proj2 (Z.leb_le _ _)) by (cbn; lia).
    rewrite (mid2l_cells_rd p (pre ++ y :: post) junk (length pre) y) by (by rewrite lookup_app_r, Nat.sub_diag by lia).
    cbn [mbind res_bind]. f_equal.
    rewrite (list_find_app_r _ _ _ Hpre'). cbn [list_find].
    destruct (Z.eqb_spec (mid y) pgno) as [He|Hne]; [by rewrite decide_True|].
    rewrite decide_False by done. symmetry. apply StronglySorted_app in Hs as (_ & _ & Hs).
    apply StronglySorted_inv in Hs as [_ Hy]. rewrite Hno; [done|].
    apply Forall_cons in Hpost as [Hyp _]. eapply Forall_impl; [exact Hy|]. cbn. lia.
Qed.

Lemma dirty_page_spec fuel pgno psize lvl cs ls :
  (33 ≤ fuel)%nat → 0 ≤ pgno < 2 ^ 63 → Forall2 level_cells cs ls →
  dirty_page fuel pgno psize lvl cs = Ok (level_find psize pgno lvl ls).
Proof.
  intros Hfuel Hp H. revert lvl. induction H as [|[sp dl] [xs ys] cs ls [Hsp ((p & junk & Hdl) & Hs & Hl)] _ IH];
    intros lvl; [done|].
  cbn [dirty_page level_find]. cbn [fst snd] in *. subst dl.
  assert (El : lists_of fuel pgno psize (sp, mid2l_cells p ys junk) = Ok (level_page psize pgno (xs, ys))).
  { unfold lists_of, level_page. cbv beta iota. cbn [fst snd]. rewrite (dirty_spec fuel pgno p ys junk Hfuel Hs Hl).
    destruct sp as [b|], xs as [xs|]; try done.
    destruct Hsp as ((junk' & ->) & Hs' & Hl'). cbv beta iota zeta. rewrite (spilled_spec fuel pgno xs junk' Hfuel Hp Hs' Hl').
    cbn [mbind res_bind default from_option]. unfold id. destruct (decide (2 * pgno ∈ xs)); [by rewrite bool_decide_eq_true_2|].
    by rewrite bool_decide_eq_false_2. }
  rewrite El. cbn [mbind res_bind]. destruct (level_page psize pgno (xs, ys)); [done|apply IH].
Qed.

(** In a write transaction [mdb_page_get] takes the page from the innermost
    transaction that dirtied it (its copy) or spilled it (the map), with the number of
    that level, and else from the map; a number that was never allocated is
    [MDB_PAGE_NOTFOUND] and stops the transaction.  Read-only transactions and those on
    a writable map only look at the map. *)
Theorem page_get_finds fuel pgno s ls :
  (33 ≤ fuel)%nat → 0 ≤ pgno < 2 ^ 63 → Forall2 level_cells (mt_lists (st_txn s)) ls →
  let m := st_mem s in
  let t := st_txn s in
  let private := if has_flag (mt_flags t) (Z.lor MDB_TXN_RDONLY MDB_TXN_WRITEMAP) then None
                 else level_find (me_psize m) pgno 1 ls in
  mdb_page_get fuel pgno s
  = match private with
    | Some (p, lvl) => Ok (inr (p, lvl), s)
    | None =>
        if decide (pgno < mt_next_pgno t) then Ok (inr (InMap (u64 (me_psize m * pgno)), 0), s)
        else Ok (inl MDB_PAGE_NOTFOUND,
                 MkSt m (MkTxn (set_flag (mt_flags t) MDB_TXN_ERROR) (mt_next_pgno t) (mt_lists t) (mt_dbs t)
                           (mt_dbxs t) (mt_dbflags t) (mt_dbiseqs t) (me_dbiseqs t) (mt_w t))
                   (st_mc s) (st_own s) (st_x s))
    end.
Proof.
  intros Hfuel Hp H m t private. unfold mdb_page_get, page_find. fold m t. fold t in H.
  rewrite (dirty_page_spec fuel pgno (me_psize m) 1 _ _ Hfuel Hp H).
  assert (Ed : (if has_flag (mt_flags t) (Z.lor MDB_TXN_RDONLY MDB_TXN_WRITEMAP) then Ok None
    else Ok (level_find (me_psize m) pgno 1 ls)) = Ok private) by (unfold private; by destruct (has_flag _ _)).
  rewrite Ed. cbn [mbind res_bind]. destruct private as [[p lvl]|]; [done|].
  destruct (Z.ltb_spec pgno (mt_next_pgno t)); [by rewrite decide_True|by rewrite decide_False by lia].
Qed.

(** A read of page 5 in a nested transaction: the parent has dirtied it; page 6 is
    spilled in the child. *)
Lemma page_get_finds_witness :
  let dl := mid2l_cells 0 [MkID2 3 103; MkID2 5 105] [] in
  let t := MkTxn 0 9 [(Some (midl_cells [12] []), mid2l_cells 0 [MkID2 4 104] []); (None, dl)] [] [] [] [] [] no_wtxn in
  let s := MkSt (MkMem [] 64 ∅) t uninit_cursor None None in
  mdb_page_get 33 5 s = Ok (inr (InHeap 105 0, 2), s) ∧
  mdb_page_get 33 6 s = Ok (inr (InMap 384, 1), s).
Proof.
  set (ls := [(Some [12], [MkID2 4 104]); (None, [MkID2 3 103; MkID2 5 105])] : list level). intros dl t s.
  assert (H : Forall2 level_cells (mt_lists (st_txn s)) ls).
  { repeat constructor; cbn; try lia; by eexists; eexists || eexists. }
  split; [exact (page_get_finds 33 5 s ls ltac:(lia) ltac:(lia) H)|
    exact (page_get_finds 33 6 s ls ltac:(lia) ltac:(lia) H)].
Defined.

(** ** The calls *)

Section calls.
Context (fuel : nat) (touch : M Z) (m : Mem) (t : MDB_txn) (cmp : MDB_cmp_func) `{!KeyOrder cmp}.
Context (dbi : Z) (db : MDB_db).
Abbreviation entries := (list (bytes * bytes)).
Abbreviation db_holds := (db_holds fuel m t cmp db).

(** A cursor that is opened and then moved. *)
Definition session (key : bytes) (ops : list MDB_cursor_op) : M (list Got) :=
  mdb_cursor_init fuel touch dbi true;; cursor_gets fuel touch (val key) ops.

Lemma moves_run (Ho : opened t dbi db cmp) all key ops p c gs :
  (31 < fuel)%nat → key_ok key → db_holds all →
  represents fuel m t cmp dbi db all p c → moves (cmp:=cmp) key all ops p = Some gs →
  ∃ c', cursor_gets fuel touch (val key) ops (st m t c) = Ok (gs, st m t c').
Proof.
  intros Hfuel Hk Hall. revert p c gs. induction ops as [|op ops IH]; intros p c gs Hc Hm.
  { injection Hm as <-. by exists c. }
  cbn [moves] in Hm. destruct (move key all op p) as [[g p']|] eqn:Em; [|done].
  apply fmap_Some in Hm as (gs' & Hm & ->).
  destruct (move_step fuel touch m t cmp dbi db Ho Hfuel all key op p c g p' (λ _, Hk) Hall Hc Em) as (c1 & E1 & Hc1).
  destruct (IH p' c1 gs' Hc1 Hm) as (c2 & E2). exists c2. by eapply gets_cons.
Qed.

Lemma session_run (Ho : opened t dbi db cmp) all key ops gs :
  (31 < fuel)%nat → key_ok key → db_holds all →
  moves (cmp:=cmp) key all ops Unset = Some gs →
  ∃ c', session key ops (st m t uninit_cursor) = Ok (gs, st m t c').
Proof.
  intros Hfuel Hk Hall Hm.
  destruct (moves_run Ho all key ops Unset (new_cursor dbi) gs Hfuel Hk Hall eq_refl Hm) as (c' & E).
  exists c'. by apply (init_gets fuel touch m t cmp dbi db Ho).
Qed.

Lemma moves_next key all es1 kv es2 :
  moves (cmp:=cmp) key all (replicate (S (length es2)) MDB_NEXT) (On es1 kv es2)
  = Some ((got true true <$> es2) ++ [code MDB_NOTFOUND]).
Proof.
  revert es1 kv. induction es2 as [|kv' es2 IH]; intros es1 kv; [done|].
  change (replicate (S (length (kv' :: es2))) MDB_NEXT) with (MDB_NEXT :: replicate (S (length es2)) MDB_NEXT).
  cbn [moves move]. by rewrite IH.
Qed.

Lemma moves_prev key all es1 kv es2 :
  moves (cmp:=cmp) key all (replicate (S (length es1)) MDB_PREV) (On (reverse es1) kv es2)
  = Some ((got true true <$> es1) ++ [code MDB_NOTFOUND]).
Proof.
  revert kv es2. induction es1 as [|kv' es1 IH]; intros kv es2; [done|].
  change (replicate (S (length (kv' :: es1))) MDB_PREV) with (MDB_PREV :: replicate (S (length es1)) MDB_PREV).
  cbn [moves move]. rewrite reverse_involutive. by rewrite IH.
Qed.

(** C17.  [mdb_get] refines the lookup in a finite map: on a tree of any depth that
    holds the entries [all], it returns the datum of the key, in its node or on
    overflow pages, or [MDB_NOTFOUND]; it ends, trips no assertion, and leaves the
    state of its caller as it was. *)
Theorem mdb_get_finds (all : entries) key v0 s :
  (17 ≤ fuel)%nat → key_ok key → opened t dbi db cmp → db_holds all →
  TXN_DBI_EXIST t dbi DB_USRVALID = true → st_mem s = m → st_txn s = t →
  mdb_get fuel touch dbi (Some (val key)) (Some v0) s
  = Ok (match (list_to_map all : gmap bytes bytes) !! key with
        | Some v => MkGot MDB_SUCCESS None (Some (val v))
        | None => code MDB_NOTFOUND
        end, s).
Proof. intros Hfuel Hk Ho. by apply (mdb_get_lookup fuel touch m t cmp dbi db Ho). Qed.

(** C16.  A cursor refines a position in the list of the entries: any sequence of
    [MDB_FIRST], [MDB_LAST], [MDB_NEXT], [MDB_PREV], [MDB_GET_CURRENT] and a first
    [MDB_SET_RANGE] answers, call for call, what the specification [moves] does, over
    the leaves and levels of the tree, and changes neither memory nor transaction. *)
Theorem cursor_refines (all : entries) key ops gs :
  (31 < fuel)%nat → key_ok key → opened t dbi db cmp → db_holds all →
  moves (cmp:=cmp) key all ops Unset = Some gs →
  ∃ c', session key ops (MkSt m t uninit_cursor None None) = Ok (gs, MkSt m t c' None None).
Proof. intros Hfuel Hk Ho. by apply session_run. Qed.

(** A scan visits every entry once: forward from [MDB_FIRST] in the order of the
    keys, backward from [MDB_LAST] in the reverse order, and then [MDB_NOTFOUND]. *)
Theorem cursor_scans (all : entries) key :
  (31 < fuel)%nat → key_ok key → opened t dbi db cmp → db_holds all →
  (∃ c', session key (MDB_FIRST :: replicate (length all) MDB_NEXT) (MkSt m t uninit_cursor None None)
         = Ok ((got true true <$> all) ++ [code MDB_NOTFOUND], MkSt m t c' None None)) ∧
  (∃ c', session key (MDB_LAST :: replicate (length all) MDB_PREV) (MkSt m t uninit_cursor None None)
         = Ok ((got true true <$> reverse all) ++ [code MDB_NOTFOUND], MkSt m t c' None None)).
Proof.
  intros Hfuel Hk Ho Hall.
  split; apply (session_run Ho all); try done; cbn [moves move].
  - destruct all as [|kv es]; [done|]. cbn [length]. by rewrite moves_next.
  - rewrite <-(length_reverse all). destruct (reverse all) as [|kv es]; [done|]. cbn [length].
    rewrite moves_prev. done.
Qed.

(** A range query: [MDB_SET_RANGE] and then [MDB_NEXT] visits exactly the entries
    whose key is not less than the given one, in order. *)
Theorem range_scans (all : entries) key :
  (31 < fuel)%nat → key_ok key → opened t dbi db cmp → db_holds all →
  let es := filter (λ kv, ord (cmp:=cmp) key kv.1 ≤ 0) all in
  ∃ c', session key (MDB_SET_RANGE :: replicate (length es) MDB_NEXT) (MkSt m t uninit_cursor None None)
        = Ok ((got true true <$> es) ++ [code MDB_NOTFOUND], MkSt m t c' None None).
Proof.
  intros Hfuel Hk Ho Hall es. apply (session_run Ho all); try done. cbn [moves move].
  change (from_key cmp key all) with es. destruct es as [|kv es]; [done|]. cbn [length]. by rewrite moves_next.
Qed.

(** No call reads on a transaction that is finished, has an error or has a child:
    each returns [MDB_BAD_TXN] and nothing has changed. *)
Theorem blocked_txn_refuses d key v0 op s :
  has_flag (mt_flags (st_txn s)) MDB_TXN_BLOCKED = true →
  mdb_cursor_get fuel touch d key v0 op s = Ok (code MDB_BAD_TXN, s) ∧
  (TXN_DBI_EXIST (st_txn s) dbi DB_USRVALID = true →
   ∀ k v, mdb_get fuel touch dbi (Some k) (Some v) s = Ok (code MDB_BAD_TXN, s)) ∧
  (∀ flags, (1 ≤ fuel)%nat → mdb_page_search fuel touch None flags s = Ok (MDB_BAD_TXN, s)).
Proof.
  intros Hb. split_and!.
  - destruct d; cbn [mdb_cursor_get]; unfold mbind, SM_bind, Tree.txn; by rewrite Hb.
  - intros Hv k v. unfold mdb_get, mbind, SM_bind, Tree.txn. by rewrite Hv, Hb.
  - intros flags Hf. unfold mdb_page_search. destruct fuel as [|n]; [lia|]. cbn [page_search].
    unfold mbind, SM_bind, Tree.txn. by rewrite Hb.
Qed.
End calls.

(** ** A tree of two levels *)

Module Example.

Definition leaf_1 : list node := [leaf_node [97] 1 0 [1] []; leaf_node [98] 1 0 [2] []].
Definition leaf_2 : list node := [leaf_node [99] 1 0 [3] []; leaf_node [100] 1 0 [4] []].
Definition root : list node := [Node 3 0 0 0 []; Node 4 0 0 1 [99; 0]].

Definition page_of_nodes (pgno flags upper : Z) (ns : list node) : page :=
  let lower := 16 + 2 * Z.of_nat (length ns) in
  page_bytes (MkHead (pgno :: replicate 9 0) flags lower upper) (layout upper ns)
    (replicate (Z.to_nat (upper - lower)) 0) ns.

(** Two meta pages, the root and the leaves, of 64 bytes each. *)
Definition map : list Z :=
  replicate (Z.to_nat 128) 0 ++ page_of_nodes 2 P_BRANCH 46 root ++ page_of_nodes 3 P_LEAF 44 leaf_1
  ++ page_of_nodes 4 P_LEAF 44 leaf_2.

Definition m : Mem := MkMem map 64 ∅.
Definition db : MDB_db := MkDb 0 0 2 1 2 0 4 2.
Definition t : MDB_txn :=
  MkTxn MDB_TXN_RDONLY 5 [] [db; db] (replicate 2 (MkDbx (MkVal 0 []) (Some Cmp_memn) None))
    (replicate 2 (Z.lor DB_VALID DB_USRVALID)) [0; 0] [0; 0] no_wtxn.
Definition all : list (bytes * bytes) := [([97], [1]); ([98], [2]); ([99], [3]); ([100], [4])].

Lemma opened_db : opened t 1 db Cmp_memn.
Proof. split; try done; eexists; split; done. Defined.

(** A page and its nodes, read off the bytes. *)
Ltac read_node := eexists; split; try (vm_compute; reflexivity); intros [=]; eexists; split; vm_compute; reflexivity.
Ltac read_page := eexists; split; [vm_compute; reflexivity|]; split; try (vm_compute; reflexivity);
  intros [|[|i]] n Hn; [injection Hn as <-; read_node|injection Hn as <-; read_node|done].

Lemma root_at : page_at m false (InMap 128) root.
Proof. read_page. Defined.
Lemma leaf_1_at : page_at m true (InMap 192) leaf_1.
Proof. read_page. Defined.
Lemma leaf_2_at : page_at m true (InMap 256) leaf_2.
Proof. read_page. Defined.

(** Two keys in order. *)
Lemma ascending_2 i a b :
  0 < Z.of_nat (length a) < 2 ^ 32 → 0 < Z.of_nat (length b) < 2 ^ 32 → lex a b < 0 → ascending Cmp_memn i [a; b].
Proof.
  intros Ha Hb Hab. split.
  - intros [|[|j]] x _ Hx; [by injection Hx as <-..|done].
  - intros [|[|j]] [|[|k]] x y Hjk Hx Hy; try done; try lia. by injection Hx as <-; injection Hy as <-.
Defined.

(** Of a branch page with two nodes the key of the second counts. *)
Lemma ascending_root a b : 0 < Z.of_nat (length b) < 2 ^ 32 → ascending Cmp_memn 1 [a; b].
Proof.
  intros Hb. split; [|intros [|[|j]] [|[|k]] x y Hjk Hx Hy; done || lia].
  intros [|[|j]] x Hj Hx; [lia|by injection Hx as <-|done].
Defined.

Lemma holds_entries : db_holds 40 m t Cmp_memn db all.
Proof.
  right. exists 1%nat. split_and!; [|lia|lia|done|done].
  split; [by repeat constructor|].
  exists (InMap 128), root, [[([97], [1]); ([98], [2])]; [([99], [3]); ([100], [4])]].
  split_and!; [by exists 0|exact root_at|cbn; lia|done|done|by apply ascending_root|].
  intros [|[|i]] b e Hb He; [..|done]; injection Hb as <-; injection He as <-.
  - split; [by repeat constructor|]. exists (InMap 192), leaf_1.
    split_and!; [by exists 0|exact leaf_1_at|by repeat constructor|done|by apply ascending_2].
  - split; [by repeat constructor|]. exists (InMap 256), leaf_2.
    split_and!; [by exists 0|exact leaf_2_at|by repeat constructor|done|by apply ascending_2].
Defined.

Lemma mdb_get_finds_witness :
  let s := MkSt m t uninit_cursor None None in
  mdb_get 40 (mret 0) 1 (Some (val [99])) (Some (MkVal 0 [])) s = Ok (MkGot MDB_SUCCESS None (Some (val [3])), s) ∧
  mdb_get 40 (mret 0) 1 (Some (val [99; 1])) (Some (MkVal 0 [])) s = Ok (code MDB_NOTFOUND, s).
Proof.
  intros s. split.
  - etransitivity; [apply (mdb_get_finds 40 (mret 0) m t Cmp_memn 1 db all [99] (MkVal 0 []) s)|by vm_compute];
      [lia|done|exact opened_db|exact holds_entries|done..].
  - etransitivity; [apply (mdb_get_finds 40 (mret 0) m t Cmp_memn 1 db all [99; 1] (MkVal 0 []) s)|by vm_compute];
      [lia|done|exact opened_db|exact holds_entries|done..].
Defined.

Lemma cursor_refines_witness :
  let e k v := got true true ([k], [v]) in
  ∃ c', session 40 (mret 0) 1 [98; 0]
      [MDB_GET_CURRENT; MDB_SET_RANGE; MDB_PREV; MDB_PREV; MDB_PREV; MDB_LAST; MDB_NEXT; MDB_GET_CURRENT; MDB_PREV]
      (MkSt m t uninit_cursor None None)
    = Ok ([code EINVAL; e 99 3; e 98 2; e 97 1; code MDB_NOTFOUND; e 100 4; code MDB_NOTFOUND; e 100 4; e 99 3],
          MkSt m t c' None None).
Proof.
  intros e. apply (cursor_refines 40 (mret 0) m t Cmp_memn 1 db all);
    [lia|done|exact opened_db|exact holds_entries|reflexivity].
Defined.

Lemma cursor_scans_witness :
  ∃ c', session 40 (mret 0) 1 [0] [MDB_FIRST; MDB_NEXT; MDB_NEXT; MDB_NEXT; MDB_NEXT] (MkSt m t uninit_cursor None None)
    = Ok ((got true true <$> all) ++ [code MDB_NOTFOUND], MkSt m t c' None None).
Proof.
  exact (proj1 (cursor_scans 40 (mret 0) m t Cmp_memn 1 db all [0] ltac:(lia) ltac:(done) opened_db holds_entries)).
Defined.

Lemma range_scans_witness :
  ∃ c', session 40 (mret 0) 1 [98; 5] [MDB_SET_RANGE; MDB_NEXT; MDB_NEXT] (MkSt m t uninit_cursor None None)
    = Ok ([got true true ([99], [3]); got true true ([100], [4]); code MDB_NOTFOUND], MkSt m t c' None None).
Proof.
  exact (range_scans 40 (mret 0) m t Cmp_memn 1 db all [98; 5] ltac:(lia) ltac:(done) opened_db holds_entries).
Defined.

Lemma blocked_txn_refuses_witness :
  let t := MkTxn MDB_TXN_ERROR 5 [] [] [] [] [] [] no_wtxn in
  let s := MkSt m t uninit_cursor None None in
  mdb_cursor_get 40 (mret 0) 1 None None MDB_FIRST s = Ok (code MDB_BAD_TXN, s).
Proof. intros t s. apply (blocked_txn_refuses 40 (mret 0) 1 1 None None MDB_FIRST s eq_refl). Defined.
End Example.
