(* ===== verification/Dump.v ===== *)
(** * The dump tool (src/lib/lmdb/mdb_dump.c)

    [hex], [text], [byte] and [dumpit], which prints the header of a database and all its
    entries.  What is printed is the list of its bytes; [dumpit] runs on the state of
    Tree.v, with the cursor of Cursor.v.  The environment's record, the text of a
    pointer and the arrival of a signal are arguments.  [main] reads the options, opens
    the environment and calls [dumpit] for one database or for all. *)

From S2P Require Import Prelude.
From S2P Require Import Lmdb Midl Page Tree Cursor.

Definition PRINT : Z := 1.
Definition EINTR : Z := 4.

Definition MDB_REVERSEKEY : Z := 0x02.
Definition MDB_REVERSEDUP : Z := 0x40.

(** The table of the flags that the header names. *)
Definition dbflags : list (Z * bytes) :=
  [(MDB_REVERSEKEY, lit "reversekey"); (MDB_DUPSORT, lit "dupsort"); (MDB_INTEGERKEY, lit "integerkey");
   (MDB_DUPFIXED, lit "dupfixed"); (MDB_INTEGERDUP, lit "integerdup"); (MDB_REVERSEDUP, lit "reversedup")].

(** [isprint] in the C locale. *)
Definition isprint (c : Z) : bool := ((32 <=? c) && (c <=? 126))%bool.

Definition hexc : bytes := lit "0123456789abcdef".

(** [hex]: the two digits of a byte. *)
Definition hex (c : Z) : bytes :=
  [nth (Z.to_nat (Z.shiftr c 4)) hexc 0; nth (Z.to_nat (Z.land c 15)) hexc 0].

(** The characters that [text] prints for a byte: a backslash is 92. *)
Definition escape (c : Z) : bytes :=
  if isprint c then (if c =? 92 then [92; c] else [c]) else 92 :: hex c.

Definition text (v : bytes) : bytes := [32] ++ concat (escape <$> v) ++ [10].
Definition byte (v : bytes) : bytes := [32] ++ concat (hex <$> v) ++ [10].

Definition put_val (mode : Z) (v : bytes) : bytes := if has_flag mode PRINT then text v else byte v.

(** [%u], [%zu], and [%d] of a number that is not negative: of 64 bits, so at most 20
    digits. *)
Fixpoint dec_digits (n : nat) (z : Z) (acc : bytes) : bytes :=
  match n with
  | O => acc
  | S n => let acc := (48 + z mod 10) :: acc in if z <? 10 then acc else dec_digits n (z / 10) acc
  end.
Definition dec (z : Z) : bytes := dec_digits 20 z [].

Record MDB_envinfo : Type := MkInfo { me_mapaddr : Z; me_mapsize : Z; me_maxreaders : Z }.

(** [printf] of a line [name=value]. *)
Definition field (name : string) (value : bytes) : bytes := lit name ++ [61] ++ value ++ [10].

Definition flag_lines (flags : Z) : bytes :=
  concat ((λ f, if has_flag flags f.1 then f.2 ++ lit "=1" ++ [10] else []) <$> dbflags).

(** The header; [fmt_p] is [%p]. *)
Definition header (fmt_p : Z → bytes) (mode flags psize : Z) (info : MDB_envinfo) (name : option bytes) : bytes :=
  field "VERSION" (lit "3") ++
  field "format" (if has_flag mode PRINT then lit "print" else lit "bytevalue") ++
  (match name with Some n => field "database" n | None => [] end) ++
  field "type" (lit "btree") ++
  field "mapsize" (dec (me_mapsize info)) ++
  (if me_mapaddr info =? 0 then [] else field "mapaddr" (fmt_p (me_mapaddr info))) ++
  field "maxreaders" (dec (me_maxreaders info)) ++
  (if has_flag flags MDB_DUPSORT then field "duplicates" (lit "1") else []) ++
  flag_lines flags ++
  field "db_pagesize" (dec psize) ++
  lit "HEADER=END" ++ [10].

Section dump.
Context (fuel : nat) (mdb_page_touch : M Z) (fmt_p : Z → bytes) (gotsig : nat → bool).

(** The loop of [dumpit]: [rc] is what the condition of the loop left in it, and [i]
    the number of the round. *)
Fixpoint dump_rows (n i : nat) (mode : Z) : M (Z * bytes) :=
  match n with
  | O => lift NoFuel
  | S n =>
      g ← Cursor.mdb_cursor_get fuel mdb_page_touch 1 (Some (MkVal 0 [])) (Some (MkVal 0 [])) MDB_NEXT;
      let rc := if g_rc g =? MDB_SUCCESS then 1 else 0 in
      if rc =? 0 then mret (rc, [])
      else if gotsig i then mret (EINTR, [])
      else
        match g_key g, g_data g with
        | Some key, Some data =>
            k ← lift (val_bytes key (mv_size key)); d ← lift (val_bytes data (mv_size data));
            '(rc, out) ← dump_rows n (S i) mode;
            mret (rc, put_val mode k ++ put_val mode d ++ out)
        | _, _ => ub
        end
  end.

(** [dumpit]: the code, and what was printed. *)
Definition dumpit (mode dbi : Z) (info : Z + MDB_envinfo) (alloc : bool) (name : option bytes) : M (Z * bytes) :=
  r ← mdb_dbi_flags dbi;
  match r with
  | inl rc => mret (rc, [])
  | inr flags =>
      r ← mdb_stat fuel mdb_page_touch dbi;
      match r, info with
      | inl rc, _ | inr _, inl rc => mret (rc, [])
      | inr ms, inr info =>
          let head := header fmt_p mode flags (ms_psize ms) info name in
          rc ← mdb_cursor_open fuel mdb_page_touch alloc dbi;
          if negb (rc =? 0) then mret (rc, head)
          else
            '(rc, out) ← dump_rows fuel 0 mode;
            let rc := if rc =? MDB_NOTFOUND then MDB_SUCCESS else rc in
            mret (rc, head ++ out ++ lit "DATA=END" ++ [10])
      end
  end.
End dump.
