(* ===== verification/Load.v ===== *)
(** * The load tool (src/lib/lmdb/mdb_load.c)

    [readhdr], [unhex], [readline], and the loop of [main] that reads databases and
    stores their entries, without the append mode ([-a]).  The standard input is the list
    of the bytes that are left.  A buffer is its size and the cells of its block: [fgets]
    writes into it, [realloc] grows it, and [readline] decodes in place.  The calls of
    LMDB are recorded in order, and answered by an argument. *)

From S2P Require Import Prelude.
From S2P Require Import Lmdb Midl Tree Cursor Dump.

Definition NOHDR : Z := 2.
Definition MDB_NODUPDATA : Z := 0x20.
Definition EOF : Z := -1.

(** ** The standard library *)

Fixpoint line_of (n : nat) (inp : bytes) : bytes :=
  match n, inp with
  | S n, c :: inp => if c =? 10 then [10] else c :: line_of n inp
  | _, _ => []
  end.

(** [fgets(b + off, n, stdin)]: what is left to read and the block, or NULL. *)
Definition fgets (inp : bytes) (b : block) (off n : Z) : res (option (bytes * block)) :=
  let n := to_int n in
  if n <=? 0 then Ok None
  else
    let l := line_of (Z.to_nat (n - 1)) inp in
    if ((1 <? n) && bool_decide (inp = []))%bool then Ok None
    else b ← write_bytes b off (l ++ [0]); Ok (Some (drop (length l) inp, b)).

Definition strlen (b : block) (off : Z) : res Z := s ← c_str (drop (Z.to_nat off) b); Ok (Z.of_nat (length s)).

Definition isdigit (c : Z) : bool := ((48 <=? c) && (c <=? 57))%bool.
Definition isxdigit (c : Z) : bool :=
  (isdigit c || ((65 <=? c) && (c <=? 70)) || ((97 <=? c) && (c <=? 102)))%bool.
Definition isspace (c : Z) : bool := ((c =? 32) || ((9 <=? c) && (c <=? 13)))%bool.

Definition starts_with (p s : bytes) : bool := bool_decide (take (length p) s = p).

(** The number a string starts with, as [atoi] and [scanf] read it. *)
Fixpoint dec_val (acc : Z) (s : bytes) : Z :=
  match s with c :: s => if isdigit c then dec_val (acc * 10 + (c - 48)) s else acc | [] => acc end.
Fixpoint skip_space (s : bytes) : bytes :=
  match s with c :: s' => if isspace c then skip_space s' else s | [] => [] end.
Definition scan_dec (s : bytes) : option Z :=
  let s := skip_space s in
  let '(neg, s) := match s with c :: s' => if c =? 45 then (true, s') else if c =? 43 then (false, s') else (false, s)
                   | [] => (false, s) end in
  match s with
  | c :: _ => if isdigit c then Some (if neg : bool then - dec_val 0 s else dec_val 0 s) else None
  | [] => None
  end.

Definition atoi (s : bytes) : res Z :=
  let z := default 0 (scan_dec s) in
  if ((- 2 ^ 31 <=? z) && (z <? 2 ^ 31))%bool then Ok z else UB.

(** [sscanf(s, "%u", ...)] for a field of [w] bits. *)
Definition scan_u (w : Z) (s : bytes) : res (option Z) :=
  match scan_dec s with
  | None => Ok None
  | Some z => if ((- 2 ^ w <? z) && (z <? 2 ^ w))%bool then Ok (Some (z mod 2 ^ w)) else UB
  end.

(** ** Buffers *)

Record Buf : Type := MkBuf { b_size : Z; b_data : block }.

(** [memchr(b, c, n)] *)
Fixpoint memchr (b : block) (c : Z) (n i : nat) : res (option nat) :=
  match n, b with
  | O, _ => Ok None
  | S n, Some x :: b => if x =? c then Ok (Some i) else memchr b c n (S i)
  | S _, _ => UB
  end.

(** [ptr = memchr(dbuf.mv_data, '\n', dbuf.mv_size); if (ptr) *ptr = '\0'] *)
Definition cut_line (d : Buf) : res Buf :=
  p ← memchr (b_data d) 10 (Z.to_nat (b_size d)) 0;
  match p with
  | Some i => b ← write_bytes (b_data d) (Z.of_nat i) [0]; Ok (MkBuf (b_size d) b)
  | None => Ok d
  end.

(** The static variables of the program. *)
Record Load : Type := MkLoad {
  input : bytes; Eof : bool; lineno : Z; mode : Z; flags : Z; version : Z; subname : option bytes;
  mapaddr : Z; mapsize : Z; maxreaders : Z; kbuf : Buf; dbuf : Buf }.

Definition set_input (s : Load) (inp : bytes) (eof : bool) (line : Z) (k d : Buf) : Load :=
  MkLoad inp eof line (mode s) (flags s) (version s) (subname s) (mapaddr s) (mapsize s) (maxreaders s) k d.
Definition set_dbuf (s : Load) (d : Buf) : Load :=
  MkLoad (input s) (Eof s) (lineno s) (mode s) (flags s) (version s) (subname s) (mapaddr s) (mapsize s)
    (maxreaders s) (kbuf s) d.
Definition set_header (s : Load) (m f v : Z) (name : option bytes) (addr size readers : Z) : Load :=
  MkLoad (input s) (Eof s) (lineno s) m f v name addr size readers (kbuf s) (dbuf s).
Definition set_flags (s : Load) (f : Z) : Load :=
  set_header s (mode s) f (version s) (subname s) (mapaddr s) (mapsize s) (maxreaders s).

(** ** The header *)

(** What a line of the header does: the program exits, the header is complete, or the
    next line is read. *)
Inductive hdr_next : Type := HExit | HEnd | HNext (s : Load).

Definition flag_of (l : bytes) : option Z :=
  fst <$> head (filter (λ f, starts_with f.2 l = true ∧ l !! length f.2 = Some 61) dbflags).

Section header.
Context (scan_p : bytes → option Z).

(** The rest of the line behind [name], with the newline cut off. *)
Definition rest_of (d : Buf) (name : string) : res (bytes * Buf) :=
  d ← cut_line d; l ← c_str (b_data d); Ok (drop (length (lit name)) l, d).

Definition hdr_line (s : Load) : res hdr_next :=
  l ← c_str (b_data (dbuf s));
  let after (name : string) := drop (length (lit name)) l in
  if starts_with (lit "VERSION=") l then
    v ← atoi (after "VERSION=");
    Ok (if 3 <? v then HExit
        else HNext (set_header s (mode s) (flags s) v (subname s) (mapaddr s) (mapsize s) (maxreaders s)))
  else if starts_with (lit "HEADER=END") l then Ok HEnd
  else if starts_with (lit "format=") l then
    if starts_with (lit "print") (after "FORMAT=") then
      Ok (HNext (set_header s (set_flag (mode s) PRINT) (flags s) (version s) (subname s) (mapaddr s) (mapsize s)
                   (maxreaders s)))
    else Ok (if starts_with (lit "bytevalue") (after "FORMAT=") then HNext s else HExit)
  else if starts_with (lit "database=") l then
    '(n, d) ← rest_of (dbuf s) "database=";
    Ok (HNext (set_header (set_dbuf s d) (mode s) (flags s) (version s) (Some n) (mapaddr s) (mapsize s) (maxreaders s)))
  else if starts_with (lit "type=") l then
    Ok (if starts_with (lit "btree") (after "type=") then HNext s else HExit)
  else if starts_with (lit "mapaddr=") l then
    '(v, d) ← rest_of (dbuf s) "mapaddr=";
    Ok (match scan_p v with
        | Some a => HNext (set_header (set_dbuf s d) (mode s) (flags s) (version s) (subname s) a (mapsize s) (maxreaders s))
        | None => HExit
        end)
  else if starts_with (lit "mapsize=") l then
    '(v, d) ← rest_of (dbuf s) "mapsize=";
    x ← scan_u 64 v;
    Ok (match x with
        | Some a => HNext (set_header (set_dbuf s d) (mode s) (flags s) (version s) (subname s) (mapaddr s) a (maxreaders s))
        | None => HExit
        end)
  else if starts_with (lit "maxreaders=") l then
    '(v, d) ← rest_of (dbuf s) "maxreaders=";
    x ← scan_u 32 v;
    Ok (match x with
        | Some a => HNext (set_header (set_dbuf s d) (mode s) (flags s) (version s) (subname s) (mapaddr s) (mapsize s) a)
        | None => HExit
        end)
  else
    match flag_of l with
    | Some bit => Ok (HNext (set_flags s (set_flag (flags s) bit)))
    | None =>
        p ← memchr (b_data (dbuf s)) 61 (Z.to_nat (b_size (dbuf s))) 0;
        match p with
        | None => Ok HExit
        | Some i => b ← write_bytes (b_data (dbuf s)) (Z.of_nat i) [0];
                    Ok (HNext (set_dbuf s (MkBuf (b_size (dbuf s)) b)))
        end
    end.

Fixpoint hdr_loop (fuel : nat) (s : Load) : res (bool * Load) :=
  match fuel with
  | O => NoFuel
  | S fuel =>
      r ← fgets (input s) (b_data (dbuf s)) 0 (b_size (dbuf s));
      match r with
      | None => Ok (true, s)
      | Some (inp, b) =>
          let s := set_input s inp (Eof s) (u64 (lineno s + 1)) (kbuf s) (MkBuf (b_size (dbuf s)) b) in
          n ← hdr_line s;
          match n with
          | HExit => Ok (false, s)
          | HEnd => Ok (true, s)
          | HNext s => hdr_loop fuel s
          end
      end
  end.

(** [readhdr]: whether the program goes on; a round reads at least one byte. *)
Definition readhdr (s : Load) : res (bool * Load) :=
  hdr_loop (S (length (input s))) (set_flags s 0).
End header.

(** ** A line of data *)

Definition hex_digit (c : Z) : Z := let x := Z.land c 0x4f in if has_flag x 0x40 then x - 55 else x.

(** [unhex] of the two characters at its argument. *)
Definition unhex (c0 c1 : Z) : Z := Z.lor (Z.shiftl (hex_digit c0) 4) (hex_digit c1).

(** What [readline] returns: the code, the value when it is 0, and the new state of the
    input, of [Eof] and [lineno], and of the buffer. *)
Record Line : Type := MkLine {
  ln_rc : Z; ln_val : bytes; ln_input : bytes; ln_Eof : bool; ln_lineno : Z; ln_buf : Buf }.

Definition line_eof (inp : bytes) (eof : bool) (line : Z) (d : Buf) : Line := MkLine EOF [] inp eof line d.

(** The loop that reads on while the buffer is too short; [alloc] tells whether
    [realloc] succeeds.  On the right: the end of the line and the buffer. *)
Fixpoint grow_line (fuel : nat) (alloc : bool) (inp : bytes) (d : Buf) (c1 len l2 : Z)
    : res (Buf * bytes + bytes * Buf * Z) :=
  match fuel with
  | O => NoFuel
  | S fuel =>
      c ← read_byte (b_data d) (c1 + len - 1);
      if c =? 10 then Ok (inr (inp, d, l2))
      else if negb alloc then Ok (inl (d, inp))
      else
        let b := realloc_block (b_data d) (u64 (b_size d * 2)) in
        r ← fgets inp b l2 (u64 (b_size d + 1));
        match r with
        | None => Ok (inl (MkBuf (b_size d) b, inp))
        | Some (inp, b) =>
            len ← strlen b l2;
            grow_line fuel alloc inp (MkBuf (u64 (b_size d * 2)) b) l2 len (u64 (l2 + len))
        end
  end.

(** The loops that decode the line in place: [c1] is where to write, [c2] where to read.
    [None] is [badend]. *)
Fixpoint decode_print (n : nat) (b : block) (c1 c2 last : Z) : res (option (block * Z)) :=
  match n with
  | O => NoFuel
  | S n =>
      if c2 <? last then
        c ← read_byte b c2;
        if c =? 92 then
          d ← read_byte b (c2 + 1);
          if d =? 92 then b ← write_bytes b c1 [c]; decode_print n b (c1 + 1) (c2 + 2) last
          else if last <? c2 + 3 then Ok None
          else if negb (isxdigit d) then Ok None
          else
            e ← read_byte b (c2 + 2);
            if negb (isxdigit e) then Ok None
            else b ← write_bytes b c1 [u8 (unhex d e)]; decode_print n b (c1 + 1) (c2 + 3) last
        else b ← write_bytes b c1 [c]; decode_print n b (c1 + 1) (c2 + 1) last
      else Ok (Some (b, c1))
  end.

Fixpoint decode_hex (n : nat) (b : block) (c1 c2 last : Z) : res (option (block * Z)) :=
  match n with
  | O => NoFuel
  | S n =>
      if c2 <? last then
        c ← read_byte b c2;
        if negb (isxdigit c) then Ok None
        else
          d ← read_byte b (c2 + 1);
          if negb (isxdigit d) then Ok None
          else b ← write_bytes b c1 [u8 (unhex c d)]; decode_hex n b (c1 + 1) (c2 + 2) last
      else Ok (Some (b, c1))
  end.

(** The bytes of the first [n] cells. *)
Definition cells_val (b : block) (n : Z) : res bytes :=
  match mapM id (take (Z.to_nat n) b) with
  | Some l => if n <=? Z.of_nat (length b) then Ok l else UB
  | None => UB
  end.

(** The part of [readline] behind the first character: the line is read, cut and decoded. *)
Definition read_value (alloc : bool) (mode : Z) (inp : bytes) (line : Z) (d : Buf) : res Line :=
  r ← fgets inp (b_data d) 0 (b_size d);
  match r with
  | None => Ok (line_eof inp true line d)
  | Some (inp, b) =>
      let line := u64 (line + 1) in
      len ← strlen b 0;
      g ← grow_line (S (length inp)) alloc inp (MkBuf (b_size d) b) 0 len len;
      match g with
      | inl (d, inp) => Ok (line_eof inp true line d)
      | inr (inp, d, l2) =>
          let len := u64 (l2 - 1) in
          b ← write_bytes (b_data d) len [0];
          v ← (if has_flag mode PRINT then decode_print (S (Z.to_nat len)) b 0 0 len
               else if has_flag len 1 then Ok None else decode_hex (S (Z.to_nat len)) b 0 0 len);
          match v with
          | None => Ok (line_eof inp true line (MkBuf (b_size d) b))
          | Some (b, c1) => out ← cells_val b c1; Ok (MkLine 0 out inp false line (MkBuf (b_size d) b))
          end
      end
  end.

Definition readline (alloc : bool) (mode : Z) (inp : bytes) (line : Z) (d : Buf) : res Line :=
  if has_flag mode NOHDR then read_value alloc mode inp line d
  else
    match inp with
    | [] => Ok (line_eof [] true line d)
    | c :: inp =>
        if c =? 32 then read_value alloc mode inp line d
        else
          let line := u64 (line + 1) in
          r ← fgets inp (b_data d) 0 (b_size d);
          match r with
          | None => Ok (line_eof inp true line d)
          | Some (inp, b) =>
              s ← c_str b;
              Ok (line_eof inp (negb ((c =? 68) && starts_with (lit "ATA=END") s)) line (MkBuf (b_size d) b))
          end
    end.

(** ** Storing the entries *)

(** The calls of LMDB that [main] makes. *)
Inductive Call : Type :=
| EnvCreate
| EnvSetMaxdbs (n : Z)
| EnvSetMaxreaders (n : Z)
| EnvSetMapsize (n : Z)
| EnvOpen (flags : Z)
| EnvClose
| TxnBegin
| DbOpen (name : option bytes) (flags : Z)
| CursorOpen
| CursorPut (key data : bytes) (flags : Z)
| TxnCommit
| DbiClose
| TxnAbort.

Section main.
Context (scan_p : bytes → option Z) (alloc : bool) (putflags : Z).
(** The answer to a call, from all calls before it. *)
Context (answer : list Call → Call → Z).

(** Where the program goes: on, to [txn_abort], or to [env_close]. *)
Inductive Goto : Type := Go | Abort_ | Close.

(** [readline(&v, &kbuf)] and [readline(&v, &dbuf)] in the state of the program; [Eof] is
    only ever raised. *)
Definition read_key (s : Load) : res (Z * bytes * Load) :=
  l ← readline alloc (mode s) (input s) (lineno s) (kbuf s);
  Ok (ln_rc l, ln_val l, set_input s (ln_input l) (Eof s || ln_Eof l) (ln_lineno l) (ln_buf l) (dbuf s)).
Definition read_data (s : Load) : res (Z * bytes * Load) :=
  l ← readline alloc (mode s) (input s) (lineno s) (dbuf s);
  Ok (ln_rc l, ln_val l, set_input s (ln_input l) (Eof s || ln_Eof l) (ln_lineno l) (kbuf s) (ln_buf l)).

(** The calls [cs] in order, up to the first that fails; the trace is reversed. *)
Fixpoint calls (tr : list Call) (cs : list (Call * Goto)) : Z * Goto * list Call :=
  match cs with
  | [] => (0, Go, tr)
  | (c, g) :: cs =>
      let rc := answer (reverse tr) c in
      if negb (rc =? 0) then (rc, g, c :: tr) else calls (c :: tr) cs
  end.

(** The loop that stores the entries of a database. *)
Fixpoint put_loop (fuel : nat) (batch : Z) (s : Load) (tr : list Call) : res (Z * Goto * Load * list Call) :=
  match fuel with
  | O => NoFuel
  | S fuel =>
      '(rc, key, s) ← read_key s;
      if negb (rc =? 0) then Ok (rc, Go, s, tr)
      else
        '(rc, data, s) ← read_data s;
        if negb (rc =? 0) then Ok (rc, Abort_, s, tr)
        else
          let put := CursorPut key data putflags in
          let rc := answer (reverse tr) put in
          let tr := put :: tr in
          if ((rc =? MDB_KEYEXIST) && negb (putflags =? 0))%bool then put_loop fuel batch s tr
          else if negb (rc =? 0) then Ok (rc, Abort_, s, tr)
          else if batch + 1 =? 100 then
            let '(rc, g, tr) := calls tr [(TxnCommit, Close); (TxnBegin, Close); (CursorOpen, Abort_)] in
            if negb (rc =? 0) then Ok (rc, g, s, tr) else put_loop fuel 0 s tr
          else put_loop fuel (batch + 1) s tr
  end.

(** A round of the loop over the databases; [dohdr] tells whether the header is still to
    be read. *)
Definition load_db (dohdr : bool) (s : Load) (tr : list Call) : res (option (Z * Goto * Load * list Call)) :=
  let s := set_flags s 0 in
  '(go, s) ← (if (dohdr && negb (has_flag (mode s) NOHDR))%bool then readhdr scan_p s else Ok (true, s));
  if negb go then Ok None
  else
    let '(rc, g, tr) := calls tr [(TxnBegin, Close); (DbOpen (subname s) (Z.lor (flags s) MDB_CREATE), Abort_);
                                  (CursorOpen, Abort_)] in
    if negb (rc =? 0) then Ok (Some (rc, g, s, tr))
    else
      '(rc, g, s, tr) ← put_loop (S (length (input s))) 0 s tr;
      match g with
      | Go =>
          let '(rc, g, tr) := calls tr [(TxnCommit, Close)] in
          Ok (Some (rc, g, s, if rc =? 0 then DbiClose :: tr else tr))
      | g => Ok (Some (rc, g, s, tr))
      end.

(** The loop over the databases; [None] is [exit].  At the end of the input
    [mdb_txn_abort] is called with NULL. *)
Fixpoint load_dbs (fuel : nat) (dohdr : bool) (s : Load) (tr : list Call) : res (option (Z * Load * list Call)) :=
  match fuel with
  | O => NoFuel
  | S fuel =>
      if Eof s then Ok (Some (0, s, TxnAbort :: tr))
      else
        r ← load_db dohdr s tr;
        match r with
        | None => Ok None
        | Some (rc, Go, s, tr) => load_dbs fuel true s tr
        | Some (rc, Abort_, s, tr) => Ok (Some (rc, s, TxnAbort :: tr))
        | Some (rc, Close, s, tr) => Ok (Some (rc, s, tr))
        end
  end.

Definition MDB_FIXEDMAP : Z := 0x01.

(** The status that [main] returns: [EXIT_SUCCESS] or [EXIT_FAILURE]. *)
Definition exit_status (rc : Z) : Z := if rc =? 0 then 0 else 1.

(** [main] behind the options: [mode], [envflags] and [sub] are what they set, and
    [maxkeysize] is the answer of [mdb_env_get_maxkeysize]. *)
Definition load_main (mode envflags maxkeysize : Z) (sub : option bytes) (stdin : bytes) : res (option (Z * list Call)) :=
  let s := MkLoad stdin false 0 mode 0 0 sub 0 0 0 (MkBuf 0 []) (MkBuf 4096 (fresh_block 4096)) in
  '(go, s) ← (if has_flag mode NOHDR then Ok (true, s) else readhdr scan_p s);
  if negb go then Ok None
  else
    let rc := answer [] EnvCreate in
    if negb (rc =? 0) then Ok (Some (exit_status rc, [EnvCreate]))
    else
      let tr := EnvSetMaxdbs 2 :: [EnvCreate] in
      let tr := if maxreaders s =? 0 then tr else EnvSetMaxreaders (maxreaders s) :: tr in
      let tr := if mapsize s =? 0 then tr else EnvSetMapsize (mapsize s) :: tr in
      let open := EnvOpen (if mapaddr s =? 0 then envflags else Z.lor envflags MDB_FIXEDMAP) in
      let rc := answer (reverse tr) open in
      if negb (rc =? 0) then Ok (Some (exit_status rc, reverse (EnvClose :: open :: tr)))
      else
        let ksize := maxkeysize * 2 + 2 in
        let s := set_input s (input s) (Eof s) (lineno s) (MkBuf ksize (fresh_block (ksize * 2))) (dbuf s) in
        r ← load_dbs (S (S (length (input s)))) false s (open :: tr);
        Ok (match r with Some (rc, _, tr) => Some (exit_status rc, reverse (EnvClose :: tr)) | None => None end).
End main.
