(* ===== verification/ToolProps.v ===== *)
(** * The tools of LMDB: dumping and loading are inverse

    [readline] gives back what [text] and [byte] print, whatever the size of the buffer;
    [readhdr] reads the header of [dumpit]; the whole dump of a tree, loaded, stores its
    entries in their order.  And where the tools go wrong. *)

From S2P Require Import Prelude.
From S2P Require Import Lmdb Midl Page PageProps Tree TreeProps Cursor CursorProps CursorSpec Dump Load.

(** ** Reading a line *)

(** A line without the newline that ends it. *)
Definition is_line (l : bytes) : Prop := not (10 ∈ l) ∧ not (0 ∈ l).

Lemma line_of_all n l rest : 10 ∉ l → (length l < n)%nat → line_of n (l ++ 10 :: rest) = l ++ [10].
Proof.
  revert n. induction l as [|c l IH]; intros [|n] Hl Hn; cbn in Hn; try lia; cbn [line_of app]; [done|].
  rewrite (proj2 (Z.eqb_neq c 10)) by set_solver. f_equal. apply IH; [set_solver|lia].
Qed.

Lemma line_of_take n l rest : 10 ∉ l → (n ≤ length l)%nat → line_of n (l ++ 10 :: rest) = take n l.
Proof.
  revert n. induction l as [|c l IH]; intros [|n] Hl Hn; cbn in Hn; try lia; cbn [line_of app take]; [done|done|].
  rewrite (proj2 (Z.eqb_neq c 10)) by set_solver. f_equal. apply IH; [set_solver|lia].
Qed.

Lemma line_of_cases n l rest :
  10 ∉ l → line_of n (l ++ 10 :: rest) = take n (l ++ [10]).
Proof.
  intros Hl. destruct (decide (length l < n)%nat).
  - rewrite line_of_all by done. by rewrite take_ge by (rewrite length_app; cbn; lia).
  - rewrite line_of_take by (done || lia). by rewrite take_app_le by lia.
Qed.

Lemma to_int_small z : 0 ≤ z < 2 ^ 31 → to_int z = z.
Proof. intros. unfold to_int. rewrite u32_small by lia. by rewrite (proj2 (Z.ltb_lt _ _)) by lia. Qed.

(** [fgets] of a part of a line, behind [pre] in the block. *)
Lemma fgets_line l rest pre cells off n :
  10 ∉ l → off = Z.of_nat (length pre) → 2 ≤ n < 2 ^ 31 → n ≤ Z.of_nat (length cells) →
  let p := take (Z.to_nat (n - 1)) (l ++ [10]) in
  fgets (l ++ 10 :: rest) (pre ++ cells) off n
  = Ok (Some (drop (length p) (l ++ [10]) ++ rest, pre ++ (Some <$> p ++ [0]) ++ drop (S (length p)) cells)).
Proof.
  intros Hl -> Hn Hc p. unfold fgets. rewrite to_int_small by lia.
  rewrite (proj2 (Z.leb_gt _ _)) by lia. rewrite (bool_decide_eq_false_2 (l ++ 10 :: rest = [])) by (by destruct l).
  rewrite andb_false_r, line_of_cases by done. fold p.
  assert (Hp : (length p ≤ Z.to_nat (n - 1))%nat) by (unfold p; rewrite length_take; lia).
  rewrite write_bytes_Ok by (rewrite ?length_app; cbn; lia). cbn [mbind res_bind]. do 3 f_equal.
  - change (10 :: rest) with ([10] ++ rest). rewrite (assoc_L (++)). apply drop_app_le.
    unfold p. rewrite length_take. lia.
  - rewrite Nat2Z.id, take_app_length. f_equal. f_equal.
    rewrite length_app, Nat.add_1_r. rewrite drop_app_ge by lia. f_equal. lia.
Qed.

(** A buffer of at least [lo] bytes that a line can be read into. *)
Definition big : Z := 2 ^ 30.
Definition buf_ok (lo : Z) (d : Buf) : Prop := lo ≤ b_size d ≤ big ∧ b_size d ≤ Z.of_nat (length (b_data d)).

(** The buffer holds the first [n] bytes of the line. *)
Definition holds_part (l : bytes) (n : nat) (d : Buf) : Prop :=
  ∃ tail, b_data d = (Some <$> take n (l ++ [10]) ++ [0]) ++ tail.

Lemma not_in_take {A} (x : A) n l : x ∉ l → x ∉ take n l.
Proof. intros Hl H. apply Hl. rewrite <-(take_drop n l). apply elem_of_app. by left. Qed.

Lemma not_in_drop {A} (x : A) n l : x ∉ l → x ∉ drop n l.
Proof. intros Hl H. apply Hl. rewrite <-(take_drop n l). apply elem_of_app. by right. Qed.

Lemma is_line_nul l : is_line l → 0 ∉ l ++ [10].
Proof. intros [_ Hl] [H|H%list_elem_of_singleton]%elem_of_app; done. Qed.

Lemma take_length_take {A} m (l : list A) : take (length (take m l)) l = take m l.
Proof.
  rewrite length_take. destruct (Nat.min_spec m (length l)) as [[_ ->]|[? ->]]; [done|].
  by rewrite !take_ge by lia.
Qed.

Lemma length_line {A} (l : list A) x : length (l ++ [x]) = S (length l).
Proof. rewrite length_app. cbn. lia. Qed.

Lemma c_str_part l n tail : 0 ∉ l → c_str ((Some <$> take n l ++ [0]) ++ tail) = Ok (take n l).
Proof.
  intros Hl. rewrite fmap_app, <-(assoc_L (++)). apply c_str_app. by apply not_in_take.
Qed.

Lemma grow_line_spec lo fuel l rest d c1 len n :
  2 ≤ lo → is_line l → (length l + 2 ≤ Z.to_nat (2 ^ 29))%nat → buf_ok lo d → holds_part l n d →
  (1 ≤ n ≤ length l + 1)%nat → c1 + len = Z.of_nat n →
  n = (length l + 1)%nat ∨ b_size d = Z.of_nat n + 1 → (length l + 1 - n < fuel)%nat →
  ∃ d', grow_line fuel true (drop n (l ++ [10]) ++ rest) d c1 len (Z.of_nat n)
        = Ok (inr (rest, d', Z.of_nat (length l + 1))) ∧ buf_ok lo d' ∧ holds_part l (length l + 1) d'.
Proof.
  intros Hlo Hline Hlen. revert d c1 len n. induction fuel as [|fuel IH]; intros d c1 len n Hd Hpart Hn Hc Hsz Hf; [lia|].
  destruct Hd as [[Hd1 Hd2] Hd3]. unfold big in *. destruct Hpart as [tail Htail].
  destruct (lookup_lt_is_Some_2 (l ++ [10]) (n - 1)) as [c Hlk]; [rewrite length_line; lia|].
  assert (Hrd : read_byte (b_data d) (c1 + len - 1) = Ok c).
  { replace (c1 + len - 1) with (Z.of_nat (n - 1)) by lia. apply read_byte_lookup.
    rewrite Htail, lookup_app_l by (rewrite length_fmap, !length_app, length_take, length_line; cbn; lia).
    rewrite list_lookup_fmap, lookup_app_l by (rewrite length_take, length_line; lia).
    rewrite lookup_take_lt by lia. by rewrite Hlk. }
  cbn [grow_line]. rewrite Hrd. cbn [mbind res_bind].
  destruct (decide (n = length l + 1)%nat) as [->|Hne].
  { rewrite lookup_app_r in Hlk by lia. replace (length l + 1 - 1 - length l)%nat with 0%nat in Hlk by lia.
    injection Hlk as <-. exists d. cbn match. rewrite drop_ge by (rewrite length_line; lia).
    split; [done|]. split; [by repeat split|by exists tail]. }
  destruct Hsz as [?|Hsz]; [done|].
  rewrite lookup_app_l in Hlk by lia.
  rewrite (proj2 (Z.eqb_neq c 10)) by (intros ->; apply (proj1 Hline); by eapply list_elem_of_lookup_2).
  cbn [negb]. rewrite !u64_small by lia.
  set (size := b_size d) in *. rewrite drop_app_le by lia.
  assert (Hline' : 10 ∉ drop n l) by (apply not_in_drop, Hline).
  set (pre := Some <$> take n (l ++ [10])).
  assert (Hpre : length pre = n) by (unfold pre; rewrite length_fmap, length_take, length_line; lia).
  assert (Eb : ∃ cells, realloc_block (b_data d) (size * 2) = pre ++ cells ∧
    Z.of_nat (length cells) = size * 2 - Z.of_nat n).
  { unfold realloc_block. rewrite Htail, fmap_app, <-(assoc_L (++)). fold pre.
    rewrite take_app_ge, <-(assoc_L (++)) by lia. eexists. split; [done|].
    rewrite !length_app, length_replicate, length_take, !length_app. lia. }
  destruct Eb as (cells & -> & Hcells). rewrite <-(assoc_L (++)). cbn [app].
  rewrite (fgets_line (drop n l) rest pre cells (Z.of_nat n) (size + 1)) by (done || lia). cbn [mbind res_bind].
  set (p := take (Z.to_nat (size + 1 - 1)) (drop n l ++ [10])).
  assert (Hp : length p = (Z.to_nat size `min` (length l + 1 - n))%nat)
    by (unfold p; rewrite length_take, length_line, length_drop; lia).
  assert (El : strlen (pre ++ (Some <$> p ++ [0]) ++ drop (S (length p)) cells) (Z.of_nat n) = Ok (Z.of_nat (length p))).
  { unfold strlen. rewrite Nat2Z.id, <-Hpre, drop_app_length. unfold p at 1.
    rewrite c_str_part; [done|]. intros [H|H%list_elem_of_singleton]%elem_of_app; [|done].
    by apply (not_in_drop _ n _ (proj2 Hline)). }
  rewrite El. cbn [mbind res_bind]. rewrite u64_small by lia.
  replace (Z.of_nat n + Z.of_nat (length p)) with (Z.of_nat (n + length p)) by lia.
  destruct (IH (MkBuf (size * 2) (pre ++ (Some <$> p ++ [0]) ++ drop (S (length p)) cells)) (Z.of_nat n)
    (Z.of_nat (length p)) (n + length p)%nat) as (d' & E & Hd' & Hpart'); try lia.
  - split; [unfold big; cbn; lia|]. cbn. rewrite !length_app, length_fmap, length_app, length_drop. cbn. lia.
  - exists (drop (S (length p)) cells). cbn. rewrite (assoc_L (++)). f_equal. unfold pre.
    rewrite <-fmap_app, (assoc_L (++)). do 2 f_equal. unfold p. rewrite <-drop_app_le by lia.
    by rewrite <-(take_take_drop (l ++ [10]) n (length _)), take_length_take.
  - destruct (decide (Z.to_nat size < length l + 1 - n)%nat); [right; cbn; lia|left; lia].
  - exists d'. split; [|done]. rewrite <-E. do 2 f_equal. unfold p. rewrite <-(drop_app_le l) by lia.
    by rewrite drop_drop.
Qed.

(** ** Decoding *)

Definition is_byte (c : Z) : Prop := 0 ≤ c < 256.

Lemma hex_digits c :
  is_byte c → ∃ a b, hex c = [a; b] ∧ isxdigit a = true ∧ isxdigit b = true ∧ a ≠ 92 ∧ u8 (unhex a b) = c ∧
    not (10 ∈ [a; b]) ∧ not (0 ∈ [a; b]).
Proof.
  intros Hc. eexists _, _. split; [done|].
  assert (H : forallb (λ c, match hex c with
      | [a; b] => isxdigit a && isxdigit b && negb (a =? 92) && (u8 (unhex a b) =? c) &&
                  negb (bool_decide (10 ∈ [a; b])) && negb (bool_decide (0 ∈ [a; b]))
      | _ => false
      end)%bool (seqZ 0 256) = true) by (vm_compute; reflexivity).
  rewrite forallb_forall in H. specialize (H c). unfold hex in H.
  rewrite !andb_true_iff, !negb_true_iff, !bool_decide_eq_false, Z.eqb_eq, Z.eqb_neq in H.
  destruct H as [[[[[? ?] ?] ?] ?] ?]; [|done].
  apply list_elem_of_In, elem_of_seqZ. unfold is_byte in Hc. lia.
Qed.

Lemma hex_line c : is_byte c → is_line (hex c).
Proof. intros Hc. destruct (hex_digits c Hc) as (a & b & -> & _ & _ & _ & _ & H). exact H. Qed.

Lemma escape_line c : is_byte c → is_line (escape c).
Proof.
  intros Hc. unfold escape, isprint. destruct (hex_line c Hc) as [H1 H2].
  destruct (Z.leb_spec 32 c), (Z.leb_spec c 126); cbn [andb];
    [destruct (Z.eqb_spec c 92)|..]; split; rewrite ?elem_of_cons, ?elem_of_nil; (lia || intuition lia).
Qed.

Lemma concat_line (f : Z → bytes) v : (∀ c, is_byte c → is_line (f c)) → Forall is_byte v → is_line (concat (f <$> v)).
Proof.
  intros Hf. induction 1 as [|c v Hc _ IH]; [split; apply not_elem_of_nil|]. cbn.
  destruct (Hf c Hc), IH. split; rewrite elem_of_app; naive_solver.
Qed.

(** The block while a line is decoded in place: what is decoded, what is used up, and
    what is left. *)
Definition decoding (done : bytes) (junk : block) (todo : bytes) (tail : block) : block :=
  (Some <$> done) ++ junk ++ (Some <$> todo) ++ Some 0 :: tail.

Lemma decoding_read k x done junk todo tail i :
  todo !! k = Some x → i = Z.of_nat (length done + length junk) + Z.of_nat k →
  read_byte (decoding done junk todo tail) i = Ok x.
Proof.
  intros Hx ->. rewrite <-Nat2Z.inj_add. apply read_byte_lookup. unfold decoding.
  rewrite lookup_app_r by (rewrite length_fmap; lia). rewrite length_fmap.
  rewrite lookup_app_r by lia. rewrite lookup_app_l by (apply lookup_lt_Some in Hx; rewrite length_fmap; lia).
  replace (length done + length junk + k - length done - length junk)%nat with k by lia.
  by rewrite list_lookup_fmap, Hx.
Qed.

Lemma decoding_write done junk e todo tail x i :
  e ≠ [] → i = Z.of_nat (length done) →
  ∃ junk', write_bytes (decoding done junk (e ++ todo) tail) i [x] = Ok (decoding (done ++ [x]) junk' todo tail) ∧
    (S (length junk') = length junk + length e)%nat.
Proof.
  intros He ->. unfold decoding. rewrite fmap_app, <-(assoc_L (++)).
  assert (∃ c J, junk ++ (Some <$> e) = c :: J) as (c & J & EJ).
  { destruct junk as [|c junk]; [|by eexists _, _]. destruct e as [|x0 e]; [done|by eexists _, _]. }
  exists J. split.
  - rewrite (assoc_L (++) junk), EJ. cbn [app].
    pose proof (wr_app (Some <$> done) c (J ++ (Some <$> todo) ++ Some 0 :: tail) (Z.of_nat (length done)) x) as E.
    unfold wr in E. rewrite E by (by rewrite length_fmap). by rewrite fmap_app, <-(assoc_L (++)).
  - apply (f_equal length) in EJ. rewrite length_app, length_fmap in EJ. cbn in EJ. lia.
Qed.

Section decode.
Context (tail : block).

Lemma decode_print_spec v n done junk c1 c2 last :
  Forall is_byte v → c1 = Z.of_nat (length done) → c2 = Z.of_nat (length done + length junk) →
  last = c2 + Z.of_nat (length (concat (escape <$> v))) → (length (concat (escape <$> v)) < n)%nat →
  ∃ junk', decode_print n (decoding done junk (concat (escape <$> v)) tail) c1 c2 last
    = Ok (Some (decoding (done ++ v) junk' [] tail, Z.of_nat (length (done ++ v)))) ∧
    (length junk' + length v = length junk + length (concat (escape <$> v)))%nat.
Proof.
  intros Hv. revert n done junk c1 c2. induction Hv as [|c v Hc _ IH]; intros n done junk c1 c2 -> -> -> Hn;
    (destruct n as [|n]; [lia|]); cbn [decode_print].
  { rewrite (proj2 (Z.ltb_ge _ _)) by (cbn; lia). exists junk. split; [by rewrite app_nil_r|done]. }
  cbn [fmap list_fmap concat] in *. change (list_fmap Z (list Z) escape v) with (escape <$> v) in *.
  set (todo := concat (escape <$> v)) in *. rewrite length_app in *.
  assert (Hpos : (0 < length (escape c))%nat) by (unfold escape; repeat case_match; cbn; lia).
  rewrite (proj2 (Z.ltb_lt _ _)) by lia.
  (* one character is decoded, whatever its encoding *)
  assert (Hgo : ∀ e c2', escape c = e → c2' = Z.of_nat (length done + length junk + length e) →
    ∃ junk', (b ← write_bytes (decoding done junk (e ++ todo) tail) (Z.of_nat (length done)) [c];
              decode_print n b (Z.of_nat (length done) + 1) c2'
                (Z.of_nat (length done + length junk) + Z.of_nat (length e + length todo)))
      = Ok (Some (decoding (done ++ c :: v) junk' [] tail, Z.of_nat (length (done ++ c :: v)))) ∧
      (length junk' + S (length v) = length junk + (length e + length todo))%nat).
  { intros e c2' <- ->. destruct (decoding_write done junk (escape c) todo tail c (Z.of_nat (length done))) as (J & -> & HJ);
      [intros He; rewrite He in Hpos; cbn in Hpos; lia|done|]. cbn [mbind res_bind].
    destruct (IH n (done ++ [c]) J (Z.of_nat (length done) + 1) (Z.of_nat (length done + length junk + length (escape c))))
      as (J' & E' & HJ'); [rewrite length_line; lia|rewrite length_line; lia|lia|lia|].
    exists J'. rewrite <-(assoc_L (++)) in E'. cbn [app] in E'. split; [rewrite <-E'; f_equal; lia|lia]. }
  assert (Hcase : escape c = [c] ∧ c ≠ 92 ∨ c = 92 ∧ escape c = [92; 92] ∨ escape c = 92 :: hex c).
  { unfold escape. destruct (isprint c); [|auto]. destruct (Z.eqb_spec c 92) as [->|]; auto. }
  destruct Hcase as [[He Hne]|[[-> He]|He]]; rewrite He in *; cbn [length app] in *.
  - rewrite (decoding_read 0 c _ _ _ _ (Z.of_nat (length done + length junk))) by (done || lia). cbn [mbind res_bind].
    rewrite (proj2 (Z.eqb_neq c 92)) by done. apply (Hgo [c]); [done|cbn; lia].
  - rewrite (decoding_read 0 92 _ _ _ _ (Z.of_nat (length done + length junk))) by (done || lia). cbn [mbind res_bind].
    change (92 =? 92) with true. cbn match.
    rewrite (decoding_read 1 92 _ _ _ _ (Z.of_nat (length done + length junk) + 1)) by (done || lia). cbn [mbind res_bind].
    change (92 =? 92) with true. cbn match. apply (Hgo [92; 92]); [done|cbn; lia].
  - destruct (hex_digits c Hc) as (a & b & Eh & Ha & Hb & Hne & Hu & _). rewrite Eh in *. cbn [length app] in *.
    rewrite (decoding_read 0 92 _ _ _ _ (Z.of_nat (length done + length junk))) by (done || lia).
    cbn [mbind res_bind]. change (92 =? 92) with true. cbn match.
    rewrite (decoding_read 1 a _ _ _ _ (Z.of_nat (length done + length junk) + 1)) by (done || lia).
    cbn [mbind res_bind]. rewrite (proj2 (Z.eqb_neq a 92)) by done. rewrite (proj2 (Z.ltb_ge _ _)) by lia.
    rewrite Ha. cbn [negb].
    rewrite (decoding_read 2 b _ _ _ _ (Z.of_nat (length done + length junk) + 2)) by (done || lia).
    cbn [mbind res_bind]. rewrite Hb, Hu. cbn [negb]. apply (Hgo [92; a; b]); [done|cbn; lia].
Qed.

Lemma decode_hex_spec v n done junk c1 c2 last :
  Forall is_byte v → c1 = Z.of_nat (length done) → c2 = Z.of_nat (length done + length junk) →
  last = c2 + Z.of_nat (length (concat (hex <$> v))) → (length (concat (hex <$> v)) < n)%nat →
  ∃ junk', decode_hex n (decoding done junk (concat (hex <$> v)) tail) c1 c2 last
    = Ok (Some (decoding (done ++ v) junk' [] tail, Z.of_nat (length (done ++ v)))) ∧
    (length junk' + length v = length junk + length (concat (hex <$> v)))%nat.
Proof.
  intros Hv. revert n done junk c1 c2. induction Hv as [|c v Hc _ IH]; intros n done junk c1 c2 -> -> -> Hn;
    (destruct n as [|n]; [lia|]); cbn [decode_hex].
  { rewrite (proj2 (Z.ltb_ge _ _)) by (cbn; lia). exists junk. split; [by rewrite app_nil_r|done]. }
  cbn [fmap list_fmap concat] in *. change (list_fmap Z (list Z) hex v) with (hex <$> v) in *.
  set (todo := concat (hex <$> v)) in *.
  destruct (hex_digits c Hc) as (a & b & Eh & Ha & Hb & _ & Hu & _). rewrite Eh in *. cbn [length app] in *.
  rewrite (proj2 (Z.ltb_lt _ _)) by lia.
  rewrite (decoding_read 0 a _ _ _ _ (Z.of_nat (length done + length junk))) by (done || lia).
  cbn [mbind res_bind]. rewrite Ha. cbn [negb].
  rewrite (decoding_read 1 b _ _ _ _ (Z.of_nat (length done + length junk) + 1)) by (done || lia).
  cbn [mbind res_bind]. rewrite Hb, Hu. cbn [negb].
  change (a :: b :: todo) with ([a; b] ++ todo).
  destruct (decoding_write done junk [a; b] todo tail c (Z.of_nat (length done))) as (J & -> & HJ); [done|done|].
  cbn [mbind res_bind length] in *.
  destruct (IH n (done ++ [c]) J (Z.of_nat (length done) + 1) (Z.of_nat (length done + length junk) + 2))
    as (J' & E' & HJ'); [rewrite length_line; lia|rewrite length_line; lia|lia|lia|].
  exists J'. rewrite <-(assoc_L (++)) in E'. cbn [app] in E'. split; [rewrite <-E'; f_equal; lia|lia].
Qed.
End decode.

(** What the dump prints for a value, without the space and the newline. *)
Definition encode (mode : Z) (v : bytes) : bytes :=
  concat ((if has_flag mode PRINT then escape else hex) <$> v).

Lemma encode_line mode v : Forall is_byte v → is_line (encode mode v).
Proof. unfold encode. case_match; apply concat_line; [apply escape_line|apply hex_line]. Qed.

Lemma put_val_encode mode v : put_val mode v = 32 :: encode mode v ++ [10].
Proof. unfold put_val, encode. by case_match. Qed.

Lemma hex_even v : Forall is_byte v → has_flag (Z.of_nat (length (concat (hex <$> v)))) 1 = false.
Proof.
  intros Hv. assert (length (concat (hex <$> v)) = 2 * length v)%nat as ->.
  { induction Hv as [|c v _ _ IH]; [done|]. cbn. change (list_fmap Z (list Z) hex v) with (hex <$> v). lia. }
  change 1 with (2 ^ 0). rewrite has_flag_pow2 by lia. rewrite Nat2Z.inj_mul. change (Z.of_nat 2) with 2.
  apply Z.testbit_even_0.
Qed.

(** A line of data is read and decoded, however short the buffer was. *)
Lemma read_value_decodes lo mode v rest line d :
  2 ≤ lo → Forall is_byte v → (length (encode mode v) + 2 ≤ Z.to_nat (2 ^ 29))%nat → buf_ok lo d →
  ∃ d', read_value true mode (encode mode v ++ 10 :: rest) line d
        = Ok (MkLine 0 v rest false (u64 (line + 1)) d') ∧ buf_ok lo d'.
Proof.
  intros Hlo Hv Hlen Hd. pose proof (encode_line mode v Hv) as Hl. set (l := encode mode v) in *.
  pose proof Hd as [[Hd1 Hd2] Hd3]. unfold big in Hd2. unfold read_value.
  pose proof (fgets_line l rest [] (b_data d) 0 (b_size d) (proj1 Hl) eq_refl ltac:(lia) ltac:(lia)) as Ef.
  cbn zeta in Ef. cbn [app] in Ef. rewrite Ef. clear Ef. cbn [mbind res_bind].
  set (p := take (Z.to_nat (b_size d - 1)) (l ++ [10])).
  assert (Hp : length p = (Z.to_nat (b_size d - 1) `min` S (length l))%nat)
    by (unfold p; by rewrite length_take, length_line).
  assert (Es : strlen ((Some <$> p ++ [0]) ++ drop (S (length p)) (b_data d)) 0 = Ok (Z.of_nat (length p))).
  { unfold strlen. change (Z.to_nat 0) with 0%nat. rewrite drop_0. unfold p at 1.
    by rewrite c_str_part by (by apply is_line_nul). }
  rewrite Es. cbn [mbind res_bind].
  destruct (grow_line_spec lo (S (length (drop (length p) (l ++ [10]) ++ rest))) l rest
    (MkBuf (b_size d) ((Some <$> p ++ [0]) ++ drop (S (length p)) (b_data d))) 0 (Z.of_nat (length p)) (length p))
    as (d' & E & Hd' & tail & Htail); try done; try lia.
  { split; [split; [done|unfold big; cbn; lia]|]. cbn. rewrite length_app, length_fmap, length_app, length_drop. cbn. lia. }
  { exists (drop (S (length p)) (b_data d)). cbn. do 3 f_equal. unfold p. by rewrite take_length_take. }
  { destruct (decide (Z.to_nat (b_size d - 1) < S (length l))%nat); [right; cbn; lia|left; lia]. }
  { rewrite length_app, length_drop, length_line. lia. }
  rewrite E. cbn [mbind res_bind]. clear E Es.
  replace (Z.of_nat (length l + 1) - 1) with (Z.of_nat (length l)) by lia. rewrite (u64_small (Z.of_nat (length l))) by lia.
  rewrite take_ge in Htail by (rewrite length_line; lia).
  assert (Ew : write_bytes (b_data d') (Z.of_nat (length l)) [0] = Ok (decoding [] [] l (Some 0 :: tail))).
  { rewrite Htail, !fmap_app, <-!(assoc_L (++)).
    pose proof (wr_app (Some <$> l) (Some 10) ((Some <$> [0]) ++ tail) (Z.of_nat (length l)) 0) as Ew.
    unfold wr in Ew. cbn [fmap list_fmap app] in *. rewrite Ew by (by rewrite length_fmap). done. }
  rewrite Ew. cbn [mbind res_bind]. clear Ew.
  assert (Edec : ∃ J, (if has_flag mode PRINT then decode_print (S (Z.to_nat (Z.of_nat (length l)))) (decoding [] [] l (Some 0 :: tail)) 0 0 (Z.of_nat (length l))
     else if has_flag (Z.of_nat (length l)) 1 then Ok None
     else decode_hex (S (Z.to_nat (Z.of_nat (length l)))) (decoding [] [] l (Some 0 :: tail)) 0 0 (Z.of_nat (length l)))
    = Ok (Some (decoding v J [] (Some 0 :: tail), Z.of_nat (length v))) ∧ (length J + length v = length l)%nat).
  { rewrite Nat2Z.id. unfold l, encode. destruct (has_flag mode PRINT).
    - apply (decode_print_spec (Some 0 :: tail) v _ [] []); [done|done|done|lia|lia].
    - rewrite hex_even by done. apply (decode_hex_spec (Some 0 :: tail) v _ [] []); [done|done|done|lia|lia]. }
  destruct Edec as (J & -> & HJ). cbn [mbind res_bind].
  assert (Ec : cells_val (decoding v J [] (Some 0 :: tail)) (Z.of_nat (length v)) = Ok v).
  { unfold cells_val, decoding. rewrite Nat2Z.id, take_app_le, take_ge by (rewrite length_fmap; lia).
    assert (mapM id (Some <$> v) = Some v) as ->.
    { apply mapM_Some. rewrite Forall2_fmap_l. apply Forall2_same_length_lookup_2; [done|].
      intros i x y Hx Hy. rewrite Hx in Hy. by injection Hy as ->. }
    by rewrite (proj2 (Z.leb_le _ _)) by (rewrite length_app, length_fmap; lia). }
  rewrite Ec. cbn [mbind res_bind]. eexists. split; [done|].
  destruct Hd' as [Hs Hb]. split; [done|]. cbn [b_size b_data]. rewrite Htail in Hb. unfold decoding.
  rewrite !length_app, !length_fmap, !length_app in *. cbn in *. lia.
Qed.

(** ** A value *)

(** A value that the tools can carry: its line stays below half of what an [int] counts. *)
Definition value_ok (v : bytes) : Prop := Forall is_byte v ∧ (3 * length v + 2 ≤ Z.to_nat (2 ^ 29))%nat.

Lemma length_encode mode v : (length (encode mode v) ≤ 3 * length v)%nat.
Proof.
  unfold encode. set (f := if has_flag mode PRINT then escape else hex).
  assert (Hf : ∀ c, (length (f c) ≤ 3)%nat).
  { intros c. unfold f, escape. repeat case_match; cbn; lia. }
  induction v as [|c v IH]; [done|]. cbn [fmap list_fmap concat]. rewrite length_app. cbn [length].
  specialize (Hf c). change (list_fmap Z (list Z) f v) with (f <$> v). lia.
Qed.

Lemma readline_decodes lo mode v rest line d :
  2 ≤ lo → has_flag mode NOHDR = false → value_ok v → buf_ok lo d →
  ∃ d', readline true mode (put_val mode v ++ rest) line d = Ok (MkLine 0 v rest false (u64 (line + 1)) d') ∧
    buf_ok lo d'.
Proof.
  intros Hlo Hm [Hv Hl] Hd. rewrite put_val_encode. unfold readline. rewrite Hm. cbn [app].
  change (32 =? 32) with true. cbn match. rewrite <-(assoc_L (++)).
  apply read_value_decodes; try done. pose proof (length_encode mode v). lia.
Qed.

(** The line behind the last entry, and the end of the input. *)
Lemma readline_data_end lo mode rest line d :
  9 ≤ lo → has_flag mode NOHDR = false → buf_ok lo d →
  ∃ d', readline true mode (lit "DATA=END" ++ 10 :: rest) line d = Ok (line_eof rest false (u64 (line + 1)) d') ∧
    buf_ok lo d'.
Proof.
  intros Hlo Hm [[Hd1 Hd2] Hd3]. unfold big in Hd2. unfold readline. rewrite Hm.
  change (lit "DATA=END" ++ 10 :: rest) with (68 :: lit "ATA=END" ++ 10 :: rest).
  change (68 =? 32) with false. cbn match.
  assert (Hl : 10 ∉ lit "ATA=END") by (vm_compute; set_solver).
  pose proof (fgets_line (lit "ATA=END") rest [] (b_data d) 0 (b_size d) Hl eq_refl ltac:(lia) ltac:(lia)) as E.
  rewrite take_ge in E by (cbn; lia). cbn zeta in E. rewrite drop_ge in E by done. cbn [app] in E. rewrite E.
  cbn [mbind res_bind]. rewrite (c_str_part (lit "ATA=END" ++ [10]) 8).
  - eexists. split; [done|]. split; [done|]. cbn [b_data b_size].
    rewrite length_app, length_fmap, length_drop, !length_app. cbn. lia.
  - vm_compute. set_solver.
Qed.

Lemma readline_at_end mode line d :
  has_flag mode NOHDR = false → readline true mode [] line d = Ok (line_eof [] true line d).
Proof. intros Hm. unfold readline. by rewrite Hm. Qed.
