(* ===== verification/ToolRound.v ===== *)
(** * The tools of LMDB: loading a dump

    What [dumpit] prints for a tree, [main] of the load tool reads back: it stores
    exactly the entries of the tree, in their order.  And where the tools go wrong. *)

From S2P Require Import Prelude.
From S2P Require Import Lmdb Midl Page PageProps Tree TreeProps Cursor CursorProps CursorSpec Reads Dump Load ToolProps.

Abbreviation entries := (list (bytes * bytes)).

(** ** Entries *)

Definition row (mode : Z) (kv : bytes * bytes) : bytes := put_val mode kv.1 ++ put_val mode kv.2.
Definition rows (mode : Z) (es : entries) : bytes := concat (row mode <$> es).
Definition row_ok (kv : bytes * bytes) : Prop := value_ok kv.1 ∧ value_ok kv.2.

Lemma rows_cons mode kv es : rows mode (kv :: es) = row mode kv ++ rows mode es.
Proof. done. Qed.

(** The entries that a trace stores, and the databases that it opens. *)
Definition put_of (c : Call) : option (bytes * bytes) :=
  match c with CursorPut k d _ => Some (k, d) | _ => None end.
Definition open_of (c : Call) : option (option bytes * Z) :=
  match c with DbOpen n f => Some (n, f) | _ => None end.
Definition puts (tr : list Call) : entries := omap put_of tr.
Definition opens (tr : list Call) : list (option bytes * Z) := omap open_of tr.

Lemma omap_snoc {A B} (f : A → option B) c tr : omap f (reverse (c :: tr)) = omap f (reverse tr) ++ option_list (f c).
Proof. rewrite reverse_cons, omap_app. done. Qed.

Lemma puts_snoc c tr : puts (reverse (c :: tr)) = puts (reverse tr) ++ option_list (put_of c).
Proof. apply omap_snoc. Qed.
Lemma opens_snoc c tr : opens (reverse (c :: tr)) = opens (reverse tr) ++ option_list (open_of c).
Proof. apply omap_snoc. Qed.

(** The options and the header of the program, and its buffers. *)
Definition header_of (s : Load) : Z * Z * Z * option bytes * Z * Z * Z :=
  (mode s, flags s, version s, subname s, mapaddr s, mapsize s, maxreaders s).
Definition bufs_ok (s : Load) : Prop := buf_ok 9 (kbuf s) ∧ buf_ok 9 (dbuf s).

Section load.
Context (scan_p : bytes → option Z) (putflags : Z) (answer : list Call → Call → Z).
Context (Hans : ∀ tr c, answer tr c = 0).

Lemma calls_all tr cs : calls answer tr cs = (0, Go, reverse cs.*1 ++ tr).
Proof using Hans.
  revert tr. induction cs as [|[c g] cs IH]; intros tr; [done|].
  cbn [calls]. rewrite Hans. cbn [negb Z.eqb]. rewrite IH. cbn [fmap list_fmap fst].
  by rewrite reverse_cons, <-(assoc_L (++)).
Qed.

Lemma calls_one tr c g : calls answer tr [(c, g)] = (0, Go, c :: tr).
Proof using Hans. by rewrite calls_all. Qed.

Lemma calls_three tr c1 c2 c3 g1 g2 g3 : calls answer tr [(c1, g1); (c2, g2); (c3, g3)] = (0, Go, c3 :: c2 :: c1 :: tr).
Proof using Hans. by rewrite calls_all. Qed.

(** The state after [put_loop] went over the rows [es]. *)
Definition stored (s : Load) (tr : list Call) (es : entries) (rest : bytes) (s' : Load) (tr' : list Call) : Prop :=
  input s' = rest ∧ header_of s' = header_of s ∧ bufs_ok s' ∧
  puts (reverse tr') = puts (reverse tr) ++ es ∧ opens (reverse tr') = opens (reverse tr).

Lemma put_loop_row fuel batch s tr kv rest :
  has_flag (mode s) NOHDR = false → bufs_ok s → row_ok kv → input s = row (mode s) kv ++ rest →
  ∃ batch' s' tr', put_loop true putflags answer (S fuel) batch s tr = put_loop true putflags answer fuel batch' s' tr' ∧
    stored s tr [kv] rest s' tr' ∧ Eof s' = Eof s.
Proof using Hans.
  intros Hm [Hk Hd] [Hkv1 Hkv2] Hin. unfold row in Hin. rewrite <-(assoc_L (++)) in Hin.
  destruct (readline_decodes 9 (mode s) kv.1 (put_val (mode s) kv.2 ++ rest) (lineno s) (kbuf s)) as (k' & E1 & Hk');
    [lia|done..|].
  destruct (readline_decodes 9 (mode s) kv.2 rest (u64 (lineno s + 1)) (dbuf s)) as (d' & E2 & Hd'); [lia|done..|].
  cbn [put_loop]. unfold read_key, read_data. rewrite Hin, E1. cbn [mbind res_bind ln_rc ln_val ln_input ln_Eof ln_lineno ln_buf].
  cbn [negb Z.eqb]. cbn [mode input lineno dbuf set_input kbuf Eof]. rewrite E2.
  cbn [mbind res_bind ln_rc ln_val ln_input ln_Eof ln_lineno ln_buf]. cbn [negb Z.eqb]. rewrite Hans.
  cbn [negb Z.eqb]. change (0 =? MDB_KEYEXIST) with false. cbn [andb].
  set (s' := set_input _ _ _ _ _ _). assert (Hs' : bufs_ok s') by done.
  destruct (batch + 1 =? 100).
  - rewrite calls_all. cbn [negb Z.eqb]. eexists _, s', _. split; [done|]. split; [|unfold s'; cbn; by rewrite !orb_false_r].
    cbn [fmap list_fmap fst reverse app rev_append]. unfold stored. rewrite !puts_snoc, !opens_snoc. cbn.
    rewrite !app_nil_r. destruct kv. by split_and!.
  - eexists _, s', _. split; [done|]. split; [|unfold s'; cbn; by rewrite !orb_false_r].
    unfold stored. rewrite !puts_snoc, !opens_snoc. cbn. rewrite !app_nil_r. destruct kv. by split_and!.
Qed.

Lemma put_loop_rows es fuel batch s tr rest :
  has_flag (mode s) NOHDR = false → bufs_ok s → Forall row_ok es → (length es < fuel)%nat →
  input s = rows (mode s) es ++ lit "DATA=END" ++ 10 :: rest →
  ∃ s' tr', put_loop true putflags answer fuel batch s tr = Ok (EOF, Go, s', tr') ∧
    stored s tr es rest s' tr' ∧ Eof s' = Eof s.
Proof using Hans.
  intros Hm Hb Hes. revert fuel batch s tr Hm Hb.
  induction Hes as [|kv es Hkv _ IH]; intros fuel batch s tr Hm Hb Hf Hin; (destruct fuel as [|fuel]; [cbn in Hf; lia|]).
  - destruct Hb as [Hk Hd]. cbn [put_loop]. unfold read_key. cbn [rows fmap list_fmap concat app] in Hin. rewrite Hin.
    destruct (readline_data_end 9 (mode s) rest (lineno s) (kbuf s)) as (k' & E & Hk'); [lia|done..|].
    change (rows (mode s) [] ++ lit "DATA=END" ++ 10 :: rest) with (lit "DATA=END" ++ 10 :: rest). rewrite E.
    cbn [mbind res_bind ln_rc ln_val ln_input ln_Eof ln_lineno ln_buf line_eof]. change (negb (EOF =? 0)) with true.
    cbn match. eexists _, _. split; [done|]. split; [|cbn; by rewrite orb_false_r].
    unfold stored. rewrite app_nil_r. by split_and!.
  - rewrite rows_cons, <-(assoc_L (++)) in Hin.
    destruct (put_loop_row fuel batch s tr kv _ Hm Hb Hkv Hin) as (batch1 & s1 & tr1 & -> & (Hin1 & Hh1 & Hb1 & Hp1 & Ho1) & He1).
    assert (Hm1 : mode s1 = mode s) by (by injection Hh1).
    destruct (IH fuel batch1 s1 tr1) as (s' & tr' & E & (Hin' & Hh' & Hb' & Hp' & Ho') & He').
    + by rewrite Hm1.
    + done.
    + cbn in Hf. lia.
    + by rewrite Hm1.
    + exists s', tr'. split; [done|]. split; [|congruence]. unfold stored. split_and!; try done; [congruence| |congruence].
      by rewrite Hp', Hp1, <-(assoc_L (++)).
Qed.

(** The input has ended. *)
Lemma put_loop_at_end fuel batch s tr :
  has_flag (mode s) NOHDR = false → input s = [] →
  put_loop true putflags answer (S fuel) batch s tr = Ok (EOF, Go, set_input s [] true (lineno s) (kbuf s) (dbuf s), tr).
Proof using Type.
  intros Hm Hin. cbn [put_loop]. unfold read_key. rewrite Hin, readline_at_end by done.
  cbn [mbind res_bind ln_rc ln_val ln_input ln_Eof ln_lineno ln_buf line_eof]. by rewrite orb_true_r.
Qed.
End load.

(** ** Numbers *)

Definition all_digits (s : bytes) : Prop := Forall (λ c, isdigit c = true) s.

Lemma dec_digits_spec n z acc :
  0 ≤ z < 10 ^ Z.of_nat n → (0 < n)%nat →
  ∃ ds, dec_digits n z acc = ds ++ acc ∧ ds ≠ [] ∧ all_digits ds ∧
    ∀ a s, all_digits s → dec_val a (ds ++ s) = dec_val (a * 10 ^ Z.of_nat (length ds) + z) s.
Proof.
  revert z acc. induction n as [|n IH]; intros z acc Hz Hn; [lia|]. cbn [dec_digits].
  assert (Hd : isdigit (48 + z mod 10) = true).
  { pose proof (Z.mod_pos_bound z 10). unfold isdigit. apply andb_true_iff. split; apply Z.leb_le; lia. }
  destruct (Z.ltb_spec z 10) as [Hlt|Hge].
  - exists [48 + z mod 10]. split_and!; [done|done|by repeat constructor|]. intros a s _. cbn [app dec_val length].
    rewrite Hd, Z.mod_small by lia. f_equal. lia.
  - rewrite Nat2Z.inj_succ, Z.pow_succ_r in Hz by lia.
    destruct (IH (z / 10) ((48 + z mod 10) :: acc)) as (ds & -> & Hne & Hds & Hv).
    { split; [apply Z.div_pos; lia|]. apply Z.div_lt_upper_bound; lia. }
    { destruct n; [cbn in Hz; lia|lia]. }
    exists (ds ++ [48 + z mod 10]). split_and!.
    + by rewrite <-(assoc_L (++)).
    + by destruct ds.
    + apply Forall_app. split; [done|by repeat constructor].
    + intros a s Hs. rewrite <-(assoc_L (++)), Hv by (by constructor). cbn [app dec_val]. rewrite Hd. f_equal.
      rewrite length_line, Nat2Z.inj_succ, Z.pow_succ_r by lia. pose proof (Z.div_mod z 10). lia.
Qed.

Lemma dec_spec z :
  0 ≤ z < 2 ^ 64 → ∃ c s, dec z = c :: s ∧ all_digits (c :: s) ∧ dec_val 0 (c :: s) = z.
Proof.
  intros Hz. destruct (dec_digits_spec 20 z []) as (ds & E & Hne & Hds & Hv); [lia|lia|].
  specialize (Hv 0 [] ltac:(constructor)). rewrite app_nil_r in *. unfold dec. rewrite E.
  destruct ds as [|c s]; [done|]. exists c, s. split_and!; [done|done|]. by rewrite Hv.
Qed.

Lemma scan_dec_dec z : 0 ≤ z < 2 ^ 64 → scan_dec (dec z) = Some z.
Proof.
  intros Hz. destruct (dec_spec z Hz) as (c & s & -> & Hds & Hv). apply Forall_cons_1 in Hds as [Hc _].
  unfold scan_dec. assert (isspace c = false ∧ c ≠ 45 ∧ c ≠ 43) as (Hsp & H45 & H43).
  { unfold isdigit in Hc. unfold isspace. apply andb_true_iff in Hc as [?%Z.leb_le ?%Z.leb_le].
    split; [|lia]. apply orb_false_iff. split; [apply Z.eqb_neq; lia|]. apply andb_false_iff. right. apply Z.leb_gt. lia. }
  cbn [skip_space]. rewrite Hsp. rewrite (proj2 (Z.eqb_neq c 45)), (proj2 (Z.eqb_neq c 43)) by done.
  by rewrite Hc, Hv.
Qed.

Lemma scan_u_dec w z : 0 ≤ z < 2 ^ w → w ≤ 64 → scan_u w (dec z) = Ok (Some z).
Proof.
  intros Hz Hw. assert (2 ^ w ≤ 2 ^ 64) by (apply Z.pow_le_mono_r; lia).
  unfold scan_u. rewrite scan_dec_dec by lia.
  rewrite (proj2 (Z.ltb_lt _ _)), (proj2 (Z.ltb_lt _ _)) by lia. cbn [andb]. by rewrite Z.mod_small.
Qed.

Lemma dec_line z : 0 ≤ z < 2 ^ 64 → is_line (dec z).
Proof.
  intros Hz. destruct (dec_spec z Hz) as (c & s & -> & Hds & _).
  split; intros H; eapply Forall_forall in Hds; try done; discriminate.
Qed.

Lemma length_dec z : (length (dec z) ≤ 20)%nat.
Proof.
  unfold dec. assert (∀ n z acc, length (dec_digits n z acc) ≤ n + length acc)%nat as H.
  { clear. induction n as [|n IH]; intros z acc; cbn [dec_digits]; [lia|]. destruct (z <? 10); [cbn; lia|].
    etransitivity; [apply IH|]. cbn. lia. }
  etransitivity; [apply H|]. cbn. lia.
Qed.

(** ** The header *)

Lemma memchr_line l c tail n i :
  c ∉ l → (length l < n)%nat → memchr ((Some <$> l) ++ Some c :: tail) c n i = Ok (Some (i + length l)%nat).
Proof.
  revert n i. induction l as [|x l IH]; intros [|n] i Hc Hn; cbn in Hn; try lia; cbn [memchr fmap list_fmap app length].
  - rewrite Z.eqb_refl. by rewrite Nat.add_0_r.
  - rewrite (proj2 (Z.eqb_neq x c)) by set_solver. change (list_fmap Z (option Z) Some l) with (Some <$> l).
    rewrite IH by (set_solver || lia). do 2 f_equal. lia.
Qed.

(** The buffer [d] holds the line [l]. *)
Definition holds_line (l : bytes) (d : Buf) : Prop :=
  buf_ok 4096 d ∧ (length l ≤ 4000)%nat ∧ is_line l ∧ ∃ tail, b_data d = (Some <$> (l ++ [10]) ++ [0]) ++ tail.

Lemma holds_c_str l d : holds_line l d → c_str (b_data d) = Ok (l ++ [10]).
Proof.
  intros (_ & _ & Hl & tail & ->). rewrite fmap_app, <-(assoc_L (++)). apply c_str_app. by apply is_line_nul.
Qed.

(** A character of the line is replaced by a NUL byte. *)
Lemma cut_at l d c l1 l2 :
  holds_line l d → l ++ [10] = l1 ++ c :: l2 → c ∉ l1 →
  ∃ b, memchr (b_data d) c (Z.to_nat (b_size d)) 0 = Ok (Some (length l1)) ∧
    write_bytes (b_data d) (Z.of_nat (length l1)) [0] = Ok b ∧ c_str b = Ok l1 ∧ buf_ok 4096 (MkBuf (b_size d) b).
Proof.
  intros ([[Hd1 Hd2] Hd3] & Hlen & Hline & tail & Hb) El Hc. pose proof (is_line_nul l Hline) as Hnul.
  assert (Hl1 : (length l1 ≤ 4000)%nat).
  { apply (f_equal length) in El. rewrite length_line, length_app in El. cbn in El. lia. }
  rewrite El in *. rewrite fmap_app, <-(assoc_L (++)), fmap_app in Hb. cbn [fmap list_fmap] in Hb.
  change (list_fmap Z (option Z) Some l2) with (Some <$> l2) in Hb.
  exists ((Some <$> l1) ++ Some 0 :: (Some <$> l2) ++ [Some 0] ++ tail).
  rewrite Hb, <-(assoc_L (++)). cbn [app]. split; [|split; [|split]].
  - rewrite memchr_line by (done || lia). done.
  - pose proof (wr_app (Some <$> l1) (Some c) ((Some <$> l2) ++ Some 0 :: tail) (Z.of_nat (length l1)) 0) as E.
    unfold wr in E. rewrite E by (by rewrite length_fmap). done.
  - apply c_str_app. intros H. apply Hnul, elem_of_app. by left.
  - split; [done|]. cbn. rewrite Hb in Hd3. rewrite !length_app in *. cbn in *. rewrite ?length_app, ?length_fmap in *.
    cbn in *. lia.
Qed.

Lemma rest_of_line name v d :
  holds_line (lit name ++ v) d → ∃ d', rest_of d name = Ok (v, d') ∧ buf_ok 4096 d'.
Proof.
  intros Hd. destruct (cut_at _ _ 10 (lit name ++ v) [] Hd eq_refl) as (b & E1 & E2 & E3 & Hb); [apply Hd|].
  exists (MkBuf (b_size d) b). split; [|done]. unfold rest_of, cut_line. rewrite E1. cbn [mbind res_bind]. rewrite E2.
  cbn [mbind res_bind b_data]. rewrite E3. cbn [mbind res_bind]. by rewrite drop_app_length.
Qed.

Lemma is_line_app l1 l2 : is_line l1 → is_line l2 → is_line (l1 ++ l2).
Proof. intros [? ?] [? ?]. split; rewrite elem_of_app; naive_solver. Qed.

Section header.
Context (scan_p : bytes → option Z).

Definition Hdr : Type := Z * Z * Z * option bytes * Z * Z * Z.
Definition put_header (s : Load) (h : Hdr) : Load :=
  let '(m, f, v, n, a, size, r) := h in set_header s m f v n a size r.

(** What a line does to the header. *)
Definition line_does (l : bytes) (f : Hdr → Hdr) : Prop :=
  ∀ s, holds_line l (dbuf s) →
    ∃ d, hdr_line scan_p s = Ok (HNext (set_dbuf (put_header s (f (header_of s))) d)) ∧ buf_ok 4096 d.

(** The comparisons of a line with the names come out by computation. *)
Ltac names :=
  repeat match goal with
  | |- context [starts_with ?p ?l] =>
      first [change (starts_with p l) with false | change (starts_with p l) with true]; cbn match
  end.
Ltac line s Hs := intros s Hs; unfold hdr_line; rewrite (holds_c_str _ _ Hs); cbn [mbind res_bind]; names.
(** The line only changes the header, or nothing. *)
Ltac same_buf s Hs := exists (dbuf s); split; [by destruct s|exact (proj1 Hs)].

Lemma does_version : line_does (lit "VERSION=3") (λ '(m, f, _, n, a, size, r), (m, f, 3, n, a, size, r)).
Proof using Type.
  line s Hs. change (atoi _) with (Ok 3 : res Z). cbn [mbind res_bind]. change (3 <? 3) with false. same_buf s Hs.
Qed.

Lemma does_print : line_does (lit "format=print") (λ '(m, f, v, n, a, size, r), (set_flag m PRINT, f, v, n, a, size, r)).
Proof using Type. line s Hs. same_buf s Hs. Qed.

Lemma does_bytevalue : line_does (lit "format=bytevalue") id.
Proof using Type. line s Hs. same_buf s Hs. Qed.

Lemma does_type : line_does (lit "type=btree") id.
Proof using Type. line s Hs. same_buf s Hs. Qed.

Lemma does_database name :
  line_does (lit "database=" ++ name) (λ '(m, f, v, _, a, size, r), (m, f, v, Some name, a, size, r)).
Proof using Type.
  line s Hs. destruct (rest_of_line "database=" name (dbuf s) Hs) as (d & -> & Hd). cbn [mbind res_bind].
  exists d. split; [by destruct s|done].
Qed.

Lemma does_mapaddr text addr :
  scan_p text = Some addr →
  line_does (lit "mapaddr=" ++ text) (λ '(m, f, v, n, _, size, r), (m, f, v, n, addr, size, r)).
Proof using Type.
  intros Ha. line s Hs. destruct (rest_of_line "mapaddr=" text (dbuf s) Hs) as (d & -> & Hd). cbn [mbind res_bind].
  rewrite Ha. exists d. split; [by destruct s|done].
Qed.

Lemma does_mapsize size :
  0 ≤ size < 2 ^ 64 →
  line_does (lit "mapsize=" ++ dec size) (λ '(m, f, v, n, a, _, r), (m, f, v, n, a, size, r)).
Proof using Type.
  intros Hz. pose proof (scan_u_dec 64 size Hz ltac:(lia)) as E. revert E. generalize (dec size). intros text E.
  line s Hs. destruct (rest_of_line "mapsize=" text (dbuf s) Hs) as (d & -> & Hd). cbn [mbind res_bind].
  rewrite E. cbn [mbind res_bind]. exists d. split; [by destruct s|done].
Qed.

Lemma does_maxreaders r :
  0 ≤ r < 2 ^ 32 →
  line_does (lit "maxreaders=" ++ dec r) (λ '(m, f, v, n, a, size, _), (m, f, v, n, a, size, r)).
Proof using Type.
  intros Hz. pose proof (scan_u_dec 32 r Hz ltac:(lia)) as E. revert E. generalize (dec r). intros text E.
  line s Hs. destruct (rest_of_line "maxreaders=" text (dbuf s) Hs) as (d & -> & Hd). cbn [mbind res_bind].
  rewrite E. cbn [mbind res_bind]. exists d. split; [by destruct s|done].
Qed.

(** Lines that the program does not know, and the flags. *)
Lemma does_unknown name v :
  name ∈ ["duplicates"; "db_pagesize"]%string → line_does (lit name ++ 61 :: v) id.
Proof using Type.
  intros Hname s Hs. assert (name = "duplicates" ∨ name = "db_pagesize")%string as Hor.
  { apply elem_of_cons in Hname as [?|?%list_elem_of_singleton]; auto. }
  destruct (cut_at _ _ 61 (lit name) (v ++ [10]) Hs) as (b & E1 & E2 & _ & Hb).
  { by rewrite <-(assoc_L (++)). }
  { destruct Hor as [->| ->]; vm_compute; set_solver. }
  exists (MkBuf (b_size (dbuf s)) b). split; [|done].
  destruct Hor as [->| ->]; unfold hdr_line; rewrite (holds_c_str _ _ Hs); cbn [mbind res_bind]; names;
    change (flag_of _) with (None : option Z); cbn match; rewrite E1; cbn [mbind res_bind]; rewrite E2; by destruct s.
Qed.

Lemma does_flag f :
  f ∈ dbflags → line_does (f.2 ++ lit "=1") (λ '(m, fl, v, n, a, size, r), (m, set_flag fl f.1, v, n, a, size, r)).
Proof using Type.
  intros Hf. unfold dbflags in Hf. repeat (apply elem_of_cons in Hf as [->|Hf]; [|]).
  all: try (by apply elem_of_nil in Hf); cbn [fst snd]; line s Hs;
    match goal with |- context [flag_of ?l] => let x := eval vm_compute in (flag_of l) in change (flag_of l) with x end;
    same_buf s Hs.
Qed.

(** What the text [l] does to the header, when it is read line by line. *)
Definition reads (l : bytes) (f : Hdr → Hdr) : Prop :=
  ∃ n, (n ≤ length l)%nat ∧
  ∀ fuel s rest, input s = l ++ rest → buf_ok 4096 (dbuf s) →
    ∃ line d, buf_ok 4096 d ∧
      hdr_loop scan_p (n + fuel) s
      = hdr_loop scan_p fuel (set_input (put_header s (f (header_of s))) rest (Eof s) line (kbuf s) d).

Lemma hdr_round l s rest fuel :
  input s = l ++ 10 :: rest → is_line l → (length l ≤ 4000)%nat → buf_ok 4096 (dbuf s) →
  ∃ d, holds_line l d ∧
    let s1 := set_input s rest (Eof s) (u64 (lineno s + 1)) (kbuf s) d in
    hdr_loop scan_p (S fuel) s
    = (n ← hdr_line scan_p s1;
       match n with HExit => Ok (false, s1) | HEnd => Ok (true, s1) | HNext s => hdr_loop scan_p fuel s end).
Proof using Type.
  intros Hin Hl Hlen [[Hd1 Hd2] Hd3]. unfold big in Hd2.
  pose proof (fgets_line l rest [] (b_data (dbuf s)) 0 (b_size (dbuf s)) (proj1 Hl) eq_refl ltac:(lia) ltac:(lia)) as E.
  cbn zeta in E. cbn [app] in E. rewrite take_ge in E by (rewrite length_line; lia). rewrite drop_ge in E by done.
  eexists. split; [|cbn [hdr_loop]; rewrite Hin, E; cbn [mbind res_bind]; reflexivity].
  split; [|split; [done|split; [done|by eexists]]].
  split; [done|]. cbn. rewrite length_app, length_fmap, length_drop, !length_app. cbn. lia.
Qed.

Lemma reads_nil : reads [] id.
Proof using Type.
  exists 0%nat. split; [done|]. intros fuel s rest Hin Hd. exists (lineno s), (dbuf s). split; [done|].
  cbn [Nat.add]. f_equal. cbn [app] in Hin. subst rest. by destruct s.
Qed.

Lemma reads_line l f : is_line l → (length l ≤ 4000)%nat → line_does l f → reads (l ++ [10]) f.
Proof using Type.
  intros Hl Hlen Hf. exists 1%nat. rewrite length_line. split; [lia|]. intros fuel s rest Hin Hd.
  rewrite <-(assoc_L (++)) in Hin. destruct (hdr_round l s rest fuel Hin Hl Hlen Hd) as (d & Hline & E).
  destruct (Hf (set_input s rest (Eof s) (u64 (lineno s + 1)) (kbuf s) d) Hline) as (d' & E' & Hd').
  exists (u64 (lineno s + 1)), d'. split; [done|]. cbn [Nat.add]. rewrite E, E'. cbn [mbind res_bind].
  f_equal. change (header_of (set_input s rest (Eof s) (u64 (lineno s + 1)) (kbuf s) d)) with (header_of s).
  destruct (f (header_of s)) as [[[[[[? ?] ?] ?] ?] ?] ?]. done.
Qed.

Lemma reads_app l1 l2 f1 f2 : reads l1 f1 → reads l2 f2 → reads (l1 ++ l2) (f2 ∘ f1).
Proof using Type.
  intros (n1 & Hn1 & H1) (n2 & Hn2 & H2). exists (n1 + n2)%nat. rewrite length_app. split; [lia|].
  intros fuel s rest Hin Hd. rewrite <-(assoc_L (++)) in Hin.
  destruct (H1 (n2 + fuel)%nat s _ Hin Hd) as (line1 & d1 & Hd1 & E1).
  destruct (H2 fuel (set_input (put_header s (f1 (header_of s))) (l2 ++ rest) (Eof s) line1 (kbuf s) d1) rest)
    as (line2 & d2 & Hd2 & E2); [done|done|].
  exists line2, d2. split; [done|]. rewrite <-Nat.add_assoc, E1, E2. f_equal. unfold compose.
  assert (Eh : header_of (set_input (put_header s (f1 (header_of s))) (l2 ++ rest) (Eof s) line1 (kbuf s) d1) = f1 (header_of s))
    by (by destruct (f1 (header_of s)) as [[[[[[? ?] ?] ?] ?] ?] ?]).
  rewrite Eh. destruct (f1 (header_of s)) as [[[[[[? ?] ?] ?] ?] ?] ?] eqn:E.
  destruct (f2 _) as [[[[[[? ?] ?] ?] ?] ?] ?]. done.
Qed.

Lemma reads_if (b : bool) l f : (b = true → reads l f) → reads (if b then l else []) (if b then f else id).
Proof using Type. intros H. destruct b; [by apply H|apply reads_nil]. Qed.

(** A field of the header. *)
Lemma reads_field name v f :
  is_line (lit name ++ [61]) → (length (lit name) ≤ 90)%nat → is_line v → (length v ≤ 3900)%nat →
  line_does (lit name ++ 61 :: v) f → reads (field name v) f.
Proof using Type.
  intros Hn Hn' Hv Hv' Hf. unfold field.
  assert (E : lit name ++ 61 :: v = (lit name ++ [61]) ++ v) by (by rewrite <-(assoc_L (++))).
  replace (lit name ++ [61] ++ v ++ [10]) with ((lit name ++ 61 :: v) ++ [10]) by (by rewrite <-(assoc_L (++))).
  apply reads_line; [rewrite E; by apply is_line_app|rewrite length_app; cbn [length]; lia|done].
Qed.

(** The header of a dump. *)
Context (fmt_p : Z → bytes) (mode flags psize : Z) (info : MDB_envinfo) (name : option bytes).
Record header_fits : Prop := HeaderFits {
  hf_size : 0 ≤ me_mapsize info < 2 ^ 64;
  hf_readers : 0 ≤ me_maxreaders info < 2 ^ 32;
  hf_psize : 0 ≤ psize < 2 ^ 64;
  hf_addr : me_mapaddr info ≠ 0 →
    is_line (fmt_p (me_mapaddr info)) ∧ (length (fmt_p (me_mapaddr info)) ≤ 100)%nat ∧
    scan_p (fmt_p (me_mapaddr info)) = Some (me_mapaddr info);
  hf_name : ∀ n, name = Some n → is_line n ∧ (length n ≤ 3900)%nat }.

(** The flags that the lines of [fs] name. *)
Definition named_flags (fs : list (Z * bytes)) (acc : Z) : Z :=
  foldl (λ a f, if has_flag flags f.1 then set_flag a f.1 else a) acc fs.

Definition header_does (h : Hdr) : Hdr :=
  let '(m, f, _, n, a, _, _) := h in
  (if has_flag mode PRINT then set_flag m PRINT else m, named_flags dbflags f, 3,
   match name with Some n => Some n | None => n end,
   if me_mapaddr info =? 0 then a else me_mapaddr info, me_mapsize info, me_maxreaders info).

Ltac word := split; apply (bool_decide_unpack _); vm_compute; exact I.

Lemma reads_flags fs :
  (∀ f, f ∈ fs → f ∈ dbflags) →
  reads (concat ((λ f, if has_flag flags f.1 then f.2 ++ lit "=1" ++ [10] else []) <$> fs))
    (λ '(m, f, v, n, a, size, r), (m, named_flags fs f, v, n, a, size, r)).
Proof using Type.
  assert (Hext : ∀ l f g, (∀ h, f h = g h) → reads l f → reads l g).
  { intros l f g Hfg (n & Hn & H). exists n. split; [done|]. intros fuel s rest Hin Hd. rewrite <-Hfg. by apply H. }
  induction fs as [|f fs IH]; intros Hfs.
  - eapply Hext; [|apply reads_nil]. by intros [[[[[[? ?] ?] ?] ?] ?] ?].
  - cbn [fmap list_fmap concat]. eapply Hext; [|apply reads_app; [|apply IH; intros; apply Hfs; by right]].
    2: { apply (reads_if _ _ (λ '(m, fl, v, n, a, size, r), (m, set_flag fl f.1, v, n, a, size, r))). intros _.
         assert (Hf : f ∈ dbflags) by (apply Hfs; left). rewrite (assoc_L (++)).
         apply reads_line; [| |by apply does_flag]; clear -Hf; unfold dbflags in Hf;
           repeat (apply elem_of_cons in Hf as [->|Hf]; [|]); try (by apply elem_of_nil in Hf); try (cbn; lia); word. }
    intros [[[[[[? ?] ?] ?] ?] ?] ?]. unfold compose, named_flags. cbn [foldl]. by destruct (has_flag flags f.1).
Qed.

(** The header without its last line. *)
Definition header_body : bytes :=
  field "VERSION" (lit "3") ++
  field "format" (if has_flag mode PRINT then lit "print" else lit "bytevalue") ++
  (match name with Some n => field "database" n | None => [] end) ++
  field "type" (lit "btree") ++
  field "mapsize" (dec (me_mapsize info)) ++
  (if me_mapaddr info =? 0 then [] else field "mapaddr" (fmt_p (me_mapaddr info))) ++
  field "maxreaders" (dec (me_maxreaders info)) ++
  (if has_flag flags MDB_DUPSORT then field "duplicates" (lit "1") else []) ++
  flag_lines flags ++
  field "db_pagesize" (dec psize).

Lemma header_split : header fmt_p mode flags psize info name = header_body ++ lit "HEADER=END" ++ [10].
Proof using Type. unfold header, header_body. by rewrite <-!(assoc_L (++)). Qed.

Lemma reads_header : header_fits → ∃ f, (∀ h, f h = header_does h) ∧ reads header_body f.
Proof using Type.
  intros [Hsize Hr Hp Ha Hn]. unfold header_body.
  pose proof (length_dec (me_mapsize info)). pose proof (length_dec (me_maxreaders info)). pose proof (length_dec psize).
  eexists. split; cycle 1.
  - apply reads_app; [apply reads_field; [word|cbn; lia|word|cbn; lia|apply does_version]|].
    apply reads_app.
    { instantiate (1 := if has_flag mode PRINT then λ '(m, f, v, n, a, size, r), (set_flag m PRINT, f, v, n, a, size, r) else id). destruct (has_flag mode PRINT);
        (apply reads_field; [word|cbn; lia|word|cbn; lia|]); [apply does_print|apply does_bytevalue]. }
    apply reads_app.
    { instantiate (1 := match name with Some n => λ '(m, f, v, _, a, size, r), (m, f, v, Some n, a, size, r) | None => id end). destruct name as [n|]; [|apply reads_nil].
      destruct (Hn n eq_refl). apply reads_field; [word|cbn; lia|done|lia|].
      apply (does_database n). }
    apply reads_app; [apply reads_field; [word|cbn; lia|word|cbn; lia|apply does_type]|].
    apply reads_app.
    { apply reads_field; [word|cbn; lia|by apply dec_line|lia|].
      by apply does_mapsize. }
    apply reads_app.
    { instantiate (1 := if me_mapaddr info =? 0 then id
        else λ '(m, f, v, n, _, size, r), (m, f, v, n, me_mapaddr info, size, r)).
      destruct (Z.eqb_spec (me_mapaddr info) 0) as [|Hne]; [apply reads_nil|]. destruct (Ha Hne) as (Hl & Hlen & Hs).
      apply reads_field; [word|cbn; lia|done|lia|].
      by apply (does_mapaddr _ (me_mapaddr info)). }
    apply reads_app.
    { apply reads_field; [word|cbn; lia|apply dec_line; lia|lia|].
      by apply does_maxreaders. }
    apply reads_app.
    { instantiate (1 := if has_flag flags MDB_DUPSORT then id else id). apply reads_if. intros _.
      apply reads_field; [word|cbn; lia|word|cbn; lia|]. apply does_unknown. by left. }
    apply reads_app; [by apply reads_flags|].
    apply reads_field; [word|cbn; lia|by apply dec_line|lia|].
    apply does_unknown. right. by left.
  - intros [[[[[[m f] v] n] a] size] r]. unfold compose, header_does, id.
    destruct (has_flag flags MDB_DUPSORT), (has_flag mode PRINT), name, (me_mapaddr info =? 0); done.
Qed.

(** [readhdr] reads the header of a dump. *)
Lemma readhdr_header s rest :
  header_fits → input s = header fmt_p mode flags psize info name ++ rest → buf_ok 4096 (dbuf s) →
  ∃ line d, buf_ok 4096 d ∧
    readhdr scan_p s = Ok (true, set_input (put_header s (header_does (header_of (set_flags s 0)))) rest (Eof s) line (kbuf s) d).
Proof using Type.
  intros Hf Hin Hd. destruct (reads_header Hf) as (f & Hfx & n & Hn & H). rewrite header_split, <-(assoc_L (++)) in Hin.
  unfold readhdr. change (input (set_flags s 0)) with (input s).
  assert (Hlen : (n + 1 ≤ length (input s))%nat) by (rewrite Hin, !length_app; change (length (lit "HEADER=END")) with 10%nat; lia).
  replace (S (length (input s))) with (n + S (length (input s) - n))%nat by lia.
  destruct (H (S (length (input s) - n)) (set_flags s 0) _ Hin Hd) as (line & d & Hd' & ->). rewrite Hfx.
  set (s1 := set_input _ _ _ _ _ _). rewrite <-(assoc_L (++)) in *.
  destruct (hdr_round (lit "HEADER=END") s1 rest (length (input s) - n) eq_refl) as (d2 & Hline & E);
    [word|cbn; lia|done|].
  rewrite E. unfold hdr_line. cbn [dbuf set_input]. rewrite (holds_c_str _ _ Hline). cbn [mbind res_bind]. names. cbn [mbind res_bind].
  eexists _, d2. split; [apply Hline|]. reflexivity.
Qed.
End header.

(** ** The dump *)

Section dump.
Context (fuel : nat) (touch : M Z) (m : Mem) (t : MDB_txn) (cmp : MDB_cmp_func) `{!KeyOrder cmp}.
Context (dbi : Z) (db : MDB_db) (Ho : opened t dbi db cmp) (Hfuel : (31 < fuel)%nat).
Context (fmt_p : Z → bytes).
Abbreviation st := (st m t).
Abbreviation db_holds := (db_holds fuel m t cmp db).
Abbreviation represents := (represents fuel m t cmp dbi db).
Abbreviation dump_rows := (dump_rows fuel touch (λ _, false)).

(** The entries that a cursor has before it. *)
Definition to_come (all : entries) (p : pos) : entries :=
  match p with Unset => all | On _ _ es2 => es2 | Off => [] end.

Lemma next_code all p c :
  p ≠ Off → db_holds all → represents all p c →
  ∃ c', Cursor.mdb_cursor_get fuel touch 1 (Some (MkVal 0 [])) (Some (MkVal 0 [])) MDB_NEXT (st c)
        = Ok (match to_come all p with [] => code MDB_NOTFOUND | kv :: _ => got true true kv end, st c') ∧
    ∃ p', p' ≠ Off ∧ represents all p' c' ∧ to_come all p' = tail (to_come all p).
Proof using Ho Hfuel.
  intros Hp Hall Hc.
  assert (Hm : ∃ p', p' ≠ Off ∧ to_come all p' = tail (to_come all p) ∧
    move (cmp:=cmp) [0] all MDB_NEXT p
    = Some (match to_come all p with [] => code MDB_NOTFOUND | kv :: _ => got true true kv end, p')).
  { destruct p as [|es1 kv es2|]; [| |done]; cbn [move to_come].
    - destruct all as [|kv es]; [by exists Unset|by exists (On [] kv es)].
    - destruct es2 as [|kv' es2]; [by exists (On es1 kv [])|by exists (On (es1 ++ [kv]) kv' es2)]. }
  destruct Hm as (p' & Hp' & Hto & Hm).
  destruct (move_step fuel touch m t cmp dbi db Ho Hfuel all [0] MDB_NEXT p c _ p' ltac:(done) Hall Hc Hm)
    as (c' & E & Hc').
  exists c'. split; [exact E|by exists p'].
Qed.

Lemma val_bytes_val b : val_bytes (val b) (mv_size (val b)) = Ok b.
Proof using Type.
  unfold val_bytes, val. cbn [mv_data mv_size].
  pose proof (mread_at b [] b [] 0 (Z.of_nat (length b))) as E. rewrite E; try done. by rewrite app_nil_r.
Qed.

(** The loop prints the entries that the cursor has before it. *)
Lemma dump_rows_prints mode all n i p c :
  p ≠ Off → db_holds all → represents all p c → (length (to_come all p) < n)%nat →
  ∃ c', dump_rows n i mode (st c) = Ok ((0, rows mode (to_come all p)), st c').
Proof using Ho Hfuel.
  revert i p c. induction n as [|n IH]; intros i p c Hp Hall Hc Hn; [lia|].
  destruct (next_code all p c Hp Hall Hc) as (c1 & E & p1 & Hp1 & Hc1 & Hto).
  cbn [Dump.dump_rows]. step E. clear E. destruct (to_come all p) as [|kv es] eqn:Eto.
  - exists c1. done.
  - cbn [tail] in Hto. destruct (IH (S i) p1 c1 Hp1 Hall Hc1) as (c2 & E2); [rewrite Hto; cbn in Hn; lia|].
    exists c2. rewrite Hto in E2. cbn [g_rc g_key g_data got]. change (MDB_SUCCESS =? MDB_SUCCESS) with true. cbn match.
    change (1 =? 0) with false. cbn match.
    step_lift (val_bytes_val kv.1). step_lift (val_bytes_val kv.2). step E2. rewrite rows_cons. unfold row.
    by rewrite <-(assoc_L (++)).
Qed.

(** [dumpit] in a read-only transaction. *)
Definition dumped (mode : Z) (info : MDB_envinfo) (name : option bytes) (all : entries) : bytes :=
  header fmt_p mode (Z.land (md_flags db) PERSISTENT_FLAGS) (me_psize m) info name ++ rows mode all ++ lit "DATA=END" ++ [10].

Lemma dumpit_spec mode info name all :
  TXN_DBI_EXIST t dbi DB_VALID = true → TXN_DBI_EXIST t dbi DB_USRVALID = true →
  F_ISSET (mt_flags t) MDB_TXN_RDONLY = true → (length all < fuel)%nat → db_holds all →
  ∃ c', dumpit fuel touch fmt_p (λ _, false) mode dbi (inr info) true name (st uninit_cursor)
        = Ok ((MDB_SUCCESS, dumped mode info name all), st c').
Proof using Ho Hfuel.
  intros Hv Hu Hro Hlen Hall. pose proof Ho as [Hdb _ (f & Hf & Hst) Htxn _].
  destruct (dump_rows_prints mode all fuel 0 Unset (new_cursor dbi)) as (c' & E); try done.
  exists c'. unfold dumpit.
  assert (E1 : mdb_dbi_flags dbi (st uninit_cursor) = Ok (inr (Z.land (md_flags db) PERSISTENT_FLAGS), st uninit_cursor)).
  { unfold mdb_dbi_flags. step (txn_at m t uninit_cursor). rewrite Hu. cbn [negb]. by step_lift Hdb. }
  assert (E2 : ∃ ms, mdb_stat fuel touch dbi (st uninit_cursor) = Ok (inr ms, st uninit_cursor) ∧ ms_psize ms = me_psize m).
  { eexists. split; [|cycle 1].
    - unfold mdb_stat. step (txn_at m t uninit_cursor). rewrite Hv, Htxn. cbn [negb]. step_lift Hf. rewrite Hst.
      cbn match. assert (Er : (mret tt : M unit) (st uninit_cursor) = Ok (tt, st uninit_cursor)) by done. step Er.
      step (txn_at m t uninit_cursor). step_lift Hdb. reflexivity.
    - done. }
  destruct E2 as (ms & E2 & Hps).
  assert (E3 : mdb_cursor_open fuel touch true dbi (st uninit_cursor) = Ok (MDB_SUCCESS, st (new_cursor dbi))).
  { unfold mdb_cursor_open. step (txn_at m t uninit_cursor). rewrite Hv, Htxn, Hro. cbn [negb andb].
    rewrite andb_false_r. step (cursor_init_at fuel touch m t cmp dbi db Ho true). done. }
  step E1. step E2. step E3. change (negb (MDB_SUCCESS =? 0)) with false. cbn match. step E. rewrite Hps. done.
Qed.
End dump.

(** ** The load of a dump *)

Lemma rows_mode m m' es : has_flag m PRINT = has_flag m' PRINT → rows m es = rows m' es.
Proof. intros H. unfold rows. f_equal. apply list_fmap_ext. intros i kv _. unfold row, put_val. by rewrite H. Qed.

Lemma length_rows m es : (length es ≤ length (rows m es))%nat.
Proof.
  induction es as [|kv es IH]; [done|]. rewrite rows_cons, length_app. unfold row.
  rewrite length_app, put_val_encode. cbn [length]. lia.
Qed.

Section program.
Context (scan_p : bytes → option Z) (putflags : Z) (answer : list Call → Call → Z).
Context (Hans : ∀ tr c, answer tr c = 0).
Abbreviation load_db := (load_db scan_p true putflags answer).
Abbreviation load_dbs := (load_dbs scan_p true putflags answer).

(** A database without its header, as [main] finds the first one. *)
Lemma load_db_first s tr es rest :
  has_flag (mode s) NOHDR = false → bufs_ok s → Forall row_ok es →
  input s = rows (mode s) es ++ lit "DATA=END" ++ 10 :: rest →
  ∃ s' tr', load_db false s tr = Ok (Some (0, Go, s', tr')) ∧ input s' = rest ∧ Eof s' = Eof s ∧ bufs_ok s' ∧
    header_of s' = header_of (set_flags s 0) ∧
    puts (reverse tr') = puts (reverse tr) ++ es ∧ opens (reverse tr') = opens (reverse tr) ++ [(subname s, MDB_CREATE)].
Proof using Hans.
  intros Hm Hb Hes Hin. unfold Load.load_db. cbn [andb]. cbn [mbind res_bind negb]. rewrite calls_three by done.
  cbn [negb Z.eqb]. set (tr1 := CursorOpen :: _).
  destruct (put_loop_rows putflags answer Hans es (S (length (input (set_flags s 0)))) 0 (set_flags s 0) tr1 rest)
    as (s' & tr' & -> & (Hin' & Hh & Hb' & Hp & Hop) & He); [done..| |done|].
  { change (input (set_flags s 0)) with (input s). rewrite Hin, length_app. pose proof (length_rows (mode s) es). lia. }
  cbn [mbind res_bind]. rewrite calls_one by done. cbn [negb Z.eqb].
  eexists s', _. split; [done|]. split_and!; try done.
  - rewrite !puts_snoc, Hp. unfold tr1. rewrite !puts_snoc. cbn [put_of option_list option_rect]. by rewrite !app_nil_r.
  - rewrite !opens_snoc, Hop. unfold tr1. rewrite !opens_snoc. cbn [open_of option_list option_rect]. by rewrite !app_nil_r.
Qed.

(** The round at the end of the input. *)
Lemma load_db_last s tr :
  has_flag (mode s) NOHDR = false → bufs_ok s → input s = [] →
  ∃ s' tr', load_db true s tr = Ok (Some (0, Go, s', tr')) ∧ Eof s' = true ∧
    puts (reverse tr') = puts (reverse tr) ∧ opens (reverse tr') = opens (reverse tr) ++ [(subname s, MDB_CREATE)].
Proof using Hans.
  intros Hm [Hk [[Hd1 Hd2] Hd3]] Hin. unfold big in Hd2.
  assert (Er : readhdr scan_p (set_flags s 0) = Ok (true, set_flags s 0)).
  { unfold readhdr. change (input (set_flags s 0)) with (input s). rewrite Hin. cbn [length hdr_loop].
    change (input (set_flags (set_flags s 0) 0)) with (input s). rewrite Hin. unfold fgets.
    change (dbuf (set_flags (set_flags s 0) 0)) with (dbuf s).
    rewrite to_int_small, (proj2 (Z.leb_gt _ _)), (proj2 (Z.ltb_lt 1 _)) by lia. rewrite bool_decide_eq_true_2 by done. done. }
  unfold Load.load_db. change (mode (set_flags s 0)) with (mode s). rewrite Hm. cbn [andb negb]. rewrite Er.
  cbn [mbind res_bind negb]. rewrite calls_three by done. cbn [negb Z.eqb]. change (input (set_flags s 0)) with (input s).
  rewrite put_loop_at_end by done. cbn [mbind res_bind]. rewrite calls_one by done. cbn [negb Z.eqb].
  eexists _, _. split; [done|]. split; [done|]. rewrite !puts_snoc, !opens_snoc.
  cbn [put_of open_of option_list option_rect]. by rewrite !app_nil_r.
Qed.

Lemma load_dbs_one fuel s tr es :
  has_flag (mode s) NOHDR = false → bufs_ok s → Eof s = false → Forall row_ok es → (2 < fuel)%nat →
  input s = rows (mode s) es ++ lit "DATA=END" ++ [10] →
  ∃ s' tr', load_dbs fuel false s tr = Ok (Some (0, s', tr')) ∧ puts (reverse tr') = puts (reverse tr) ++ es ∧
    opens (reverse tr') = opens (reverse tr) ++ [(subname s, MDB_CREATE); (subname s, MDB_CREATE)].
Proof using Hans.
  intros Hm Hb He Hes Hf Hin. destruct fuel as [|[|[|fuel]]]; try lia.
  destruct (load_db_first s tr es [] Hm Hb Hes Hin) as (s1 & tr1 & E1 & Hin1 & He1 & Hb1 & Hh1 & Hp1 & Ho1).
  assert (Hs1 : mode s1 = mode s ∧ subname s1 = subname s) by (by injection Hh1). destruct Hs1 as [Hm1 Hn1].
  destruct (load_db_last s1 tr1) as (s2 & tr2 & E2 & He2 & Hp2 & Ho2); [by rewrite Hm1|done..|].
  cbn [Load.load_dbs]. rewrite He, E1. cbn [mbind res_bind]. rewrite He1, He, E2. cbn [mbind res_bind]. rewrite He2.
  eexists s2, _. split; [done|]. rewrite puts_snoc, opens_snoc, Hp2, Hp1, Ho2, Ho1, Hn1. cbn [put_of open_of option_list option_rect].
  rewrite !app_nil_r. split; [done|]. by rewrite <-(assoc_L (++)).
Qed.

(** [main] on a dump: it returns 0, stores the entries in their order, and opens the
    database with no flag but [MDB_CREATE], whatever flags the header names. *)
Lemma load_main_spec fmt_p mode flags psize info name es envflags maxkeysize sub :
  header_fits scan_p fmt_p psize info name → Forall row_ok es → 4 ≤ maxkeysize ≤ 2 ^ 20 →
  let target := match name with Some n => Some n | None => sub end in
  ∃ tr, load_main scan_p true putflags answer 0 envflags maxkeysize sub
          (header fmt_p mode flags psize info name ++ rows mode es ++ lit "DATA=END" ++ [10])
        = Ok (Some (0, tr)) ∧ puts tr = es ∧ opens tr = [(target, MDB_CREATE); (target, MDB_CREATE)].
Proof using Hans.
  intros Hfit Hes Hk target. unfold load_main. change (has_flag 0 NOHDR) with false. cbn match.
  set (s0 := MkLoad _ false 0 0 0 0 sub 0 0 0 _ _).
  destruct (readhdr_header scan_p fmt_p mode flags psize info name s0 (rows mode es ++ lit "DATA=END" ++ [10]) Hfit eq_refl)
    as (line & d & Hd & Er).
  { split; [unfold big; cbn; lia|]. cbn [dbuf s0 b_size b_data]. unfold fresh_block. rewrite length_replicate. lia. }
  rewrite Er. clear Er. cbn [mbind res_bind negb]. rewrite !Hans. cbn [negb Z.eqb].
  set (s1 := set_input (put_header _ _) _ _ _ _ _).
  set (tr1 := EnvOpen _ :: _).
  set (s2 := set_input s1 _ _ _ _ _).
  assert (Hmode : Load.mode s2 = if has_flag mode PRINT then set_flag 0 PRINT else 0) by done.
  assert (Hprint : has_flag (Load.mode s2) PRINT = has_flag mode PRINT ∧ has_flag (Load.mode s2) NOHDR = false).
  { rewrite Hmode. by destruct (has_flag mode PRINT). }
  destruct (load_dbs_one (S (S (length (input s1)))) s2 tr1 es) as (s' & tr' & E & Hp & Hop); try done.
  - apply Hprint.
  - split; (split; [unfold big; cbn [kbuf dbuf s2 s1 set_input b_size b_data]|]).
    + lia.
    + cbn [kbuf s2 set_input b_size b_data]. unfold fresh_block. rewrite length_replicate. lia.
    + destruct Hd as [[? ?] _]. unfold big in *. lia.
    + apply Hd.
  - change (input s1) with (rows mode es ++ lit "DATA=END" ++ [10]). rewrite length_app. change (length (lit "DATA=END" ++ [10])) with 9%nat. lia.
  - rewrite (rows_mode _ mode es); [done|apply Hprint].
  - change (input s2) with (input s1). rewrite E. cbn [mbind res_bind]. eexists. split; [done|].
    rewrite puts_snoc, opens_snoc, Hp, Hop. unfold tr1. cbn [put_of open_of option_list option_rect]. rewrite !app_nil_r.
    assert (Hn : subname s2 = target) by done. rewrite Hn.
    destruct (maxreaders s1 =? 0), (mapsize s1 =? 0); done.
Qed.
End program.

(** ** The claims *)

(** What the dump prints for a value, as text or as hexadecimal digits, [readline]
    reads back, with whatever follows it left to read; the buffer may have any size from
    2 bytes on and is grown as needed. *)
Theorem value_roundtrip mode v rest line d :
  has_flag mode NOHDR = false → value_ok v → buf_ok 2 d →
  ∃ d', readline true mode (put_val mode v ++ rest) line d = Ok (MkLine 0 v rest false (u64 (line + 1)) d') ∧
    buf_ok 2 d'.
Proof. by apply readline_decodes. Qed.

(** A value with a backslash, a newline and a NUL byte, read into two bytes. *)
Lemma value_roundtrip_witness :
  put_val PRINT [92; 10; 0; 65] = lit " \\\0a\00A" ++ [10] ∧
  ∃ d', readline true PRINT (put_val PRINT [92; 10; 0; 65] ++ [32]) 7 (MkBuf 2 (fresh_block 2))
        = Ok (MkLine 0 [92; 10; 0; 65] [32] false 8 d') ∧ buf_ok 2 d'.
Proof.
  split; [reflexivity|]. apply (value_roundtrip PRINT [92; 10; 0; 65] [32] 7 (MkBuf 2 (fresh_block 2))).
  - reflexivity.
  - split; [repeat constructor; done|]. apply Nat2Z.inj_le. rewrite Z2Nat.id; done.
  - done.
Defined.

(** C18.  Loading a dump: on a tree of any depth that holds [all], [dumpit] succeeds, and
    [main] of the load tool, given what it printed, returns 0 and has stored exactly the
    entries of the tree, in their order.  The calls of LMDB succeed. *)
Theorem dump_load fuel touch m t cmp `{!KeyOrder cmp} dbi db fmt_p scan_p putflags answer mode info name
    (all : entries) envflags maxkeysize sub :
  (31 < fuel)%nat → (length all < fuel)%nat → opened t dbi db cmp → db_holds fuel m t cmp db all →
  TXN_DBI_EXIST t dbi DB_VALID = true → TXN_DBI_EXIST t dbi DB_USRVALID = true →
  F_ISSET (mt_flags t) MDB_TXN_RDONLY = true → (∀ tr c, answer tr c = 0) →
  header_fits scan_p fmt_p (me_psize m) info name → Forall row_ok all → 4 ≤ maxkeysize ≤ 2 ^ 20 →
  ∃ out c' tr,
    dumpit fuel touch fmt_p (λ _, false) mode dbi (inr info) true name (MkSt m t uninit_cursor None None)
    = Ok ((MDB_SUCCESS, out), MkSt m t c' None None) ∧
    load_main scan_p true putflags answer 0 envflags maxkeysize sub out = Ok (Some (0, tr)) ∧ puts tr = all.
Proof.
  intros Hfuel Hlen Ho Hall Hv Hu Hro Hans Hfit Hok Hk.
  destruct (dumpit_spec fuel touch m t cmp dbi db Ho Hfuel fmt_p mode info name all) as (c' & E); try done.
  destruct (load_main_spec scan_p putflags answer Hans fmt_p mode (Z.land (md_flags db) PERSISTENT_FLAGS) (me_psize m)
    info name all envflags maxkeysize sub Hfit Hok Hk) as (tr & Et & Hp & _).
  by eexists _, c', tr.
Qed.

(** C32.  The flags of a database are lost: [main] clears what the first [readhdr] has
    read of them, so the first database of any dump, and a database with sorted
    duplicates too, is opened with [MDB_CREATE] alone. *)
Theorem load_drops_flags scan_p putflags answer fmt_p mode flags psize info name (all : entries) envflags maxkeysize sub :
  (∀ tr c, answer tr c = 0) → header_fits scan_p fmt_p psize info name → Forall row_ok all → 4 ≤ maxkeysize ≤ 2 ^ 20 →
  ∃ tr, load_main scan_p true putflags answer 0 envflags maxkeysize sub
          (header fmt_p mode flags psize info name ++ rows mode all ++ lit "DATA=END" ++ [10])
        = Ok (Some (0, tr)) ∧ Forall (λ c, ∀ n f, c = DbOpen n f → f = MDB_CREATE) tr.
Proof.
  intros Hans Hfit Hok Hk.
  destruct (load_main_spec scan_p putflags answer Hans fmt_p mode flags psize info name all envflags maxkeysize sub Hfit Hok Hk)
    as (tr & Et & _ & Hop).
  exists tr. split; [done|]. apply Forall_forall. intros c Hc n f ->.
  assert (Hin : (n, f) ∈ opens tr) by (apply list_elem_of_omap; by exists (DbOpen n f)).
  rewrite Hop in Hin. by apply elem_of_cons in Hin as [[= _ ->]|[= _ ->]%list_elem_of_singleton].
Qed.

(** A line of data that starts with a NUL byte makes [readline] read in front of
    its buffer: [strlen] is 0 and the last character is looked for at [c1[-1]]. *)
Theorem nul_line_is_ub mode inp line d :
  has_flag mode NOHDR = false → buf_ok 2 d → readline true mode (32 :: 0 :: inp) line d = UB.
Proof.
  intros Hm [[Hd1 Hd2] Hd3]. unfold big in Hd2. unfold readline. rewrite Hm. change (32 =? 32) with true. cbn match.
  unfold read_value, fgets. rewrite to_int_small, (proj2 (Z.leb_gt _ _)), (proj2 (Z.ltb_lt 1 _)) by lia. cbn [andb].
  rewrite bool_decide_eq_false_2 by done.
  destruct (Z.to_nat (b_size d - 1)) as [|n] eqn:En; [lia|]. cbn [line_of]. change (0 =? 10) with false. cbn match.
  set (l := line_of n inp).
  assert (Hl : (length l ≤ n)%nat).
  { unfold l. clear. revert inp. induction n as [|n IH]; intros [|c inp]; cbn; try lia. case_match; cbn; [lia|].
    specialize (IH inp). lia. }
  rewrite write_bytes_Ok by (rewrite ?length_app; cbn [length app]; rewrite ?length_app; cbn [length]; lia).
  cbn [mbind res_bind]. change (Z.to_nat 0) with 0%nat. cbn [take app fmap list_fmap].
  unfold strlen. change (Z.to_nat 0) with 0%nat. cbn [drop c_str].
  change (0 =? 0) with true. cbn [mbind res_bind length]. done.
Qed.

(** ** Witnesses *)

Module Example.
Import Reads.Example.

Definition info : MDB_envinfo := MkInfo 0 1048576 126.

Lemma header_ok name : name = None ∨ name = Some [120] → header_fits (λ _, None) (λ _, []) 64 info name.
Proof.
  intros Hname. split; [done|done|done|done|]. intros n Hn. destruct Hname as [->| ->]; [done|]. injection Hn as <-.
  split; [|cbn; lia]. split; intros H%list_elem_of_singleton; done.
Defined.

Lemma rows_fit : Forall row_ok all.
Proof.
  assert (Hv : ∀ c, is_byte c → value_ok [c]).
  { intros c Hc. split; [by constructor|]. apply Nat2Z.inj_le. rewrite Z2Nat.id; done. }
  assert (Hr : ∀ k v, is_byte k → is_byte v → row_ok ([k], [v])) by (split; by apply Hv).
  unfold all. apply Forall_cons; split; [by apply Hr|]. apply Forall_cons; split; [by apply Hr|].
  apply Forall_cons; split; [by apply Hr|]. apply Forall_cons; split; [by apply Hr|]. by apply Forall_nil.
Defined.

(** The tree of two levels, dumped in hexadecimal. *)
Lemma dump_load_witness :
  ∃ out c' tr,
    dumpit 40 (mret 0) (λ _, []) (λ _, false) 0 1 (inr info) true None (MkSt m t uninit_cursor None None)
    = Ok ((MDB_SUCCESS, out), MkSt m t c' None None) ∧
    load_main (λ _, None) true 0 (λ _ _, 0) 0 0 511 None out = Ok (Some (0, tr)) ∧
    puts tr = [([97], [1]); ([98], [2]); ([99], [3]); ([100], [4])].
Proof.
  apply (dump_load 40 (mret 0) m t Cmp_memn 1 db (λ _, []) (λ _, None) 0 (λ _ _, 0) 0 info None all 0 511 None);
    [lia|cbn; lia|exact opened_db|exact holds_entries|reflexivity|reflexivity|reflexivity|done|
     apply header_ok; by left|exact rows_fit|lia].
Defined.

(** A database with sorted duplicates. *)
Lemma load_drops_flags_witness :
  ∃ tr, load_main (λ _, None) true 0 (λ _ _, 0) 0 0 511 None
          (header (λ _, []) PRINT MDB_DUPSORT 64 info (Some [120]) ++ rows PRINT all ++ lit "DATA=END" ++ [10])
        = Ok (Some (0, tr)) ∧ Forall (λ c, ∀ n f, c = DbOpen n f → f = MDB_CREATE) tr.
Proof.
  apply (load_drops_flags (λ _, None) 0 (λ _ _, 0) (λ _, []) PRINT MDB_DUPSORT 64 info (Some [120]) all 0 511 None);
    [done|apply header_ok; by right|exact rows_fit|lia].
Defined.

Lemma nul_line_is_ub_witness : readline true PRINT [32; 0; 10] 0 (MkBuf 64 (fresh_block 64)) = UB.
Proof. apply (nul_line_is_ub PRINT [10] 0 (MkBuf 64 (fresh_block 64))); [reflexivity|done]. Defined.
End Example.
