(* ===== verification/Meta.v ===== *)
(** * The meta pages of LMDB (src/lib/lmdb/mdb.c): commit and recovery

    The two pages at the start of the data file that name the trees of a version of the
    database: reading them when an environment is opened, making them for a new one, and
    writing one of them, which commits a transaction.  The file is the list of its bytes;
    it is also what the map shows.  What [pread], [pwrite], [msync] and [mmap] answer is
    an argument; [pwrite] tells how many bytes have reached the file, also when it fails.
    For a 64-bit little-endian machine, MDB_DEVEL 0, POSIX, not BROKEN_FDATASYNC. *)

From S2P Require Import Prelude.
From S2P Require Import Lmdb Midl Page Tree Cursor Dump Load.

Definition MDB_MAGIC : Z := 0xBEEFC0DE.
Definition MDB_DATA_VERSION : Z := 1.
Definition CORE_DBS : Z := 2.
Definition NUM_METAS : Z := 2.
Definition P_META : Z := 0x08.
Definition MAX_PAGESIZE : Z := 0x8000.
Definition MDB_MINKEYS : Z := 2.
Definition DEFAULT_MAPSIZE : Z := 1048576.
Definition MDB_WRITEMAP : Z := 0x80000.
Definition MDB_MAPASYNC : Z := 0x100000.
Definition MDB_FATAL_ERROR : Z := 0x80000000.
Definition ENOENT : Z := 2.
Definition EIO : Z := 5.
Definition EBUSY : Z := 16.
Definition ENOSPC : Z := 28.
Definition MDB_VERSION_MISMATCH : Z := -30794.
Definition MDB_INVALID : Z := -30793.

(** ** Records and their bytes *)

Record MDB_meta : Type := MkMeta {
  mm_magic : Z; mm_version : Z; mm_address : Z; mm_mapsize : Z; mm_free : MDB_db; mm_main : MDB_db;
  mm_last_pg : Z; mm_txnid : Z }.

(** Two fields live in the record of the freeDB. *)
Definition mm_psize (m : MDB_meta) : Z := md_pad (mm_free m).
Definition mm_flags (m : MDB_meta) : Z := md_flags (mm_free m).

Fixpoint le_bytes (n : nat) (z : Z) : bytes :=
  match n with O => [] | S n => z mod 256 :: le_bytes n (z / 256) end.

Definition db_bytes (d : MDB_db) : bytes :=
  le_bytes 4 (md_pad d) ++ le_bytes 2 (md_flags d) ++ le_bytes 2 (md_depth d) ++ le_bytes 8 (md_branch_pages d) ++
  le_bytes 8 (md_leaf_pages d) ++ le_bytes 8 (md_overflow_pages d) ++ le_bytes 8 (md_entries d) ++ le_bytes 8 (md_root d).

(** The part of a meta page that a commit writes, from [mm_mapsize] on, and the whole. *)
Definition meta_tail (mapsize : Z) (free main : MDB_db) (last_pg txnid : Z) : bytes :=
  le_bytes 8 mapsize ++ db_bytes free ++ db_bytes main ++ le_bytes 8 last_pg ++ le_bytes 8 txnid.
Definition meta_bytes (m : MDB_meta) : bytes :=
  le_bytes 4 (mm_magic m) ++ le_bytes 4 (mm_version m) ++ le_bytes 8 (mm_address m) ++
  meta_tail (mm_mapsize m) (mm_free m) (mm_main m) (mm_last_pg m) (mm_txnid m).

Definition META_SIZE : Z := 136.
Definition METABUF_SIZE : Z := PAGEHDRSZ + META_SIZE.
Definition MAPSIZE_OFF : Z := 16.

(** The record at the offset [off]. *)
Definition meta_at (bs : bytes) (off : Z) : res MDB_meta :=
  let field o n := b ← mread bs (off + o) n; Ok (le b) in
  magic ← field 0 4; version ← field 4 4; address ← field 8 8; mapsize ← field 16 8;
  f ← mread bs (off + 24) 48; f ← read_db f; m ← mread bs (off + 72) 48; m ← read_db m;
  last_pg ← field 120 8; txnid ← field 128 8;
  Ok (MkMeta magic version address mapsize f m last_pg txnid).

(** The environment, as far as its meta pages and sizes go: [me_map] is the address of the
    map or 0, and [me_txns] has [mti_txnid] and [mti_numreaders].  [me_file] is what the map
    and [pread] show; [me_disk] is what the disk has for sure. *)
Record MDB_env : Type := MkEnv {
  me_flags : Z; me_psize : Z; me_os_psize : Z; me_mapsize : Z; me_maxpg : Z; me_maxreaders : Z; me_maxdbs : Z;
  me_maxfree_1pg : Z; me_nodemax : Z; me_map : Z; me_txn : bool; me_txns : option (Z * Z); me_file : bytes; me_disk : bytes }.

Definition set_flags (e : MDB_env) (f : Z) : MDB_env :=
  MkEnv f (me_psize e) (me_os_psize e) (me_mapsize e) (me_maxpg e) (me_maxreaders e) (me_maxdbs e) (me_maxfree_1pg e)
    (me_nodemax e) (me_map e) (me_txn e) (me_txns e) (me_file e) (me_disk e).
Definition set_sizes (e : MDB_env) (psize mapsize maxpg maxfree nodemax map : Z) : MDB_env :=
  MkEnv (me_flags e) psize (me_os_psize e) mapsize maxpg (me_maxreaders e) (me_maxdbs e) maxfree nodemax map
    (me_txn e) (me_txns e) (me_file e) (me_disk e).
Definition set_file (e : MDB_env) (f : bytes) : MDB_env :=
  MkEnv (me_flags e) (me_psize e) (me_os_psize e) (me_mapsize e) (me_maxpg e) (me_maxreaders e) (me_maxdbs e)
    (me_maxfree_1pg e) (me_nodemax e) (me_map e) (me_txn e) (me_txns e) f (me_disk e).
Definition set_disk (e : MDB_env) (d : bytes) : MDB_env :=
  MkEnv (me_flags e) (me_psize e) (me_os_psize e) (me_mapsize e) (me_maxpg e) (me_maxreaders e) (me_maxdbs e)
    (me_maxfree_1pg e) (me_nodemax e) (me_map e) (me_txn e) (me_txns e) (me_file e) d.
Definition set_mti_txnid (e : MDB_env) (txnid : Z) : MDB_env :=
  MkEnv (me_flags e) (me_psize e) (me_os_psize e) (me_mapsize e) (me_maxpg e) (me_maxreaders e) (me_maxdbs e)
    (me_maxfree_1pg e) (me_nodemax e) (me_map e) (me_txn e) ((λ t, (txnid, t.2)) <$> me_txns e) (me_file e) (me_disk e).
Definition set_limits (e : MDB_env) (maxreaders maxdbs : Z) : MDB_env :=
  MkEnv (me_flags e) (me_psize e) (me_os_psize e) (me_mapsize e) (me_maxpg e) maxreaders maxdbs (me_maxfree_1pg e)
    (me_nodemax e) (me_map e) (me_txn e) (me_txns e) (me_file e) (me_disk e).

(** [env->me_metas[i]] *)
Definition meta_off (psize i : Z) : Z := PAGEHDRSZ + psize * i.
Definition me_metas (e : MDB_env) (i : Z) : res MDB_meta := meta_at (me_file e) (meta_off (me_psize e) i).

(** The number of the newer meta page. *)
Definition mdb_env_pick_meta (e : MDB_env) : res Z :=
  m0 ← me_metas e 0; m1 ← me_metas e 1; Ok (if mm_txnid m0 <? mm_txnid m1 then 1 else 0).

(** ** Files *)

(** [bs] at the offset [off] of a file, which grows if need be. *)
Definition file_write (f : bytes) (off : Z) (bs : bytes) : bytes :=
  let o := Z.to_nat off in
  take o f ++ replicate (o - length f) 0 ++ bs ++ drop (o + length bs) f.

(** What a call of [pwrite] answers, and how many bytes it has put into the file. *)
Inductive Pwrite : Type := Wrote (n : Z) | Failed (err n : Z).

Definition pwritten (a : Pwrite) : Z := match a with Wrote n | Failed _ n => n end.

(** [pwrite], again after EINTR: the error or the number of bytes, the file, and the
    answers that are left. *)
Fixpoint do_pwrite (answers : list Pwrite) (f : bytes) (off : Z) (bs : bytes) : res ((Z + Z) * bytes * list Pwrite) :=
  match answers with
  | [] => NoFuel
  | a :: answers =>
      let f := file_write f off (take (Z.to_nat (pwritten a)) bs) in
      match a with
      | Wrote n => Ok (inr n, f, answers)
      | Failed err _ => if err =? EINTR then do_pwrite answers f off bs else Ok (inl err, f, answers)
      end
  end.

(** [pread] of [n] bytes of the file [f]. *)
Definition pread_file (f : bytes) (n off : Z) : bytes := take (Z.to_nat n) (drop (Z.to_nat off) f).

(** ** Opening *)

Section header.
(** [pread(env->me_fd, &pbuf, Size, off)]: the error or the bytes. *)
Context (pread : Z → Z + bytes).

Definition read_meta_page (off : Z) : res (Z + MDB_meta) :=
  match pread off with
  | inl err => Ok (inl err)
  | inr pbuf =>
      if negb (Z.of_nat (length pbuf) =? METABUF_SIZE) then
        Ok (inl (if ((Z.of_nat (length pbuf) =? 0) && (off =? 0))%bool then ENOENT else MDB_INVALID))
      else
        fl ← MP_FLAGS pbuf;
        if negb (F_ISSET fl P_META) then Ok (inl MDB_INVALID)
        else
          m ← meta_at pbuf PAGEHDRSZ;
          if negb (mm_magic m =? MDB_MAGIC) then Ok (inl MDB_INVALID)
          else if negb (mm_version m =? MDB_DATA_VERSION) then Ok (inl MDB_VERSION_MISMATCH)
          else Ok (inr m)
  end.

(** [mdb_env_read_header]: the two rounds of its loop. *)
Definition mdb_env_read_header : res (Z + MDB_meta) :=
  r ← read_meta_page 0;
  match r with
  | inl rc => Ok (inl rc)
  | inr meta =>
      let off := to_int (mm_psize meta) in
      r ← read_meta_page off;
      match r with
      | inl rc => Ok (inl rc)
      | inr m => Ok (inr (if ((off =? 0) || (mm_txnid meta <? mm_txnid m))%bool then m else meta))
      end
  end.
End header.

Definition zero_db : MDB_db := MkDb 0 0 0 0 0 0 0 0.
Definition zero_meta : MDB_meta := MkMeta 0 0 0 0 zero_db zero_db 0 0.

Definition with_root (db : MDB_db) (pad flags root : Z) : MDB_db :=
  MkDb pad flags (md_depth db) (md_branch_pages db) (md_leaf_pages db) (md_overflow_pages db) (md_entries db) root.

Definition mdb_env_init_meta0 (e : MDB_env) (m : MDB_meta) : MDB_meta :=
  let flags := set_flag (Z.land (me_flags e) 0xffff) MDB_INTEGERKEY in
  MkMeta MDB_MAGIC MDB_DATA_VERSION (mm_address m) (me_mapsize e) (with_root (mm_free m) (me_psize e) flags P_INVALID)
    (with_root (mm_main m) (md_pad (mm_main m)) (md_flags (mm_main m)) P_INVALID) (NUM_METAS - 1) (mm_txnid m).

(** A page of [calloc]ed memory with its number, [P_META] and the record. *)
Definition meta_page (psize pgno : Z) (m : MDB_meta) : bytes :=
  le_bytes 8 pgno ++ le_bytes 2 0 ++ le_bytes 2 P_META ++ le_bytes 4 0 ++ meta_bytes m ++
  replicate (Z.to_nat (psize - METABUF_SIZE)) 0.

(** [alloc] tells whether [calloc] succeeds. *)
Definition mdb_env_init_meta (alloc : bool) (answers : list Pwrite) (e : MDB_env) (m : MDB_meta) : res (Z * MDB_env) :=
  let psize := me_psize e in
  if negb alloc then Ok (ENOMEM, e)
  else if psize <? METABUF_SIZE then UB
  else
    '(r, f, _) ← do_pwrite answers (me_file e) 0 (meta_page psize 0 m ++ meta_page psize 1 m);
    let rc := match r with
              | inl err => err
              | inr len => if len =? psize * NUM_METAS then MDB_SUCCESS else ENOSPC
              end in
    Ok (rc, set_file e f).

(** [ftruncate] to the size [n]. *)
Definition file_resize (f : bytes) (n : Z) : bytes := take (Z.to_nat n) f ++ replicate (Z.to_nat n - length f) 0.

Section open.
(** The error of [ftruncate] or 0, and the error or the address of [mmap] for a wanted
    address. *)
Context (ftruncate : Z) (mmap : Z → Z + Z).

Definition set_map (e : MDB_env) (map : Z) : MDB_env :=
  set_sizes e (me_psize e) (me_mapsize e) (me_maxpg e) (me_maxfree_1pg e) (me_nodemax e) map.

Definition mdb_env_map (addr : Z) (e : MDB_env) : Z * MDB_env :=
  let writemap := has_flag (me_flags e) MDB_WRITEMAP in
  if (writemap && negb (ftruncate =? 0))%bool then (ftruncate, e)
  else
    let e := if writemap then set_file e (file_resize (me_file e) (me_mapsize e)) else e in
    match mmap addr with
    | inl err => (err, set_map e 0)
    | inr a => (if (negb (addr =? 0) && negb (a =? addr))%bool then EBUSY else MDB_SUCCESS, set_map e a)
    end.

(** [mdb_env_open2] *)
Definition mdb_env_open2 (pread : Z → Z + bytes) (alloc : bool) (answers : list Pwrite) (e : MDB_env)
    : res (Z * MDB_env) :=
  let flags := me_flags e in
  r ← mdb_env_read_header pread;
  match r with
  | inl rc => if negb (rc =? ENOENT) then Ok (Some rc) else Ok None
  | inr _ => Ok None
  end ≫= λ fail,
  match fail with
  | Some rc => Ok (rc, e)
  | None =>
      let '(newenv, e, meta) :=
        match r with
        | inl _ =>
            let psize := if MAX_PAGESIZE <? me_os_psize e then MAX_PAGESIZE else me_os_psize e in
            let e := set_sizes e psize (me_mapsize e) (me_maxpg e) (me_maxfree_1pg e) (me_nodemax e) (me_map e) in
            let m := mdb_env_init_meta0 e zero_meta in
            (true, e, MkMeta (mm_magic m) (mm_version m) (mm_address m) DEFAULT_MAPSIZE (mm_free m) (mm_main m)
                        (mm_last_pg m) (mm_txnid m))
        | inr m => (false, set_sizes e (mm_psize m) (me_mapsize e) (me_maxpg e) (me_maxfree_1pg e) (me_nodemax e) (me_map e), m)
        end in
      let mapsize := if me_mapsize e =? 0 then mm_mapsize meta else me_mapsize e in
      let minsize := u64 (u64 (mm_last_pg meta + 1) * mm_psize meta) in
      let mapsize := if mapsize <? minsize then minsize else mapsize in
      let e := set_sizes e (me_psize e) mapsize (me_maxpg e) (me_maxfree_1pg e) (me_nodemax e) (me_map e) in
      let with_address a := MkMeta (mm_magic meta) (mm_version meta) a mapsize (mm_free meta) (mm_main meta)
                              (mm_last_pg meta) (mm_txnid meta) in
      let meta := with_address (mm_address meta) in
      let fixed := has_flag flags MDB_FIXEDMAP in
      '(rc, e) ← (if (newenv && negb fixed)%bool then mdb_env_init_meta alloc answers e meta else Ok (MDB_SUCCESS, e));
      if negb (rc =? 0) then Ok (rc, e)
      else
        let '(rc, e) := mdb_env_map (if fixed then mm_address meta else 0) e in
        if negb (rc =? 0) then Ok (rc, e)
        else
          '(rc, e) ← (if (newenv && fixed)%bool then mdb_env_init_meta alloc answers e (with_address (me_map e))
                      else Ok (MDB_SUCCESS, e));
          if negb (rc =? 0) then Ok (rc, e)
          else
            let psize := me_psize e in
            if psize =? 0 then UB
            else
              Ok (MDB_SUCCESS,
                  set_sizes e psize (me_mapsize e) (u64 (me_mapsize e) / psize)
                    (to_int (u64 (u32 (psize - PAGEHDRSZ) / 8 - 1)))
                    (u32 (Z.land (u32 (psize - PAGEHDRSZ) / MDB_MINKEYS) (-2) - 2)) (me_map e))
  end.

Definition mdb_env_set_mapsize (size : Z) (e : MDB_env) : res (Z * MDB_env) :=
  let resize size e := set_sizes e (me_psize e) size (me_maxpg e) (me_maxfree_1pg e) (me_nodemax e) (me_map e) in
  let finish size e :=
    (MDB_SUCCESS, set_sizes e (me_psize e) size (if me_psize e =? 0 then me_maxpg e else size / me_psize e)
                    (me_maxfree_1pg e) (me_nodemax e) (me_map e)) in
  if me_map e =? 0 then Ok (finish size e)
  else if me_txn e then Ok (EINVAL, e)
  else
    i ← mdb_env_pick_meta e; m ← me_metas e i;
    let size := if size =? 0 then mm_mapsize m else size in
    let minsize := u64 (u64 (mm_last_pg m + 1) * me_psize e) in
    let size := if size <? minsize then minsize else size in
    let '(rc, e) := mdb_env_map (if has_flag (me_flags e) MDB_FIXEDMAP then me_map e else 0) (resize size e) in
    Ok (if negb (rc =? 0) then (rc, e) else finish size e).
End open.

(** ** Committing *)

(** [pwrite] on [me_mfd], which also brings the bytes to the disk ([MDB_DSYNC]), or on
    [me_fd]. *)
Definition fd_pwrite (mfd : bool) (answers : list Pwrite) (e : MDB_env) (off : Z) (bs : bytes)
    : res ((Z + Z) * MDB_env * list Pwrite) :=
  '(r, f, rest) ← do_pwrite answers (me_file e) off bs;
  if mfd : bool then
    '(_, d, _) ← do_pwrite answers (me_disk e) off bs;
    Ok (r, set_disk (set_file e f) d, rest)
  else Ok (r, set_file e f, rest).

(** The stores of a commit on a writable map, in their order. *)
Definition meta_stores (base mapsize : Z) (free main : MDB_db) (last_pg txnid : Z) : list (Z * bytes) :=
  [(base + MAPSIZE_OFF, le_bytes 8 mapsize); (base + 24, db_bytes free); (base + 72, db_bytes main);
   (base + 120, le_bytes 8 last_pg); (base + 128, le_bytes 8 txnid)].
Definition store_all (f : bytes) (l : list (Z * bytes)) : bytes := foldl (λ f s, file_write f s.1 s.2) f l.

(** Where the record of the transaction goes, and its fields. *)
Definition meta_fields (mt_txnid : Z) (txn : MDB_txn) (e : MDB_env) : res (Z * Z * MDB_db * MDB_db * Z) :=
  let toggle := Z.land mt_txnid 1 in
  other ← me_metas e (Z.lxor toggle 1);
  let mapsize := if mm_mapsize other <? me_mapsize e then me_mapsize e else mm_mapsize other in
  free ← cell (mt_dbs txn) 0; main ← cell (mt_dbs txn) 1;
  Ok (meta_off (me_psize e) toggle, mapsize, free, main, u64 (mt_next_pgno txn - 1)).

Definition meta_writes (mt_txnid : Z) (txn : MDB_txn) (e : MDB_env) : res (list (Z * bytes)) :=
  '(base, mapsize, free, main, last_pg) ← meta_fields mt_txnid txn e;
  Ok (meta_stores base mapsize free main last_pg mt_txnid).

(** [msync] of the meta page at [off], from the start of the page of the system on. *)
Definition msync_meta (e : MDB_env) (off : Z) : MDB_env :=
  let r2 := Z.land off (me_os_psize e - 1) in
  set_disk e (file_write (me_disk e) (off - r2) (pread_file (me_file e) (me_psize e + r2) (off - r2))).

(** [goto fail] *)
Definition meta_fail (e : MDB_env) (rc : Z) : Z * MDB_env := (rc, set_flags e (set_flag (me_flags e) MDB_FATAL_ERROR)).

(** From the label [done] on. *)
Definition meta_done (e : MDB_env) (mt_txnid : Z) : Z * MDB_env := (MDB_SUCCESS, set_mti_txnid e mt_txnid).

(** [mdb_env_write_meta] for the transaction [txn] with the number [mt_txnid]; [msync] is
    0 or the error. *)
Definition mdb_env_write_meta (msync : Z) (answers : list Pwrite) (mt_txnid : Z) (txn : MDB_txn) (e : MDB_env)
    : res (Z * MDB_env) :=
  let flags := me_flags e in
  let sync := negb (has_flag flags (Z.lor MDB_NOSYNC MDB_NOMETASYNC)) in
  mp ← me_metas e (Z.land mt_txnid 1);
  '(base, mapsize, free, main, last_pg) ← meta_fields mt_txnid txn e;
  if has_flag flags MDB_WRITEMAP then
    l ← meta_writes mt_txnid txn e;
    let e := set_file e (store_all (me_file e) l) in
    if sync then
      if negb (msync =? 0) then Ok (meta_fail e msync)
      else Ok (meta_done (if has_flag flags MDB_MAPASYNC then e else msync_meta e (base - PAGEHDRSZ)) mt_txnid)
    else Ok (meta_done e mt_txnid)
  else
    let tail last_pg txnid := meta_tail mapsize free main last_pg txnid in
    let ptr := tail last_pg mt_txnid in
    let off := base + MAPSIZE_OFF in
    '(r, e, answers) ← fd_pwrite sync answers e off ptr;
    if (match r with inl _ => false | inr n => n =? Z.of_nat (length ptr) end) then Ok (meta_done e mt_txnid)
    else
      let rc := match r with inl err => err | inr _ => EIO end in
      match answers with
      | [] => NoFuel
      | a :: _ =>
          let old := tail (mm_last_pg mp) (mm_txnid mp) in
          Ok (meta_fail (set_file e (file_write (me_file e) off (take (Z.to_nat (pwritten a)) old))) rc)
      end.

(** ** The calls on an environment *)

Definition mdb_env_stat (e : MDB_env) : res MDB_stat :=
  i ← mdb_env_pick_meta e; m ← me_metas e i; Ok (mdb_stat0 (me_psize e) (mm_main m)).

(** The address, the last page and the last transaction, and the other fields. *)
Definition mdb_env_info (e : MDB_env) : res (Z * Z * Z * Z * Z * Z) :=
  i ← mdb_env_pick_meta e; m ← me_metas e i;
  Ok (mm_address m, mm_last_pg m, mm_txnid m, me_mapsize e, me_maxreaders e,
      match me_txns e with Some (_, n) => n | None => 0 end).

Definition mdb_env_set_maxdbs (dbs : Z) (e : MDB_env) : Z * MDB_env :=
  if negb (me_map e =? 0) then (EINVAL, e) else (MDB_SUCCESS, set_limits e (me_maxreaders e) (u32 (dbs + CORE_DBS))).

Definition mdb_env_set_maxreaders (readers : Z) (e : MDB_env) : Z * MDB_env :=
  if (negb (me_map e =? 0) || (readers <? 1))%bool then (EINVAL, e) else (MDB_SUCCESS, set_limits e readers (me_maxdbs e)).
