(* ===== verification/MetaProps.v ===== *)
(** * The meta pages of LMDB: a commit is atomic

    However far the writing of a meta page gets, the two pages name the old version of
    the database or the new one.  And what a commit, a failed commit and a new file leave
    behind. *)

From S2P Require Import Prelude.
From S2P Require Import Lmdb Midl Page PageProps PageMore Tree Dump Load Meta.

(** ** Little-endian numbers *)

Lemma length_le_bytes n z : length (le_bytes n z) = n.
Proof. revert z. induction n as [|n IH]; intros z; [done|]. cbn. by rewrite IH. Qed.

Lemma le_le_bytes n z : 0 ≤ z < 256 ^ Z.of_nat n → le (le_bytes n z) = z.
Proof.
  revert z. induction n as [|n IH]; intros z Hz; [cbn in *; lia|]. cbn [le_bytes le].
  rewrite Nat2Z.inj_succ, Z.pow_succ_r in Hz by lia. rewrite IH.
  - pose proof (Z.div_mod z 256). lia.
  - split; [apply Z.div_pos; lia|]. apply Z.div_lt_upper_bound; lia.
Qed.

Definition is_bytes (l : bytes) : Prop := Forall (λ b, 0 ≤ b < 256) l.

Lemma le_bytes_bytes n z : is_bytes (le_bytes n z).
Proof. revert z. induction n as [|n IH]; intros z; constructor; [apply Z.mod_pos_bound; lia|apply IH]. Qed.

Lemma le_inj l1 l2 : is_bytes l1 → is_bytes l2 → length l1 = length l2 → le l1 = le l2 → l1 = l2.
Proof.
  intros H1. revert l2. induction H1 as [|b1 l1 Hb1 _ IH]; intros [|b2 l2] H2 Hl; try done.
  apply Forall_cons in H2 as [Hb2 H2]. cbn [le]. intros E. assert (b1 = b2 ∧ le l1 = le l2) as [-> E'] by lia.
  f_equal. apply IH; [done|by injection Hl|done].
Qed.

(** A number of which only the first [j] bytes were written: it is the new one, or the
    old one, or less than the new one by more than 1. *)
Lemma torn_number j old new :
  is_bytes old → is_bytes new → length old = length new → le old < le new →
  let t := take j new ++ drop j old in t = new ∨ t = old ∨ le t + 1 < le new.
Proof.
  intros Ho Hn Hl Hlt t. set (B := 256 ^ Z.of_nat (length (take j new))).
  assert (Hlen : length (take j old) = length (take j new)) by (rewrite !length_take; lia).
  assert (En : le new = le (take j new) + B * le (drop j new)) by (unfold B; rewrite <-le_app, take_drop; done).
  assert (Eo : le old = le (take j old) + B * le (drop j old)).
  { unfold B. rewrite <-Hlen, <-le_app, take_drop. done. }
  pose proof (le_range _ (Forall_take _ j _ Hn)) as Hrn. pose proof (le_range _ (Forall_take _ j _ Ho)) as Hro.
  rewrite Hlen in Hro. fold B in Hrn, Hro.
  destruct (decide (le (drop j old) = le (drop j new))) as [Heq|Hne].
  - left. unfold t. rewrite (le_inj (drop j old) (drop j new)); [apply take_drop|by apply Forall_drop..| |done].
    rewrite !length_drop. lia.
  - right. destruct (take j new) as [|b l] eqn:Et.
    + left. unfold t. apply nil_length_inv in Hlen. rewrite <-Hlen. apply take_drop.
    + right. assert (HB : 256 ≤ B).
      { unfold B. cbn [length]. rewrite Nat2Z.inj_succ, Z.pow_succ_r by lia.
        pose proof (Z.pow_pos_nonneg 256 (Z.of_nat (length l)) ltac:(lia) ltac:(lia)). lia. }
      unfold t. rewrite le_app. fold B. assert (le (drop j old) < le (drop j new)) by nia. nia.
Qed.

(** ** Parts of a file *)

Definition region (f : bytes) (off n : Z) : bytes := take (Z.to_nat n) (drop (Z.to_nat off) f).

Lemma mread_Ok f off n : 0 ≤ off → 0 ≤ n → off + n ≤ Z.of_nat (length f) → mread f off n = Ok (region f off n).
Proof. intros. unfold mread. by rewrite !(proj2 (Z.leb_le _ _)) by lia. Qed.

Lemma length_region f off n :
  0 ≤ off → 0 ≤ n → off + n ≤ Z.of_nat (length f) → length (region f off n) = Z.to_nat n.
Proof. intros. unfold region. rewrite length_take, length_drop. lia. Qed.

Lemma mread_region f off n o k :
  0 ≤ off → 0 ≤ o → 0 ≤ k → o + k ≤ n → off + n ≤ Z.of_nat (length f) → mread f (off + o) k = mread (region f off n) o k.
Proof.
  intros. rewrite !mread_Ok by (rewrite ?length_region; lia). f_equal. unfold region.
  rewrite skipn_firstn_comm, drop_drop, take_take. f_equal; [lia|]. f_equal. lia.
Qed.

(** The [i]-th of some parts that lie one behind the other. *)
Lemma mread_nth (ls : list bytes) i x off n :
  ls !! i = Some x → off = Z.of_nat (length (concat (take i ls))) → n = Z.of_nat (length x) →
  mread (concat ls) off n = Ok x.
Proof.
  intros Hi -> ->. apply mread_at with (concat (take i ls)) (concat (drop (S i) ls)); [|done..].
  rewrite <-(take_drop_middle ls i x Hi) at 1. by rewrite concat_app.
Qed.

(** ** Records *)

Definition db_ok (d : MDB_db) : Prop :=
  0 ≤ md_pad d < 2 ^ 32 ∧ 0 ≤ md_flags d < 2 ^ 16 ∧ 0 ≤ md_depth d < 2 ^ 16 ∧ 0 ≤ md_branch_pages d < 2 ^ 64 ∧
  0 ≤ md_leaf_pages d < 2 ^ 64 ∧ 0 ≤ md_overflow_pages d < 2 ^ 64 ∧ 0 ≤ md_entries d < 2 ^ 64 ∧ 0 ≤ md_root d < 2 ^ 64.

Definition meta_ok (m : MDB_meta) : Prop :=
  0 ≤ mm_magic m < 2 ^ 32 ∧ 0 ≤ mm_version m < 2 ^ 32 ∧ 0 ≤ mm_address m < 2 ^ 64 ∧ 0 ≤ mm_mapsize m < 2 ^ 64 ∧
  db_ok (mm_free m) ∧ db_ok (mm_main m) ∧ 0 ≤ mm_last_pg m < 2 ^ 64 ∧ 0 ≤ mm_txnid m < 2 ^ 64.

(** Reads the [i]-th field of a record of parts [ls]. *)
Ltac field ls i :=
  match goal with |- context [mread (concat ls) ?off ?n] => erewrite (mread_nth ls i _ off n) by reflexivity end;
  cbn [mbind res_bind]; rewrite ?le_le_bytes by (cbn; lia).

Lemma read_db_bytes d : db_ok d → read_db (db_bytes d) = Ok d.
Proof.
  intros (? & ? & ? & ? & ? & ? & ? & ?). unfold read_db.
  set (ls := [le_bytes 4 (md_pad d); le_bytes 2 (md_flags d); le_bytes 2 (md_depth d); le_bytes 8 (md_branch_pages d);
    le_bytes 8 (md_leaf_pages d); le_bytes 8 (md_overflow_pages d); le_bytes 8 (md_entries d); le_bytes 8 (md_root d)]).
  assert (E : db_bytes d = concat ls) by (unfold db_bytes, ls; cbn [concat]; by rewrite app_nil_r).
  rewrite E. field ls 0%nat. field ls 1%nat. field ls 2%nat. field ls 3%nat. field ls 4%nat. field ls 5%nat.
  field ls 6%nat. field ls 7%nat. by destruct d.
Qed.

Lemma meta_at_bytes m : meta_ok m → meta_at (meta_bytes m) 0 = Ok m.
Proof.
  intros (? & ? & ? & ? & Hf & Hm & ? & ?). unfold meta_at.
  set (ls := [le_bytes 4 (mm_magic m); le_bytes 4 (mm_version m); le_bytes 8 (mm_address m); le_bytes 8 (mm_mapsize m);
    db_bytes (mm_free m); db_bytes (mm_main m); le_bytes 8 (mm_last_pg m); le_bytes 8 (mm_txnid m)]).
  assert (E : meta_bytes m = concat ls) by (unfold meta_bytes, meta_tail, ls; cbn [concat]; by rewrite app_nil_r).
  rewrite E. field ls 0%nat. field ls 1%nat. field ls 2%nat. field ls 3%nat. field ls 4%nat.
  rewrite read_db_bytes by done. cbn [mbind res_bind]. field ls 5%nat.
  rewrite read_db_bytes by done. cbn [mbind res_bind]. field ls 6%nat. field ls 7%nat. by destruct m.
Qed.

Lemma meta_at_region f off :
  0 ≤ off → off + META_SIZE ≤ Z.of_nat (length f) → meta_at f off = meta_at (region f off META_SIZE) 0.
Proof.
  unfold META_SIZE. intros. unfold meta_at. rewrite !(mread_region f off 136) by lia. done.
Qed.

(** A record can always be read; its number is the last field. *)
Lemma meta_at_total r :
  Z.of_nat (length r) = META_SIZE → ∃ m, meta_at r 0 = Ok m ∧ mm_txnid m = le (drop 128 r).
Proof.
  unfold META_SIZE. intros Hr. unfold meta_at. rewrite !mread_Ok by lia. cbn [mbind res_bind].
  assert (Hdb : ∀ o, 0 ≤ o → o + 48 ≤ 136 → ∃ d, read_db (region r o 48) = Ok d).
  { intros o ? ?. unfold read_db. rewrite !mread_Ok by (rewrite ?length_region; lia). by eexists. }
  destruct (Hdb (0 + 24)) as [d1 ->]; [lia..|]. destruct (Hdb (0 + 72)) as [d2 ->]; [lia..|].
  cbn [mbind res_bind]. eexists. split; [done|]. cbn [mm_txnid]. f_equal. unfold region. apply take_ge.
  rewrite length_drop. lia.
Qed.

(** ** Writing a part of a page *)

Lemma file_write_in A r C off bs :
  off = Z.of_nat (length A) + 16 → (16 + length bs ≤ length r)%nat →
  file_write (A ++ r ++ C) off bs = A ++ (take 16 r ++ bs ++ drop (16 + length bs) r) ++ C.
Proof.
  intros -> Hl. unfold file_write. replace (Z.to_nat (Z.of_nat (length A) + 16)) with (length A + 16)%nat by lia.
  replace (length A + 16 - length (A ++ r ++ C))%nat with 0%nat by (rewrite !length_app; lia).
  rewrite take_app_add, take_app_le, <-Nat.add_assoc, drop_app_add, drop_app_le by lia.
  cbn [replicate app]. by rewrite <-!(assoc_L (++)).
Qed.

(** The page of the record [r] when the first [k] bytes of [X] and the number [id] have
    been written into it. *)
Definition torn_record (r X id : bytes) (k : nat) : bytes :=
  let bs := take k (X ++ id) in take 16 r ++ bs ++ drop (16 + length bs) r.

Lemma torn_record_id r X id k :
  length r = 136%nat → length X = 112%nat → length id = 8%nat →
  length (torn_record r X id k) = 136%nat ∧
  (drop 128 (torn_record r X id k) = drop 128 r ∨
   drop 128 (torn_record r X id k) = take (k - 112) id ++ drop (k - 112) (drop 128 r) ∧ (112 < k)%nat).
Proof.
  intros Hr HX Hid. unfold torn_record. split.
  { rewrite !length_app, length_drop, !length_take, length_app. lia. }
  destruct (decide (k ≤ 112)%nat) as [Hk|Hk].
  - left. rewrite take_app_le by lia. rewrite length_take, Nat.min_l by lia.
    rewrite (assoc_L (++)), drop_app_ge by (rewrite length_app, !length_take; lia).
    rewrite length_app, !length_take, drop_drop. f_equal. lia.
  - right. split; [|lia]. rewrite take_app_ge by lia. rewrite HX, length_app, HX, length_take.
    rewrite !drop_drop. set (id' := take (k - 112) id).
    replace (take 16 r ++ (X ++ id') ++ drop (16 + (112 + (k - 112) `min` length id)) r)
      with ((take 16 r ++ X) ++ id' ++ drop (16 + (112 + (k - 112) `min` length id)) r) by (by rewrite <-!(assoc_L (++))).
    assert (Hl : length (take 16 r ++ X) = 128%nat) by (rewrite length_app, length_take; lia).
    rewrite drop_app_ge, Hl by lia. cbn [Nat.sub drop]. change (128 - 128)%nat with 0%nat. rewrite drop_0. f_equal.
    destruct (decide (k - 112 ≤ 8)%nat); [f_equal; lia|]. rewrite !drop_ge; [done|lia..].
Qed.

Lemma file_split f off :
  0 ≤ off → off + META_SIZE ≤ Z.of_nat (length f) →
  f = take (Z.to_nat off) f ++ region f off META_SIZE ++ drop (Z.to_nat (off + META_SIZE)) f.
Proof.
  unfold META_SIZE, region. intros. rewrite <-(take_drop (Z.to_nat off) f) at 1. f_equal.
  rewrite <-(take_drop (Z.to_nat 136) (drop (Z.to_nat off) f)) at 1. f_equal. rewrite drop_drop. f_equal. lia.
Qed.

Lemma meta_at_this A r C : Z.of_nat (length r) = META_SIZE → meta_at (A ++ r ++ C) (Z.of_nat (length A)) = meta_at r 0.
Proof.
  unfold META_SIZE. intros Hr. rewrite meta_at_region by (unfold META_SIZE; rewrite ?length_app; lia).
  unfold region. rewrite Nat2Z.id, drop_app_length. f_equal. unfold META_SIZE. rewrite take_app_le by lia.
  apply take_ge. lia.
Qed.

Lemma meta_at_other A r r' C off :
  length r = length r' → 0 ≤ off →
  off + META_SIZE ≤ Z.of_nat (length A) ∨ Z.of_nat (length (A ++ r)) ≤ off ∧ off + META_SIZE ≤ Z.of_nat (length (A ++ r ++ C)) →
  meta_at (A ++ r ++ C) off = meta_at (A ++ r' ++ C) off.
Proof.
  intros Hl Hoff H. unfold META_SIZE in *. rewrite !length_app in H.
  rewrite (meta_at_region (A ++ r ++ C)), (meta_at_region (A ++ r' ++ C)) by (unfold META_SIZE; rewrite ?length_app; lia).
  f_equal. unfold region, META_SIZE. destruct H as [H|[H _]].
  - rewrite !drop_app_le by lia. rewrite !take_app_le by (rewrite length_drop; lia). done.
  - f_equal. rewrite !(assoc_L (++) A), !drop_app_ge by (rewrite length_app; lia). rewrite !length_app. by rewrite Hl.
Qed.

(** As [field], where the lengths of the first parts are known by [L] and [Hoff]. *)
Ltac field' ls i L Hoff :=
  match goal with |- context [mread (concat ls) ?off ?n] =>
    erewrite (mread_nth ls i _ off n); [|reflexivity|rewrite Hoff; reflexivity|rewrite ?L; reflexivity] end;
  cbn [mbind res_bind].

(** The record after a whole commit: the first three fields stay. *)
Lemma meta_at_committed r old mapsize free main last_pg txnid :
  Z.of_nat (length r) = META_SIZE → meta_at r 0 = Ok old →
  0 ≤ mapsize < 2 ^ 64 → db_ok free → db_ok main → 0 ≤ last_pg < 2 ^ 64 → 0 ≤ txnid < 2 ^ 64 →
  meta_at (take 16 r ++ meta_tail mapsize free main last_pg txnid) 0
  = Ok (MkMeta (mm_magic old) (mm_version old) (mm_address old) mapsize free main last_pg txnid).
Proof.
  unfold META_SIZE. intros Hr Hold ? Hf Hm ? ?.
  set (ls := [region r 0 4; region r 4 4; region r 8 8; le_bytes 8 mapsize; db_bytes free; db_bytes main;
    le_bytes 8 last_pg; le_bytes 8 txnid]).
  assert (E : take 16 r ++ meta_tail mapsize free main last_pg txnid = concat ls).
  { unfold meta_tail, ls. cbn [concat]. rewrite app_nil_r, !(assoc_L (++)). do 5 f_equal. unfold region.
    change (Z.to_nat 0) with 0%nat. change (Z.to_nat 4) with 4%nat. change (Z.to_nat 8) with 8%nat.
    destruct r as [|? [|? [|? [|? [|? [|? [|? [|? [|? [|? [|? [|? [|? [|? [|? [|? r]]]]]]]]]]]]]]]]; try (cbn in Hr; lia).
    reflexivity. }
  assert (L4 : length (region r 0 4) = 4%nat ∧ length (region r 4 4) = 4%nat ∧ length (region r 8 8) = 8%nat)
    by (rewrite !length_region by lia; done).
  destruct L4 as (L1 & L2 & L3).
  assert (Hhead : mm_magic old = le (region r 0 4) ∧ mm_version old = le (region r 4 4) ∧ mm_address old = le (region r 8 8)).
  { revert Hold. unfold meta_at. rewrite !mread_Ok by lia. cbn [mbind res_bind].
    destruct (read_db (region r (0 + 24) 48)); try done. cbn [mbind res_bind].
    destruct (read_db (region r (0 + 72) 48)); try done. cbn [mbind res_bind]. by intros [= <-]. }
  destruct Hhead as (-> & -> & ->). rewrite E. unfold meta_at.
  assert (Hoff : ∀ i, length (concat (take i ls)) = length (concat (take i ([replicate 4 0; replicate 4 0; replicate 8 0] ++ drop 3 ls)))).
  { unfold ls. intros [|[|[|i]]]; cbn [drop app take concat]; rewrite ?length_app, ?length_replicate, ?L1, ?L2, ?L3; done. }
  field' ls 0%nat L1 Hoff. field' ls 1%nat L2 Hoff. field' ls 2%nat L3 Hoff. field' ls 3%nat L1 Hoff. field' ls 4%nat L1 Hoff.
  rewrite read_db_bytes by done. cbn [mbind res_bind]. field' ls 5%nat L1 Hoff.
  rewrite read_db_bytes by done. cbn [mbind res_bind]. field' ls 6%nat L1 Hoff. field' ls 7%nat L1 Hoff.
  by rewrite !le_le_bytes by (cbn; lia).
Qed.

(** ** Writes one after the other *)

Lemma file_write_at f off bs :
  0 ≤ off → off + Z.of_nat (length bs) ≤ Z.of_nat (length f) →
  file_write f off bs = take (Z.to_nat off) f ++ bs ++ drop (Z.to_nat off + length bs) f.
Proof.
  intros. unfold file_write. replace (Z.to_nat off - length f)%nat with 0%nat by lia. done.
Qed.

Lemma file_write_nil f off : 0 ≤ off ≤ Z.of_nat (length f) → file_write f off [] = f.
Proof.
  intros. rewrite file_write_at by (cbn; lia). cbn [app length]. by rewrite Nat.add_0_r, take_drop.
Qed.

Lemma length_file_write f off bs :
  0 ≤ off → off + Z.of_nat (length bs) ≤ Z.of_nat (length f) → length (file_write f off bs) = length f.
Proof. intros. rewrite file_write_at by lia. rewrite !length_app, length_take, length_drop. lia. Qed.

(** The same data again, as far as each of two calls got. *)
Lemma file_write_twice f off bs a b :
  0 ≤ off → off + Z.of_nat (length bs) ≤ Z.of_nat (length f) →
  file_write (file_write f off (take a bs)) off (take b bs) = file_write f off (take (a `max` b) bs).
Proof.
  intros H0 Hl. assert (Ht : ∀ n, off + Z.of_nat (length (take n bs)) ≤ Z.of_nat (length f)) by (intros n; rewrite length_take; lia).
  rewrite (file_write_at (file_write _ _ _)) by (rewrite ?length_file_write by done; done).
  rewrite !file_write_at by done. set (o := Z.to_nat off).
  assert (Ho : length (take o f) = o) by (rewrite length_take; unfold o; specialize (Ht 0%nat); cbn in Ht; lia).
  rewrite take_app_le, take_take, Nat.min_id by lia. f_equal.
  rewrite drop_app_ge, Ho by lia. replace (o + length (take b bs) - o)%nat with (length (take b bs)) by lia.
  rewrite !length_take. destruct (decide (a ≤ b)%nat).
  - rewrite Nat.max_r by lia. f_equal. rewrite drop_app_ge by (rewrite length_take; lia).
    rewrite length_take, drop_drop. f_equal. lia.
  - rewrite Nat.max_l by lia. rewrite drop_app_le by (rewrite length_take; lia). rewrite (assoc_L (++)). f_equal.
    rewrite skipn_firstn_comm. destruct (decide (b ≤ length bs)%nat).
    + rewrite Nat.min_l by lia. rewrite <-(take_drop b (take a bs)) at 1. rewrite take_take, Nat.min_l by lia.
      by rewrite skipn_firstn_comm.
    + rewrite (drop_ge bs) by lia. rewrite take_nil, app_nil_r. rewrite !take_ge by lia. done.
Qed.

(** Data that covers what was written before. *)
Lemma file_write_over f off b1 b2 :
  (length b1 ≤ length b2)%nat → 0 ≤ off → off + Z.of_nat (length b2) ≤ Z.of_nat (length f) →
  file_write (file_write f off b1) off b2 = file_write f off b2.
Proof.
  intros Hb H0 Hl. rewrite (file_write_at (file_write _ _ _)) by (rewrite ?length_file_write by lia; lia).
  rewrite !file_write_at by lia.
  assert (Ho : length (take (Z.to_nat off) f) = Z.to_nat off) by (rewrite length_take; lia).
  rewrite take_app_le, take_take, Nat.min_id by lia. do 2 f_equal.
  rewrite drop_app_ge by lia. rewrite Ho, drop_app_ge by lia. rewrite drop_drop. f_equal. lia.
Qed.

Lemma file_write_append f off b1 b2 :
  0 ≤ off → off + Z.of_nat (length (b1 ++ b2)) ≤ Z.of_nat (length f) →
  file_write (file_write f off b1) (off + Z.of_nat (length b1)) b2 = file_write f off (b1 ++ b2).
Proof.
  intros H0 Hl. rewrite length_app in Hl.
  rewrite (file_write_at (file_write _ _ _)) by (rewrite ?length_file_write by lia; lia).
  rewrite !file_write_at by (rewrite ?length_app; lia).
  set (P := take (Z.to_nat off) f ++ b1).
  assert (Ho : length P = Z.to_nat (off + Z.of_nat (length b1))) by (unfold P; rewrite length_app, length_take; lia).
  rewrite (assoc_L (++) (take _ f) b1). fold P. rewrite <-Ho, take_app_length, drop_app_ge by lia.
  rewrite <-(assoc_L (++) b1), (assoc_L (++) (take _ f) b1). fold P. do 2 f_equal.
  rewrite drop_drop, length_app. f_equal. lia.
Qed.

(** [do_pwrite] goes on after EINTR and writes some part of the data in the end. *)
Definition interrupted (a : Pwrite) : Prop := ∃ n, a = Failed EINTR n.

Lemma do_pwrite_eintr l a rest f off bs :
  Forall interrupted l → 0 ≤ off → off + Z.of_nat (length bs) ≤ Z.of_nat (length f) →
  ∃ k, do_pwrite (l ++ a :: rest) f off bs = do_pwrite (a :: rest) (file_write f off (take k bs)) off bs.
Proof.
  intros Hl H0 Hlen. revert f Hlen. induction Hl as [|x l [n ->] _ IH]; intros f Hlen.
  - exists 0%nat. rewrite take_0, file_write_nil by lia. done.
  - cbn [app do_pwrite pwritten]. change (EINTR =? EINTR) with true. cbn match.
    assert (Ht : off + Z.of_nat (length (take (Z.to_nat n) bs)) ≤ Z.of_nat (length f)) by (rewrite length_take; lia).
    destruct (IH (file_write f off (take (Z.to_nat n) bs))) as [k E]; [rewrite length_file_write by done; done|].
    exists (Z.to_nat n `max` k)%nat. rewrite E. by rewrite file_write_twice by done.
Qed.

Lemma region_bytes n f off k : is_bytes (take n f) → 0 ≤ off ∧ off + k ≤ Z.of_nat n → is_bytes (region f off k).
Proof.
  unfold is_bytes, region. rewrite !Forall_lookup. intros Hf Hr i x [Hi Hn]%lookup_take_Some. rewrite lookup_drop in Hi.
  eapply Hf. rewrite lookup_take_Some. split; [exact Hi|lia].
Qed.

(** ** The commit of a transaction *)

Section commit.
Context (e : MDB_env) (W : Z) (txn : MDB_txn) (prev old : MDB_meta) (free main : MDB_db).

(** The page that is written, and the other one. *)
Definition toggle : Z := Z.land W 1.
Definition other : Z := Z.lxor toggle 1.
Definition new_mapsize : Z := if mm_mapsize prev <? me_mapsize e then me_mapsize e else mm_mapsize prev.
Definition new_last_pg : Z := u64 (mt_next_pgno txn - 1).

(** The file has both pages, the last version is that of the transaction before this one,
    and the page to be written has an older one. *)
Record commit_ok : Prop := CommitOk {
  co_psize : METABUF_SIZE ≤ me_psize e;
  co_file : 2 * me_psize e ≤ Z.of_nat (length (me_file e)) ∧ is_bytes (take (Z.to_nat (2 * me_psize e)) (me_file e));
  co_prev : me_metas e other = Ok prev ∧ mm_txnid prev = W - 1;
  co_old : me_metas e toggle = Ok old ∧ (mm_txnid old < W - 1 ∨ W = 1 ∧ mm_txnid old = 0);
  co_W : 0 < W < 2 ^ 64;
  co_sizes : 0 ≤ mm_mapsize prev < 2 ^ 64 ∧ 0 ≤ me_mapsize e < 2 ^ 64;
  co_dbs : cell (mt_dbs txn) 0 = Ok free ∧ cell (mt_dbs txn) 1 = Ok main ∧ db_ok free ∧ db_ok main }.

Definition commit_data : bytes := meta_tail new_mapsize free main new_last_pg W.

(** The file when [k] bytes of the data of the commit have been written. *)
Definition torn (k : nat) : bytes :=
  file_write (me_file e) (meta_off (me_psize e) toggle + MAPSIZE_OFF) (take k commit_data).

Definition committed : MDB_meta :=
  MkMeta (mm_magic old) (mm_version old) (mm_address old) new_mapsize free main new_last_pg W.

Lemma toggle_cases : toggle = 0 ∧ other = 1 ∧ W mod 2 = 0 ∨ toggle = 1 ∧ other = 0 ∧ W mod 2 = 1.
Proof using Type.
  assert (E : Z.land W 1 = W mod 2) by (change 1 with (Z.ones 1); apply Z.land_ones; lia).
  unfold other, toggle. rewrite E. pose proof (Z.mod_pos_bound W 2 ltac:(lia)).
  assert (W mod 2 = 0 ∨ W mod 2 = 1) as [-> | ->] by lia; auto.
Qed.

(** The file around the page that is written. *)
Lemma commit_split (Hok : commit_ok) :
  ∃ A r C, me_file e = A ++ r ++ C ∧ Z.of_nat (length A) = meta_off (me_psize e) toggle ∧ length r = 136%nat ∧
    is_bytes r ∧ meta_at r 0 = Ok old ∧ le (drop 128 r) = mm_txnid old ∧
    (∀ r', length r' = 136%nat →
       me_metas (set_file e (A ++ r' ++ C)) toggle = meta_at r' 0 ∧
       me_metas (set_file e (A ++ r' ++ C)) other = Ok prev).
Proof using Type.
  destruct Hok as [Hp [Hf Hb] [Hprev _] [Hold _] _ _ _]. unfold METABUF_SIZE, META_SIZE, PAGEHDRSZ in Hp.
  set (off := meta_off (me_psize e) toggle). set (f := me_file e) in *.
  assert (Hoff : 0 ≤ off ∧ off + META_SIZE ≤ Z.of_nat (length f)).
  { unfold off, meta_off, META_SIZE, PAGEHDRSZ. destruct toggle_cases as [(-> & _)|(-> & _)]; lia. }
  destruct Hoff as [H0 H1]. pose proof (file_split f off H0 H1) as Es.
  set (A := take (Z.to_nat off) f) in *. set (r := region f off META_SIZE) in *.
  set (C := drop (Z.to_nat (off + META_SIZE)) f) in *.
  assert (Hr : length r = 136%nat) by (unfold r; rewrite length_region by (unfold META_SIZE in *; lia); done).
  assert (HA : Z.of_nat (length A) = off) by (unfold A, META_SIZE in *; rewrite length_take; lia).
  assert (Hthis : ∀ r', length r' = 136%nat → meta_at (A ++ r' ++ C) off = meta_at r' 0).
  { intros r' Hr'. rewrite <-HA. apply meta_at_this. unfold META_SIZE. lia. }
  exists A, r, C. split; [done|]. split; [done|]. split; [done|].
  assert (Hbr : is_bytes r).
  { apply (region_bytes (Z.to_nat (2 * me_psize e))); [done|]. unfold off, meta_off, META_SIZE, PAGEHDRSZ.
    destruct toggle_cases as [(-> & _)|(-> & _)]; lia. }
  split; [done|]. unfold me_metas in Hold. fold f off in Hold. rewrite Es, (Hthis r Hr) in Hold. split; [done|].
  split.
  { destruct (meta_at_total r) as (m & E & Eid); [unfold META_SIZE; lia|]. rewrite Hold in E. injection E as <-. done. }
  intros r' Hr'. split; [exact (Hthis r' Hr')|]. unfold me_metas in *. cbn [me_file me_psize set_file]. fold f in Hprev.
  rewrite Es in Hprev. rewrite <-Hprev.
  assert (HC : Z.of_nat (length (A ++ r ++ C)) = Z.of_nat (length f)) by (by rewrite <-Es).
  apply meta_at_other; [lia| |].
  - unfold meta_off, PAGEHDRSZ. destruct toggle_cases as [(_ & -> & _)|(_ & -> & _)]; lia.
  - assert (HC' : length (A ++ r' ++ C) = length (A ++ r ++ C)) by (rewrite !length_app; lia).
    rewrite HC', HC. unfold off, meta_off, META_SIZE, PAGEHDRSZ in *. rewrite length_app.
    destruct toggle_cases as [(Et & -> & _)|(Et & -> & _)]; rewrite Et in *; lia.
Qed.

Definition commit_head : bytes := le_bytes 8 new_mapsize ++ db_bytes free ++ db_bytes main ++ le_bytes 8 new_last_pg.

Lemma commit_data_split : commit_data = commit_head ++ le_bytes 8 W ∧ length commit_head = 112%nat ∧ length commit_data = 120%nat.
Proof using Type. unfold commit_data, commit_head, meta_tail. split; [by rewrite <-!(assoc_L (++))|by split]. Qed.

Lemma write_part A r C bs :
  me_file e = A ++ r ++ C → Z.of_nat (length A) = meta_off (me_psize e) toggle → length r = 136%nat → (length bs ≤ 120)%nat →
  file_write (me_file e) (meta_off (me_psize e) toggle + MAPSIZE_OFF) bs = A ++ (take 16 r ++ bs ++ drop (16 + length bs) r) ++ C.
Proof using Type. intros -> HA Hr Hl. apply file_write_in; unfold MAPSIZE_OFF; lia. Qed.

Lemma torn_split A r C k :
  me_file e = A ++ r ++ C → Z.of_nat (length A) = meta_off (me_psize e) toggle → length r = 136%nat →
  torn k = A ++ torn_record r commit_head (le_bytes 8 W) k ++ C.
Proof using Type.
  intros Hf HA Hr. destruct commit_data_split as (Ed & _ & Hl). unfold torn.
  rewrite (write_part A r C) by (done || rewrite length_take; lia). by rewrite Ed.
Qed.

(** Which page is picked, from the number in the page that is written. *)
Lemma pick_other f m :
  commit_ok → me_metas (set_file e f) toggle = Ok m → me_metas (set_file e f) other = Ok prev →
  mm_txnid m + 1 < W ∨ mm_txnid m = mm_txnid old → mdb_env_pick_meta (set_file e f) = Ok other.
Proof using Type.
  intros [_ _ [_ Hprev] [_ Hold] HW _ _] Hm Hp Hid. unfold mdb_env_pick_meta.
  destruct toggle_cases as [(Et & Eo & HW2)|(Et & Eo & HW2)]; rewrite Et, Eo in *; rewrite Hm, Hp; cbn [mbind res_bind].
  - rewrite (proj2 (Z.ltb_lt _ _)); [done|]. assert (W ≠ 1) by (intros ->; done). lia.
  - rewrite (proj2 (Z.ltb_ge _ _)); [done|]. lia.
Qed.

Lemma pick_new f :
  commit_ok → me_metas (set_file e f) toggle = Ok committed → me_metas (set_file e f) other = Ok prev →
  mdb_env_pick_meta (set_file e f) = Ok toggle.
Proof using Type.
  intros [_ _ [_ Hprev] _ HW _ _] Hm Hp. unfold mdb_env_pick_meta.
  destruct toggle_cases as [(Et & Eo & _)|(Et & Eo & _)]; rewrite Et, Eo in *; rewrite Hm, Hp; cbn [mbind res_bind].
  - rewrite (proj2 (Z.ltb_ge _ _)); [done|]. cbn [mm_txnid committed]. lia.
  - rewrite (proj2 (Z.ltb_lt _ _)); [done|]. cbn [mm_txnid committed]. lia.
Qed.

Lemma torn_cases k :
  commit_ok → torn k = torn 120 ∨
    mdb_env_pick_meta (set_file e (torn k)) = Ok other ∧ me_metas (set_file e (torn k)) other = Ok prev.
Proof using Type.
  intros Hok. destruct (commit_split Hok) as (A & r & C & Hf & HA & Hr & Hb & Hold & Hid & Hm).
  destruct commit_data_split as (_ & HX & _).
  destruct (torn_record_id r commit_head (le_bytes 8 W) k Hr HX (length_le_bytes _ _)) as [Hl Hcase].
  rewrite !(torn_split A r C) by done. destruct (Hm _ Hl) as [Hthis Hother].
  destruct (meta_at_total (torn_record r commit_head (le_bytes 8 W) k)) as (m & Em & Eid); [unfold META_SIZE; lia|].
  assert (HW : le (le_bytes 8 W) = W) by (apply le_le_bytes; destruct Hok; cbn; lia).
  assert (Hlt : le (drop 128 r) < le (le_bytes 8 W)) by (rewrite Hid, HW; destruct Hok as [_ _ _ [_ [?|[-> ?]]] ? _ _]; lia).
  assert (Hpick : mm_txnid m + 1 < W ∨ mm_txnid m = mm_txnid old → mdb_env_pick_meta
    (set_file e (A ++ torn_record r commit_head (le_bytes 8 W) k ++ C)) = Ok other).
  { intros H. apply pick_other with m; try done. by rewrite Hthis. }
  destruct Hcase as [Hdrop|[Hdrop Hk]].
  - right. split; [|done]. apply Hpick. right. by rewrite Eid, Hdrop, Hid.
  - destruct (torn_number (k - 112) (drop 128 r) (le_bytes 8 W)) as [Hnew|[Hold'|Hsmall]].
    + by apply Forall_drop.
    + apply le_bytes_bytes.
    + rewrite length_drop, length_le_bytes. lia.
    + done.
    + left. do 2 f_equal. unfold torn_record. rewrite (take_ge (commit_head ++ _) 120) by (rewrite length_app, length_le_bytes; lia).
      rewrite take_app_ge by lia. rewrite HX. f_equal. rewrite <-!(assoc_L (++)). f_equal.
      rewrite (drop_ge r (16 + length (commit_head ++ le_bytes 8 W))) by (rewrite length_app, length_le_bytes; lia).
      rewrite app_nil_r. rewrite <-Hnew at 3. f_equal. rewrite drop_drop, length_app, HX, length_take, length_le_bytes.
      destruct (decide (k - 112 ≤ 8)%nat); [f_equal; lia|]. rewrite !drop_ge by lia. done.
    + right. split; [|done]. apply Hpick. right. by rewrite Eid, Hdrop, Hold', Hid.
    + right. split; [|done]. apply Hpick. left. by rewrite Eid, Hdrop, HW in *.
Qed.

Lemma torn_committed :
  commit_ok → me_metas (set_file e (torn 120)) toggle = Ok committed ∧ me_metas (set_file e (torn 120)) other = Ok prev.
Proof using Type.
  intros Hok. destruct (commit_split Hok) as (A & r & C & Hf & HA & Hr & Hb & Hold & Hid & Hm).
  destruct commit_data_split as (Ed & HX & Hlen).
  destruct (torn_record_id r commit_head (le_bytes 8 W) 120 Hr HX (length_le_bytes _ _)) as [Hl _].
  rewrite (torn_split A r C) by done. destruct (Hm _ Hl) as [-> ->]. split; [|done].
  unfold torn_record. rewrite <-Ed. rewrite (take_ge commit_data) by lia. rewrite drop_ge by lia. rewrite app_nil_r.
  destruct Hok as [_ _ _ _ HW [Hs1 Hs2] (_ & _ & Hf1 & Hm1)].
  apply meta_at_committed; try done; [unfold META_SIZE; lia|unfold new_mapsize; case_match; lia|
    unfold new_last_pg, u64; apply Z.mod_pos_bound; lia|lia].
Qed.

Lemma commit_range : commit_ok →
  0 ≤ meta_off (me_psize e) toggle + MAPSIZE_OFF ∧
  meta_off (me_psize e) toggle + MAPSIZE_OFF + Z.of_nat (length commit_data) ≤ Z.of_nat (length (me_file e)).
Proof using Type.
  intros [Hp [Hf _] _ _ _ _ _]. destruct commit_data_split as (_ & _ & ->).
  unfold meta_off, MAPSIZE_OFF, METABUF_SIZE, META_SIZE, PAGEHDRSZ in *.
  destruct toggle_cases as [(-> & _)|(-> & _)]; lia.
Qed.

(** On a writable map every store of the sequence leaves a torn page, the last one the
    whole. *)
Lemma stores_torn i :
  commit_ok → ∃ k, store_all (me_file e) (take i (meta_stores (meta_off (me_psize e) toggle) new_mapsize free main new_last_pg W))
    = torn k ∧ (i = 5%nat → k = 120%nat).
Proof using Type.
  intros Hok. destruct (commit_range Hok) as [H0 Hr]. set (base := meta_off (me_psize e) toggle) in *.
  set (ls := [le_bytes 8 new_mapsize; db_bytes free; db_bytes main; le_bytes 8 new_last_pg; le_bytes 8 W]).
  assert (Ed : commit_data = concat ls) by (unfold commit_data, meta_tail, ls; cbn [concat]; by rewrite app_nil_r).
  destruct commit_data_split as (_ & _ & Hlen).
  assert (Hstep : ∀ j x, ls !! j = Some x →
    file_write (torn (length (concat (take j ls)))) (base + MAPSIZE_OFF + Z.of_nat (length (concat (take j ls)))) x
    = torn (length (concat (take (S j) ls)))).
  { intros j x Hx. unfold torn. fold base.
    assert (Et : ∀ j, take (length (concat (take j ls))) commit_data = concat (take j ls)).
    { intros n. rewrite Ed. rewrite <-(take_drop n ls) at 2. rewrite concat_app. apply take_app_length. }
    rewrite !Et. rewrite (take_S_r ls j x Hx), concat_app. cbn [concat]. rewrite app_nil_r.
    assert (Hpart : (length (concat (take j ls) ++ x) ≤ 120)%nat).
    { pose proof (f_equal (λ l : list bytes, length (concat l)) (take_drop_middle ls j x Hx)) as El. cbn beta in El.
      rewrite concat_app in El. cbn [concat] in El. rewrite <-Hlen, Ed. rewrite !length_app in *. lia. }
    apply file_write_append; lia. }
  assert (H5 : ∀ n, (n ≤ 5)%nat → store_all (me_file e) (take n (meta_stores base new_mapsize free main new_last_pg W))
    = torn (length (concat (take n ls)))).
  { induction n as [|n IH]; intros Hn.
    - unfold torn. fold base. cbn [take concat length]. rewrite take_0, file_write_nil by lia. done.
    - assert (∃ x, ls !! n = Some x ∧ meta_stores base new_mapsize free main new_last_pg W !! n
        = Some (base + MAPSIZE_OFF + Z.of_nat (length (concat (take n ls))), x)) as (x & Hx & Hs).
      { do 5 (destruct n as [|n]; [eexists; split; [done|]; cbn; unfold MAPSIZE_OFF; do 2 f_equal; lia|]). lia. }
      rewrite (take_S_r _ _ _ Hs). unfold store_all in *. rewrite foldl_app. rewrite IH by lia. by apply Hstep. }
  exists (length (concat (take (i `min` 5) ls))). split.
  - destruct (decide (i ≤ 5)%nat); [rewrite Nat.min_l by lia; by apply H5|].
    rewrite Nat.min_r by lia. rewrite <-H5 by lia. rewrite !take_ge by (cbn; lia). done.
  - by intros ->.
Qed.
End commit.

(** The call that ends [do_pwrite]. *)
Lemma do_pwrite_last a rest f off bs :
  match a with Failed err _ => err ≠ EINTR | Wrote _ => True end →
  do_pwrite (a :: rest) f off bs
  = Ok (match a with Wrote n => inr n | Failed err _ => inl err end, file_write f off (take (Z.to_nat (pwritten a)) bs), rest).
Proof. destruct a as [n|err n]; intros Ha; [done|]. cbn [do_pwrite]. by rewrite (proj2 (Z.eqb_neq err EINTR)). Qed.

(** The answer to the call that writes the old record back: the one behind the first that
    is not EINTR. *)
Fixpoint write_back (answers : list Pwrite) : option Pwrite :=
  match answers with
  | Failed err _ :: l => if err =? EINTR then write_back l else head l
  | Wrote _ :: l => head l
  | [] => None
  end.

(** It is cut before the last page and the number in the record, or not at all. *)
Definition back_ok (answers : list Pwrite) : Prop := ∀ b, write_back answers = Some b → pwritten b ≤ 104 ∨ 120 ≤ pwritten b.

(** An error has a code. *)
Definition answered (a : Pwrite) : Prop := match a with Failed err _ => err ≠ 0 | Wrote _ => True end.

(** However far the calls get, the file has some first part of the data. *)
Lemma do_pwrite_part answers f off bs r f' rest :
  0 ≤ off → off + Z.of_nat (length bs) ≤ Z.of_nat (length f) → do_pwrite answers f off bs = Ok (r, f', rest) →
  head rest = write_back answers ∧ ∃ k, f' = file_write f off (take k bs) ∧ ∀ n, r = inr n → (Z.to_nat n ≤ k)%nat.
Proof.
  intros H0 Hl. assert (Hgo : ∀ l f1, (∃ k, f1 = file_write f off (take k bs)) → do_pwrite l f1 off bs = Ok (r, f', rest) →
    head rest = write_back l ∧ ∃ k, f' = file_write f off (take k bs) ∧ ∀ n, r = inr n → (Z.to_nat n ≤ k)%nat).
  { induction l as [|a l IH]; intros f1 [k ->]; [done|]. cbn [do_pwrite write_back]. rewrite file_write_twice by done.
    destruct a as [n|err n].
    - intros [= <- <- <-]. split; [done|]. eexists. split; [done|]. intros n' [= <-]. cbn [pwritten]. lia.
    - case_match; [apply IH; by eexists|]. intros [= <- <- <-]. split; [done|]. eexists. by split. }
  apply Hgo. exists 0%nat. by rewrite take_0, file_write_nil by lia.
Qed.

Lemma do_pwrite_error answers f off bs err f' rest :
  Forall answered answers →
  do_pwrite answers f off bs = Ok (inl err, f', rest) → err ≠ 0.
Proof.
  intros H. revert f. induction H as [|a l Ha _ IH]; intros f; [done|]. cbn [do_pwrite].
  destruct a as [n|e n]; [done|]. case_match; [apply IH|]. by intros [= <- _ _].
Qed.

Lemma do_pwrite_any answers d f off bs r f' rest :
  do_pwrite answers f off bs = Ok (r, f', rest) → ∃ d', do_pwrite answers d off bs = Ok (r, d', rest).
Proof.
  revert d f. induction answers as [|a l IH]; intros d f; [done|]. cbn [do_pwrite].
  destruct a as [n|err n]; [intros [= <- _ <-]; by eexists|]. case_match; [apply IH|]. intros [= <- _ <-]. by eexists.
Qed.

Lemma fd_pwrite_part mfd answers e off bs r e' rest :
  0 ≤ off → off + Z.of_nat (length bs) ≤ Z.of_nat (length (me_file e)) → fd_pwrite mfd answers e off bs = Ok (r, e', rest) →
  head rest = write_back answers ∧ ∃ k d, e' = set_disk (set_file e (file_write (me_file e) off (take k bs))) d ∧
    (∀ n, r = inr n → (Z.to_nat n ≤ k)%nat) ∧ d = (if mfd then d else me_disk e) ∧
    (me_disk e = me_file e → mfd = true → d = me_file e').
Proof.
  intros H0 Hl. unfold fd_pwrite. destruct (do_pwrite answers (me_file e) off bs) as [[[r1 f1] rest1]| | |] eqn:E; try done. cbn [mbind res_bind].
  destruct (do_pwrite_part _ _ _ _ _ _ _ H0 Hl E) as (Hh & k & -> & Hk). destruct mfd.
  - destruct (do_pwrite_any _ (me_disk e) _ _ _ _ _ _ E) as [d Ed]. rewrite Ed. cbn [mbind res_bind]. intros [= <- <- <-].
    split; [done|]. exists k, d. do 3 (split; [done|]). intros Es _. rewrite Es, E in Ed. by injection Ed as <-.
  - intros [= <- <- <-]. split; [done|]. exists k, (me_disk e). split; [by destruct e|]. done.
Qed.

Lemma fd_pwrite_writes mfd eintr a rest e off bs :
  Forall interrupted eintr → 0 ≤ off → off + Z.of_nat (length bs) ≤ Z.of_nat (length (me_file e)) →
  match a with Failed err _ => err ≠ EINTR | Wrote _ => True end →
  ∃ k d, fd_pwrite mfd (eintr ++ a :: rest) e off bs = Ok (match a with Wrote n => inr n | Failed err _ => inl err end,
      set_disk (set_file e (file_write (me_file e) off (take (k `max` Z.to_nat (pwritten a)) bs))) d, rest).
Proof.
  intros Hi H0 Hl Ha. destruct (do_pwrite_eintr eintr a rest (me_file e) off bs Hi H0 Hl) as [k E].
  rewrite do_pwrite_last, file_write_twice in E by done. exists k. unfold fd_pwrite. rewrite E. cbn [mbind res_bind].
  destruct mfd; [|by exists (me_disk e); destruct e]. destruct (do_pwrite_any _ (me_disk e) _ _ _ _ _ _ E) as [d Ed]. exists d. by rewrite Ed.
Qed.

(** ** A new file *)

Lemma file_write_new f bs : (length f ≤ length bs)%nat → file_write f 0 bs = bs.
Proof. intros. unfold file_write. cbn. rewrite drop_ge by done. by rewrite app_nil_r. Qed.

Lemma length_meta_bytes m : length (meta_bytes m) = 136%nat.
Proof. done. Qed.

Lemma length_meta_page psize pgno m : METABUF_SIZE ≤ psize → length (meta_page psize pgno m) = Z.to_nat psize.
Proof.
  unfold METABUF_SIZE, META_SIZE, PAGEHDRSZ. intros. unfold meta_page, METABUF_SIZE, META_SIZE, PAGEHDRSZ.
  rewrite !length_app, length_replicate, !length_le_bytes, length_meta_bytes. lia.
Qed.

(** A page with a good record, somewhere in a file, is read. *)
Lemma read_meta_page_at f A psize pgno m C :
  f = A ++ meta_page psize pgno m ++ C → METABUF_SIZE ≤ psize → meta_ok m → mm_magic m = MDB_MAGIC →
  mm_version m = MDB_DATA_VERSION →
  read_meta_page (λ off, inr (pread_file f METABUF_SIZE off)) (Z.of_nat (length A)) = Ok (inr m).
Proof.
  intros -> Hp Hm Hmagic Hver. unfold read_meta_page, pread_file. rewrite Nat2Z.id, drop_app_length.
  set (head := le_bytes 8 pgno ++ le_bytes 2 0 ++ le_bytes 2 P_META ++ le_bytes 4 0).
  assert (Ep : take (Z.to_nat METABUF_SIZE) (meta_page psize pgno m ++ C) = head ++ meta_bytes m).
  { rewrite take_app_le by (rewrite length_meta_page; unfold METABUF_SIZE, META_SIZE, PAGEHDRSZ in *; lia).
    unfold meta_page. rewrite !(assoc_L (++)). rewrite <-(assoc_L (++) _ (le_bytes 2 0)), <-(assoc_L (++) _ _ (le_bytes 4 0)).
    apply take_app_length'. done. }
  rewrite Ep. rewrite length_app, length_meta_bytes. change (Z.of_nat (length head + 136)) with METABUF_SIZE.
  rewrite Z.eqb_refl. cbn [negb].
  assert (Ef : MP_FLAGS (head ++ meta_bytes m) = Ok P_META).
  { unfold MP_FLAGS, rd16. rewrite (mread_at _ (le_bytes 8 pgno ++ le_bytes 2 0) (le_bytes 2 P_META) (le_bytes 4 0 ++ meta_bytes m));
      [done|unfold head; by rewrite <-!(assoc_L (++))|done|done]. }
  rewrite Ef. cbn [mbind res_bind]. change (F_ISSET P_META P_META) with true. cbn [negb].
  pose proof (meta_at_this head (meta_bytes m) []) as Em. rewrite app_nil_r in Em.
  change (Z.of_nat (length head)) with PAGEHDRSZ in Em. rewrite Em by done. rewrite meta_at_bytes by done.
  cbn [mbind res_bind]. rewrite Hmagic, Hver. done.
Qed.

(** A file of the two pages of [mdb_env_init_meta]. *)
Definition new_file (psize : Z) (m : MDB_meta) : bytes := meta_page psize 0 m ++ meta_page psize 1 m.

Lemma read_new_file psize m :
  METABUF_SIZE ≤ psize < 2 ^ 31 → mm_psize m = psize → meta_ok m → mm_magic m = MDB_MAGIC → mm_version m = MDB_DATA_VERSION →
  mdb_env_read_header (λ off, inr (pread_file (new_file psize m) METABUF_SIZE off)) = Ok (inr m).
Proof.
  intros Hp Hps Hm Hmagic Hver. unfold mdb_env_read_header.
  rewrite (read_meta_page_at _ [] psize 0 m (meta_page psize 1 m)) by (done || lia). cbn [mbind res_bind].
  assert (Ei : to_int (mm_psize m) = Z.of_nat (length (meta_page psize 0 m))).
  { rewrite Hps, length_meta_page by lia. unfold METABUF_SIZE, META_SIZE, PAGEHDRSZ in Hp. unfold to_int.
    rewrite u32_small by lia. rewrite (proj2 (Z.ltb_lt _ _)) by lia. lia. }
  rewrite Ei. rewrite (read_meta_page_at _ (meta_page psize 0 m) psize 1 m []); [|by rewrite app_nil_r|lia|done..].
  cbn [mbind res_bind]. by case_match.
Qed.

Lemma new_file_metas psize m e :
  METABUF_SIZE ≤ psize → meta_ok m → me_psize e = psize → me_file e = new_file psize m →
  me_metas e 0 = Ok m ∧ me_metas e 1 = Ok m.
Proof.
  intros Hp Hm Hps Hf. unfold me_metas, new_file, meta_page in *. rewrite Hps, Hf.
  set (zs := replicate _ 0) in *. clear Hf.
  assert (Hz : Z.of_nat (length zs) = psize - METABUF_SIZE) by (unfold zs; rewrite length_replicate; lia).
  unfold METABUF_SIZE, META_SIZE, PAGEHDRSZ in Hp, Hz.
  set (h0 := le_bytes 8 0 ++ le_bytes 2 0 ++ le_bytes 2 P_META ++ le_bytes 4 0).
  set (h1 := le_bytes 8 1 ++ le_bytes 2 0 ++ le_bytes 2 P_META ++ le_bytes 4 0).
  set (f := (_ ++ _) ++ _).
  assert (E0 : f = h0 ++ meta_bytes m ++ zs ++ h1 ++ meta_bytes m ++ zs) by (unfold f, h0, h1; by rewrite <-!(assoc_L (++))).
  assert (E1 : f = (h0 ++ meta_bytes m ++ zs ++ h1) ++ meta_bytes m ++ zs) by (rewrite E0; by rewrite <-!(assoc_L (++))).
  split.
  - rewrite E0. pose proof (meta_at_this h0 (meta_bytes m) (zs ++ h1 ++ meta_bytes m ++ zs)) as E.
    unfold meta_off, PAGEHDRSZ. replace (16 + psize * 0) with (Z.of_nat (length h0)) by (cbn; lia).
    rewrite E by done. by apply meta_at_bytes.
  - rewrite E1. pose proof (meta_at_this (h0 ++ meta_bytes m ++ zs ++ h1) (meta_bytes m) zs) as E.
    unfold meta_off, PAGEHDRSZ.
    replace (16 + psize * 1) with (Z.of_nat (length (h0 ++ meta_bytes m ++ zs ++ h1))).
    + rewrite E by done. by apply meta_at_bytes.
    + rewrite !length_app, length_meta_bytes. change (length h0) with 16%nat. change (length h1) with 16%nat. lia.
Qed.

(** ** Bytes stay bytes *)

Lemma db_bytes_bytes d : is_bytes (db_bytes d).
Proof. unfold db_bytes, is_bytes. rewrite !Forall_app. repeat split; apply le_bytes_bytes. Qed.

Lemma meta_tail_bytes mapsize free main last_pg txnid : is_bytes (meta_tail mapsize free main last_pg txnid).
Proof. unfold meta_tail, is_bytes. rewrite !Forall_app. repeat split; try apply le_bytes_bytes; apply db_bytes_bytes. Qed.

Lemma file_write_bytes n f off bs : is_bytes (take n f) → is_bytes bs → is_bytes (take n (file_write f off bs)).
Proof.
  unfold is_bytes. rewrite !Forall_lookup. intros Hf Hb i x [Hi Hn]%lookup_take_Some. unfold file_write in Hi.
  apply lookup_app_Some in Hi as [Hi|[Hl Hi]].
  { apply lookup_take_Some in Hi as [Hi _]. apply (Hf i). rewrite lookup_take_Some. done. }
  apply lookup_app_Some in Hi as [Hi|[Hl2 Hi]]; [by apply lookup_replicate in Hi as [-> _]|].
  apply lookup_app_Some in Hi as [Hi|[Hl3 Hi]]; [by eapply Hb|].
  rewrite lookup_drop in Hi. rewrite length_take, length_replicate in *. apply (Hf i). rewrite lookup_take_Some. split; [|done].
  rewrite <-Hi. f_equal. lia.
Qed.

Lemma new_file_bytes psize m : is_bytes (new_file psize m).
Proof.
  assert (H : ∀ pgno, is_bytes (meta_page psize pgno m)).
  { intros pgno. unfold meta_page, meta_bytes, is_bytes. rewrite !Forall_app.
    repeat split; try apply le_bytes_bytes; try apply meta_tail_bytes; apply Forall_replicate; lia. }
  unfold new_file, is_bytes. rewrite Forall_app. split; apply H.
Qed.

Lemma init_flags_range f : 0 ≤ set_flag (Z.land f 0xffff) MDB_INTEGERKEY < 2 ^ 16.
Proof.
  assert (H : ∀ i, 16 ≤ i → Z.testbit (set_flag (Z.land f 0xffff) MDB_INTEGERKEY) i = false).
  { intros i Hi. unfold set_flag. rewrite Z.lor_spec, Z.land_spec. change 0xffff with (Z.ones 16).
    rewrite Z.ones_spec_high by lia. rewrite andb_false_r. change MDB_INTEGERKEY with (2 ^ 3).
    rewrite Z.pow2_bits_false by lia. done. }
  assert (H0 : 0 ≤ set_flag (Z.land f 0xffff) MDB_INTEGERKEY).
  { unfold set_flag. apply Z.lor_nonneg. split; [apply Z.land_nonneg; by right|done]. }
  split; [done|]. destruct (decide (set_flag (Z.land f 0xffff) MDB_INTEGERKEY = 0)) as [->|Hne]; [lia|].
  apply Z.log2_lt_pow2; [lia|]. destruct (Z.lt_ge_cases (Z.log2 (set_flag (Z.land f 0xffff) MDB_INTEGERKEY)) 16) as [?|Hge]; [done|].
  specialize (H _ Hge). rewrite Z.bit_log2 in H by lia. done.
Qed.

Lemma do_pwrite_new l n rest f bs :
  Forall interrupted l → (length f ≤ length bs)%nat → Z.of_nat (length bs) ≤ n →
  do_pwrite (l ++ Wrote n :: rest) f 0 bs = Ok (inr n, bs, rest).
Proof.
  intros Hl Hf Hn. revert f Hf. induction Hl as [|x l [k ->] _ IH]; intros f Hf; cbn [app do_pwrite pwritten].
  - rewrite take_ge by lia. by rewrite file_write_new.
  - change (EINTR =? EINTR) with true. cbn match. apply IH. unfold file_write. change (Z.to_nat 0) with 0%nat.
    rewrite take_0, !length_app, length_replicate, length_drop, !length_take. cbn [length]. lia.
Qed.

Lemma init_meta_writes l rest e m :
  METABUF_SIZE ≤ me_psize e → Forall interrupted l → me_file e = [] →
  mdb_env_init_meta true (l ++ Wrote (2 * me_psize e) :: rest) e m = Ok (MDB_SUCCESS, set_file e (new_file (me_psize e) m)).
Proof.
  intros Hp Hl Hf. unfold mdb_env_init_meta. cbn [negb]. rewrite (proj2 (Z.ltb_ge _ _)) by done. rewrite Hf.
  fold (new_file (me_psize e) m).
  assert (Hlen : Z.of_nat (length (new_file (me_psize e) m)) = 2 * me_psize e).
  { unfold new_file. rewrite length_app, !length_meta_page by done. unfold METABUF_SIZE, META_SIZE, PAGEHDRSZ in Hp. lia. }
  rewrite do_pwrite_new by (done || (cbn [length]; lia)). cbn [mbind res_bind]. unfold NUM_METAS.
  by rewrite (proj2 (Z.eqb_eq _ _)) by lia.
Qed.

(** ** What [mdb_env_write_meta] does *)

Section write_meta.
Context {e : MDB_env} {W : Z} {txn : MDB_txn} {prev old : MDB_meta} {free main : MDB_db}.
Context (Hok : commit_ok e W txn prev old free main).
Abbreviation base := (meta_off (me_psize e) (toggle W)).
Abbreviation data := (commit_data e W txn prev free main).

Lemma meta_fields_at : meta_fields W txn e = Ok (base, new_mapsize e prev, free, main, new_last_pg txn).
Proof using Hok.
  pose proof Hok as [_ _ [Hprev _] _ _ _ (Hfree & Hmain & _)]. unfold meta_fields. fold (toggle W). fold (other W).
  rewrite Hprev. cbn [mbind res_bind]. rewrite Hfree. cbn [mbind res_bind]. by rewrite Hmain.
Qed.

(** The old number and the old last page, with the new trees. *)
Definition back_data : bytes := meta_tail (new_mapsize e prev) free main (mm_last_pg old) (mm_txnid old).

(** The file when the old number has been written back. *)
Definition backed : bytes := file_write (me_file e) (base + MAPSIZE_OFF) back_data.

Lemma backed_found :
  mdb_env_pick_meta (set_file e backed) = Ok (other W) ∧ me_metas (set_file e backed) (other W) = Ok prev.
Proof using Hok.
  destruct (commit_split e W txn prev old free main Hok) as (A & r & C & Hf & HA & Hlr & Hb & Hold & Hid & Hm).
  assert (Hlo : length back_data = 120%nat) by done.
  unfold backed. rewrite (write_part e W A r C) by (done || lia). rewrite Hlo, (drop_ge r) by lia. rewrite app_nil_r.
  set (r' := take 16 r ++ back_data). assert (Hr' : length r' = 136%nat) by (unfold r'; rewrite length_app, length_take; lia).
  destruct (Hm r' Hr') as [Hthis Hother]. destruct (meta_at_total r') as (m & Em & Eid); [unfold META_SIZE; lia|].
  assert (Hd : drop 128 r' = le_bytes 8 (mm_txnid old)).
  { assert (Hh : length (take 16 r) = 16%nat) by (rewrite length_take; lia).
    unfold r'. rewrite drop_app_ge by lia. rewrite Hh. unfold back_data, meta_tail. rewrite !(assoc_L (++)). apply drop_app_length'. done. }
  split; [|done]. apply (pick_other e W txn prev old free main _ m); try done; [by rewrite Hthis|].
  right. rewrite Eid, Hd. apply le_le_bytes. rewrite <-Hid. cbn. pose proof (le_range (drop 128 r)) as Hrange.
  rewrite length_drop, Hlr in Hrange. apply Hrange. by apply Forall_drop.
Qed.

(** What is found on the file while the meta page is written. *)
Lemma torn_found k :
  let e' := set_file e (torn e W txn prev free main k) in
  (mdb_env_pick_meta e' = Ok (other W) ∧ me_metas e' (other W) = Ok prev) ∨
  (mdb_env_pick_meta e' = Ok (toggle W) ∧ me_metas e' (toggle W) = Ok (committed e W txn prev old free main)).
Proof using Hok.
  intros e'. destruct (torn_cases e W txn prev old free main k Hok) as [E|E]; [|by left].
  right. unfold e'. rewrite E. destruct (torn_committed e W txn prev old free main Hok) as [Ht Ho].
  split; [|done]. by apply pick_new with txn prev old free main.
Qed.

(** The write-back behind [k] bytes of the new record: it stops before the last page and the
    number, or puts both back. *)
Lemma back_torn k j : (j ≤ 104 ∨ 120 ≤ j)%nat →
  (∃ k', file_write (torn e W txn prev free main k) (base + MAPSIZE_OFF) (take j back_data) = torn e W txn prev free main k') ∨
  file_write (torn e W txn prev free main k) (base + MAPSIZE_OFF) (take j back_data) = backed.
Proof using Hok.
  destruct (commit_range e W txn prev old free main Hok) as [H0 Hr]. destruct (commit_data_split e W txn prev free main) as (_ & _ & Hlen).
  intros [Hj|Hj].
  - left. exists (k `max` j)%nat. unfold torn. rewrite <-file_write_twice by done.
    set (X := le_bytes 8 (new_mapsize e prev) ++ db_bytes free ++ db_bytes main).
    assert (E1 : back_data = X ++ le_bytes 8 (mm_last_pg old) ++ le_bytes 8 (mm_txnid old)) by (unfold X; by rewrite <-!(assoc_L (++))).
    assert (E2 : data = X ++ le_bytes 8 (new_last_pg txn) ++ le_bytes 8 W) by (unfold X; by rewrite <-!(assoc_L (++))).
        assert (Et : take j back_data = take j data) by (rewrite E1, E2; change 104%nat with (length X) in Hj; by rewrite !take_app_le by lia).
    by rewrite Et.
  - right. rewrite (take_ge back_data) by (change (length back_data) with 120%nat; lia). unfold torn, backed.
    apply file_write_over; [rewrite length_take; change (length back_data) with 120%nat; lia|done|].
    change (length back_data) with 120%nat. lia.
Qed.

(** The call on a file, whatever its calls answer. *)
Lemma write_meta_run msync answers rc e' :
  has_flag (me_flags e) MDB_WRITEMAP = false →
  back_ok answers →
  mdb_env_write_meta msync answers W txn e = Ok (rc, e') →
  ((∃ k, me_file e' = torn e W txn prev free main k) ∨ me_file e' = backed) ∧
  (rc = 0 → Forall answered answers →
    me_file e' = torn e W txn prev free main 120) ∧
  (has_flag (me_flags e) (Z.lor MDB_NOSYNC MDB_NOMETASYNC) = true → me_disk e' = me_disk e) ∧
  (me_disk e = me_file e → has_flag (me_flags e) (Z.lor MDB_NOSYNC MDB_NOMETASYNC) = false →
    (∃ k, me_disk e' = torn e W txn prev free main k) ∧ (rc = 0 → Forall answered answers →
    me_disk e' = torn e W txn prev free main 120)).
Proof using Hok.
  intros Hw Hback. destruct (commit_range e W txn prev old free main Hok) as [H0 Hr]. destruct (commit_data_split e W txn prev free main) as (_ & _ & Hlen).
  pose proof Hok as [_ _ _ [Hold _] _ _ _]. unfold mdb_env_write_meta. fold (toggle W). rewrite Hold. cbn [mbind res_bind]. rewrite meta_fields_at. cbn [mbind res_bind].
  rewrite Hw. fold data back_data. set (mfd := negb _).
  destruct (fd_pwrite mfd answers e (base + MAPSIZE_OFF) data) as [[[r e1] rest]| | |] eqn:E; try done. cbn [mbind res_bind].
  destruct (fd_pwrite_part _ _ _ _ _ _ _ _ H0 Hr E) as (Hh & k & d & He1 & Hn & Hd & Hs).
  destruct (match r with inl _ => false | inr n => n =? Z.of_nat (length data) end) eqn:Er.
  - intros [= <- <-]. destruct r as [|n]; [done|]. apply Z.eqb_eq in Er as ->. specialize (Hn _ eq_refl). rewrite Nat2Z.id, Hlen in Hn.
    assert (Et : me_file e1 = torn e W txn prev free main 120).
    { rewrite He1. cbn [me_file set_disk set_file]. unfold torn. fold base data. by rewrite !take_ge by lia. }
    cbn [me_file me_disk set_mti_txnid]. split; [left; by exists 120%nat|]. split; [done|]. split.
    + intros Hns. unfold mfd in Hd. rewrite Hns in Hd. rewrite He1. exact Hd.
    + intros Hde Hsy. assert (Ed : me_disk e1 = me_file e1) by (rewrite He1 at 1; apply Hs; [done|unfold mfd; by rewrite Hsy]).
      rewrite Ed, Et. split; [by exists 120%nat|done].
  - destruct rest as [|b rest]; [done|]. intros [= <- <-].
    assert (Et : me_file e1 = torn e W txn prev free main k) by (by rewrite He1).
    assert (Hj : (Z.to_nat (pwritten b) ≤ 104 ∨ 120 ≤ Z.to_nat (pwritten b))%nat) by (destruct (Hback b); [done|left; lia|right; lia]).
    cbn [me_file me_disk set_flags set_file]. rewrite Et. split.
    { destruct (back_torn k _ Hj) as [?|E']; [by left|right; exact E']. }
    assert (Hrc : Forall answered answers →
      match r with inl err => err | inr _ => EIO end ≠ 0).
    { destruct r as [err|n]; [|done]. unfold fd_pwrite in E. intros Hall ->.
      destruct (do_pwrite answers (me_file e) _ _) as [[[r1 f1] rest1]| | |] eqn:E1; try done. cbn [mbind res_bind] in E.
      assert (r1 = inl 0) as ->.
      { destruct mfd; [|by injection E]. destruct (do_pwrite_any _ (me_disk e) _ _ _ _ _ _ E1) as [d' E']. rewrite E' in E. by injection E. }
      by eapply do_pwrite_error in E1. }
    split; [intros H1 H2; by destruct (Hrc H2)|]. split.
    + intros Hns. unfold mfd in Hd. rewrite Hns in Hd. rewrite He1. exact Hd.
    + intros Hde Hsy. assert (Ed : me_disk e1 = me_file e1) by (rewrite He1 at 1; apply Hs; [done|unfold mfd; by rewrite Hsy]).
      rewrite Ed, Et. split; [by exists k|]. intros H1 H2. by destruct (Hrc H2).
Qed.
End write_meta.

(** ** What a crash leaves *)

(** The file after the machine has stopped, when [f0] was on the disk for sure and [f1] had
    been written: outside the meta pages each byte may be the old or the new one, and in any
    order; a meta page, whose record lies in one sector, is all of one or of the other. *)
Record crash_file (psize : Z) (f0 f1 f : bytes) : Prop := MkCrash {
  cf_length : (length f0 ≤ length f ≤ length f0 `max` length f1)%nat;
  cf_meta i : i = 0 ∨ i = 1 →
    (∀ o, (Z.to_nat (psize * i) ≤ o < Z.to_nat (psize * (i + 1)))%nat → f !! o = f0 !! o) ∨
    (∀ o, (Z.to_nat (psize * i) ≤ o < Z.to_nat (psize * (i + 1)))%nat → f !! o = f1 !! o);
  cf_rest o : (Z.to_nat (2 * psize) ≤ o < length f0)%nat → f !! o = f0 !! o ∨ f !! o = f1 !! o }.

Lemma crash_same psize f0 f1 f i :
  0 < psize → length f0 = length f1 → i = 0 ∨ i = 1 →
  (∀ o, ¬ (Z.to_nat (psize * i) ≤ o < Z.to_nat (psize * (i + 1)))%nat → f0 !! o = f1 !! o) →
  crash_file psize f0 f1 f → f = f0 ∨ f = f1.
Proof.
  intros Hp Hl Hi Hsame [HL HM HR]. assert (Hother : ∀ o, ¬ (Z.to_nat (psize * i) ≤ o < Z.to_nat (psize * (i + 1)))%nat → f !! o = f0 !! o).
  { intros o Ho. destruct (decide (o < length f0)%nat) as [Hlt|Hge]; [|by rewrite !lookup_ge_None_2 by lia].
    pose proof (Hsame o Ho) as Es. destruct (decide (o < Z.to_nat (2 * psize))%nat) as [H2|H2].
    - assert (Hj : ∃ j, (j = 0 ∨ j = 1) ∧ (Z.to_nat (psize * j) ≤ o < Z.to_nat (psize * (j + 1)))%nat).
      { destruct (decide (o < Z.to_nat psize)%nat); [exists 0|exists 1]; (split; [by auto|lia]). }
      destruct Hj as (j & Hj & Hin). destruct (HM j Hj) as [H|H]; rewrite (H o Hin); congruence.
    - destruct (HR o ltac:(lia)); congruence. }
  destruct (HM i Hi) as [H|H]; [left|right]; apply list_eq; intros o;
    destruct (decide (Z.to_nat (psize * i) ≤ o < Z.to_nat (psize * (i + 1)))%nat) as [Hin|Hout]; try (by apply H); rewrite (Hother o Hout); [done|].
  by apply Hsame.
Qed.

Lemma file_write_outside f off bs o :
  0 ≤ off → off + Z.of_nat (length bs) ≤ Z.of_nat (length f) →
  ¬ (Z.to_nat off ≤ o < Z.to_nat off + length bs)%nat → file_write f off bs !! o = f !! o.
Proof.
  intros H0 Hl Ho. rewrite file_write_at by done. assert (Ht : length (take (Z.to_nat off) f) = Z.to_nat off) by (rewrite length_take; lia).
  destruct (decide (o < Z.to_nat off)%nat).
  - rewrite lookup_app_l by lia. by apply lookup_take_lt.
  - rewrite lookup_app_r, Ht, lookup_app_r by lia. rewrite lookup_drop. f_equal. lia.
Qed.

Section crash.
Context {e : MDB_env} {W : Z} {txn : MDB_txn} {prev old : MDB_meta} {free main : MDB_db}.
Context (Hok : commit_ok e W txn prev old free main).
Abbreviation base := (meta_off (me_psize e) (toggle W)).
Abbreviation backed := (backed (e:=e) (W:=W) (prev:=prev) (old:=old) (free:=free) (main:=main)).

Lemma record_outside bs o : (length bs ≤ 120)%nat →
  ¬ (Z.to_nat (me_psize e * toggle W) ≤ o < Z.to_nat (me_psize e * (toggle W + 1)))%nat →
  length (file_write (me_file e) (base + MAPSIZE_OFF) bs) = length (me_file e) ∧
  file_write (me_file e) (base + MAPSIZE_OFF) bs !! o = me_file e !! o.
Proof using Hok.
  destruct (commit_range e W txn prev old free main Hok) as [H0 Hr]. destruct (commit_data_split e W txn prev free main) as (_ & _ & Hlen).
  pose proof Hok as [Hp _ _ _ _ _ _]. rewrite Hlen in Hr. intros Hb Ho. split; [apply length_file_write; lia|].
  apply file_write_outside; [lia..|]. unfold meta_off, MAPSIZE_OFF, METABUF_SIZE, META_SIZE, PAGEHDRSZ in *.
  destruct (toggle_cases W) as [(E & _)|(E & _)]; rewrite E in *; lia.
Qed.

(** The record is all that the two files differ in. *)
Lemma crash_record b0 b1 f : (length b0 ≤ 120)%nat → (length b1 ≤ 120)%nat →
  crash_file (me_psize e) (file_write (me_file e) (base + MAPSIZE_OFF) b0) (file_write (me_file e) (base + MAPSIZE_OFF) b1) f →
  f = file_write (me_file e) (base + MAPSIZE_OFF) b0 ∨ f = file_write (me_file e) (base + MAPSIZE_OFF) b1.
Proof using Hok.
  pose proof Hok as [Hp _ _ _ _ _ _]. unfold METABUF_SIZE, META_SIZE, PAGEHDRSZ in Hp. intros H0 H1.
  assert (Hout : ¬ (Z.to_nat (me_psize e * toggle W) ≤ length (me_file e) < Z.to_nat (me_psize e * (toggle W + 1)))%nat).
  { pose proof Hok as [_ [Hl _] _ _ _ _ _]. destruct (toggle_cases W) as [(E & _)|(E & _)]; rewrite E; lia. }
  apply (crash_same _ _ _ _ (toggle W)); [lia| |destruct (toggle_cases W) as [(E & _)|(E & _)]; auto|].
  - rewrite (proj1 (record_outside b0 _ H0 Hout)). by rewrite (proj1 (record_outside b1 _ H1 Hout)).
  - intros o Ho. rewrite (proj2 (record_outside b0 o H0 Ho)). by rewrite (proj2 (record_outside b1 o H1 Ho)).
Qed.

Lemma crash_torn k f1 f :
  ((∃ k', f1 = torn e W txn prev free main k') ∨ f1 = backed) → crash_file (me_psize e) (torn e W txn prev free main k) f1 f →
  (∃ k', f = torn e W txn prev free main k') ∨ f = backed.
Proof using Hok.
  destruct (commit_data_split e W txn prev free main) as (_ & _ & Hlen).
  assert (Hk : ∀ k, (length (take k (commit_data e W txn prev free main)) ≤ 120)%nat) by (intros j; rewrite length_take; lia).
  unfold torn, MetaProps.backed. intros [[k' ->]| ->] Hc.
  - destruct (crash_record _ _ _ (Hk k) (Hk k') Hc) as [E|E]; left; eexists; exact E.
  - destruct (crash_record _ back_data _ (Hk k) (le_n 120) Hc) as [E|E]; [left; by eexists|by right].
Qed.

(** Whatever is left of the two, the version that is found is one or the other. *)
Lemma found_cases f : (∃ k, f = torn e W txn prev free main k) ∨ f = backed →
  (mdb_env_pick_meta (set_file e f) = Ok (other W) ∧ me_metas (set_file e f) (other W) = Ok prev) ∨
  (mdb_env_pick_meta (set_file e f) = Ok (toggle W) ∧ me_metas (set_file e f) (toggle W) = Ok (committed e W txn prev old free main)).
Proof using Hok. intros [[k ->]| ->]; [by apply (torn_found Hok)|]. left. by apply (backed_found Hok). Qed.
End crash.

(** The files that are found when [mdb_env_write_meta] is stopped, or a call of it fails: a
    run that stops is one whose calls have no effect from there on.  The process may die, or
    the machine stop; on a writable map any number of the stores may have been done. *)
Inductive meta_stop (e : MDB_env) (W : Z) (txn : MDB_txn) : bytes → Prop :=
| stop_process msync answers rc e' :
    has_flag (me_flags e) MDB_WRITEMAP = false → back_ok answers →
    mdb_env_write_meta msync answers W txn e = Ok (rc, e') → meta_stop e W txn (me_file e')
| stop_machine msync answers rc e' f :
    has_flag (me_flags e) MDB_WRITEMAP = false → back_ok answers →
    has_flag (me_flags e) (Z.lor MDB_NOSYNC MDB_NOMETASYNC) = false → me_disk e = me_file e →
    mdb_env_write_meta msync answers W txn e = Ok (rc, e') → crash_file (me_psize e) (me_disk e') (me_file e') f →
    meta_stop e W txn f
| stop_stores l i :
    meta_writes W txn e = Ok l → meta_stop e W txn (store_all (me_file e) (take i l)).

(** C14.  [mdb_env_write_meta] is atomic: wherever it is stopped, by the death of the process
    or of the machine, and when its [pwrite] fails, the file shows the version before the
    transaction or all of the new one, and [mdb_env_pick_meta] finds it.  The machine may
    stop if the flags MDB_NOSYNC and MDB_NOMETASYNC are not set; and a write-back of the
    old record is cut before the last 16 bytes of the record or not at all. *)
Theorem commit_atomic e W txn prev old free main f :
  commit_ok e W txn prev old free main → meta_stop e W txn f →
  let e' := set_file e f in
  (mdb_env_pick_meta e' = Ok (other W) ∧ me_metas e' (other W) = Ok prev) ∨
  (mdb_env_pick_meta e' = Ok (toggle W) ∧ me_metas e' (toggle W) = Ok (committed e W txn prev old free main)).
Proof.
  intros Hok Hf e'. apply (found_cases Hok). destruct Hf as [msync answers rc e1 Hw Hb E|msync answers rc e1 f Hw Hb Hs Hd E Hc|l i El].
  - apply (write_meta_run Hok msync answers rc e1 Hw Hb E).
  - destruct (write_meta_run Hok msync answers rc e1 Hw Hb E) as (Hfile & _ & _ & Hdisk). destruct (Hdisk Hd Hs) as [[k Ek] _].
    rewrite Ek in Hc. by eapply (crash_torn Hok).
  - left. unfold meta_writes in El. rewrite (meta_fields_at Hok) in El. injection El as <-.
    destruct (stores_torn e W txn prev old free main i Hok) as (k & E & _). by exists k.
Qed.

(** ** A commit that ends *)

Lemma write_meta_spec e W txn prev old free main msync eintr rest :
  commit_ok e W txn prev old free main → Forall interrupted eintr →
  has_flag (me_flags e) MDB_WRITEMAP = false ∨ msync = 0 →
  ∃ d, let e' := set_mti_txnid (set_disk (set_file e (torn e W txn prev free main 120)) d) W in
    mdb_env_write_meta msync (eintr ++ Wrote 120 :: rest) W txn e = Ok (MDB_SUCCESS, e') ∧
    mdb_env_pick_meta e' = Ok (toggle W) ∧
    me_metas e' (toggle W) = Ok (committed e W txn prev old free main) ∧ me_metas e' (other W) = Ok prev.
Proof.
  intros Hok Hint Hmode.
  destruct (torn_committed e W txn prev old free main Hok) as [Ht Ho].
  destruct (commit_range e W txn prev old free main Hok) as [H0 Hr].
  destruct (commit_data_split e W txn prev free main) as (_ & _ & Hlen).
  assert (Hrun : ∃ d, mdb_env_write_meta msync (eintr ++ Wrote 120 :: rest) W txn e
    = Ok (MDB_SUCCESS, set_mti_txnid (set_disk (set_file e (torn e W txn prev free main 120)) d) W)).
  { pose proof Hok as [_ _ _ [Hold _] _ _ _].
    unfold mdb_env_write_meta. fold (toggle W). rewrite Hold. cbn [mbind res_bind]. unfold meta_writes. rewrite (meta_fields_at Hok). cbn [mbind res_bind].
    destruct (has_flag (me_flags e) MDB_WRITEMAP).
    - destruct Hmode as [?| ->]; [done|]. destruct (stores_torn e W txn prev old free main 5 Hok) as (k & E & Hk).
      rewrite take_ge in E by (cbn; lia). rewrite E, (Hk eq_refl). change (negb (0 =? 0)) with false. cbv beta iota.
      case_match; [|by exists (me_disk e); destruct e]. case_match; [by exists (me_disk e); destruct e|by eexists].
    - fold (commit_data e W txn prev free main).
      destruct (fd_pwrite_writes (negb (has_flag (me_flags e) (Z.lor MDB_NOSYNC MDB_NOMETASYNC))) eintr (Wrote 120) rest e
        (meta_off (me_psize e) (toggle W) + MAPSIZE_OFF) (commit_data e W txn prev free main) Hint H0 Hr) as (k & d & E); [done|].
      rewrite E. cbn [mbind res_bind]. rewrite Hlen. change (120 =? Z.of_nat 120) with true. cbv beta iota. exists d.
      unfold torn. rewrite !take_ge by (cbn [pwritten]; lia). done. }
  destruct Hrun as [d E]. exists d. cbn zeta. split; [exact E|]. split; [|done]. apply (pick_new e W txn prev old free main); done.
Qed.

(** [mdb_env_write_meta] that is not stopped returns 0 and makes the new version the
    one to be found: its trees, its last page, and its number, in the lock table too.
    The previous version stays. *)
Theorem write_meta_commits e W txn prev old free main msync eintr rest :
  commit_ok e W txn prev old free main → Forall interrupted eintr →
  has_flag (me_flags e) MDB_WRITEMAP = false ∨ msync = 0 →
  ∃ f d, let e' := set_mti_txnid (set_disk (set_file e f) d) W in
    mdb_env_write_meta msync (eintr ++ Wrote 120 :: rest) W txn e = Ok (MDB_SUCCESS, e') ∧
    mdb_env_pick_meta e' = Ok (toggle W) ∧
    me_metas e' (toggle W) = Ok (committed e W txn prev old free main) ∧ me_metas e' (other W) = Ok prev.
Proof. intros Hok Hint Hmode. eexists. by apply write_meta_spec. Qed.

(** A commit whose write fails returns an error, marks the environment as broken, and
    writes the old number back: the version before the transaction is found, and is
    intact. *)
Theorem write_meta_fails e W txn prev old free main msync eintr a back rest :
  commit_ok e W txn prev old free main → Forall interrupted eintr → has_flag (me_flags e) MDB_WRITEMAP = false →
  match a with Failed err _ => err ≠ EINTR ∧ err ≠ 0 | Wrote n => n ≠ 120 end → 120 ≤ pwritten back →
  ∃ rc f d, let e' := set_flags (set_disk (set_file e f) d) (set_flag (me_flags e) MDB_FATAL_ERROR) in
    mdb_env_write_meta msync (eintr ++ a :: back :: rest) W txn e = Ok (rc, e') ∧ rc ≠ 0 ∧
    mdb_env_pick_meta e' = Ok (other W) ∧ me_metas e' (other W) = Ok prev.
Proof.
  intros Hok Hint Hmode Ha Hback.
  destruct (commit_range e W txn prev old free main Hok) as [H0 Hr].
  destruct (commit_data_split e W txn prev free main) as (_ & _ & Hlen). pose proof Hok as [_ _ _ [Hold _] _ _ _].
  destruct (fd_pwrite_writes (negb (has_flag (me_flags e) (Z.lor MDB_NOSYNC MDB_NOMETASYNC))) eintr a (back :: rest) e
    (meta_off (me_psize e) (toggle W) + MAPSIZE_OFF) (commit_data e W txn prev free main) Hint H0 Hr) as (k & d & E); [by destruct a; [|apply Ha]|].
  eexists (match a with Wrote _ => EIO | Failed err _ => err end), (backed (e:=e) (W:=W) (prev:=prev) (old:=old) (free:=free) (main:=main)), d. cbn zeta.
  split; [|split; [by destruct a; [|apply Ha]|by apply (backed_found Hok)]].
  unfold mdb_env_write_meta. fold (toggle W). rewrite Hold. cbn [mbind res_bind]. rewrite (meta_fields_at Hok). cbn [mbind res_bind].
  rewrite Hmode. fold (commit_data e W txn prev free main) (back_data (e:=e) (prev:=prev) (old:=old) (free:=free) (main:=main)). rewrite E. cbn [mbind res_bind].
  rewrite Hlen. set (k' := (k `max` Z.to_nat (pwritten a))%nat).
  assert (Eb : file_write (torn e W txn prev free main k') (meta_off (me_psize e) (toggle W) + MAPSIZE_OFF)
    (take (Z.to_nat (pwritten back)) (back_data (e:=e) (prev:=prev) (old:=old) (free:=free) (main:=main)))
    = backed (e:=e) (W:=W) (prev:=prev) (old:=old) (free:=free) (main:=main)).
  { rewrite (take_ge back_data) by (change (length back_data) with 120%nat; lia). unfold torn, backed.
    apply file_write_over; [rewrite length_take; change (length back_data) with 120%nat; lia|done|]. change (length back_data) with 120%nat. lia. }
  unfold torn in Eb. cbn [me_file set_disk set_file] in *. destruct a as [n|err n].
  - change (Z.of_nat 120) with 120. rewrite (proj2 (Z.eqb_neq n 120) Ha). cbv beta iota. unfold meta_fail. rewrite Eb. done.
  - cbv beta iota. unfold meta_fail. rewrite Eb. done.
Qed.

(** C25.  Opening a file that does not exist yet makes both meta pages: they are read back,
    the database is empty and of transaction 0, the map holds at least the two pages, and
    the first commit finds what it needs. *)
Theorem open2_creates ftruncate mmap addr eintr rest e txn free main :
  me_file e = [] → METABUF_SIZE ≤ me_os_psize e → 0 ≤ me_mapsize e < 2 ^ 64 →
  has_flag (me_flags e) MDB_FIXEDMAP = false → has_flag (me_flags e) MDB_WRITEMAP = false →
  mmap 0 = inr addr → Forall interrupted eintr →
  cell (mt_dbs txn) 0 = Ok free → cell (mt_dbs txn) 1 = Ok main → db_ok free → db_ok main →
  let psize := Z.min MAX_PAGESIZE (me_os_psize e) in
  ∃ m e',
    mdb_env_open2 ftruncate mmap (λ off, inr (pread_file (me_file e) METABUF_SIZE off)) true
      (eintr ++ Wrote (2 * psize) :: rest) e = Ok (MDB_SUCCESS, e') ∧
    mdb_env_read_header (λ off, inr (pread_file (me_file e') METABUF_SIZE off)) = Ok (inr m) ∧
    mm_txnid m = 0 ∧ md_root (mm_free m) = P_INVALID ∧ md_root (mm_main m) = P_INVALID ∧
    2 * psize ≤ me_mapsize e' ∧ mm_mapsize m = me_mapsize e' ∧ me_maxpg e' = me_mapsize e' / psize ∧
    commit_ok e' 1 txn m m free main.
Proof.
  intros Hfile Hos Hmap Hfix Hwm Hmm Hint Hfree Hmain Hfo Hmo psize.
  assert (Hp : METABUF_SIZE ≤ psize ≤ 2 ^ 15) by (unfold psize, MAX_PAGESIZE, METABUF_SIZE, META_SIZE, PAGEHDRSZ in *; lia).
  pose proof (init_flags_range (me_flags e)) as Hfl.
  set (mapsize := if me_mapsize e =? 0 then DEFAULT_MAPSIZE else me_mapsize e).
  set (mapsize' := if mapsize <? 2 * psize then 2 * psize else mapsize).
  set (flags := set_flag (Z.land (me_flags e) 0xffff) MDB_INTEGERKEY) in *.
  set (m := MkMeta MDB_MAGIC MDB_DATA_VERSION 0 mapsize' (MkDb psize flags 0 0 0 0 0 P_INVALID) (MkDb 0 0 0 0 0 0 0 P_INVALID) 1 0).
  assert (Hms : 2 * psize ≤ mapsize' < 2 ^ 64).
  { unfold mapsize'. assert (0 ≤ mapsize < 2 ^ 64) by (unfold mapsize, DEFAULT_MAPSIZE; case_match; lia).
    destruct (Z.ltb_spec mapsize (2 * psize)); lia. }
  assert (Hm : meta_ok m).
  { unfold METABUF_SIZE, META_SIZE, PAGEHDRSZ in Hp.
    unfold meta_ok, db_ok, m, MDB_MAGIC, MDB_DATA_VERSION, P_INVALID. cbn [mm_magic mm_version mm_address mm_mapsize mm_free
      mm_main mm_last_pg mm_txnid md_pad md_flags md_depth md_branch_pages md_leaf_pages md_overflow_pages md_entries md_root].
    split_and!; lia. }
  exists m. unfold mdb_env_open2. rewrite Hfile.
  assert (Eh : mdb_env_read_header (λ off, inr (pread_file [] METABUF_SIZE off)) = Ok (inl ENOENT)) by reflexivity.
  rewrite Eh. cbn [mbind res_bind]. change (negb (ENOENT =? ENOENT)) with false. cbn [mbind res_bind].
  rewrite Hfix. cbn [andb negb].
  assert (Eps : (if MAX_PAGESIZE <? me_os_psize e then MAX_PAGESIZE else me_os_psize e) = psize).
  { unfold psize. destruct (Z.ltb_spec MAX_PAGESIZE (me_os_psize e)); lia. }
  rewrite Eps. cbn [set_sizes mdb_env_init_meta0 mm_magic mm_version mm_address mm_mapsize mm_free mm_main mm_last_pg mm_txnid
    me_psize me_mapsize me_flags zero_meta zero_db with_root md_pad md_flags md_depth md_branch_pages md_leaf_pages
    md_overflow_pages md_entries md_root mm_psize].
  assert (Emin : u64 (u64 (NUM_METAS - 1 + 1) * psize) = 2 * psize).
  { unfold NUM_METAS, METABUF_SIZE, META_SIZE, PAGEHDRSZ in *. rewrite !u64_small by (rewrite ?u64_small; lia). done. }
  rewrite Emin. fold mapsize. fold mapsize'. fold flags.
  change (MkMeta MDB_MAGIC MDB_DATA_VERSION 0 mapsize' (with_root zero_db psize flags P_INVALID) _ _ 0) with m.
  set (e1 := set_sizes _ psize mapsize' _ _ _ _).
  assert (Ei : mdb_env_init_meta true (eintr ++ Wrote (2 * psize) :: rest) e1 m = Ok (MDB_SUCCESS, set_file e1 (new_file psize m))).
  { apply (init_meta_writes eintr rest e1 m); [apply Hp|done|exact Hfile]. }
  rewrite Ei. cbn [mbind res_bind]. change (negb (MDB_SUCCESS =? 0)) with false. cbn match.
  set (e2 := set_map (set_file e1 (new_file psize m)) addr).
  assert (Emap : mdb_env_map ftruncate mmap 0 (set_file e1 (new_file psize m)) = (MDB_SUCCESS, e2)).
  { unfold mdb_env_map. change (me_flags (set_file e1 (new_file psize m))) with (me_flags e). rewrite Hwm. cbn [andb].
    rewrite Hmm. done. }
  rewrite Emap. change (negb (MDB_SUCCESS =? 0)) with false. cbn match. cbn [mbind res_bind].
  change (negb (MDB_SUCCESS =? 0)) with false. cbn match. change (me_psize e2) with psize. change (me_mapsize e2) with mapsize'.
  assert (Hpos : (psize =? 0) = false) by (unfold METABUF_SIZE, META_SIZE, PAGEHDRSZ in Hp; apply Z.eqb_neq; lia).
  rewrite Hpos. rewrite (u64_small mapsize') by (unfold METABUF_SIZE, META_SIZE, PAGEHDRSZ in Hp; lia).
  eexists. split; [done|]. cbn [set_sizes me_mapsize me_maxpg me_file e2 set_map set_file].
  split; [apply read_new_file; (done || lia)|]. split; [done|]. split; [done|]. split; [done|]. split; [lia|].
  split; [done|]. split; [done|].
  match goal with |- commit_ok ?e0 _ _ _ _ _ _ => set (e' := e0) end.
  destruct (new_file_metas psize m e' ltac:(lia) Hm eq_refl eq_refl) as [H0 H1].
  split; [apply Hp| |done|split; [done|by right]|done|..|done].
  - split; [|apply Forall_take, new_file_bytes]. change (me_psize e') with psize. change (me_file e') with (new_file psize m).
    unfold new_file. rewrite length_app, !length_meta_page by lia. unfold METABUF_SIZE, META_SIZE, PAGEHDRSZ in Hp. lia.
  - change (mm_mapsize m) with mapsize'. change (me_mapsize e') with mapsize'.
    unfold METABUF_SIZE, META_SIZE, PAGEHDRSZ in Hp. lia.
Qed.

(** Commits follow one another: after a commit the next transaction finds what it
    needs, with the two pages in exchanged roles, and no commit ever writes into the page
    of the last version. *)
Theorem commit_next e W txn prev old free main msync eintr rest txn' free' main' :
  commit_ok e W txn prev old free main → Forall interrupted eintr →
  has_flag (me_flags e) MDB_WRITEMAP = false ∨ msync = 0 → W + 1 < 2 ^ 64 →
  cell (mt_dbs txn') 0 = Ok free' → cell (mt_dbs txn') 1 = Ok main' → db_ok free' → db_ok main' →
  toggle (W + 1) = other W ∧
  ∃ e', mdb_env_write_meta msync (eintr ++ Wrote 120 :: rest) W txn e = Ok (MDB_SUCCESS, e') ∧
    commit_ok e' (W + 1) txn' (committed e W txn prev old free main) prev free' main'.
Proof.
  intros Hok Hint Hmode HW Hf' Hm' Hfo Hmo.
  assert (Ht : toggle (W + 1) = other W ∧ other (W + 1) = toggle W).
  { destruct (toggle_cases W) as [(-> & -> & HW2)|(-> & -> & HW2)];
      destruct (toggle_cases (W + 1)) as [(-> & -> & HW3)|(-> & -> & HW3)]; try done; exfalso;
      rewrite Z.add_mod, HW2 in HW3 by lia; done. }
  destruct Ht as [Ht Ho]. split; [done|].
  destruct (write_meta_spec e W txn prev old free main msync eintr rest Hok Hint Hmode) as (d & E & _ & Hnew & Hold).
  eexists. split; [exact E|].
  destruct (commit_range e W txn prev old free main Hok) as [H0 Hr].
  destruct (commit_data_split e W txn prev free main) as (Ed & _ & Hlen).
  pose proof Hok as [Hp [Hf Hb] [_ Hid] _ HW0 [Hs1 Hs2] _].
  assert (Htl : (length (take 120 (commit_data e W txn prev free main)) ≤ length (commit_data e W txn prev free main))%nat)
    by (rewrite length_take; lia).
  split; [done| | | |lia| |done].
  - cbn [me_file me_psize set_mti_txnid set_disk set_file]. split.
    + unfold torn. rewrite length_file_write by lia. done.
    + apply file_write_bytes; [done|]. apply Forall_take, meta_tail_bytes.
  - rewrite Ho. split; [exact Hnew|cbn [mm_txnid committed]; lia].
  - rewrite Ht. split; [exact Hold|left; lia].
  - cbn [mm_mapsize committed me_mapsize set_mti_txnid set_disk set_file]. split; [unfold new_mapsize; case_match; lia|done].
Qed.

(** ** Witnesses *)

Module Example.

Definition m0 : MDB_meta :=
  MkMeta MDB_MAGIC MDB_DATA_VERSION 0 1048576 (MkDb 152 8 0 0 0 0 0 P_INVALID) (MkDb 0 0 0 0 0 0 0 P_INVALID) 1 0.
Definition e0 : MDB_env := MkEnv 0 152 4096 1048576 6898 126 4 16 66 4096 true (Some (0, 0)) (new_file 152 m0) (new_file 152 m0).
Definition free : MDB_db := MkDb 152 8 0 0 0 0 0 P_INVALID.
Definition main : MDB_db := MkDb 0 0 1 0 1 0 1 2.
Definition txn : MDB_txn := MkTxn 0 3 [] [free; main] [] [] [] [] no_wtxn.

Lemma first_commit : commit_ok e0 1 txn m0 m0 free main.
Proof.
  split.
  - by vm_compute.
  - split; [by vm_compute|apply Forall_take, new_file_bytes].
  - split; by vm_compute.
  - split; [by vm_compute|by right].
  - done.
  - done.
  - split; [done|]. split; [done|]. split; unfold db_ok; vm_compute; repeat split; discriminate.
Defined.

(** The write fails behind the first byte of the number; it is written back, and then the
    machine stops before that is on the disk. *)
Lemma commit_atomic_witness :
  ∃ rc e1, mdb_env_write_meta 0 [Failed EIO 113; Wrote 120] 1 txn e0 = Ok (rc, e1) ∧
  let e' := set_file e0 (me_disk e1) in
  (mdb_env_pick_meta e' = Ok (other 1) ∧ me_metas e' (other 1) = Ok m0) ∨
  (mdb_env_pick_meta e' = Ok (toggle 1) ∧ me_metas e' (toggle 1) = Ok (committed e0 1 txn m0 m0 free main)).
Proof.
  destruct (mdb_env_write_meta 0 [Failed EIO 113; Wrote 120] 1 txn e0) as [[rc e1]| | |] eqn:E; [|vm_compute in E; discriminate..].
  exists rc, e1. split; [done|]. apply (commit_atomic e0 1 txn m0 m0 free main (me_disk e1) first_commit).
  eapply (stop_machine e0 1 txn 0 [Failed EIO 113; Wrote 120]); [done| |done|done|exact E|].
  - intros b [= <-]. right. cbn. lia.
  - assert (El : length (me_disk e1) = length (me_file e1)) by (vm_compute in E; injection E as _ <-; vm_compute; reflexivity).
    constructor; [lia|by left|by left].
Defined.

Lemma write_meta_commits_witness :
  ∃ f d, let e' := set_mti_txnid (set_disk (set_file e0 f) d) 1 in
    mdb_env_write_meta 0 [Failed EINTR 7; Wrote 120] 1 txn e0 = Ok (MDB_SUCCESS, e') ∧
    mdb_env_pick_meta e' = Ok 1 ∧ me_metas e' 1 = Ok (committed e0 1 txn m0 m0 free main) ∧ me_metas e' 0 = Ok m0.
Proof.
  apply (write_meta_commits e0 1 txn m0 m0 free main 0 [Failed EINTR 7] []); [exact first_commit| |by left].
  apply Forall_cons; split; [by exists 7|by apply Forall_nil].
Defined.

(** The write fails with EIO behind 50 bytes. *)
Lemma write_meta_fails_witness :
  ∃ rc f d, let e' := set_flags (set_disk (set_file e0 f) d) (set_flag 0 MDB_FATAL_ERROR) in
    mdb_env_write_meta 0 [Failed EIO 50; Wrote 120] 1 txn e0 = Ok (rc, e') ∧ rc ≠ 0 ∧
    mdb_env_pick_meta e' = Ok 0 ∧ me_metas e' 0 = Ok m0.
Proof.
  apply (write_meta_fails e0 1 txn m0 m0 free main 0 [] (Failed EIO 50) (Wrote 120) []);
    [exact first_commit|by apply Forall_nil|reflexivity|by split|by vm_compute].
Defined.

Lemma open2_creates_witness :
  let e := MkEnv 0 0 4096 0 0 126 4 0 0 0 false None [] [] in
  ∃ m e',
    mdb_env_open2 0 (λ _, inr 65536) (λ off, inr (pread_file [] METABUF_SIZE off)) true [Wrote 8192] e = Ok (MDB_SUCCESS, e') ∧
    mdb_env_read_header (λ off, inr (pread_file (me_file e') METABUF_SIZE off)) = Ok (inr m) ∧
    mm_txnid m = 0 ∧ md_root (mm_free m) = P_INVALID ∧ md_root (mm_main m) = P_INVALID ∧
    2 * 4096 ≤ me_mapsize e' ∧ mm_mapsize m = me_mapsize e' ∧ me_maxpg e' = me_mapsize e' / 4096 ∧
    commit_ok e' 1 txn m m free main.
Proof.
  intros e. apply (open2_creates 0 (λ _, inr 65536) 65536 [] [] e txn free main); try reflexivity;
    try (vm_compute; repeat split; discriminate). by apply Forall_nil.
Defined.

Lemma commit_next_witness :
  toggle 2 = other 1 ∧
  ∃ e', mdb_env_write_meta 0 [Wrote 120] 1 txn e0 = Ok (MDB_SUCCESS, e') ∧
    commit_ok e' 2 txn (committed e0 1 txn m0 m0 free main) m0 free main.
Proof.
  apply (commit_next e0 1 txn m0 m0 free main 0 [] [] txn free main);
    [exact first_commit|by apply Forall_nil|by left|done|reflexivity|reflexivity|vm_compute; repeat split; discriminate..].
Defined.
End Example.
