(* ===== verification/Readers.v ===== *)
(** * The table of readers and the transactions of LMDB (src/lib/lmdb/mdb.c)

    What processes share in the lock file: the number of the last transaction, the table
    of the readers, and two mutexes.  First the operations on the table; then the life of
    a transaction, cut where another thread can come in between: at every access to the
    shared memory outside a mutex that the other one takes.  A meta page is copied and
    written word by word, so a reader may come by words of different versions; of a word
    only the number of the transaction that wrote it is kept.  Memory is sequentially
    consistent, as the code asks of its volatile variables.  Transaction numbers are
    unbounded: 2^64 transactions are not reached.

    [mdb_reader_pid] is the only question to the system, so a process is what it says:
    alive or dead, and a dead one does not come back. *)

From S2P Require Import Prelude.
From S2P Require Import Lmdb Midl Page Tree.

Definition MDB_BAD_RSLOT : Z := -30783.
Definition MDB_READERS_FULL : Z := -30790.

(** [(txnid_t)-1] *)
Definition NO_TXN : Z := 2 ^ 64 - 1.

Record MDB_reader : Type := MkReader { mr_txnid : Z; mr_pid : Z; mr_tid : Z }.

(** [mti_readers] has [me_maxreaders] slots. *)
Record MDB_txninfo : Type := MkTi { mti_txnid : Z; mti_numreaders : nat; mti_readers : list MDB_reader }.

Definition no_reader : MDB_reader := MkReader 0 0 0.

Definition set_txnid (r : MDB_reader) (x : Z) : MDB_reader := MkReader x (mr_pid r) (mr_tid r).
Definition set_pid (r : MDB_reader) (p : Z) : MDB_reader := MkReader (mr_txnid r) p (mr_tid r).
Definition set_tid (r : MDB_reader) (t : Z) : MDB_reader := MkReader (mr_txnid r) (mr_pid r) t.

(** ** The oldest transaction that a reader may need *)

(** [if (oldest > mr) oldest = mr;] *)
Definition older (mr oldest : Z) : Z := if mr <? oldest then mr else oldest.

(** One slot in the loop of [mdb_find_oldest]. *)
Definition oldest_of (r : MDB_reader) (oldest : Z) : Z :=
  if negb (mr_pid r =? 0) then older (mr_txnid r) oldest else oldest.

Fixpoint oldest_loop (rs : list MDB_reader) (i : nat) (oldest : Z) : res Z :=
  match i with
  | O => Ok oldest
  | S i => r ← cell rs (Z.of_nat i); oldest_loop rs i (oldest_of r oldest)
  end.

Definition mdb_find_oldest (mt_txnid : Z) (me_txns : option MDB_txninfo) : res Z :=
  let oldest := mt_txnid - 1 in
  match me_txns with
  | Some ti => oldest_loop (mti_readers ti) (mti_numreaders ti) oldest
  | None => Ok oldest
  end.

(** ** Sets of processes *)

(** [for (n = ids[0]; n > cursor; n--) ids[n] = ids[n-1]; ids[n] = pid;] *)
Fixpoint pid_shift (k : nat) (ids : list Z) (n pid : Z) : res (list Z) :=
  match k with
  | O => set_cell ids n pid
  | S k => x ← cell ids (n - 1); ids ← set_cell ids n x; pid_shift k ids (n - 1) pid
  end.

(** [mdb_pid_insert]: -1 and the list as it was, or 0 and the new list.  Its search is the
    loop of [mdb_midl_search] with [pid - ids[cursor]] as the comparison; 33 rounds are
    enough for an [unsigned] count. *)
Definition mdb_pid_insert (fuel : nat) (ids : list Z) (pid : Z) : res (Z * list Z) :=
  n ← cell ids 0;
  '(cursor, duplicate) ← search_loop fuel (λ c, x ← cell ids c; Ok (pid - x)) 0 1 0 n;
  if (duplicate : bool) then Ok (-1, ids)
  else
    ids ← set_cell ids 0 (n + 1);
    ids ← pid_shift (Z.to_nat (n + 1 - cursor)) ids (n + 1) pid;
    Ok (0, ids).

(** ** Dead readers *)

Section reader_check.
(** [mdb_reader_pid(env, Pidcheck, pid)] is not 0. *)
Context (fuel : nat) (alive : Z → bool) (me_pid : Z).

(** The loop that clears the slots of a process, and counts them. *)
Fixpoint clear_slots (mr : list MDB_reader) (k : nat) (j : nat) (pid : Z) (count : Z) : res (list MDB_reader * Z) :=
  match k with
  | O => Ok (mr, count)
  | S k =>
      r ← cell mr (Z.of_nat j);
      if mr_pid r =? pid then mr ← set_cell mr (Z.of_nat j) (set_pid r 0); clear_slots mr k (S j) pid (count + 1)
      else clear_slots mr k (S j) pid count
  end.

(** The slots from [i] on, [k] of them; [pids] are the processes that were checked. *)
Fixpoint check_loop (k i : nat) (mr : list MDB_reader) (pids : list Z) (count : Z) : res (list MDB_reader * Z) :=
  match k with
  | O => Ok (mr, count)
  | S k' =>
      r ← cell mr (Z.of_nat i);
      let pid := mr_pid r in
      if (negb (pid =? 0) && negb (pid =? me_pid))%bool then
        '(dup, pids) ← mdb_pid_insert fuel pids pid;
        if (dup =? 0) && negb (alive pid) then
          '(mr, count) ← clear_slots mr k i pid count;
          check_loop k' (S i) mr pids count
        else check_loop k' (S i) mr pids count
      else check_loop k' (S i) mr pids count
  end.

(** [mdb_reader_check0]: the code, the table, and the number of slots that were cleared.
    The reader mutex is held or is taken without an error, and no process changes between
    the two questions about it.  [alloc] tells whether [malloc] succeeds; its array has
    [rdrs + 1] cells. *)
Definition mdb_reader_check0 (alloc : bool) (ti : MDB_txninfo) : res (Z * list MDB_reader * Z) :=
  let rdrs := mti_numreaders ti in
  if negb alloc then Ok (ENOMEM, mti_readers ti, 0)
  else
    '(mr, count) ← check_loop rdrs 0 (mti_readers ti) (replicate (S rdrs) 0) 0;
    Ok (MDB_SUCCESS, mr, count).
End reader_check.

(** ** Transactions under interleaving *)

(** Where a thread is. *)
Inductive Pc : Type :=
| Idle
| Refused (rc : Z)             (* the call returned an error *)
| RLock                        (* about to lock the reader mutex *)
| RScan (nr i : nat)           (* the loop for a free slot *)
| RReset (nr i : nat)          (* r->mr_pid = 0 *)
| RTxnid (nr i : nat)          (* r->mr_txnid = -1 *)
| RTid (nr i : nat)            (* r->mr_tid = tid *)
| RNum (nr i : nat)            (* mti_numreaders = ++nr *)
| RPid (i : nat)               (* r->mr_pid = pid, and unlock *)
| RLoad                        (* reading mti_txnid *)
| RStore (x : Z)               (* r->mr_txnid = x *)
| RCheck (x : Z)               (* while (r->mr_txnid != mti_txnid) *)
| RMeta (t : Z) (vs : list Z)  (* copying mm_dbs and mm_last_pg: the versions of the words so far *)
| Reading (t : Z) (vs : list Z)  (* in the transaction, with words of the versions vs *)
| WLock                        (* about to lock the writer mutex *)
| Writing (w : Z)              (* in the transaction *)
| WScan (w : Z) (i : nat) (oldest : Z)   (* the loop of mdb_find_oldest, before mr_pid *)
| WTxn (w : Z) (i : nat) (oldest : Z)    (* there, before mr_txnid of the slot i *)
| WMeta (w : Z) (i : nat)      (* mdb_env_write_meta: the words from i on, then mm_txnid *)
| WTi (w : Z)                  (* mti_txnid = w *)
| WUnlock.

(** A thread of a process, or with [MDB_NOTLS] a handle of a read transaction: [t_slot] is
    its slot of the table. *)
Record Thread : Type := MkThread { t_pid : Z; t_tid : Z; t_slot : option nat; t_pc : Pc }.

(** [metas] are the numbers in the two meta pages, and [mwords] for each word of [mm_dbs]
    and [mm_last_pg] those of the transactions that wrote it in either; [pgoldest] is [me_pgoldest] of each
    process; a mutex is held by a thread. *)
Record Sys : Type := MkSys {
  ti : MDB_txninfo; metas : Z * Z; mwords : list (Z * Z); threads : list Thread; rmutex : option nat; wmutex : option nat;
  pgoldest : gmap Z Z; dead : gset Z; notls : bool }.

Definition with_ti (s : Sys) (x : MDB_txninfo) : Sys :=
  MkSys x (metas s) (mwords s) (threads s) (rmutex s) (wmutex s) (pgoldest s) (dead s) (notls s).
Definition with_thread (s : Sys) (t : nat) (th : Thread) : Sys :=
  MkSys (ti s) (metas s) (mwords s) (<[t := th]> (threads s)) (rmutex s) (wmutex s) (pgoldest s) (dead s) (notls s).
Definition with_locks (s : Sys) (r w : option nat) : Sys :=
  MkSys (ti s) (metas s) (mwords s) (threads s) r w (pgoldest s) (dead s) (notls s).
Definition with_metas (s : Sys) (m : Z * Z) : Sys :=
  MkSys (ti s) m (mwords s) (threads s) (rmutex s) (wmutex s) (pgoldest s) (dead s) (notls s).
Definition with_mwords (s : Sys) (ws : list (Z * Z)) : Sys :=
  MkSys (ti s) (metas s) ws (threads s) (rmutex s) (wmutex s) (pgoldest s) (dead s) (notls s).
Definition with_pgoldest (s : Sys) (p o : Z) : Sys :=
  MkSys (ti s) (metas s) (mwords s) (threads s) (rmutex s) (wmutex s) (<[p := o]> (pgoldest s)) (dead s) (notls s).
Definition with_dead (s : Sys) (p : Z) : Sys :=
  MkSys (ti s) (metas s) (mwords s) (threads s) (rmutex s) (wmutex s) (pgoldest s) ({[p]} ∪ dead s) (notls s).

(** A change of a slot of the table. *)
Definition with_slot (s : Sys) (i : nat) (f : MDB_reader → MDB_reader) : Sys :=
  with_ti s (MkTi (mti_txnid (ti s)) (mti_numreaders (ti s)) (alter f i (mti_readers (ti s)))).
Definition with_numreaders (s : Sys) (n : nat) : Sys :=
  with_ti s (MkTi (mti_txnid (ti s)) n (mti_readers (ti s))).
Definition with_txnid (s : Sys) (x : Z) : Sys :=
  with_ti s (MkTi x (mti_numreaders (ti s)) (mti_readers (ti s))).

Definition goto (th : Thread) (pc : Pc) : Thread := MkThread (t_pid th) (t_tid th) (t_slot th) pc.
Definition own (th : Thread) (slot : option nat) (pc : Pc) : Thread := MkThread (t_pid th) (t_tid th) slot pc.

(** The mutex is free, or its owner died: then the one who locks it cleans up
    ([mdb_mutex_failed]). *)
Definition is_dead (s : Sys) (t : nat) : bool :=
  match threads s !! t with Some th => bool_decide (t_pid th ∈ dead s) | None => false end.

(** [mdb_env_pick_meta]: the number of the newer meta page. *)
Definition picked (m : Z * Z) : Z := if m.1 <? m.2 then m.2 else m.1.
Definition meta_of (m : Z * Z) (t : Z) : Z := if Z.even t then m.1 else m.2.
Definition set_meta (m : Z * Z) (w : Z) : Z * Z := if Z.even w then (w, m.2) else (m.1, w).

Definition maxreaders (s : Sys) : nat := length (mti_readers (ti s)).

(** Locks the writer mutex: after the death of its owner [mti_txnid] is set again. *)
Definition lock_writer (s : Sys) (t : nat) : option Sys :=
  match wmutex s with
  | None => Some (with_locks s (rmutex s) (Some t))
  | Some o => if is_dead s o then Some (with_txnid (with_locks s (rmutex s) (Some t)) (picked (metas s))) else None
  end.

Definition lock_reader (s : Sys) (t : nat) : option Sys :=
  match rmutex s with
  | None => Some (with_locks s (Some t) (wmutex s))
  | Some o => if is_dead s o then Some (with_locks s (Some t) (wmutex s)) else None
  end.

(** What a thread does next by itself, in [mdb_txn_renew0], [mdb_find_oldest],
    [mdb_env_write_meta] (which may also write all the words in one call, in this order),
    and at the end of the transaction. *)
Definition next (s : Sys) (t : nat) (th : Thread) : option Sys :=
  let go s pc := Some (with_thread s t (goto th pc)) in
  match t_pc th with
  | RLock => s ← lock_reader s t; go s (RScan (mti_numreaders (ti s)) 0)
  | RScan nr i =>
      if (i <? nr)%nat then
        r ← mti_readers (ti s) !! i;
        if mr_pid r =? 0 then go s (RReset nr i) else go s (RScan nr (S i))
      else if (i =? maxreaders s)%nat then go (with_locks s None (wmutex s)) (Refused MDB_READERS_FULL)
      else go s (RReset nr i)
  | RReset nr i => go (with_slot s i (λ r, set_pid r 0)) (RTxnid nr i)
  | RTxnid nr i => go (with_slot s i (λ r, set_txnid r NO_TXN)) (RTid nr i)
  | RTid nr i => go (with_slot s i (λ r, set_tid r (t_tid th))) (RNum nr i)
  | RNum nr i => go (if (i =? nr)%nat then with_numreaders s (S nr) else s) (RPid i)
  | RPid i =>
      let s := with_locks (with_slot s i (λ r, set_pid r (t_pid th))) None (wmutex s) in
      Some (with_thread s t (own th (Some i) RLoad))
  | RLoad => go s (RStore (mti_txnid (ti s)))
  | RStore x => i ← t_slot th; go (with_slot s i (λ r, set_txnid r x)) (RCheck x)
  | RCheck x => if x =? mti_txnid (ti s) then go s (RMeta x []) else go s RLoad
  | RMeta x vs =>
      match mwords s !! length vs with
      | Some m => go s (RMeta x (vs ++ [meta_of m x]))
      | None => go s (Reading x vs)
      end
  | WLock => s ← lock_writer s t; go s (Writing (mti_txnid (ti s) + 1))
  | WScan w (S i) o => r ← mti_readers (ti s) !! i; go s (if negb (mr_pid r =? 0) then WTxn w i o else WScan w i o)
  | WTxn w i o => r ← mti_readers (ti s) !! i; go s (WScan w i (older (mr_txnid r) o))
  | WScan w O o => go (with_pgoldest s (t_pid th) o) (Writing w)
  | WMeta w i =>
      match mwords s !! i with
      | Some m => go (with_mwords s (<[i := set_meta m w]> (mwords s))) (WMeta w (S i))
      | None => go (with_metas s (set_meta (metas s) w)) (WTi w)
      end
  | WTi w => go (with_txnid s w) WUnlock
  | WUnlock => go (with_locks s (rmutex s) None) Idle
  | _ => None
  end.

Inductive event : Type :=
| EStep (t : nat)
| EBeginRead (t : nat)
| EEndRead (t : nat) (slot : bool)
| EBeginWrite (t : nat)
| EFindOldest (t : nat)
| ECommit (t : nat)
| EAbort (t : nat)
| EExit (t : nat)
| EDie (pid : Z)
| EClear (i : nat).

(** The thread [t], when its process lives. *)
Definition running (s : Sys) (t : nat) : option Thread :=
  th ← threads s !! t; if bool_decide (t_pid th ∈ dead s) then None else Some th.

Definition is_idle (pc : Pc) : bool := match pc with Idle | Refused _ => true | _ => false end.

(** [mdb_txn_renew0] of a reader up to its first wait. *)
Definition begin_read (s : Sys) (t : nat) (th : Thread) : option Sys :=
  match t_slot th with
  | Some i =>
      r ← mti_readers (ti s) !! i;
      Some (with_thread s t (goto th (if (negb (mr_pid r =? t_pid th) || negb (mr_txnid r =? NO_TXN))%bool
                                      then Refused MDB_BAD_RSLOT else RLoad)))
  | None => Some (with_thread s t (goto th RLock))
  end.

(** [mdb_txn_end] of a reader; [slot] is [MDB_END_SLOT]. *)
Definition end_read (s : Sys) (t : nat) (th : Thread) (slot : bool) : option Sys :=
  i ← t_slot th;
  let s' := with_slot s i (λ r, set_txnid r NO_TXN) in
  if (notls s && slot)%bool then Some (with_thread (with_slot s' i (λ r, set_pid r 0)) t (own th None Idle))
  else Some (with_thread s' t (goto th Idle)).

Definition run (e : event) (s : Sys) : option Sys :=
  match e with
  | EStep t => th ← running s t; next s t th
  | EBeginRead t => th ← running s t; if is_idle (t_pc th) then begin_read s t th else None
  | EEndRead t slot => th ← running s t; match t_pc th with Reading _ _ => end_read s t th slot | _ => None end
  | EBeginWrite t => th ← running s t; if is_idle (t_pc th) then Some (with_thread s t (goto th WLock)) else None
  | EFindOldest t =>
      th ← running s t;
      match t_pc th with
      | Writing w => Some (with_thread s t (goto th (WScan w (mti_numreaders (ti s)) (w - 1))))
      | _ => None
      end
  | ECommit t => th ← running s t; match t_pc th with Writing w => Some (with_thread s t (goto th (WMeta w 0))) | _ => None end
  | EAbort t => th ← running s t; match t_pc th with Writing w => Some (with_thread s t (goto th WUnlock)) | _ => None end
  | EExit t =>
      (* mdb_env_reader_dest *)
      th ← running s t;
      if is_idle (t_pc th) then
        Some (match t_slot th with
              | Some i => with_thread (with_slot s i (λ r, if mr_pid r =? t_pid th then set_pid r 0 else r)) t (own th None Idle)
              | None => s
              end)
      else None
  | EDie p => Some (with_dead s p)
  | EClear i =>
      r ← mti_readers (ti s) !! i;
      if bool_decide (mr_pid r ∈ dead s) then Some (with_slot s i (λ r, set_pid r 0)) else None
  end.

Fixpoint run_all (es : list event) (s : Sys) : option Sys :=
  match es with [] => Some s | e :: es => s ← run e s; run_all es s end.

(** The words of two [MDB_db] of 48 bytes, and [mm_last_pg]. *)
Definition META_WORDS : nat := 13.

(** A table of [n] slots just made for a file with the meta pages [m], and threads of the
    processes that will use it. *)
Definition started (n : nat) (m : Z * Z) (ths : list (Z * Z)) (tls : bool) : Sys :=
  MkSys (MkTi (picked m) 0 (replicate n no_reader)) m (replicate META_WORDS m) ((λ pt, MkThread pt.1 pt.2 None Idle) <$> ths)
    None None ∅ ∅ tls.

(** The newer meta page is in its place: true of a file just made, where both numbers are
    0, and after every commit. *)
Definition metas_ok (m : Z * Z) : Prop := meta_of m (picked m) = picked m.

Definition reachable (n : nat) (m : Z * Z) (ths : list (Z * Z)) (tls : bool) (s : Sys) : Prop :=
  metas_ok m ∧ Forall (λ pt, pt.1 ≠ 0) ths ∧ ∃ es, run_all es (started n m ths tls) = Some s.
