(* ===== verification/Mvcc.v ===== *)
(** * Snapshots are safe, one writer, slots are exclusive

    The invariants of the transactions of Readers.v under any interleaving, with deaths of
    processes at any point: of the table, of the writer and the meta pages, and of the
    numbers that readers announce and writers reckon with. *)

From S2P Require Import Prelude.
From S2P Require Import Lmdb Midl Page Tree TreeProps Readers.

Implicit Types (s : Sys) (th : Thread) (t i j : nat).

#[local] Arguments Nat.ltb : simpl never.
#[local] Arguments Nat.eqb : simpl never.

(** ** The threads that run *)

Lemma running_set s t th th' :
  running s t = Some th → t_pid th' = t_pid th →
  ∀ s0, threads s0 = threads s → dead s0 = dead s →
  ∀ u, running (with_thread s0 t th') u = if decide (u = t) then Some th' else running s u.
Proof.
  intros Hr Hp s0 Ht Hd u. unfold running in *; cbn. rewrite Ht, Hd.
  destruct (threads s !! t) as [x|] eqn:E; cbn in Hr; [|done].
  destruct (decide (u = t)) as [->|Hu].
  - rewrite list_lookup_insert_eq by (apply lookup_lt_Some in E; done). cbn.
    case_match; simplify_eq. rewrite Hp. by rewrite H.
  - by rewrite list_lookup_insert_ne by done.
Qed.

Lemma running_dead s p u th : running (with_dead s p) u = Some th → running s u = Some th.
Proof.
  unfold running; cbn. destruct (threads s !! u); cbn; [|done].
  repeat case_bool_decide; try done. set_solver.
Qed.

Lemma running_threads s t th : running s t = Some th → threads s !! t = Some th ∧ t_pid th ∉ dead s.
Proof. unfold running. destruct (threads s !! t); cbn; [|done]. case_bool_decide; naive_solver. Qed.

Lemma running_is_dead s t th : running s t = Some th → is_dead s t = false.
Proof. intros [H1 H2]%running_threads. unfold is_dead. rewrite H1. by apply bool_decide_eq_false. Qed.

Lemma not_running_dead s t th : threads s !! t = Some th → is_dead s t = false → running s t = Some th.
Proof. unfold is_dead, running. intros ->; cbn. intros H. by rewrite H. Qed.

(** A thread of the next state, under [running_set]. *)
Lemma running_inv s s0 t th th' u x :
  running s t = Some th → t_pid th' = t_pid th → threads s0 = threads s → dead s0 = dead s →
  running (with_thread s0 t th') u = Some x →
  (u = t ∧ x = th') ∨ (u ≠ t ∧ running s u = Some x).
Proof.
  intros Hr Hp H1 H2. rewrite (running_set s t th th' Hr Hp s0 H1 H2). case_decide; naive_solver.
Qed.

Ltac run_inv :=
  repeat match goal with
  | H : running (with_thread ?s0 ?t ?th') ?u = Some ?x, Hr : running ?s ?t = Some ?th |- _ =>
      apply (running_inv s s0 t th th' u x Hr eq_refl eq_refl eq_refl) in H as [[-> ->]|[? H]]
  | H : running (with_dead _ _) _ = Some _ |- _ => apply running_dead in H
  end; cbn in *.

(** All the cases of one event. *)
Ltac run_cases H :=
  unfold run, next, begin_read, end_read in H;
  repeat (match type of H with
          | context [match ?e with _ => _ end] => is_var e; destruct e
          | (match ?x with _ => _ end) = Some _ => destruct x eqn:?
          | (_ ≫= _) = Some _ => apply bind_Some in H as (? & ? & H)
          | Some _ = Some _ => injection H as H
          | None = Some _ => discriminate H
          end; cbn in H);
  try subst.

(** ** The table *)

Definition free s i : Prop := ∀ t th, running s t = Some th → t_slot th ≠ Some i.

Definition claim_ok s (pc : Pc) : Prop :=
  match pc with
  | RScan nr i => nr = mti_numreaders (ti s) ∧ i ≤ nr
  | RReset nr i | RTxnid nr i | RTid nr i | RNum nr i =>
      nr = mti_numreaders (ti s) ∧ i ≤ nr ∧ i < maxreaders s ∧ free s i
  | RPid i => i < mti_numreaders (ti s) ∧ free s i
  | _ => True
  end%nat.

Definition claims (pc : Pc) : bool :=
  match pc with RScan _ _ | RReset _ _ | RTxnid _ _ | RTid _ _ | RNum _ _ | RPid _ => true | _ => false end.

Record table_ok s : Prop := {
  tb_num : (mti_numreaders (ti s) ≤ maxreaders s)%nat;
  tb_pid : ∀ t th, running s t = Some th → t_pid th ≠ 0;
  tb_slot : ∀ t th i, running s t = Some th → t_slot th = Some i →
    (i < mti_numreaders (ti s))%nat ∧ ∃ r, mti_readers (ti s) !! i = Some r ∧ mr_pid r = t_pid th;
  tb_excl : ∀ t t' th th' i, running s t = Some th → running s t' = Some th' →
    t_slot th = Some i → t_slot th' = Some i → t = t';
  tb_lock : ∀ t th, running s t = Some th → claims (t_pc th) = true → rmutex s = Some t;
  tb_claim : ∀ t th, running s t = Some th → claim_ok s (t_pc th) }.

(** From one state to another in which no thread has a new slot. *)
Definition threads_from s s' : Prop := ∀ t th', running s' t = Some th' →
  ∃ th, running s t = Some th ∧ t_pid th' = t_pid th ∧ (t_slot th' = t_slot th ∨ t_slot th' = None).

Lemma free_from s s' i : threads_from s s' → free s i → free s' i.
Proof. intros H F t th' Hr E. destruct (H _ _ Hr) as (th & Hth & _ & [E'|E']); [|congruence]. apply (F t th Hth). congruence. Qed.

Lemma table_from s s' :
  table_ok s → (mti_numreaders (ti s) ≤ mti_numreaders (ti s') ≤ maxreaders s')%nat →
  threads_from s s' →
  (∀ t th' i r, running s' t = Some th' → t_slot th' = Some i → mti_readers (ti s) !! i = Some r →
     ∃ r', mti_readers (ti s') !! i = Some r' ∧ mr_pid r' = mr_pid r) →
  (∀ t th', running s' t = Some th' → claims (t_pc th') = true → rmutex s' = Some t) →
  (∀ t th', running s' t = Some th' → claim_ok s' (t_pc th')) →
  table_ok s'.
Proof.
  intros T Hn Hth Hpid Hl Hc. split; [lia|..]; [| | |done..].
  - intros t th' Hr. destruct (Hth _ _ Hr) as (th & H & -> & _). by eapply tb_pid.
  - intros t th' i Hr E. destruct (Hth _ _ Hr) as (th & H & -> & [E'|E']); [|congruence].
    destruct (tb_slot s T t th i H ltac:(congruence)) as (? & r & Er & <-). split; [lia|by eapply Hpid].
  - intros t u th' uh' i Hr Hu E1 E2.
    destruct (Hth _ _ Hr) as (th & H & _ & [E|E]); [|congruence].
    destruct (Hth _ _ Hu) as (uh & H' & _ & [E'|E']); [|congruence].
    eapply (tb_excl s T t u th uh i); congruence.
Qed.

Lemma pids_alter f i (l : list MDB_reader) :
  (∀ r, mr_pid (f r) = mr_pid r) → mr_pid <$> alter f i l = mr_pid <$> l.
Proof.
  intros Hf. apply list_eq. intros j. rewrite !list_lookup_fmap.
  destruct (decide (i = j)) as [->|]; [|by rewrite list_lookup_alter_ne].
  rewrite list_lookup_alter_eq. destruct (l !! j); cbn; [by rewrite Hf|done].
Qed.

Lemma claims_ok s pc : claims pc = false → claim_ok s pc.
Proof. by destruct pc. Qed.

(** A step of one thread that keeps the mutex and the processes of the slots. *)
Lemma table_quiet s s0 t th th' :
  table_ok s → running s t = Some th → t_pid th' = t_pid th → t_slot th' = t_slot th →
  threads s0 = threads s → dead s0 = dead s → rmutex s0 = rmutex s →
  mti_numreaders (ti s0) = mti_numreaders (ti s) →
  mr_pid <$> mti_readers (ti s0) = mr_pid <$> mti_readers (ti s) →
  (claims (t_pc th') = true → claims (t_pc th) = true ∧ claim_ok s (t_pc th')) →
  table_ok (with_thread s0 t th').
Proof.
  intros T Hr Hp Hs Ht Hd Hl Hn Hpids Hc.
  assert (Hm : maxreaders s0 = maxreaders s).
  { unfold maxreaders. by rewrite <- (length_fmap mr_pid), Hpids, length_fmap. }
  assert (Hf : threads_from s (with_thread s0 t th')).
  { intros u x [[-> ->]|[? E]]%(running_inv s s0 t th th' u x Hr Hp Ht Hd); eauto 6. }
  apply (table_from s); cbn; [done| |done|..].
  - unfold maxreaders; cbn. fold (maxreaders s0). rewrite Hn, Hm. split; [done|apply (tb_num s T)].
  - intros u x i r _ _ E. apply (f_equal (lookup i)) in Hpids. rewrite !list_lookup_fmap, E in Hpids.
    destruct (mti_readers (ti s0) !! i); naive_solver.
  - intros u x [[-> ->]|[? E]]%(running_inv s s0 t th th' u x Hr Hp Ht Hd) C; rewrite Hl.
    + apply (tb_lock s T _ _ Hr), (Hc C).
    + apply (tb_lock s T _ _ E C).
  - intros u x Hx.
    assert (claim_ok s (t_pc x)) as K.
    { destruct (running_inv s s0 t th th' u x Hr Hp Ht Hd Hx) as [[-> ->]|[? E]].
      - destruct (claims (t_pc th')) eqn:C; [by apply Hc|by apply claims_ok].
      - by apply (tb_claim s T u). }
    destruct (t_pc x); cbn in *; unfold maxreaders in *; cbn in *; rewrite ?Hn, ?Hm; try done;
      destruct_and?; split_and?; eauto using free_from; congruence.
Qed.

Lemma alone s t th u uh :
  table_ok s → running s t = Some th → claims (t_pc th) = true →
  running s u = Some uh → claims (t_pc uh) = true → u = t.
Proof. intros T Hr C Hu C'. pose proof (tb_lock s T _ _ Hr C). pose proof (tb_lock s T _ _ Hu C'). congruence. Qed.

Lemma lock_reader_alone s t s0 u uh :
  table_ok s → lock_reader s t = Some s0 → running s u = Some uh → claims (t_pc uh) = true → False.
Proof.
  unfold lock_reader. intros T H Hu C. rewrite (tb_lock s T _ _ Hu C), (running_is_dead _ _ _ Hu) in H. done.
Qed.

(** A change of the process of the slot [i], which no other thread owns. *)
Lemma table_slot_from s s' i f :
  table_ok s → mti_numreaders (ti s') = mti_numreaders (ti s) → mti_readers (ti s') = alter f i (mti_readers (ti s)) →
  threads_from s s' → free s' i →
  (∀ t th', running s' t = Some th' → claims (t_pc th') = true → rmutex s' = Some t) →
  (∀ t th', running s' t = Some th' → claim_ok s' (t_pc th')) →
  table_ok s'.
Proof.
  intros T Hn Hl Hf Fr Hk Hc. apply (table_from s); try done.
  - unfold maxreaders. rewrite Hn, Hl, length_alter. split; [done|apply (tb_num s T)].
  - intros u x j r Hu E Er. exists r. split; [|done]. rewrite Hl, list_lookup_alter_ne; [done|].
    intros ->. by apply (Fr u x).
Qed.

(** What is left of the other threads' claims. *)
Lemma claim_others s s' u x :
  table_ok s → running s u = Some x → mti_numreaders (ti s') = mti_numreaders (ti s) →
  maxreaders s' = maxreaders s → threads_from s s' → claim_ok s' (t_pc x).
Proof.
  intros T Hu Hn Hm Hf. pose proof (tb_claim s T _ _ Hu) as K.
  destruct (t_pc x); cbn in *; rewrite ?Hn, ?Hm; try done; destruct_and?; split_and?; eauto using free_from.
Qed.

Lemma table_lock s t th s0 :
  table_ok s → running s t = Some th → lock_reader s t = Some s0 →
  table_ok (with_thread s0 t (goto th (RScan (mti_numreaders (ti s0)) 0))).
Proof.
  intros T Hr H. pose proof (lock_reader_alone s t s0) as A.
  assert (E : s0 = with_locks s (Some t) (wmutex s)) by (unfold lock_reader in H; repeat case_match; congruence).
  subst s0. apply (table_from s); cbn; try done.
  - split; [done|apply (tb_num s T)].
  - intros u x Hx. run_inv; eauto.
  - intros; eauto.
  - intros u x Hx C. run_inv; [done|]. destruct (A u x); done.
  - intros u x Hx. run_inv; [split; lia|].
    apply claims_ok. destruct (claims (t_pc x)) eqn:C; [|done]. destruct (A u x); done.
Qed.

Lemma table_unlock s t th pc :
  table_ok s → running s t = Some th → claims (t_pc th) = true → claims pc = false →
  table_ok (with_thread (with_locks s None (wmutex s)) t (goto th pc)).
Proof.
  intros T Hr C C'. apply (table_from s); cbn; try done.
  - split; [done|apply (tb_num s T)].
  - intros u x Hx. run_inv; eauto.
  - intros; eauto.
  - intros u x Hx C1. run_inv; [congruence|]. destruct (alone s t th u x); done.
  - intros u x Hx. run_inv; [by apply claims_ok|].
    apply claims_ok. destruct (claims (t_pc x)) eqn:C1; [|done]. destruct (alone s t th u x); done.
Qed.

Lemma table_reset s t th nr i :
  table_ok s → running s t = Some th → t_pc th = RReset nr i →
  table_ok (with_thread (with_slot s i (λ r, set_pid r 0)) t (goto th (RTxnid nr i))).
Proof.
  intros T Hr E. pose proof (tb_claim s T _ _ Hr) as K. rewrite E in K. destruct K as (-> & Hi & Hm & F).
  set (s' := with_thread _ _ _).
  assert (Hf : threads_from s s') by (intros u x Hx; unfold s' in Hx; run_inv; eauto).
  apply (table_slot_from s s' i (λ r, set_pid r 0)); try done.
  - by apply (free_from s).
  - intros u x Hx C. unfold s' in Hx; cbn. run_inv; [apply (tb_lock s T _ _ Hr); by rewrite E|eauto using tb_lock].
  - intros u x Hx. assert (maxreaders s' = maxreaders s) by (unfold maxreaders; cbn; by rewrite length_alter).
    unfold s' in Hx. run_inv; [|by eapply claim_others].
    split_and?; try done; [congruence|by apply (free_from s)].
Qed.

Lemma table_num s t th nr i :
  table_ok s → running s t = Some th → t_pc th = RNum nr i →
  table_ok (with_thread (if (i =? nr)%nat then with_numreaders s (S nr) else s) t (goto th (RPid i))).
Proof.
  intros T Hr E. pose proof (tb_claim s T _ _ Hr) as K. rewrite E in K. destruct K as (-> & Hi & Hm & F).
  assert (L : ∀ u x, running s u = Some x → claims (t_pc x) = true → u = t).
  { intros u x Hu C. apply (alone s t th u x); try done. by rewrite E. }
  assert (R : rmutex s = Some t) by (apply (tb_lock s T _ _ Hr); by rewrite E).
  pose proof (tb_num s T).
  case_match eqn:Ei; [apply Nat.eqb_eq in Ei as ->|apply Nat.eqb_neq in Ei].
  all: apply (table_from s); cbn; try done; try (unfold maxreaders in *; cbn; lia).
  all: try (intros u x Hx; run_inv; eauto; fail); try (intros; eauto; fail).
  all: intros u x Hx; run_inv; [try done|].
  all: try (intros C; specialize (L _ _ Hx C); done).
  all: try (apply claims_ok; destruct (claims (t_pc x)) eqn:C; [specialize (L _ _ Hx C); done|done]).
  all: split; [lia|]; intros v y Hy; run_inv; eauto.
Qed.

Lemma table_claimed s t th i :
  table_ok s → running s t = Some th → t_pc th = RPid i →
  table_ok (with_thread (with_locks (with_slot s i (λ r, set_pid r (t_pid th))) None (wmutex s)) t
              (own th (Some i) RLoad)).
Proof.
  intros T Hr E. pose proof (tb_claim s T _ _ Hr) as K. rewrite E in K. destruct K as (Hi & F).
  assert (L : ∀ u x, running s u = Some x → u ≠ t → claims (t_pc x) = true → False).
  { intros u x Hu N C. apply N, (alone s t th u x); try done. by rewrite E. }
  split; cbn.
  - unfold maxreaders; cbn. rewrite length_alter. apply (tb_num s T).
  - intros u x Hx. run_inv; by eapply tb_pid.
  - intros u x j Hx Ej. run_inv.
    + simplify_eq. split; [done|]. rewrite list_lookup_alter_eq.
      destruct (lookup_lt_is_Some_2 (mti_readers (ti s)) j) as [r ->]; [|by eexists].
      pose proof (tb_num s T). unfold maxreaders in *. lia.
    + rewrite list_lookup_alter_ne; [by eapply tb_slot|]. intros ->. by apply (F u x).
  - intros u v x y j Hx Hy Ex Ey. run_inv; simplify_eq; [done|destruct (F u x); done|destruct (F v y); done|].
    by apply (tb_excl s T u v x y j).
  - intros u x Hx C. run_inv; [done|]. destruct (L u x); done.
  - intros u x Hx. run_inv; [done|]. apply claims_ok. destruct (claims (t_pc x)) eqn:C; [|done]. destruct (L u x); done.
Qed.

(** A thread gives up its slot. *)
Lemma table_dropped s t th i f pc :
  table_ok s → running s t = Some th → t_slot th = Some i → claims pc = false →
  table_ok (with_thread (with_slot s i f) t (own th None pc)).
Proof.
  intros T Hr E C. set (s' := with_thread _ _ _).
  assert (Hf : threads_from s s') by (intros u x Hx; unfold s' in Hx; run_inv; eauto).
  assert (Hm : maxreaders s' = maxreaders s) by (unfold maxreaders; cbn; by rewrite length_alter).
  apply (table_slot_from s s' i f); try done.
  - intros u x Hx Eu. unfold s' in Hx. run_inv; [done|]. by apply H, (tb_excl s T u t x th i).
  - intros u x Hx Cx. unfold s' in Hx; cbn. run_inv; [congruence|eauto using tb_lock].
  - intros u x Hx. unfold s' in Hx. run_inv; [by apply claims_ok|by eapply claim_others].
Qed.

Lemma table_cleared s i r :
  table_ok s → mti_readers (ti s) !! i = Some r → mr_pid r ∈ dead s →
  table_ok (with_slot s i (λ r, set_pid r 0)).
Proof.
  intros T Er D. set (s' := with_slot _ _ _).
  assert (Hf : threads_from s s') by (intros u x Hx; exists x; auto).
  assert (Hm : maxreaders s' = maxreaders s) by (unfold maxreaders; cbn; by rewrite length_alter).
  apply (table_slot_from s s' i (λ r, set_pid r 0)); try done.
  - intros u x Hx Eu. destruct (tb_slot s T u x i Hx Eu) as (_ & r' & Er' & P).
    apply running_threads in Hx as [_ N]. simplify_eq. by rewrite P in D.
  - intros u x Hx. by apply (tb_lock s T).
  - intros u x Hx. by eapply claim_others.
Qed.

Lemma table_died s p : table_ok s → table_ok (with_dead s p).
Proof.
  intros T. assert (Hf : threads_from s (with_dead s p)) by (intros u x Hx; run_inv; eauto).
  apply (table_from s); cbn; try done.
  - split; [done|apply (tb_num s T)].
  - intros; eauto.
  - intros u x Hx. run_inv. by apply tb_lock.
  - intros u x Hx. run_inv. by eapply claim_others.
Qed.

Lemma with_slot_twice s i f g : with_slot (with_slot s i f) i g = with_slot s i (g ∘ f).
Proof. unfold with_slot, with_ti; cbn. f_equal. f_equal. apply list_eq. intros j.
  destruct (decide (i = j)) as [->|]; [|by rewrite !list_lookup_alter_ne].
  rewrite !list_lookup_alter_eq. by destruct (mti_readers (ti s) !! j). Qed.

Lemma table_writer s t th s0 pc :
  table_ok s → running s t = Some th → lock_writer s t = Some s0 → claims pc = false →
  table_ok (with_thread s0 t (goto th pc)).
Proof.
  unfold lock_writer. intros T Hr H C.
  repeat case_match; simplify_eq; apply (table_quiet s _ t th); try done; cbn; congruence.
Qed.

Ltac quiet := eapply table_quiet; try done; cbn; try (by rewrite pids_alter); try congruence.

(** The slot that the scan chooses is free: nobody's, or the first unused one. *)
Lemma scanned_free s i r :
  table_ok s → mti_readers (ti s) !! i = Some r → mr_pid r = 0 → free s i.
Proof.
  intros T Er P u x Hx E. destruct (tb_slot s T u x i Hx E) as (_ & r' & Er' & P').
  apply (tb_pid s T u x Hx). congruence.
Qed.

Lemma unused_free s : table_ok s → free s (mti_numreaders (ti s)).
Proof. intros T u x Hx E. destruct (tb_slot s T u x _ Hx E) as (? & _). lia. Qed.

Lemma table_step e s s' : table_ok s → run e s = Some s' → table_ok s'.
Proof.
  intros T H. destruct e; run_cases H;
    try match goal with Hr : running _ _ = Some _ |- _ => pose proof (tb_claim s T _ _ Hr) as K end;
    try match goal with E : t_pc _ = _ |- _ => rewrite E in K; cbn in K end;
    destruct_and?.
  all: try (quiet; fail).
  all: try match goal with E : t_pc _ = ?pc |- _ => match pc with
    | RLock => by eapply table_lock
    | RReset _ _ => by eapply table_reset
    | RNum _ _ => by eapply table_num
    | RPid _ => by eapply table_claimed
    | WLock => by eapply table_writer
    | WScan _ _ _ => quiet; by case_match
    | Reading _ _ => rewrite with_slot_twice; by eapply table_dropped
    end end.
  all: try (apply table_died; done).
  all: try (case_bool_decide; [|done]; simplify_eq; by eapply table_cleared).
  all: try (destruct (t_slot x) eqn:Es; [by eapply table_dropped|done]).
  all: try match goal with E : t_pc _ = RScan _ _ |- table_ok (with_thread (with_locks _ _ _) _ _) =>
    eapply table_unlock; try done; by rewrite E end.
  all: try (quiet; by case_match).
  all: subst; quiet; intros _; try match goal with E : t_pc _ = _ |- _ => rewrite E end; cbn.
  all: repeat match goal with
    | E : (_ <? _)%nat = true |- _ => apply Nat.ltb_lt in E
    | E : (_ <? _)%nat = false |- _ => apply Nat.ltb_ge in E
    | E : (_ =? _)%nat = false |- _ => apply Nat.eqb_neq in E
    | E : (_ =? _) = true |- _ => apply Z.eqb_eq in E end.
  all: pose proof (tb_num s T); split_and?; try done; try lia.
  - by eapply scanned_free.
  - replace i with (mti_numreaders (ti s)) by lia. by apply unused_free.
Qed.

Lemma table_started n m ths tls : Forall (λ pt, pt.1 ≠ 0) ths → table_ok (started n m ths tls).
Proof.
  intros P.
  assert (R : ∀ t th, running (started n m ths tls) t = Some th → ∃ pt, pt ∈ ths ∧ th = MkThread pt.1 pt.2 None Idle).
  { intros t th [H _]%running_threads. cbn in H. rewrite list_lookup_fmap in H.
    destruct (ths !! t) as [pt|] eqn:E; cbn in H; [|done]. simplify_eq. eauto using list_elem_of_lookup_2. }
  split; cbn; [lia|..].
  - intros t th (pt & Hpt & ->)%R. by eapply Forall_forall in P.
  - intros t th i (pt & _ & ->)%R; done.
  - intros t t' th th' i (pt & _ & ->)%R; done.
  - intros t th (pt & _ & ->)%R; done.
  - intros t th (pt & _ & ->)%R; done.
Qed.

(** ** The writer and the meta pages *)

Abbreviation last_txn s := (mti_txnid (ti s)) (only parsing).

Definition writes (pc : Pc) : bool :=
  match pc with Writing _ | WScan _ _ _ | WTxn _ _ _ | WMeta _ _ | WTi _ | WUnlock => true | _ => false end.

(** What the owner of the writer mutex knows, [c] being the last transaction: the other
    meta page is older, until its own write, which writes all the words first. *)
Definition writer_pc (c : Z) (m : Z * Z) (ws : list (Z * Z)) (pc : Pc) : Prop :=
  match pc with
  | Writing w | WScan w _ _ | WTxn w _ _ => w = c + 1 ∧ meta_of m w ≤ c
  | WMeta w i => w = c + 1 ∧ meta_of m w ≤ c ∧ ∀ j m', (j < i)%nat → ws !! j = Some m' → meta_of m' w = w
  | WTi w => w = c + 1 ∧ meta_of m w = w ∧ ∀ j m', ws !! j = Some m' → meta_of m' w = w
  | WUnlock => meta_of m (c + 1) ≤ c
  | _ => False
  end.

Record writer_ok s : Prop := {
  wr_lock : ∀ t th, running s t = Some th → writes (t_pc th) = true → wmutex s = Some t;
  wr_meta : meta_of (metas s) (last_txn s) = last_txn s;
  wr_words : ∀ j m, mwords s !! j = Some m → meta_of m (last_txn s) = last_txn s;
  wr_other : match wmutex s with
             | None => meta_of (metas s) (last_txn s + 1) ≤ last_txn s
             | Some t => ∃ th, threads s !! t = Some th ∧ writer_pc (last_txn s) (metas s) (mwords s) (t_pc th)
             end }.

Lemma even_next c : Z.even (c + 1) = negb (Z.even c).
Proof. rewrite Z.even_add. by destruct (Z.even c). Qed.

Lemma meta_of_set m w : meta_of (set_meta m w) w = w.
Proof. unfold meta_of, set_meta. by destruct (Z.even w) eqn:E; rewrite ?E. Qed.

Lemma meta_of_set_prev m c : meta_of (set_meta m (c + 1)) c = meta_of m c.
Proof. unfold meta_of, set_meta. rewrite even_next. by destruct (Z.even c). Qed.

Lemma meta_of_next2 m c : meta_of m (c + 1 + 1) = meta_of m c.
Proof. unfold meta_of. rewrite !even_next. by destruct (Z.even c). Qed.

Lemma picked_max m c : picked m = Z.max (meta_of m c) (meta_of m (c + 1)).
Proof. unfold picked, meta_of. rewrite even_next. destruct (Z.even c); cbn; case_match; lia. Qed.

(** What a writer finds, and what the next one finds after its death. *)
Lemma picked_after c m ws pc :
  meta_of m c = c → (∀ j m', ws !! j = Some m' → meta_of m' c = c) → writer_pc c m ws pc →
  meta_of m (picked m) = picked m ∧ c ≤ picked m ∧ meta_of m (picked m + 1) ≤ picked m ∧
  ∀ j m', ws !! j = Some m' → meta_of m' (picked m) = picked m.
Proof.
  intros H Hw W. rewrite (picked_max m c).
  assert (meta_of m (c + 1) ≤ c ∨ meta_of m (c + 1) = c + 1 ∧ ∀ j m', ws !! j = Some m' → meta_of m' (c + 1) = c + 1) as [L|[E F]].
  { destruct pc; cbn in W; try done; destruct_and?; subst; auto; lia. }
  - rewrite Z.max_l by lia. rewrite H. split_and!; [done|lia|lia|done].
  - rewrite E, H, Z.max_r by lia. rewrite E, meta_of_next2. split_and!; [done|lia|lia|done].
Qed.

Lemma writer_quiet s s0 t th th' :
  writer_ok s → running s t = Some th → t_pid th' = t_pid th →
  threads s0 = threads s → dead s0 = dead s → wmutex s0 = wmutex s → metas s0 = metas s → mwords s0 = mwords s →
  last_txn s0 = last_txn s →
  (writes (t_pc th') = true → writes (t_pc th) = true) →
  (writer_pc (last_txn s) (metas s) (mwords s) (t_pc th) → writer_pc (last_txn s) (metas s) (mwords s) (t_pc th')) →
  writer_ok (with_thread s0 t th').
Proof.
  intros W Hr Hp Ht Hd Hl Hm Hws Hc Hw Hpc. split; cbn; rewrite ?Hl, ?Hm, ?Hws, ?Hc; [|by apply wr_meta|by apply wr_words|].
  - intros u x [[-> ->]|[? E]]%(running_inv s s0 t th th' u x Hr Hp Ht Hd) C; [|by eapply wr_lock].
    eapply wr_lock; eauto.
  - pose proof (wr_other s W) as O. destruct (wmutex s) as [o|]; [|done]. destruct O as (x & Ho & Wo).
    rewrite Ht. destruct (decide (t = o)) as [->|N].
    + exists th'. split; [apply list_lookup_insert_eq; by eapply lookup_lt_Some|].
      apply running_threads in Hr as [Ho' _]. apply Hpc. congruence.
    + exists x. by rewrite list_lookup_insert_ne.
Qed.

Lemma writer_owner s t th :
  writer_ok s → running s t = Some th → writes (t_pc th) = true → writer_pc (last_txn s) (metas s) (mwords s) (t_pc th).
Proof.
  intros W Hr C. pose proof (wr_other s W) as O. rewrite (wr_lock s W _ _ Hr C) in O.
  destruct O as (x & Hx & Ho). apply running_threads in Hr as [Hr _]. congruence.
Qed.

(** The owner of the mutex moves on. *)
Lemma writer_next s s0 t th pc :
  writer_ok s → running s t = Some th → threads s0 = threads s → dead s0 = dead s →
  wmutex s0 = Some t → (∀ u x, running s u = Some x → u ≠ t → writes (t_pc x) = false) →
  meta_of (metas s0) (last_txn s0) = last_txn s0 →
  (∀ j m, mwords s0 !! j = Some m → meta_of m (last_txn s0) = last_txn s0) → writer_pc (last_txn s0) (metas s0) (mwords s0) pc →
  writer_ok (with_thread s0 t (goto th pc)).
Proof.
  intros W Hr Ht Hd Hl Ho Hm Hws Hpc. split; cbn; rewrite ?Hl; [|done|done|].
  - intros u x [[-> ->]|[N E]]%(running_inv s s0 t th (goto th pc) u x Hr eq_refl Ht Hd) C; [done|].
    by rewrite (Ho u x E N) in C.
  - exists (goto th pc). split; [|done]. rewrite Ht. apply list_lookup_insert_eq.
    apply running_threads in Hr as [Hr _]. by eapply lookup_lt_Some.
Qed.

Lemma writer_alone s t th u x :
  writer_ok s → running s t = Some th → writes (t_pc th) = true → running s u = Some x → u ≠ t → writes (t_pc x) = false.
Proof.
  intros W Hr C Hu N. destruct (writes (t_pc x)) eqn:C'; [|done].
  pose proof (wr_lock s W _ _ Hr C). pose proof (wr_lock s W _ _ Hu C'). congruence.
Qed.

Lemma writer_locked s t th s0 :
  writer_ok s → running s t = Some th → lock_writer s t = Some s0 →
  writer_ok (with_thread s0 t (goto th (Writing (last_txn s0 + 1)))).
Proof.
  intros W Hr H. pose proof (wr_other s W) as O. pose proof (wr_meta s W) as M. pose proof (wr_words s W) as Ws.
  assert (A : ∀ u x, running s u = Some x → writes (t_pc x) = false).
  { intros u x Hu. destruct (writes (t_pc x)) eqn:C; [|done]. unfold lock_writer in H.
    rewrite (wr_lock s W _ _ Hu C), (running_is_dead _ _ _ Hu) in H. done. }
  unfold lock_writer in H. destruct (wmutex s) as [o|].
  - case_match; [|done]. simplify_eq. destruct O as (x & _ & Wo).
    destruct (picked_after _ _ _ _ M Ws Wo) as (P1 & P2 & P3 & P4).
    eapply (writer_next s); try done; eauto.
  - simplify_eq. eapply (writer_next s); try done; eauto.
Qed.

Lemma writer_unlocked s t th :
  writer_ok s → running s t = Some th → t_pc th = WUnlock →
  writer_ok (with_thread (with_locks s (rmutex s) None) t (goto th Idle)).
Proof.
  intros W Hr E. split; cbn; [|by apply wr_meta|by apply wr_words|].
  - intros u x Hx C. run_inv; [done|].
    rewrite (writer_alone s t th u x) in C; try done. by rewrite E.
  - pose proof (writer_owner s t th W Hr) as K. rewrite E in K. by apply K.
Qed.

Lemma writer_begins s s0 t th th' :
  writer_ok s → running s t = Some th → is_idle (t_pc th) = true → t_pid th' = t_pid th →
  threads s0 = threads s → dead s0 = dead s → wmutex s0 = wmutex s → metas s0 = metas s → mwords s0 = mwords s →
  last_txn s0 = last_txn s → writes (t_pc th') = false →
  writer_ok (with_thread s0 t th').
Proof.
  intros W Hr I ??????? C. eapply writer_quiet; try done; [congruence|]. by destruct (t_pc th).
Qed.

Lemma writer_step e s s' : writer_ok s → run e s = Some s' → writer_ok s'.
Proof.
  intros W H. destruct e; run_cases H;
    try match goal with Hr : running _ ?t = Some ?th, E : t_pc _ = ?pc |- _ =>
      pose proof (writer_owner s t th W Hr) as K; pose proof (wr_lock s W t th Hr) as L;
      pose proof (writer_alone s t th) as A; rewrite E in K, L, A; cbn in K, L, A;
      specialize (K eq_refl); specialize (L eq_refl) end.
  all: try match goal with E : t_pc _ = ?pc |- _ => match pc with
    | WLock => by eapply writer_locked
    | WUnlock => by eapply writer_unlocked end end.
  all: try (eapply writer_quiet; try done; match goal with E : t_pc _ = _ |- _ => rewrite E end; cbn; try done; by case_match).
  all: try (eapply writer_begins; try done; by case_match).
  all: try (by eapply writer_quiet; try done; match goal with E : t_pc _ = _ |- _ => rewrite E end; cbn; destruct_and?; subst).
  - unfold lock_reader in H1. repeat case_match; simplify_eq; eapply writer_quiet; try done; by rewrite Heqp.
  - eapply writer_quiet; try done; try (by rewrite Heqp); by case_match.
  - destruct K as (-> & K & F). eapply (writer_next s); try done; [by eauto|exact (wr_meta s W)|..]; cbn.
    + intros j m. destruct (decide (j = i)) as [->|N]; [|rewrite list_lookup_insert_ne by done; by apply wr_words].
      rewrite list_lookup_insert_eq by (by eapply lookup_lt_Some). intros [= <-]. rewrite meta_of_set_prev. by eapply wr_words.
    + split; [done|]. split; [done|]. intros j m Hj. destruct (decide (j = i)) as [->|N].
      * rewrite list_lookup_insert_eq by (by eapply lookup_lt_Some). intros [= <-]. apply meta_of_set.
      * rewrite list_lookup_insert_ne by done. apply F. lia.
  - destruct K as (-> & K & F). eapply (writer_next s); try done; [by eauto|..|]; cbn.
    + rewrite meta_of_set_prev. by apply wr_meta.
    + by apply wr_words.
    + split; [done|]. split; [by rewrite meta_of_set|]. intros j m Hj. apply (F j m); [|done].
      apply lookup_ge_None in Heqo. apply lookup_lt_Some in Hj. lia.
  - destruct K as (-> & K & F). eapply (writer_next s); try done; [by eauto|..]; cbn.
    rewrite meta_of_next2, (wr_meta s W). lia.
  - eapply writer_quiet; try done; rewrite Heqp; [done|]. cbn. intros _. destruct K. split_and!; [done|done|lia].
  - destruct (t_slot x); [by eapply writer_begins|done].
  - destruct W as [W1 W2 W3 W4]. split; try done. intros u y Hy. run_inv. by apply W1.
  - by destruct W.
Qed.

Lemma started_running n m ths tls t th :
  running (started n m ths tls) t = Some th → ∃ pt, pt ∈ ths ∧ th = MkThread pt.1 pt.2 None Idle.
Proof.
  intros [H _]%running_threads. cbn in H. rewrite list_lookup_fmap in H.
  destruct (ths !! t) as [pt|] eqn:E; cbn in H; [|done]. simplify_eq. eauto using list_elem_of_lookup_2.
Qed.

Lemma picked_other m : metas_ok m → meta_of m (picked m + 1) ≤ picked m.
Proof. intros M. rewrite (picked_max m (picked m)) at 2. lia. Qed.

Lemma writer_started n m ths tls : metas_ok m → writer_ok (started n m ths tls).
Proof.
  intros M. split; cbn -[replicate META_WORDS]; [|done| |by apply picked_other].
  2:{ by intros j m' [-> _]%lookup_replicate. }
  intros t th (pt & _ & ->)%started_running; done.
Qed.

(** ** What readers announce *)

Definition slot_has s th (x : Z) : Prop :=
  ∃ i r, t_slot th = Some i ∧ mti_readers (ti s) !! i = Some r ∧ mr_txnid r = x.

(** The words of the meta page of [x] are of that transaction or of later ones. *)
Definition words_from s (x : Z) : Prop := ∀ j m, mwords s !! j = Some m → x ≤ meta_of m x.

(** The number of the transaction of a reader that has one. *)
Definition active (pc : Pc) : option Z :=
  match pc with RMeta x _ | Reading x _ => Some x | _ => None end.

Definition reader_pc s th : Prop :=
  match t_pc th with
  | RStore x => x ≤ last_txn s
  | RCheck x => x ≤ last_txn s ∧ slot_has s th x
  | RMeta x vs => x ≤ last_txn s ∧ slot_has s th x ∧ words_from s x ∧ Forall (Z.le x) vs
  | Reading x vs => x ≤ last_txn s ∧ slot_has s th x ∧ Forall (Z.le x) vs
  | _ => True
  end.

(** [o] is not above the transaction of any reader in the slots from [i] on. *)
Definition bound s i (o : Z) : Prop :=
  o ≤ last_txn s ∧
  ∀ t th x j, running s t = Some th → active (t_pc th) = Some x → t_slot th = Some j → o ≤ x ∨ (j < i)%nat.

Definition scan_ok s (pc : Pc) : Prop :=
  match pc with WScan _ i o => bound s i o | WTxn _ i o => bound s (S i) o | _ => True end.

Record readers_ok s : Prop := {
  rd_pc : ∀ t th, running s t = Some th → reader_pc s th;
  rd_old : ∀ p o, pgoldest s !! p = Some o → bound s 0 o;
  rd_scan : ∀ t th, running s t = Some th → scan_ok s (t_pc th) }.

Section move.
(** The thread [t] goes from [th] to [th']; the shared memory from that of [s] to that of
    [s0], where the numbers only grow, and the slots of the others stay. *)
Context (s s0 : Sys) (t : nat) (th th' : Thread).
Hypothesis (Hr : running s t = Some th) (Hp : t_pid th' = t_pid th).
Hypothesis (Ht : threads s0 = threads s) (Hd : dead s0 = dead s).
Hypothesis (Hc : last_txn s ≤ last_txn s0).
Hypothesis (Hm : ∀ x, x ≤ last_txn s → words_from s x → words_from s0 x).
Hypothesis (Hs : ∀ u y j, running s u = Some y → u ≠ t → t_slot y = Some j →
  mr_txnid <$> mti_readers (ti s0) !! j = mr_txnid <$> mti_readers (ti s) !! j).
Hypothesis (Ha : ∀ x, active (t_pc th') = Some x → x = last_txn s ∨ active (t_pc th) = Some x ∧ t_slot th' = t_slot th).

Lemma bound_move i o : bound s i o → bound (with_thread s0 t th') i o.
Proof using Hr Hp Ht Hd Hc Ha.
  intros [B1 B2]. split; cbn; [lia|]. intros u y x j Hu Y E.
  destruct (running_inv s s0 t th th' u y Hr Hp Ht Hd Hu) as [[-> ->]|[N Hu']]; [|by eapply B2].
  destruct (Ha x Y) as [->|[Y' E']]; [by left|]. eapply B2; [done..|congruence].
Qed.

Lemma slot_has_move u y x : running s u = Some y → u ≠ t → slot_has s y x → slot_has s0 y x.
Proof using Hs.
  intros Hu N (i & r & E & Er & <-). specialize (Hs u y i Hu N E). rewrite Er in Hs.
  destruct (mti_readers (ti s0) !! i) as [r'|] eqn:Er'; [|done]. cbn in Hs. exists i, r'. naive_solver.
Qed.

Lemma readers_move :
  readers_ok s → (∀ p o, pgoldest s0 !! p = Some o → pgoldest s !! p = Some o ∨ bound s 0 o) →
  reader_pc s0 th' → scan_ok s (t_pc th') → readers_ok (with_thread s0 t th').
Proof using Hr Hp Ht Hd Hc Hm Hs Ha.
  intros [R1 R2 R3] Ho Hpc Hsc. split; cbn.
  - intros u y [[-> ->]|[N Hu]]%(running_inv s s0 t th th' u y Hr Hp Ht Hd); [done|].
    specialize (R1 u y Hu). unfold reader_pc in *; cbn. pose proof (slot_has_move u y) as K.
    destruct (t_pc y); try done; destruct_and?; split_and?; try lia; first [done|by apply K|by apply Hm].
  - intros p o [E|B]%Ho; apply bound_move; [by eapply R2|done].
  - assert (M : ∀ pc, scan_ok s pc → scan_ok (with_thread s0 t th') pc) by (intros []; cbn; auto using bound_move).
    intros u y [[-> ->]|[N Hu]]%(running_inv s s0 t th th' u y Hr Hp Ht Hd); apply M; [done|by eapply R3].
Qed.
End move.

Lemma txnid_alter f i j (l : list MDB_reader) :
  i ≠ j ∨ (∀ r, mr_txnid (f r) = mr_txnid r) → mr_txnid <$> alter f i l !! j = mr_txnid <$> l !! j.
Proof.
  intros [N|K]; [by rewrite list_lookup_alter_ne|].
  destruct (decide (i = j)) as [->|N]; [|by rewrite list_lookup_alter_ne].
  rewrite list_lookup_alter_eq. destruct (l !! j); cbn; [by rewrite K|done].
Qed.

(** Two threads have two slots. *)
Lemma other_slot s t th u y i j :
  table_ok s → running s t = Some th → t_slot th = Some i → running s u = Some y → u ≠ t → t_slot y = Some j → i ≠ j.
Proof. intros T Hr E Hu N E' ->. by apply N, (tb_excl s T u t y th j). Qed.

Lemma slot_has_own s t th i f x :
  table_ok s → running s t = Some th → t_slot th = Some i → (∀ r, mr_txnid (f r) = x) →
  ∀ th', t_slot th' = t_slot th → slot_has (with_slot s i f) th' x.
Proof.
  intros T Hr E F th' E'. destruct (tb_slot s T t th i Hr E) as (_ & r & Er & _).
  exists i, (f r). rewrite E', E. cbn. rewrite list_lookup_alter_eq, Er. auto.
Qed.

Lemma meta_grows m c x : x ≤ c → x ≤ meta_of m x → x ≤ meta_of (set_meta m (c + 1)) x.
Proof. unfold meta_of, set_meta. rewrite even_next. destruct (Z.even c), (Z.even x); cbn; lia. Qed.

Lemma older_min x o : older x o = Z.min x o.
Proof. unfold older. destruct (Z.ltb_spec x o); lia. Qed.

Lemma active_slot s t th x :
  readers_ok s → running s t = Some th → active (t_pc th) = Some x → x ≤ last_txn s ∧ slot_has s th x.
Proof.
  intros R Hr A. pose proof (rd_pc s R t th Hr) as K. unfold reader_pc in K.
  destruct (t_pc th); cbn in A; try done; simplify_eq; tauto.
Qed.

(** A free slot is skipped. *)
Lemma bound_free s i o r :
  table_ok s → mti_readers (ti s) !! i = Some r → mr_pid r = 0 → bound s (S i) o → bound s i o.
Proof.
  intros T Er P [B1 B2]. split; [done|]. intros t th x j Hr A E.
  destruct (B2 t th x j Hr A E) as [L|L]; [by left|right].
  assert (j ≠ i); [|lia]. intros ->. by eapply scanned_free.
Qed.

Lemma bound_older s i o r :
  readers_ok s → mti_readers (ti s) !! i = Some r → bound s (S i) o → bound s i (older (mr_txnid r) o).
Proof.
  rewrite older_min. intros R Er [B1 B2]. split; [lia|]. intros t th x j Hr A E.
  destruct (B2 t th x j Hr A E) as [L|L]; [left; lia|].
  destruct (decide (j = i)) as [->|N]; [left|right; lia].
  destruct (active_slot s t th x R Hr A) as (_ & i' & r' & E' & Er' & <-).
  assert (r = r') as -> by congruence. lia.
Qed.

Lemma bound_died s p i o : bound s i o → bound (with_dead s p) i o.
Proof. intros [B1 B2]. split; [done|]. intros t th x j Hr. apply running_dead in Hr. by apply (B2 t). Qed.

Lemma readers_died s p : readers_ok s → readers_ok (with_dead s p).
Proof.
  intros [R1 R2 R3]. split; cbn.
  - intros t th Hr%running_dead. by apply (R1 t).
  - intros q o E. by eapply bound_died, R2.
  - intros t th Hr%running_dead. specialize (R3 t th Hr). destruct (t_pc th); cbn in *; auto using bound_died.
Qed.

Lemma readers_cleared s i : readers_ok s → readers_ok (with_slot s i (λ r, set_pid r 0)).
Proof.
  intros [R1 R2 R3]. split; [|done|done]. intros t th Hr. specialize (R1 t th Hr).
  assert (∀ x, slot_has s th x → slot_has (with_slot s i (λ r, set_pid r 0)) th x) as K.
  { intros x (j & r & E & Er & <-).
    pose proof (txnid_alter (λ r, set_pid r 0) i j (mti_readers (ti s)) (or_intror (λ r, eq_refl))) as A.
    rewrite Er in A. apply fmap_Some in A as (r' & Er' & ->). exists j, r'. auto. }
  unfold reader_pc in *. destruct (t_pc th); naive_solver.
Qed.

Ltac calm s := eapply (readers_move s); try done; cbn; auto; try lia;
  try (intros; apply txnid_alter; right; done).

Lemma readers_step e s s' : table_ok s → writer_ok s → readers_ok s → run e s = Some s' → readers_ok s'.
Proof.
  intros T W R H. destruct e; run_cases H;
    try match goal with Hr : running _ ?t = Some ?th, E : t_pc _ = ?pc |- _ =>
      pose proof (rd_pc s R t th Hr) as K; pose proof (tb_claim s T t th Hr) as Q; pose proof (rd_scan s R t th Hr) as N;
      unfold reader_pc in K; rewrite E in K, Q, N; cbn in K, Q, N end.
  all: try (calm s; fail).
  all: try match goal with Hr : running _ ?t = Some ?th, E : t_pc _ = ?pc |- _ =>
      pose proof (writer_owner s t th W Hr) as V; rewrite E in V; cbn in V; specialize (V eq_refl) end.
  - unfold lock_reader in H1. repeat case_match; simplify_eq; calm s.
  - calm s. intros u y j Hu _ E. apply txnid_alter. left. intros ->. destruct Q as (_ & _ & _ & F). by apply (F u y).
  - destruct (_ =? _)%nat; calm s.
  - calm s; [intros u y j Hu N' E; apply txnid_alter; left; by eapply (other_slot s t x u y)|].
    unfold reader_pc; cbn. split; [done|]. by eapply slot_has_own.
  - apply Z.eqb_eq in Heqb as ->. calm s; [intros ? [= <-]; auto|].
    unfold reader_pc; cbn. destruct K as [K1 K2]. split; [done|]. split; [done|]. split; [|constructor].
    intros j m Hj. rewrite (wr_words s W j m Hj). lia.
  - destruct K as (K1 & K2 & K3 & K4). calm s; [intros ? [= <-]; right; by rewrite Heqp|].
    unfold reader_pc; cbn. split; [done|]. split; [done|]. split; [done|]. apply Forall_app. split; [done|].
    apply Forall_singleton. by eapply K3.
  - destruct K as (K1 & K2 & K3 & K4). calm s. intros ? [= <-]; right; by rewrite Heqp.
  - pose proof (wr_other s W) as O. unfold lock_writer in H1. repeat case_match; simplify_eq; calm s.
    destruct O as (y & _ & Wo). by destruct (picked_after _ _ _ _ (wr_meta s W) (wr_words s W) Wo) as (_ & ? & _).
  - calm s. intros p o. destruct (decide (p = t_pid x)) as [->|].
    + rewrite lookup_insert_eq. intros [= <-]; auto.
    + rewrite lookup_insert_ne by done. auto.
  - destruct (Z.eqb_spec (mr_pid x0) 0); cbn; calm s. by eapply bound_free.
  - calm s. by apply bound_older.
  - destruct V as (-> & V & _). calm s. intros y Hy Hw j m. cbn. destruct (decide (j = i)) as [->|Nj].
    + rewrite list_lookup_insert_eq by (by eapply lookup_lt_Some). intros [= <-]. apply meta_grows; [done|by eapply Hw].
    + rewrite list_lookup_insert_ne by done. apply Hw.
  - destruct V as (-> & V & _). calm s.
  - case_match; calm s.
  - rewrite with_slot_twice. calm s. intros u y j Hu N' E; apply txnid_alter; left; by eapply (other_slot s t x u y).
  - calm s. intros u y j Hu N' E; apply txnid_alter; left; by eapply (other_slot s t x u y).
  - destruct V as [-> V]. calm s. split; [lia|]. intros. right. by eapply tb_slot.
  - destruct (t_slot x); [|done]. calm s. intros; apply txnid_alter; right; intros; by case_match.
  - by apply readers_died.
  - by apply readers_cleared.
Qed.

(** ** The slot of a thread that does not read *)

Definition quiet (pc : Pc) : bool := match pc with RLoad | RStore _ | RCheck _ | RMeta _ _ | Reading _ _ => false | _ => true end.

(** It announces no transaction. *)
Definition quiet_ok s : Prop := ∀ t th i r,
  running s t = Some th → t_slot th = Some i → quiet (t_pc th) = true → mti_readers (ti s) !! i = Some r → mr_txnid r = NO_TXN.

Lemma quiet_move s s0 t th th' :
  running s t = Some th → t_pid th' = t_pid th → threads s0 = threads s → dead s0 = dead s →
  (∀ u y j, running s u = Some y → u ≠ t → t_slot y = Some j →
     mr_txnid <$> mti_readers (ti s0) !! j = mr_txnid <$> mti_readers (ti s) !! j) →
  (∀ j, t_slot th' = Some j → quiet (t_pc th') = true →
     mr_txnid <$> mti_readers (ti s0) !! j = Some NO_TXN ∨
     t_slot th = Some j ∧ quiet (t_pc th) = true ∧
       mr_txnid <$> mti_readers (ti s0) !! j = mr_txnid <$> mti_readers (ti s) !! j) →
  quiet_ok s → quiet_ok (with_thread s0 t th').
Proof.
  intros Hr Hp Ht Hd Hs Ho Q u y j r Hu E Hq Er. cbn in Er.
  assert (K : ∀ v x, running s v = Some x → t_slot x = Some j → quiet (t_pc x) = true →
    mr_txnid <$> mti_readers (ti s0) !! j = mr_txnid <$> mti_readers (ti s) !! j → mr_txnid r = NO_TXN).
  { intros v x Hv Ex Hx. rewrite Er. destruct (mti_readers (ti s) !! j) as [r0|] eqn:E0; [|done]. cbn. intros [= ->]. by apply (Q v x j). }
  destruct (running_inv s s0 t th th' u y Hr Hp Ht Hd Hu) as [[-> ->]|[N Hu']]; [|by apply (K u y); [..|by eapply Hs]].
  destruct (Ho j E Hq) as [A|(A & B & C)]; [rewrite Er in A; by injection A|by apply (K t th)].
Qed.

Lemma idle_quiet pc : is_idle pc = true → quiet pc = true.
Proof. by destruct pc. Qed.

(** A step that changes no number of a slot, of a thread that does not read. *)
Lemma quiet_still s s0 t th pc :
  running s t = Some th → threads s0 = threads s → dead s0 = dead s → quiet (t_pc th) = true →
  (∀ u y j, running s u = Some y → t_slot y = Some j →
     mr_txnid <$> mti_readers (ti s0) !! j = mr_txnid <$> mti_readers (ti s) !! j) →
  quiet_ok s → quiet_ok (with_thread s0 t (goto th pc)).
Proof.
  intros Hr Ht Hd Hq Hs Q. eapply (quiet_move s); eauto.
Qed.

Ltac locks := try done; unfold lock_reader, lock_writer in *; repeat case_match; simplify_eq; try done.

Lemma quiet_step e s s' : table_ok s → quiet_ok s → run e s = Some s' → quiet_ok s'.
Proof.
  intros T R H. destruct e; run_cases H;
    try match goal with Hr : running _ ?t = Some ?th, E : t_pc _ = ?pc |- _ =>
      pose proof (tb_claim s T t th Hr) as Q; rewrite E in Q; cbn in Q end.
  all: try (eapply (quiet_still s); [done|locks|locks| | |done];
    [first [by apply idle_quiet|by match goal with E : t_pc _ = _ |- _ => rewrite E end]|];
    intros u y j Hu E; cbn; first [done|apply txnid_alter; by right|by locks|
      apply txnid_alter; left; intros ->; destruct Q as (_ & _ & _ & F); by apply (F u y)]).
  all: try (eapply (quiet_move s); [done|done|done|done| |cbn; done|done]; intros u y j Hu N E; cbn;
    first [done|apply txnid_alter; by right|apply txnid_alter; left; by eapply (other_slot s t x u y)]).
  - rewrite with_slot_twice. eapply (quiet_move s); try done. intros u y j Hu N E; cbn. apply txnid_alter; left; by eapply (other_slot s t x u y).
  - eapply (quiet_move s); try done; cbn.
    + intros u y j Hu N E. apply txnid_alter; left; by eapply (other_slot s t x u y).
    + intros j E _. left. destruct (tb_slot s T t x j H0 E) as (_ & r & Er & _). replace x0 with j by congruence.
      by rewrite list_lookup_alter_eq, Er.
  - destruct (t_slot x) as [i|]; [|done]. eapply (quiet_move s); try done. intros u y j Hu N E. apply txnid_alter. right. intros r. by case_match.
  - intros u y j r Hu%running_dead E Hq Er. by eapply (R u y).
  - intros u y j r Hu E Hq Er. cbn in Er. pose proof (txnid_alter (λ r, set_pid r 0) i j (mti_readers (ti s)) (or_intror (λ r, eq_refl))) as A.
    rewrite Er in A. symmetry in A. apply fmap_Some in A as (r' & Er' & ->). by eapply (R u y).
Qed.

(** ** What is reached *)

Lemma readers_started n m ths tls : readers_ok (started n m ths tls).
Proof.
  split; cbn.
  - intros t th (pt & _ & ->)%started_running; done.
  - intros p o. by rewrite lookup_empty.
  - intros t th (pt & _ & ->)%started_running; done.
Qed.

Definition sys_ok s : Prop := table_ok s ∧ writer_ok s ∧ readers_ok s.

Lemma reachable_quiet n m ths tls s : reachable n m ths tls s → quiet_ok s.
Proof.
  intros (M & P & es & H).
  assert (I : table_ok (started n m ths tls) ∧ quiet_ok (started n m ths tls)).
  { split; [by apply table_started|]. intros t th i r (pt & _ & ->)%started_running; done. }
  revert I H. generalize (started n m ths tls). induction es as [|e es IH]; cbn; intros s0 [T Q] H; [by simplify_eq|].
  apply bind_Some in H as (s1 & H1 & H). apply (IH s1); [|done]. split; [by eapply table_step|by eapply quiet_step].
Qed.

Lemma run_all_ok es s s' : sys_ok s → run_all es s = Some s' → sys_ok s'.
Proof.
  revert s. induction es as [|e es IH]; cbn; intros s I H; [by simplify_eq|].
  apply bind_Some in H as (s1 & H1 & H). apply (IH s1); [|done]. destruct I as (T & W & R).
  split; [|split]; eauto using table_step, writer_step, readers_step.
Qed.

Lemma reachable_ok n m ths tls s : reachable n m ths tls s → sys_ok s.
Proof.
  intros (M & P & es & H). apply (run_all_ok es (started n m ths tls)); [|done].
  split; [by apply table_started|split; [by apply writer_started|apply readers_started]].
Qed.

(** ** A thread that runs alone *)

Definition steps t s s' : Prop := ∃ k, run_all (replicate k (EStep t)) s = Some s'.

Lemma steps_refl t s : steps t s s.
Proof. by exists 0%nat. Qed.

Lemma steps_next t s th s1 s' : running s t = Some th → next s t th = Some s1 → steps t s1 s' → steps t s s'.
Proof. intros Hr Hn [k H]. exists (S k). cbn. rewrite Hr. cbn. by rewrite Hn. Qed.

Lemma running_self s s0 t th th' :
  running s t = Some th → t_pid th' = t_pid th → threads s0 = threads s → dead s0 = dead s →
  running (with_thread s0 t th') t = Some th'.
Proof. intros Hr Hp Ht Hd. rewrite (running_set s t th th' Hr Hp s0 Ht Hd). by rewrite decide_True. Qed.

(** A step after a step. *)
Lemma steps_then t s th s0 th' s1 s' :
  running s t = Some th → t_pid th' = t_pid th → threads s0 = threads s → dead s0 = dead s →
  next (with_thread s0 t th') t th' = Some s1 → steps t s1 s' → steps t (with_thread s0 t th') s'.
Proof. intros Hr Hp Ht Hd. apply steps_next. by eapply running_self. Qed.

Definition busy s i : Prop := ∃ r, mti_readers (ti s) !! i = Some r ∧ mr_pid r ≠ 0.

Lemma with_thread_twice s t a b : with_thread (with_thread s t a) t b = with_thread s t b.
Proof. unfold with_thread; cbn. by rewrite list_insert_insert_eq. Qed.

(** One step of the thread [t], which has come to [pc]. *)
Lemma steps_pc t s s0 th th' pc s1 s' :
  running s t = Some th → t_pid th' = t_pid th → threads s0 = threads s → dead s0 = dead s →
  next (with_thread s0 t (goto th' pc)) t (goto th' pc) = Some s1 → steps t s1 s' →
  steps t (with_thread s0 t (goto th' pc)) s'.
Proof. intros. by eapply (steps_then t s th). Qed.

(** The loop for a slot: it ends at the first free one, or past the used ones. *)
Lemma scan_ends s t th k : running s t = Some th → (mti_numreaders (ti s) ≤ maxreaders s)%nat →
  let nr := mti_numreaders (ti s) in ∀ i, (i + k = nr)%nat → (∀ j, j < i → busy s j)%nat →
  ∃ j, (j ≤ nr)%nat ∧ (∀ j', j' < j → busy s j')%nat ∧
    ((j < maxreaders s)%nat ∧ ((j < nr)%nat → not (busy s j)) ∧
       steps t (with_thread s t (goto th (RScan nr i))) (with_thread s t (goto th (RReset nr j))) ∨
     (j = maxreaders s)%nat ∧
       steps t (with_thread s t (goto th (RScan nr i)))
         (with_thread (with_locks s None (wmutex s)) t (goto th (Refused MDB_READERS_FULL)))).
Proof.
  intros Hr Hn nr. induction k as [|k IH]; intros i Hi B.
  - assert (i = nr) as -> by lia. exists nr. split; [lia|]. split; [done|].
    destruct (Nat.eqb_spec nr (maxreaders s)) as [E|E]; [right|left]; (split; [lia|]); try (split; [lia|]);
      (eapply (steps_pc t s s th th); [done..| |apply steps_refl]); cbn; rewrite Nat.ltb_irrefl;
      unfold maxreaders in *; cbn.
    + rewrite (proj2 (Nat.eqb_eq _ _) E). f_equal. apply (with_thread_twice (with_locks s None (wmutex s))).
    + rewrite (proj2 (Nat.eqb_neq _ _) E). by rewrite with_thread_twice.
  - destruct (lookup_lt_is_Some_2 (mti_readers (ti s)) i) as [r Er]; [unfold maxreaders in *; lia|].
    destruct (Z.eqb_spec (mr_pid r) 0) as [P|P].
    + exists i. split; [lia|]. split; [done|]. left. split; [lia|].
      split; [intros _ (r' & Er' & P'); congruence|].
      eapply (steps_pc t s s th th); [done..| |apply steps_refl]. cbn.
      rewrite (proj2 (Nat.ltb_lt i nr)), Er by lia. cbn. rewrite P. cbn. by rewrite with_thread_twice.
    + destruct (IH (S i)) as (j & J1 & J2 & J3); [lia| |].
      { intros j Hj. destruct (decide (j = i)) as [->|]; [by exists r|apply B; lia]. }
      exists j. split; [done|]. split; [done|].
      destruct J3 as [(J & Jf & J3)|[J J3]]; [left|right]; (split; [done|]); try (split; [done|]);
        (eapply (steps_pc t s s th th); [done..| |exact J3]); cbn;
        rewrite (proj2 (Nat.ltb_lt i nr)), Er by lia; cbn; rewrite (proj2 (Z.eqb_neq _ _) P);
        by rewrite with_thread_twice.
Qed.

(** A step to a state that is written out. *)
Lemma steps_go t s th s0 th' s1 th'' s' :
  running s t = Some th → t_pid th' = t_pid th → threads s0 = threads s → dead s0 = dead s →
  next (with_thread s0 t th') t th' = Some (with_thread (with_thread s1 t th') t th'') →
  steps t (with_thread s1 t th'') s' → steps t (with_thread s0 t th') s'.
Proof. intros ???? H. rewrite with_thread_twice in H. by eapply (steps_then t s th). Qed.

(** The copy of the words of a meta page, from a word on. *)
Lemma words_copied s t th c : running s t = Some th → (∀ j m, mwords s !! j = Some m → meta_of m c = c) →
  ∀ k n, (n + k)%nat = length (mwords s) →
  steps t (with_thread s t (goto th (RMeta c (replicate n c)))) (with_thread s t (goto th (Reading c (replicate (length (mwords s)) c)))).
Proof.
  intros Hr Hw. induction k as [|k IH]; intros n Hn.
  - apply (steps_go t s th s _ s (goto th (Reading c (replicate n c)))); try done.
    + cbn. rewrite length_replicate, lookup_ge_None_2 by lia. done.
    + replace n with (length (mwords s)) by lia. apply steps_refl.
  - destruct (lookup_lt_is_Some_2 (mwords s) n) as [m Em]; [lia|].
    apply (steps_go t s th s _ s (goto th (RMeta c (replicate (S n) c)))); try done; [|apply IH; lia].
    cbn. rewrite length_replicate, Em, (Hw n m Em). by rewrite <-replicate_S_end.
Qed.

(** The start of the snapshot of a thread that has the slot [i]. *)
Lemma load_ends s t th i r :
  running s t = Some th → t_slot th = Some i → mti_readers (ti s) !! i = Some r →
  let c := last_txn s in (∀ j m, mwords s !! j = Some m → meta_of m c = c) →
  ∃ s', steps t (with_thread s t (goto th RLoad)) s' ∧
    running s' t = Some (goto th (Reading c (replicate (length (mwords s)) c))) ∧
    mti_readers (ti s') !! i = Some (set_txnid r c) ∧ rmutex s' = rmutex s.
Proof.
  intros Hr Hi Er c Hw. pose (s1 := with_slot s i (λ r, set_txnid r c)).
  exists (with_thread s1 t (goto th (Reading c (replicate (length (mwords s)) c)))). split; [|split; [|split]].
  - apply (steps_go t s th s _ s (goto th (RStore c))); try done.
    apply (steps_go t s th s _ s1 (goto th (RCheck c))); try done; [cbn; by rewrite Hi|].
    apply (steps_go t s th s1 _ s1 (goto th (RMeta c []))); try done; [cbn; by rewrite Z.eqb_refl|].
    by apply (words_copied s1 t th c Hr Hw (length (mwords s)) 0).
  - by apply (running_self s s1 t th).
  - cbn. by rewrite list_lookup_alter_eq, Er.
  - done.
Qed.

(** From a slot on, the claim and the start of the snapshot. *)
Lemma claim_ends s t th i :
  running s t = Some th → (i < maxreaders s)%nat →
  let nr := mti_numreaders (ti s) in let c := last_txn s in (∀ j m, mwords s !! j = Some m → meta_of m c = c) →
  ∃ s', steps t (with_thread s t (goto th (RReset nr i))) s' ∧
    running s' t = Some (own th (Some i) (Reading c (replicate (length (mwords s)) c))) ∧
    mti_readers (ti s') !! i = Some (MkReader c (t_pid th) (t_tid th)) ∧ rmutex s' = None.
Proof.
  intros Hr Hi nr c Hw. destruct (lookup_lt_is_Some_2 (mti_readers (ti s)) i Hi) as [r Er].
  pose (s1 := with_slot s i (λ r, set_pid r 0)).
  pose (s2 := with_slot s1 i (λ r, set_txnid r NO_TXN)).
  pose (s3 := with_slot s2 i (λ r, set_tid r (t_tid th))).
  pose (s4 := if (i =? nr)%nat then with_numreaders s3 (S nr) else s3).
  pose (s5 := with_locks (with_slot s4 i (λ r, set_pid r (t_pid th))) None (wmutex s4)).
  pose (th5 := own th (Some i) RLoad). pose (s6 := with_thread s5 t th5).
  assert (E4 : threads s4 = threads s ∧ dead s4 = dead s ∧ mwords s4 = mwords s ∧ last_txn s4 = last_txn s ∧
               mti_readers (ti s4) !! i = Some (MkReader NO_TXN 0 (t_tid th))).
  { unfold s4. destruct (i =? nr)%nat; (split_and!; [done..|]); cbn; rewrite !list_lookup_alter_eq, Er; done. }
  destruct E4 as (Ht & Hd & Hm & Hc & H4).
  destruct (load_ends s6 t th5 i (MkReader NO_TXN (t_pid th) (t_tid th))) as (s' & S & A1 & A2 & A3).
  { by apply (running_self s s5 t th). }
  { done. }
  { cbn. by rewrite list_lookup_alter_eq, H4. }
  { cbn. by rewrite Hm, Hc. }
  exists s'. cbn in A1, A2. rewrite Hm, Hc in A1. rewrite Hc in A2. split; [|done].
  apply (steps_go t s th s _ s1 (goto th (RTxnid nr i))); try done.
  apply (steps_go t s th s1 _ s2 (goto th (RTid nr i))); try done.
  apply (steps_go t s th s2 _ s3 (goto th (RNum nr i))); try done.
  apply (steps_go t s th s3 _ s4 (goto th (RPid i))); try done.
  { unfold s4. cbn. by destruct (i =? nr)%nat. }
  apply (steps_go t s th s4 _ s5 th5); try done.
  unfold s6 in S. by rewrite with_thread_twice in S.
Qed.

Lemma steps_trans t s1 s2 s3 : steps t s1 s2 → steps t s2 s3 → steps t s1 s3.
Proof.
  intros [k H] H2. revert s1 H. induction k as [|k IH]; cbn; intros s1 H; [by simplify_eq|].
  apply bind_Some in H as (s & Hs & H). destruct (IH s H) as [k' H']. exists (S k'). cbn. by rewrite Hs.
Qed.

(** The loop of [mdb_find_oldest] when nobody comes in between. *)
Lemma oldest_ends s t th w : running s t = Some th → ∀ i o, (i ≤ maxreaders s)%nat →
  ∃ o', oldest_loop (mti_readers (ti s)) i o = Ok o' ∧
    steps t (with_thread s t (goto th (WScan w i o))) (with_thread s t (goto th (WScan w 0 o'))).
Proof.
  intros Hr. induction i as [|i IH]; intros o Hi; [exists o; split; [done|apply steps_refl]|].
  destruct (lookup_lt_is_Some_2 (mti_readers (ti s)) i) as [r Er]; [unfold maxreaders in Hi; lia|].
  destruct (IH (oldest_of r o)) as (o' & E & S); [lia|]. exists o'. split.
  - cbn. rewrite (cell_at _ _ _ Er). done.
  - unfold oldest_of in S. destruct (negb (mr_pid r =? 0)) eqn:P.
    + apply (steps_go t s th s _ s (goto th (WTxn w i o))); try done; [cbn; rewrite Er; cbn; by rewrite P|].
      apply (steps_go t s th s _ s (goto th (WScan w i (older (mr_txnid r) o)))); try done. cbn. by rewrite Er.
    + apply (steps_go t s th s _ s (goto th (WScan w i o))); try done. cbn. rewrite Er. cbn. by rewrite P.
Qed.

(** The least of the numbers of the readers, and of [o]. *)
Lemma oldest_loop_min rs i : (i ≤ length rs)%nat → ∀ o o', oldest_loop rs i o = Ok o' →
  o' ≤ o ∧ (∀ j r, (j < i)%nat → rs !! j = Some r → mr_pid r ≠ 0 → o' ≤ mr_txnid r) ∧
  (o' = o ∨ ∃ j r, (j < i)%nat ∧ rs !! j = Some r ∧ mr_pid r ≠ 0 ∧ o' = mr_txnid r).
Proof.
  induction i as [|i IH]; cbn; intros Hi o o' H; [simplify_eq; split; [lia|]; split; [lia|by left]|].
  destruct (lookup_lt_is_Some_2 rs i Hi) as [r Er]. rewrite (cell_at _ _ _ Er) in H. cbn in H.
  destruct (IH ltac:(lia) _ _ H) as (A & B & C). unfold oldest_of in *. rewrite older_min in *.
  assert (K : mr_pid r ≠ 0 → negb (mr_pid r =? 0) = true) by lia.
  split; [destruct (negb _); lia|]. split.
  - intros j r' Hj Er' P. destruct (decide (j = i)) as [->|]; [|by apply (B j); [lia|..]].
    simplify_eq. rewrite K in A by done. lia.
  - destruct C as [->|(j & r' & Hj & ?)]; [|right; exists j, r'; split; [lia|done]].
    destruct (negb (mr_pid r =? 0)) eqn:P; [|by left].
    destruct (Z.min_spec (mr_txnid r) o) as [[_ ->]|[_ ->]]; [right|by left].
    exists i, r. split_and!; try done; lia.
Qed.

(** ** Properties *)

(** C5.  Under every interleaving, with processes that die anywhere: every word of the
    records that a reader copied is of its transaction or of a later one, and no writer has
    found an oldest transaction above it.  A writer reuses only pages that were freed before
    the oldest transaction, so it never touches a page of a live snapshot. *)
Theorem snapshot_safe n m ths tls s t th x vs :
  reachable n m ths tls s → running s t = Some th → t_pc th = Reading x vs →
  Forall (Z.le x) vs ∧ ∀ p o, pgoldest s !! p = Some o → o ≤ x.
Proof.
  intros (T & W & R)%reachable_ok Hr E. pose proof (rd_pc s R t th Hr) as K. unfold reader_pc in K.
  rewrite E in K. destruct K as (_ & (i & r & Es & _) & L). split; [done|]. intros p o Ho.
  destruct (rd_old s R p o Ho) as [_ B]. destruct (B t th x i) as [?|?]; [done|by rewrite E|done|done|lia].
Qed.

(** C15.  there is one writer at a time, and its transaction is newer than both meta pages,
    than every reader and than every oldest transaction that was found, whether the last
    owner of the mutex finished or died, even between its meta page and [mti_txnid]. *)
Theorem writer_fresh n m ths tls s t th w :
  reachable n m ths tls s → running s t = Some th → t_pc th = Writing w →
  (metas s).1 < w ∧ (metas s).2 < w ∧ mti_txnid (ti s) = w - 1 ∧
  (∀ u uh w', running s u = Some uh → t_pc uh = Writing w' → u = t) ∧
  (∀ u uh x vs, running s u = Some uh → t_pc uh = Reading x vs → x < w) ∧
  (∀ p o, pgoldest s !! p = Some o → o < w).
Proof.
  intros (T & W & R)%reachable_ok Hr E. pose proof (writer_owner s t th W Hr) as K.
  rewrite E in K. destruct (K eq_refl) as [-> L]. pose proof (wr_meta s W) as M.
  pose proof (picked_max (metas s) (mti_txnid (ti s))) as P.
  assert (Q : (metas s).1 ≤ picked (metas s) ∧ (metas s).2 ≤ picked (metas s)) by (unfold picked; case_match; lia).
  split; [lia|]. split; [lia|]. split; [lia|]. split; [|split].
  - intros u uh w' Hu Eu. destruct (decide (u = t)) as [|N]; [done|].
    pose proof (writer_alone s t th u uh W Hr) as A. rewrite E, Eu in A. by discriminate A.
  - intros u uh x v Hu Eu. destruct (active_slot s u uh x R Hu) as [? _]; [by rewrite Eu|lia].
  - intros p o Ho. destruct (rd_old s R p o Ho). lia.
Qed.

(** C27.  no two live threads have the same slot of the table, and the slot of each is in use,
    below [mti_numreaders], under the number of its process. *)
Theorem slots_exclusive n m ths tls s t th i :
  reachable n m ths tls s → running s t = Some th → t_slot th = Some i →
  (i < mti_numreaders (ti s) ≤ length (mti_readers (ti s)))%nat ∧
  (∃ r, mti_readers (ti s) !! i = Some r ∧ mr_pid r = t_pid th ∧ mr_pid r ≠ 0) ∧
  ∀ u uh, running s u = Some uh → t_slot uh = Some i → u = t.
Proof.
  intros (T & W & R)%reachable_ok Hr E. destruct (tb_slot s T t th i Hr E) as (L & r & Er & P).
  split; [split; [done|apply (tb_num s T)]|]. split.
  - exists r. split_and!; try done. rewrite P. by eapply tb_pid.
  - intros u uh Hu Eu. by eapply tb_excl.
Qed.

(** C26.  A thread that begins to read and meets nobody, the mutex of the table being free
    when it needs a slot, ends in the newest snapshot with a slot that announces it: the
    slot it has, or else a free one; or with MDB_READERS_FULL when, and only when, it has
    no slot and every slot of the table has a process.  It never ends with MDB_BAD_RSLOT. *)
Theorem begin_read_ends n m ths tls s t th :
  reachable n m ths tls s → running s t = Some th → is_idle (t_pc th) = true →
  (t_slot th = None → rmutex s = None) →
  ∃ k s', run_all (EBeginRead t :: replicate k (EStep t)) s = Some s' ∧ rmutex s' = rmutex s ∧
    if (bool_decide (t_slot th = None) && (mti_numreaders (ti s) =? length (mti_readers (ti s)))%nat &&
        forallb (λ r, negb (mr_pid r =? 0)) (mti_readers (ti s)))%bool
    then running s' t = Some (goto th (Refused MDB_READERS_FULL)) ∧ ti s' = ti s
    else ∃ i r, running s' t = Some (own th (Some i) (Reading (mti_txnid (ti s)) (replicate (length (mwords s)) (mti_txnid (ti s))))) ∧
      (∀ j, t_slot th = Some j → i = j) ∧
      mti_readers (ti s') !! i = Some r ∧ mr_txnid r = mti_txnid (ti s) ∧ mr_pid r = t_pid th ∧
      (t_slot th = None → mr_tid r = t_tid th).
Proof.
  intros HR Hr Hi Hl. pose proof (reachable_quiet _ _ _ _ _ HR) as Q. apply reachable_ok in HR as (T & W & R).
  destruct (t_slot th) as [i|] eqn:Es.
  - rewrite bool_decide_eq_false_2 by done. cbn [andb]. destruct (tb_slot s T t th i Hr Es) as (_ & r & Er & P).
    pose proof (Q t th i r Hr Es (idle_quiet _ Hi) Er) as N.
    destruct (load_ends s t th i r Hr Es Er (wr_words s W)) as (s' & [k K] & A1 & A2 & A3).
    exists k, s'. split; [cbn; rewrite Hr; cbn; rewrite Hi; unfold begin_read; rewrite Es, Er; cbn; by rewrite P, N, !Z.eqb_refl|].
    split; [done|]. exists i, (set_txnid r (mti_txnid (ti s))). split.
    { rewrite A1. unfold goto. by rewrite Es. }
    split; [by intros j [= ->]|]. done.
  - specialize (Hl eq_refl). pose proof (tb_num s T) as N. pose (s1 := with_locks s (Some t) (wmutex s)).
    assert (B : ∀ s', steps t (with_thread s1 t (goto th (RScan (mti_numreaders (ti s)) 0))) s' →
                  ∃ k, run_all (EBeginRead t :: replicate k (EStep t)) s = Some s').
    { intros s' K. assert (steps t (with_thread s t (goto th RLock)) s') as [k Hk].
      { apply (steps_go t s th s _ s1 (goto th (RScan (mti_numreaders (ti s)) 0))); try done.
        cbn. unfold lock_reader. cbn. by rewrite Hl. }
      exists k. cbn. rewrite Hr. cbn. rewrite Hi. unfold begin_read. by rewrite Es. }
    destruct (scan_ends s1 t th (mti_numreaders (ti s)) Hr N 0) as (j & J1 & J2 & J3); [done|lia|]. rewrite Hl.
    rewrite bool_decide_eq_true_2 by done. cbn [andb].
    destruct J3 as [(J & Jf & S)|[J S]].
    + destruct (claim_ends s1 t th j Hr J (wr_words s W)) as (s' & S' & A1 & A2 & A3).
      destruct (B s') as [k K]; [by eapply steps_trans|]. exists k, s'. split; [done|]. split; [done|].
      replace (_ && _)%bool with false; [eexists j, _; split; [exact A1|split; [done|]; split; [exact A2|done]]|].
      symmetry. apply not_true_is_false. intros [E F]%andb_prop. apply Nat.eqb_eq in E.
      apply Jf; [unfold maxreaders in J; cbn in *; lia|].
      destruct (lookup_lt_is_Some_2 (mti_readers (ti s)) j J) as [r Er]. exists r. split; [done|].
      rewrite forallb_forall in F. specialize (F r). rewrite <- list_elem_of_In in F.
      intros P. rewrite P in F. discriminate F. by eapply list_elem_of_lookup_2.
    + destruct (B _ S) as [k K]. eexists k, _. split; [exact K|]. split; [done|].
      unfold maxreaders in *; cbn in J, N, J1, J2.
      replace (_ && _)%bool with true; [split; [by apply (running_self s s t th)|done]|].
      symmetry. apply andb_true_intro. split; [apply Nat.eqb_eq; lia|].
      apply forallb_forall. intros r Hin. apply list_elem_of_In, list_elem_of_lookup in Hin as [i Ei].
      destruct (J2 i) as (r' & Er' & P); [apply lookup_lt_Some in Ei; lia|]. cbn in Er'.
      assert (r = r') as -> by congruence. lia.
Qed.

(** C28.  [mdb_find_oldest] run by a writer that meets nobody stores what the function of the
    table gives: the least of the transactions in slots that are in use, and of its own
    minus 1; it is one of them. *)
Theorem find_oldest_min s t th w :
  running s t = Some th → t_pc th = Writing w → (mti_numreaders (ti s) ≤ length (mti_readers (ti s)))%nat →
  ∃ o k s', mdb_find_oldest w (Some (ti s)) = Ok o ∧
    run_all (EFindOldest t :: replicate k (EStep t)) s = Some s' ∧
    pgoldest s' = <[t_pid th := o]> (pgoldest s) ∧ running s' t = Some th ∧ ti s' = ti s ∧
    o ≤ w - 1 ∧
    (∀ i r, (i < mti_numreaders (ti s))%nat → mti_readers (ti s) !! i = Some r → mr_pid r ≠ 0 → o ≤ mr_txnid r) ∧
    (o = w - 1 ∨ ∃ i r, (i < mti_numreaders (ti s))%nat ∧ mti_readers (ti s) !! i = Some r ∧ mr_pid r ≠ 0 ∧ o = mr_txnid r).
Proof.
  intros Hr E N. destruct (oldest_ends s t th w Hr (mti_numreaders (ti s)) (w - 1) N) as (o & Ho & S).
  destruct (oldest_loop_min _ _ N _ _ Ho) as (A & B & C). exists o.
  destruct (steps_trans t _ _ (with_thread (with_pgoldest s (t_pid th) o) t (goto th (Writing w))) S) as [k K].
  { apply (steps_go t s th s _ (with_pgoldest s (t_pid th) o) (goto th (Writing w))); try done. apply steps_refl. }
  exists k. eexists. split; [done|]. split; [cbn; rewrite Hr; cbn; rewrite E; exact K|].
  split; [done|]. split; [|done].
  rewrite (running_self s (with_pgoldest s (t_pid th) o) t th) by done. rewrite <- E. by destruct th.
Qed.

(** ** Witnesses: a reader, a writer that commits twice, and one that dies in between *)

Module Example.
Definition st : Sys := started 2 (0, 0) [(5, 50); (6, 60); (7, 70)] true.
Definition after (es : list event) : Sys := default st (run_all es st).
Definition thread_of s t : Thread := default (MkThread 0 0 None Idle) (running s t).

(** The reader of the process 5 has the snapshot 0; the writer of 6 commits 1, looks for
    the oldest reader in its next transaction, and is in it. *)
Definition committed : list event :=
  EBeginRead 0 :: replicate (11 + META_WORDS) (EStep 0) ++
  [EBeginWrite 1; EStep 1; ECommit 1] ++ replicate (META_WORDS + 3) (EStep 1) ++ [EBeginWrite 1; EStep 1; EFindOldest 1] ++
  replicate 3 (EStep 1).

(** As before, but the writer dies between its meta page and [mti_txnid], and the process 7
    takes over. *)
Definition died : list event := committed ++ [ECommit 1] ++ replicate (META_WORDS + 1) (EStep 1) ++ [EDie 6; EBeginWrite 2; EStep 2].

Lemma reachable_after es : run_all es st = Some (after es) → reachable 2 (0, 0) [(5, 50); (6, 60); (7, 70)] true (after es).
Proof.
  intros H. split; [vm_compute; reflexivity|]. split; [|by exists es]. repeat constructor; discriminate.
Qed.

(** The reader has copied five words of its meta page when the writer of 6 commits 1, and
    then 2, which has the same page; and it looks for the oldest reader before the reader
    has copied the others. *)
Definition torn : list event :=
  EBeginRead 0 :: replicate 15 (EStep 0) ++
  concat (replicate 2 ([EBeginWrite 1; EStep 1; ECommit 1] ++ replicate (META_WORDS + 3) (EStep 1))) ++
  [EBeginWrite 1; EStep 1; EFindOldest 1] ++ replicate 3 (EStep 1) ++ replicate 9 (EStep 0).

Lemma snapshot_safe_witness :
  t_pc (thread_of (after torn) 0) = Reading 0 (replicate 5 0 ++ replicate 8 2) ∧ pgoldest (after torn) !! 6 = Some 0 ∧
  Forall (Z.le 0) (replicate 5 0 ++ replicate 8 2) ∧ ∀ p o, pgoldest (after torn) !! p = Some o → o ≤ 0.
Proof.
  split; [vm_compute; reflexivity|]. split; [vm_compute; reflexivity|].
  apply (snapshot_safe 2 (0, 0) [(5, 50); (6, 60); (7, 70)] true (after torn) 0 (thread_of (after torn) 0));
    [apply reachable_after|..]; vm_compute; reflexivity.
Defined.

Lemma writer_fresh_witness :
  (metas (after died)).1 < 3 ∧ (metas (after died)).2 < 3 ∧ mti_txnid (ti (after died)) = 3 - 1.
Proof.
  destruct (writer_fresh 2 (0, 0) [(5, 50); (6, 60); (7, 70)] true (after died) 2 (thread_of (after died) 2) 3)
    as (A & B & C & _); [apply reachable_after|..|split; [exact A|split; [exact B|exact C]]]; vm_compute; reflexivity.
Defined.

Lemma slots_exclusive_witness :
  (0 < mti_numreaders (ti (after committed)) ≤ length (mti_readers (ti (after committed))))%nat ∧
  ∀ u uh, running (after committed) u = Some uh → t_slot uh = Some 0%nat → u = 0%nat.
Proof.
  destruct (slots_exclusive 2 (0, 0) [(5, 50); (6, 60); (7, 70)] true (after committed) 0 (thread_of (after committed) 0) 0)
    as (L & _ & A); [apply reachable_after|..|exact (conj L A)]; vm_compute; reflexivity.
Defined.

Lemma begin_read_ends_witness :
  ∃ k s', run_all (EBeginRead 2 :: replicate k (EStep 2)) (after committed) = Some s' ∧ rmutex s' = None ∧
    ∃ i r, running s' 2 = Some (MkThread 7 70 (Some i) (Reading 1 (replicate META_WORDS 1))) ∧ (∀ j, None = Some j → i = j) ∧
      mti_readers (ti s') !! i = Some r ∧ mr_txnid r = 1 ∧ mr_pid r = 7 ∧ (@None nat = None → mr_tid r = 70).
Proof.
  apply (begin_read_ends 2 (0, 0) [(5, 50); (6, 60); (7, 70)] true (after committed) 2 (thread_of (after committed) 2));
    [apply reachable_after|..]; vm_compute; try reflexivity; done.
Defined.

Lemma find_oldest_min_witness :
  ∃ o k s', mdb_find_oldest 2 (Some (ti (after committed))) = Ok o ∧
    run_all (EFindOldest 1 :: replicate k (EStep 1)) (after committed) = Some s' ∧
    pgoldest s' = <[6 := o]> (pgoldest (after committed)).
Proof.
  destruct (find_oldest_min (after committed) 1 (thread_of (after committed) 1) 2) as (o & k & s' & A & B & C & _);
    [vm_compute; reflexivity|vm_compute; reflexivity|vm_compute; lia|].
  exists o, k, s'. split; [exact A|]. split; [exact B|exact C].
Defined.
End Example.
