(* ===== verification/ReaderProps.v ===== *)
(** * The sets of processes, and dead readers

    [mdb_pid_insert] keeps a sorted array of distinct numbers; with it [mdb_reader_check0]
    asks once about each process and clears the slots of the dead ones. *)

From stdpp Require Import sorting.
From S2P Require Import Prelude.
From S2P Require Import Lmdb Midl Page Tree TreeProps Readers.

(** ** The sorted set *)

(** The array: the number of numbers, the numbers, and what is left of the memory. *)
Definition pid_cells (xs junk : list Z) : list Z := Z.of_nat (length xs) :: xs ++ junk.

Lemma pid_shift_spec mid : ∀ pre y post pid k n,
  k = length mid → n = Z.of_nat (length pre + length mid) → pre ≠ [] →
  pid_shift k (pre ++ mid ++ y :: post) n pid = Ok (pre ++ pid :: mid ++ post).
Proof.
  induction mid as [|z mid IH] using rev_ind; intros pre y post pid k n -> -> Hp; cbn.
  - rewrite Nat.add_0_r, (set_cell_at _ _ _ y).
    + by rewrite insert_app_r_alt, Nat.sub_diag by lia.
    + by rewrite lookup_app_r, Nat.sub_diag by lia.
  - rewrite length_app. cbn [length]. replace (length mid + 1)%nat with (S (length mid)) by lia. cbn [pid_shift].
    replace (Z.of_nat (length pre + S (length mid)) - 1) with (Z.of_nat (length pre + length mid)) by lia.
    rewrite <- app_assoc. cbn [app].
    rewrite (cell_at _ _ z) by (rewrite app_assoc, lookup_app_r, length_app, Nat.sub_diag by (rewrite length_app; lia); done).
    cbn [mbind res_bind].
    rewrite (set_cell_at _ _ _ y).
    2:{ rewrite app_assoc, lookup_app_r by (rewrite length_app; lia).
        rewrite length_app. by replace (length pre + S (length mid) - (length pre + length mid))%nat with 1%nat by lia. }
    cbn [mbind res_bind].
    replace (<[(length pre + S (length mid))%nat:=z]> (pre ++ mid ++ z :: y :: post)) with (pre ++ mid ++ z :: z :: post).
    + rewrite (IH pre z (z :: post)); try done; try lia. by rewrite <- app_assoc.
    + rewrite !app_assoc, insert_app_r_alt by (rewrite length_app; lia). rewrite length_app.
      replace (length pre + S (length mid) - (length pre + length mid))%nat with 1%nat by lia. done.
Qed.

Lemma pid_insert_at xs y junk pid r :
  (r ≤ length xs)%nat →
  (ids ← set_cell (pid_cells xs (y :: junk)) 0 (Z.of_nat (length xs) + 1);
   ids ← pid_shift (Z.to_nat (Z.of_nat (length xs) + 1 - Z.of_nat (S r))) ids (Z.of_nat (length xs) + 1) pid;
   Ok (0, ids)) = Ok (0, pid_cells (take r xs ++ pid :: drop r xs) junk).
Proof.
  intros Hr. unfold pid_cells. rewrite (set_cell_at _ 0 _ (Z.of_nat (length xs))) by done. cbn [mbind res_bind].
  replace (xs ++ y :: junk) with (take r xs ++ drop r xs ++ y :: junk) by (by rewrite app_assoc, take_drop).
  cbn [list_insert insert]. change (<[0%nat := ?a]> (?b :: ?l)) with (a :: l).
  rewrite app_comm_cons, (pid_shift_spec (drop r xs)).
  - cbn [mbind res_bind]. rewrite length_app, <- app_assoc. cbn [app length]. rewrite length_take, length_drop.
    do 3 f_equal. lia.
  - rewrite length_drop. lia.
  - cbn [length]. rewrite length_take, length_drop. lia.
  - done.
Qed.

Lemma pid_insert_spec fuel xs y junk pid :
  (33 ≤ fuel)%nat → StronglySorted Z.lt xs → Z.of_nat (length xs) < 2 ^ 32 - 1 →
  (pid ∈ xs ∧ mdb_pid_insert fuel (pid_cells xs (y :: junk)) pid = Ok (-1, pid_cells xs (y :: junk))) ∨
  ∃ l r, xs = l ++ r ∧ Forall (λ x, x < pid) l ∧ Forall (λ x, pid < x) r ∧
    mdb_pid_insert fuel (pid_cells xs (y :: junk)) pid = Ok (0, pid_cells (l ++ pid :: r) junk).
Proof.
  intros Hf Hs Hl. set (ids := pid_cells xs (y :: junk)).
  destruct (search_list_spec fuel (λ c, x ← cell ids c; Ok (pid - x)) (λ x, pid - x) xs)
    as (r & eq & E & Hr & Hlo & Hhi & Heq); [done| | |done|].
  { intros i x Hx. rewrite (cell_at ids (S i) x); [done|]. by apply lookup_app_l_Some. }
  { eapply StronglySorted_weaken; [|exact Hs]. cbn. lia. }
  assert (D : mdb_pid_insert fuel ids pid = if eq then Ok (-1, ids) else Ok (0, pid_cells (take r xs ++ pid :: drop r xs) junk)).
  { unfold mdb_pid_insert. assert (H0 : cell ids 0 = Ok (Z.of_nat (length xs))) by done.
    rewrite H0. cbn [mbind res_bind]. rewrite E. cbn [mbind res_bind]. destruct eq; [done|]. by apply pid_insert_at. }
  rewrite D. destruct eq.
  - left. destruct Heq as (k & Hk & Hz). replace pid with k by lia. split; [|done]. by eapply list_elem_of_lookup_2.
  - right. exists (take r xs), (drop r xs). rewrite take_drop.
    split; [done|]. split; [eapply Forall_impl; [exact Hlo|]; cbn; lia|].
    split; [eapply Forall_impl; [exact Heq|]; cbn; lia|done].
Qed.

(** ** Dead readers *)

Fixpoint count {A} (f : A → bool) (l : list A) : Z := match l with [] => 0 | x :: l => Z.b2z (f x) + count f l end.

Lemma count_app {A} (f : A → bool) l l' : count f (l ++ l') = count f l + count f l'.
Proof. induction l; cbn; lia. Qed.

Lemma count_ext {A} (f g : A → bool) l : (∀ x, x ∈ l → f x = g x) → count f l = count g l.
Proof. induction l as [|x l IH]; cbn; intros H; [done|]. rewrite H, IH by set_solver. done. Qed.

Section check.
Context (fuel : nat) (alive : Z → bool) (me_pid : Z) (R post : list MDB_reader).
Hypothesis (Hfuel : (33 ≤ fuel)%nat) (Hlen : Z.of_nat (length R) < 2 ^ 32 - 1).

(** A slot of another process that does not live. *)
Definition stale (r : MDB_reader) : bool :=
  (negb (mr_pid r =? 0) && negb (mr_pid r =? me_pid) && negb (alive (mr_pid r)))%bool.

Definition clean (r : MDB_reader) : MDB_reader := if stale r then set_pid r 0 else r.

(** The slots once the processes [ps] have been checked. *)
Definition known (ps : list Z) (r : MDB_reader) : bool := (stale r && bool_decide (mr_pid r ∈ ps))%bool.
Definition clean_in (ps : list Z) (r : MDB_reader) : MDB_reader := if known ps r then set_pid r 0 else r.

Definition clear_pid (pid : Z) (r : MDB_reader) : MDB_reader := if mr_pid r =? pid then set_pid r 0 else r.

Lemma clear_slots_spec pid mid tail : ∀ pre c,
  clear_slots (pre ++ mid ++ tail) (length mid) (length pre) pid c =
  Ok (pre ++ (clear_pid pid <$> mid) ++ tail, c + count (λ r, mr_pid r =? pid) mid).
Proof.
  induction mid as [|r mid IH]; intros pre c; cbn [length clear_slots].
  - cbn. by rewrite Z.add_0_r.
  - assert (E : (pre ++ (r :: mid) ++ tail) !! length pre = Some r) by (by rewrite lookup_app_r, Nat.sub_diag).
    rewrite (cell_at _ _ _ E). cbn [mbind res_bind].
    assert (F : clear_pid pid <$> r :: mid = (if mr_pid r =? pid then set_pid r 0 else r) :: (clear_pid pid <$> mid)) by done.
    rewrite F. cbn [count app]. destruct (mr_pid r =? pid) eqn:P; cbn [Z.b2z].
    + rewrite (set_cell_at _ _ _ _ E). cbn [mbind res_bind].
      rewrite insert_app_r_alt, Nat.sub_diag by lia. cbn [app insert list_insert].
      specialize (IH (pre ++ [set_pid r 0]) (c + 1)). rewrite <- !app_assoc in IH. cbn [app] in IH.
      rewrite length_app in IH. cbn [length] in IH. rewrite Nat.add_1_r in IH. rewrite IH.
      do 2 f_equal. lia.
    + specialize (IH (pre ++ [r]) c). rewrite <- !app_assoc in IH. cbn [app] in IH.
      rewrite length_app in IH. cbn [length] in IH. rewrite Nat.add_1_r in IH. cbn [app]. rewrite IH.
      done.
Qed.

Definition checked (ps : list Z) (i : nat) : Prop :=
  ∀ j r, (j < i)%nat → R !! j = Some r → mr_pid r ≠ 0 → mr_pid r ≠ me_pid → mr_pid r ∈ ps.

Lemma known_more ps ps' r : (stale r = true → mr_pid r ∈ ps ↔ mr_pid r ∈ ps') → known ps r = known ps' r.
Proof.
  unfold known. destruct (stale r); [|done]. intros H. cbn. apply bool_decide_ext. by apply H.
Qed.

(** A new process that lives changes nothing. *)
Lemma known_alive ps l r pid x : ps = l ++ r → alive pid = true → known ps x = known (l ++ pid :: r) x.
Proof.
  intros -> Ha. apply known_more. intros St. unfold stale in St.
  destruct (Z.eq_dec (mr_pid x) pid) as [E|N]; [by rewrite E, Ha, andb_false_r in St|]. set_solver.
Qed.

(** A new process that does not: its slots are those from [i] on with its number. *)
Lemma clear_new ps l r i x :
  ps = l ++ r → R !! i = Some x → mr_pid x ∉ ps → mr_pid x ≠ 0 → mr_pid x ≠ me_pid → alive (mr_pid x) = false →
  checked ps i →
  let pid := mr_pid x in let ps' := l ++ pid :: r in
  clean_in ps <$> take i R = clean_in ps' <$> take i R ∧
  clear_pid pid <$> (clean_in ps <$> drop i R) = clean_in ps' <$> drop i R ∧
  count (known ps') R = count (known ps) R + count (λ r, mr_pid r =? pid) (clean_in ps <$> drop i R).
Proof.
  intros E Hx Hn H0 Hme Ha Hc pid ps'.
  assert (K : ∀ y, mr_pid y ≠ pid → known ps' y = known ps y).
  { intros y N. apply known_more. intros _. subst ps ps'. set_solver. }
  assert (K1 : ∀ y, y ∈ take i R → known ps' y = known ps y).
  { intros y Hy. unfold known. destruct (Z.eq_dec (mr_pid y) pid) as [Ey|N]; [|by apply K].
    apply list_elem_of_lookup in Hy as [j Hy]. apply lookup_take_Some in Hy as [Hy Hj].
    destruct Hn. fold pid. rewrite <- Ey. eapply Hc; [exact Hj|done|by rewrite Ey..]. }
  assert (K2 : ∀ y, clear_pid pid (clean_in ps y) = clean_in ps' y ∧
                 Z.b2z (known ps' y) = Z.b2z (known ps y) + Z.b2z (mr_pid (clean_in ps y) =? pid)).
  { intros y. unfold clear_pid, clean_in. destruct (Z.eq_dec (mr_pid y) pid) as [Ey|N].
    - assert (known ps y = false) as -> by (unfold known; rewrite Ey, (bool_decide_false (pid ∈ ps)), andb_false_r; done).
      assert (known ps' y = true) as ->.
      { unfold known, stale. rewrite Ey. unfold pid. rewrite Ha, bool_decide_true by (unfold ps'; set_solver).
        rewrite (proj2 (Z.eqb_neq _ _) H0), (proj2 (Z.eqb_neq _ _) Hme). done. }
      by rewrite Ey, Z.eqb_refl.
    - rewrite (K y N). destruct (known ps y); cbn [mr_pid set_pid].
      + rewrite (proj2 (Z.eqb_neq 0 pid)) by (intros Q; by apply H0). done.
      + rewrite (proj2 (Z.eqb_neq _ _) N). done. }
  split; [|split].
  - apply list_fmap_ext. intros j y Hy. unfold clean_in. by rewrite K1 by (by eapply list_elem_of_lookup_2).
  - rewrite <- list_fmap_compose. apply list_fmap_ext. intros j y _. apply K2.
  - rewrite <- (take_drop i R) at 1 2. rewrite !count_app, (count_ext (known ps') (known ps) (take i R)) by done.
    rewrite <- Z.add_assoc. f_equal. clear -K2. induction (drop i R) as [|y zs IH]; [done|]. cbn.
    destruct (K2 y) as [_ ->]. lia.
Qed.

Lemma known_slot ps i x :
  R !! i = Some x → mr_pid (clean_in ps x) ≠ 0 → clean_in ps x = x.
Proof. unfold clean_in. by destruct (known ps x). Qed.

Lemma checked_next ps ps' i x :
  R !! i = Some x → checked ps i → (∀ p, p ∈ ps → p ∈ ps') →
  (mr_pid x ≠ 0 → mr_pid x ≠ me_pid → mr_pid x ∈ ps') → checked ps' (S i).
Proof.
  intros Hx Hc Hsub Hn j r Hj Er H1 H2. destruct (decide (j = i)) as [->|]; [by simplify_eq; apply Hn|].
  eapply Hsub, Hc; [|done..]. lia.
Qed.

Lemma sorted_insert l r pid :
  StronglySorted Z.lt (l ++ r) → Forall (λ x, x < pid) l → Forall (λ x, pid < x) r → StronglySorted Z.lt (l ++ pid :: r).
Proof.
  intros S Hl Hr. induction Hl as [|a l Ha Hl IH]; cbn in *.
  - by constructor.
  - apply StronglySorted_cons in S as [S1 S2]. constructor; [by apply IH|].
    apply Forall_app in S1 as [S1 S3]. apply Forall_app; split; [done|]. by constructor.
Qed.

Lemma check_loop_spec k : ∀ i ps junk,
  (i + k = length R)%nat → StronglySorted Z.lt ps → (length ps ≤ i)%nat →
  (length ps + length junk = length R)%nat → checked ps i →
  check_loop fuel alive me_pid k i ((clean_in ps <$> R) ++ post) (pid_cells ps junk) (count (known ps) R) =
  Ok ((clean <$> R) ++ post, count stale R).
Proof.
  induction k as [|k IH]; intros i ps junk Hi Hs Hps Hj Hc; cbn [check_loop].
  - assert (E : ∀ r, r ∈ R → known ps r = stale r).
    { intros r [j Hr]%list_elem_of_lookup. unfold known. destruct (stale r) eqn:S; [cbn|done].
      unfold stale in S. apply bool_decide_true. eapply Hc; [|exact Hr|..]; [apply lookup_lt_Some in Hr|..]; lia. }
    rewrite (count_ext _ stale) by done. do 3 f_equal. apply list_fmap_ext. intros j r Hr. unfold clean_in, clean.
    by rewrite E by (by eapply list_elem_of_lookup_2).
  - destruct (lookup_lt_is_Some_2 R i) as [x Hx]; [lia|].
    assert (Er : ((clean_in ps <$> R) ++ post) !! i = Some (clean_in ps x)).
    { apply lookup_app_l_Some. by rewrite list_lookup_fmap, Hx. }
    rewrite (cell_at _ _ _ Er). cbn [mbind res_bind].
    destruct (negb _ && negb _)%bool eqn:B.
    2:{ apply (IH (S i)); try done; try lia. apply (checked_next ps ps i x); try done. intros H0 H1.
        unfold clean_in in B. destruct (known ps x) eqn:K; [|lia]. unfold known in K.
        apply andb_prop in K as [_ K]. by apply bool_decide_eq_true in K. }
    assert (C : clean_in ps x = x) by (apply (known_slot ps i); [done|lia]). rewrite C in *.
    destruct junk as [|y junk]; [cbn in Hj; lia|].
    destruct (pid_insert_spec fuel ps y junk (mr_pid x)) as [[Hin ->]|(l & r & E & Hlo & Hhi & ->)]; try done; [lia|..].
    { cbn [mbind res_bind]. apply (IH (S i)); try done; try lia. by apply (checked_next ps ps i x). }
    cbn [mbind res_bind]. change (0 =? 0) with true. cbn [andb].
    assert (S' : StronglySorted Z.lt (l ++ mr_pid x :: r)) by (apply sorted_insert; by rewrite <- ?E).
    assert (C' : checked (l ++ mr_pid x :: r) (S i)).
    { apply (checked_next ps _ i x); try done; subst; set_solver. }
    assert (L : length (l ++ mr_pid x :: r) = S (length ps)) by (subst ps; rewrite !length_app; cbn; lia).
    cbn [length] in Hj. destruct (alive (mr_pid x)) eqn:A; cbn [negb].
    + specialize (IH (S i) (l ++ mr_pid x :: r) junk). rewrite L in IH.
      rewrite (count_ext (known ps) (known (l ++ mr_pid x :: r))) by (intros; by eapply known_alive).
      assert (clean_in ps <$> R = clean_in (l ++ mr_pid x :: r) <$> R) as ->; [|apply IH; try done; lia].
      apply list_fmap_ext. intros j z _. unfold clean_in. by erewrite known_alive.
    + assert (Hn : mr_pid x ∉ ps).
      { intros H. rewrite E in H. apply elem_of_app in H as [H|H]; [eapply Forall_forall in Hlo|eapply Forall_forall in Hhi]; try done; lia. }
      destruct (clear_new ps l r i x) as (K1 & K2 & K3); try done; [lia|lia|].
      assert (Sp : ∀ f : MDB_reader → MDB_reader, f <$> R = (f <$> take i R) ++ (f <$> drop i R))
        by (intros f; by rewrite <- fmap_app, take_drop).
      rewrite (Sp (clean_in ps)), <- app_assoc.
      pose proof (clear_slots_spec (mr_pid x) (clean_in ps <$> drop i R) post (clean_in ps <$> take i R) (count (known ps) R)) as Q.
      rewrite !length_fmap, length_take, length_drop, Nat.min_l in Q by lia.
      replace (length R - i)%nat with (S k) in Q by lia. rewrite Q. cbn [mbind res_bind].
      rewrite K1, K2, app_assoc, <- Sp, <- K3. apply (IH (S i)); try done; rewrite ?L; lia.
Qed.
End check.

(** ** Properties *)

(** C1: [mdb_pid_insert] refuses a number that the array holds, and puts a new one in its
    place; the array stays sorted without duplicates, so it is a set. *)
Theorem pid_insert_set fuel xs y junk pid :
  (33 ≤ fuel)%nat → StronglySorted Z.lt xs → Z.of_nat (length xs) < 2 ^ 32 - 1 →
  if bool_decide (pid ∈ xs) then mdb_pid_insert fuel (pid_cells xs (y :: junk)) pid = Ok (-1, pid_cells xs (y :: junk))
  else ∃ ys, mdb_pid_insert fuel (pid_cells xs (y :: junk)) pid = Ok (0, pid_cells ys junk) ∧
         StronglySorted Z.lt ys ∧ ys ≡ₚ pid :: xs.
Proof.
  intros Hf Hs Hl. destruct (pid_insert_spec fuel xs y junk pid) as [[Hin E]|(l & r & -> & Hlo & Hhi & E)]; try done.
  - by rewrite bool_decide_true.
  - rewrite bool_decide_false.
    + exists (l ++ pid :: r). split; [done|]. split; [by apply sorted_insert|]. by rewrite Permutation_middle.
    + intros [H|H]%elem_of_app; [eapply Forall_forall in Hlo|eapply Forall_forall in Hhi]; try done; lia.
Qed.

(** C29.  C2: [mdb_reader_check0] clears exactly the slots of other processes that do not live,
    among the used ones, and returns their number; each process is asked for once. *)
Theorem reader_check_clears fuel alive me_pid ti :
  (33 ≤ fuel)%nat → (mti_numreaders ti ≤ length (mti_readers ti))%nat → Z.of_nat (mti_numreaders ti) < 2 ^ 32 - 1 →
  mdb_reader_check0 fuel alive me_pid true ti =
  let used := take (mti_numreaders ti) (mti_readers ti) in
  Ok (MDB_SUCCESS, (clean alive me_pid <$> used) ++ drop (mti_numreaders ti) (mti_readers ti),
      count (stale alive me_pid) used).
Proof.
  intros Hf Hn Hl. cbn zeta. set (used := take _ _). set (post := drop _ _).
  assert (Lu : length used = mti_numreaders ti) by (unfold used; rewrite length_take; lia).
  assert (I : (clean_in alive me_pid [] <$> used) ++ post = mti_readers ti).
  { rewrite (list_fmap_ext _ id); [rewrite list_fmap_id; apply take_drop|].
    intros i r _. unfold clean_in, known. rewrite bool_decide_false by set_solver. by rewrite andb_false_r. }
  assert (N : ∀ l, count (known alive me_pid []) l = 0).
  { induction l as [|r l IH]; [done|]. cbn. rewrite IH. unfold known. rewrite bool_decide_false by set_solver.
    by rewrite andb_false_r. }
  pose proof (check_loop_spec fuel alive me_pid used post Hf ltac:(lia) (mti_numreaders ti) 0 []
    (replicate (mti_numreaders ti) 0)) as Q.
  rewrite N, I in Q. unfold mdb_reader_check0. cbn [negb].
  change (replicate (S (mti_numreaders ti)) 0) with (pid_cells [] (replicate (mti_numreaders ti) 0)).
  rewrite Q; [done|lia|constructor|cbn; lia|cbn; rewrite length_replicate; lia|intros j r Hj; lia].
Qed.

Module Example.
Lemma pid_insert_set_witness :
  ∃ ys, mdb_pid_insert 33 (pid_cells [3; 8] [0; 0]) 5 = Ok (0, pid_cells ys [0]) ∧ StronglySorted Z.lt ys ∧ ys ≡ₚ [5; 3; 8].
Proof.
  apply (pid_insert_set 33 [3; 8] 0 [0] 5); [lia|repeat constructor; lia|cbn; lia].
Defined.

Definition table : MDB_txninfo := MkTi 7 4 [MkReader 6 5 1; MkReader 7 9 2; MkReader 6 5 3; MkReader 5 4 4; no_reader].

Lemma reader_check_clears_witness :
  mdb_reader_check0 33 (λ p, p =? 9) 4 true table =
  Ok (MDB_SUCCESS, [MkReader 6 0 1; MkReader 7 9 2; MkReader 6 0 3; MkReader 5 4 4; no_reader], 2).
Proof. apply (reader_check_clears 33 (λ p, p =? 9) 4 table); cbn; lia. Defined.
End Example.
