(* ===== verification/Flush.v ===== *)
(** * Writing the pages of a commit (src/lib/lmdb/mdb.c)

    [mdb_page_flush] writes the dirty pages of a transaction to the file, several at a time
    when they follow one another, and gives their memory back; [mdb_env_sync] waits for the
    disk; then the meta page is written (Meta.v).  A dirty page is in the [heap] at the
    address that its entry of the dirty list has.  What [pwrite], [lseek], [writev] and
    [fdatasync] answer is an argument. *)

From S2P Require Import Prelude.
From S2P Require Import Lmdb Midl Page Tree Dump Meta.

Definition P_LOOSE : Z := 0x4000.
Definition P_KEEP : Z := 0x8000.
Definition MDB_COMMIT_PAGES : Z := 64.
Definition MAX_WRITE : Z := 0x40000000.
Definition EACCES : Z := 13.

Definition MP_PAGES (p : page) : res Z := bs ← mread p 12 4; Ok (le bs).
Definition IS_OVERFLOW (p : page) : res bool := f ← MP_FLAGS p; Ok (F_ISSET f P_OVERFLOW).

(** The answer of a call: everything was written, or the first [n] bytes were and it says
    so, or they were and it reports an error. *)
Inductive Io : Type := IoAll | IoShort (n : nat) | IoErr (err : Z) (n : nat).

(** What the loop of [mdb_page_flush] works on: the dirty list, the pages, the file, the
    answers that are left, the vector [iov] of addresses and sizes, and its variables. *)
Record Fl : Type := MkFl {
  fl_dl : list (option ID2); fl_heap : gmap Z page; fl_file : bytes; fl_io : list Io;
  fl_iov : list (Z * Z); fl_wpos : Z; fl_wsize : Z; fl_next : Z; fl_pos : Z; fl_size : Z }.

Definition heap_at (h : gmap Z page) (a : Z) : res page := match h !! a with Some p => Ok p | None => UB end.

(** [dp->mp_flags &= ~m] *)
Definition clear_page_flag (h : gmap Z page) (a m : Z) : res (gmap Z page) :=
  p ← heap_at h a; f ← MP_FLAGS p; p ← wr16 p 10 (clear_flag f m); Ok (<[a := p]> h).

Definition kept (flags : Z) : bool := has_flag flags (Z.lor P_LOOSE P_KEEP).

(** The bytes of the vector. *)
Fixpoint iov_data (h : gmap Z page) (iov : list (Z * Z)) : res bytes :=
  match iov with
  | [] => Ok []
  | (a, size) :: iov => p ← heap_at h a; b ← mread p 0 size; bs ← iov_data h iov; Ok (b ++ bs)
  end.

(** From [retry_write] on: one page is written with [pwrite], several with [lseek] and
    [writev]; [seek] says that [lseek] is next.  The code, the file, and the answers left. *)
Fixpoint write_iov (io : list Io) (one seek : bool) (wpos : Z) (data f : bytes) : res (Z * bytes * list Io) :=
  match io with
  | [] => NoFuel
  | a :: io =>
      if seek then
        match a with
        | IoErr err _ => if err =? EINTR then write_iov io one true wpos data f else Ok (err, f, io)
        | _ => write_iov io one false wpos data f
        end
      else
        match a with
        | IoAll => Ok (0, file_write f wpos data, io)
        | IoShort n => Ok (EIO, file_write f wpos (take (Nat.min n (length data - 1)) data), io)
        | IoErr err n =>
            let f := file_write f wpos (take n data) in
            if err =? EINTR then write_iov io one (negb one) wpos data f else Ok (err, f, io)
        end
  end.

Definition is_one (iov : list (Z * Z)) : bool := Z.of_nat (length iov) =? 1.

Section flush.
Context (psize : Z).

(** The page [dl[i]]: [true] when it is not to be written yet. *)
Definition flush_take (i : Z) (s : Fl) : res (bool * Fl) :=
  y ← rd2 (fl_dl s) i;
  p ← heap_at (fl_heap s) (mptr y);
  flags ← MP_FLAGS p;
  if kept flags then
    h ← clear_page_flag (fl_heap s) (mptr y) P_KEEP;
    dl ← wr2 (fl_dl s) i (MkID2 0 (mptr y));
    Ok (true, MkFl dl h (fl_file s) (fl_io s) (fl_iov s) (fl_wpos s) (fl_wsize s) (fl_next s) (fl_pos s) (fl_size s))
  else
    h ← clear_page_flag (fl_heap s) (mptr y) P_DIRTY;
    p ← heap_at h (mptr y);
    big ← IS_OVERFLOW p;
    pages ← (if big : bool then MP_PAGES p else Ok 1);
    Ok (false, MkFl (fl_dl s) h (fl_file s) (fl_io s) (fl_iov s) (fl_wpos s) (fl_wsize s) (fl_next s)
                 (u64 (mid y * psize)) (u64 (psize * pages))).

(** Writes the vector: the code. *)
Definition flush_iov (s : Fl) : res (Z * Fl) :=
  if Z.of_nat (length (fl_iov s)) =? 0 then Ok (0, s)
  else
    data ← iov_data (fl_heap s) (fl_iov s);
    '(rc, f, io) ← write_iov (fl_io s) (is_one (fl_iov s)) (negb (is_one (fl_iov s))) (fl_wpos s) data (fl_file s);
    Ok (rc, MkFl (fl_dl s) (fl_heap s) f io (if rc =? 0 then [] else fl_iov s) (fl_wpos s) (fl_wsize s) (fl_next s)
              (fl_pos s) (fl_size s)).

(** Whether the vector must be written before the page at [fl_pos]. *)
Definition flush_due (s : Fl) : bool :=
  (negb (fl_pos s =? fl_next s) || (Z.of_nat (length (fl_iov s)) =? MDB_COMMIT_PAGES) ||
   (MAX_WRITE <? fl_wsize s + fl_size s))%bool.

(** [dp] joins the vector. *)
Definition flush_add (a : Z) (s : Fl) : Fl :=
  MkFl (fl_dl s) (fl_heap s) (fl_file s) (fl_io s) (fl_iov s ++ [(a, fl_size s)]) (fl_wpos s) (fl_wsize s + fl_size s)
    (fl_pos s + fl_size s) (fl_pos s) (fl_size s).

Definition flush_start (s : Fl) : Fl :=
  MkFl (fl_dl s) (fl_heap s) (fl_file s) (fl_io s) (fl_iov s) (fl_pos s) 0 (fl_next s) (fl_pos s) (fl_size s).

(** The loop that writes; [dp] is the address of the last page that was looked at. *)
Fixpoint pages_loop (fuel : nat) (i pagecount dp : Z) (s : Fl) : res (Z * Fl) :=
  match fuel with
  | O => NoFuel
  | S fuel =>
      let i := i + 1 in
      '(skip, dp, s) ← (if i <=? pagecount
                        then y ← rd2 (fl_dl s) i; '(skip, s) ← flush_take i s; Ok (skip, mptr y, s)
                        else Ok (false, dp, s));
      if skip : bool then pages_loop fuel i pagecount dp s
      else if flush_due s then
        '(rc, s) ← flush_iov s;
        if negb (rc =? 0) then Ok (rc, s)
        else if pagecount <? i then Ok (0, s)
        else pages_loop fuel i pagecount dp (flush_add dp (flush_start s))
      else pages_loop fuel i pagecount dp (flush_add dp s)
  end.

(** [mdb_dpage_free]: a page of one goes to [me_dpages], more are freed. *)
Definition mdb_dpage_free (h : gmap Z page) (dpages : list Z) (a : Z) : res (gmap Z page * list Z) :=
  p ← heap_at h a; big ← IS_OVERFLOW p;
  single ← (if negb big then Ok true else n ← MP_PAGES p; Ok (n =? 1));
  Ok (if single : bool then (h, a :: dpages) else (delete a h, dpages)).

(** The second loop: [k] entries from [i + 1] on; those that were skipped move to [j + 1]. *)
Fixpoint flush_free (k : nat) (i j : Z) (dl : list (option ID2)) (h : gmap Z page) (dpages : list Z)
    : res (Z * list (option ID2) * gmap Z page * list Z) :=
  match k with
  | O => Ok (j, dl, h, dpages)
  | S k =>
      let i := i + 1 in
      y ← rd2 dl i;
      if mid y =? 0 then
        p ← heap_at h (mptr y);
        n ← mread p 0 8;
        dl ← wr2 dl (j + 1) (MkID2 (le n) (mptr y));
        flush_free k i (j + 1) dl h dpages
      else
        '(h, dpages) ← mdb_dpage_free h dpages (mptr y);
        flush_free k i j dl h dpages
  end.

(** On a writable map the flags are cleared and nothing is written. *)
Fixpoint flush_flags (k : nat) (i j : Z) (dl : list (option ID2)) (h : gmap Z page)
    : res (Z * list (option ID2) * gmap Z page) :=
  match k with
  | O => Ok (j, dl, h)
  | S k =>
      let i := i + 1 in
      y ← rd2 dl i;
      p ← heap_at h (mptr y);
      flags ← MP_FLAGS p;
      if kept flags then
        h ← clear_page_flag h (mptr y) P_KEEP;
        dl ← wr2 dl (j + 1) y;
        flush_flags k i (j + 1) dl h
      else
        h ← clear_page_flag h (mptr y) P_DIRTY;
        flush_flags k i j dl h
  end.

(** What [mdb_page_flush] leaves: the code, the list, the pages, [mt_dirty_room],
    [me_dpages], the file, and the answers left. *)
Record Flushed : Type := MkFlushed {
  fd_rc : Z; fd_dl : list (option ID2); fd_heap : gmap Z page; fd_room : Z; fd_dpages : list Z;
  fd_file : bytes; fd_io : list Io }.

(** Two rounds more than pages are enough. *)
Definition mdb_page_flush (flags keep : Z) (io : list Io) (dl : list (option ID2)) (h : gmap Z page) (room : Z)
    (dpages : list Z) (f : bytes) : res Flushed :=
  n ← rd2 dl 0;
  let pagecount := mid n in
  let k := Z.to_nat (pagecount - keep) in
  if has_flag flags MDB_WRITEMAP then
    '(j, dl, h) ← flush_flags k keep keep dl h;
    dl ← wr2 dl 0 (MkID2 j (mptr n));
    Ok (MkFlushed 0 dl h (room + (pagecount - j)) dpages f io)
  else
    '(rc, s) ← pages_loop (S (S k)) keep pagecount 0 (MkFl dl h f io [] 0 0 1 0 0);
    if negb (rc =? 0) then Ok (MkFlushed rc (fl_dl s) (fl_heap s) room dpages (fl_file s) (fl_io s))
    else
      '(j, dl, h, dpages) ← flush_free k keep keep (fl_dl s) (fl_heap s) dpages;
      dl ← wr2 dl 0 (MkID2 j (mptr n));
      Ok (MkFlushed 0 dl h (room + (pagecount - j)) dpages (fl_file s) (fl_io s)).
End flush.

(** [fdatasync] or [msync] answers [sync]: 0 or the error.  Then the file is on the disk,
    unless [msync] was only to start it. *)
Definition mdb_env_sync (force : bool) (sync : Z) (e : MDB_env) : Z * MDB_env :=
  let flags := me_flags e in
  if has_flag flags MDB_RDONLY then (EACCES, e)
  else if (force || negb (F_ISSET flags MDB_NOSYNC))%bool then
    let async := (has_flag flags MDB_WRITEMAP && has_flag flags MDB_MAPASYNC && negb force)%bool in
    (sync, if ((sync =? 0) && negb async)%bool then set_disk e (me_file e) else e)
  else (0, e).

(** The end of [mdb_txn_commit]: the pages, the disk, and the meta page.  The code, the
    environment, and what the flush left. *)
Definition commit_tail (io : list Io) (sync msync : Z) (answers : list Pwrite) (dl : list (option ID2))
    (h : gmap Z page) (room : Z) (dpages : list Z) (mt_txnid : Z) (txn : MDB_txn) (e : MDB_env)
    : res (Z * MDB_env * Flushed) :=
  r ← mdb_page_flush (me_psize e) (me_flags e) 0 io dl h room dpages (me_file e);
  let e := set_file e (fd_file r) in
  if negb (fd_rc r =? 0) then Ok (fd_rc r, e, r)
  else
    let '(rc, e) := mdb_env_sync false sync e in
    if negb (rc =? 0) then Ok (rc, e, r)
    else '(rc, e) ← mdb_env_write_meta msync answers mt_txnid txn e; Ok (rc, e, r).
