(* ===== verification/FlushProps.v ===== *)
(** * The pages of a commit reach the file, and nothing else does

    Writes to a file by the bytes they reach; what one call, and then the whole of
    [mdb_page_flush], writes whatever the system answers, and that it ends with all pages
    written when no call fails. *)

From S2P Require Import Prelude.
From S2P Require Import Lmdb Midl Page PageProps Tree Dump Meta Flush.

(** ** Bytes of a file *)

(** Bytes at an offset: they are in the file; an offset is among them. *)
Abbreviation chunk := (nat * bytes)%type.
Definition present (f : bytes) (c : chunk) : Prop := ∀ i x, c.2 !! i = Some x → f !! (c.1 + i)%nat = Some x.
Definition inside (o : nat) (c : chunk) : Prop := (c.1 ≤ o < c.1 + length c.2)%nat.
Definition disjoint_chunks (c d : chunk) : Prop := ∀ o, inside o c → ~ inside o d.

(** From [f] to [f'] only the bytes of the chunks changed. *)
Definition confined (cs : list chunk) (f f' : bytes) : Prop :=
  (length f ≤ length f')%nat ∧ ∀ o, (o < length f)%nat → Forall (λ c, ~ inside o c) cs → f' !! o = f !! o.

Lemma file_write_lookup f off bs i :
  0 ≤ off → file_write f off bs !! i =
    if decide (i < Z.to_nat off)%nat then (if decide (i < length f)%nat then f !! i else Some 0)
    else if decide (i < Z.to_nat off + length bs)%nat then bs !! (i - Z.to_nat off)%nat
    else f !! i.
Proof.
  intros H0. unfold file_write. set (o := Z.to_nat off).
  assert (L : length (take o f ++ replicate (o - length f) 0) = o) by (rewrite length_app, length_take, length_replicate; lia).
  rewrite (app_assoc (take o f)). case_decide as C.
  - rewrite lookup_app_l by lia. case_decide as D.
    + rewrite lookup_app_l by (rewrite length_take; lia). by rewrite lookup_take_lt by lia.
    + rewrite lookup_app_r by (rewrite length_take; lia). apply lookup_replicate. rewrite length_take. lia.
  - rewrite lookup_app_r by lia. rewrite L. case_decide as D.
    + by rewrite lookup_app_l by lia.
    + rewrite lookup_app_r by lia. rewrite lookup_drop. f_equal. lia.
Qed.

Lemma length_file_write_ge f off bs : (length f ≤ length (file_write f off bs))%nat.
Proof. unfold file_write. rewrite !length_app, length_take, length_replicate, length_drop. lia. Qed.

Lemma confined_refl cs f : confined cs f f.
Proof. done. Qed.

Lemma confined_trans cs f1 f2 f3 : confined cs f1 f2 → confined cs f2 f3 → confined cs f1 f3.
Proof. intros [L1 C1] [L2 C2]. split; [lia|]. intros o Ho Hc. rewrite C2; [by apply C1|lia|done]. Qed.

Lemma confined_weaken cs ds f f' : (∀ o, Forall (λ c, ~ inside o c) ds → Forall (λ c, ~ inside o c) cs) → confined cs f f' → confined ds f f'.
Proof. intros H [L C]. split; [done|]. intros o Ho Hd. by apply C, H. Qed.

Lemma confined_write f off bs : 0 ≤ off → confined [(Z.to_nat off, bs)] f (file_write f off bs).
Proof.
  intros H0. split; [apply length_file_write_ge|]. intros o Ho [Hc _]%Forall_cons_1.
  unfold inside in Hc; cbn in Hc. rewrite file_write_lookup by done. repeat case_decide; try done; exfalso; lia.
Qed.

Lemma present_write f off bs : 0 ≤ off → present (file_write f off bs) (Z.to_nat off, bs).
Proof.
  intros H0 i x Hi. cbn in *. pose proof (lookup_lt_Some _ _ _ Hi). rewrite file_write_lookup by done.
  rewrite decide_False, decide_True by lia. rewrite <- Hi. f_equal. lia.
Qed.

(** What is outside the writes stays. *)
Lemma present_confined cs c f f' :
  present f c → confined cs f f' → Forall (disjoint_chunks c) cs → present f' c.
Proof.
  intros P [L C] D i x Hi. specialize (P i x Hi). rewrite C; [done|by eapply lookup_lt_Some|].
  eapply Forall_impl; [exact D|]. intros d Hd. apply Hd. unfold inside. apply lookup_lt_Some in Hi. lia.
Qed.

Lemma present_app f o b1 b2 :
  present f (o, b1 ++ b2) ↔ present f (o, b1) ∧ present f ((o + length b1)%nat, b2).
Proof.
  unfold present; cbn. split.
  - intros P. split; intros i x Hi.
    + apply P. by apply lookup_app_l_Some.
    + replace (o + length b1 + i)%nat with (o + (length b1 + i))%nat by lia. apply P.
      rewrite lookup_app_r by lia. rewrite <- Hi. f_equal. lia.
  - intros [P1 P2] i x [Hi|[Hl Hi]]%lookup_app_Some; [by apply P1|].
    specialize (P2 _ _ Hi). rewrite <- P2. f_equal. lia.
Qed.

Lemma present_region f o b : present f (o, b) → take (length b) (drop o f) = b.
Proof.
  intros P. apply list_eq. intros i. destruct (decide (i < length b)%nat) as [L|L].
  - rewrite lookup_take_lt by done. rewrite lookup_drop. destruct (lookup_lt_is_Some_2 b i L) as [x Hx].
    rewrite Hx. by apply P.
  - rewrite lookup_take_ge by lia. symmetry. apply lookup_ge_None. lia.
Qed.

(** ** One call *)

Definition io_ok (a : Io) : Prop := match a with IoErr err _ => err ≠ 0 | _ => True end.

Lemma write_iov_safe io one : ∀ seek wpos data f rc f' io',
  Forall io_ok io → 0 ≤ wpos → write_iov io one seek wpos data f = Ok (rc, f', io') →
  confined [(Z.to_nat wpos, data)] f f' ∧ (rc = 0 → present f' (Z.to_nat wpos, data)) ∧ Forall io_ok io'.
Proof.
  induction io as [|a io IH]; intros seek wpos data f rc f' io' Hio H0 H; [done|].
  apply Forall_cons in Hio as [Ha Hio]. cbn [write_iov] in H.
  assert (T : ∀ n, confined [(Z.to_nat wpos, data)] f (file_write f wpos (take n data))).
  { intros n. apply (confined_weaken [(Z.to_nat wpos, take n data)]); [|by apply confined_write].
    intros o [Ho _]%Forall_cons. constructor; [|done]. unfold inside in *; cbn in *. rewrite length_take. lia. }
  destruct seek.
  - destruct a as [|n|err n]; try by eapply IH. cbn in Ha. case_match; [by eapply IH|].
    simplify_eq. split; [apply confined_refl|]. split; [lia|done].
  - destruct a as [|n|err n]; cbn in Ha.
    + simplify_eq. split; [by apply confined_write|]. split; [intros _; by apply present_write|done].
    + simplify_eq. split; [apply T|]. split; [done|done].
    + case_match; [|simplify_eq; split; [apply T|split; [lia|done]]].
      destruct (IH _ _ _ _ _ _ _ Hio H0 H) as (C & P & R). split; [|done]. eapply confined_trans; [apply T|done].
Qed.

(** How many calls can still be answered in full, less those that are interrupted. *)
Fixpoint budget (io : list Io) : Z :=
  match io with [] => 0 | IoAll :: io => 1 + budget io | _ :: io => budget io - 1 end.

Definition unbroken (a : Io) : Prop := match a with IoAll => True | IoShort _ => False | IoErr err _ => err = EINTR end.

Lemma write_iov_ends io one : ∀ (seek : bool) wpos data f c,
  Forall unbroken io → 0 ≤ c → (if seek then 2 else 1) + c ≤ budget io → (one = true → seek = false) →
  ∃ f' io', write_iov io one seek wpos data f = Ok (0, f', io') ∧ c ≤ budget io' ∧ Forall unbroken io'.
Proof.
  induction io as [|a io IH]; intros seek wpos data f c Hio Hc Hb Ho; [cbn in Hb; destruct seek; lia|].
  apply Forall_cons in Hio as [Ha Hio]. cbn [write_iov]. destruct seek.
  - destruct a as [|n|err n]; cbn in Ha, Hb; [|done|subst err].
    + apply (IH false wpos data f c); try done. lia.
    + change (EINTR =? EINTR) with true. cbn. apply (IH true wpos data f c); try done. lia.
  - destruct a as [|n|err n]; cbn in Ha, Hb; [|done|subst err].
    + eexists _, io. split; [done|]. split; [lia|done].
    + change (EINTR =? EINTR) with true. cbn. apply (IH (negb one) wpos data _ c); try done; [|by destruct one].
      destruct one; cbn; lia.
Qed.

(** ** Dirty pages *)

(** An entry of the dirty list and its page: what is before the flags, the flags, and what
    is behind them. *)
Record Dirty : Type := MkDirty { d_pg : Z; d_a : Z; d_pre : bytes; d_fl : Z; d_rest : bytes }.

Definition page_with (d : Dirty) (fl : Z) : page := d_pre d ++ le16 fl ++ d_rest d.
Definition d_page (d : Dirty) : page := page_with d (d_fl d).
Definition cleaned (d : Dirty) : page := page_with d (clear_flag (d_fl d) P_DIRTY).
Definition unkept (d : Dirty) : page := page_with d (clear_flag (d_fl d) P_KEEP).
Definition d_pages (d : Dirty) : Z := if F_ISSET (d_fl d) P_OVERFLOW then le (take 4 (d_rest d)) else 1.
Definition stays (d : Dirty) : bool := kept (d_fl d).
Definition d_entry (d : Dirty) : option ID2 := Some (MkID2 (d_pg d) (d_a d)).

(** The entry, and the page, after the loop that writes. *)
Definition d_mark (d : Dirty) : option ID2 := Some (MkID2 (if stays d then 0 else d_pg d) (d_a d)).
Definition d_after (d : Dirty) : page := if stays d then unkept d else cleaned d.

Lemma clear_flag_range f m : u16_ok f → u16_ok (clear_flag f m).
Proof.
  intros H. unfold u16_ok, clear_flag in *. assert (E : f = Z.land f (Z.ones 16)) by (rewrite Z.land_ones, Z.mod_small by lia; done).
  rewrite E, <- Z.land_assoc, (Z.land_comm (Z.ones 16)), Z.land_assoc, Z.land_ones by lia.
  apply Z.mod_pos_bound. done.
Qed.

Lemma clear_dirty_overflow f : F_ISSET (clear_flag f P_DIRTY) P_OVERFLOW = F_ISSET f P_OVERFLOW.
Proof. unfold F_ISSET, clear_flag. by rewrite <- Z.land_assoc. Qed.

Lemma heap_at_Ok h a p : h !! a = Some p → heap_at h a = Ok p.
Proof. unfold heap_at. by intros ->. Qed.

Section dirty.
Context (psize : Z) (Hps : 1 < psize).

Record dirty_ok (d : Dirty) : Prop := {
  do_pre : length (d_pre d) = 10%nat;
  do_fl : u16_ok (d_fl d);
  do_rest : (4 ≤ length (d_rest d))%nat;
  do_size : Z.of_nat (length (d_page d)) = psize * d_pages d;
  do_pages : 1 ≤ d_pages d;
  do_pg : 0 ≤ d_pg d ∧ (d_pg d + d_pages d) * psize < 2 ^ 64;
  do_pgno : le (take 8 (d_pre d)) = d_pg d }.

Definition d_chunk (d : Dirty) : chunk := (Z.to_nat (d_pg d * psize), cleaned d).

Lemma page_with_flags d fl : dirty_ok d → u16_ok fl → MP_FLAGS (page_with d fl) = Ok fl.
Proof. intros D H. unfold MP_FLAGS. eapply (rd16_at _ (d_pre d)); [done|by rewrite (do_pre d D)|done]. Qed.

Lemma clear_page_flag_at h d fl m :
  dirty_ok d → u16_ok fl → h !! d_a d = Some (page_with d fl) →
  clear_page_flag h (d_a d) m = Ok (<[d_a d := page_with d (clear_flag fl m)]> h).
Proof.
  intros D H Hh. unfold clear_page_flag, heap_at. rewrite Hh. cbn [mbind res_bind].
  rewrite page_with_flags by done. cbn [mbind res_bind].
  rewrite (wr16_at _ (d_pre d) (le16 fl) (d_rest d)); [done|done|by rewrite (do_pre d D)|done].
Qed.

Lemma length_page_with d fl : length (page_with d fl) = length (d_page d).
Proof. unfold d_page, page_with. by rewrite !length_app. Qed.

Lemma MP_PAGES_at d fl : dirty_ok d → MP_PAGES (page_with d fl) = Ok (le (take 4 (d_rest d))).
Proof.
  intros D. unfold MP_PAGES. rewrite (mread_at _ (d_pre d ++ le16 fl) (take 4 (d_rest d)) (drop 4 (d_rest d))); [done|..].
  - unfold page_with. by rewrite take_drop, <- app_assoc.
  - rewrite length_app, (do_pre d D). done.
  - rewrite length_take. pose proof (do_rest d D). lia.
Qed.

Lemma pages_of_clean d fl : dirty_ok d → u16_ok fl → F_ISSET fl P_OVERFLOW = F_ISSET (d_fl d) P_OVERFLOW →
  (big ← IS_OVERFLOW (page_with d fl); if big : bool then MP_PAGES (page_with d fl) else Ok 1) = Ok (d_pages d).
Proof.
  intros D H E. unfold IS_OVERFLOW. rewrite page_with_flags by done. cbn [mbind res_bind].
  rewrite MP_PAGES_at by done. unfold d_pages. rewrite E. by case_match.
Qed.

Definition skip_state (i : Z) (d : Dirty) (s : Fl) : Fl :=
  MkFl (<[Z.to_nat i := d_mark d]> (fl_dl s)) (<[d_a d := d_after d]> (fl_heap s)) (fl_file s) (fl_io s) (fl_iov s)
    (fl_wpos s) (fl_wsize s) (fl_next s) (fl_pos s) (fl_size s).

Definition take_state (d : Dirty) (s : Fl) : Fl :=
  MkFl (fl_dl s) (<[d_a d := d_after d]> (fl_heap s)) (fl_file s) (fl_io s) (fl_iov s)
    (fl_wpos s) (fl_wsize s) (fl_next s) (d_pg d * psize) (psize * d_pages d).

Lemma flush_take_at i d s :
  dirty_ok d → rd2 (fl_dl s) i = Ok (MkID2 (d_pg d) (d_a d)) → fl_heap s !! d_a d = Some (d_page d) →
  flush_take psize i s = Ok (stays d, if stays d then skip_state i d s else take_state d s).
Proof.
  intros D Hi Hh. unfold flush_take. rewrite Hi. cbn [mbind res_bind mptr mid].
  rewrite (heap_at_Ok _ _ _ Hh). cbn [mbind res_bind]. unfold d_page at 1.
  rewrite page_with_flags by (done || apply (do_fl d D)). cbn [mbind res_bind]. fold (stays d).
  pose proof (do_fl d D) as Hf. destruct (stays d) eqn:S.
  - rewrite (clear_page_flag_at _ d (d_fl d)) by done. cbn [mbind res_bind].
    unfold rd2, wr2 in *. destruct (Z.leb_spec 0 i) as [L|L]; [|done].
    destruct (fl_dl s !! Z.to_nat i) as [y|] eqn:Hy; [|done]. apply lookup_lt_Some in Hy.
    replace (i <? _) with true by lia. cbn [andb mbind res_bind]. unfold skip_state, d_mark, d_after. by rewrite S.
  - rewrite (clear_page_flag_at _ d (d_fl d)) by done. cbn [mbind res_bind].
    rewrite (heap_at_Ok _ _ _ (lookup_insert_eq _ _ _)). cbn [mbind res_bind].
    pose proof (pages_of_clean d (clear_flag (d_fl d) P_DIRTY) D (clear_flag_range _ _ Hf) (clear_dirty_overflow _)) as Hp.
    destruct (IS_OVERFLOW _) as [big| | |]; cbn [mbind res_bind] in *; try done. rewrite Hp. cbn [mbind res_bind].
    destruct (do_pg d D) as [H0 H1]. pose proof (do_pages d D).
    unfold take_state, d_after. rewrite S. unfold u64. rewrite !Z.mod_small by nia. done.
Qed.

(** ** The vector *)

(** The pages of the vector follow one another from [p] on. *)
Fixpoint chain (p : Z) (its : list Dirty) : Prop :=
  match its with [] => True | d :: its => d_pg d * psize = p ∧ chain (p + psize * d_pages d) its end.

Definition sizes (its : list Dirty) : Z := foldr (λ d n, psize * d_pages d + n) 0 its.

Lemma chain_snoc its d : ∀ p, chain p (its ++ [d]) ↔ chain p its ∧ d_pg d * psize = p + sizes its.
Proof.
  induction its as [|x its IH]; intros p; cbn; [rewrite Z.add_0_r; tauto|]. rewrite IH, Z.add_assoc. tauto.
Qed.

Lemma sizes_snoc its d : sizes (its ++ [d]) = sizes its + psize * d_pages d.
Proof. induction its as [|x its IH]; cbn; [lia|]. fold (sizes (its ++ [d])) (sizes its). lia. Qed.

Record pend (its : list Dirty) (s : Fl) : Prop := {
  pe_iov : fl_iov s = (λ d, (d_a d, psize * d_pages d)) <$> its;
  pe_heap : ∀ d, d ∈ its → fl_heap s !! d_a d = Some (cleaned d);
  pe_ok : Forall dirty_ok its;
  pe_chain : its ≠ [] → chain (fl_wpos s) its;
  pe_size : its ≠ [] → fl_wsize s = sizes its;
  pe_next : match its with [] => fl_next s = 1 | _ => fl_next s = fl_wpos s + sizes its end }.

Lemma length_cleaned d : dirty_ok d → Z.of_nat (length (cleaned d)) = psize * d_pages d.
Proof. intros D. unfold cleaned. rewrite length_page_with. apply (do_size d D). Qed.

Lemma iov_data_at h its :
  (∀ d, d ∈ its → h !! d_a d = Some (cleaned d)) → Forall dirty_ok its →
  iov_data h ((λ d, (d_a d, psize * d_pages d)) <$> its) = Ok (concat (cleaned <$> its)).
Proof.
  induction its as [|d its IH]; intros Hh Ho; [done|]. apply Forall_cons in Ho as [D Ho].
  cbn [fmap list_fmap iov_data]. rewrite (heap_at_Ok _ _ _ (Hh d ltac:(set_solver))). cbn [mbind res_bind].
  rewrite (mread_at (cleaned d) [] (cleaned d) []) by (rewrite ?app_nil_r; done || by rewrite length_cleaned).
  cbn [mbind res_bind]. rewrite IH by (done || set_solver). done.
Qed.

Lemma chain_offset p d its : chain p (d :: its) → dirty_ok d → 0 ≤ p →
  (Z.to_nat p + length (cleaned d))%nat = Z.to_nat (p + psize * d_pages d).
Proof. intros _ D H. rewrite <- (length_cleaned d D). lia. Qed.

Lemma chain_present f its : ∀ p, chain p its → 0 ≤ p → Forall dirty_ok its →
  present f (Z.to_nat p, concat (cleaned <$> its)) → Forall (λ d, present f (d_chunk d)) its.
Proof.
  induction its as [|d its IH]; intros p C H0 Ho P; [done|]. pose proof C as [E C']. apply Forall_cons in Ho as [D Ho].
  cbn [fmap list_fmap concat] in P. apply present_app in P as [P1 P2].
  constructor; [unfold d_chunk; by rewrite E|].
  rewrite (chain_offset p d its C D H0) in P2. apply (IH _ C'); try done. pose proof (do_pages d D). nia.
Qed.

Lemma chain_inside o its : ∀ p, chain p its → 0 ≤ p → Forall dirty_ok its →
  Forall (λ c, ~ inside o c) (d_chunk <$> its) → ~ inside o (Z.to_nat p, concat (cleaned <$> its)).
Proof.
  induction its as [|d its IH]; intros p C H0 Ho N; [unfold inside; cbn; lia|]. pose proof C as [E C'].
  apply Forall_cons in Ho as [D Ho]. apply Forall_cons in N as [N1 N].
  pose proof (do_pages d D). specialize (IH _ C' ltac:(nia) Ho N).
  rewrite <- (chain_offset p d its C D H0) in IH. unfold inside, d_chunk in *. rewrite E in N1. cbn in *.
  rewrite length_app. lia.
Qed.

(** Where the vector goes. *)
Lemma chain_start its s : pend its s → its ≠ [] → 0 ≤ fl_wpos s.
Proof.
  intros P N. pose proof (pe_chain _ _ P N) as C. pose proof (pe_ok _ _ P) as O.
  destruct its as [|d its]; [done|]. destruct C as [<- _]. apply Forall_cons in O as [D _].
  destruct (do_pg d D). lia.
Qed.

(** The state when the vector has been written, or has failed to. *)
Definition iov_done (s : Fl) (rc : Z) (f : bytes) (io : list Io) : Fl :=
  MkFl (fl_dl s) (fl_heap s) f io (if rc =? 0 then [] else fl_iov s) (fl_wpos s) (fl_wsize s) (fl_next s) (fl_pos s) (fl_size s).

Lemma flush_iov_eq its s : pend its s → its ≠ [] →
  flush_iov s = '(rc, f, io) ← write_iov (fl_io s) (is_one (fl_iov s)) (negb (is_one (fl_iov s))) (fl_wpos s)
                                 (concat (cleaned <$> its)) (fl_file s); Ok (rc, iov_done s rc f io).
Proof.
  intros P N. unfold flush_iov. pose proof (pe_iov _ _ P) as E. rewrite E, length_fmap.
  destruct its as [|d its]; [done|]. change (Z.of_nat (length (d :: its)) =? 0) with false.
  rewrite (iov_data_at _ (d :: its)) by (apply P). cbn [mbind res_bind]. unfold iov_done. rewrite E. done.
Qed.

Lemma flush_iov_safe its s rc s' : pend its s → Forall io_ok (fl_io s) → flush_iov s = Ok (rc, s') →
  ∃ f io, (its = [] ∧ rc = 0 ∧ f = fl_file s ∧ io = fl_io s ∧ s' = s ∨ its ≠ [] ∧ s' = iov_done s rc f io) ∧ Forall io_ok io ∧
    confined (d_chunk <$> its) (fl_file s) f ∧ (rc = 0 → Forall (present f) (d_chunk <$> its)).
Proof.
  intros P Hio H. destruct (decide (its = [])) as [->|N].
  { unfold flush_iov in H. rewrite (pe_iov _ _ P) in H. change (Z.of_nat (length _) =? 0) with true in H. cbn in H. simplify_eq.
    exists (fl_file s'), (fl_io s'). split; [left; by split_and!|]. split; [done|]. split; [apply confined_refl|done]. }
  rewrite (flush_iov_eq its) in H by done. pose proof (chain_start _ _ P N) as H0.
  destruct (write_iov _ _ _ _ _ _) as [[[rc' f] io]| | |] eqn:E; try done. cbn in H. simplify_eq.
  destruct (write_iov_safe _ _ _ _ _ _ _ _ _ Hio H0 E) as (C & Q & R). exists f, io.
  split; [by right|]. split; [done|]. split.
  - eapply confined_weaken; [|exact C]. intros o Ho. constructor; [|done].
    by apply chain_inside; [apply (pe_chain _ _ P N)|done|apply (pe_ok _ _ P)|].
  - intros ->. apply Forall_fmap. eapply chain_present; [apply (pe_chain _ _ P N)|done|apply (pe_ok _ _ P)|by apply Q].
Qed.

(** ** The loop *)

(** Before the next page: the vector holds [its]; [todo] are the entries that are left,
    between [A] and [B] in the list. *)
Record linv (A B : list (option ID2)) (its todo : list Dirty) (s : Fl) : Prop := {
  li_dl : fl_dl s = A ++ (d_entry <$> todo) ++ B;
  li_heap : ∀ d, d ∈ todo → fl_heap s !! d_a d = Some (d_page d);
  li_nodup : NoDup (d_a <$> its ++ todo);
  li_ok : Forall dirty_ok todo;
  li_pend : pend its s;
  li_pos : fl_pos s ≠ fl_next s }.

Lemma linv_entry A B its d todo s i : linv A B its (d :: todo) s → Z.of_nat (length A) = i →
  rd2 (fl_dl s) i = Ok (MkID2 (d_pg d) (d_a d)).
Proof.
  intros L <-. unfold rd2. rewrite (proj2 (Z.leb_le _ _)), Nat2Z.id, (li_dl _ _ _ _ _ L) by lia.
  cbn [fmap list_fmap app]. by rewrite lookup_app_r, Nat.sub_diag by lia.
Qed.

Lemma linv_take A B its d todo s i : linv A B its (d :: todo) s → Z.of_nat (length A) = i →
  flush_take psize i s = Ok (stays d, if stays d then skip_state i d s else take_state d s).
Proof.
  intros L Hi. apply flush_take_at; [by apply (Forall_cons_1 _ _ _ (li_ok _ _ _ _ _ L))|by eapply linv_entry|].
  apply (li_heap _ _ _ _ _ L). set_solver.
Qed.

Lemma linv_fresh A B its d todo s : linv A B its (d :: todo) s →
  (∀ x, x ∈ its ++ todo → d_a x ≠ d_a d) ∧ NoDup (d_a <$> its ++ todo).
Proof.
  intros L. pose proof (li_nodup _ _ _ _ _ L) as N. rewrite fmap_app in N. cbn in N.
  rewrite <- Permutation_middle in N. apply NoDup_cons in N as [N1 N2]. rewrite <- fmap_app in N1, N2.
  split; [|done]. intros x Hx E. apply N1. rewrite <- E. by apply list_elem_of_fmap_2.
Qed.

Lemma linv_dl A d todo B : A ++ (d_mark d :: (d_entry <$> todo)) ++ B = (A ++ [d_mark d]) ++ (d_entry <$> todo) ++ B.
Proof. by rewrite <- app_assoc. Qed.

Lemma linv_skip A B its d todo s i : linv A B its (d :: todo) s → Z.of_nat (length A) = i → stays d = true →
  linv (A ++ [d_mark d]) B its todo (skip_state i d s).
Proof.
  intros L Hi S. destruct (linv_fresh _ _ _ _ _ _ L) as [F N]. pose proof (li_pend _ _ _ _ _ L) as P.
  split; cbn; [|intros x Hx; rewrite lookup_insert_ne by (apply not_eq_sym, F; set_solver); apply (li_heap _ _ _ _ _ L); set_solver
    |done|apply (Forall_cons_1 _ _ _ (li_ok _ _ _ _ _ L))| |apply L].
  - rewrite (li_dl _ _ _ _ _ L). cbn [fmap list_fmap]. rewrite <- linv_dl.
    rewrite insert_app_r_alt by lia. replace (Z.to_nat i - length A)%nat with 0%nat by lia. done.
  - split; cbn; try apply P. intros x Hx. rewrite lookup_insert_ne by (apply not_eq_sym, F; set_solver). by apply (pe_heap _ _ P).
Qed.

Lemma pend_take A B its d todo s : linv A B its (d :: todo) s → pend its (take_state d s).
Proof.
  intros L. destruct (linv_fresh _ _ _ _ _ _ L) as [F N]. pose proof (li_pend _ _ _ _ _ L) as P.
  split; cbn; try apply P. intros x Hx. rewrite lookup_insert_ne by (apply not_eq_sym, F; set_solver). by apply (pe_heap _ _ P).
Qed.

(** A page joins the vector of [s1], which holds [its'] or has been emptied. *)
Lemma linv_add A B its its' d todo s s1 :
  linv A B its (d :: todo) s → stays d = false → (∀ x, x ∈ its' → x ∈ its) → NoDup (d_a <$> its') →
  fl_dl s1 = fl_dl s → fl_heap s1 = <[d_a d := d_after d]> (fl_heap s) → fl_pos s1 = d_pg d * psize → fl_size s1 = psize * d_pages d →
  fl_iov s1 = (λ d, (d_a d, psize * d_pages d)) <$> its' →
  chain (fl_wpos s1) (its' ++ [d]) → fl_wsize s1 = sizes its' → fl_pos s1 = fl_wpos s1 + sizes its' →
  linv (A ++ [d_mark d]) B (its' ++ [d]) todo (flush_add (d_a d) s1).
Proof.
  intros L S Sub Nd Edl Eh Epos Esz Eiov C Ews Ep. destruct (linv_fresh _ _ _ _ _ _ L) as [F N].
  pose proof (li_pend _ _ _ _ _ L) as P. pose proof (Forall_cons_1 _ _ _ (li_ok _ _ _ _ _ L)) as [D Dt].
  assert (M : d_mark d = d_entry d) by (unfold d_mark, d_entry; by rewrite S).
  assert (Hd : d_after d = cleaned d) by (unfold d_after; by rewrite S).
  split; cbn.
  - rewrite Edl, (li_dl _ _ _ _ _ L), <- linv_dl, M. done.
  - intros x Hx. rewrite Eh, lookup_insert_ne by (apply not_eq_sym, F; set_solver). apply (li_heap _ _ _ _ _ L). set_solver.
  - rewrite !fmap_app in *. apply NoDup_app in N as (N1 & N2 & N3). cbn.
    apply NoDup_app; split; [|split; [|done]].
    + apply NoDup_app; split; [done|]. split; [|apply NoDup_singleton].
      intros a Ha ->%list_elem_of_singleton. apply list_elem_of_fmap in Ha as (x & E & Hx). apply (F x); [set_solver|done].
    + intros a [Ha|Ha]%elem_of_app Hb.
      * apply (N2 a); [|done]. apply list_elem_of_fmap in Ha as (x & -> & Hx). apply list_elem_of_fmap_2. by apply Sub.
      * apply list_elem_of_singleton in Ha as ->. apply list_elem_of_fmap in Hb as (x & E & Hx). apply (F x); [set_solver|done].
  - done.
  - split; cbn.
    + rewrite Eiov, Esz, fmap_app. done.
    + intros x [Hx|Hx]%elem_of_app; rewrite Eh.
      * rewrite lookup_insert_ne by (apply not_eq_sym, F; set_solver). by apply (pe_heap _ _ P), Sub.
      * apply list_elem_of_singleton in Hx as ->. by rewrite lookup_insert_eq, Hd.
    + apply Forall_app; split; [|by constructor]. apply Forall_forall. intros x Hx.
      apply (proj1 (Forall_forall _ _) (pe_ok _ _ P)). by apply Sub.
    + done.
    + intros _. rewrite sizes_snoc, Ews, Esz. done.
    + rewrite sizes_snoc. destruct (its' ++ [d]) eqn:E; [by destruct its'|]. rewrite Esz, Ep. lia.
  - rewrite Epos, Esz. pose proof (do_pages d D). nia.
Qed.

Lemma linv_more A B its d todo s :
  linv A B its (d :: todo) s → stays d = false → flush_due (take_state d s) = false →
  linv (A ++ [d_mark d]) B (its ++ [d]) todo (flush_add (d_a d) (take_state d s)).
Proof.
  intros L S Hd. unfold flush_due in Hd. apply orb_false_elim in Hd as [[Hd _]%orb_false_elim _].
  apply negb_false_iff, Z.eqb_eq in Hd. cbn in Hd. pose proof (li_pend _ _ _ _ _ L) as P.
  pose proof (pe_next _ _ P) as Hn.
  assert (N : its ≠ []).
  { intros ->. rewrite Hn in Hd. destruct (do_pg d (proj1 (Forall_cons_1 _ _ _ (li_ok _ _ _ _ _ L)))).
    assert (d_pg d = 0 ∨ 1 ≤ d_pg d) as [E|?] by lia; [rewrite E in Hd; lia|nia]. }
  assert (E : fl_next s = fl_wpos s + sizes its) by (by destruct its).
  apply (linv_add A B its its d todo s); try done; cbn.
  - destruct (linv_fresh _ _ _ _ _ _ L) as [_ Nd]. rewrite fmap_app in Nd. by apply NoDup_app in Nd as [? _].
  - apply (pe_iov _ _ P).
  - apply chain_snoc. split; [by apply (pe_chain _ _ P)|]. by rewrite Hd.
  - by apply (pe_size _ _ P).
  - by rewrite Hd.
Qed.

Lemma linv_due A B its d todo s s2 rc f io :
  linv A B its (d :: todo) s → stays d = false →
  (its = [] ∧ s2 = take_state d s ∨ rc = 0 ∧ s2 = iov_done (take_state d s) rc f io) →
  linv (A ++ [d_mark d]) B [d] todo (flush_add (d_a d) (flush_start s2)).
Proof.
  intros L S H. pose proof (li_pend _ _ _ _ _ L) as P.
  assert (E : fl_dl s2 = fl_dl s ∧ fl_heap s2 = <[d_a d := d_after d]> (fl_heap s) ∧ fl_pos s2 = d_pg d * psize ∧
              fl_size s2 = psize * d_pages d ∧ fl_iov s2 = []).
  { destruct H as [[-> ->]|[-> ->]]; (split_and!; try done). cbn. by rewrite (pe_iov _ _ P). }
  destruct E as (E1 & E2 & E3 & E4 & E5).
  apply (linv_add A B its [] d todo s); try done; cbn.
  - set_solver.
  - constructor.
  - by rewrite Z.add_0_r.
Qed.

(** The pages that are written. *)
Definition writes (todo : list Dirty) : list Dirty := filter (λ d, stays d = false) todo.
Definition apart (ds : list Dirty) : Prop :=
  ∀ d d', d ∈ ds → d' ∈ ds → d_a d ≠ d_a d' → disjoint_chunks (d_chunk d) (d_chunk d').

Definition post (A B : list (option ID2)) (todo : list Dirty) (s s' : Fl) : Prop :=
  fl_dl s' = A ++ (d_mark <$> todo) ++ B ∧ (∀ d, d ∈ todo → fl_heap s' !! d_a d = Some (d_after d)) ∧
  (∀ a, a ∉ d_a <$> todo → fl_heap s' !! a = fl_heap s !! a).

Lemma post_cons A B d todo s s1 s' :
  (∀ x, x ∈ todo → d_a x ≠ d_a d) → fl_heap s1 = <[d_a d := d_after d]> (fl_heap s) →
  post (A ++ [d_mark d]) B todo s1 s' → post A B (d :: todo) s s'.
Proof.
  intros F Hh (P1 & P2 & P3). split; [by rewrite P1, <- app_assoc|]. split.
  - intros x [->|Hx]%elem_of_cons; [|by apply P2]. rewrite P3, Hh; [by rewrite lookup_insert_eq|].
    intros (y & E & Hy)%list_elem_of_fmap. by apply (F y).
  - cbn. intros a Ha. rewrite P3, Hh by set_solver. apply lookup_insert_ne. set_solver.
Qed.

Lemma due_at_end s : fl_pos s ≠ fl_next s → flush_due s = true.
Proof. intros H. unfold flush_due. rewrite (proj2 (Z.eqb_neq _ _) H). done. Qed.

(** One round: the end, a page that stays, or a page that is written, at once or later. *)
Lemma flush_loop_nil fuel i dp s : fl_pos s ≠ fl_next s →
  pages_loop psize (S fuel) i i dp s = '(rc, s) ← flush_iov s; if negb (rc =? 0) then Ok (rc, s) else Ok (0, s).
Proof.
  intros H. cbn [pages_loop]. replace (i + 1 <=? i) with false by lia. cbn [mbind res_bind].
  rewrite due_at_end by done. by replace (i <? i + 1) with true by lia.
Qed.

Lemma flush_loop_cons A B its d todo s fuel i pc dp :
  linv A B its (d :: todo) s → Z.of_nat (length A) = i + 1 → i + 1 ≤ pc →
  pages_loop psize (S fuel) i pc dp s =
    if stays d then pages_loop psize fuel (i + 1) pc (d_a d) (skip_state (i + 1) d s)
    else if flush_due (take_state d s) then
      '(rc, s2) ← flush_iov (take_state d s);
      if negb (rc =? 0) then Ok (rc, s2)
      else pages_loop psize fuel (i + 1) pc (d_a d) (flush_add (d_a d) (flush_start s2))
    else pages_loop psize fuel (i + 1) pc (d_a d) (flush_add (d_a d) (take_state d s)).
Proof.
  intros L Hi Hpc. cbn [pages_loop]. rewrite (proj2 (Z.leb_le _ _) Hpc).
  rewrite (linv_entry _ _ _ _ _ _ _ L Hi). cbn [mbind res_bind].
  rewrite (linv_take _ _ _ _ _ _ _ L Hi). cbn [mbind res_bind mptr].
  destruct (stays d); [done|]. destruct (flush_due _); [|done].
  destruct (flush_iov _) as [[rc s2]| | |]; [cbn [mbind res_bind]|done..].
  destruct (negb _); [done|]. by rewrite (proj2 (Z.ltb_ge _ _) Hpc).
Qed.

Lemma Forall_chunks (P : chunk → Prop) ds : Forall P (d_chunk <$> ds) ↔ ∀ d, d ∈ ds → P (d_chunk d).
Proof. rewrite Forall_fmap, Forall_forall. done. Qed.

Lemma confined_sub ds ds' f f' : (∀ d, d ∈ ds → d ∈ ds') → confined (d_chunk <$> ds) f f' → confined (d_chunk <$> ds') f f'.
Proof.
  intros H. apply confined_weaken. intros o Ho. rewrite Forall_chunks in *. auto.
Qed.

Lemma writes_cons d todo : writes (d :: todo) = if stays d then writes todo else d :: writes todo.
Proof. unfold writes. rewrite filter_cons. destruct (stays d); by repeat case_decide. Qed.

Lemma present_later its ds f f' : Forall (present f) (d_chunk <$> its) → confined (d_chunk <$> ds) f f' →
  (∀ x y, x ∈ its → y ∈ ds → disjoint_chunks (d_chunk x) (d_chunk y)) → Forall (present f') (d_chunk <$> its).
Proof.
  rewrite !Forall_chunks. intros P C D x Hx.
  eapply present_confined; [by apply P|exact C|]. apply Forall_chunks. intros y Hy. by apply D.
Qed.

(** Whatever the system answers: only the chunks change, and without an error all of them
    are written. *)
Lemma flush_loop_safe todo : ∀ A B its dp s fuel i rc s',
  linv A B its todo s → Z.of_nat (length A) = i + 1 → Forall io_ok (fl_io s) → apart (its ++ writes todo) →
  pages_loop psize fuel i (i + Z.of_nat (length todo)) dp s = Ok (rc, s') →
  confined (d_chunk <$> its ++ writes todo) (fl_file s) (fl_file s') ∧ Forall io_ok (fl_io s') ∧
  (rc = 0 → Forall (present (fl_file s')) (d_chunk <$> its ++ writes todo) ∧ post A B todo s s').
Proof.
  induction todo as [|d todo IH]; intros A B its dp s fuel i rc s' L Hi Hio Hap H; (destruct fuel as [|fuel]; [done|]).
  - rewrite Z.add_0_r, flush_loop_nil in H by apply L. cbn [writes filter list_filter]. rewrite app_nil_r.
    destruct (flush_iov s) as [[rc' s2]| | |] eqn:E; try done. cbn [mbind res_bind] in H.
    destruct (flush_iov_safe its s rc' s2 (li_pend _ _ _ _ _ L) Hio E) as (f & io & Hs & Hio' & C & Pr).
    assert (s' = s2 ∧ rc = rc') as [-> ->].
    { destruct (Z.eqb_spec rc' 0) as [->|N]; cbn in H; by simplify_eq. }
    destruct Hs as [(-> & -> & -> & -> & ->)|[_ ->]]; cbn.
    + split; [apply confined_refl|]. split; [done|]. intros _. split; [constructor|].
      split; [by rewrite (li_dl _ _ _ _ _ L)|]. split; [set_solver|done].
    + split; [done|]. split; [done|]. intros ->. split; [by apply Pr|].
      split; [cbn; by rewrite (li_dl _ _ _ _ _ L)|]. split; [set_solver|done].
  - destruct (linv_fresh _ _ _ _ _ _ L) as [F N].
    rewrite (flush_loop_cons A B its d todo) in H by (done || cbn [length]; lia).
    replace (i + Z.of_nat (length (d :: todo))) with (i + 1 + Z.of_nat (length todo)) in H by (cbn [length]; lia).
    assert (HA : Z.of_nat (length (A ++ [d_mark d])) = i + 1 + 1) by (rewrite length_app; cbn; lia).
    rewrite writes_cons in *. destruct (stays d) eqn:S.
    { destruct (IH _ B its _ _ _ _ _ _ (linv_skip _ _ _ _ _ _ _ L Hi S) HA Hio Hap H) as (C & R & Q).
      split; [done|]. split; [done|]. intros H0. destruct (Q H0) as [Q1 Q2]. split; [done|].
      by eapply post_cons; [intros x Hx; apply F; set_solver| |exact Q2]. }
    destruct (flush_due _) eqn:Du.
    + destruct (flush_iov (take_state d s)) as [[rc' s2]| | |] eqn:E; try done. cbn [mbind res_bind] in H.
      destruct (flush_iov_safe its _ rc' s2 (pend_take _ _ _ _ _ _ L) Hio E) as (f & io & Hs & Hio' & C & Pr).
      cbn [take_state fl_file] in C.
      destruct (Z.eqb_spec rc' 0) as [->|N0]; cbn [negb] in H.
      2:{ simplify_eq. assert (fl_file s' = f ∧ fl_io s' = io) as [-> ->] by (by destruct Hs as [(? & ? & ?)|[_ ->]]).
          split; [|done]. eapply confined_sub; [|exact C]. set_solver. }
      assert (L2 : linv (A ++ [d_mark d]) B [d] todo (flush_add (d_a d) (flush_start s2))).
      { apply (linv_due A B its d todo s s2 0 f io L S). destruct Hs as [(-> & _ & _ & _ & ->)|[_ ->]]; auto. }
      assert (Ef : fl_file s2 = f ∧ fl_io s2 = io ∧ fl_heap s2 = <[d_a d := d_after d]> (fl_heap s)).
      { destruct Hs as [(-> & _ & -> & -> & ->)|[_ ->]]; done. }
      destruct Ef as (Ef & Ei & Eh).
      destruct (IH _ B [d] (d_a d) (flush_add (d_a d) (flush_start s2)) fuel (i + 1) rc s' L2 HA) as (C2 & R2 & Q2); [by cbn; rewrite Ei| |exact H|].
      { intros x y Hx Hy. apply Hap; set_solver. }
      cbn [flush_add flush_start fl_file] in C2. rewrite Ef in C2. split.
      { eapply confined_trans; [eapply confined_sub; [|exact C]|eapply confined_sub; [|exact C2]]; set_solver. }
      split; [done|]. intros H0. destruct (Q2 H0) as [Q3 Q4]. split.
      * rewrite fmap_app. apply Forall_app; split; [|exact Q3].
        eapply present_later; [by apply Pr|exact C2|]. intros x y Hx Hy.
        apply Hap; [set_solver|set_solver|]. cbn in Hy. apply elem_of_cons in Hy as [->|Hy]; [apply F; set_solver|].
        rewrite fmap_app in N. apply NoDup_app in N as (_ & N & _). intros Exy.
        apply (N (d_a x)); [by apply list_elem_of_fmap_2|]. rewrite Exy. apply list_elem_of_fmap_2.
        by apply list_elem_of_filter in Hy as [_ Hy].
      * eapply post_cons; [intros x Hx; apply F; set_solver| |exact Q4]. done.
    + destruct (IH _ B (its ++ [d]) (d_a d) _ fuel (i + 1) rc s' (linv_more _ _ _ _ _ _ L S Du) HA Hio) as (C & R & Q);
        [by rewrite <- app_assoc|exact H|]. rewrite <- app_assoc in C, Q. split; [done|]. split; [done|].
      intros H0. destruct (Q H0) as [Q1 Q2]. split; [done|].
      by eapply post_cons; [intros x Hx; apply F; set_solver| |exact Q2].
Qed.

Lemma flush_iov_ends its s c : pend its s → Forall unbroken (fl_io s) → 0 ≤ c → 2 + c ≤ budget (fl_io s) →
  ∃ f io s', flush_iov s = Ok (0, s') ∧ (its = [] ∧ s' = s ∨ its ≠ [] ∧ s' = iov_done s 0 f io) ∧
    Forall unbroken (fl_io s') ∧ c ≤ budget (fl_io s').
Proof.
  intros P U Hc Hb. destruct (decide (its = [])) as [->|N].
  - exists (fl_file s), (fl_io s), s. unfold flush_iov. rewrite (pe_iov _ _ P). split; [done|]. split; [by left|].
    split; [done|lia].
  - rewrite (flush_iov_eq its) by done.
    destruct (write_iov_ends (fl_io s) (is_one (fl_iov s)) (negb (is_one (fl_iov s))) (fl_wpos s)
      (concat (cleaned <$> its)) (fl_file s) c) as (f & io & E & B & U'); try done.
    { destruct (is_one _); cbn; lia. }
    { by intros ->. }
    rewrite E. exists f, io, (iov_done s 0 f io). split; [done|]. split; [by right|]. done.
Qed.

(** Without errors, and with calls enough, the loop ends. *)
Lemma flush_loop_ends todo : ∀ A B its dp s fuel i,
  linv A B its todo s → Z.of_nat (length A) = i + 1 → Forall unbroken (fl_io s) →
  2 * (Z.of_nat (length todo) + 1) ≤ budget (fl_io s) → (length todo < fuel)%nat →
  ∃ s', pages_loop psize fuel i (i + Z.of_nat (length todo)) dp s = Ok (0, s').
Proof.
  induction todo as [|d todo IH]; intros A B its dp s fuel i L Hi U Hb Hf; (destruct fuel as [|fuel]; [cbn in Hf; lia|]).
  - rewrite Z.add_0_r, flush_loop_nil by apply L.
    destruct (flush_iov_ends its s 0 (li_pend _ _ _ _ _ L) U) as (f & io & s' & -> & _); [lia|cbn in Hb; lia|]. by exists s'.
  - cbn [length] in Hb, Hf. rewrite (flush_loop_cons A B its d todo) by (done || cbn [length]; lia).
    replace (i + Z.of_nat (length (d :: todo))) with (i + 1 + Z.of_nat (length todo)) by (cbn [length]; lia).
    assert (HA : Z.of_nat (length (A ++ [d_mark d])) = i + 1 + 1) by (rewrite length_app; cbn; lia).
    destruct (stays d) eqn:S.
    { apply (IH _ B its _ _ _ _ (linv_skip _ _ _ _ _ _ _ L Hi S) HA); cbn; [done|lia|lia]. }
    destruct (flush_due _) eqn:Du.
    + destruct (flush_iov_ends its (take_state d s) (2 * (Z.of_nat (length todo) + 1)) (pend_take _ _ _ _ _ _ L) U)
        as (f & io & s2 & -> & Hs & U2 & B2); [lia|cbn; lia|]. cbn [mbind res_bind].
      apply (IH (A ++ [d_mark d]) B [d] (d_a d) _ fuel (i + 1)); try done; [|lia].
      apply (linv_due A B its d todo s s2 0 f io L S). destruct Hs as [(-> & ->)|[_ ->]]; auto.
    + apply (IH _ B (its ++ [d]) (d_a d) _ fuel (i + 1) (linv_more _ _ _ _ _ _ L S Du) HA); cbn; [done|lia|lia].
Qed.

(** ** The pages that stay *)

Definition remain (todo : list Dirty) : list Dirty := filter (λ d, stays d = true) todo.

Lemma remain_cons d todo : remain (d :: todo) = if stays d then d :: remain todo else remain todo.
Proof. unfold remain. rewrite filter_cons. destruct (stays d); by repeat case_decide. Qed.

Lemma pgno_of d fl : dirty_ok d → (n ← mread (page_with d fl) 0 8; Ok (le n)) = Ok (d_pg d).
Proof.
  intros D. rewrite (mread_at _ [] (take 8 (d_pre d)) (drop 8 (d_pre d) ++ le16 fl ++ d_rest d)); [cbn; by rewrite (do_pgno d D)| |done|].
  - unfold page_with. cbn [app]. by rewrite (app_assoc (take 8 _)), take_drop.
  - rewrite length_take, (do_pre d D). done.
Qed.

(** The second loop moves the entries that stay to the front, and gives the other pages
    back. *)
Lemma flush_free_spec todo : ∀ A1 A2 B j h dpages,
  Forall dirty_ok todo → NoDup (d_a <$> todo) → (∀ d, d ∈ todo → h !! d_a d = Some (d_after d)) →
  (∀ d, d ∈ todo → stays d = false → d_pg d ≠ 0) → Z.of_nat (length A1) = j + 1 →
  ∃ A3 h' dpages',
    flush_free (length todo) (j + Z.of_nat (length A2)) j (A1 ++ A2 ++ (d_mark <$> todo) ++ B) h dpages =
      Ok (j + Z.of_nat (length (remain todo)), A1 ++ (d_entry <$> remain todo) ++ A3 ++ B, h', dpages') ∧
    (∀ d, d ∈ remain todo → h' !! d_a d = Some (unkept d)) ∧
    (∀ a, a ∉ d_a <$> todo → h' !! a = h !! a).
Proof.
  induction todo as [|d todo IH]; intros A1 A2 B j h dpages Ho Nd Hh Hz HA.
  - exists A2, h, dpages. cbn. rewrite Z.add_0_r. split; [done|]. split; [set_solver|done].
  - apply Forall_cons in Ho as [D Ho]. apply NoDup_cons in Nd as [Nd1 Nd]. cbn [length flush_free fmap list_fmap].
    set (dl := A1 ++ A2 ++ _ ++ B).
    assert (Hi : rd2 dl (j + Z.of_nat (length A2) + 1) = Ok (MkID2 (if stays d then 0 else d_pg d) (d_a d))).
    { unfold rd2. rewrite (proj2 (Z.leb_le _ _)) by lia.
      replace (Z.to_nat (j + Z.of_nat (length A2) + 1)) with (length (A1 ++ A2)) by (rewrite length_app; lia).
      unfold dl. rewrite (app_assoc A1), lookup_app_r, Nat.sub_diag by lia. done. }
    rewrite Hi. cbn [mbind res_bind mid mptr]. rewrite remain_cons.
    pose proof (Hh d ltac:(set_solver)) as Hd. unfold d_after in Hd.
    assert (F : ∀ x, x ∈ todo → d_a x ≠ d_a d) by (intros x Hx E; apply Nd1; rewrite <- E; by apply list_elem_of_fmap_2).
    destruct (stays d) eqn:S.
    + change (0 =? 0) with true. cbn [mbind res_bind]. rewrite (heap_at_Ok _ _ _ Hd). cbn [mbind res_bind].
      pose proof (pgno_of d (clear_flag (d_fl d) P_KEEP) D) as Hp. fold (unkept d) in Hp.
      destruct (mread (unkept d) 0 8) as [n| | |]; cbn [mbind res_bind] in *; try done. injection Hp as ->.
      unfold wr2. rewrite (proj2 (Z.leb_le 0 (j + 1))) by lia. rewrite (proj2 (Z.ltb_lt _ _)).
      2:{ unfold dl. rewrite !length_app. cbn [length]. lia. }
      cbn [andb mbind res_bind]. fold (d_entry d). replace (Z.to_nat (j + 1)) with (length A1 + 0)%nat by lia.
      unfold dl. rewrite insert_app_r.
      assert (exists A2', <[0%nat:=d_entry d]> (A2 ++ (d_mark d :: (d_mark <$> todo)) ++ B) = d_entry d :: A2' ++ (d_mark <$> todo) ++ B ∧
                length A2' = length A2) as (A2' & -> & HL).
      { destruct A2 as [|x A2]; [by exists []|]. exists (A2 ++ [d_mark d]). cbn. rewrite <- app_assoc. split; [done|]. rewrite length_app. cbn. lia. }
      destruct (IH (A1 ++ [d_entry d]) A2' B (j + 1) h dpages Ho Nd) as (A3 & h' & dp' & E & Hk & Hfr); try done.
      { intros x Hx. apply Hh. set_solver. } { intros x Hx. apply Hz. set_solver. } { rewrite length_app. cbn. lia. }
      rewrite <- app_assoc in E. cbn [app] in E. exists A3, h', dp'.
      replace (j + Z.of_nat (length A2) + 1) with (j + 1 + Z.of_nat (length A2')) by lia. rewrite E. split; [|split].
      * f_equal. f_equal. f_equal. f_equal; [cbn [length]; lia|by rewrite <- app_assoc].
      * intros x [->|Hx]%elem_of_cons; [|by apply Hk]. by rewrite Hfr, Hd.
      * intros a Ha. apply Hfr. cbn in Ha. set_solver.
    + destruct (Z.eqb_spec (d_pg d) 0) as [E|_]; [by destruct (Hz d ltac:(set_solver) S)|].
      pose proof (pages_of_clean d (clear_flag (d_fl d) P_DIRTY) D (clear_flag_range _ _ (do_fl d D)) (clear_dirty_overflow _)) as Hp.
      fold (cleaned d) in Hp.
      assert (∃ h1 dp1, mdb_dpage_free h dpages (d_a d) = Ok (h1, dp1) ∧ ∀ a, a ≠ d_a d → h1 !! a = h !! a) as (h1 & dp1 & -> & H1).
      { unfold mdb_dpage_free. rewrite (heap_at_Ok _ _ _ Hd). cbn [mbind res_bind].
        destruct (IS_OVERFLOW (cleaned d)) as [big| | |]; cbn [mbind res_bind] in *; try done.
        destruct big; cbn [negb mbind res_bind].
        - rewrite Hp. cbn [mbind res_bind]. destruct (d_pages d =? 1); eexists _, _; (split; [done|]); [done|].
          intros a Ha. by apply lookup_delete_ne.
        - eexists _, _. split; [done|done]. }
      cbn [mbind res_bind].
      destruct (IH A1 (A2 ++ [d_mark d]) B j h1 dp1 Ho Nd) as (A3 & h' & dp' & E & Hk & Hfr); try done.
      { intros x Hx. rewrite H1 by (by apply F). apply Hh. set_solver. } { intros x Hx. apply Hz. set_solver. }
      exists A3, h', dp'. rewrite length_app in E. cbn [length] in E.
      replace (j + Z.of_nat (length A2) + 1) with (j + Z.of_nat (length A2 + 1)) by lia.
      unfold dl. rewrite <- app_assoc in E. cbn [app] in E |- *. rewrite E. split; [done|]. split; [done|].
      intros a Ha. cbn in Ha. rewrite Hfr, H1 by set_solver. done.
Qed.

(** ** The dirty list of a transaction *)

(** The list [dl] has the entries [todo], in front of unused cells [B]; their pages are on
    the heap, and no page of the file belongs to two of them. *)
Record dirty_list (dl : list (option ID2)) (h : gmap Z page) (todo : list Dirty) (x : Z) (B : list (option ID2)) : Prop := {
  dl_cells : dl = Some (MkID2 (Z.of_nat (length todo)) x) :: (d_entry <$> todo) ++ B;
  dl_heap : ∀ d, d ∈ todo → h !! d_a d = Some (d_page d);
  dl_nodup : NoDup (d_a <$> todo);
  dl_ok : Forall dirty_ok todo;
  dl_pos : ∀ d, d ∈ todo → 0 < d_pg d;
  dl_apart : ∀ d d', d ∈ todo → d' ∈ todo → d_a d ≠ d_a d' → d_pg d + d_pages d ≤ d_pg d' ∨ d_pg d' + d_pages d' ≤ d_pg d }.

Lemma apart_of dl h todo x B : dirty_list dl h todo x B → apart (writes todo).
Proof.
  intros L d d' Hd Hd' N o Ho Ho'. apply list_elem_of_filter in Hd as [_ Hd], Hd' as [_ Hd'].
  pose proof (dl_ok _ _ _ _ _ L) as O. rewrite Forall_forall in O. pose proof (O _ Hd) as D. pose proof (O _ Hd') as D'.
  unfold inside, d_chunk in *. cbn [fst snd] in *. pose proof (length_cleaned d D) as E. pose proof (length_cleaned d' D') as E'.
  destruct (do_pg d D), (do_pg d' D'). destruct (dl_apart _ _ _ _ _ L d d' Hd Hd' N); nia.
Qed.

Lemma flush_starts dl h todo x B io f : dirty_list dl h todo x B →
  linv [Some (MkID2 (Z.of_nat (length todo)) x)] B [] todo (MkFl dl h f io [] 0 0 1 0 0).
Proof.
  intros L. split; cbn; try apply L; [|done]. by split; cbn; try set_solver.
Qed.

Lemma page_flush_eq flags dl h todo x B io room dpages f :
  dirty_list dl h todo x B → has_flag flags MDB_WRITEMAP = false →
  mdb_page_flush psize flags 0 io dl h room dpages f =
    '(rc, s) ← pages_loop psize (S (S (length todo))) 0 (0 + Z.of_nat (length todo)) 0 (MkFl dl h f io [] 0 0 1 0 0);
    if negb (rc =? 0) then Ok (MkFlushed rc (fl_dl s) (fl_heap s) room dpages (fl_file s) (fl_io s))
    else
      '(j, dl, h, dpages) ← flush_free (length todo) 0 0 (fl_dl s) (fl_heap s) dpages;
      dl ← wr2 dl 0 (MkID2 j x);
      Ok (MkFlushed 0 dl h (room + (Z.of_nat (length todo) - j)) dpages (fl_file s) (fl_io s)).
Proof.
  intros L Hw. unfold mdb_page_flush.
  assert (E : rd2 dl 0 = Ok (MkID2 (Z.of_nat (length todo)) x)) by (by rewrite (dl_cells _ _ _ _ _ L)).
  rewrite E. cbn [mbind res_bind mid mptr]. rewrite Hw, Z.sub_0_r, Nat2Z.id, Z.add_0_l. done.
Qed.

Lemma page_flush_safe flags dl h todo x B io room dpages f r :
  dirty_list dl h todo x B → has_flag flags MDB_WRITEMAP = false → Forall io_ok io →
  mdb_page_flush psize flags 0 io dl h room dpages f = Ok r →
  confined (d_chunk <$> writes todo) f (fd_file r) ∧
  (fd_rc r = 0 → Forall (present (fd_file r)) (d_chunk <$> writes todo)).
Proof.
  intros L Hw Hio H. rewrite (page_flush_eq _ dl h todo x B) in H by done.
  destruct (pages_loop _ _ _ _ _ _) as [[rc s]| | |] eqn:E; try done. cbn [mbind res_bind] in H.
  apply (flush_loop_safe todo [Some (MkID2 (Z.of_nat (length todo)) x)] B []) in E as (C & _ & Q);
    [|by apply flush_starts|done|done|by eapply apart_of].
  assert (fd_file r = fl_file s ∧ (fd_rc r = 0 → rc = 0)) as [-> Er].
  { destruct (Z.eqb_spec rc 0) as [->|N]; cbn [negb] in H; [|by simplify_eq].
    destruct (flush_free _ _ _ _ _ _) as [[[[j dl'] h'] dp]| | |]; try done. cbn [mbind res_bind] in H.
    destruct (wr2 _ _ _); try done. cbn [mbind res_bind] in H. by simplify_eq. }
  split; [done|]. intros H0. by apply Q, Er.
Qed.

Lemma length_remain todo : (length (remain todo) + length (writes todo) = length todo)%nat.
Proof. induction todo as [|d todo IH]; [done|]. rewrite remain_cons, writes_cons. destruct (stays d); cbn [length]; lia. Qed.

Lemma page_flush_ends flags dl h todo x B io room dpages f :
  dirty_list dl h todo x B → has_flag flags MDB_WRITEMAP = false → Forall unbroken io →
  2 * (Z.of_nat (length todo) + 1) ≤ budget io →
  ∃ r C, mdb_page_flush psize flags 0 io dl h room dpages f = Ok r ∧ fd_rc r = 0 ∧
    fd_room r = room + Z.of_nat (length (writes todo)) ∧
    fd_dl r = Some (MkID2 (Z.of_nat (length (remain todo))) x) :: (d_entry <$> remain todo) ++ C ∧
    (∀ d, d ∈ remain todo → fd_heap r !! d_a d = Some (unkept d)).
Proof.
  intros L Hw U Hb. rewrite (page_flush_eq _ dl h todo x B) by done.
  pose proof (flush_starts dl h todo x B io f L) as I.
  destruct (flush_loop_ends todo _ _ _ 0 _ (S (S (length todo))) 0 I) as [s E]; try done; [lia|].
  rewrite E. cbn [mbind res_bind negb Z.eqb].
  assert (Hio : Forall io_ok io) by (eapply Forall_impl; [exact U|]; intros []; cbn; [done..|by intros ->]).
  apply (flush_loop_safe todo _ _ _ _ _ _ _ _ _ I) in E as (_ & _ & Q); try done; [|by eapply apart_of].
  destruct (Q eq_refl) as (_ & Q1 & Q2 & _). rewrite Q1.
  destruct (flush_free_spec todo [Some (MkID2 (Z.of_nat (length todo)) x)] [] B 0 (fl_heap s) dpages) as (A3 & h' & dp & E & Hk & _);
    try done; [apply L|apply L| |].
  { intros d Hd _. pose proof (dl_pos _ _ _ _ _ L d Hd). lia. }
  cbn [length app] in E |- *. change (0 + Z.of_nat 0) with 0 in E. rewrite E. cbn [mbind res_bind].
  eexists _, (A3 ++ B). split; [done|]. cbn. split; [done|]. split; [pose proof (length_remain todo); lia|]. done.
Qed.
End dirty.

(** ** The claim *)

(** C19.  When no call fails for good, [mdb_page_flush] returns 0: every dirty page that is not
    to be kept is in the file at its place with its dirty flag cleared, no other byte of the
    file has changed, and the dirty list is left with the pages that are kept. *)
Theorem page_flush_writes psize flags dl h todo x B io room dpages f :
  1 < psize → dirty_list psize dl h todo x B → has_flag flags MDB_WRITEMAP = false → Forall unbroken io →
  2 * (Z.of_nat (length todo) + 1) ≤ budget io →
  ∃ r C, mdb_page_flush psize flags 0 io dl h room dpages f = Ok r ∧ fd_rc r = 0 ∧
    Forall (present (fd_file r)) (d_chunk psize <$> writes todo) ∧ confined (d_chunk psize <$> writes todo) f (fd_file r) ∧
    fd_room r = room + Z.of_nat (length (writes todo)) ∧
    fd_dl r = Some (MkID2 (Z.of_nat (length (remain todo))) x) :: (d_entry <$> remain todo) ++ C ∧
    (∀ d, d ∈ remain todo → fd_heap r !! d_a d = Some (unkept d)).
Proof.
  intros Hps L Hw U Hb.
  destruct (page_flush_ends psize Hps flags dl h todo x B io room dpages f L Hw U Hb) as (r & C & E & R0 & R).
  assert (Hio : Forall io_ok io) by (eapply Forall_impl; [exact U|]; intros []; cbn; [done..|by intros ->]).
  destruct (page_flush_safe psize Hps flags dl h todo x B io room dpages f r L Hw Hio E) as [Cf Pr].
  exists r, C. split; [done|]. split; [done|]. split; [by apply Pr|]. split; [done|exact R].
Qed.

(** ** Witness *)

Module Example.

(** Pages of 32 bytes: two that follow one another, one that is kept, and one behind it; the
    second call is interrupted. *)
Definition page (n a fl : Z) : Dirty := MkDirty n a (n :: replicate 9 0) fl (replicate 20 n).
Definition todo : list Dirty := [page 2 100 0x12; page 3 101 0x11; page 4 102 0x8012; page 6 103 0x12].
Definition heap : gmap Z bytes := list_to_map ((λ d, (d_a d, d_page d)) <$> todo).
Definition dl : list (option ID2) := Some (MkID2 4 7) :: (d_entry <$> todo) ++ [None].
Definition io : list Io := [IoAll; IoErr EINTR 5] ++ replicate 12 IoAll.

Lemma todo_ok : dirty_list 32 dl heap todo 7 [None].
Proof.
  split.
  - done.
  - rewrite <-Forall_forall. by repeat constructor.
  - by apply (bool_decide_unpack (NoDup _)).
  - repeat constructor; try done; vm_compute; discriminate.
  - rewrite <-Forall_forall. by repeat constructor.
  - intros d d' Hd Hd'. assert (H : ∀ z, (0 <=? z) = true → 0 ≤ z) by (intros z; lia).
    unfold todo in *. repeat (apply elem_of_cons in Hd as [->|Hd]); [..|by apply not_elem_of_nil in Hd];
      repeat (apply elem_of_cons in Hd' as [->|Hd']); try (by apply not_elem_of_nil in Hd');
      intros N; try (by destruct (N eq_refl)); vm_compute; first [left; discriminate|right; discriminate].
Defined.

Lemma page_flush_writes_witness :
  ∃ r C, mdb_page_flush 32 0 0 io dl heap 10 [] (replicate 64 0) = Ok r ∧ fd_rc r = 0 ∧
    Forall (present (fd_file r)) (d_chunk 32 <$> writes todo) ∧
    confined (d_chunk 32 <$> writes todo) (replicate 64 0) (fd_file r) ∧ fd_room r = 10 + 3 ∧
    fd_dl r = Some (MkID2 1 7) :: (d_entry <$> remain todo) ++ C ∧
    (∀ d, d ∈ remain todo → fd_heap r !! d_a d = Some (unkept d)).
Proof.
  apply (page_flush_writes 32 0 dl heap todo 7 [None] io 10 [] (replicate 64 0)); [done|exact todo_ok|done| |by vm_compute].
  by repeat constructor.
Defined.
End Example.
