(* ===== verification/Snap.v ===== *)
(** * Versions of a database (src/lib/lmdb/mdb.c)

    How a transaction starts from a meta page ([mdb_txn_renew0], [mdb_env_share_locks]), and
    versions: the pages that the tree of a meta page is made of, by their numbers, apart from
    where they are at the time (in the map, or dirty in memory).  A version whose pages are
    where a transaction looks for them is a tree of TreeProps.v for this transaction. *)

From S2P Require Import Prelude.
From S2P Require Import Lmdb Midl Page PageProps Tree TreeProps Cursor CursorProps Dump Meta Flush FlushProps.

Definition MDB_VALID : Z := 0x8000.
Definition MDB_PANIC : Z := -30795.
Definition MDB_MAP_RESIZED : Z := -30785.

(** ** Where a transaction starts *)

(** The meta page of a reader, or of a writer when its number is the last one. *)
Definition txn_meta (e : MDB_env) : res MDB_meta :=
  match me_txns e with
  | None => i ← mdb_env_pick_meta e; me_metas e i
  | Some (txnid, _) => me_metas e (Z.land txnid 1)
  end.

Definition with_flags (d : MDB_db) (x : Z) : MDB_db :=
  MkDb (md_pad d) (Z.land x PERSISTENT_FLAGS) (md_depth d) (md_branch_pages d) (md_leaf_pages d) (md_overflow_pages d)
    (md_entries d) (md_root d).

(** The end of [mdb_txn_renew0]: [me_dbflags] are the flags of the open databases, [t] what
    the transaction had before. *)
Definition txn_setup (flags : Z) (me_dbflags : list Z) (e : MDB_env) (meta : MDB_meta) (t : MDB_txn) : Z * MDB_txn :=
  let xs := drop (Z.to_nat CORE_DBS) me_dbflags in
  let flag x := if has_flag x MDB_VALID then Z.lor DB_VALID (Z.lor DB_USRVALID DB_STALE) else 0 in
  let next_pgno := u64 (mm_last_pg meta + 1) in
  let t := MkTxn flags next_pgno (mt_lists t)
             (mm_free meta :: mm_main meta :: zip_with with_flags (drop (Z.to_nat CORE_DBS) (mt_dbs t)) xs)
             (mt_dbxs t) (DB_VALID :: Z.lor DB_VALID DB_USRVALID :: (flag <$> xs)) (mt_dbiseqs t) (me_dbiseqs t) (mt_w t) in
  (if has_flag (me_flags e) MDB_FATAL_ERROR then MDB_PANIC
   else if me_maxpg e <? next_pgno then MDB_MAP_RESIZED
   else MDB_SUCCESS, t).

(** [mdb_txn_renew0] of a reader, whose slot Readers.v has. *)
Definition reader_begin (me_dbflags : list Z) (t : MDB_txn) (e : MDB_env) : res (Z * MDB_txn) :=
  meta ← txn_meta e; Ok (txn_setup MDB_TXN_RDONLY me_dbflags e meta t).

(** [mdb_env_share_locks]: the number that the first process to open the environment puts
    into the lock table. *)
Definition mdb_env_share_locks (e : MDB_env) : res MDB_env :=
  match me_txns e with
  | None => UB
  | Some _ => i ← mdb_env_pick_meta e; m ← me_metas e i; Ok (set_mti_txnid e (mm_txnid m))
  end.

(** The environment when it is opened again over the file [f]. *)
Definition reopened (e : MDB_env) (f : bytes) : res MDB_env :=
  match me_txns e with None => Ok (set_file e f) | Some _ => mdb_env_share_locks (set_file e f) end.

(** What a reader that starts now gets for a key. *)
Definition read_main (fuel : nat) (me_dbflags : list Z) (t : MDB_txn) (key v0 : MDB_val) (e : MDB_env) : res Got :=
  '(rc, t) ← reader_begin me_dbflags t e;
  if negb (rc =? 0) then Ok (code rc)
  else
    '(g, _) ← mdb_get fuel (mret 0) MAIN_DBI (Some key) (Some v0)
                (MkSt (MkMem (me_file e) (me_psize e) ∅) t uninit_cursor None None);
    Ok g.

(** ** Versions *)

Section snap.
Context (V : gmap Z page) (cmp : MDB_cmp_func) `{!KeyOrder cmp}.
Abbreviation entries := (list (bytes * bytes)).

Definition v_page (leaf : bool) (pgno : Z) (ns : list node) : Prop :=
  ∃ p, V !! pgno = Some p ∧ holds leaf p ns ∧ IS_BRANCH p = Ok (negb leaf).

Definition v_datum (n : node) (v : bytes) : Prop :=
  if F_ISSET (n_flags n) F_BIGDATA
  then ∃ p, V !! le (n_val n) = Some p ∧ mread p PAGEHDRSZ (n_dsz n) = Ok v
  else v = n_val n.

Definition v_entry (n : node) (kv : bytes * bytes) : Prop :=
  n_key n = kv.1 ∧ v_datum n kv.2 ∧ F_ISSET (n_flags n) F_DUPDATA = false.

(** The tree of depth [d] with the root [pgno]: its keys are in order and between the
    bounds, and its entries are [es]. *)
Fixpoint snap (d : nat) (pgno : Z) (lo hi : option bytes) (es : entries) : Prop :=
  Forall (λ k, above cmp lo k ∧ below cmp hi k) es.*1 ∧
  match d with
  | O => ∃ ns, v_page true pgno ns ∧ Forall2 v_entry ns es ∧ es ≠ [] ∧ ascending cmp 0 es.*1
  | S d => ∃ bs (ess : list entries), v_page false pgno bs ∧ (2 ≤ length bs)%nat ∧
             length ess = length bs ∧ es = concat ess ∧ ascending cmp 1 (n_key <$> bs) ∧
             ∀ i b e, bs !! i = Some b → ess !! i = Some e →
               snap d (n_pgno b) (lo_at bs lo i) (hi_at bs hi i) e
  end.

(** The version of a record holds the entries. *)
Definition version (db : MDB_db) (es : entries) : Prop :=
  md_root db = P_INVALID ∧ es = [] ∨
  ∃ d, snap d (md_root db) None None es ∧ (d ≤ 31)%nat ∧ 1 < md_root db < P_INVALID.

(** ** A version that a transaction sees *)

Context (fuel : nat) (m : Mem) (t : MDB_txn).

Definition visible : Prop :=
  ∀ pgno p, V !! pgno = Some p → ∃ q rest, found fuel m t pgno q ∧ from m q = Ok (p ++ rest).

Lemma v_page_at leaf pgno ns : visible → v_page leaf pgno ns → ∃ q, found fuel m t pgno q ∧ page_at m leaf q ns.
Proof.
  intros Hv (p & Hp & Hh & Hb). destruct (Hv _ _ Hp) as (q & rest & Hf & Hm). exists q. split; [done|].
  exists (p ++ rest). split; [done|]. apply page_reads_app. by apply holds_reads.
Qed.

Lemma v_entry_at n kv : visible → v_entry n kv → entry fuel m t n kv.
Proof.
  intros Hv (Hk & Hd & Hf). split; [done|]. split; [|done]. unfold v_datum, datum in *. case_match; [|done].
  destruct Hd as (p & Hp & Hr). destruct (Hv _ _ Hp) as (q & rest & Hq & Hm). exists q, (p ++ rest).
  split; [done|]. split; [done|]. by apply mread_app.
Qed.

Lemma snap_tree d : ∀ pgno lo hi es, visible → snap d pgno lo hi es → tree fuel m t cmp d pgno lo hi es.
Proof.
  induction d as [|d IH]; intros pgno lo hi es Hv.
  - intros (Hk & ns & Hp & He & Hn & Ha). destruct (v_page_at _ _ _ Hv Hp) as (q & Hq & Hpq).
    split; [done|]. exists q, ns. split; [done|]. split; [done|]. split; [|done].
    eapply Forall2_impl; [exact He|]. intros n kv. by apply v_entry_at.
  - intros (Hk & bs & ess & Hp & H2 & Hl & He & Ha & Ht). destruct (v_page_at _ _ _ Hv Hp) as (q & Hq & Hpq).
    split; [done|]. exists q, bs, ess. do 6 (split; [done|]). intros i b e Hb Hi. apply IH; [done|]. by apply Ht.
Qed.

Lemma version_holds db es : (31 < fuel)%nat → visible → version db es → db_holds fuel m t cmp db es.
Proof.
  intros Hf Hv [?|(d & Hs & Hd & Hr)]; [by left|]. right. exists d. split; [by apply snap_tree|]. split; [lia|done].
Qed.
End snap.

(** ** A version with other flags *)

(** The page when its dirty flag is cleared. *)
Definition unflagged (p p' : page) : Prop :=
  p' = p ∨ ∃ pre fl rest, p = pre ++ le16 fl ++ rest ∧ p' = pre ++ le16 (clear_flag fl P_DIRTY) ++ rest ∧
    length pre = 10%nat ∧ u16_ok fl ∧ (4 ≤ length rest)%nat.

Lemma unflagged_holds leaf p p' ns : unflagged p p' → holds leaf p ns → holds leaf p' ns.
Proof.
  intros [->|(pre & fl & rest & -> & -> & Hl & Hfl & Hr)]; [done|]. intros (h & es & gap & lay & HW & E & Hes).
  pose proof (hw_head _ _ _ _ _ HW) as Hh. unfold page_bytes, head_bytes in E. rewrite <-!(assoc_L (++)) in E.
  apply app_inj_1 in E as [-> E]; [|by rewrite (ho_pre h Hh)].
  apply app_inj_1 in E as [E ->]; [|done].
  assert (fl = h_flags h) as -> by (rewrite <-(le_le16 fl), E by done; by apply le_le16, (ho_flags h Hh)).
  exists (MkHead (h_pre h) (clear_flag (h_flags h) P_DIRTY) (h_lower h) (h_upper h)), es, gap, lay.
  split; [|split; [|done]].
  - destruct HW as [[H1 H2 H3 H4] H5 H6 H7 H8 H9 H10 H11]. split; cbn; try done.
    + split; cbn; try done. by apply clear_flag_range.
    + rewrite <-H5. unfold F_ISSET, clear_flag. by rewrite <-Z.land_assoc.
    + rewrite <-H6. unfold F_ISSET, clear_flag. by rewrite <-Z.land_assoc.
  - unfold page_bytes, head_bytes. cbn. by rewrite <-!(assoc_L (++)).
Qed.

Lemma unflagged_branch p p' b : unflagged p p' → IS_BRANCH p = Ok b → IS_BRANCH p' = Ok b.
Proof.
  intros [->|(pre & fl & rest & -> & -> & Hl & Hfl & Hr)]; [done|]. unfold IS_BRANCH, MP_FLAGS.
  rewrite (rd16_at _ pre fl rest), (rd16_at _ pre (clear_flag fl P_DIRTY) rest) by (done || lia || by apply clear_flag_range).
  cbn [mbind res_bind]. intros <-. unfold F_ISSET, clear_flag. by rewrite <-Z.land_assoc.
Qed.

(** What is behind the head is read as before. *)
Lemma unflagged_read p p' n v : unflagged p p' → mread p PAGEHDRSZ n = Ok v → mread p' PAGEHDRSZ n = Ok v.
Proof.
  intros [->|(pre & fl & rest & -> & -> & Hl & Hfl & Hr)]; [done|]. unfold mread, PAGEHDRSZ. rewrite !length_app, !length_le16.
  intros <-. case_match; [|done]. do 2 f_equal. change (Z.to_nat 16) with (10 + 6)%nat. rewrite <-!drop_drop.
  rewrite !(drop_app_length' pre) by lia. change 6%nat with (2 + 4)%nat. rewrite <-!drop_drop. by rewrite !drop_app_length'.
Qed.

Lemma snap_unflagged V V' cmp `{!KeyOrder cmp} d :
  (∀ n p, V !! n = Some p → ∃ p', V' !! n = Some p' ∧ unflagged p p') →
  ∀ pgno lo hi es, snap V cmp d pgno lo hi es → snap V' cmp d pgno lo hi es.
Proof.
  intros HV.
  assert (HP : ∀ leaf pgno ns, v_page V leaf pgno ns → v_page V' leaf pgno ns).
  { intros leaf pgno ns (p & Hp & Hh & Hb). destruct (HV _ _ Hp) as (p' & Hp' & U). exists p'. split; [done|].
    split; [by eapply unflagged_holds|by eapply unflagged_branch]. }
  assert (HE : ∀ n kv, v_entry V n kv → v_entry V' n kv).
  { intros n kv (Hk & Hd & Hf). split; [done|]. split; [|done]. unfold v_datum in *. case_match; [|done].
    destruct Hd as (p & Hp & Hr). destruct (HV _ _ Hp) as (p' & Hp' & U). exists p'. split; [done|]. by eapply unflagged_read. }
  induction d as [|d IH]; intros pgno lo hi es.
  - intros (Hk & ns & Hp & He & Hn & Ha). split; [done|]. exists ns. split; [by apply HP|]. split; [|done].
    eapply Forall2_impl; [exact He|]. apply HE.
  - intros (Hk & bs & ess & Hp & H2 & Hl & He & Ha & Ht). split; [done|]. exists bs, ess. split; [by apply HP|].
    do 4 (split; [done|]). intros i b e Hb Hi. by apply IH, Ht.
Qed.

Lemma version_unflagged V V' cmp `{!KeyOrder cmp} db es :
  (∀ n p, V !! n = Some p → ∃ p', V' !! n = Some p' ∧ unflagged p p') → version V cmp db es → version V' cmp db es.
Proof. intros HV [?|(d & Hs & Hd)]; [by left|]. right. exists d. split; [by eapply snap_unflagged|done]. Qed.
