(* ===== verification/SnapProps.v ===== *)
(** * What readers see while a transaction commits

    The pages of a version in the file, and what a commit does to them: whatever it writes,
    and wherever it stops, the versions that the transaction did not copy stay as they are;
    and when the meta page is there, so is all of the new version. *)

From stdpp Require Import sorting.
From S2P Require Import Prelude.
From S2P Require Import Lmdb Midl Page PageProps Tree TreeProps Cursor CursorProps CursorSpec Reads.
From S2P Require Import Dump Meta MetaProps Flush FlushProps Snap.

Abbreviation entries := (list (bytes * bytes)).

(** ** Versions in a file *)

Section file.
Context (psize : Z) (Hps : 1 < psize).

Definition page_chunk (n : Z) (p : page) : chunk := (Z.to_nat (n * psize), p).

(** The pages of the version [V] are in the file [f], behind the meta pages and below [next],
    and no write of [cs] reaches them. *)
Definition spared (next : Z) (cs : list chunk) (f : bytes) (V : gmap Z page) : Prop :=
  ∀ n p, V !! n = Some p → NUM_METAS ≤ n < next ∧ n * psize < 2 ^ 64 ∧ p ≠ [] ∧
    present f (page_chunk n p) ∧ Forall (disjoint_chunks (page_chunk n p)) cs.

(** The pages of the version [V] of a writer: dirty ones that will be written, and others,
    which are in the file. *)
Definition pending (next : Z) (todo : list Dirty) (f : bytes) (V : gmap Z page) : Prop :=
  ∀ n p, V !! n = Some p → NUM_METAS ≤ n < next ∧ n * psize < 2 ^ 64 ∧ p ≠ [] ∧
    ((∃ d, d ∈ writes todo ∧ d_pg d = n ∧ p = d_page d) ∨
     n ∉ d_pg <$> todo ∧ present f (page_chunk n p) ∧
       Forall (disjoint_chunks (page_chunk n p)) (d_chunk psize <$> writes todo)).

Lemma present_length f o b : present f (o, b) → b ≠ [] → (o + length b ≤ length f)%nat.
Proof.
  intros P N. destruct (lookup_lt_is_Some_2 b (length b - 1)) as [x Hx]; [by destruct b; cbn; try lia|].
  specialize (P _ _ Hx). apply lookup_lt_Some in P. destruct b; cbn in *; [done|lia].
Qed.

Lemma present_drop f o b : present f (o, b) → drop o f = b ++ drop (length b) (drop o f).
Proof. intros P. rewrite <-(present_region f o b P) at 1. by rewrite take_drop. Qed.

(** A page that is in the file, in the map. *)
Lemma from_present heap f n p :
  0 ≤ n → n * psize < 2 ^ 64 → p ≠ [] → present f (page_chunk n p) →
  ∃ rest, from (MkMem f psize heap) (InMap (u64 (psize * n))) = Ok (p ++ rest).
Proof using Hps.
  intros H0 H1 Hp P. pose proof (present_length _ _ _ P Hp) as L. rewrite (Z.mul_comm psize), u64_small by nia.
  unfold from. rewrite (proj2 (Z.leb_le 0 _)) by nia. rewrite (proj2 (Z.leb_le _ _)) by (cbn [Tree.me_map]; lia).
  cbn [andb Tree.me_map]. rewrite (present_drop _ _ _ P). by eexists.
Qed.

Lemma spared_visible fuel heap next cs f V t :
  spared next cs f V → has_flag (mt_flags t) (Z.lor MDB_TXN_RDONLY MDB_TXN_WRITEMAP) = true → mt_next_pgno t = next →
  visible V fuel (MkMem f psize heap) t.
Proof using Hps.
  intros S Hro Hn n p Hp. destruct (S n p Hp) as ((H0 & H1) & H2 & H3 & P & _). unfold NUM_METAS in H0.
  destruct (from_present heap f n p) as [rest E]; try done; [lia|]. eexists _, rest. split; [|exact E].
  exists 0. unfold page_find. rewrite Hro. cbn [mbind res_bind]. rewrite Hn. by rewrite (proj2 (Z.ltb_lt _ _)) by lia.
Qed.

Lemma spared_later next cs f f' V : spared next cs f V → confined cs f f' → spared next cs f' V.
Proof.
  intros S C n p Hp. destruct (S n p Hp) as (H0 & H2 & H3 & P & D). do 3 (split; [done|]). split; [|done].
  by eapply present_confined.
Qed.

(** Writing into the meta pages leaves every version alone. *)
Lemma spared_metas next cs b f f' V :
  Z.of_nat (length b) ≤ NUM_METAS * psize → spared next cs f V → confined [(0%nat, b)] f f' → spared next cs f' V.
Proof using Hps.
  intros Hb S C n p Hp. destruct (S n p Hp) as (H0 & H2 & H3 & P & D). do 3 (split; [done|]). split; [|done].
  eapply present_confined; [exact P|exact C|]. constructor; [|done].
  intros o Ho Ho'. unfold inside, page_chunk in *. cbn [fst snd] in *. unfold NUM_METAS in *. nia.
Qed.

(** ** The version of a writer *)

Lemma dirty_inj dl h todo x B d d' :
  dirty_list psize dl h todo x B → d ∈ todo → d' ∈ todo → d_pg d = d_pg d' → d = d'.
Proof using Hps.
  intros L Hd Hd' E. pose proof (dl_ok _ _ _ _ _ _ L) as O. rewrite Forall_forall in O.
  pose proof (do_pages _ _ (O _ Hd)). pose proof (do_pages _ _ (O _ Hd')).
  destruct (decide (d_a d = d_a d')) as [Ea|N]; [|destruct (dl_apart _ _ _ _ _ _ L d d' Hd Hd' N); lia].
  apply list_elem_of_lookup in Hd as [i Hi], Hd' as [j Hj].
  assert (i = j) as ->; [|congruence].
  eapply NoDup_lookup; [apply (dl_nodup _ _ _ _ _ _ L)|rewrite list_lookup_fmap, Hi; done|].
  rewrite list_lookup_fmap, Hj. cbn. by rewrite Ea.
Qed.

Lemma writes_in d todo : d ∈ writes todo → d ∈ todo.
Proof. intros H. by apply list_elem_of_filter in H as [_ H]. Qed.

(** The version of a writer when its pages are written. *)
Definition flushed (todo : list Dirty) (V : gmap Z page) : gmap Z page :=
  map_imap (λ n p, Some (match list_find (λ d, d_pg d = n) (writes todo) with Some (_, d) => cleaned d | None => p end)) V.

Lemma flushed_spared dl h todo x B next f f' V :
  dirty_list psize dl h todo x B → pending next todo f V →
  confined (d_chunk psize <$> writes todo) f f' → Forall (present f') (d_chunk psize <$> writes todo) →
  spared next [] f' (flushed todo V) ∧
  (∀ n p, V !! n = Some p → ∃ p', flushed todo V !! n = Some p' ∧ unflagged p p').
Proof using Hps.
  intros L Pd C Pr. pose proof (dl_ok _ _ _ _ _ _ L) as O. rewrite Forall_forall in O.
  assert (F : ∀ n p, V !! n = Some p → ∃ p', flushed todo V !! n = Some p' ∧ unflagged p p' ∧
    NUM_METAS ≤ n < next ∧ n * psize < 2 ^ 64 ∧ p' ≠ [] ∧ present f' (page_chunk n p')).
  { intros n p Hp. unfold flushed. destruct (Pd n p Hp) as (H0 & H2 & H3 & Hc).
    rewrite map_lookup_imap, Hp. cbn [mbind option_bind]. eexists. split; [reflexivity|].
    destruct Hc as [(d & Hd & <- & ->)|(Hn & P & D)].
    - destruct (list_find _ _) as [[i d']|] eqn:El.
      + apply list_find_Some in El as (Hi & Epg & _). apply list_elem_of_lookup_2 in Hi.
        assert (d' = d) as -> by (eapply (dirty_inj dl h todo x B); eauto using writes_in).
        pose proof (O _ (writes_in _ _ Hd)) as Dk. split.
        * right. exists (d_pre d), (d_fl d), (d_rest d). split; [done|]. split; [done|]. split; [apply (do_pre _ _ Dk)|].
          split; [apply (do_fl _ _ Dk)|apply (do_rest _ _ Dk)].
        * do 2 (split; [done|]). split; [|rewrite Forall_fmap, Forall_forall in Pr; by apply Pr].
          intros E. apply (f_equal length) in E. unfold cleaned in E. rewrite length_page_with in E.
          pose proof (do_size _ _ Dk). pose proof (do_pages _ _ Dk). cbn in E. nia.
      + apply list_find_None in El. rewrite Forall_forall in El. by destruct (El d Hd).
    - destruct (list_find _ _) as [[i d']|] eqn:El.
      + apply list_find_Some in El as (Hi & Epg & _). apply list_elem_of_lookup_2 in Hi.
        exfalso. apply Hn. rewrite <-Epg. apply list_elem_of_fmap_2. by apply writes_in.
      + split; [by left|]. do 3 (split; [done|]). by eapply present_confined. }
  split; [|intros n p Hp; destruct (F n p Hp) as (p' & ? & ? & _); by exists p'].
  intros n p' Hp'. assert (exists p, V !! n = Some p) as [p Hp].
  { unfold flushed in Hp'. rewrite map_lookup_imap in Hp'. destruct (V !! n) as [p|]; [by exists p|done]. }
  destruct (F n p Hp) as (p'' & E & _ & H0 & H2 & H3 & P). pose proof (eq_trans (eq_sym Hp') E) as Ep. injection Ep as <-. done.
Qed.

(** The writer itself finds its pages: the dirty ones on the heap. *)
Lemma pending_visible fuel dl h todo x B next f V t :
  (33 ≤ fuel)%nat → dirty_list psize dl h todo x B → pending next todo f V → next < 2 ^ 63 →
  StronglySorted (λ a b, d_pg a < d_pg b) todo → Z.of_nat (length todo) < 2 ^ 32 - 1 →
  has_flag (mt_flags t) (Z.lor MDB_TXN_RDONLY MDB_TXN_WRITEMAP) = false → mt_lists t = [(None, dl)] → mt_next_pgno t = next →
  visible V fuel (MkMem f psize h) t.
Proof using Hps.
  intros Hfuel L Pd Hnx Hs Hlen Hro Hl Hn n p Hp. destruct (Pd n p Hp) as (H0 & H2 & H3 & Hc). unfold NUM_METAS in H0.
  set (ys := (λ d, MkID2 (d_pg d) (d_a d)) <$> todo).
  assert (Ed : dirty_page fuel n psize 1 (mt_lists t) = Ok (level_find psize n 1 [(None, ys)])).
  { apply dirty_page_spec; [done|lia|]. rewrite Hl. constructor; [|constructor]. split; [done|]. cbn [fst snd]. split.
    - exists x, B. rewrite (dl_cells _ _ _ _ _ _ L). unfold mid2l_cells, ys. rewrite length_fmap, <-list_fmap_compose. done.
    - unfold ys. rewrite length_fmap. split; [|done]. clear -Hs. induction Hs as [|d todo Hs IH Hd]; [constructor|].
      cbn. constructor; [exact IH|]. rewrite Forall_fmap. exact Hd. }
  unfold found, page_find. rewrite Hro. cbn [Tree.me_psize]. rewrite Ed. cbn [mbind res_bind level_find level_page fst snd].
  unfold level_page. cbn [fst snd default from_option]. rewrite decide_False by apply not_elem_of_nil.
  destruct Hc as [(d & Hd & <- & ->)|(Hnd & P & D)].
  - destruct (list_find (λ y, mid y = d_pg d) ys) as [[i y]|] eqn:El.
    + apply list_find_Some in El as (Hi & Epg & _). unfold ys in Hi. apply list_lookup_fmap_Some in Hi as (d' & -> & Hi).
      apply list_elem_of_lookup_2 in Hi. cbn [mid] in Epg.
      assert (d' = d) as -> by (eapply (dirty_inj dl h todo x B); eauto using writes_in).
      cbn [fmap option_fmap option_map snd mptr]. exists (InHeap (d_a d) 0), []. split; [by exists 1|].
      assert (Eh : @lookup Z (list Z) _ _ (d_a d) (heap (MkMem f psize h)) = Some (d_page d)) by exact (dl_heap _ _ _ _ _ _ L d (writes_in _ _ Hd)).
      unfold from. rewrite Eh. rewrite (proj2 (Z.leb_le 0 (Z.of_nat _))) by lia. by rewrite app_nil_r.
    + apply list_find_None in El. rewrite Forall_forall in El. exfalso. apply (El (MkID2 (d_pg d) (d_a d))); [|done].
      unfold ys. apply list_elem_of_fmap. exists d. split; [done|]. by apply writes_in.
  - destruct (list_find (λ y, mid y = n) ys) as [[i y]|] eqn:El.
    + apply list_find_Some in El as (Hi & Epg & _). unfold ys in Hi. apply list_lookup_fmap_Some in Hi as (d' & -> & Hi).
      apply list_elem_of_lookup_2 in Hi. cbn [mid] in Epg. exfalso. apply Hnd. rewrite <-Epg. by apply list_elem_of_fmap_2.
    + destruct (from_present h f n p) as [rest E]; try done; [lia|]. cbn [fmap option_fmap option_map].
      eexists _, rest. split; [|exact E]. exists 0. rewrite Hn. by rewrite (proj2 (Z.ltb_lt _ _)) by lia.
Qed.
End file.

(** ** The meta pages while the others are written *)

Lemma confined_take n cs f f' :
  confined cs f f' → (n ≤ length f)%nat → Forall (λ c : chunk, (n ≤ c.1)%nat) cs → take n f' = take n f.
Proof.
  intros [L C] Hn Hc. apply list_eq. intros i. destruct (decide (i < n)%nat) as [Hi|Hi]; [|by rewrite !lookup_take_ge by lia].
  rewrite !lookup_take_lt by done. apply C; [lia|]. eapply Forall_impl; [exact Hc|]. intros c Hcn Ho. unfold inside in Ho. cbn beta in Hcn. lia.
Qed.

Lemma region_take n f off k : 0 ≤ off → off + k ≤ Z.of_nat n → region (take n f) off k = region f off k.
Proof.
  intros H0 Hk. unfold region. apply list_eq. intros i. destruct (decide (i < Z.to_nat k)%nat) as [Hi|Hi]; [|by rewrite !lookup_take_ge by lia].
  rewrite !lookup_take_lt by done. rewrite !lookup_drop, lookup_take_lt by lia. done.
Qed.

(** The meta pages only depend on the first two pages of the file. *)
Lemma metas_agree e f i :
  METABUF_SIZE ≤ me_psize e → 2 * me_psize e ≤ Z.of_nat (length (me_file e)) → (length (me_file e) ≤ length f)%nat →
  take (Z.to_nat (2 * me_psize e)) f = take (Z.to_nat (2 * me_psize e)) (me_file e) → i = 0 ∨ i = 1 →
  me_metas (set_file e f) i = me_metas e i.
Proof.
  unfold METABUF_SIZE, META_SIZE, PAGEHDRSZ. intros Hp Hl Hf Ht Hi. unfold me_metas. cbn [me_psize me_file set_file].
  set (off := meta_off (me_psize e) i). set (n := Z.to_nat (2 * me_psize e)).
  assert (Hr : 0 ≤ off ∧ off + META_SIZE ≤ Z.of_nat n).
  { unfold off, n, meta_off, META_SIZE, PAGEHDRSZ. destruct Hi as [-> | ->]; lia. }
  rewrite (meta_at_region f off), (meta_at_region (me_file e) off) by lia.
  fold n in Ht. by rewrite <-(region_take n f), Ht, region_take by lia.
Qed.

Lemma commit_ok_confined e W txn prev old free main cs f :
  commit_ok e W txn prev old free main → confined cs (me_file e) f →
  Forall (λ c : chunk, (Z.to_nat (2 * me_psize e) ≤ c.1)%nat) cs → commit_ok (set_file e f) W txn prev old free main.
Proof.
  intros Hok C Hc. pose proof Hok as [Hp [Hl Hb] [Hprev ?] [Hold ?] HW Hs Hd].
  assert (Hn : (Z.to_nat (2 * me_psize e) ≤ length (me_file e))%nat) by lia.
  pose proof (confined_take _ _ _ _ C Hn Hc) as Ht. destruct C as [L _].
  assert (Hm : ∀ i, i = 0 ∨ i = 1 → me_metas (set_file e f) i = me_metas e i) by (intros i Hi; by apply metas_agree).
  assert (H01 : (toggle W = 0 ∨ toggle W = 1) ∧ (other W = 0 ∨ other W = 1)).
  { destruct (toggle_cases W) as [(-> & -> & _)|(-> & -> & _)]; auto. }
  split; try done.
  - cbn [me_file me_psize set_file]. rewrite Ht. split; [lia|done].
  - by rewrite Hm by apply H01.
  - by rewrite Hm by apply H01.
Qed.

(** A commit only writes within the meta pages. *)
Lemma torn_confined e W txn prev old free main k :
  commit_ok e W txn prev old free main →
  confined [(0%nat, take (Z.to_nat (NUM_METAS * me_psize e)) (me_file e))] (me_file e) (torn e W txn prev free main k).
Proof.
  intros Hok. destruct (commit_range e W txn prev old free main Hok) as [H0 _].
  destruct (commit_data_split e W txn prev free main) as (_ & _ & Hlen).
  pose proof Hok as [Hp [Hl _] _ _ _ _ _]. unfold torn. eapply confined_weaken; [|apply confined_write; exact H0].
  intros o [Ho _]%Forall_cons. constructor; [|done]. unfold inside in *. cbn [fst snd] in *. rewrite length_take in *.
  unfold NUM_METAS, meta_off, MAPSIZE_OFF, METABUF_SIZE, META_SIZE, PAGEHDRSZ in *.
  destruct (toggle_cases W) as [(-> & _)|(-> & _)]; lia.
Qed.

(** ** Readers that start *)

(** What the lookup of a key answers. *)
Definition lookup_got (es : entries) (key : bytes) : Got :=
  match (list_to_map es : gmap bytes bytes) !! key with
  | Some v => MkGot MDB_SUCCESS None (Some (val v))
  | None => code MDB_NOTFOUND
  end.

(** [MAIN_DBI] has its comparison. *)
Definition main_cmp (t : MDB_txn) (cmp : MDB_cmp_func) : Prop :=
  ∃ dbx, cell (mt_dbxs t) MAIN_DBI = Ok dbx ∧ md_cmp dbx = Some cmp.

Section readers.
Context (fuel : nat) (me_dbflags : list Z) (t : MDB_txn) (cmp : MDB_cmp_func) `{!KeyOrder cmp}.
Context (Hfuel : (31 < fuel)%nat) (Hcmp : main_cmp t cmp).

Lemma opened_setup e meta : has_flag (md_flags (mm_main meta)) MDB_DUPSORT = false →
  opened (txn_setup MDB_TXN_RDONLY me_dbflags e meta t).2 MAIN_DBI (mm_main meta) cmp.
Proof using Hcmp. intros Hd. split; try done. by eexists. Qed.

Lemma read_main_at e meta V es cs key v0 :
  1 < me_psize e → txn_meta e = Ok meta → has_flag (me_flags e) MDB_FATAL_ERROR = false →
  u64 (mm_last_pg meta + 1) ≤ me_maxpg e → has_flag (md_flags (mm_main meta)) MDB_DUPSORT = false →
  spared (me_psize e) (u64 (mm_last_pg meta + 1)) cs (me_file e) V → version V cmp (mm_main meta) es →
  key_ok key →
  read_main fuel me_dbflags t (val key) v0 e = Ok (lookup_got es key).
Proof using Hfuel Hcmp.
  intros Hps Hm Hfl Hmax Hd S Hv Hk. unfold read_main, reader_begin. rewrite Hm. cbn [mbind res_bind].
  pose proof (opened_setup e meta Hd) as Ho. unfold txn_setup in Ho |- *. cbn [snd] in Ho. rewrite Hfl.
  rewrite (proj2 (Z.ltb_ge _ _)) by done. cbn [mbind res_bind]. change (negb (MDB_SUCCESS =? 0)) with false. cbn iota.
  match goal with |- context [MkSt ?m0 ?t0 _ _ _] => set (m1 := m0); set (t1 := t0) in * end.
  rewrite (mdb_get_lookup fuel (mret 0) m1 t1 cmp MAIN_DBI (mm_main meta) Ho es key v0); try done; [lia|].
  eapply version_holds; [done| |exact Hv]. by eapply spared_visible.
Qed.
End readers.

(** ** A transaction that commits *)

(** A writer at the end of [mdb_txn_commit]: its meta pages, and its dirty pages, none of
    which is a meta page; the last version, and its own, fit into the map. *)
Record ready (e : MDB_env) (W : Z) (txn : MDB_txn) (prev old : MDB_meta) (free main : MDB_db)
    (dl : list (option ID2)) (h : gmap Z page) (todo : list Dirty) (x : Z) (B : list (option ID2)) : Prop := Ready {
  ry_ok : commit_ok e W txn prev old free main;
  ry_list : dirty_list (me_psize e) dl h todo x B;
  ry_pgs : ∀ d, d ∈ todo → NUM_METAS ≤ d_pg d;
  ry_mode : has_flag (me_flags e) MDB_WRITEMAP = false ∧ has_flag (me_flags e) MDB_RDONLY = false ∧
    has_flag (me_flags e) MDB_FATAL_ERROR = false;
  ry_next : 1 ≤ mt_next_pgno txn ≤ me_maxpg e ∧ 0 ≤ mm_last_pg prev < me_maxpg e ∧ me_maxpg e < 2 ^ 63;
  ry_dup : has_flag (md_flags (mm_main prev)) MDB_DUPSORT = false ∧ has_flag (md_flags main) MDB_DUPSORT = false }.

(** What the file has before the commit is on the disk. *)
Definition on_disk (e : MDB_env) : MDB_env := set_disk e (me_file e).

(** The files at the points of a commit: those that other processes see, and those that are
    found after the machine has stopped.  A commit that is stopped is a run of [commit_tail]
    whose calls fail without effect from there on. *)
Inductive commit_point (e : MDB_env) (W : Z) (txn : MDB_txn) (dl : list (option ID2)) (h : gmap Z page) : bytes → Prop :=
| point_seen io sync msync answers room dpages rc e' r :
    Forall io_ok io → back_ok answers → commit_tail io sync msync answers dl h room dpages W txn (on_disk e) = Ok (rc, e', r) →
    commit_point e W txn dl h (me_file e')
| point_crash io sync msync answers room dpages rc e' r f :
    Forall io_ok io → back_ok answers → commit_tail io sync msync answers dl h room dpages W txn (on_disk e) = Ok (rc, e', r) →
    crash_file (me_psize e) (me_disk e') (me_file e') f → commit_point e W txn dl h f.

Lemma crash_confined psize cs b f f0 f1 f' :
  Z.of_nat (length b) = 2 * psize → confined (cs ++ [(0%nat, b)]) f f0 → confined (cs ++ [(0%nat, b)]) f f1 →
  crash_file psize f0 f1 f' → confined (cs ++ [(0%nat, b)]) f f'.
Proof.
  intros Hb [L0 C0] [L1 C1] [HL _ HR]. split; [lia|]. intros o Ho Hc. pose proof Hc as [_ [Hm _]%Forall_cons]%Forall_app.
  unfold inside in Hm. cbn [fst snd] in Hm. destruct (HR o) as [-> | ->]; [lia|by apply C0|by apply C1].
Qed.

Lemma F_ISSET_pow2 f k : 0 ≤ k → F_ISSET f (2 ^ k) = has_flag f (2 ^ k).
Proof.
  intros Hk. rewrite has_flag_pow2 by done. unfold F_ISSET. destruct (Z.testbit f k) eqn:E.
  - apply Z.eqb_eq, Z.bits_inj'. intros i Hi. rewrite Z.land_spec. destruct (decide (i = k)) as [->|N]; [by rewrite E|].
    by rewrite Z.pow2_bits_false, andb_false_r.
  - apply Z.eqb_neq. intros H. apply (f_equal (λ z, Z.testbit z k)) in H. rewrite Z.land_spec, E, Z.pow2_bits_true in H by done. done.
Qed.

(** The flags that leave syncing to the caller. *)
Definition sync_flags : Z := Z.lor MDB_NOSYNC MDB_NOMETASYNC.

Lemma synced f : has_flag f sync_flags = false → has_flag f MDB_NOSYNC = false.
Proof.
  unfold has_flag, sync_flags. rewrite Z.land_lor_distr_r, !negb_false_iff, !Z.eqb_eq. by intros [? _]%Z.lor_eq_0_iff.
Qed.

Lemma commit_ok_disk e W txn prev old free main d :
  commit_ok e W txn prev old free main → commit_ok (set_disk e d) W txn prev old free main.
Proof. by intros []. Qed.

Section commit.
Context {e : MDB_env} {W : Z} {txn : MDB_txn} {prev old : MDB_meta} {free main : MDB_db}.
Context {dl : list (option ID2)} {h : gmap Z page} {todo : list Dirty} {x : Z} {B : list (option ID2)}.
Context (Hrd : ready e W txn prev old free main dl h todo x B).
Abbreviation psize := (me_psize e).
Abbreviation chunks := (d_chunk (me_psize e) <$> writes todo).

Lemma ready_psize : METABUF_SIZE ≤ psize ∧ 1 < psize.
Proof using Hrd. destruct (ry_ok _ _ _ _ _ _ _ _ _ _ _ _ Hrd) as [Hp _ _ _ _ _ _]. unfold METABUF_SIZE, META_SIZE, PAGEHDRSZ in *. lia. Qed.

Lemma chunks_behind : Forall (λ c : chunk, (Z.to_nat (2 * psize) ≤ c.1)%nat) chunks.
Proof using Hrd.
  destruct ready_psize as [_ Hp]. rewrite Forall_fmap, Forall_forall. intros d Hd.
  pose proof (ry_pgs _ _ _ _ _ _ _ _ _ _ _ _ Hrd d (writes_in _ _ Hd)) as H. unfold NUM_METAS in H. cbn. nia.
Qed.

(** A run of [commit_tail]: it ends before the meta page is written, or in
    [mdb_env_write_meta]. *)
Lemma commit_run io sync msync answers room dpages rc e' r :
  Forall io_ok io → commit_tail io sync msync answers dl h room dpages W txn (on_disk e) = Ok (rc, e', r) →
  confined chunks (me_file e) (fd_file r) ∧ commit_ok (set_file e (fd_file r)) W txn prev old free main ∧
  (rc ≠ 0 ∧ me_disk e' = me_file e ∧ me_file e' = fd_file r ∨
   Forall (present (fd_file r)) chunks ∧ ∃ d, (d = me_file e ∨ d = fd_file r) ∧ (has_flag (me_flags e) MDB_NOSYNC = false → d = fd_file r) ∧
     mdb_env_write_meta msync answers W txn (set_disk (set_file e (fd_file r)) d) = Ok (rc, e')).
Proof using Hrd.
  destruct ready_psize as [_ Hp]. destruct (ry_mode _ _ _ _ _ _ _ _ _ _ _ _ Hrd) as (Hw & Hr & _).
  pose proof (ry_list _ _ _ _ _ _ _ _ _ _ _ _ Hrd) as L. pose proof (ry_ok _ _ _ _ _ _ _ _ _ _ _ _ Hrd) as Hok.
  intros Hio. unfold commit_tail. cbn [me_psize me_flags me_file on_disk set_disk].
  destruct (mdb_page_flush psize (me_flags e) 0 io dl h room dpages (me_file e)) as [r1| | |] eqn:E; try done. cbn [mbind res_bind].
  destruct (page_flush_safe psize Hp _ dl h todo x B io room dpages _ r1 L Hw Hio E) as [C Pr].
  pose proof (commit_ok_confined _ _ _ _ _ _ _ _ _ Hok C chunks_behind) as Hok1.
  destruct (Z.eqb_spec (fd_rc r1) 0) as [E0|N]; cbn [negb]; [|intros [= <- <- <-]; split; [done|]; split; [done|]; by left].
  specialize (Pr E0). unfold mdb_env_sync. cbn [me_flags me_file set_file set_disk on_disk]. rewrite Hr, Hw. cbn [andb negb orb].
  rewrite (F_ISSET_pow2 (me_flags e) 16 ltac:(done) : F_ISSET (me_flags e) MDB_NOSYNC = has_flag (me_flags e) MDB_NOSYNC). destruct (has_flag (me_flags e) MDB_NOSYNC) eqn:Hns; cbn [negb].
  - change (negb (0 =? 0)) with false. cbv beta iota.
    destruct (mdb_env_write_meta _ _ _ _ _) as [[rc1 e1]| | |] eqn:Em; try done. cbn [mbind res_bind]. intros [= <- <- <-].
    split; [done|]. split; [done|]. right. split; [done|]. exists (me_file e). split; [by left|]. done.
  - destruct (Z.eqb_spec sync 0) as [->|N]; cbn [andb negb].
    + destruct (mdb_env_write_meta _ _ _ _ _) as [[rc1 e1]| | |] eqn:Em; try done. cbn [mbind res_bind]. intros [= <- <- <-].
      split; [done|]. split; [done|]. right. split; [done|]. exists (fd_file r1). split; [by right|]. split; [done|]. exact Em.
    + intros [= <- <- <-]. split; [done|]. split; [done|]. left. done.
Qed.

(** The meta pages, as a part of the file. *)
Abbreviation metas f := (0%nat, take (Z.to_nat (NUM_METAS * psize)) f).

Lemma metas_length (f : bytes) : (length (me_file e) ≤ length f)%nat → Z.of_nat (length (take (Z.to_nat (NUM_METAS * psize)) f)) = 2 * psize.
Proof using Hrd.
  intros Hl. destruct ready_psize as [Hp _]. pose proof (ry_ok _ _ _ _ _ _ _ _ _ _ _ _ Hrd) as [_ [Hf _] _ _ _ _ _].
  unfold METABUF_SIZE, META_SIZE, PAGEHDRSZ in Hp. rewrite length_take. unfold NUM_METAS. lia.
Qed.

(** Writing the record, or the old number, is within the meta pages. *)
Lemma record_confined (f1 bs : bytes) : confined chunks (me_file e) f1 → commit_ok (set_file e f1) W txn prev old free main → (length bs ≤ 120)%nat →
  confined (chunks ++ [metas (me_file e)]) (me_file e) (file_write f1 (meta_off psize (toggle W) + MAPSIZE_OFF) bs).
Proof using Hrd.
  intros [L C] Hok1 Hb. pose proof (record_outside Hok1 bs) as Ho. cbn [me_psize me_file set_file] in Ho.
  pose proof (metas_length (me_file e) (le_n _)) as Hm. destruct ready_psize as [_ Hp].
  assert (HL : length (file_write f1 (meta_off psize (toggle W) + MAPSIZE_OFF) bs) = length f1).
  { apply (Ho (length f1) Hb). pose proof (ry_ok _ _ _ _ _ _ _ _ _ _ _ _ Hrd) as [_ [Hf _] _ _ _ _ _].
    destruct (toggle_cases W) as [(E & _)|(E & _)]; rewrite E; lia. }
  split; [lia|]. intros o Hlt [Hc [Hin _]%Forall_cons]%Forall_app. unfold inside in Hin. cbn [fst snd] in Hin.
  rewrite (proj2 (Ho o Hb ltac:(destruct (toggle_cases W) as [(E & _)|(E & _)]; rewrite E; lia))). by apply C.
Qed.

Lemma weaken_metas f f' : confined chunks f f' → confined (chunks ++ [metas (me_file e)]) f f'.
Proof using Type. apply confined_weaken. by intros o [? _]%Forall_app. Qed.

(** Whatever a commit does is done to the pages it writes and to the meta pages. *)
Lemma point_confined f : commit_point e W txn dl h f → confined (chunks ++ [metas (me_file e)]) (me_file e) f.
Proof using Hrd.
  destruct ready_psize as [_ Hp]. destruct (ry_mode _ _ _ _ _ _ _ _ _ _ _ _ Hrd) as (Hw & _).
  assert (Hrun : ∀ io sync msync answers room dpages rc e' r, Forall io_ok io → back_ok answers →
    commit_tail io sync msync answers dl h room dpages W txn (on_disk e) = Ok (rc, e', r) →
    confined (chunks ++ [metas (me_file e)]) (me_file e) (me_file e') ∧ confined (chunks ++ [metas (me_file e)]) (me_file e) (me_disk e')).
  { intros io sync msync answers room dpages rc e' r Hio Hb E.
    destruct (commit_run _ _ _ _ _ _ _ _ _ Hio E) as (C & Hok1 & [(_ & -> & ->)|(_ & d & Hd & Hsy & Em)]); [by split; [apply weaken_metas|]|].
    pose proof (commit_ok_disk _ _ _ _ _ _ _ d Hok1) as Hok2.
    destruct (write_meta_run Hok2 msync answers rc e' Hw Hb Em) as (Hf & _ & Hns & Hs). 
    assert (Hd1 : confined (chunks ++ [metas (me_file e)]) (me_file e) d) by (destruct Hd as [-> | ->]; [done|by apply weaken_metas]).
    assert (Hk : ∀ k, confined (chunks ++ [metas (me_file e)]) (me_file e) (torn (set_disk (set_file e (fd_file r)) d) W txn prev free main k)).
    { intros k. apply record_confined; [done|done|]. destruct (commit_data_split (set_file e (fd_file r)) W txn prev free main) as (_ & _ & Hlen).
      rewrite length_take. change (commit_data (set_disk _ _)) with (commit_data (set_file e (fd_file r))). lia. }
    split.
    - destruct Hf as [[k ->]| ->]; [done|]. by apply record_confined.
    - destruct (has_flag (me_flags e) (Z.lor MDB_NOSYNC MDB_NOMETASYNC)) eqn:Hfl; [by rewrite (Hns Hfl)|].
      destruct (Hs (Hsy (synced _ Hfl)) Hfl) as [[k ->] _]. apply Hk. }
  intros [io sync msync answers room dpages rc e' r Hio Hb E|io sync msync answers room dpages rc e' r f' Hio Hb E Hc].
  - by apply (Hrun io sync msync answers room dpages rc e' r).
  - destruct (Hrun io sync msync answers room dpages rc e' r Hio Hb E) as [C1 C0]. eapply crash_confined; [|exact C0|exact C1|exact Hc].
    by apply metas_length.
Qed.

(** A version that the transaction spares is there at every point of its commit. *)
Lemma spared_point next V f : spared psize next chunks (me_file e) V → commit_point e W txn dl h f →
  spared psize next chunks f V.
Proof using Hrd.
  destruct ready_psize as [_ Hp]. intros S C%point_confined n p Hn. destruct (S n p Hn) as (H0 & H2 & H3 & P & D). do 3 (split; [done|]).
  split; [|done]. eapply present_confined; [exact P|exact C|]. apply Forall_app. split; [done|]. constructor; [|done].
  pose proof (metas_length (me_file e) (le_n _)) as Hm. intros o Ho Ho'. unfold inside, page_chunk in *. cbn [fst snd] in *. unfold NUM_METAS in *. nia.
Qed.

(** Before the sync any of the bytes written may be on the disk. *)
Lemma crash_pages f1 f : confined chunks (me_file e) f1 → crash_file psize (me_file e) f1 f → confined chunks (me_file e) f.
Proof using Hrd.
  destruct ready_psize as [_ Hp]. intros [L C] [HL HM HR]. split; [lia|]. intros o Ho Hc. specialize (C o Ho Hc).
  destruct (decide (o < Z.to_nat (2 * psize))%nat) as [H2|H2]; [|destruct (HR o ltac:(lia)); congruence].
  assert (Hj : ∃ j, (j = 0 ∨ j = 1) ∧ (Z.to_nat (psize * j) ≤ o < Z.to_nat (psize * (j + 1)))%nat).
  { destruct (decide (o < Z.to_nat psize)%nat); [exists 0|exists 1]; (split; [by auto|lia]). }
  destruct Hj as (j & Hj & Hin). destruct (HM j Hj) as [H|H]; rewrite (H o Hin); congruence.
Qed.

(** What a crash leaves of a commit that syncs: its pages in part, or all of them, and then
    the meta page in part, or with the old number again. *)
Lemma commit_crash io sync msync answers room dpages rc e' r f :
  Forall io_ok io → back_ok answers → Forall answered answers →
  commit_tail io sync msync answers dl h room dpages W txn (on_disk e) = Ok (rc, e', r) →
  f = me_file e' ∨ has_flag (me_flags e) sync_flags = false ∧ crash_file psize (me_disk e') (me_file e') f →
  confined chunks (me_file e) f ∧ rc ≠ 0 ∨
  ∃ f1, confined chunks (me_file e) f1 ∧ Forall (present f1) chunks ∧ commit_ok (set_file e f1) W txn prev old free main ∧
    let old_found := mdb_env_pick_meta (set_file e f) = Ok (other W) ∧ me_metas (set_file e f) (other W) = Ok prev in
    ((∃ k, f = torn (set_file e f1) W txn prev free main k) ∧
      (old_found ∧ rc ≠ 0 ∨ mdb_env_pick_meta (set_file e f) = Ok (toggle W) ∧
        me_metas (set_file e f) (toggle W) = Ok (committed (set_file e f1) W txn prev old free main)) ∨
     old_found ∧ rc ≠ 0).
Proof using Hrd.
  intros Hio Hb Ha E Hcr. destruct (ry_mode _ _ _ _ _ _ _ _ _ _ _ _ Hrd) as (Hw & _).
  destruct (commit_run _ _ _ _ _ _ _ _ _ Hio E) as (C & Hok1 & [(Hrc & Ed & Ef)|(Pr & d & _ & Hsy & Em)]).
  { left. split; [|done]. rewrite Ed, Ef in Hcr. destruct Hcr as [->|[_ Hcr]]; [done|by apply crash_pages in Hcr]. }
  right. exists (fd_file r). do 3 (split; [done|]).
  pose proof (commit_ok_disk _ _ _ _ _ _ _ d Hok1) as Hok2.
  destruct (write_meta_run Hok2 msync answers rc e' Hw Hb Em) as (Hf & H0 & _ & Hs).
  assert (Hcase : (∃ k', f = torn (set_file e (fd_file r)) W txn prev free main k') ∨
    f = backed (e:=set_disk (set_file e (fd_file r)) d) (W:=W) (prev:=prev) (old:=old) (free:=free) (main:=main)).
  { destruct Hcr as [->|[Hfl Hcr]]; [exact Hf|]. destruct (Hs (Hsy (synced _ Hfl)) Hfl) as [[k Ek] _].
    rewrite Ek in Hcr. by eapply (crash_torn Hok2). }
  assert (Hzero : rc = 0 → f = torn (set_file e (fd_file r)) W txn prev free main 120).
  { intros Hr0. destruct Hcr as [->|[Hfl Hcr]]; [exact (H0 Hr0 Ha)|]. destruct (Hs (Hsy (synced _ Hfl)) Hfl) as [_ Hk0].
    rewrite (Hk0 Hr0 Ha), (H0 Hr0 Ha) in Hcr.
    destruct (commit_data_split (set_file e (fd_file r)) W txn prev free main) as (_ & _ & Hlen).
    assert (Hl : (length (take 120 (commit_data (set_file e (fd_file r)) W txn prev free main)) ≤ 120)%nat) by (rewrite length_take; lia).
    by destruct (crash_record Hok2 _ _ f Hl Hl Hcr). }
  cbn zeta. destruct (decide (rc = 0)) as [Hr0|Hr0].
  - left. split; [exists 120%nat; by apply Hzero|]. right. rewrite (Hzero Hr0).
    destruct (torn_committed _ _ _ _ _ _ _ Hok1) as [Ht Ho]. split; [|exact Ht]. exact (pick_new _ _ _ _ _ _ _ _ Hok1 Ht Ho).
  - destruct Hcase as [[k' ->]| ->]; [|right; split; [exact (backed_found Hok2)|done]].
    left. split; [by exists k'|]. destruct (torn_found Hok1 k') as [H|H]; [left; split; [exact H|done]|right; exact H].
Qed.

(** The version of the transaction is there when the meta page can be written. *)
Lemma pending_torn f1 k V : pending psize (mt_next_pgno txn) todo (me_file e) V →
  confined chunks (me_file e) f1 → Forall (present f1) chunks → commit_ok (set_file e f1) W txn prev old free main →
  spared psize (mt_next_pgno txn) [] (torn (set_file e f1) W txn prev free main k) (flushed todo V).
Proof using Hrd.
  destruct ready_psize as [_ Hp]. pose proof (ry_list _ _ _ _ _ _ _ _ _ _ _ _ Hrd) as L. intros Pd C Pr Hok1.
  destruct (flushed_spared psize Hp dl h todo x B _ _ f1 V L Pd C Pr) as [S _].
  eapply (spared_metas psize Hp); [|exact S|exact (torn_confined _ _ _ _ _ _ _ k Hok1)].
  rewrite length_take. unfold NUM_METAS. cbn [me_psize set_file]. lia.
Qed.

Lemma flushed_version V cmp `{!KeyOrder cmp} es : pending psize (mt_next_pgno txn) todo (me_file e) V → version V cmp main es →
  ∀ f1, confined chunks (me_file e) f1 → Forall (present f1) chunks → version (flushed todo V) cmp main es.
Proof using Hrd.
  destruct ready_psize as [_ Hp]. pose proof (ry_list _ _ _ _ _ _ _ _ _ _ _ _ Hrd) as L. intros Pd Hv f1 C Pr.
  eapply version_unflagged; [|exact Hv]. by eapply (flushed_spared psize Hp).
Qed.

(** The environment that is opened over what a crash left. *)
Lemma reopened_at f i m : mdb_env_pick_meta (set_file e f) = Ok i → me_metas (set_file e f) i = Ok m →
  Z.land (mm_txnid m) 1 = i →
  ∃ e', reopened e f = Ok e' ∧ txn_meta e' = Ok m ∧ me_file e' = f ∧ me_psize e' = psize ∧ me_flags e' = me_flags e ∧
    me_maxpg e' = me_maxpg e.
Proof.
  intros Hi Hm Ht. unfold reopened, mdb_env_share_locks. destruct (me_txns e) as [[id n]|] eqn:E.
  - cbn [me_txns set_file]. rewrite E, Hi. cbn [mbind res_bind]. rewrite Hm. cbn [mbind res_bind].
    eexists. split; [done|]. split; [|done]. unfold txn_meta. cbn [me_txns set_mti_txnid set_file]. rewrite E.
    cbn [fmap option_fmap option_map]. rewrite Ht. exact Hm.
  - eexists. split; [done|]. split; [|done]. unfold txn_meta. cbn [me_txns set_file]. rewrite E, Hi. exact Hm.
Qed.

Lemma parity_prev : Z.land (mm_txnid prev) 1 = other W.
Proof using Hrd.
  destruct (ry_ok _ _ _ _ _ _ _ _ _ _ _ _ Hrd) as [_ _ [_ ->] _ _ _ _].
  assert (E : ∀ z, Z.land z 1 = z mod 2) by (intros z; change 1 with (Z.ones 1); apply Z.land_ones; lia).
  rewrite E. destruct (toggle_cases W) as [(_ & -> & H)|(_ & -> & H)]; Z.to_euclidean_division_equations; lia.
Qed.

Lemma next_prev : u64 (mm_last_pg prev + 1) = mm_last_pg prev + 1.
Proof using Hrd. destruct (ry_next _ _ _ _ _ _ _ _ _ _ _ _ Hrd) as (? & ? & ?). apply u64_small. lia. Qed.

Lemma next_new : u64 (new_last_pg txn + 1) = mt_next_pgno txn.
Proof using Hrd.
  destruct (ry_next _ _ _ _ _ _ _ _ _ _ _ _ Hrd) as (? & ? & ?). unfold new_last_pg. rewrite (u64_small (_ - 1)), u64_small by lia. lia.
Qed.
End commit.

(** ** The claims *)

Section claims.
Context (fuel : nat) (cmp : MDB_cmp_func) `{!KeyOrder cmp}.

(** C6.  A commit is safe against crashes: wherever [commit_tail] is stopped, while pages are
    written, in [mdb_env_sync] or in [mdb_env_write_meta], the next process to open the file
    reads for every key what the version before the transaction has, or for every key what
    the transaction had; and what it had when the commit has returned 0.  A stop is a run
    whose calls fail without effect from there on.  The process may stop, or, if the flags
    MDB_NOSYNC and MDB_NOMETASYNC are not set, the machine: of the bytes that were written
    to pages after the last sync each may be on the disk or not. *)
Theorem commit_crash_safe e W txn prev old free main dl h todo x B V0 es0 V1 es1 dbflags t
    io sync msync answers room dpages rc e1 r f :
  (31 < fuel)%nat → ready e W txn prev old free main dl h todo x B → main_cmp t cmp →
  spared (me_psize e) (mm_last_pg prev + 1) (d_chunk (me_psize e) <$> writes todo) (me_file e) V0 →
  version V0 cmp (mm_main prev) es0 →
  pending (me_psize e) (mt_next_pgno txn) todo (me_file e) V1 → version V1 cmp main es1 →
  Forall io_ok io → back_ok answers → Forall answered answers →
  commit_tail io sync msync answers dl h room dpages W txn (on_disk e) = Ok (rc, e1, r) →
  f = me_file e1 ∨ has_flag (me_flags e) sync_flags = false ∧ crash_file (me_psize e) (me_disk e1) (me_file e1) f →
  ∃ e', reopened e f = Ok e' ∧
    ((∀ key v0, key_ok key → read_main fuel dbflags t (val key) v0 e' = Ok (lookup_got es0 key)) ∧ rc ≠ 0 ∨
     (∀ key v0, key_ok key → read_main fuel dbflags t (val key) v0 e' = Ok (lookup_got es1 key))).
Proof.
  intros Hf Hrd Hc S0 Hv0 Pd Hv1 Hio Hb Ha E Hcr. destruct (ready_psize Hrd) as [_ Hp]. pose proof (ry_ok _ _ _ _ _ _ _ _ _ _ _ _ Hrd) as Hok.
  assert (Hpt : commit_point e W txn dl h f).
  { destruct Hcr as [->|[_ Hcr]]; [by eapply point_seen|by eapply point_crash]. }
  pose proof (spared_point Hrd _ V0 f S0 Hpt) as S0'.
  destruct (ry_mode _ _ _ _ _ _ _ _ _ _ _ _ Hrd) as (_ & _ & Hfl). destruct (ry_dup _ _ _ _ _ _ _ _ _ _ _ _ Hrd) as [Hd0 Hd1].
  destruct (ry_next _ _ _ _ _ _ _ _ _ _ _ _ Hrd) as (Hn1 & Hn0 & _).
  assert (Old : mdb_env_pick_meta (set_file e f) = Ok (other W) ∧ me_metas (set_file e f) (other W) = Ok prev →
    ∃ e', reopened e f = Ok e' ∧ ∀ key v0, key_ok key →
      read_main fuel dbflags t (val key) v0 e' = Ok (lookup_got es0 key)).
  { intros [Hi Hm]. destruct (reopened_at f _ _ Hi Hm (parity_prev Hrd)) as (e' & Er & Em & Ef & Ep & Efl & Emx).
    exists e'. split; [done|]. intros key v0 Hk.
    eapply (read_main_at fuel dbflags t cmp Hf Hc e' prev V0 es0); rewrite ?Ep, ?Ef, ?Efl, ?Emx, ?(next_prev Hrd); try done; lia. }
  destruct (commit_crash Hrd _ _ _ _ _ _ _ _ _ f Hio Hb Ha E Hcr) as [(C & Hrc)|(f1 & C & Pr & Hok1 & [[(k & Ek) Hfound]|[Hfound Hrc]])].
  - pose proof (commit_ok_confined _ _ _ _ _ _ _ _ _ Hok C (chunks_behind Hrd)) as Hokf.
    destruct Old as (e' & Er & R); [|exists e'; split; [done|]; by left].
    split; [|apply Hokf]. eapply (pick_other e W txn prev old free main f old Hok); [apply Hokf|apply Hokf|by right].
  - destruct Hfound as [[Hfound Hrc]|[Hi Hm]]; [destruct (Old Hfound) as (e' & Er & R); exists e'; split; [done|]; by left|].
    destruct (reopened_at (e:=e) f _ _ Hi Hm eq_refl) as (e' & Er & Em & Ef & Ep & Efl & Emx).
    exists e'. split; [done|]. right. intros key v0 Hk.
    pose proof (pending_torn Hrd f1 k V1 Pd C Pr Hok1) as S1. rewrite <-Ek in S1.
    eapply (read_main_at fuel dbflags t cmp Hf Hc e' _ (flushed todo V1) es1); rewrite ?Ep, ?Ef, ?Efl, ?Emx;
      [exact Hp|exact Em|done| |done| | |exact Hk]; cbn [committed mm_last_pg mm_main]; rewrite ?(next_new Hrd).
    + lia.
    + exact S1.
    + by eapply (flushed_version Hrd).
  - destruct (Old Hfound) as (e' & Er & R). exists e'. split; [done|]. by left.
Qed.

(** C8.  Readers are isolated: a reader of any version whose pages the committing transaction
    has not copied over gets, at every point of the commit and for every sequence of cursor
    moves, what the specification [moves] gives on the entries of its own version. *)
Theorem snapshot_isolated e W txn prev old free main dl h todo x B V es db f t key ops gs :
  (31 < fuel)%nat → ready e W txn prev old free main dl h todo x B →
  opened t MAIN_DBI db cmp → has_flag (mt_flags t) MDB_TXN_RDONLY = true →
  spared (me_psize e) (mt_next_pgno t) (d_chunk (me_psize e) <$> writes todo) (me_file e) V → version V cmp db es →
  key_ok key → moves (cmp:=cmp) key es ops Unset = Some gs →
  commit_point e W txn dl h f →
  let m := MkMem f (me_psize e) ∅ in
  ∃ c', session fuel (mret 0) MAIN_DBI key ops (MkSt m t uninit_cursor None None) = Ok (gs, MkSt m t c' None None).
Proof.
  intros Hf Hrd Ho Hro S Hv Hk Hm Hpt m. destruct (ready_psize Hrd) as [_ Hp].
  pose proof (spared_point Hrd _ V f S Hpt) as S'.
  apply (session_run fuel (mret 0) m t cmp MAIN_DBI db Ho es key ops gs); [done|done| |done].
  eapply version_holds; [done| |exact Hv]. eapply spared_visible; [done|exact S'| |done].
  unfold has_flag in *. rewrite Z.land_lor_distr_r, negb_true_iff, Z.eqb_neq in *. intros [E _]%Z.lor_eq_0_iff. by apply Hro.
Qed.

(** C7.  A commit publishes: what the transaction itself reads, from its dirty pages and from
    the map, is what every reader gets that starts when [mdb_txn_commit] has written its
    pages, waited for the disk, and written the meta page; and it returns 0. *)
Theorem commit_publishes e W txn prev old free main dl h todo x B V1 es1 io msync eintr rest room dpages dbflags t :
  (33 ≤ fuel)%nat → ready e W txn prev old free main dl h todo x B → main_cmp t cmp →
  opened txn MAIN_DBI main cmp → TXN_DBI_EXIST txn MAIN_DBI DB_USRVALID = true →
  has_flag (mt_flags txn) (Z.lor MDB_TXN_RDONLY MDB_TXN_WRITEMAP) = false → mt_lists txn = [(None, dl)] →
  StronglySorted (λ a b, d_pg a < d_pg b) todo → Z.of_nat (length todo) < 2 ^ 32 - 1 →
  pending (me_psize e) (mt_next_pgno txn) todo (me_file e) V1 → version V1 cmp main es1 →
  Forall unbroken io → 2 * (Z.of_nat (length todo) + 1) ≤ budget io → Forall interrupted eintr →
  ∃ e' r, commit_tail io 0 msync (eintr ++ Wrote 120 :: rest) dl h room dpages W txn e = Ok (MDB_SUCCESS, e', r) ∧
    ∀ key v0, key_ok key →
      let s := MkSt (MkMem (me_file e) (me_psize e) h) txn uninit_cursor None None in
      mdb_get fuel (mret 0) MAIN_DBI (Some (val key)) (Some v0) s = Ok (lookup_got es1 key, s) ∧
      read_main fuel dbflags t (val key) v0 e' = Ok (lookup_got es1 key).
Proof.
  intros Hf Hrd Hc Ho Hex Hro Hl Hs Hlen Pd Hv1 U Hb Hint. destruct (ready_psize Hrd) as [_ Hp].
  pose proof (ry_ok _ _ _ _ _ _ _ _ _ _ _ _ Hrd) as Hok. pose proof (ry_list _ _ _ _ _ _ _ _ _ _ _ _ Hrd) as L.
  destruct (ry_mode _ _ _ _ _ _ _ _ _ _ _ _ Hrd) as (Hw & Hr & Hfl). destruct (ry_dup _ _ _ _ _ _ _ _ _ _ _ _ Hrd) as [Hd0 Hd1].
  destruct (ry_next _ _ _ _ _ _ _ _ _ _ _ _ Hrd) as (Hn1 & _ & Hn2).
  destruct (page_flush_ends (me_psize e) Hp (me_flags e) dl h todo x B io room dpages (me_file e) L Hw U Hb) as (r & Cl & E & R0 & _).
  assert (Hio : Forall io_ok io) by (eapply Forall_impl; [exact U|]; intros []; cbn; [done..|by intros ->]).
  destruct (page_flush_safe _ Hp _ dl h todo x B io room dpages _ r L Hw Hio E) as [C Pr]. specialize (Pr R0).
  pose proof (commit_ok_confined _ _ _ _ _ _ _ _ _ Hok C (chunks_behind Hrd)) as Hok1.
  pose proof (commit_ok_disk _ _ _ _ _ _ _ (if F_ISSET (me_flags e) MDB_NOSYNC then me_disk e else fd_file r) Hok1) as Hok2.
  destruct (write_meta_spec _ _ _ _ _ _ _ msync eintr rest Hok2 Hint (or_introl Hw)) as (d & Ew & Hi & Hm & _).
  eexists _, r. split.
  { unfold commit_tail. rewrite E. cbn [mbind res_bind]. rewrite R0. change (negb (0 =? 0)) with false. cbn iota.
    assert (Es : mdb_env_sync false 0 (set_file e (fd_file r))
      = (0, set_disk (set_file e (fd_file r)) (if F_ISSET (me_flags e) MDB_NOSYNC then me_disk e else fd_file r))).
    { unfold mdb_env_sync. cbn [me_flags set_file]. rewrite Hr, Hw. by destruct (F_ISSET (me_flags e) MDB_NOSYNC); [destruct e|]. }
    rewrite Es. change (negb (0 =? 0)) with false. cbn iota. rewrite Ew. cbn [mbind res_bind]. reflexivity. }
  intros key v0 Hk s. split.
  - apply (mdb_get_lookup fuel (mret 0) (st_mem s) txn cmp MAIN_DBI main Ho es1 key v0 s); try done; [lia|].
    eapply version_holds; [lia| |exact Hv1]. eapply (pending_visible (me_psize e) Hp fuel dl h todo x B); try done. lia.
  - pose proof (pending_torn Hrd (fd_file r) 120 V1 Pd C Pr Hok1) as S1.
    rewrite <-(next_new Hrd) in S1. set (meta := committed (set_file e (fd_file r)) W txn prev old free main) in *.
    eapply (read_main_at fuel dbflags t cmp ltac:(lia) Hc _ meta (flushed todo V1) es1); [exact Hp| |exact Hfl| |done|exact S1| |exact Hk].
    + unfold txn_meta. cbn [me_txns set_mti_txnid set_disk set_file]. destruct (me_txns e) as [[id n]|] eqn:Et.
      * cbn [fmap option_fmap option_map]. exact Hm.
      * rewrite Hi. cbn [mbind res_bind]. exact Hm.
    + change (u64 (new_last_pg txn + 1) ≤ me_maxpg e). rewrite (next_new Hrd). lia.
    + by eapply (flushed_version Hrd).
Qed.
End claims.

(** ** Witnesses *)

Module Example.

(** Pages of 152 bytes.  The first commit put the leaf 2 with one entry into the file; the
    second transaction has copied it to page 3 and added an entry. *)
Definition ns0 : list node := [leaf_node [97] 1 0 [1] []].
Definition ns1 : list node := [leaf_node [97] 1 0 [1] []; leaf_node [98] 1 0 [2] []].
Definition es0 : entries := [([97], [1])].
Definition es1 : entries := [([97], [1]); ([98], [2])].

Definition p2 : page := Reads.Example.page_of_nodes 2 P_LEAF 142 ns0.
Definition p3 : page := Reads.Example.page_of_nodes 3 0x12 132 ns1.

Definition free : MDB_db := MkDb 152 8 0 0 0 0 0 P_INVALID.
Definition main0 : MDB_db := MkDb 0 0 1 0 1 0 1 2.
Definition main1 : MDB_db := MkDb 0 0 1 0 1 0 2 3.
Definition old : MDB_meta := MkMeta MDB_MAGIC MDB_DATA_VERSION 0 1048576 free (MkDb 0 0 0 0 0 0 0 P_INVALID) 1 0.
Definition prev : MDB_meta := MkMeta MDB_MAGIC MDB_DATA_VERSION 0 1048576 free main0 2 1.
Definition file : bytes := meta_page 152 0 old ++ meta_page 152 1 prev ++ p2.
Definition e : MDB_env := MkEnv 0 152 4096 1048576 6898 126 4 16 66 4096 true (Some (1, 0)) file file.

Definition d : Dirty := MkDirty 3 500 (take 10 p3) 0x12 (drop 12 p3).
Definition dl : list (option ID2) := Some (MkID2 1 7) :: (d_entry <$> [d]) ++ [None].
Definition h : gmap Z page := {[ 500 := d_page d ]}.
Definition dbxs : list MDB_dbx := replicate 2 (MkDbx (MkVal 0 []) (Some Cmp_memn) None).
Definition txn : MDB_txn :=
  MkTxn 0 4 [(None, dl)] [free; main1] dbxs [DB_VALID; Z.lor DB_VALID DB_USRVALID] [0; 0] [0; 0] no_wtxn.

(** A reader of the first commit. *)
Definition reader : MDB_txn := (txn_setup MDB_TXN_RDONLY [0; 0] e prev (MkTxn 0 0 [] [] dbxs [] [] [] no_wtxn)).2.

Definition V0 : gmap Z page := {[ 2 := p2 ]}.
Definition V1 : gmap Z page := {[ 3 := d_page d ]}.

Lemma commits : commit_ok e 2 txn prev old free main1.
Proof.
  split.
  - by vm_compute.
  - split; [by vm_compute|]. apply Forall_forall. intros b Hb.
    assert (H : forallb (λ b, (0 <=? b) && (b <? 256))%bool (take (Z.to_nat (2 * 152)) file) = true) by (vm_compute; reflexivity).
    rewrite forallb_forall in H. apply list_elem_of_In in Hb. apply H in Hb. lia.
  - split; by vm_compute.
  - split; [by vm_compute|by left].
  - done.
  - done.
  - split; [done|]. split; [done|]. split; unfold db_ok; vm_compute; repeat split; discriminate.
Defined.

Lemma writer : ready e 2 txn prev old free main1 dl h [d] 7 [None].
Proof.
  split; [exact commits| | |done|by vm_compute|done].
  - split.
    + done.
    + intros x [->|[]%not_elem_of_nil]%elem_of_cons. apply lookup_singleton_eq.
    + apply NoDup_singleton.
    + apply Forall_cons. split; [|by apply Forall_nil].
      split; [done|unfold u16_ok; by vm_compute|vm_compute; lia|by vm_compute|by vm_compute|by vm_compute|by vm_compute].
    + intros x [->|[]%not_elem_of_nil]%elem_of_cons. done.
    + intros x x' [->|[]%not_elem_of_nil]%elem_of_cons [->|[]%not_elem_of_nil]%elem_of_cons. by intros [].
  - intros x [->|[]%not_elem_of_nil]%elem_of_cons. done.
Defined.

Lemma leaf_holds pgno fl upper ns : head_ok (MkHead (pgno :: replicate 9 0) fl (16 + 2 * Z.of_nat (length ns)) upper) →
  F_ISSET fl P_LEAF = true → F_ISSET fl P_LEAF2 = false → 16 + 2 * Z.of_nat (length ns) ≤ upper →
  upper + Z.of_nat (length (body ns)) < 65536 → Forall (node_ok true) ns →
  holds true (Reads.Example.page_of_nodes pgno fl upper ns) ns.
Proof.
  intros Hh H1 H2 Hu He Hn. eexists _, _, _, ns. split; [|split; [reflexivity|apply layout_snd]].
  split; cbn [h_flags h_lower h_upper]; try done.
  - by rewrite length_layout.
  - rewrite length_replicate. lia.
Defined.

Lemma one_leaf V n p ns es : V !! n = Some p → holds true p ns → IS_BRANCH p = Ok false → 1 < n < P_INVALID → es ≠ [] →
  Forall2 (v_entry V) ns es → ascending Cmp_memn 0 es.*1 → version V Cmp_memn (MkDb 0 0 1 0 1 0 (Z.of_nat (length es)) n) es.
Proof.
  intros Hp Hh Hb Hn He Hes Ha. right. exists 0%nat. split; [|split; [lia|done]]. split; [by apply Forall_forall|].
  exists ns. split; [by exists p|done].
Defined.

Lemma node_1 k v : node_ok true (leaf_node [k] 1 0 [v] []).
Proof. split; try (unfold u16_ok; vm_compute; split; (discriminate || reflexivity)). Defined.

Lemma version_0 : version V0 Cmp_memn main0 es0.
Proof.
  apply (one_leaf V0 2 p2 ns0 es0); [apply lookup_singleton_eq| |by vm_compute|done|done| |].
  - apply leaf_holds; [split; unfold u16_ok; vm_compute; (reflexivity || split; (discriminate || reflexivity))|done|done|by vm_compute|by vm_compute|].
    repeat (constructor; [apply node_1|]). constructor.
  - by repeat constructor.
  - split; [intros [|i] a _ Ha; [by injection Ha as <-|done]|by intros [|i] [|[|j]] a b H; try lia].
Defined.

Lemma version_1 : version V1 Cmp_memn main1 es1.
Proof.
  apply (one_leaf V1 3 (d_page d) ns1 es1); [apply lookup_singleton_eq| |by vm_compute|done|done| |].
  - apply (leaf_holds 3 0x12 132 ns1); [split; unfold u16_ok; vm_compute; (reflexivity || split; (discriminate || reflexivity))|done|done|by vm_compute|by vm_compute|].
    repeat (constructor; [apply node_1|]). constructor.
  - by repeat constructor.
  - by apply Reads.Example.ascending_2.
Defined.

Lemma page_2 : present file (page_chunk 152 2 p2) ∧ (length p2 = 152)%nat.
Proof.
  split; [|by vm_compute]. intros i x Hi. unfold page_chunk, file in *. cbn [fst snd] in *. rewrite (assoc_L (++)).
  rewrite lookup_app_r by (rewrite length_app, !length_meta_page by done; lia).
  rewrite length_app, !length_meta_page by done. rewrite <-Hi. f_equal. lia.
Defined.

Lemma spared_0 : spared 152 3 (d_chunk 152 <$> writes [d]) file V0.
Proof.
  intros n p Hp. unfold V0 in Hp. apply lookup_singleton_Some in Hp as [<- <-]. split; [done|]. split; [done|]. split; [done|]. split; [apply page_2|].
  apply Forall_cons. split; [|by apply Forall_nil]. intros o Ho Ho'. unfold inside, page_chunk, d_chunk in *. cbn [fst snd] in *.
  destruct page_2 as [_ E]. rewrite E in Ho. change (d_pg d) with 3 in Ho'. lia.
Defined.

Lemma pending_1 : pending 152 4 [d] file V1.
Proof.
  intros n p Hp. unfold V1 in Hp. apply lookup_singleton_Some in Hp as [<- <-]. split; [done|]. split; [done|]. split; [done|]. left. exists d.
  split; [by apply list_elem_of_singleton|done].
Defined.

Lemma main_cmp_0 t : mt_dbxs t = dbxs → main_cmp t Cmp_memn.
Proof. intros E. exists (MkDbx (MkVal 0 []) (Some Cmp_memn) None). by rewrite E. Defined.

(** The process is stopped when half of page 3 has been written. *)
Definition torn_file : bytes := file_write file (3 * 152) (take 70 (cleaned d)).

Lemma half_written : commit_point e 2 txn dl h torn_file.
Proof.
  destruct (commit_tail [IoErr EIO 70; IoAll] 0 0 [] dl h 10 [] 2 txn (on_disk e)) as [[[rc e'] r]| | |] eqn:E; [|vm_compute in E; discriminate..].
  assert (Ef : torn_file = me_file e') by (vm_compute in E; injection E as _ <- _; vm_compute; reflexivity). rewrite Ef.
  eapply (point_seen e 2 txn dl h [IoErr EIO 70; IoAll] 0 0 []); [by repeat constructor|done|exact E].
Defined.

(** The machine stops when the new meta page is on the disk up to the first byte of the
    number, and the pages are. *)
Lemma commit_crash_safe_witness :
  ∃ rc e1 r, commit_tail [IoAll; IoAll] 0 0 [Failed EIO 113; Failed EIO 0] dl h 10 [] 2 txn (on_disk e) = Ok (rc, e1, r) ∧
  ∃ e', reopened e (me_disk e1) = Ok e' ∧
    ((∀ key v0, key_ok key → read_main 40 [0; 0] reader (val key) v0 e' = Ok (lookup_got es0 key)) ∧ rc ≠ 0 ∨
     (∀ key v0, key_ok key → read_main 40 [0; 0] reader (val key) v0 e' = Ok (lookup_got es1 key))).
Proof.
  destruct (commit_tail [IoAll; IoAll] 0 0 [Failed EIO 113; Failed EIO 0] dl h 10 [] 2 txn (on_disk e)) as [[[rc e1] r]| | |] eqn:E;
    [|vm_compute in E; discriminate..]. exists rc, e1, r. split; [done|].
  eapply (commit_crash_safe 40 Cmp_memn e 2 txn prev old free main1 dl h [d] 7 [None] V0 es0 V1 es1 [0; 0] reader [IoAll; IoAll] 0 0 [Failed EIO 113; Failed EIO 0]);
    [lia|exact writer|by apply main_cmp_0|exact spared_0|exact version_0|exact pending_1|exact version_1|by repeat constructor| | |exact E|].
  - intros b [= <-]. left. cbn. lia.
  - by repeat constructor.
  - assert (El : length (me_disk e1) = length (me_file e1)) by (vm_compute in E; injection E as _ <- _; vm_compute; reflexivity).
    right. split; [done|]. constructor; [lia|by left|by left].
Defined.

(** A reader of the first commit reads all of its version while page 3 is half written. *)
Lemma snapshot_isolated_witness :
  ∃ c', session 40 (mret 0) MAIN_DBI [97] [MDB_FIRST; MDB_NEXT] (MkSt (MkMem torn_file 152 ∅) reader uninit_cursor None None)
    = Ok ([got true true ([97], [1]); code MDB_NOTFOUND], MkSt (MkMem torn_file 152 ∅) reader c' None None).
Proof.
  apply (snapshot_isolated 40 Cmp_memn e 2 txn prev old free main1 dl h [d] 7 [None] V0 es0 main0 torn_file reader);
    [lia|exact writer| |done|exact spared_0|exact version_0|done|vm_compute; reflexivity|exact half_written].
  split; try done; by eexists.
Defined.

Lemma commit_publishes_witness :
  ∃ e' r, commit_tail (IoErr EINTR 9 :: replicate 6 IoAll) 0 0 [Wrote 120] dl h 10 [] 2 txn e = Ok (MDB_SUCCESS, e', r) ∧
    ∀ key v0, key_ok key →
      let s := MkSt (MkMem (me_file e) (me_psize e) h) txn uninit_cursor None None in
      mdb_get 40 (mret 0) MAIN_DBI (Some (val key)) (Some v0) s = Ok (lookup_got es1 key, s) ∧
      read_main 40 [0; 0] reader (val key) v0 e' = Ok (lookup_got es1 key).
Proof.
  apply (commit_publishes 40 Cmp_memn e 2 txn prev old free main1 dl h [d] 7 [None] V1 es1 (IoErr EINTR 9 :: replicate 6 IoAll) 0 [] []);
    [lia|exact writer|by apply main_cmp_0| |done|done|done|by repeat constructor|done|exact pending_1|exact version_1| |by vm_compute|by apply Forall_nil].
  - split; try done; by eexists.
  - by repeat constructor.
Defined.
End Example.
