(* ===== verification/Nest.v ===== *)
(** * Nested transactions of LMDB (src/lib/lmdb/mdb.c)

    A write transaction inside another one: its start in [mdb_txn_begin], its end in
    [mdb_txn_end] when it is given up, and its commit in [mdb_txn_commit], which merges its
    lists of dirty, spilled, freed and loose pages into those of its parent, in place.  The
    cursors, which it shadows and gives back, are not part of the state.  Whether an
    allocation succeeds is an argument. *)

From S2P Require Import Prelude.
From S2P Require Import Lmdb Midl Page Tree Meta Flush.

Definition DB_NEW : Z := 0x04.

(** What a write transaction keeps: the numbers of the pages it freed, of those it spilled
    (shifted by one; the lowest bit is set when a page is back), its dirty pages with their
    addresses, how many more it may have, and the loose ones. *)
Record Wtxn : Type := MkWtxn {
  wt_flags : Z; wt_next_pgno : Z; wt_dbs : list MDB_db; wt_dbflags : list Z; wt_free_pgs : IDL;
  wt_spill_pgs : option IDL; wt_dirty_list : list (option ID2); wt_dirty_room : Z;
  wt_loose_pgs : list Z; wt_loose_count : Z }.

Definition set_wt_flags (t : Wtxn) (f : Z) : Wtxn :=
  MkWtxn f (wt_next_pgno t) (wt_dbs t) (wt_dbflags t) (wt_free_pgs t) (wt_spill_pgs t) (wt_dirty_list t)
    (wt_dirty_room t) (wt_loose_pgs t) (wt_loose_count t).

(** [MDB_pgstate]: the address of the array of the reusable pages, 0 when there is none,
    and the last record of the freeDB they came from. *)
Record Pgstate : Type := MkPgstate { mf_pghead : Z; mf_pglast : Z }.

(** What a transaction inside another one shares with it in [MDB_env]: the flags, the page
    state, the arrays that it and the saved page states point to, the memory of the dirty
    pages, and the pages kept for reuse. *)
Record Nenv : Type := MkNenv {
  ne_flags : Z; ne_pgstate : Pgstate; ne_midls : gmap Z IDL; ne_heap : gmap Z page; ne_dpages : list Z }.

Definition set_pgstate (e : Nenv) (pg : Pgstate) (m : gmap Z IDL) : Nenv :=
  MkNenv (ne_flags e) pg m (ne_heap e) (ne_dpages e).

(** [mdb_midl_free]: nothing for NULL; else the array must be allocated. *)
Definition mdb_midl_free (m : gmap Z IDL) (a : Z) : res (gmap Z IDL) :=
  if a =? 0 then Ok m else match m !! a with Some _ => Ok (delete a m) | None => UB end.

(** [free] of a dirty page, which must be allocated. *)
Definition free_page (h : gmap Z page) (a : Z) : res (gmap Z page) := _ ← heap_at h a; Ok (delete a h).

(** ** Begin and abort *)

(** [mdb_dlist_free]: the pages from [i + 1] on, [k] of them. *)
Fixpoint dlist_free (k : nat) (i : Z) (dl : list (option ID2)) (h : gmap Z page) (dpages : list Z)
    : res (gmap Z page * list Z) :=
  match k with
  | O => Ok (h, dpages)
  | S k => y ← rd2 dl (i + 1); '(h, dpages) ← mdb_dpage_free h dpages (mptr y); dlist_free k (i + 1) dl h dpages
  end.

Definition mdb_dlist_free (dl : list (option ID2)) (h : gmap Z page) (dpages : list Z)
    : res (list (option ID2) * gmap Z page * list Z) :=
  n ← rd2 dl 0;
  '(h, dpages) ← dlist_free (Z.to_nat (mid n)) 0 dl h dpages;
  dl ← wr2 dl 0 (MkID2 0 (mptr n));
  Ok (dl, h, dpages).

(** [mdb_txn_end] of a child that is not finished: its dirty pages are freed, the page state
    that was [saved] comes back, and the array that the child has worked on is freed. *)
Definition nested_abort (child parent : Wtxn) (saved : Pgstate) (e : Nenv) : res (Wtxn * Nenv) :=
  let pghead := mf_pghead (ne_pgstate e) in
  '(h, dpages) ← (if has_flag (ne_flags e) MDB_WRITEMAP then Ok (ne_heap e, ne_dpages e)
                  else '(_, h, dpages) ← mdb_dlist_free (wt_dirty_list child) (ne_heap e) (ne_dpages e); Ok (h, dpages));
  let parent := set_wt_flags parent (clear_flag (wt_flags parent) MDB_TXN_HAS_CHILD) in
  m ← mdb_midl_free (ne_midls e) pghead;
  Ok (parent, MkNenv (ne_flags e) saved m h dpages).

(** The child gets an array of its own with what is in that of the parent; [a] is what
    [malloc] returns. *)
Definition copy_pghead (a : Z) (e : Nenv) : res (Z * Nenv) :=
  let saved := ne_pgstate e in
  if mf_pghead saved =? 0 then Ok (0, e)
  else
    match ne_midls e !! mf_pghead saved with
    | None => UB
    | Some l =>
        n ← rd (ids l) 0;
        match mdb_midl_alloc (negb (a =? 0)) n with
        | None => Ok (ENOMEM, set_pgstate e (MkPgstate 0 (mf_pglast saved)) (ne_midls e))
        | Some l' =>
            b ← copy_block (ids l') 0 (ids l) 0 (n + 1);
            Ok (0, set_pgstate e (MkPgstate a (mf_pglast saved)) (<[a := MkIDL (room l') b]> (ne_midls e)))
        end
    end.

(** The block of [parent] in [mdb_txn_begin]: the code, the parent, what is shared, and the
    child with the page state it saves; [shadow] is the answer of [mdb_cursor_shadow]. *)
Definition nested_begin (alloc alloc_free : bool) (alloc_head shadow flags : Z) (parent : Wtxn) (e : Nenv)
    : res (Z * Wtxn * Nenv * option (Wtxn * Pgstate)) :=
  match (if alloc then mdb_midl_alloc alloc_free MDB_IDL_UM_MAX else None) with
  | None => Ok (ENOMEM, parent, e, None)
  | Some free_pgs =>
      let dl := Some (MkID2 0 0) :: replicate (Z.to_nat (MDB_IDL_UM_SIZE - 1)) None in
      let child := MkWtxn flags (wt_next_pgno parent) (wt_dbs parent) ((λ f, clear_flag f DB_NEW) <$> wt_dbflags parent)
                     free_pgs None dl (wt_dirty_room parent) [] 0 in
      let parent := set_wt_flags parent (set_flag (wt_flags parent) MDB_TXN_HAS_CHILD) in
      let saved := ne_pgstate e in
      '(rc, e) ← copy_pghead alloc_head e;
      let rc := if rc =? 0 then shadow else rc in
      if negb (rc =? 0) then '(parent, e) ← nested_abort child parent saved e; Ok (rc, parent, e, None)
      else Ok (0, parent, e, Some (child, saved))
  end.

(** What the child does to the array of reusable pages, all of it through [me_pghead]: it
    writes to it, makes it when there is none, or moves it when it has no room. *)
Inductive pghead_step : Pgstate * gmap Z IDL → Pgstate * gmap Z IDL → Prop :=
  | pg_last a n n' m : pghead_step (MkPgstate a n, m) (MkPgstate a n', m)
  | pg_write a n m l l' : a ≠ 0 → m !! a = Some l → pghead_step (MkPgstate a n, m) (MkPgstate a n, <[a := l']> m)
  | pg_new b n m l : b ≠ 0 → m !! b = None → pghead_step (MkPgstate 0 n, m) (MkPgstate b n, <[b := l]> m)
  | pg_move a b n m l l' : a ≠ 0 → m !! a = Some l → b ≠ 0 → m !! b = None →
      pghead_step (MkPgstate a n, m) (MkPgstate b n, <[b := l']> (delete a m)).

(** ** Commit: the pages that the child made dirty leave the spill list of the parent *)

(** [while (pn > pspill[x]) x--] *)
Fixpoint spill_down (fuel : nat) (ps : block) (pn x : Z) : res Z :=
  match fuel with
  | O => NoFuel
  | S fuel => c ← rd ps x; if c <? pn then spill_down fuel ps pn (x - 1) else Ok x
  end.

(** The dirty pages of the child from [i + 1] on, [k] of them. *)
Fixpoint mark_spilled (k : nat) (i : Z) (src : list (option ID2)) (ps : block) (x y : Z) : res (block * Z) :=
  match k with
  | O => Ok (ps, y)
  | S k =>
      s ← rd2 src (i + 1);
      let pn := u64 (Z.shiftl (mid s) 1) in
      x ← spill_down (S (Z.to_nat x)) ps pn x;
      c ← rd ps x;
      if pn =? c then ps ← wr ps x 1; mark_spilled k (i + 1) src ps (x - 1) (x - 1)
      else mark_spilled k (i + 1) src ps x y
  end.

(** [for (x=y; ++x <= ps_len; )], [k] rounds. *)
Fixpoint squash (k : nat) (x y : Z) (ps : block) : res (block * Z) :=
  match k with
  | O => Ok (ps, y)
  | S k =>
      c ← rd ps (x + 1);
      if Z.land c 1 =? 0 then ps ← wr ps (y + 1) c; squash k (x + 1) (y + 1) ps
      else squash k (x + 1) y ps
  end.

Definition unspill_parent (src : list (option ID2)) (ps : block) : res block :=
  n ← rd ps 0;
  let ps_len := u32 n in
  if ps_len =? 0 then Ok ps
  else
    ps ← wr ps 0 (u64 (-1));
    len ← rd2 src 0;
    '(ps, y) ← mark_spilled (Z.to_nat (mid len)) 0 src ps ps_len ps_len;
    '(ps, y) ← squash (Z.to_nat (ps_len - y)) y y ps;
    wr ps 0 y.

(** ** ... the pages that the child spilled leave the dirty list of the parent *)

(** [while (y < dst[0].mid) { dst[y] = dst[y+1]; y++; }], [k] rounds. *)
Fixpoint close_gap (k : nat) (y : Z) (dst : list (option ID2)) : res (list (option ID2)) :=
  match k with
  | O => Ok dst
  | S k => c ← rd2 dst (y + 1); dst ← wr2 dst y c; close_gap k (y + 1) dst
  end.

Definition drop_one (fuel : nat) (c : Z) (dst : list (option ID2)) (h : gmap Z page) : res (list (option ID2) * gmap Z page) :=
  if negb (Z.land c 1 =? 0) then Ok (dst, h)
  else
    let pn := Z.shiftr c 1 in
    y ← mdb_mid2l_search fuel dst pn;
    n ← rd2 dst 0;
    if negb (y <=? mid n) then Ok (dst, h)
    else
      d ← rd2 dst y;
      if negb (mid d =? pn) then Ok (dst, h)
      else
        h ← free_page h (mptr d);
        dst ← close_gap (Z.to_nat (mid n - y)) y dst;
        dst ← wr2 dst 0 (MkID2 (mid n - 1) (mptr n));
        Ok (dst, h).

Fixpoint drop_spilled (fuel k : nat) (i : Z) (sp : block) (dst : list (option ID2)) (h : gmap Z page)
    : res (list (option ID2) * gmap Z page) :=
  match k with
  | O => Ok (dst, h)
  | S k => c ← rd sp i; '(dst, h) ← drop_one fuel c dst h; drop_spilled fuel k (i + 1) sp dst h
  end.

(** ** ... and the dirty lists are merged *)

(** [while (yp < dst[i].mid) i--] *)
Fixpoint len_down (fuel : nat) (dst : list (option ID2)) (yp i : Z) : res Z :=
  match fuel with
  | O => NoFuel
  | S fuel => d ← rd2 dst i; if yp <? mid d then len_down fuel dst yp (i - 1) else Ok i
  end.

(** [for (i = x; y && i; y--)] *)
Fixpoint len_loop (y : nat) (src dst : list (option ID2)) (i len : Z) : res Z :=
  match y with
  | O => Ok len
  | S y' =>
      if i =? 0 then Ok len
      else
        s ← rd2 src (Z.of_nat y);
        i ← len_down (S (Z.to_nat i)) dst (mid s) i;
        d ← rd2 dst i;
        if mid s =? mid d then len_loop y' src dst (i - 1) (len - 1) else len_loop y' src dst i len
  end.

(** [while (yp < dst[x].mid) dst[i--] = dst[x--]] *)
Fixpoint merge_down (fuel : nat) (dst : list (option ID2)) (yp i x : Z) : res (list (option ID2) * Z * Z) :=
  match fuel with
  | O => NoFuel
  | S fuel =>
      d ← rd2 dst x;
      if yp <? mid d then dst ← wr2 dst i d; merge_down fuel dst yp (i - 1) (x - 1) else Ok (dst, i, x)
  end.

(** [for (i = len; y; dst[i--] = src[y--])] *)
Fixpoint merge_loop (y : nat) (src dst : list (option ID2)) (h : gmap Z page) (i x : Z)
    : res (list (option ID2) * gmap Z page * Z * Z) :=
  match y with
  | O => Ok (dst, h, i, x)
  | S y' =>
      s ← rd2 src (Z.of_nat y);
      '(dst, i, x) ← merge_down (S (Z.to_nat x)) dst (mid s) i x;
      d ← rd2 dst x;
      let hit := mid s =? mid d in
      h ← (if hit then free_page h (mptr d) else Ok h);
      dst ← wr2 dst i s;
      merge_loop y' src dst h (i - 1) (if hit then x - 1 else x)
  end.

(** The list of the parent, and the memory; [grand] says that the parent has a parent. *)
Definition merge_dirty (fuel : nat) (grand : bool) (room : Z) (src dst : list (option ID2)) (h : gmap Z page)
    : res (list (option ID2) * gmap Z page) :=
  d0 ← rd2 dst 0; s0 ← rd2 src 0;
  let x := mid d0 in
  dst ← wr2 dst 0 (MkID2 0 (mptr d0));
  len ← (if grand then
           d ← rd2 dst x;
           y ← mdb_mid2l_search fuel src (u64 (mid d + 1));
           len_loop (Z.to_nat (y - 1)) src dst x (x + mid s0)
         else Ok (MDB_IDL_UM_MAX - room));
  '(dst, h, i, x) ← merge_loop (Z.to_nat (mid s0)) src dst h len x;
  c_assert (i =? x) ;;
  dst ← wr2 dst 0 (MkID2 len (mptr d0));
  Ok (dst, h).

(** ** The commit of a child *)

(** [DB_NEW] of the databases behind the first two stays as the parent has it. *)
Fixpoint merge_dbflags (cs ps : list Z) : res (list Z) :=
  match cs, ps with
  | [], _ => Ok []
  | c :: cs, p :: ps => fs ← merge_dbflags cs ps; Ok (Z.lor c (Z.land p DB_NEW) :: fs)
  | _ :: _, [] => UB
  end.

(** The spill lists are put together and sorted; the code. *)
Definition merge_spilled (fuel : nat) (alloc : bool) (child parent : option IDL) : res (Z * option IDL) :=
  match child, parent with
  | None, _ => Ok (0, parent)
  | Some c, None => Ok (0, Some c)
  | Some c, Some p =>
      '(rc, p) ← mdb_midl_append_list alloc p (ids c);
      b ← mdb_midl_sort fuel (ids p);
      Ok (rc, Some (MkIDL (room p) b))
  end.

(** [mdb_txn_commit] from [txn->mt_parent] on: the code, the parent and what is shared; the
    array of the page state that was [saved] is freed.  When the lists of freed pages cannot
    be put together the child is aborted by the caller. *)
Definition nested_commit (fuel : nat) (alloc alloc_spill grand : bool) (txn parent : Wtxn) (saved : Pgstate) (e : Nenv)
    : res (Z * Wtxn * Nenv) :=
  '(rc, free_pgs) ← mdb_midl_append_list alloc (wt_free_pgs parent) (ids (wt_free_pgs txn));
  if negb (rc =? 0) then
    Ok (rc, MkWtxn (wt_flags parent) (wt_next_pgno parent) (wt_dbs parent) (wt_dbflags parent) free_pgs
              (wt_spill_pgs parent) (wt_dirty_list parent) (wt_dirty_room parent) (wt_loose_pgs parent)
              (wt_loose_count parent), e)
  else
    fs ← merge_dbflags (drop 2 (wt_dbflags txn)) (drop 2 (wt_dbflags parent));
    let src := wt_dirty_list txn in
    spill ← match wt_spill_pgs parent with
            | None => Ok None
            | Some ps => b ← unspill_parent src (ids ps); Ok (Some (MkIDL (room ps) b))
            end;
    '(dst, h) ← match wt_spill_pgs txn with
                | None => Ok (wt_dirty_list parent, ne_heap e)
                | Some sp => n ← rd (ids sp) 0; drop_spilled fuel (Z.to_nat n) 1 (ids sp) (wt_dirty_list parent) (ne_heap e)
                end;
    '(dst, h) ← merge_dirty fuel grand (wt_dirty_room txn) src dst h;
    '(rc, spill) ← merge_spilled fuel alloc_spill (wt_spill_pgs txn) spill;
    m ← mdb_midl_free (ne_midls e) (mf_pghead saved);
    Ok (rc, MkWtxn (if rc =? 0 then wt_flags txn else set_flag (wt_flags txn) MDB_TXN_ERROR) (wt_next_pgno txn)
              (wt_dbs txn) (take 2 (wt_dbflags txn) ++ fs) free_pgs spill dst (wt_dirty_room txn)
              (wt_loose_pgs parent ++ wt_loose_pgs txn) (wt_loose_count parent + wt_loose_count txn),
        MkNenv (ne_flags e) (ne_pgstate e) m h (ne_dpages e)).
