(* ===== verification/NestLists.v ===== *)
(** * The loops of a nested commit as functions on lists

    What the loops that merge the lists of a child transaction into those of its parent, in
    place, do: the count and the merge of the dirty lists, the removal of spilled pages from
    a dirty list and of dirty pages from a spill list, and the appended and sorted lists. *)

From stdpp Require Import sorting.
From S2P Require Import Prelude.
From S2P Require Import Lmdb Midl MidlSort Page Tree Reads Flush Nest.

#[local] Arguments Nat.ltb : simpl never.
#[local] Arguments Nat.eqb : simpl never.

Abbreviation ascends := (StronglySorted (λ a b : ID2, mid a < mid b)).

(** ** The memory of the pages of a dirty list: a block for each, and no block twice *)

Definition owned (h : gmap Z page) (xs : list ID2) : Prop :=
  NoDup (mptr <$> xs) ∧ ∀ x, x ∈ xs → is_Some (h !! mptr x).

Lemma owned_prefix h xs ys : owned h (xs ++ ys) → owned h xs.
Proof. intros [N F]. rewrite fmap_app in N. apply NoDup_app in N as (N & _). split; [done|]. intros x Hx. apply F. set_solver. Qed.

Lemma owned_block h xs x ys : owned h (xs ++ x :: ys) → free_page h (mptr x) = Ok (delete (mptr x) h).
Proof. intros [_ F]. unfold free_page, heap_at. by destruct (F x ltac:(set_solver)) as [p ->]. Qed.

Lemma NoDup_fmap_filter {A B} (f : A → B) (P : A → Prop) `{∀ x, Decision (P x)} xs :
  NoDup (f <$> xs) → NoDup (f <$> filter P xs).
Proof.
  induction xs as [|x xs IH]; [done|]. cbn [fmap list_fmap]. intros [Hx N]%NoDup_cons. rewrite filter_cons.
  case_decide; [|by apply IH]. cbn [fmap list_fmap]. apply NoDup_cons. split; [|by apply IH].
  intros (y & E & [_ Hy]%list_elem_of_filter)%list_elem_of_fmap. apply Hx. rewrite E. by apply list_elem_of_fmap_2.
Qed.

(** What is left when the blocks of some of the pages are freed. *)
Lemma owned_filter (P : ID2 → Prop) `{∀ x, Decision (P x)} h h' xs :
  (∀ a, h' !! a = if decide (a ∈ mptr <$> filter P xs) then None else h !! a) →
  owned h xs → owned h' (filter (λ x, ¬ P x) xs).
Proof.
  intros Hh [N F]. split.
  - by apply NoDup_fmap_filter.
  - intros x [Hx Hin]%list_elem_of_filter. rewrite Hh, decide_False; [by apply F|].
    intros (y & E & [Hy Hiny]%list_elem_of_filter)%list_elem_of_fmap. apply Hx. replace x with y; [done|].
    apply list_elem_of_lookup in Hin as [i Hi], Hiny as [j Hj].
    assert (i = j) by (apply (NoDup_lookup _ i j (mptr x) N); rewrite list_lookup_fmap, ?Hi, ?Hj; cbn; congruence). congruence.
Qed.

Lemma owned_delete h xs x ys : owned h (xs ++ x :: ys) → owned (delete (mptr x) h) xs.
Proof.
  intros [N F]. rewrite fmap_app in N. cbn in N. apply NoDup_app in N as (N & D & _). split; [done|]. intros y Hy.
  rewrite lookup_delete_ne; [apply F; set_solver|]. intros E. apply (D (mptr y)); [by apply list_elem_of_fmap_2|]. rewrite E. by left.
Qed.

(** ** A dirty list while it is merged: the list, unused cells, and what is done *)

Section merge.
Context (p : Z) (src : list (option ID2)).

Definition cells2 (xs : list ID2) (gap : list (option ID2)) (d : list ID2) (rest : list (option ID2)) : list (option ID2) :=
  (Some <$> MkID2 0 p :: xs) ++ gap ++ (Some <$> d) ++ rest.

(** The cell that is read next: the last of the list, or the delimiter. *)
Definition last2 (xs : list ID2) : ID2 := default (MkID2 0 p) (last xs).

Lemma last2_snoc xs x : last2 (xs ++ [x]) = x.
Proof. unfold last2. by rewrite last_snoc. Qed.

Lemma rd_last2 xs gap d rest : rd2 (cells2 xs gap d rest) (Z.of_nat (length xs)) = Ok (last2 xs).
Proof.
  unfold cells2, last2. destruct xs as [|x xs _] using rev_ind; [done|].
  rewrite last_snoc, app_comm_cons, fmap_app, <-(assoc_L (++)). cbn [fmap list_fmap app].
  apply (rd2_app (Some (MkID2 0 p) :: (Some <$> xs))). rewrite length_app. cbn. rewrite length_fmap. lia.
Qed.

(** The last cell in front of what is done is overwritten. *)
Lemma wr_gap xs gap c d rest x :
  wr2 (cells2 xs (gap ++ [c]) d rest) (Z.of_nat (length xs + length (gap ++ [c]))) x = Ok (cells2 xs gap (x :: d) rest).
Proof.
  unfold cells2. replace ((Some <$> MkID2 0 p :: xs) ++ (gap ++ [c]) ++ (Some <$> d) ++ rest)
    with (((Some <$> MkID2 0 p :: xs) ++ gap) ++ c :: ((Some <$> d) ++ rest)) by (by rewrite <-!(assoc_L (++))).
  rewrite wr2_app by (rewrite !length_app, length_fmap; cbn; lia). by rewrite <-!(assoc_L (++)).
Qed.

Lemma cells2_snoc xs x gap d rest : cells2 (xs ++ [x]) gap d rest = cells2 xs (Some x :: gap) d rest.
Proof. unfold cells2. by rewrite app_comm_cons, fmap_app, <-(assoc_L (++)). Qed.

Lemma snoc_split {A} (x : A) l : ∃ l' c, x :: l = l' ++ [c] ∧ length l' = length l.
Proof.
  destruct (x :: l) as [|c l' _] eqn:E using rev_ind; [done|]. exists l', c. split; [done|].
  apply (f_equal length) in E. rewrite length_app in E. cbn in E. lia.
Qed.

Lemma merge_down_spec fuel yp : ∀ xs gap d rest, (length xs < fuel)%nat → 0 ≤ yp →
  ∃ xs1 xs2 gap', xs = xs1 ++ xs2 ∧ length gap' = length gap ∧ Forall (λ x, yp < mid x) xs2 ∧ mid (last2 xs1) ≤ yp ∧
    merge_down fuel (cells2 xs gap d rest) yp (Z.of_nat (length xs + length gap)) (Z.of_nat (length xs))
    = Ok (cells2 xs1 gap' (xs2 ++ d) rest, Z.of_nat (length xs1 + length gap), Z.of_nat (length xs1)).
Proof.
  induction fuel as [|fuel IH]; intros xs gap d rest Hf Hy; [lia|]. cbn [merge_down]. rewrite rd_last2. cbn [mbind res_bind].
  destruct xs as [|x xs _] using rev_ind.
  { exists [], [], gap. cbn [last2 last default from_option mid] in *. rewrite (proj2 (Z.ltb_ge _ _)) by done. done. }
  rewrite last2_snoc. destruct (Z.ltb_spec yp (mid x)) as [L|L].
  2:{ exists (xs ++ [x]), [], gap. rewrite last2_snoc, app_nil_r. done. }
  rewrite length_app in *. cbn [length] in *. rewrite cells2_snoc.
  destruct (snoc_split (Some x) gap) as (gap' & c & Eg & Hg). rewrite Eg.
  replace (Z.of_nat (length xs + 1 + length gap)) with (Z.of_nat (length xs + length (gap' ++ [c]))) by (rewrite length_app; cbn; lia).
  rewrite wr_gap. cbn [mbind res_bind].
  replace (Z.of_nat (length xs + length (gap' ++ [c])) - 1) with (Z.of_nat (length xs + length gap')) by (rewrite length_app; cbn; lia).
  replace (Z.of_nat (length xs + 1) - 1) with (Z.of_nat (length xs)) by lia.
  destruct (IH xs gap' (x :: d) rest) as (xs1 & xs2 & gap2 & -> & Hg2 & F & Hl & E); [lia|done|].
  exists xs1, (xs2 ++ [x]), gap2. split; [by rewrite (assoc_L (++))|]. split; [lia|].
  split; [apply Forall_app; by rewrite Forall_singleton|]. split; [done|]. rewrite E, Hg, <-(assoc_L (++)). done.
Qed.

(** The entries of [ys] that [xs] has not, and those of [xs] that [ys] has. *)
Definition fresh (xs ys : list ID2) : list ID2 := filter (λ y, mid y ∉ mid <$> xs) ys.
Definition hidden (xs ys : list ID2) : list ID2 := filter (λ x, mid x ∈ mid <$> ys) xs.

Lemma mid_elem (y : Z) (xs : list ID2) : y ∈ mid <$> xs ↔ ∃ x, x ∈ xs ∧ mid x = y.
Proof. rewrite list_elem_of_fmap. naive_solver. Qed.

Lemma fresh_ext xs xs' ys : (∀ y, y ∈ ys → mid y ∈ mid <$> xs ↔ mid y ∈ mid <$> xs') → fresh xs ys = fresh xs' ys.
Proof.
  intros H. unfold fresh. induction ys as [|y ys IH]; [done|]. rewrite !filter_cons. rewrite IH by set_solver.
  specialize (H y ltac:(set_solver)). repeat case_decide; (done || tauto).
Qed.

Lemma ascends_last xs x : ascends (xs ++ [x]) → ascends xs ∧ Forall (λ y, mid y < mid x) xs.
Proof.
  intros (H & Hs & _)%StronglySorted_app. split; [done|]. rewrite Forall_forall. intros y Hy. apply H; set_solver.
Qed.

Lemma last2_bound xs : ascends xs → Forall (λ y, mid y ≤ mid (last2 xs)) xs.
Proof.
  destruct xs as [|x xs _] using rev_ind; [constructor|]. intros [_ H]%ascends_last. rewrite last2_snoc.
  apply Forall_app. split; [eapply Forall_impl; [exact H|]; cbn; lia|by constructor].
Qed.

Lemma ascends_join xs s zs : ascends xs → ascends zs → Forall (λ x, mid x < mid s) xs → Forall (λ z, mid s < mid z) zs →
  ascends (xs ++ s :: zs).
Proof.
  intros Hx Hz Fx Fz. rewrite Forall_forall in Fx, Fz. apply StronglySorted_app. split; [|split; [done|]].
  - intros a b Ha [->|Hb]%elem_of_cons; [by apply Fx|]. specialize (Fx a Ha). specialize (Fz b Hb). lia.
  - constructor; [done|]. by apply Forall_forall.
Qed.

Lemma ascends_apart xs s zs : ascends (xs ++ s :: zs) →
  ascends xs ∧ ascends zs ∧ Forall (λ x, mid x < mid s) xs ∧ Forall (λ z, mid s < mid z) zs.
Proof.
  intros (H & Hx & [Hz Fz]%StronglySorted_cons)%StronglySorted_app. split; [done|]. split; [done|]. split; [|done].
  rewrite Forall_forall. intros x Hx'. apply H; set_solver.
Qed.

(** A last entry of the child, with what is below and above it in the parent. *)
Lemma fresh_below xs ys s : Forall (λ x, mid x < mid s) xs → fresh (ys ++ [s]) xs = fresh ys xs.
Proof.
  rewrite Forall_forall. intros H. apply fresh_ext. intros x Hx. specialize (H x Hx). rewrite fmap_app, elem_of_app. cbn.
  rewrite list_elem_of_singleton. split; [intros [?|E]; [done|lia]|by left].
Qed.

Lemma hidden_below xs ys s : Forall (λ x, mid x < mid s) xs → hidden xs (ys ++ [s]) = hidden xs ys.
Proof.
  unfold hidden. induction 1 as [|x xs Hx _ IH]; [done|]. rewrite !filter_cons, IH.
  assert (E : mid x ∈ mid <$> ys ++ [s] ↔ mid x ∈ mid <$> ys).
  { rewrite fmap_app, elem_of_app. cbn. rewrite list_elem_of_singleton. split; [intros [?|?]; [done|lia]|by left]. }
  destruct (decide (mid x ∈ mid <$> ys)); [rewrite !decide_True by tauto|rewrite !decide_False by tauto]; done.
Qed.

Lemma fresh_above xs ys : (∀ x y, x ∈ xs → y ∈ ys → mid y < mid x) → fresh ys xs = xs ∧ hidden xs ys = [].
Proof.
  intros H. assert (N : ∀ x, x ∈ xs → mid x ∉ mid <$> ys) by (intros x Hx (y & Hy & E)%mid_elem; specialize (H x y Hx Hy); lia).
  split; [apply filter_all|apply filter_none]; by rewrite Forall_forall.
Qed.

Lemma delete_lookup (h h0 : gmap Z page) a x l : (∀ a, h !! a = if decide (a ∈ l) then None else delete x h0 !! a) →
  h !! a = if decide (a ∈ l ++ [x]) then None else h0 !! a.
Proof.
  intros ->. destruct (decide (a = x)) as [->|N].
  - rewrite lookup_delete_eq. destruct (decide (x ∈ l ++ [x])) as [|N]; [by case_decide|set_solver].
  - rewrite lookup_delete_ne by done. repeat case_decide; set_solver.
Qed.

Lemma perm_move {A} (ys xs d : list A) s : ys ++ s :: xs ++ d ≡ₚ xs ++ (ys ++ [s]) ++ d.
Proof. change (s :: xs ++ d) with ([s] ++ xs ++ d). rewrite (assoc_L (++) ys). apply Permutation_app_swap_app. Qed.

(** The last entry of the child with what the parent has above, at and below it. *)
Lemma peel_above xs1 xs2 ys s :
  Forall (λ y, mid y < mid s) ys → Forall (λ x, mid s < mid x) xs2 →
  fresh (ys ++ [s]) (xs1 ++ xs2) = fresh (ys ++ [s]) xs1 ++ xs2 ∧ hidden (xs1 ++ xs2) (ys ++ [s]) = hidden xs1 (ys ++ [s]) ∧
  fresh (xs1 ++ xs2) (ys ++ [s]) = fresh xs1 (ys ++ [s]).
Proof.
  rewrite !Forall_forall. intros Hy Hx.
  assert (L : ∀ x y, x ∈ xs2 → y ∈ ys ++ [s] → mid y < mid x).
  { intros x y Hin [Hy'| ->%list_elem_of_singleton]%elem_of_app; [|by apply Hx]. specialize (Hx x Hin). specialize (Hy y Hy'). lia. }
  destruct (fresh_above xs2 (ys ++ [s]) L) as [E1 E2]. split; [|split].
  - unfold fresh at 1. rewrite filter_app. fold (fresh (ys ++ [s]) xs2). by rewrite E1.
  - unfold hidden at 1. rewrite filter_app. fold (hidden xs2 (ys ++ [s])). by rewrite E2, app_nil_r.
  - apply fresh_ext. intros y Hy'. rewrite fmap_app, elem_of_app. split; [|by left]. intros [?|(x & Hin & E)%mid_elem]; [done|].
    specialize (L x y Hin Hy'). lia.
Qed.

Lemma peel_hit xs x ys s :
  mid x = mid s → Forall (λ y, mid y < mid s) ys → Forall (λ y, mid y < mid s) xs →
  fresh (ys ++ [s]) (xs ++ [x]) = fresh ys xs ∧ hidden (xs ++ [x]) (ys ++ [s]) = hidden xs ys ++ [x] ∧
  fresh (xs ++ [x]) (ys ++ [s]) = fresh xs ys.
Proof.
  intros E Hy Hx.
  assert (Es : mid s ∈ mid <$> xs ++ [x] ∧ mid x ∈ mid <$> ys ++ [s]).
  { rewrite !mid_elem. split; [exists x|exists s]; (split; [set_solver|done]). }
  destruct Es as [Es Ex]. split; [|split].
  - unfold fresh at 1. rewrite filter_app, filter_cons_False, filter_nil, app_nil_r by tauto. by apply fresh_below.
  - unfold hidden at 1. rewrite filter_app, filter_cons_True, filter_nil by done. f_equal. by apply hidden_below.
  - unfold fresh at 1. rewrite filter_app, filter_cons_False, filter_nil, app_nil_r by tauto. apply fresh_below. by rewrite E.
Qed.

Lemma peel_miss xs ys s :
  Forall (λ y, mid y < mid s) xs →
  fresh (ys ++ [s]) xs = fresh ys xs ∧ hidden xs (ys ++ [s]) = hidden xs ys ∧ fresh xs (ys ++ [s]) = fresh xs ys ++ [s].
Proof.
  intros Hx. split; [by apply fresh_below|]. split; [by apply hidden_below|]. unfold fresh. rewrite filter_app.
  rewrite filter_cons_True, filter_nil; [done|]. intros (x & Hin & E)%mid_elem. rewrite Forall_forall in Hx. specialize (Hx x Hin). lia.
Qed.

(** The cell that is written is the last one in front of what is done. *)
Lemma wr_last xs k gap d rest s :
  length gap = S k →
  ∃ gap', length gap' = k ∧ wr2 (cells2 xs gap d rest) (Z.of_nat (length xs + length gap)) s = Ok (cells2 xs gap' (s :: d) rest) ∧
    Z.of_nat (length xs + length gap) - 1 = Z.of_nat (length xs + k).
Proof.
  destruct gap as [|c gap _] using rev_ind; [done|]. rewrite length_app. cbn [length]. intros Hk. exists gap.
  split; [lia|]. split; [|lia]. rewrite <-(wr_gap xs gap c d rest s), length_app. done.
Qed.

(** What the loop over the entries [ys] of the child leaves. *)
Definition merged (xs ys d : list ID2) (n : nat) (h : gmap Z page) (xs' d' : list ID2) (h' : gmap Z page) : Prop :=
  ascends (xs' ++ d') ∧ xs' ++ d' ≡ₚ fresh ys xs ++ ys ++ d ∧ length (xs' ++ d') = n ∧
  (∀ a, h' !! a = if decide (a ∈ mptr <$> hidden xs ys) then None else h !! a).

Lemma merged_nil xs d h : ascends (xs ++ d) → merged xs [] d (length (xs ++ d)) h xs d h.
Proof.
  intros Hs. split; [done|]. split; [|split; [done|]].
  - unfold fresh. rewrite filter_all; [done|]. rewrite Forall_forall. intros y _. apply not_elem_of_nil.
  - intros a. unfold hidden. rewrite filter_none; [done|]. rewrite Forall_forall. intros y _. apply not_elem_of_nil.
Qed.

Lemma merged_hit xs x xs2 ys s d n h xs' d' h' :
  mid x = mid s → Forall (λ y, mid y < mid s) ys → Forall (λ y, mid y < mid s) xs → Forall (λ y, mid s < mid y) xs2 →
  merged xs ys (s :: xs2 ++ d) n (delete (mptr x) h) xs' d' h' →
  merged ((xs ++ [x]) ++ xs2) (ys ++ [s]) d n h xs' d' h'.
Proof.
  intros E Hy Hx H2 (Ha & Hp & Hl & Hh). destruct (peel_above (xs ++ [x]) xs2 ys s Hy H2) as (E1 & E2 & _).
  destruct (peel_hit xs x ys s E Hy Hx) as (E3 & E4 & _). split; [done|]. split; [|split; [done|]].
  - by rewrite Hp, E1, E3, perm_move, <-!(assoc_L (++)).
  - intros a. rewrite E2, E4, fmap_app. by apply delete_lookup.
Qed.

Lemma merged_miss xs1 xs2 ys s d n h xs' d' h' :
  Forall (λ y, mid y < mid s) ys → Forall (λ y, mid y < mid s) xs1 → Forall (λ y, mid s < mid y) xs2 →
  merged xs1 ys (s :: xs2 ++ d) n h xs' d' h' → merged (xs1 ++ xs2) (ys ++ [s]) d n h xs' d' h'.
Proof.
  intros Hy Hx H2 (Ha & Hp & Hl & Hh). destruct (peel_above xs1 xs2 ys s Hy H2) as (E1 & E2 & _).
  destruct (peel_miss xs1 ys s Hx) as (E3 & E4 & _). split; [done|]. split; [|split; [done|]].
  - by rewrite Hp, E1, E3, perm_move, <-!(assoc_L (++)).
  - intros a. by rewrite E2, E4.
Qed.

Lemma merge_loop_spec ys : ∀ xs gap d rest h,
  (∀ i y, ys !! i = Some y → rd2 src (Z.of_nat (S i)) = Ok y) → Forall (λ y, 0 < mid y) ys →
  length gap = length (fresh xs ys) → ascends (xs ++ d) → ascends (ys ++ d) → owned h xs →
  ∃ xs' d' h', merge_loop (length ys) src (cells2 xs gap d rest) h (Z.of_nat (length xs + length gap)) (Z.of_nat (length xs))
      = Ok (cells2 xs' [] d' rest, h', Z.of_nat (length xs'), Z.of_nat (length xs')) ∧
    merged xs ys d (length xs + length gap + length d) h xs' d' h'.
Proof using Type.
  induction ys as [|s ys IH] using rev_ind; intros xs gap d rest h Hsrc Hpos Hgap Hsx Hsy Ho.
  { cbn in Hgap. destruct gap; [|done]. exists xs, d, h. rewrite Nat.add_0_r, <-length_app. split; [done|by apply merged_nil]. }
  apply Forall_app in Hpos as [Hpos Hs]. rewrite Forall_singleton in Hs.
  rewrite length_app, Nat.add_1_r. cbn [merge_loop].
  rewrite (Hsrc (length ys) s) by (by rewrite lookup_app_r, Nat.sub_diag by lia). cbn [mbind res_bind].
  destruct (merge_down_spec (S (Z.to_nat (Z.of_nat (length xs)))) (mid s) xs gap d rest) as (xs1 & xs2 & gap1 & -> & Hg & F & Hl & E);
    [lia|lia|].
  rewrite E. cbn [mbind res_bind]. rewrite rd_last2. cbn [mbind res_bind]. rewrite <-Hg in Hgap |- *. clear gap Hg E.
  rewrite <-(assoc_L (++)) in Hsy. destruct (ascends_apart _ _ _ Hsy) as (Hys & Hd & Fys & Fd). cbn [app] in Hd, Fd.
  rewrite <-(assoc_L (++)) in Hsx. destruct (proj1 (StronglySorted_app _ _ _) Hsx) as (Hx12 & Hx1 & Hx2).
  assert (Hys' : ascends (ys ++ s :: xs2 ++ d)) by (apply ascends_join; [done..|by apply Forall_app]).
  assert (Hsrc' : ∀ i y, ys !! i = Some y → rd2 src (Z.of_nat (S i)) = Ok y) by (intros i y Hi; apply Hsrc; by apply lookup_app_l_Some).
  destruct (peel_above xs1 xs2 ys s Fys F) as (_ & _ & Ep). rewrite Ep in Hgap. rewrite length_app.
  destruct (Z.eqb_spec (mid s) (mid (last2 xs1))) as [Hit|Hit].
  - destruct xs1 as [|x xs0 _] using rev_ind; [cbn in Hit; lia|]. rewrite last2_snoc in *.
    rewrite <-(assoc_L (++)) in Hsx. destruct (ascends_apart _ _ _ Hsx) as (Hx0 & _ & Fx0 & Fx). rewrite <-Hit in Fx0.
    destruct (peel_hit xs0 x ys s (eq_sym Hit) Fys Fx0) as (_ & _ & Eg). rewrite Eg in Hgap. rewrite cells2_snoc, length_app. cbn [length].
    destruct (wr_last xs0 (length gap1) (Some x :: gap1) (xs2 ++ d) rest s eq_refl) as (gap2 & Hg2 & Ew & Ei).
    cbn [length] in Ew, Ei. replace (length xs0 + 1 + length gap1)%nat with (length xs0 + S (length gap1))%nat by lia.
    rewrite <-(assoc_L (++)) in Ho. cbn [app] in Ho. rewrite (owned_block h xs0 x xs2 Ho). cbn [mbind res_bind].
    rewrite Ew. cbn [mbind res_bind]. rewrite Ei, <-Hg2.
    replace (Z.of_nat (length xs0 + 1) - 1) with (Z.of_nat (length xs0)) by lia.
    destruct (IH xs0 gap2 (s :: xs2 ++ d) rest (delete (mptr x) h)) as (xs' & d' & h' & E' & HM); try done;
      [lia|by apply ascends_join, Forall_app|by eapply owned_delete|].
    exists xs', d', h'. split; [exact E'|]. apply merged_hit; try done.
    replace (length xs0 + 1 + length xs2 + length gap2 + length d)%nat with (length xs0 + length gap2 + length (s :: xs2 ++ d))%nat
      by (cbn [length]; rewrite length_app; lia). done.
  - assert (Hlt : Forall (λ x, mid x < mid s) xs1) by (eapply Forall_impl; [by apply last2_bound|]; cbn; lia).
    destruct (peel_miss xs1 ys s Hlt) as (_ & _ & Eg). rewrite Eg, length_app, Nat.add_1_r in Hgap.
    destruct (wr_last xs1 _ gap1 (xs2 ++ d) rest s Hgap) as (gap2 & Hg2 & Ew & Ei).
    cbn [mbind res_bind]. rewrite Ew. cbn [mbind res_bind]. rewrite Ei, <-Hg2.
    destruct (IH xs1 gap2 (s :: xs2 ++ d) rest h) as (xs' & d' & h' & E' & HM); try done;
      [by apply ascends_join, Forall_app|by eapply owned_prefix|].
    exists xs', d', h'. split; [exact E'|]. apply merged_miss; try done.
    replace (length xs1 + length xs2 + length gap1 + length d)%nat with (length xs1 + length gap2 + length (s :: xs2 ++ d))%nat
      by (cbn [length]; rewrite length_app; lia). done.
Qed.

(** The loop that only counts. *)
Lemma rd_prefix xs ws gap d rest : rd2 (cells2 (xs ++ ws) gap d rest) (Z.of_nat (length xs)) = Ok (last2 xs).
Proof.
  rewrite <-(rd_last2 xs ((Some <$> ws) ++ gap) d rest). f_equal. unfold cells2.
  by rewrite app_comm_cons, fmap_app, <-!(assoc_L (++)).
Qed.

Lemma len_down_spec fuel yp : ∀ xs ws gap d rest, (length xs < fuel)%nat → 0 ≤ yp →
  ∃ xs1 xs2, xs = xs1 ++ xs2 ∧ Forall (λ x, yp < mid x) xs2 ∧ mid (last2 xs1) ≤ yp ∧
    len_down fuel (cells2 (xs ++ ws) gap d rest) yp (Z.of_nat (length xs)) = Ok (Z.of_nat (length xs1)).
Proof.
  induction fuel as [|fuel IH]; intros xs ws gap d rest Hf Hy; [lia|]. cbn [len_down]. rewrite rd_prefix. cbn [mbind res_bind].
  destruct xs as [|x xs _] using rev_ind.
  { exists [], []. cbn [last2 last default from_option mid] in *. by rewrite (proj2 (Z.ltb_ge _ _)) by done. }
  rewrite last2_snoc. destruct (Z.ltb_spec yp (mid x)) as [L|L].
  2:{ exists (xs ++ [x]), []. by rewrite last2_snoc, app_nil_r. }
  rewrite length_app in *. cbn [length] in *. rewrite <-(assoc_L (++)).
  replace (Z.of_nat (length xs + 1) - 1) with (Z.of_nat (length xs)) by lia.
  destruct (IH xs ([x] ++ ws) gap d rest) as (xs1 & xs2 & -> & F & Hl & E); [lia|done|].
  exists xs1, (xs2 ++ [x]). split; [by rewrite (assoc_L (++))|]. split; [apply Forall_app; by rewrite Forall_singleton|]. done.
Qed.

Lemma hidden_snoc_below ys xs xs2 : (∀ y x, y ∈ ys → x ∈ xs2 → mid y < mid x) → hidden ys (xs ++ xs2) = hidden ys xs.
Proof.
  intros H. unfold hidden. induction ys as [|y ys IH]; [done|]. rewrite !filter_cons, IH by set_solver.
  assert (E : mid y ∈ mid <$> xs ++ xs2 ↔ mid y ∈ mid <$> xs).
  { rewrite fmap_app, elem_of_app. split; [|by left]. intros [?|(x & Hx & Em)%mid_elem]; [done|].
    specialize (H y x ltac:(set_solver) Hx). lia. }
  destruct (decide (mid y ∈ mid <$> xs)); [rewrite !decide_True by tauto|rewrite !decide_False by tauto]; done.
Qed.

Lemma len_loop_spec ys : ∀ xs ws gap d rest len,
  (∀ i y, ys !! i = Some y → rd2 src (Z.of_nat (S i)) = Ok y) → Forall (λ y, 0 < mid y) ys → ascends xs → ascends ys →
  len_loop (length ys) src (cells2 (xs ++ ws) gap d rest) (Z.of_nat (length xs)) len = Ok (len - Z.of_nat (length (hidden ys xs))).
Proof using Type.
  induction ys as [|s ys IH] using rev_ind; intros xs ws gap d rest len Hsrc Hpos Hsx Hsy; [cbn; f_equal; lia|].
  apply Forall_app in Hpos as [Hpos Hs]. rewrite Forall_singleton in Hs. destruct (ascends_last _ _ Hsy) as [Hys Fys].
  assert (Hsrc' : ∀ i y, ys !! i = Some y → rd2 src (Z.of_nat (S i)) = Ok y) by (intros i y Hi; apply Hsrc; by apply lookup_app_l_Some).
  rewrite length_app, Nat.add_1_r. cbn [len_loop].
  destruct (Z.eqb_spec (Z.of_nat (length xs)) 0) as [E0|_].
  { destruct xs; [|done]. unfold hidden. rewrite filter_none; [cbn; f_equal; lia|]. rewrite Forall_forall. intros y _. apply not_elem_of_nil. }
  rewrite (Hsrc (length ys) s) by (by rewrite lookup_app_r, Nat.sub_diag by lia). cbn [mbind res_bind].
  destruct (len_down_spec (S (Z.to_nat (Z.of_nat (length xs)))) (mid s) xs ws gap d rest) as (xs1 & xs2 & -> & F & Hl & E); [lia|lia|].
  rewrite E. cbn [mbind res_bind]. rewrite <-(assoc_L (++)), rd_prefix. cbn [mbind res_bind].
  destruct (proj1 (StronglySorted_app _ _ _) Hsx) as (Hx12 & Hx1 & Hx2).
  rewrite Forall_forall in F, Fys.
  assert (E2 : hidden (ys ++ [s]) (xs1 ++ xs2) = hidden (ys ++ [s]) xs1).
  { apply hidden_snoc_below. intros y x [Hy| ->%list_elem_of_singleton]%elem_of_app Hx; [|by apply F].
    specialize (F x Hx). specialize (Fys y Hy). lia. }
  rewrite E2. unfold hidden. rewrite filter_app, length_app. fold (hidden ys xs1).
  destruct (Z.eqb_spec (mid s) (mid (last2 xs1))) as [Hit|Hit].
  - destruct xs1 as [|x xs0 _] using rev_ind; [cbn in Hit; lia|]. rewrite last2_snoc in *.
    rewrite filter_cons_True by (rewrite mid_elem; exists x; split; [set_solver|done]). rewrite filter_nil. cbn [length].
    rewrite length_app. cbn [length]. replace (Z.of_nat (length xs0 + 1) - 1) with (Z.of_nat (length xs0)) by lia.
    rewrite <-(assoc_L (++) xs0). destruct (ascends_last _ _ Hx1) as [Hx0 _]. rewrite IH by done. f_equal.
    rewrite (hidden_snoc_below ys xs0 [x]); [lia|]. intros y x' Hy ->%list_elem_of_singleton. rewrite <-Hit. by apply Fys.
  - rewrite filter_cons_False, filter_nil; [cbn [length]; rewrite IH by done; f_equal; lia|].
    intros (x & Hx & Em)%mid_elem. pose proof (last2_bound xs1 Hx1) as Fb. rewrite Forall_forall in Fb. specialize (Fb x Hx).
    cbn in Fb. lia.
Qed.

Lemma fresh_hidden xs ys : (length (fresh xs ys) + length (hidden ys xs) = length ys)%nat.
Proof.
  unfold fresh, hidden. induction ys as [|y ys IH]; [done|]. rewrite !filter_cons.
  destruct (decide (mid y ∈ mid <$> xs)); [rewrite decide_False by tauto|rewrite decide_True by tauto]; cbn [length]; lia.
Qed.
End merge.

(** The dirty list of the parent after the merge. *)
Lemma merge_dirty_spec fuel grand room p q xs ys gap rest junk h :
  (33 ≤ fuel)%nat → ascends xs → ascends ys → Forall (λ y, 0 < mid y < 2 ^ 63) xs → Forall (λ y, 0 < mid y) ys →
  Z.of_nat (length ys) < 2 ^ 32 - 1 → length gap = length (fresh xs ys) →
  (grand = false → MDB_IDL_UM_MAX - room = Z.of_nat (length xs + length (fresh xs ys))) → owned h xs →
  ∃ zs h', merge_dirty fuel grand room (mid2l_cells q ys junk) (mid2l_cells p xs (gap ++ rest)) h = Ok (mid2l_cells p zs rest, h') ∧
    ascends zs ∧ zs ≡ₚ fresh ys xs ++ ys ∧ (∀ a, h' !! a = if decide (a ∈ mptr <$> hidden xs ys) then None else h !! a).
Proof.
  intros Hfuel Hsx Hsy Hpx Hpy Hly Hgap Hroom Ho.
  set (src := mid2l_cells q ys junk).
  assert (Hsrc : ∀ i y, ys !! i = Some y → rd2 src (Z.of_nat (S i)) = Ok y) by (intros i y; by apply mid2l_cells_rd).
  destruct (merge_loop_spec p src ys xs gap [] rest h Hsrc Hpy Hgap) as (xs' & d' & h' & E & Ha & Hp & Hl & Hh);
    [by rewrite app_nil_r|by rewrite app_nil_r|done|].
  exists (xs' ++ d'), h'. rewrite app_nil_r in Hp. split; [|done].
  unfold merge_dirty.
  change (rd2 (mid2l_cells p xs (gap ++ rest)) 0) with (Ok (MkID2 (Z.of_nat (length xs)) p)).
  change (rd2 src 0) with (Ok (MkID2 (Z.of_nat (length ys)) q)). cbn [mbind res_bind mid mptr].
  assert (Hw : wr2 (mid2l_cells p xs (gap ++ rest)) 0 (MkID2 0 p) = Ok (cells2 p xs gap [] rest)) by exact (wr2_app [] _ _ 0 _ eq_refl).
  rewrite Hw. cbn [mbind res_bind].
  assert (Elen : (if grand then
      d ← rd2 (cells2 p xs gap [] rest) (Z.of_nat (length xs));
      y ← mdb_mid2l_search fuel src (u64 (mid d + 1));
      len_loop (Z.to_nat (y - 1)) src (cells2 p xs gap [] rest) (Z.of_nat (length xs)) (Z.of_nat (length xs) + Z.of_nat (length ys))
    else Ok (MDB_IDL_UM_MAX - room)) = Ok (Z.of_nat (length xs + length gap))).
  { destruct grand; [|by rewrite Hroom, Hgap]. rewrite rd_last2. cbn [mbind res_bind].
    pose proof (last2_bound p xs Hsx) as Fb.
    assert (Hr : 0 ≤ mid (last2 p xs) < 2 ^ 63).
    { destruct xs as [|x xs _] using rev_ind; [done|]. rewrite last2_snoc. apply Forall_app in Hpx as [_ Hx].
      rewrite Forall_singleton in Hx. lia. }
    rewrite u64_small by lia.
    destruct (mid2l_search_spec fuel q ys junk (mid (last2 p xs) + 1) Hfuel Hsy Hly) as (pre & post & Ey & Es & Hpre & Hpost).
    fold src in Es. rewrite Es. cbn [mbind res_bind]. replace (Z.to_nat (Z.of_nat (S (length pre)) - 1)) with (length pre) by lia.
    pose proof (len_loop_spec p src pre xs [] gap [] rest) as HL. rewrite app_nil_r in HL. rewrite Ey in Hsrc, Hpy, Hsy, Hgap |- *.
    rewrite HL; [|intros i y Hi; apply Hsrc; by apply lookup_app_l_Some|by apply Forall_app in Hpy as [? _]|done|by apply StronglySorted_app in Hsy as (_ & ? & _)].
    f_equal. rewrite Hgap. pose proof (fresh_hidden xs (pre ++ post)) as Ec. unfold hidden in Ec at 1. rewrite filter_app in Ec.
    fold (hidden pre xs) (hidden post xs) in Ec.
    assert (hidden post xs = []) as Eh.
    { apply fresh_above. intros z x Hz Hx. rewrite Forall_forall in Fb, Hpost. specialize (Fb x Hx). specialize (Hpost z Hz). cbn in *. lia. }
    rewrite Eh, app_nil_r in Ec. lia. }
  rewrite Elen. cbn [mbind res_bind]. rewrite Nat2Z.id, E. cbn [mbind res_bind]. rewrite Z.eqb_refl. cbn [c_assert mbind res_bind].
  cbn [length] in Hl. rewrite Nat.add_0_r in Hl.
  change (wr2 (cells2 p xs' [] d' rest) 0 (MkID2 (Z.of_nat (length xs + length gap)) p))
    with (wr2 ([] ++ Some (MkID2 0 p) :: (Some <$> xs') ++ [] ++ (Some <$> d') ++ rest) 0 (MkID2 (Z.of_nat (length xs + length gap)) p)).
  rewrite wr2_app by done. cbn [mbind res_bind app]. unfold mid2l_cells. rewrite Hl, fmap_app, <-(assoc_L (++)). done.
Qed.

(** ** Spilled pages leave a dirty list *)

Lemma close_gap_spec post : ∀ pre c tl,
  ∃ l, close_gap (length post) (Z.of_nat (length pre)) (pre ++ c :: (Some <$> post) ++ tl) = Ok (pre ++ (Some <$> post) ++ l :: tl).
Proof.
  induction post as [|d post IH]; intros pre c tl; [by exists c|]. cbn [length close_gap fmap list_fmap app].
  assert (Hr : rd2 (pre ++ c :: Some d :: (Some <$> post) ++ tl) (Z.of_nat (length pre) + 1) = Ok d).
  { change (pre ++ c :: Some d :: (Some <$> post) ++ tl) with (pre ++ [c] ++ Some d :: (Some <$> post) ++ tl).
    rewrite (assoc_L (++)). apply rd2_app. rewrite length_app. cbn. lia. }
  rewrite Hr. cbn [mbind res_bind]. rewrite wr2_app by done. cbn [mbind res_bind].
  destruct (IH (pre ++ [Some d]) (Some d) tl) as [l E]. exists l. rewrite length_app in E. cbn [length] in E.
  rewrite <-!(assoc_L (++)) in E. cbn [app] in E. replace (Z.of_nat (length pre) + 1) with (Z.of_nat (length pre + 1)) by lia. exact E.
Qed.

(** The entries that a list of spilled pages leaves. *)
Definition unspilled (sp : list Z) (xs : list ID2) : list ID2 := filter (λ x, 2 * mid x ∉ sp) xs.
Definition spilled (sp : list Z) (xs : list ID2) : list ID2 := filter (λ x, 2 * mid x ∈ sp) xs.

Lemma even_shift c : Z.land c 1 = 0 → c = 2 * Z.shiftr c 1.
Proof.
  intros H. rewrite Z.shiftr_div_pow2 by lia. change (2 ^ 1) with 2. change 1 with (Z.ones 1) in H. rewrite Z.land_ones in H by lia.
  pose proof (Z.div_mod c 2). change (2 ^ 1) with 2 in H. lia.
Qed.

Lemma odd_shift c : Z.land c 1 ≠ 0 → ∀ x, c ≠ 2 * x.
Proof. intros H x ->. apply H. change 1 with (Z.ones 1). rewrite Z.land_ones by lia. change (2 ^ 1) with 2. rewrite Z.mul_comm. apply Z.mod_mul. lia. Qed.

Lemma drop_one_spec fuel c p xs junk h :
  (33 ≤ fuel)%nat → ascends xs → Z.of_nat (length xs) < 2 ^ 32 - 1 → owned h xs →
  ∃ junk' h', drop_one fuel c (mid2l_cells p xs junk) h = Ok (mid2l_cells p (unspilled [c] xs) junk', h') ∧
    (length (unspilled [c] xs) + length junk' = length xs + length junk)%nat ∧
    (∀ a, h' !! a = if decide (a ∈ mptr <$> spilled [c] xs) then None else h !! a).
Proof.
  intros Hfuel Hs Hl Ho. unfold drop_one.
  assert (Keep : (∀ x, x ∈ xs → c ≠ 2 * mid x) → ∃ junk' h', Ok (mid2l_cells p xs junk, h) = Ok (mid2l_cells p (unspilled [c] xs) junk', h') ∧
    (length (unspilled [c] xs) + length junk' = length xs + length junk)%nat ∧
    (∀ a, h' !! a = if decide (a ∈ mptr <$> spilled [c] xs) then None else h !! a)).
  { intros N. exists junk, h. unfold unspilled, spilled.
    rewrite filter_all by (rewrite Forall_forall; intros x Hx; rewrite list_elem_of_singleton; specialize (N x Hx); lia).
    rewrite filter_none by (rewrite Forall_forall; intros x Hx; rewrite list_elem_of_singleton; specialize (N x Hx); lia).
    done. }
  destruct (Z.eqb_spec (Z.land c 1) 0) as [Hc|Hc]; cbn [negb]; [|apply Keep; intros x _; by apply odd_shift].
  apply even_shift in Hc. set (pn := Z.shiftr c 1) in *.
  destruct (mid2l_search_spec fuel p xs junk pn Hfuel Hs Hl) as (pre & post & -> & Es & Hpre & Hpost). rewrite Es. cbn [mbind res_bind].
  change (rd2 (mid2l_cells p (pre ++ post) junk) 0) with (Ok (MkID2 (Z.of_nat (length (pre ++ post))) p)). cbn [mbind res_bind mid mptr].
  rewrite Forall_forall in Hpre.
  destruct post as [|d post].
  { rewrite app_nil_r in *. rewrite (proj2 (Z.leb_gt _ _)) by lia. cbn [negb]. apply Keep. intros x Hx. specialize (Hpre x Hx). lia. }
  rewrite (proj2 (Z.leb_le _ _)) by (rewrite length_app; cbn; lia). cbn [negb].
  rewrite (mid2l_cells_rd p _ junk (length pre) d) by (by rewrite lookup_app_r, Nat.sub_diag by lia). cbn [mbind res_bind].
  destruct (ascends_apart _ _ _ Hs) as (Hs1 & Hs2 & F1 & F2). rewrite Forall_forall in F2.
  apply Forall_cons in Hpost as [Hd _].
  destruct (Z.eqb_spec (mid d) pn) as [Ed|Nd]; cbn [negb].
  2:{ apply Keep. intros x [Hx|[->|Hx]%elem_of_cons]%elem_of_app; [specialize (Hpre x Hx); lia|lia|specialize (F2 x Hx); lia]. }
  rewrite (owned_block h pre d post Ho). cbn [mbind res_bind].
  replace (Z.to_nat (Z.of_nat (length (pre ++ d :: post)) - Z.of_nat (S (length pre)))) with (length post) by (rewrite length_app; cbn; lia).
  unfold mid2l_cells at 1. rewrite fmap_app, fmap_cons.
  destruct (close_gap_spec post (Some (MkID2 (Z.of_nat (length (pre ++ d :: post))) p) :: (Some <$> pre)) (Some d) junk) as [l E].
  cbn [length] in E. rewrite length_fmap in E. cbn [app] in E. rewrite <-(assoc_L (++)). cbn [app]. rewrite E. cbn [mbind res_bind].
  rewrite (wr2_app [] _ _ 0 _ eq_refl : wr2 (_ :: _) 0 _ = Ok (_ :: _)). cbn [mbind res_bind app].
  assert (EF : unspilled [c] (pre ++ d :: post) = pre ++ post ∧ spilled [c] (pre ++ d :: post) = [d]).
  { assert (Hin : 2 * mid d ∈ [c]) by (rewrite list_elem_of_singleton; lia).
    unfold unspilled, spilled. rewrite !filter_app, filter_cons_False by tauto. rewrite filter_cons_True by done.
    rewrite !(filter_all (λ x, 2 * mid x ∉ [c])), !(filter_none (λ x, 2 * mid x ∈ [c])); [done|..]; rewrite Forall_forall; intros x Hx;
      rewrite list_elem_of_singleton; first [specialize (F2 x Hx)|specialize (Hpre x Hx)]; cbn in *; lia. }
  destruct EF as [-> ->]. exists (l :: junk), (delete (mptr d) h). split; [|split].
  - unfold mid2l_cells. rewrite fmap_app, <-(assoc_L (++)).
    by replace (Z.of_nat (length (pre ++ d :: post)) - 1) with (Z.of_nat (length (pre ++ post))) by (rewrite !length_app; cbn; lia).
  - rewrite !length_app. cbn. lia.
  - intros a. destruct (decide (a = mptr d)) as [Ea|N].
    + rewrite Ea, lookup_delete_eq. by rewrite decide_True by (by apply list_elem_of_singleton).
    + rewrite lookup_delete_ne by done. rewrite decide_False; [done|]. cbn. by rewrite list_elem_of_singleton.
Qed.

Lemma StronglySorted_sublist {A} (R : relation A) l l' : sublist l l' → StronglySorted R l' → StronglySorted R l.
Proof.
  induction 1 as [|x l l' Hs IH|x l l' Hs IH]; intros H; [done| |].
  - apply StronglySorted_cons in H as [F H]. constructor; [by apply IH|]. rewrite Forall_forall in *. intros y Hy. apply F.
    by eapply sublist_subseteq.
  - apply StronglySorted_cons in H as [F H]. by apply IH.
Qed.

Lemma unspilled_cons c sp xs : unspilled sp (unspilled [c] xs) = unspilled (c :: sp) xs.
Proof. unfold unspilled. rewrite list_filter_filter. apply list_filter_iff. intros x. set_solver. Qed.

Lemma spilled_cons c sp xs a : a ∈ mptr <$> spilled (c :: sp) xs ↔ a ∈ mptr <$> spilled sp (unspilled [c] xs) ∨ a ∈ mptr <$> spilled [c] xs.
Proof.
  assert (F : ∀ x sp xs, x ∈ spilled sp xs ↔ 2 * mid x ∈ sp ∧ x ∈ xs) by (intros ???; unfold spilled; by rewrite list_elem_of_filter).
  assert (G : ∀ x sp xs, x ∈ unspilled sp xs ↔ 2 * mid x ∉ sp ∧ x ∈ xs) by (intros ???; unfold unspilled; by rewrite list_elem_of_filter).
  rewrite !list_elem_of_fmap. split.
  - intros (x & -> & [Hc Hx]%F). destruct (decide (2 * mid x = c)) as [E|N].
    + right. exists x. rewrite F, list_elem_of_singleton. done.
    + left. exists x. rewrite F, G, list_elem_of_singleton. apply elem_of_cons in Hc as [?|Hc]; done.
  - intros [(x & -> & [Hc [_ Hx]%G]%F)|(x & -> & [Hc%list_elem_of_singleton Hx]%F)]; exists x; rewrite F, elem_of_cons; auto.
Qed.

Lemma drop_spilled_spec fuel p sp : ∀ xs junk h i b,
  (33 ≤ fuel)%nat → ascends xs → Z.of_nat (length xs) < 2 ^ 32 - 1 → owned h xs →
  (∀ j c, sp !! j = Some c → rd b (i + Z.of_nat j) = Ok c) →
  ∃ junk' h', drop_spilled fuel (length sp) i b (mid2l_cells p xs junk) h = Ok (mid2l_cells p (unspilled sp xs) junk', h') ∧
    (length (unspilled sp xs) + length junk' = length xs + length junk)%nat ∧
    (∀ a, h' !! a = if decide (a ∈ mptr <$> spilled sp xs) then None else h !! a).
Proof.
  induction sp as [|c sp IH]; intros xs junk h i b Hfuel Hs Hl Ho Hb.
  { exists junk, h. unfold unspilled, spilled. rewrite filter_all, filter_none; [done|..]; rewrite Forall_forall; intros x _; set_solver. }
  cbn [length drop_spilled]. pose proof (Hb 0%nat c eq_refl) as H0. rewrite Z.add_0_r in H0. rewrite H0. cbn [mbind res_bind].
  destruct (drop_one_spec fuel c p xs junk h Hfuel Hs Hl Ho) as (junk1 & h1 & -> & Hl1 & Hh1). cbn [mbind res_bind].
  assert (Hsub : sublist (unspilled [c] xs) xs) by apply sublist_filter.
  destruct (IH (unspilled [c] xs) junk1 h1 (i + 1) b Hfuel) as (junk2 & h2 & -> & Hl2 & Hh2).
  - by eapply StronglySorted_sublist.
  - apply sublist_length in Hsub. lia.
  - unfold unspilled. by eapply owned_filter.
  - intros j c' Hj. replace (i + 1 + Z.of_nat j) with (i + Z.of_nat (S j)) by lia. by apply Hb.
  - exists junk2, h2. rewrite <-(unspilled_cons c sp xs). split; [done|]. split; [lia|]. intros a. rewrite Hh2, Hh1.
    destruct (decide (a ∈ mptr <$> spilled (c :: sp) xs)) as [Hd|Hd]; rewrite spilled_cons in Hd; repeat case_decide; tauto.
Qed.

(** ** Dirty pages leave a spill list *)

Definition spill_cells (v : list Z) (junk : block) : block := Some (u64 (-1)) :: (Some <$> v) ++ junk.

Lemma spill_cells_rd v w junk : rd (spill_cells (v ++ w) junk) (Z.of_nat (length v)) = Ok (default (u64 (-1)) (last v)).
Proof.
  unfold spill_cells. destruct v as [|x v _] using rev_ind; [done|]. rewrite last_snoc, fmap_app, fmap_app, <-!(assoc_L (++)).
  apply (rd_app (Some (u64 (-1)) :: (Some <$> v))). rewrite length_app. cbn. rewrite length_fmap. lia.
Qed.

Lemma spill_cells_wr v c w junk x :
  wr (spill_cells (v ++ c :: w) junk) (Z.of_nat (S (length v))) x = Ok (spill_cells (v ++ x :: w) junk).
Proof.
  unfold spill_cells. rewrite !fmap_app, !fmap_cons, <-!(assoc_L (++)).
  apply (wr_app (Some (u64 (-1)) :: (Some <$> v))). cbn. rewrite length_fmap. lia.
Qed.

Lemma spill_down_spec fuel pn junk : ∀ v w, (length v < fuel)%nat → pn ≤ u64 (-1) →
  ∃ v1 v2, v = v1 ++ v2 ∧ Forall (λ c, c < pn) v2 ∧ pn ≤ default (u64 (-1)) (last v1) ∧
    spill_down fuel (spill_cells (v ++ w) junk) pn (Z.of_nat (length v)) = Ok (Z.of_nat (length v1)).
Proof.
  induction fuel as [|fuel IH]; intros v w Hf Hp; [lia|]. cbn [spill_down]. rewrite spill_cells_rd. cbn [mbind res_bind].
  destruct v as [|x v _] using rev_ind.
  { exists [], []. cbn [last default from_option]. by rewrite (proj2 (Z.ltb_ge _ _)) by done. }
  rewrite last_snoc. cbn [default from_option]. unfold id. destruct (Z.ltb_spec x pn) as [L|L].
  2:{ exists (v ++ [x]), []. by rewrite last_snoc, app_nil_r. }
  rewrite length_app in *. cbn [length] in *. rewrite <-(assoc_L (++)).
  replace (Z.of_nat (length v + 1) - 1) with (Z.of_nat (length v)) by lia.
  destruct (IH v ([x] ++ w)) as (v1 & v2 & -> & F & Hl & E); [lia|done|].
  exists v1, (v2 ++ [x]). split; [by rewrite (assoc_L (++))|]. split; [apply Forall_app; by rewrite Forall_singleton|]. done.
Qed.

(** The numbers of dirty pages as a spill list has them, and a spill list with them marked. *)
Definition shifted (ys : list ID2) : list Z := (λ y, 2 * mid y) <$> ys.
Definition mark (ys : list ID2) (c : Z) : Z := if decide (c ∈ shifted ys) then 1 else c.

Lemma mark_none ys v : Forall (λ c, c ∉ shifted ys) v → mark ys <$> v = v.
Proof. induction 1 as [|c v H _ IH]; [done|]. cbn. unfold mark at 1. by rewrite decide_False, IH. Qed.

Lemma shifted_cons s ys c : c ∈ shifted (s :: ys) ↔ c = 2 * mid s ∨ c ∈ shifted ys.
Proof. apply elem_of_cons. Qed.

Lemma shifted_above s ys c : Forall (λ y, mid s < mid y) ys → c ∈ shifted ys → 2 * mid s < c.
Proof. rewrite Forall_forall. intros H (y & -> & Hy)%list_elem_of_fmap. specialize (H y Hy). lia. Qed.

Lemma spill_order_last v n : StronglySorted spill_order (v ++ [2 * n]) → Forall (λ c, 2 * n < c) v.
Proof.
  intros (H & _)%StronglySorted_app. rewrite Forall_forall. intros c Hc.
  destruct (H c (2 * n) Hc) as [?|[<- Ho]]; [set_solver|done|]. by rewrite Z.odd_mul in Ho.
Qed.

Lemma spill_order_lower v c d : StronglySorted spill_order (v ++ [c]) → d < c → Forall (λ x, d < x) (v ++ [c]).
Proof.
  intros (H & _)%StronglySorted_app Hd. apply Forall_app. rewrite Forall_singleton. split; [|done].
  rewrite Forall_forall. intros x Hx. destruct (H x c Hx) as [?|[<- _]]; [set_solver|lia|done].
Qed.

Lemma mark_spilled_spec src junk ys : ∀ v w y i,
  (∀ j s, ys !! j = Some s → rd2 src (i + Z.of_nat j + 1) = Ok s) → ascends ys → Forall (λ s, 0 < mid s < 2 ^ 63) ys →
  StronglySorted spill_order v → (length v ≤ y)%nat →
  ∃ y', mark_spilled (length ys) i src (spill_cells (v ++ w) junk) (Z.of_nat (length v)) (Z.of_nat y)
      = Ok (spill_cells ((mark ys <$> v) ++ w) junk, Z.of_nat y') ∧
    (y' ≤ y)%nat ∧ Forall (λ c, c ∉ shifted ys) (take y' v).
Proof.
  induction ys as [|s ys IH]; intros v w y i Hsrc Hs Hr Hv Hy.
  { exists y. rewrite mark_none by (rewrite Forall_forall; intros c _; apply not_elem_of_nil). split; [done|]. split; [done|].
    rewrite Forall_forall. intros c _. apply not_elem_of_nil. }
  apply StronglySorted_cons in Hs as [Fs Hs]. apply Forall_cons in Hr as [Hr1 Hr].
  cbn [length mark_spilled]. pose proof (Hsrc 0%nat s eq_refl) as H0. rewrite Z.add_0_r in H0. rewrite H0. cbn [mbind res_bind].
  rewrite Z.shiftl_mul_pow2, (Z.mul_comm (mid s)), u64_small by lia. change (2 ^ 1) with 2.
  assert (Hsrc' : ∀ j s0, ys !! j = Some s0 → rd2 src (i + 1 + Z.of_nat j + 1) = Ok s0).
  { intros j s0 Hj. replace (i + 1 + Z.of_nat j + 1) with (i + Z.of_nat (S j) + 1) by lia. by apply Hsrc. }
  destruct (spill_down_spec (S (Z.to_nat (Z.of_nat (length v)))) (2 * mid s) junk v w) as (v1 & v2 & -> & F & Hl & E);
    [lia|change (u64 (-1)) with (2 ^ 64 - 1); lia|].
  rewrite E. cbn [mbind res_bind]. rewrite <-(assoc_L (++)), spill_cells_rd. cbn [mbind res_bind].
  destruct (proj1 (StronglySorted_app _ _ _) Hv) as (_ & Hv1 & _). rewrite length_app in Hy.
  assert (F2 : Forall (λ c, c ∉ shifted (s :: ys)) v2).
  { eapply Forall_impl; [exact F|]. cbn. intros c Hc [->|Hin%(shifted_above s)]%shifted_cons; [lia|lia|done]. }
  destruct (Z.eqb_spec (2 * mid s) (default (u64 (-1)) (last v1))) as [Hit|Hit].
  - destruct v1 as [|c v0 _] using rev_ind; [cbn in Hit; change (u64 (-1)) with (2 ^ 64 - 1) in Hit; lia|].
    rewrite last_snoc in Hit. cbn in Hit. subst c. pose proof (spill_order_last _ _ Hv1) as F0.
    rewrite <-(assoc_L (++)), length_app. cbn [length app]. rewrite length_app in Hy. cbn in Hy.
    replace (Z.of_nat (length v0 + 1)) with (Z.of_nat (S (length v0))) by lia. rewrite spill_cells_wr. cbn [mbind res_bind].
    replace (Z.of_nat (S (length v0)) - 1) with (Z.of_nat (length v0)) by lia.
    destruct (IH v0 (1 :: v2 ++ w) (length v0) (i + 1) Hsrc' Hs Hr) as (y' & E' & Hy' & Ht);
      [by apply StronglySorted_app in Hv1 as (_ & ? & _)|done|].
    exists y'. split; [|split; [lia|]].
    + rewrite E', !fmap_app. rewrite (mark_none _ v2) by done. do 3 f_equal. rewrite <-!(assoc_L (++)). f_equal.
      * apply list_fmap_ext. intros j c Hj%list_elem_of_lookup_2. unfold mark. rewrite Forall_forall in F0. specialize (F0 c Hj).
        repeat case_decide; [done| | |done]; rewrite shifted_cons in *; intuition lia.
      * cbn. unfold mark. rewrite decide_True; [done|]. rewrite shifted_cons. by left.
    + rewrite <-(assoc_L (++)), take_app_le by lia. rewrite Forall_forall in Ht, F0 |- *. intros c Hc [->|Hin]%shifted_cons; [|by apply (Ht c)].
      apply elem_of_take in Hc as (j & Hj & _). apply list_elem_of_lookup_2 in Hj. specialize (F0 _ Hj). lia.
  - assert (F1 : Forall (λ c, 2 * mid s < c) v1).
    { destruct v1 as [|c v1 _] using rev_ind; [constructor|]. rewrite last_snoc in *. cbn in *. apply spill_order_lower; [done|lia]. }
    destruct (IH v1 (v2 ++ w) y (i + 1) Hsrc' Hs Hr Hv1 ltac:(lia)) as (y' & E' & Hy' & Ht). exists y'. split; [|split; [done|]].
    + rewrite E', fmap_app, (mark_none _ v2), <-(assoc_L (++)) by done. do 4 f_equal.
      apply list_fmap_ext. intros j c Hj%list_elem_of_lookup_2. unfold mark. rewrite Forall_forall in F1. specialize (F1 c Hj).
      repeat case_decide; [done| | |done]; rewrite shifted_cons in *; intuition lia.
    + rewrite take_app. apply Forall_app. split; [|by apply Forall_take].
      rewrite Forall_forall in Ht, F1 |- *. intros c Hc [->|Hin]%shifted_cons; [|by apply (Ht c)].
      apply elem_of_take in Hc as (j & Hj & _). apply list_elem_of_lookup_2 in Hj. specialize (F1 _ Hj). lia.
Qed.

Lemma squash_spec R : ∀ K gap junk, ∃ gap', (length (filter (λ c, Z.land c 1 = 0%Z) R) + length gap' = length gap + length R)%nat ∧
  squash (length R) (Z.of_nat (length K + length gap)) (Z.of_nat (length K)) (spill_cells (K ++ gap ++ R) junk)
  = Ok (spill_cells (K ++ filter (λ c, Z.land c 1 = 0) R ++ gap') junk, Z.of_nat (length K + length (filter (λ c, Z.land c 1 = 0) R))).
Proof.
  induction R as [|c R IH]; intros K gap junk.
  { exists gap. cbn. rewrite app_nil_r. split; [lia|]. do 3 f_equal. lia. }
  cbn [length squash].
  assert (Hr : rd (spill_cells (K ++ gap ++ c :: R) junk) (Z.of_nat (length K + length gap) + 1) = Ok c).
  { pose proof (spill_cells_rd (K ++ gap ++ [c]) R junk) as H. rewrite (assoc_L (++)), last_snoc in H. rewrite !length_app in H. cbn [length] in H.
    rewrite <-!(assoc_L (++)) in H. cbn [app] in H. replace (Z.of_nat (length K + length gap) + 1) with (Z.of_nat (length K + length gap + 1)) by lia. exact H. }
  rewrite Hr. cbn [mbind res_bind]. rewrite filter_cons. destruct (Z.eqb_spec (Z.land c 1) 0) as [Hc|Hc].
  - rewrite decide_True by done.
    assert (Eg' : ∃ d' gap1, gap ++ [c] = d' :: gap1 ∧ length gap1 = length gap).
    { destruct gap as [|g0 gap]; [by exists c, []|]. exists g0, (gap ++ [c]). split; [done|]. rewrite length_app. cbn. lia. }
    destruct Eg' as (d' & gap1 & Eg1 & Hg1).
    replace (K ++ gap ++ c :: R) with (K ++ d' :: (gap1 ++ R)) by (rewrite app_comm_cons, <-Eg1, <-(assoc_L (++)); done).
    replace (Z.of_nat (length K) + 1) with (Z.of_nat (S (length K))) by lia. rewrite spill_cells_wr. cbn [mbind res_bind].
    destruct (IH (K ++ [c]) gap1 junk) as (gap' & Hg & E). exists gap'. split; [cbn [length]; lia|]. rewrite length_app in E. cbn [length] in E.
    rewrite <-!(assoc_L (++)) in E. cbn [app] in E.
    replace (Z.of_nat (length K + length gap) + 1) with (Z.of_nat (length K + 1 + length gap1)) by lia.
    replace (Z.of_nat (S (length K))) with (Z.of_nat (length K + 1)) by lia. rewrite E. cbn [length app]. do 3 f_equal. lia.
  - rewrite decide_False by done. destruct (IH K (gap ++ [c]) junk) as (gap' & Hg & E). exists gap'. rewrite length_app in Hg, E. cbn [length] in Hg, E. split; [lia|].
    rewrite <-!(assoc_L (++)) in E. cbn [app] in E.
    replace (Z.of_nat (length K + length gap) + 1) with (Z.of_nat (length K + (length gap + 1))) by lia. exact E.
Qed.

Lemma even_land c : Z.land c 1 = 0 ↔ ∃ n, c = 2 * n.
Proof.
  change 1 with (Z.ones 1). rewrite Z.land_ones by lia. change (2 ^ 1) with 2. rewrite Z.mod_divide by lia.
  split; intros [n ->]; exists n; lia.
Qed.

Lemma filter_marked ys R :
  filter (λ c : Z, Z.land c 1 = 0) (mark ys <$> R : list Z) = filter (λ c, Z.land c 1 = 0 ∧ c ∉ shifted ys) R.
Proof.
  induction R as [|c R IH]; [done|]. rewrite fmap_cons, !filter_cons, IH. unfold mark.
  destruct (decide (c ∈ shifted ys)) as [Hc|Hc].
  - rewrite decide_False by done. by rewrite decide_False by tauto.
  - destruct (decide (Z.land c 1 = 0)); [by rewrite decide_True|by rewrite decide_False by tauto].
Qed.

(** The pages that the child has dirty leave the list; the others stay. *)
Lemma unspill_parent_spec q ys sjunk xs junk :
  ascends ys → Forall (λ s, 0 < mid s < 2 ^ 63) ys → StronglySorted spill_order xs → Z.of_nat (length xs) < 2 ^ 32 →
  ∃ xs' junk', unspill_parent (mid2l_cells q ys sjunk) (midl_cells xs junk) = Ok (midl_cells xs' junk') ∧ sublist xs' xs ∧
    (length xs' + length junk' = length xs + length junk)%nat ∧ (∀ n, 2 * n ∈ xs' ↔ 2 * n ∈ xs ∧ 2 * n ∉ shifted ys).
Proof.
  intros Hs Hr Hx Hl. unfold unspill_parent.
  change (rd (midl_cells xs junk) 0) with (Ok (Z.of_nat (length xs))). cbn [mbind res_bind]. rewrite u32_small by lia.
  destruct (Z.eqb_spec (Z.of_nat (length xs)) 0) as [E0|_].
  { destruct xs; [|done]. exists [], junk. split; [done|]. split; [done|]. split; [done|]. intros n. set_solver. }
  rewrite (wr_app [] _ _ 0 _ eq_refl : wr (midl_cells xs junk) 0 (u64 (-1)) = Ok (spill_cells xs junk)). cbn [mbind res_bind].
  change (rd2 (mid2l_cells q ys sjunk) 0) with (Ok (MkID2 (Z.of_nat (length ys)) q)). cbn [mbind res_bind mid]. rewrite Nat2Z.id.
  assert (Hsrc : ∀ j s, ys !! j = Some s → rd2 (mid2l_cells q ys sjunk) (0 + Z.of_nat j + 1) = Ok s).
  { intros j s Hj. replace (0 + Z.of_nat j + 1) with (Z.of_nat (S j)) by lia. by apply mid2l_cells_rd. }
  destruct (mark_spilled_spec _ junk ys xs [] (length xs) 0 Hsrc Hs Hr Hx ltac:(done)) as (y & E & Hy & Ht).
  rewrite !app_nil_r in E. rewrite E. cbn [mbind res_bind].
  assert (Ev : mark ys <$> xs = take y xs ++ (mark ys <$> drop y xs)) by (by rewrite <-(mark_none _ _ Ht), <-fmap_app, take_drop).
  rewrite Ev.
  destruct (squash_spec (mark ys <$> drop y xs) (take y xs) [] junk) as (gap' & Hg & E2).
  rewrite length_fmap, length_drop, length_take, Nat.min_l, Nat.add_0_r in E2 by lia. cbn [app] in E2.
  rewrite length_fmap, length_drop in Hg. cbn [length] in Hg.
  replace (Z.to_nat (Z.of_nat (length xs) - Z.of_nat y)) with (length xs - y)%nat by lia. rewrite E2. cbn [mbind res_bind].
  rewrite filter_marked in Hg |- *. set (R := filter (λ c, Z.land c 1 = 0 ∧ c ∉ shifted ys) (drop y xs)) in *.
  assert (HR : sublist R (drop y xs)) by apply sublist_filter.
  exists (take y xs ++ R), ((Some <$> gap') ++ junk). split; [|split; [|split]].
  - rewrite (assoc_L (++)). unfold spill_cells. rewrite fmap_app, <-(assoc_L (++)).
    rewrite (wr_app [] _ _ 0 _ eq_refl : wr (Some (u64 (-1)) :: _) 0 _ = Ok (_ :: _)). cbn [app]. unfold midl_cells.
    rewrite !fmap_app, <-!(assoc_L (++)), !length_app, length_take. by replace (y `min` length xs)%nat with y by lia.
  - rewrite <-(take_drop y xs) at 2. by apply sublist_app.
  - rewrite !length_app, length_fmap, length_take. lia.
  - intros n. rewrite <-(take_drop y xs) at 2. unfold R. rewrite !elem_of_app, list_elem_of_filter, even_land.
    rewrite Forall_forall in Ht. specialize (Ht (2 * n)). naive_solver.
Qed.

(** ** Lists put together *)

(** A list with its room, which is the size of its array. *)
Definition idl_holds (l : IDL) (xs : list Z) : Prop :=
  ∃ junk, ids l = midl_cells xs junk ∧ room l = Z.of_nat (length xs + length junk).

Lemma copy_block_behind xs junk ys bjunk :
  (length ys ≤ length junk)%nat →
  copy_block (midl_cells xs junk) (Z.of_nat (length xs) + 1) (midl_cells ys bjunk) 1 (Z.of_nat (length ys))
  = Ok (Some (Z.of_nat (length xs)) :: (Some <$> xs ++ ys) ++ drop (length ys) junk).
Proof.
  intros Hl. unfold copy_block, midl_cells. cbn [length]. rewrite !length_app, !length_fmap.
  repeat rewrite (proj2 (Z.leb_le _ _)) by lia. cbn [andb].
  replace (Z.to_nat (Z.of_nat (length xs) + 1)) with (S (length xs)) by lia.
  replace (Z.to_nat (Z.of_nat (length xs) + 1 + Z.of_nat (length ys))) with (S (length xs + length ys)) by lia.
  rewrite Nat2Z.id. change (Z.to_nat 1) with 1%nat. cbn [drop take]. rewrite drop_0, <-app_comm_cons. do 2 f_equal.
  rewrite take_app_le, take_ge, (take_app_le (Some <$> ys)), take_ge by (rewrite length_fmap; lia).
  rewrite fmap_app, <-(assoc_L (++)). do 2 f_equal. rewrite drop_app_ge by (rewrite length_fmap; lia). f_equal. rewrite length_fmap. lia.
Qed.

Lemma append_list_spec l xs ys bjunk :
  idl_holds l xs → room l < 2 ^ 62 → Z.of_nat (length ys) < 2 ^ 31 →
  ∃ l', mdb_midl_append_list true l (midl_cells ys bjunk) = Ok (0, l') ∧ idl_holds l' (xs ++ ys).
Proof.
  intros (junk & Hb & Hr) Hm Hy. unfold mdb_midl_append_list. rewrite Hb.
  change (rd (midl_cells xs junk) 0) with (Ok (Z.of_nat (length xs))).
  change (rd (midl_cells ys bjunk) 0) with (Ok (Z.of_nat (length ys))). cbn [mbind res_bind].
  assert (Hw : ∀ n x c, wr (Some n :: c) 0 x = Ok (Some x :: c)) by (intros n x c; exact (wr_app [] (Some n) c 0 x eq_refl)).
  assert (Hend : ∀ r junk1, (length ys ≤ length junk1)%nat →
    r = Z.of_nat (length xs + length junk1) →
    ∃ l', (b ← copy_block (midl_cells xs junk1) (Z.of_nat (length xs) + 1) (midl_cells ys bjunk) 1 (Z.of_nat (length ys));
           b ← wr b 0 (Z.of_nat (length xs) + Z.of_nat (length ys)); Ok (0, MkIDL r b)) = Ok (0, l') ∧ idl_holds l' (xs ++ ys)).
  { intros r junk1 Hl ->. rewrite copy_block_behind by done. cbn [mbind res_bind]. rewrite Hw. cbn [mbind res_bind].
    eexists. split; [done|]. exists (drop (length ys) junk1). cbn [ids room]. rewrite length_app, length_drop. split; [|lia].
    unfold midl_cells. do 3 f_equal. rewrite length_app. lia. }
  rewrite u64_small by lia.
  destruct (Z.leb_spec (room l) (Z.of_nat (length xs) + Z.of_nat (length ys))) as [Hle|Hgt].
  - unfold mdb_midl_grow, to_int. rewrite u32_small, (proj2 (Z.ltb_lt _ _)) by lia. cbn [Z.eqb negb ids room].
    assert (Er : realloc_block (ids l) (u64 (room l + Z.of_nat (length ys) + 2) - 1)
                 = midl_cells xs (junk ++ replicate (length ys) None)).
    { unfold realloc_block. rewrite Hb, u64_small by lia. unfold midl_cells. cbn [length]. rewrite length_app, length_fmap.
      rewrite take_ge by (cbn [length]; rewrite length_app, length_fmap; lia). rewrite <-app_comm_cons, <-(assoc_L (++)). do 4 f_equal. lia. }
    rewrite Er. cbn -[midl_cells u64 copy_block Z.add Z.of_nat]. apply Hend; [rewrite length_app, length_replicate; lia|]. rewrite u64_small, length_app, length_replicate by lia. lia.
  - rewrite Hb. cbn -[midl_cells u64 copy_block Z.add Z.of_nat]. apply Hend; [|done]. lia.
Qed.

(** In a list in descending order that has no even number twice, only odd ones repeat. *)
Lemma spill_order_evens xs : StronglySorted spill_order xs → NoDup (filter (λ c, Z.land c 1 = 0) xs).
Proof.
  induction 1 as [|c xs Hs IH F]; [constructor|]. rewrite filter_cons. case_decide as Hc; [|done]. constructor; [|done].
  intros [_ Hin]%list_elem_of_filter. rewrite Forall_forall in F. apply even_land in Hc as [n ->].
  destruct (F _ Hin) as [?|[_ Ho]]; [lia|]. by rewrite Z.odd_mul in Ho.
Qed.

Lemma descending_spill_order xs : descending xs → NoDup (filter (λ c, Z.land c 1 = 0) xs) → StronglySorted spill_order xs.
Proof.
  induction 1 as [|c xs Hs IH F]; [constructor|]. rewrite filter_cons. intros Hn. constructor.
  { apply IH. case_decide; [by inversion Hn|done]. }
  rewrite Forall_forall in F |- *. intros d Hd. specialize (F d Hd). cbn in F. destruct (decide (d = c)) as [->|N]; [|left; lia].
  right. split; [done|]. case_decide as Hc.
  - apply NoDup_cons in Hn as [Hn _]. destruct Hn. by apply list_elem_of_filter.
  - destruct (Z.odd c) eqn:Ho; [done|]. destruct Hc. apply even_land. exists (Z.div2 c).
    rewrite (Z.div2_odd c) at 1. rewrite Ho. cbn. lia.
Qed.

Lemma spill_order_merge zs xs ys :
  descending zs → zs ≡ₚ xs ++ ys → StronglySorted spill_order xs → StronglySorted spill_order ys →
  (∀ n, 2 * n ∈ ys → 2 * n ∉ xs) → StronglySorted spill_order zs.
Proof.
  intros Hd Hp Hx Hy Hn. apply descending_spill_order; [done|].
  apply (NoDup_Permutation_proper _ (filter (λ c, Z.land c 1 = 0) (xs ++ ys))); [by rewrite Hp|].
  rewrite filter_app. apply NoDup_app. split; [by apply spill_order_evens|]. split; [|by apply spill_order_evens].
  intros c [Hc Hx']%list_elem_of_filter [_ Hy']%list_elem_of_filter. apply even_land in Hc as [n ->]. by eapply Hn.
Qed.
