(* ===== verification/NestProps.v ===== *)
(** * Nested transactions of LMDB: what a commit does to the parent

    The pages that a reader of the parent finds after the commit of a child are those it
    found in the child, and else its own; and begin and abort undo each other. *)

From stdpp Require Import sorting.
From S2P Require Import Prelude.
From S2P Require Import Lmdb Midl MidlSort Page Tree Reads Meta Flush Nest NestLists.

(** ** The lists of a transaction *)

Definition spill_list (l : option IDL) (xs : option (list Z)) : Prop :=
  match l, xs with
  | None, None => True
  | Some l, Some xs => idl_holds l xs ∧ StronglySorted spill_order xs
  | _, _ => False
  end.

(** A write transaction with the lists [l] of spilled and dirty pages: the array of the
    dirty ones has its full size. *)
Record txn_lists (t : Wtxn) (l : level) : Prop := MkTxnLists {
  tl_spill : spill_list (wt_spill_pgs t) l.1;
  tl_dirty : ∃ p junk, wt_dirty_list t = mid2l_cells p l.2 junk;
  tl_size : Z.of_nat (length (wt_dirty_list t)) = MDB_IDL_UM_SIZE;
  tl_sorted : ascends l.2;
  tl_pgno : Forall (λ y, 0 < mid y < 2 ^ 63) l.2 }.

Lemma txn_lists_length t l : txn_lists t l → Z.of_nat (length l.2) ≤ MDB_IDL_UM_MAX.
Proof.
  intros [_ (p & junk & E) Hs _ _]. rewrite E in Hs. unfold mid2l_cells in Hs. cbn [length] in Hs.
  rewrite length_app, length_fmap in Hs. unfold MDB_IDL_UM_MAX. lia.
Qed.

(** Such lists are as [mdb_page_get] takes them. *)
Lemma txn_lists_cells t l : txn_lists t l → Z.of_nat (length (default [] l.1)) < 2 ^ 32 - 1 →
  level_cells (ids <$> wt_spill_pgs t, wt_dirty_list t) l.
Proof.
  intros H Hn. pose proof (txn_lists_length t l H) as Hl. destruct H as [Hsp Hd _ Hs _].
  unfold level_cells. cbn [fst snd]. change MDB_IDL_UM_MAX with 131071 in Hl. split; [|split; [done|split; [done|lia]]].
  unfold spill_list in Hsp. destruct (wt_spill_pgs t), l as [[xs|] ys]; try done. cbn in *. destruct Hsp as [(junk & E & _) Hx].
  split; [by exists junk|]. done.
Qed.

(** ** Finding a page in a list *)

Definition dirty_ptr (ys : list ID2) (n : Z) : option Z := (λ iy, mptr iy.2) <$> list_find (λ y, mid y = n) ys.

Lemma dirty_ptr_None ys n : dirty_ptr ys n = None ↔ n ∉ mid <$> ys.
Proof.
  unfold dirty_ptr. rewrite fmap_None, list_find_None, Forall_forall, mid_elem. naive_solver.
Qed.

Lemma dirty_ptr_Some ys y : ascends ys → y ∈ ys → dirty_ptr ys (mid y) = Some (mptr y).
Proof.
  intros Hs Hy. unfold dirty_ptr. destruct (list_find_elem_of (λ z, mid z = mid y) ys y Hy eq_refl) as [[i z] E].
  rewrite E. cbn. f_equal. apply list_find_Some in E as (Hz & Em & _). apply list_elem_of_lookup in Hy as [j Hj].
  destruct (decide (i = j)) as [->|N]; [congruence|]. exfalso. destruct (decide (i < j)%nat).
  - pose proof (StronglySorted_lookup _ ys i j z y Hs Hz Hj ltac:(lia)). cbn in *. lia.
  - pose proof (StronglySorted_lookup _ ys j i y z Hs Hj Hz ltac:(lia)). cbn in *. lia.
Qed.

Lemma level_page_eq psize n sp ys :
  level_page psize n (sp, ys)
  = if decide (2 * n ∈ default [] sp) then Some (InMap (u64 (psize * n))) else (λ a, InHeap a 0) <$> dirty_ptr ys n.
Proof. unfold level_page, dirty_ptr. cbn. by rewrite <-option_fmap_compose. Qed.

Lemma dirty_ptr_merge zs xs ys n :
  ascends zs → ascends xs → ascends ys → zs ≡ₚ fresh ys xs ++ ys →
  dirty_ptr zs n = match dirty_ptr ys n with Some a => Some a | None => dirty_ptr xs n end.
Proof.
  intros Hz Hx Hy Hp. assert (Hin : ∀ z, z ∈ zs ↔ (mid z ∉ mid <$> ys ∧ z ∈ xs) ∨ z ∈ ys).
  { intros z. rewrite Hp, elem_of_app. unfold fresh. by rewrite list_elem_of_filter. }
  destruct (dirty_ptr ys n) as [a|] eqn:Ey.
  - unfold dirty_ptr in Ey. apply fmap_Some in Ey as ([i y] & E & ->). apply list_find_Some in E as (Ei & <- & _).
    cbn. apply dirty_ptr_Some; [done|]. apply Hin. right. by eapply list_elem_of_lookup_2.
  - apply dirty_ptr_None in Ey. destruct (dirty_ptr xs n) as [a|] eqn:Ex.
    + unfold dirty_ptr in Ex. apply fmap_Some in Ex as ([i x] & E & ->). apply list_find_Some in E as (Ei & <- & _).
      cbn. apply dirty_ptr_Some; [done|]. apply Hin. left. split; [done|]. by eapply list_elem_of_lookup_2.
    + apply dirty_ptr_None in Ex. apply dirty_ptr_None. rewrite mid_elem in *. intros (z & [[_ Hz']|Hz']%Hin & E); naive_solver.
Qed.

Lemma dirty_ptr_unspilled sp xs n : ascends xs → 2 * n ∉ sp → dirty_ptr (unspilled sp xs) n = dirty_ptr xs n.
Proof.
  intros Hx Hn. destruct (dirty_ptr xs n) as [a|] eqn:Ex.
  - unfold dirty_ptr in Ex. apply fmap_Some in Ex as ([i x] & E & ->). apply list_find_Some in E as (Ei & <- & _).
    cbn. apply dirty_ptr_Some; [eapply StronglySorted_sublist; [apply sublist_filter|done]|].
    apply list_elem_of_filter. split; [done|]. by eapply list_elem_of_lookup_2.
  - apply dirty_ptr_None in Ex. apply dirty_ptr_None. rewrite mid_elem in *.
    intros (z & [_ Hz]%list_elem_of_filter & E). naive_solver.
Qed.

(** ** The spill list *)

Lemma shifted_elem ys n : 2 * n ∈ shifted ys ↔ n ∈ mid <$> ys.
Proof. unfold shifted. rewrite !list_elem_of_fmap. split; intros (y & E & Hy); exists y; split; (done || lia). Qed.

Lemma unspilled_list src q ys sjunk l xs :
  src = mid2l_cells q ys sjunk → ascends ys → Forall (λ s, 0 < mid s < 2 ^ 63) ys →
  spill_list l xs → Z.of_nat (length (default [] xs)) < 2 ^ 30 →
  ∃ l' xs', match l with None => Ok None | Some ps => b ← unspill_parent src (ids ps); Ok (Some (MkIDL (room ps) b)) end = Ok l' ∧
    spill_list l' xs' ∧ (length (default [] xs') ≤ length (default [] xs))%nat ∧ (room <$> l') = (room <$> l) ∧
    (∀ n, 2 * n ∈ default [] xs' ↔ 2 * n ∈ default [] xs ∧ n ∉ mid <$> ys).
Proof.
  intros -> Hs Hr H Hn. destruct l as [l|], xs as [xs|]; try done.
  2:{ exists None, None. cbn. split; [done|]. split; [done|]. split; [done|]. split; [done|]. set_solver. }
  destruct H as [(junk & E & Hroom) Hx]. cbn in Hn. rewrite E.
  destruct (unspill_parent_spec q ys sjunk xs junk Hs Hr Hx) as (xs' & junk' & -> & Hsub & Hlen & Hin); [lia|].
  cbn [mbind res_bind]. eexists _, (Some xs'). split; [done|]. split; [split; [exists junk'; cbn; split; [done|lia]|by eapply StronglySorted_sublist]|].
  split; [by apply sublist_length|]. split; [done|]. intros n. cbn. unfold id. by rewrite Hin, shifted_elem.
Qed.

Lemma merge_spilled_spec fuel c cs p ps :
  spill_list c cs → spill_list p ps → (∀ l, p = Some l → room l < 2 ^ 62) →
  Z.of_nat (length (default [] cs) + length (default [] ps)) < 2 ^ 30 →
  2 * Z.of_nat (length (default [] cs) + length (default [] ps)) + 1 ≤ Z.of_nat fuel →
  (∀ n, 2 * n ∈ default [] cs → 2 * n ∉ default [] ps) →
  ∃ l xs, merge_spilled fuel true c p = Ok (0, l) ∧ spill_list l xs ∧
    (∀ n, n ∈ default [] xs ↔ n ∈ default [] cs ∨ n ∈ default [] ps).
Proof.
  intros Hc Hp Hroom Hn Hf Hd. destruct c as [c|], cs as [cs|]; try done.
  2:{ exists p, ps. split; [done|]. split; [done|]. set_solver. }
  destruct p as [p|], ps as [ps|]; try done.
  2:{ exists (Some c), (Some cs). split; [done|]. split; [done|]. set_solver. }
  destruct Hc as [(junk & E & _) Hc], Hp as [Hp Hps]. cbn [default from_option] in *. unfold id in *. cbn [merge_spilled]. rewrite E.
  destruct (append_list_spec p ps cs junk Hp (Hroom _ eq_refl)) as (l' & -> & junk' & El & Er); [lia|].
  cbn [mbind res_bind]. rewrite El. destruct (midl_sort_spec fuel (ps ++ cs) junk') as (zs & Hz & Hperm & ->); [rewrite length_app; lia..|].
  cbn [mbind res_bind]. eexists _, (Some zs). split; [done|]. split.
  - split; [exists junk'; cbn; split; [done|by rewrite Hperm]|]. by eapply spill_order_merge.
  - intros n. cbn. unfold id. rewrite Hperm, elem_of_app. tauto.
Qed.

(** ** The dirty list *)

(** The child has the page, spilled or dirty. *)
Definition shadowed (c : level) (x : ID2) : Prop := 2 * mid x ∈ default [] c.1 ∨ mid x ∈ mid <$> c.2.

#[export] Instance shadowed_dec c x : Decision (shadowed c x).
Proof. unfold shadowed. apply _. Defined.

(** The dirty pages of both, without the parent's copies of pages that the child has. *)
Definition kept (c p : level) : list ID2 := filter (λ x, not (shadowed c x)) p.2 ++ c.2.

Lemma kept_eq sp xs ys p1 : kept (sp, ys) (p1, xs) = fresh ys (unspilled (default [] sp) xs) ++ ys.
Proof.
  unfold kept, fresh, unspilled, shadowed. cbn. f_equal. rewrite list_filter_filter. apply list_filter_iff. intros x. tauto.
Qed.

Lemma hidden_sym xs ys : ascends xs → ascends ys → length (hidden xs ys) = length (hidden ys xs).
Proof.
  intros Hx Hy. assert (N : ∀ l : list ID2, ascends l → NoDup (mid <$> l)).
  { induction 1 as [|z l _ IH F]; [constructor|]. cbn. constructor; [|done]. rewrite mid_elem. intros (w & Hw & E).
    rewrite Forall_forall in F. specialize (F w Hw). cbn in F. lia. }
  rewrite <-(length_fmap mid (hidden xs ys)), <-(length_fmap mid (hidden ys xs)). apply Permutation_length, NoDup_Permutation.
  - apply N. eapply StronglySorted_sublist; [apply sublist_filter|done].
  - apply N. eapply StronglySorted_sublist; [apply sublist_filter|done].
  - intros n. unfold hidden. rewrite !mid_elem. setoid_rewrite list_elem_of_filter. setoid_rewrite mid_elem.
    split; intros (x & [(y & Hy' & E) Hx'] & <-); exists y; (split; [split; [by exists x|done]|done]).
Qed.

Lemma fresh_length xs ys : ascends xs → ascends ys →
  length (fresh ys xs ++ ys) = (length xs + length (fresh xs ys))%nat.
Proof.
  intros Hx Hy. rewrite length_app. pose proof (fresh_hidden xs ys). pose proof (fresh_hidden ys xs).
  pose proof (hidden_sym xs ys Hx Hy). lia.
Qed.

Lemma merged_list fuel grand room_ p q c1 ys p1 xs junk sjunk h sp :
  (33 ≤ fuel)%nat → ascends xs → ascends ys → Forall (λ y, 0 < mid y < 2 ^ 63) xs → Forall (λ y, 0 < mid y < 2 ^ 63) ys →
  Z.of_nat (length xs + length junk) = MDB_IDL_UM_MAX → Z.of_nat (length ys) ≤ MDB_IDL_UM_MAX →
  spill_list sp c1 → Z.of_nat (length (default [] c1)) < 2 ^ 30 →
  Z.of_nat (length (kept (c1, ys) (p1, xs))) ≤ MDB_IDL_UM_MAX →
  (grand = false → Z.of_nat (length (kept (c1, ys) (p1, xs))) = MDB_IDL_UM_MAX - room_) → owned h xs →
  ∃ zs rest h',
    ('(dst, h) ← match sp with
                 | None => Ok (mid2l_cells p xs junk, h)
                 | Some sp => n ← rd (ids sp) 0; drop_spilled fuel (Z.to_nat n) 1 (ids sp) (mid2l_cells p xs junk) h
                 end;
     merge_dirty fuel grand room_ (mid2l_cells q ys sjunk) dst h) = Ok (mid2l_cells p zs rest, h') ∧
    Z.of_nat (length (mid2l_cells p zs rest)) = MDB_IDL_UM_SIZE ∧
    ascends zs ∧ zs ≡ₚ kept (c1, ys) (p1, xs) ∧
    (∀ a, h' !! a = if decide (a ∈ mptr <$> filter (shadowed (c1, ys)) xs) then None else h !! a).
Proof.
  intros Hfuel Hx Hy Rx Ry Hsize Hly Hsp Hlsp Hkept Hroom Ho. rewrite kept_eq in *. set (sps := default [] c1) in *.
  assert (HM : MDB_IDL_UM_MAX = 131071) by done.
  assert (Hdrop : ∃ junk' h', match sp with
      | None => Ok (mid2l_cells p xs junk, h)
      | Some sp => n ← rd (ids sp) 0; drop_spilled fuel (Z.to_nat n) 1 (ids sp) (mid2l_cells p xs junk) h
      end = Ok (mid2l_cells p (unspilled sps xs) junk', h') ∧ (length (unspilled sps xs) + length junk' = length xs + length junk)%nat ∧
      (∀ a, h' !! a = if decide (a ∈ mptr <$> spilled sps xs) then None else h !! a)).
  { destruct sp as [sp|], c1 as [c1|]; try done.
    - destruct Hsp as [(j & E & _) _]. rewrite E. change (rd (midl_cells c1 j) 0) with (Ok (Z.of_nat (length c1))). cbn [mbind res_bind].
      rewrite Nat2Z.id. apply drop_spilled_spec; [done|done|lia|done|]. intros k z Hk.
      replace (1 + Z.of_nat k) with (Z.of_nat (S k)) by lia. by apply midl_cells_rd.
    - exists junk, h. subst sps. cbn. unfold unspilled, spilled. rewrite filter_all, filter_none; [done|..];
        rewrite Forall_forall; intros x _; set_solver. }
  destruct Hdrop as (junk' & h1 & -> & Hl1 & Hh1). cbn [mbind res_bind].
  assert (Hsub : sublist (unspilled sps xs) xs) by apply sublist_filter.
  assert (Hx' : ascends (unspilled sps xs)) by (by eapply StronglySorted_sublist).
  rewrite fresh_length in Hkept, Hroom by done. set (g := length (fresh (unspilled sps xs) ys)) in *.
  assert (Hg : (g ≤ length junk')%nat) by lia.
  destruct (merge_dirty_spec fuel grand room_ p q (unspilled sps xs) ys (take g junk') (drop g junk') sjunk h1)
    as (zs & h2 & E & Hz & Hp & Hh2); try done.
  - rewrite Forall_forall in Rx |- *. intros x Hin. apply Rx. by eapply sublist_subseteq.
  - eapply Forall_impl; [exact Ry|]. cbn. lia.
  - lia.
  - rewrite length_take. lia.
  - intros Hf. specialize (Hroom Hf). unfold g in Hroom. lia.
  - unfold unspilled. by eapply owned_filter.
  - rewrite take_drop in E. exists zs, (drop g junk'), h2. split; [done|]. split; [|split; [done|split; [done|]]].
    + unfold mid2l_cells. cbn [length]. rewrite length_app, length_fmap, length_drop, (Permutation_length Hp), fresh_length by done.
      fold g. change MDB_IDL_UM_SIZE with (MDB_IDL_UM_MAX + 1). lia.
    + intros a. rewrite Hh2, Hh1.
      assert (Hiff : a ∈ mptr <$> filter (shadowed (c1, ys)) xs ↔ a ∈ mptr <$> hidden (unspilled sps xs) ys ∨ a ∈ mptr <$> spilled sps xs).
      { rewrite !list_elem_of_fmap. unfold hidden, unspilled, spilled, shadowed. setoid_rewrite list_elem_of_filter.
        setoid_rewrite list_elem_of_filter. cbn [fst snd]. fold sps. split.
        - intros (x & -> & Hor & Hin). destruct (decide (2 * mid x ∈ sps)); [right|left]; exists x; tauto.
        - intros [(x & -> & ? & ? & ?)|(x & -> & ? & ?)]; exists x; tauto. }
      repeat case_decide; tauto.
Qed.

(** ** The commit *)

(** What is at an address: nothing at NULL, an array at any other. *)
Definition owned_midl (m : gmap Z IDL) (a : Z) : Prop := if a =? 0 then m !! a = None else is_Some (m !! a).

Lemma midl_free_spec m a : owned_midl m a → mdb_midl_free m a = Ok (delete a m).
Proof.
  unfold owned_midl, mdb_midl_free. destruct (a =? 0); [|by intros [l ->]]. intros H. by rewrite delete_id.
Qed.

(** What a commit relies on: the lists of both, the numbers that are free in the parent,
    the pages that the child spilled are not spilled in the parent (which [mdb_page_spill]
    ensures), the count of dirty pages, a block for each dirty page of the parent, and the
    array that the child saved. *)
Record nested_ok (grand : bool) (txn parent : Wtxn) (saved : Pgstate) (e : Nenv) (c p : level) (fr fr' : list Z) : Prop := MkNestedOk {
  no_child : txn_lists txn c;
  no_parent : txn_lists parent p;
  no_free : idl_holds (wt_free_pgs parent) fr;
  no_free' : idl_holds (wt_free_pgs txn) fr';
  no_room : room (wt_free_pgs parent) < 2 ^ 62 ∧ ∀ l, wt_spill_pgs parent = Some l → room l < 2 ^ 62;
  no_length : Z.of_nat (length fr') < 2 ^ 31 ∧ Z.of_nat (length (default [] c.1) + length (default [] p.1)) < 2 ^ 30;
  no_flags : length (wt_dbflags txn) = length (wt_dbflags parent);
  no_once : ∀ n, 2 * n ∈ default [] c.1 → 2 * n ∉ default [] p.1;
  no_kept : Z.of_nat (length (kept c p)) ≤ MDB_IDL_UM_MAX;
  no_count : grand = false → Z.of_nat (length (kept c p)) = MDB_IDL_UM_MAX - wt_dirty_room txn;
  no_owned : owned (ne_heap e) p.2;
  no_saved : owned_midl (ne_midls e) (mf_pghead saved) }.

Lemma merge_dbflags_spec : ∀ cs ps, length cs = length ps →
  merge_dbflags cs ps = Ok (zip_with (λ c p, Z.lor c (Z.land p DB_NEW)) cs ps).
Proof.
  induction cs as [|c cs IH]; intros [|p ps] Hl; try done. injection Hl as Hl. cbn [merge_dbflags]. by rewrite (IH ps Hl).
Qed.

(** C9.  The commit of a nested transaction succeeds, and from then on the parent finds
    every page where the child found it, spilled or dirty, and where the child had none
    where the parent had it.  The dirty pages are those of both, of the parent only those
    that the child does not have: just these copies are freed, each once.  The numbers of
    the freed pages and the loose pages are put together; the rest is the child's, but a
    database that is new in the parent stays new.  The array of reusable pages is from then
    on the child's, and the one that the child had saved is freed. *)
Theorem nested_commit_merges fuel grand txn parent saved e c p fr fr' :
  (33 ≤ fuel)%nat → 2 * Z.of_nat (length (default [] c.1) + length (default [] p.1)) + 1 ≤ Z.of_nat fuel →
  nested_ok grand txn parent saved e c p fr fr' →
  ∃ free spill dirty h' l,
    nested_commit fuel true true grand txn parent saved e
    = Ok (0, MkWtxn (wt_flags txn) (wt_next_pgno txn) (wt_dbs txn)
               (take 2 (wt_dbflags txn) ++
                zip_with (λ c p, Z.lor c (Z.land p DB_NEW)) (drop 2 (wt_dbflags txn)) (drop 2 (wt_dbflags parent)))
               free spill dirty (wt_dirty_room txn) (wt_loose_pgs parent ++ wt_loose_pgs txn)
               (wt_loose_count parent + wt_loose_count txn),
             MkNenv (ne_flags e) (ne_pgstate e) (delete (mf_pghead saved) (ne_midls e)) h' (ne_dpages e)) ∧
    idl_holds free (fr ++ fr') ∧
    (∀ t, wt_spill_pgs t = spill → wt_dirty_list t = dirty → txn_lists t l) ∧
    (∀ psize n, level_page psize n l
       = match level_page psize n c with Some q => Some q | None => level_page psize n p end) ∧
    l.2 ≡ₚ kept c p ∧
    (∀ a, h' !! a = if decide (a ∈ mptr <$> filter (shadowed c) p.2) then None else ne_heap e !! a).
Proof.
  intros Hfuel Hfuel2 [Hc Hp Hfr Hfr' [Hr1 Hr2] [Hl1 Hl2] Hfl Honce Hk Hcnt Ho Hsv].
  pose proof (txn_lists_length _ _ Hc) as HLc. destruct c as [c1 ys], p as [p1 xs].
  destruct Hc as [Hcs (q & sjunk & Hcd) _ Hcso Hcr], Hp as [Hps (pp & junk & Hpd) Hsz Hpso Hpr]. cbn [fst snd] in *.
  assert (Hsize : Z.of_nat (length xs + length junk) = MDB_IDL_UM_MAX).
  { rewrite Hpd in Hsz. unfold mid2l_cells in Hsz. cbn [length] in Hsz. rewrite length_app, length_fmap in Hsz. unfold MDB_IDL_UM_MAX. lia. }
  destruct Hfr' as (fj & Ef & _). unfold nested_commit. rewrite Ef.
  destruct (append_list_spec _ fr fr' fj Hfr Hr1 Hl1) as (free & -> & Hfree). cbn [mbind res_bind Z.eqb negb].
  rewrite merge_dbflags_spec by (rewrite !length_drop; lia). cbn [mbind res_bind].
  destruct (unspilled_list _ q ys sjunk _ p1 Hcd Hcso Hcr Hps) as (l1 & xs1 & -> & Hps1 & Hlen1 & Hroom1 & Hin1); [lia|].
  cbn [mbind res_bind]. rewrite Hcd, Hpd.
  destruct (merged_list fuel grand (wt_dirty_room txn) pp q c1 ys p1 xs junk sjunk (ne_heap e) (wt_spill_pgs txn))
    as (zs & rest & h' & E & Hzs & Hz & Hperm & Hh); try done; [lia|].
  apply res_bind_Ok in E as ([dst h1] & Ed & Em).
  destruct (merge_spilled_spec fuel _ c1 l1 xs1 Hcs Hps1) as (l2 & xs2 & Esp & Hps2 & Hin2).
  { intros l ->. cbn in Hroom1. symmetry in Hroom1. apply fmap_Some in Hroom1 as (l0 & El0 & ->). by apply Hr2. }
  { lia. }
  { lia. }
  { intros n Hn1 [Hn2 _]%Hin1. by apply (Honce n). }
  exists free, l2, (mid2l_cells pp zs rest), h', (xs2, zs). split; [|split; [done|split; [|split; [|done]]]].
  - rewrite Ed. cbn [mbind res_bind]. rewrite Em. cbn [mbind res_bind]. rewrite Esp. cbn [mbind res_bind].
    rewrite (midl_free_spec _ _ Hsv). done.
  - intros t E1 E2. constructor; cbn [fst snd]; rewrite ?E1, ?E2; [done|by eexists _, _|done|done|].
    apply Forall_forall. rewrite Forall_forall in Hcr, Hpr. intros x. rewrite Hperm. unfold kept. cbn.
    rewrite elem_of_app, list_elem_of_filter. naive_solver.
  - intros psize n. rewrite !level_page_eq. rewrite kept_eq in Hperm.
    rewrite (dirty_ptr_merge zs (unspilled (default [] c1) xs) ys n Hz) by (done || by eapply StronglySorted_sublist, Hpso; apply sublist_filter).
    destruct (decide (2 * n ∈ default [] c1)) as [H1|H1]; [by rewrite decide_True by (apply Hin2; by left)|].
    rewrite dirty_ptr_unspilled by done. destruct (dirty_ptr ys n) as [a|] eqn:Ey.
    + rewrite decide_False; [done|]. intros [?|[_ N]%Hin1]%Hin2; [done|]. apply N. destruct (decide (n ∈ mid <$> ys)) as [?|N']; [done|].
      apply dirty_ptr_None in N'. congruence.
    + apply dirty_ptr_None in Ey. destruct (decide (2 * n ∈ default [] p1)) as [H2|H2].
      * rewrite decide_True; [done|]. apply Hin2. right. by apply Hin1.
      * rewrite decide_False; [done|]. intros [?|[? _]%Hin1]%Hin2; done.
Qed.

(** A child with the dirty pages 3 and 6 and the spilled page 5, and its parent with the
    dirty pages 3, 5 and 7 and the spilled pages 6 and 4. *)
Module NestExample.
Definition idl (xs : list Z) (k : nat) : IDL := MkIDL (Z.of_nat (length xs + k)) (midl_cells xs (replicate k None)).

Definition dirty (ys : list ID2) : list (option ID2) :=
  mid2l_cells 0 ys (replicate (Z.to_nat MDB_IDL_UM_MAX - length ys) None).

Definition child : Wtxn :=
  MkWtxn 0 20 [] [0; 0; 8] (idl [11] 3) (Some (idl [10] 3)) (dirty [MkID2 3 203; MkID2 6 206]) (MDB_IDL_UM_MAX - 3) [12] 1.

Definition parent : Wtxn :=
  MkWtxn MDB_TXN_HAS_CHILD 15 [] [0; 0; DB_NEW] (idl [9] 0) (Some (idl [12; 8] 0))
    (dirty [MkID2 3 103; MkID2 5 105; MkID2 7 107]) (MDB_IDL_UM_MAX - 3) [13; 14] 2.

(** The page state that the child saved is at 1, and what it works on at 2. *)
Definition saved : Pgstate := MkPgstate 1 7.

Definition env : Nenv :=
  MkNenv 0 (MkPgstate 2 8) (<[1 := idl [31; 30] 0]> (<[2 := idl [31] 1]> ∅)) (<[103 := []]> (<[105 := []]> (<[107 := []]> ∅))) [].

Definition child_level : level := (Some [10], [MkID2 3 203; MkID2 6 206]).
Definition parent_level : level := (Some [12; 8], [MkID2 3 103; MkID2 5 105; MkID2 7 107]).
End NestExample.

Lemma dirty_length ys : Z.of_nat (length ys) ≤ MDB_IDL_UM_MAX → Z.of_nat (length (NestExample.dirty ys)) = MDB_IDL_UM_SIZE.
Proof.
  intros H. unfold NestExample.dirty, mid2l_cells. cbn [length]. rewrite length_app, length_fmap, length_replicate.
  change MDB_IDL_UM_SIZE with (MDB_IDL_UM_MAX + 1). lia.
Qed.

Lemma idl_holds_idl xs k : idl_holds (NestExample.idl xs k) xs.
Proof. exists (replicate k None). unfold NestExample.idl. cbn [ids room]. by rewrite length_replicate. Qed.

(** A transaction with the lists of an example. *)
Lemma example_lists t xs k ys :
  wt_spill_pgs t = Some (NestExample.idl xs k) → wt_dirty_list t = NestExample.dirty ys → Z.of_nat (length ys) ≤ MDB_IDL_UM_MAX →
  StronglySorted spill_order xs → ascends ys → Forall (λ y, 0 < mid y < 2 ^ 63) ys → txn_lists t (Some xs, ys).
Proof.
  intros E1 E2 Hl Hx Hy Hr. constructor; cbn [fst snd]; rewrite ?E1, ?E2; try done; [|by eexists _, _|by apply dirty_length].
  split; [apply idl_holds_idl|done].
Qed.

Lemma example_ok : nested_ok false NestExample.child NestExample.parent NestExample.saved NestExample.env NestExample.child_level NestExample.parent_level [9] [11].
Proof.
  constructor; try apply idl_holds_idl.
  - eapply example_lists; [done..|by vm_compute| | |]; repeat constructor; cbn; unfold spill_order; lia.
  - eapply example_lists; [done..|by vm_compute| | |]; repeat constructor; cbn; unfold spill_order; lia.
  - split; [done|]. intros l [= <-]. done.
  - done.
  - done.
  - intros n. cbn. unfold id. set_solver by lia.
  - by vm_compute.
  - done.
  - split; [repeat (apply NoDup_cons; split; [set_solver by lia|]); apply NoDup_nil_2|]. intros x Hx. cbn in Hx.
    repeat (apply elem_of_cons in Hx as [->|Hx]; [by eexists|]). by apply elem_of_nil in Hx.
  - by eexists.
Qed.

Lemma nested_commit_merges_witness :
  ∃ free spill dirty h' l,
    nested_commit 33 true true false NestExample.child NestExample.parent NestExample.saved NestExample.env
    = Ok (0, MkWtxn 0 20 [] [0; 0; 12] free spill dirty (MDB_IDL_UM_MAX - 3) [13; 14; 12] 3,
             MkNenv 0 (MkPgstate 2 8) (<[2 := NestExample.idl [31] 1]> ∅) h' []) ∧
    (∀ t, wt_spill_pgs t = spill → wt_dirty_list t = dirty → txn_lists t l) ∧
    (λ n, level_page 4096 n l) <$> [3; 4; 5; 6; 7; 8]
    = [Some (InHeap 203 0); Some (InMap 16384); Some (InMap 20480); Some (InHeap 206 0); Some (InHeap 107 0); None].
Proof.
  destruct (nested_commit_merges 33 false NestExample.child NestExample.parent NestExample.saved NestExample.env NestExample.child_level NestExample.parent_level [9] [11])
    as (free & spill & dirty & h' & l & E & _ & Ht & Hl & _); [lia|vm_compute; done|exact example_ok|].
  exists free, spill, dirty, h', l. split; [exact E|]. split; [exact Ht|]. cbn [fmap list_fmap]. rewrite !Hl. reflexivity.
Defined.

(** ** Begin and abort *)

(** The header of the page can be read. *)
Definition freeable (p : page) : Prop := ∃ big n, IS_OVERFLOW p = Ok big ∧ (big = true → MP_PAGES p = Ok n).

Lemma dpage_free_spec h dpages a p : h !! a = Some p → freeable p →
  ∃ h' dpages', mdb_dpage_free h dpages a = Ok (h', dpages') ∧ (h' !! a = None ∨ a ∈ dpages') ∧
    (∀ b, b ≠ a → h' !! b = h !! b) ∧ dpages ⊆ dpages'.
Proof.
  intros Ha (big & n & Eb & En). unfold mdb_dpage_free, heap_at. rewrite Ha. cbn [mbind res_bind]. rewrite Eb. cbn [mbind res_bind].
  destruct big; cbn [negb mbind res_bind].
  - rewrite (En eq_refl). cbn [mbind res_bind]. destruct (n =? 1); eexists _, _; (split; [done|]); [set_solver|].
    rewrite lookup_delete_eq. split; [by left|]. split; [|done]. intros b Hb. by apply lookup_delete_ne.
  - eexists _, _. split; [done|]. set_solver.
Qed.

Lemma dlist_free_spec dl ys : ∀ i h dpages,
  (∀ j y, ys !! j = Some y → rd2 dl (i + Z.of_nat j + 1) = Ok y) → NoDup (mptr <$> ys) →
  (∀ y, y ∈ ys → ∃ p, h !! mptr y = Some p ∧ freeable p) →
  ∃ h' dpages', dlist_free (length ys) i dl h dpages = Ok (h', dpages') ∧
    (∀ a, a ∈ mptr <$> ys → h' !! a = None ∨ a ∈ dpages') ∧ (∀ a, a ∉ mptr <$> ys → h' !! a = h !! a) ∧ dpages ⊆ dpages'.
Proof.
  induction ys as [|y ys IH]; intros i h dpages Hdl Hn Hf.
  { exists h, dpages. split; [done|]. split; [intros a Ha; set_solver|]. done. }
  cbn [fmap list_fmap] in Hn. apply NoDup_cons in Hn as [Hn1 Hn]. cbn [length dlist_free].
  pose proof (Hdl 0%nat y eq_refl) as H0. rewrite Z.add_0_r in H0. rewrite H0. cbn [mbind res_bind].
  destruct (Hf y ltac:(set_solver)) as (p & Hp & Hfp).
  destruct (dpage_free_spec h dpages _ p Hp Hfp) as (h1 & dp1 & -> & H1 & H2 & H3). cbn [mbind res_bind].
  destruct (IH (i + 1) h1 dp1) as (h' & dp' & E & G1 & G2 & G3).
  - intros j z Hj. replace (i + 1 + Z.of_nat j + 1) with (i + Z.of_nat (S j) + 1) by lia. by apply Hdl.
  - done.
  - intros z Hz. destruct (Hf z ltac:(set_solver)) as (pz & Hpz & Hfz). exists pz. split; [|done]. rewrite H2; [done|].
    intros Ez. apply Hn1. rewrite <-Ez. by apply list_elem_of_fmap_2.
  - exists h', dp'. split; [done|]. split; [|split; [|by etransitivity]].
    + cbn. intros a [->|Ha]%elem_of_cons; [|by apply G1]. rewrite (G2 _ Hn1). destruct H1 as [?|?]; [by left|right; by apply G3].
    + cbn. intros a [Ha1 Ha2]%not_elem_of_cons. rewrite G2 by done. by apply H2.
Qed.

Lemma set_clear_flag f k : 0 ≤ k → has_flag f (2 ^ k) = false → clear_flag (set_flag f (2 ^ k)) (2 ^ k) = f.
Proof.
  intros Hk Hf. rewrite has_flag_pow2 in Hf by done. apply Z.bits_inj'. intros i Hi. unfold clear_flag, set_flag.
  rewrite Z.land_spec, Z.lnot_spec, Z.lor_spec by done. rewrite Z.pow2_bits_eqb by done.
  destruct (Z.eqb_spec k i) as [->|N]; [by rewrite Hf|]. by rewrite orb_false_r, andb_true_r.
Qed.

(** ** The array of reusable pages *)

(** What the page state of the child points to is nothing, or an array that was not there
    before; and nothing else is different from the arrays [m0] that were. *)
Definition pghead_own (m0 : gmap Z IDL) (s : Pgstate * gmap Z IDL) : Prop :=
  (mf_pghead s.1 = 0 ∧ s.2 = m0) ∨ (mf_pghead s.1 ≠ 0 ∧ m0 !! mf_pghead s.1 = None ∧ ∃ l, s.2 = <[mf_pghead s.1 := l]> m0).

Lemma pghead_step_own m0 s s' : pghead_step s s' → pghead_own m0 s → pghead_own m0 s'.
Proof.
  unfold pghead_own. intros [a n n' m|a n m l l' Ha El|b n m l Hb Eb|a b n m l l' Ha El Hb Eb]; cbn [fst snd mf_pghead]; [done|..].
  - intros [[? _]|(_ & Hn & l0 & ->)]; [done|]. right. rewrite insert_insert_eq. eauto.
  - intros [[_ ->]|[? _]]; [|done]. right. eauto.
  - intros [[? _]|(_ & Hn & l0 & ->)]; [done|]. right. rewrite delete_insert_id by done.
    apply lookup_insert_None in Eb as [Eb _]. eauto.
Qed.

Lemma pghead_steps_own m0 s s' : rtc pghead_step s s' → pghead_own m0 s → pghead_own m0 s'.
Proof. induction 1; eauto using pghead_step_own. Qed.

(** Freeing it leaves the arrays that were there before. *)
Lemma pghead_own_free m0 s : pghead_own m0 s → mdb_midl_free s.2 (mf_pghead s.1) = Ok m0.
Proof.
  unfold mdb_midl_free. intros [[-> ->]|(Ha & Hn & l & E)]; [done|]. rewrite (proj2 (Z.eqb_neq _ _) Ha), E, lookup_insert_eq.
  by rewrite delete_insert_id.
Qed.

(** The numbers in the array of a page state: [None] when there is no array. *)
Definition pghead_holds (m : gmap Z IDL) (pg : Pgstate) (xs : option (list Z)) : Prop :=
  match xs with
  | None => mf_pghead pg = 0
  | Some xs => mf_pghead pg ≠ 0 ∧ ∃ l, m !! mf_pghead pg = Some l ∧ idl_holds l xs
  end.

Lemma copy_all xs junk n : n = Z.of_nat (length xs) →
  copy_block (Some 0 :: replicate (Z.to_nat n) None) 0 (midl_cells xs junk) 0 (n + 1) = Ok (midl_cells xs []).
Proof.
  intros ->. unfold copy_block, midl_cells. cbn [length]. rewrite length_app, length_fmap, length_replicate, Nat2Z.id.
  rewrite !(proj2 (Z.leb_le _ _)) by lia. cbn [andb]. rewrite Z.add_0_l.
  replace (Z.to_nat (Z.of_nat (length xs) + 1)) with (S (length xs)) by lia. change (Z.to_nat 0) with 0%nat. cbn [drop take app].
  f_equal. f_equal. rewrite take_app_length' by by rewrite length_fmap.
  rewrite drop_ge by (rewrite length_replicate; lia). done.
Qed.

Lemma copy_pghead_spec a e xs : pghead_holds (ne_midls e) (ne_pgstate e) xs → a ≠ 0 → ne_midls e !! a = None →
  ∃ pg m, copy_pghead a e = Ok (0, set_pgstate e pg m) ∧ mf_pglast pg = mf_pglast (ne_pgstate e) ∧
    pghead_holds m pg xs ∧ pghead_own (ne_midls e) (pg, m).
Proof.
  intros Hx Ha Hn. destruct e as [f [head last] m h dp]. cbn [ne_pgstate ne_midls] in *. unfold copy_pghead. cbn [ne_pgstate ne_midls mf_pghead mf_pglast].
  destruct xs as [xs|]; cbn [pghead_holds mf_pghead] in Hx.
  - destruct Hx as (Hh & l & El & junk & Ej & _). rewrite (proj2 (Z.eqb_neq _ _) Hh), El, Ej.
    change (rd (midl_cells xs junk) 0) with (Ok (Z.of_nat (length xs))). cbn [mbind res_bind].
    rewrite (proj2 (Z.eqb_neq _ _) Ha). cbn [mdb_midl_alloc negb ids room]. rewrite copy_all by done. cbn [mbind res_bind].
    eexists _, _. split; [done|]. split; [done|]. unfold pghead_own. cbn [pghead_holds fst snd mf_pghead]. split; [|right; split; [done|]; split; [done|by eexists]].
    split; [done|]. eexists. split; [apply lookup_insert_eq|]. exists []. cbn. split; [done|]. lia.
  - rewrite Hx. exists (MkPgstate head last), m. unfold pghead_own. cbn. subst head. split; [done|]. split; [done|]. split; [done|]. by left.
Qed.

(** C10.  Giving up a nested transaction undoes it.  Its begin gives it an array of reusable
    pages of its own, with the numbers of the parent's, and the parent's last record.  And
    whatever it then does: write to that array, make one when there was none, move it; use
    its own lists and the memory of its pages: when it ends, the parent, the page state and
    all the arrays with what is in them are what they were before it began, its own array
    is freed, its dirty pages are freed or kept for reuse, and no other memory changes. *)
Theorem nested_abort_restores a flags parent e xs :
  has_flag (wt_flags parent) MDB_TXN_HAS_CHILD = false → has_flag (ne_flags e) MDB_WRITEMAP = false →
  pghead_holds (ne_midls e) (ne_pgstate e) xs → a ≠ 0 → ne_midls e !! a = None →
  ∃ begun e1 child saved, nested_begin true true a 0 flags parent e = Ok (0, begun, e1, Some (child, saved)) ∧
    has_flag (wt_flags begun) MDB_TXN_HAS_CHILD = true ∧
    pghead_holds (ne_midls e1) (ne_pgstate e1) xs ∧ mf_pglast (ne_pgstate e1) = mf_pglast (ne_pgstate e) ∧
    ∀ child' pg m h dpages p ys junk,
      rtc pghead_step (ne_pgstate e1, ne_midls e1) (pg, m) →
      wt_dirty_list child' = mid2l_cells p ys junk → NoDup (mptr <$> ys) →
      (∀ y, y ∈ ys → ∃ q, h !! mptr y = Some q ∧ freeable q) →
      ∃ h' dpages', nested_abort child' begun saved (MkNenv (ne_flags e) pg m h dpages)
          = Ok (parent, MkNenv (ne_flags e) (ne_pgstate e) (ne_midls e) h' dpages') ∧
        (∀ a, a ∈ mptr <$> ys → h' !! a = None ∨ a ∈ dpages') ∧ (∀ a, a ∉ mptr <$> ys → h' !! a = h !! a).
Proof.
  intros Hc Hw Hx Ha Hn. destruct (copy_pghead_spec a e xs Hx Ha Hn) as (pg1 & m1 & Ec & Hlast & Hx1 & Hown).
  unfold nested_begin. generalize (replicate (Z.to_nat (MDB_IDL_UM_SIZE - 1)) (@None ID2)). intros cs.
  cbn [mdb_midl_alloc]. rewrite Ec. cbn [mbind res_bind Z.eqb negb].
  eexists _, _, _, _. split; [reflexivity|]. split.
  { cbn [set_wt_flags wt_flags]. change MDB_TXN_HAS_CHILD with (2 ^ 4). rewrite has_flag_pow2 by done. unfold set_flag.
    by rewrite Z.lor_spec, Z.pow2_bits_true, orb_true_r. }
  split; [exact Hx1|]. split; [exact Hlast|]. intros child' pg m h dpages p ys junk Hst Hd Hnd Hf.
  apply (pghead_steps_own (ne_midls e)) in Hst; [|exact Hown].
  unfold nested_abort. cbn [ne_flags ne_pgstate ne_midls ne_heap ne_dpages]. rewrite Hw. cbv beta iota.
  unfold mdb_dlist_free. rewrite Hd. change (rd2 (mid2l_cells p ys junk) 0) with (Ok (MkID2 (Z.of_nat (length ys)) p)).
  cbn [mbind res_bind mid mptr]. rewrite Nat2Z.id.
  destruct (dlist_free_spec (mid2l_cells p ys junk) ys 0 h dpages) as (h' & dp' & -> & H1 & H2 & _); [|done|done|].
  { intros j y Hj. replace (0 + Z.of_nat j + 1) with (Z.of_nat (S j)) by lia. by apply mid2l_cells_rd. }
  cbn [mbind res_bind]. rewrite (wr2_app [] _ _ 0 _ eq_refl : wr2 (mid2l_cells p ys junk) 0 (MkID2 0 p) = Ok (_ :: _)). cbn [mbind res_bind].
  change (mf_pghead pg) with (mf_pghead (pg, m).1). change m with (pg, m).2 at 1. rewrite (pghead_own_free _ _ Hst). cbn [mbind res_bind].
  exists h', dp'. split; [|done]. destruct parent as [f ? ? ? ? ? ? ? ? ?]. unfold set_wt_flags. cbn in *.
  do 3 f_equal. change MDB_TXN_HAS_CHILD with (2 ^ 4) in *. by rewrite set_clear_flag.
Qed.

(** The child takes the last number out of its array, moves the array and gives up. *)
Lemma nested_abort_restores_witness :
  let parent := set_wt_flags NestExample.parent 0 in
  let pg := MkPgstate 1 7 in
  let e := MkNenv 0 pg (<[1 := NestExample.idl [31; 30] 0]> ∅) ∅ [] in
  let leaf : page := replicate 10 0 ++ [2; 0; 0; 0; 0; 0] in
  let big : page := replicate 10 0 ++ [4; 0; 2; 0; 0; 0] in
  let h : gmap Z page := <[203 := leaf]> (<[206 := big]> (<[107 := leaf]> ∅)) in
  ∃ begun e1 child saved, nested_begin true true 2 0 0 parent e = Ok (0, begun, e1, Some (child, saved)) ∧
    pghead_holds (ne_midls e1) (ne_pgstate e1) (Some [31; 30]) ∧
  ∃ h' dpages', nested_abort NestExample.child begun saved (MkNenv 0 (MkPgstate 3 7) (<[3 := NestExample.idl [31] 9]> (ne_midls e)) h [])
      = Ok (parent, MkNenv 0 pg (ne_midls e) h' dpages') ∧
    (∀ a, a ∈ mptr <$> [MkID2 3 203; MkID2 6 206] → h' !! a = None ∨ a ∈ dpages') ∧
    (∀ a, a ∉ mptr <$> [MkID2 3 203; MkID2 6 206] → h' !! a = h !! a).
Proof.
  intros parent pg e leaf big h.
  destruct (nested_abort_restores 2 0 parent e (Some [31; 30])) as (begun & e1 & child & saved & E & _ & Hx & _ & H);
    [reflexivity|reflexivity|split; [done|]; eexists; split; [reflexivity|apply idl_holds_idl]|done|reflexivity|].
  exists begun, e1, child, saved. split; [exact E|]. split; [exact Hx|].
  assert (E1 : (ne_pgstate e1, ne_midls e1) = (MkPgstate 2 7, <[2 := MkIDL 2 (midl_cells [31; 30] [])]> (ne_midls e))).
  { assert (Hg : ∃ b c s, nested_begin true true 2 0 0 parent e
      = Ok (0, b, MkNenv 0 (MkPgstate 2 7) (<[2 := MkIDL 2 (midl_cells [31; 30] [])]> (ne_midls e)) ∅ [], Some (c, s))).
    { eexists _, _, _. reflexivity. }
    destruct Hg as (b & c & s & Hg). rewrite Hg in E. by injection E as <- <- <-. }
  eapply (H NestExample.child (MkPgstate 3 7)); [rewrite E1|reflexivity|..].
  - eapply rtc_l; [apply (pg_write 2 7 _ (MkIDL 2 (midl_cells [31; 30] [])) (NestExample.idl [31] 1)); [done|apply lookup_insert_eq]|].
    eapply rtc_l; [apply (pg_move 2 3 7 _ (NestExample.idl [31] 1) (NestExample.idl [31] 9)); [done|apply lookup_insert_eq|done|reflexivity]|]. reflexivity.
  - apply NoDup_cons. split; [set_solver by lia|]. apply NoDup_singleton.
  - intros y [->|[->|Hy%elem_of_nil]%elem_of_cons]%elem_of_cons; [exists leaf|exists big|done]; (split; [reflexivity|]).
    + by exists false, 0.
    + by exists true, 2.
Defined.
