(* ===== verification/Alloc.v ===== *)
(** * Allocation of pages in a write transaction of LMDB (src/lib/lmdb/mdb.c)

    [mdb_page_alloc]: where the numbers of new pages come from.  Numbers that older
    transactions freed are read from the freeDB, through a cursor on it, and merged into
    [me_pghead]; when these have no range that fits, the file grows.  With the memory of
    the pages, [mdb_page_malloc], and the dirty list, [mdb_page_dirty].

    What [malloc] gives is an argument, as is the table of the readers.  [fuel] bounds the
    searches; the loop over the records has a fuel of its own. *)

From S2P Require Import Prelude.
From S2P Require Import Lmdb Midl Page Meta Tree Cursor Readers Flush.

Definition MDB_TXN_FULL : Z := -30788.
Definition MDB_MAP_FULL : Z := -30792.
Definition MDB_NOMEMINIT : Z := 0x1000000.

(** ** State *)

(** The memory and a write transaction, in which [mt_w] has what it uses of its
    environment. *)
Record Wr : Type := MkWr { w_mem : Mem; w_txn : MDB_txn }.

Definition w_txnid (w : Wr) : Z := mw_txnid (mt_w (w_txn w)).
Definition w_room (w : Wr) : Z := mw_room (mt_w (w_txn w)).
Definition w_loose (w : Wr) : list Z := mw_loose (mt_w (w_txn w)).
Definition w_loose_count (w : Wr) : Z := mw_loose_count (mt_w (w_txn w)).
Definition w_pghead (w : Wr) : option IDL := mw_pghead (mt_w (w_txn w)).
Definition w_pglast (w : Wr) : Z := mw_pglast (mt_w (w_txn w)).
Definition w_pgoldest (w : Wr) : Z := mw_pgoldest (mt_w (w_txn w)).
Definition w_maxpg (w : Wr) : Z := mw_maxpg (mt_w (w_txn w)).
Definition w_flags (w : Wr) : Z := mw_flags (mt_w (w_txn w)).
Definition w_map (w : Wr) : Z := mw_map (mt_w (w_txn w)).
Definition w_dpages (w : Wr) : list Z := mw_dpages (mt_w (w_txn w)).

Definition with_w (t : MDB_txn) (x : MDB_wtxn) : MDB_txn :=
  MkTxn (mt_flags t) (mt_next_pgno t) (mt_lists t) (mt_dbs t) (mt_dbxs t) (mt_dbflags t) (mt_dbiseqs t) (me_dbiseqs t) x.
Definition with_txn_flags (t : MDB_txn) (f : Z) : MDB_txn :=
  MkTxn f (mt_next_pgno t) (mt_lists t) (mt_dbs t) (mt_dbxs t) (mt_dbflags t) (mt_dbiseqs t) (me_dbiseqs t) (mt_w t).
Definition with_next_pgno (t : MDB_txn) (n : Z) : MDB_txn :=
  MkTxn (mt_flags t) n (mt_lists t) (mt_dbs t) (mt_dbxs t) (mt_dbflags t) (mt_dbiseqs t) (me_dbiseqs t) (mt_w t).
Definition with_lists (t : MDB_txn) (l : list (option block * list (option ID2))) : MDB_txn :=
  MkTxn (mt_flags t) (mt_next_pgno t) l (mt_dbs t) (mt_dbxs t) (mt_dbflags t) (mt_dbiseqs t) (me_dbiseqs t) (mt_w t).
Definition with_heap (m : Mem) (h : gmap Z page) : Mem := MkMem (me_map m) (me_psize m) h.

Definition set_mem (w : Wr) (m : Mem) : Wr := MkWr m (w_txn w).
Definition set_wtxn (w : Wr) (t : MDB_txn) : Wr := MkWr (w_mem w) t.

(** The state with another [mt_w]. *)
Definition upd_w (w : Wr) (f : MDB_wtxn → MDB_wtxn) : Wr := set_wtxn w (with_w (w_txn w) (f (mt_w (w_txn w)))).

Definition set_room (w : Wr) (n : Z) : Wr := upd_w w (λ x,
  MkWtx (mw_txnid x) n (mw_loose x) (mw_loose_count x) (mw_free_pgs x) (mw_cursors x) (mw_pghead x) (mw_pglast x)
    (mw_pgoldest x) (mw_maxpg x) (mw_flags x) (mw_map x) (mw_dpages x)).
Definition set_loose (w : Wr) (l : list Z) (n : Z) : Wr := upd_w w (λ x,
  MkWtx (mw_txnid x) (mw_room x) l n (mw_free_pgs x) (mw_cursors x) (mw_pghead x) (mw_pglast x)
    (mw_pgoldest x) (mw_maxpg x) (mw_flags x) (mw_map x) (mw_dpages x)).
Definition set_free_pgs (w : Wr) (l : IDL) : Wr := upd_w w (λ x,
  MkWtx (mw_txnid x) (mw_room x) (mw_loose x) (mw_loose_count x) l (mw_cursors x) (mw_pghead x) (mw_pglast x)
    (mw_pgoldest x) (mw_maxpg x) (mw_flags x) (mw_map x) (mw_dpages x)).
Definition set_cursors (w : Wr) (l : list (list (option (MDB_cursor * option MDB_xcursor)))) : Wr := upd_w w (λ x,
  MkWtx (mw_txnid x) (mw_room x) (mw_loose x) (mw_loose_count x) (mw_free_pgs x) l (mw_pghead x) (mw_pglast x)
    (mw_pgoldest x) (mw_maxpg x) (mw_flags x) (mw_map x) (mw_dpages x)).
Definition set_pghead (w : Wr) (l : option IDL) (last : Z) : Wr := upd_w w (λ x,
  MkWtx (mw_txnid x) (mw_room x) (mw_loose x) (mw_loose_count x) (mw_free_pgs x) (mw_cursors x) l last
    (mw_pgoldest x) (mw_maxpg x) (mw_flags x) (mw_map x) (mw_dpages x)).
Definition set_pgoldest (w : Wr) (o : Z) : Wr := upd_w w (λ x,
  MkWtx (mw_txnid x) (mw_room x) (mw_loose x) (mw_loose_count x) (mw_free_pgs x) (mw_cursors x) (mw_pghead x) (mw_pglast x)
    o (mw_maxpg x) (mw_flags x) (mw_map x) (mw_dpages x)).
Definition set_dpages (w : Wr) (l : list Z) : Wr := upd_w w (λ x,
  MkWtx (mw_txnid x) (mw_room x) (mw_loose x) (mw_loose_count x) (mw_free_pgs x) (mw_cursors x) (mw_pghead x) (mw_pglast x)
    (mw_pgoldest x) (mw_maxpg x) (mw_flags x) (mw_map x) l).

(** [txn->mt_flags |= MDB_TXN_ERROR] *)
Definition wr_error (w : Wr) : Wr :=
  set_wtxn w (with_txn_flags (w_txn w) (set_flag (mt_flags (w_txn w)) MDB_TXN_ERROR)).

(** ** The memory of a page *)

(** [mdb_page_malloc]; [got] is what [malloc] gives, when it is called. *)
Definition mdb_page_malloc (got : option (Z * page)) (w : Wr) (num : Z) : res (option Z * Wr) :=
  let psize := me_psize (w_mem w) in
  match (if num =? 1 then w_dpages w else []) with
  | a :: rest => Ok (Some a, set_dpages w rest)
  | [] =>
      let sz := if num =? 1 then psize else psize * num in
      let off := if num =? 1 then PAGEHDRSZ else sz - psize in
      let len := if num =? 1 then psize - PAGEHDRSZ else psize in
      match got with
      | None => Ok (None, wr_error w)
      | Some (a, p) =>
          p ← (if has_flag (w_flags w) MDB_NOMEMINIT then Ok p
               else p ← mwrite p off (replicate (Z.to_nat len) 0); wr16 p 8 0);
          Ok (Some a, set_mem w (with_heap (w_mem w) (<[a := p]> (heap (w_mem w)))))
      end
  end.

(** ** The dirty list *)

(** The page at the address [a], which is in the map with MDB_WRITEMAP. *)
Definition page_ptr (w : Wr) (a : Z) : Ptr :=
  if has_flag (w_flags w) MDB_WRITEMAP then InMap (a - w_map w) else InHeap a 0.

(** Writing behind a pointer. *)
Definition put_at (m : Mem) (p : Ptr) (off : Z) (bs : bytes) : res Mem :=
  match p with
  | InMap o => f ← mwrite (me_map m) (o + off) bs; Ok (MkMem f (me_psize m) (heap m))
  | InHeap a o => b ← heap_at (heap m) a; b ← mwrite b (o + off) bs; Ok (with_heap m (<[a := b]> (heap m)))
  end.

Definition mdb_page_dirty (fuel : nat) (w : Wr) (np : Z) : res Wr :=
  let t := w_txn w in
  p ← from (w_mem w) (page_ptr w np); n ← mread p 0 8;
  match mt_lists t with
  | [] => UB
  | (sp, dl) :: rest =>
      let id := MkID2 (le n) np in
      '(rc, dl) ← (if has_flag (mt_flags t) MDB_TXN_WRITEMAP then mdb_mid2l_append dl id else mdb_mid2l_insert fuel dl id);
      c_assert (rc =? 0) ;;
      Ok (set_room (set_wtxn w (with_lists t ((sp, dl) :: rest))) (u32 (w_room w - 1)))
  end.

(** ** Numbers that can be used again *)

(** [do { pgno = mop[i]; if (mop[i-n2] == pgno+n2) goto search_done; } while (--i > n2)] *)
Fixpoint range_search (k : nat) (mop : block) (i n2 : Z) : res (option (Z * Z)) :=
  match k with
  | O => NoFuel
  | S k =>
      pgno ← rd mop i; c ← rd mop (i - n2);
      if c =? u64 (pgno + n2) then Ok (Some (i, pgno))
      else if n2 <? i - 1 then range_search k mop (i - 1) n2 else Ok None
  end.

(** [for (j = i-num; j < mop_len; ) mop[++j] = mop[++i]], [k] rounds. *)
Fixpoint move_down (k : nat) (mop : block) (j i : Z) : res block :=
  match k with
  | O => Ok mop
  | S k => c ← rd mop (i + 1); mop ← wr mop (j + 1) c; move_down k mop (j + 1) (i + 1)
  end.

(** A record of the freeDB as the list that it stores. *)
Fixpoint words (n : nat) (bs : list Z) : list Z :=
  match n with O => [] | S n => le (take 8 bs) :: words n (drop 8 bs) end.

Definition idl_of (v : MDB_val) : block := Some <$> words (Z.to_nat (mv_size v / 8)) (mv_data v).

(** The length of [me_pghead], and a range of [n2 + 1] numbers in it: its last index and its
    first number. *)
Definition find_range (w : Wr) (n2 : Z) : res (Z * option (Z * Z)) :=
  match w_pghead w with
  | Some l =>
      n ← rd (ids l) 0;
      let mop_len := u32 n in
      hit ← (if n2 <? mop_len then range_search (Z.to_nat mop_len) (ids l) mop_len n2 else Ok None);
      Ok (mop_len, hit)
  | None => Ok (0, None)
  end.

(** How the search for a range ends: at the index [i] of [me_pghead], with pages from the
    map, or with an error. *)
Inductive Pick : Type := Found (i pgno : Z) | NewPages | PickFails (rc : Z).

(** The cursor [m2]. *)
Record Cur2 : Type := MkCur2 { c2_mc : MDB_cursor; c2_own : option SubDb; c2_x : option MDB_xcursor }.

Section alloc.
Context (fuel : nat) (mdb_page_touch : M Z) (me_txns : option MDB_txninfo).

(** A call on the cursor [m2], whose transaction and memory are those of [w]. *)
Definition on_m2 {A} (w : Wr) (c : Cur2) (f : M A) : res (A * Cur2 * Wr) :=
  '(a, s) ← f (MkSt (w_mem w) (w_txn w) (c2_mc c) (c2_own c) (c2_x c));
  Ok (a, MkCur2 (st_mc s) (st_own s) (st_x s), MkWr (st_mem s) (st_txn s)).

(** [oldest <= last], after the oldest reader was looked for if that is needed. *)
Definition too_recent (w : Wr) (last oldest : Z) (found_old : bool) : res (bool * Z * bool * Wr) :=
  if oldest <=? last then
    if found_old then Ok (true, oldest, true, w)
    else o ← mdb_find_oldest (w_txnid w) me_txns; Ok (o <=? last, o, true, set_pgoldest w o)
  else Ok (false, oldest, found_old, w).

(** The entry under the cursor. *)
Definition read_entry : M (Z + MDB_val) :=
  '(_, np) ← top_page; ki ← top_ki; leaf ← lift (NODEPTR np ki); mdb_node_read fuel np leaf.

(** The record [last] joins [me_pghead]; [room_ok] says whether there is memory for it. *)
Definition take_record (room_ok : bool) (w : Wr) (last : Z) (v : MDB_val) : res (Z * Wr) :=
  let idl := idl_of v in
  n ← rd idl 0;
  let i := u32 n in
  '(rc, l) ← match w_pghead w with
             | None => Ok (match mdb_midl_alloc room_ok i with Some l => (0, Some l) | None => (ENOMEM, None) end)
             | Some l => '(rc, l) ← mdb_midl_need room_ok l i; Ok (rc, Some l)
             end;
  let w := set_pghead w l (w_pglast w) in
  match l with
  | Some l =>
      if negb (rc =? 0) then Ok (rc, w)
      else
        len ← rd (ids l) 0;
        b ← mdb_midl_xmerge (S (Z.to_nat len)) (ids l) idl;
        Ok (0, set_pghead w (Some (MkIDL (Midl.room l) b)) last)
  | None => Ok (rc, w)
  end.

(** The rest of a round, from [last++] on: why the loop ends, if it does, and its variables. *)
Definition fetch (room_ok : bool) (op : MDB_cursor_op) (last oldest : Z) (found_old : bool) (m2 : Cur2) (w : Wr)
    : res (option Pick * Z * Z * bool * Cur2 * Wr) :=
  let last := u64 (last + 1) in
  '(stop, oldest, found_old, w) ← too_recent w last oldest found_old;
  if stop : bool then Ok (Some NewPages, last, oldest, found_old, m2, w)
  else
    '(g, m2, w) ← on_m2 w m2 (mdb_cursor_get fuel mdb_page_touch 1 (Some (MkVal 8 (le_bytes 8 last))) None op);
    if negb (g_rc g =? 0) then
      Ok (Some (if g_rc g =? MDB_NOTFOUND then NewPages else PickFails (g_rc g)), last, oldest, found_old, m2, w)
    else
      k ← match g_key g with Some k => val_bytes k 8 | None => UB end;
      let last := le k in
      '(stop, oldest, found_old, w) ← too_recent w last oldest found_old;
      if stop : bool then Ok (Some NewPages, last, oldest, found_old, m2, w)
      else
        '(v, m2, w) ← on_m2 w m2 read_entry;
        match v with
        | inl rc => Ok (Some (PickFails rc), last, oldest, found_old, m2, w)
        | inr v =>
            '(rc, w) ← take_record room_ok w last v;
            Ok (if negb (rc =? 0) then Some (PickFails rc) else None, last, oldest, found_old, m2, w)
        end.

(** The part [if (op == MDB_FIRST)]: the cursor, and where it starts. *)
Definition start_fetch (w : Wr) : res (MDB_cursor_op * Z * Z * Cur2 * Wr) :=
  '(_, c, w) ← on_m2 w (MkCur2 uninit_cursor None None) (mdb_cursor_init fuel mdb_page_touch FREE_DBI false);
  Ok (if w_pglast w =? 0 then MDB_FIRST else MDB_SET_RANGE, w_pglast w, w_pgoldest w, c, w).

(** The loop [for (op = MDB_FIRST;; op = MDB_NEXT)], with [n] rounds left. *)
Fixpoint alloc_loop (n : nat) (room_ok : nat → bool) (num : Z) (op : MDB_cursor_op) (retry last oldest : Z) (found_old : bool)
    (m2 : Cur2) (w : Wr) : res (Pick * Wr) :=
  match n with
  | O => NoFuel
  | S n =>
      let n2 := u32 (num - 1) in
      '(len, hit) ← find_range w n2;
      match hit with
      | Some (i, pgno) => Ok (Found i pgno, w)
      | None =>
          let retry := if n2 <? len then retry - 1 else retry in
          if (n2 <? len) && (retry <? 0) then Ok (NewPages, w)
          else
            '(op, last, oldest, m2, w) ← (if decide (op = MDB_FIRST) then start_fetch w else Ok (op, last, oldest, m2, w));
            '(stop, last, oldest, found_old, m2, w) ← fetch (room_ok n) op last oldest found_old m2 w;
            match stop with
            | Some p => Ok (p, w)
            | None => alloc_loop n room_ok num MDB_NEXT retry last oldest found_old m2 w
            end
      end
  end.

(** From the label [search_done] on: the code, the page and the state. *)
Definition alloc_pages (got : option (Z * page)) (w : Wr) (num i pgno : Z) : res (Z * option Z * Wr) :=
  '(np, w) ← (if has_flag (w_flags w) MDB_WRITEMAP then Ok (Some (w_map w + me_psize (w_mem w) * pgno), w)
              else mdb_page_malloc got w num);
  match np with
  | None => Ok (ENOMEM, None, wr_error w)
  | Some np =>
      w ← (if negb (i =? 0) then
             match w_pghead w with
             | Some l =>
                 len ← rd (ids l) 0;
                 let len := u32 (len - num) in
                 b ← wr (ids l) 0 len;
                 b ← move_down (Z.to_nat (len - (i - num))) b (i - num) i;
                 Ok (set_pghead w (Some (MkIDL (Midl.room l) b)) (w_pglast w))
             | None => UB
             end
           else Ok (set_wtxn w (with_next_pgno (w_txn w) (u64 (pgno + num)))));
      m ← put_at (w_mem w) (page_ptr w np) 0 (le_bytes 8 pgno);
      w ← mdb_page_dirty fuel (set_mem w m) np;
      Ok (0, Some np, w)
  end.

(** A value of type [int]. *)
Definition int_of (z : Z) : res Z := if (- 2 ^ 31 <=? z) && (z <? 2 ^ 31) then Ok z else UB.

(** [n] bounds the records that are read. *)
Definition mdb_page_alloc (n : nat) (room_ok : nat → bool) (got : option (Z * page)) (w : Wr) (num : Z)
    : res (Z * option Z * Wr) :=
  retry ← int_of (num * 60);
  match (if num =? 1 then w_loose w else []) with
  | np :: rest => Ok (0, Some np, set_loose w rest (w_loose_count w - 1))
  | [] =>
      if w_room w =? 0 then Ok (MDB_TXN_FULL, None, wr_error w)
      else
        '(pick, w) ← alloc_loop n room_ok num MDB_FIRST retry 0 0 false (MkCur2 uninit_cursor None None) w;
        match pick with
        | PickFails rc => Ok (rc, None, wr_error w)
        | Found i pgno => alloc_pages got w num i pgno
        | NewPages =>
            if w_maxpg w <=? u64 (mt_next_pgno (w_txn w) + num) then Ok (MDB_MAP_FULL, None, wr_error w)
            else alloc_pages got w num 0 (mt_next_pgno (w_txn w))
        end
  end.
End alloc.
