(* ===== verification/FreeDb.v ===== *)
(** * The records of the freeDB of LMDB

    The database of freed pages has the number of a transaction as its key and the list of
    the pages that it freed as its value.  Its order, [mdb_cmp_long], is an instance of
    [KeyOrder], so that what is proved of cursors holds for it; and the moves that
    [mdb_page_alloc] makes on it, which leave [*data] alone. *)

From S2P Require Import Prelude.
From S2P Require Import Lmdb Midl Page PageProps PageMore Meta MetaProps Tree TreeProps Cursor CursorProps CursorSpec Readers Flush Alloc.

(** ** The order of numbers of 8 bytes *)

(** Lists of one length are compared from their last byte on. *)
Definition long_ord (a b : bytes) : Z :=
  if (length a =? length b)%nat then lex (reverse a) (reverse b) else Z.of_nat (length a) - Z.of_nat (length b).

Definition long_key (a : bytes) : Prop := length a = 8%nat ∧ Forall byte_ok a.

Lemma lex_reverse_le a b : Forall byte_ok a → Forall byte_ok b → length a = length b →
  lex (reverse a) (reverse b) = Z.sgn (le a - le b).
Proof.
  revert b. induction a as [|x a IH] using rev_ind; intros b Ha Hb Hl; [by destruct b|].
  destruct b as [|y b _] using rev_ind; [by rewrite length_app in Hl; cbn in Hl; lia|].
  apply Forall_app in Ha as [Ha _]. apply Forall_app in Hb as [Hb _]. rewrite !length_app in Hl. cbn in Hl.
  rewrite !reverse_snoc, !le_app. cbn [lex le]. replace (length b) with (length a) by lia.
  destruct (Z.eqb_spec x y) as [->|N]; [rewrite IH by (done || lia); f_equal; lia|].
  rewrite !Z.mul_0_r, !Z.add_0_r. symmetry. apply sgn_high; [by apply le_range| |done].
  replace (length a) with (length b) by lia. by apply le_range.
Qed.

Lemma long_run a b : long_key a → long_key b → run_cmp Cmp_long (val a) (val b) = Ok (long_ord a b).
Proof.
  intros [Ha Fa] [Hb Fb]. cbn [run_cmp]. unfold mdb_cmp_long, val.
  pose proof (cmp_num_spec 8 a b (Z.of_nat (length a)) (Z.of_nat (length b)) [] [] Ha Hb) as E. rewrite !app_nil_r in E.
  change (cmp_num 8) with (cmp_num (Z.of_nat 8)). rewrite E. unfold long_ord. rewrite Ha, Hb, Nat.eqb_refl. f_equal. symmetry. apply lex_reverse_le; [done|done|congruence].
Qed.

Lemma long_eq a b : long_ord a b = 0 ↔ a = b.
Proof.
  unfold long_ord. destruct (Nat.eqb_spec (length a) (length b)) as [E|N].
  - rewrite lex_eq. split; [apply (inj reverse)|by intros ->].
  - split; [lia|intros ->; lia].
Qed.

Lemma long_anti a b : long_ord a b < 0 ↔ 0 < long_ord b a.
Proof.
  unfold long_ord. rewrite (Nat.eqb_sym (length b)). destruct (length a =? length b)%nat; [apply lex_anti|lia].
Qed.

Lemma long_trans a b c : long_ord a b < 0 → long_ord b c < 0 → long_ord a c < 0.
Proof.
  unfold long_ord. destruct (Nat.eqb_spec (length a) (length b)) as [E1|], (Nat.eqb_spec (length b) (length c)) as [E2|],
    (Nat.eqb_spec (length a) (length c)); try lia. apply lex_trans.
Qed.

Lemma long_size a : long_key a → 0 < Z.of_nat (length a) < 2 ^ 32.
Proof. intros [-> _]. lia. Qed.

#[export] Instance long_order : KeyOrder Cmp_long := {
  ord := long_ord; key_ok := long_key; key_size := long_size; ord_run := long_run; ord_eq := long_eq;
  ord_anti := long_anti; ord_trans := long_trans; ord_search p := eq_refl }.

Lemma le_bytes_key x : long_key (le_bytes 8 x).
Proof. split; [apply length_le_bytes|apply le_bytes_bytes]. Qed.

Lemma long_ord_numbers x y : 0 ≤ x < 2 ^ 64 → 0 ≤ y < 2 ^ 64 → long_ord (le_bytes 8 x) (le_bytes 8 y) = Z.sgn (x - y).
Proof.
  intros Hx Hy. unfold long_ord. rewrite !length_le_bytes, Nat.eqb_refl.
  rewrite lex_reverse_le by (apply le_bytes_bytes || by rewrite !length_le_bytes).
  by rewrite !le_le_bytes by (cbn; lia).
Qed.

(** ** Records *)

(** A transaction and the pages that it freed. *)
Abbreviation record := (Z * list Z)%type.

Definition list_bytes (xs : list Z) : bytes := concat (le_bytes 8 <$> xs).

Definition entry_of (r : record) : bytes * bytes := (le_bytes 8 r.1, list_bytes (Z.of_nat (length r.2) :: r.2)).

Definition record_ok (r : record) : Prop :=
  0 ≤ r.1 < 2 ^ 64 ∧ Forall (λ x, 0 ≤ x < 2 ^ 64) r.2 ∧ Z.of_nat (length r.2) < 2 ^ 31 ∧ descending r.2.

Lemma length_list_bytes xs : length (list_bytes xs) = (8 * length xs)%nat.
Proof.
  induction xs as [|x xs IH]; [done|]. unfold list_bytes in *. cbn [fmap list_fmap concat length]. rewrite length_app, length_le_bytes.
  lia.
Qed.

Lemma words_list_bytes xs : Forall (λ x, 0 ≤ x < 2 ^ 64) xs → words (length xs) (list_bytes xs) = xs.
Proof.
  induction 1 as [|x xs Hx _ IH]; [done|]. unfold list_bytes in *. cbn [fmap list_fmap concat length words].
  rewrite take_app_length', drop_app_length' by (by rewrite length_le_bytes). rewrite IH. f_equal. apply le_le_bytes. cbn. lia.
Qed.

Lemma idl_of_entry r : record_ok r → idl_of (val (entry_of r).2) = midl_cells r.2 [].
Proof.
  intros (_ & Hr & Hl & _). unfold idl_of, val. cbn [mv_size mv_data entry_of snd]. rewrite length_list_bytes.
  replace (Z.to_nat (Z.of_nat (8 * length (Z.of_nat (length r.2) :: r.2)) / 8)) with (length (Z.of_nat (length r.2) :: r.2)).
  2:{ rewrite Nat2Z.inj_mul. change (Z.of_nat 8) with 8. rewrite Z.mul_comm, Z.div_mul by lia. lia. }
  rewrite words_list_bytes by (constructor; [lia|done]). unfold midl_cells. by rewrite app_nil_r.
Qed.

(** The records of transactions after [x]. *)
Definition after (x : Z) (rs : list record) : list record := filter (λ r, x < r.1) rs.

Lemma from_key_after rs x : Forall record_ok rs → 0 ≤ x < 2 ^ 64 - 1 →
  from_key Cmp_long (le_bytes 8 (x + 1)) (entry_of <$> rs) = entry_of <$> after x rs.
Proof.
  intros Hok Hx. unfold from_key, after. induction Hok as [|r rs' (Hr & _) _ IH]; [done|].
  rewrite fmap_cons, !filter_cons, IH. change (ord (KeyOrder := long_order)) with long_ord.
  cbn [entry_of fst]. rewrite long_ord_numbers by lia.
  destruct (decide (x < r.1)); [rewrite decide_True by lia|rewrite decide_False by lia]; done.
Qed.

Section free.
Context (fuel : nat) (touch : M Z) (m : Mem) (t : MDB_txn) (db : MDB_db) (Ho : opened t FREE_DBI db Cmp_long) (Hfuel : (31 < fuel)%nat).
Context (rs : list record) (Hall : db_holds fuel m t Cmp_long db (entry_of <$> rs)) (Hok : Forall record_ok rs).
Abbreviation st := (st m t).
Abbreviation new_cursor := (new_cursor FREE_DBI).

(** The cursor before a move [op] to the first of the records [todo]; [last] is the number
    that the search starts behind. *)
Definition ahead (op : MDB_cursor_op) (last : Z) (todo : list record) (c : MDB_cursor) : Prop :=
  (op = MDB_FIRST ∧ c = new_cursor ∧ todo = rs) ∨
  (op = MDB_SET_RANGE ∧ c = new_cursor ∧ todo = after last rs) ∨
  (op = MDB_NEXT ∧ ∃ es1 kv, placed_at fuel m t Cmp_long FREE_DBI db (entry_of <$> rs) es1 kv (entry_of <$> todo) c).

(** What is not of use to a search may change between the moves. *)
Lemma spine_w x root all stk d pgno lo hi bef es aft :
  spine fuel m t Cmp_long root all stk d pgno lo hi bef es aft →
  spine fuel m (with_w t x) Cmp_long root all stk d pgno lo hi bef es aft.
Proof using Type. clear Hall. induction 1; [by constructor|by econstructor]. Qed.

Lemma opened_w x : opened (with_w t x) FREE_DBI db Cmp_long.
Proof using Ho. destruct Ho. by constructor. Qed.

Lemma placed_w x es1 kv es2 c :
  placed_at fuel m t Cmp_long FREE_DBI db (entry_of <$> rs) es1 kv es2 c →
  placed_at fuel m (with_w t x) Cmp_long FREE_DBI db (entry_of <$> rs) es1 kv es2 c.
Proof using Type.
  intros (fl & (stk & q & k & pgno & lo & hi & bef & es & aft & rp & rk & -> & Hs & H) & Hfl). exists fl. split; [|done].
  exists stk, q, k, pgno, lo, hi, bef, es, aft, rp, rk. split; [done|]. split; [by apply spine_w|exact H].
Qed.

Lemma read_entry_at x es1 kv es2 c :
  placed_at fuel m t Cmp_long FREE_DBI db (entry_of <$> rs) es1 kv es2 c →
  read_entry fuel (TreeProps.st m (with_w t x) c) = Ok (inr (val kv.2), TreeProps.st m (with_w t x) c).
Proof using Ho.
  intros (fl & Hat & _)%(placed_w x).
  destruct (at_entry_reads fuel m (with_w t x) Cmp_long FREE_DBI db _ _ _ _ _ _ Hat)
    as (stk & q & k & rp & rk & P & ns & n & a & -> & HP & HR & Hn & Ha & (Hkey & Hdat & Hdup)).
  unfold read_entry. step (top_page_at m (with_w t x) FREE_DBI fl stk q (Z.of_nat k) rp rk P HP).
  step (top_ki_at m (with_w t x) FREE_DBI fl stk q (Z.of_nat k) rp rk). step_lift (nr_ptr _ _ _ _ _ Ha).
  apply (node_read_at fuel m (with_w t x) q P (Z.of_nat k) n a kv.2 _ HP Ha Hdat).
Qed.

(** A move to the next record. *)
Lemma ahead_step op last todo c :
  ahead op last todo c → 0 ≤ last < 2 ^ 64 - 1 →
  let get := mdb_cursor_get fuel touch 1 (Some (val (le_bytes 8 (last + 1)))) None op (st c) in
  match todo with
  | [] => ∃ c', get = Ok (code MDB_NOTFOUND, st c')
  | r :: todo => ∃ c', get = Ok (got true false (entry_of r), st c') ∧ ahead MDB_NEXT r.1 todo c' ∧
      ∀ x, read_entry fuel (TreeProps.st m (with_w t x) c') = Ok (inr (val (entry_of r).2), TreeProps.st m (with_w t x) c')
  end.
Proof using Ho Hfuel Hall Hok.
  intros Ha Hl get.
  assert (Next : ∀ es1 r todo c', placed_at fuel m t Cmp_long FREE_DBI db (entry_of <$> rs) es1 (entry_of r) (entry_of <$> todo) c' →
    get = Ok (got true false (entry_of r), st c') →
    ∃ c', get = Ok (got true false (entry_of r), st c') ∧ ahead MDB_NEXT r.1 todo c' ∧
      ∀ x, read_entry fuel (TreeProps.st m (with_w t x) c') = Ok (inr (val (entry_of r).2), TreeProps.st m (with_w t x) c')).
  { intros es1 r todo' c' Hp E. exists c'. split; [done|]. split; [right; right; by eauto|]. intros x. by eapply read_entry_at. }
  destruct Ha as [(-> & -> & ->)|[(-> & -> & ->)|(-> & es1 & kv & Hp)]].
  - destruct (first_step fuel touch m t Cmp_long FREE_DBI db Ho Hfuel false (entry_of <$> rs) Unset new_cursor Hall ltac:(done) eq_refl)
      as (g & p & c' & Em & E & Hr).
    assert (Eg : get = Ok (g, st c')) by (apply (cursor_get_at fuel touch m t Cmp_long FREE_DBI db Ho); [exact E|by eapply represents_del]).
    destruct rs as [|r rs'] eqn:Ers; cbn [fmap list_fmap] in *; injection Em as <- <-; [by exists c'|].
    rewrite <-Ers in *. by eapply Next.
  - pose proof (cursor_set_range fuel touch m t Cmp_long FREE_DBI db Ho (entry_of <$> rs) (le_bytes 8 (last + 1)) None 0
      Hfuel (le_bytes_key _) Hall) as E. rewrite (from_key_after rs last Hok Hl) in E.
    destruct (after last rs) as [|r todo]; cbn [fmap list_fmap] in E.
    + destruct E as (c' & E & Hd). exists c'. by apply (cursor_get_at fuel touch m t Cmp_long FREE_DBI db Ho).
    + destruct E as (c' & es1 & fl & E & Hat & Hi & Hd & He).
      assert (Hp : placed_at fuel m t Cmp_long FREE_DBI db (entry_of <$> rs) es1 (entry_of r) (entry_of <$> todo) c').
      { exists fl. split_and!; try done. by rewrite He. }
      eapply Next; [exact Hp|]. apply (cursor_get_at fuel touch m t Cmp_long FREE_DBI db Ho); [exact E|].
      by rewrite (at_entry_mc_flags _ _ _ _ _ _ _ _ _ _ _ _ Hat).
  - destruct (next_step fuel touch m t Cmp_long FREE_DBI db Ho Hfuel false _ _ _ _ _ Hp) as (g & p & c' & Em & E & Hr).
    assert (Eg : get = Ok (g, st c')) by (apply (cursor_get_at fuel touch m t Cmp_long FREE_DBI db Ho); [exact E|by eapply represents_del]).
    destruct todo as [|r todo]; cbn [fmap list_fmap] in *; injection Em as <- <-; [by exists c'|]. by eapply Next.
Qed.
End free.

Lemma ahead_w x fuel m t db rs op last todo c :
  ahead fuel m t db rs op last todo c → ahead fuel m (with_w t x) db rs op last todo c.
Proof.
  intros [?|[?|(-> & es1 & kv & H)]]; [by left|by right; left|]. right; right. split; [done|]. exists es1, kv. by apply placed_w.
Qed.

Lemma ahead_w_inv x fuel m t db rs op last todo c :
  ahead fuel m (with_w t x) db rs op last todo c → ahead fuel m t db rs op last todo c.
Proof. intros H. apply (ahead_w (mt_w t)) in H. by destruct t. Qed.
