(* ===== verification/AllocProps.v ===== *)
(** * Allocation of pages in LMDB is safe

    What [mdb_page_alloc] does with the numbers of pages: none is handed out twice, none is
    lost, and those that are used again were freed by transactions that no reader needs. *)

From stdpp Require Import sorting.
From S2P Require Import Prelude.
From S2P Require Import Lmdb Midl Page PageProps Meta MetaProps Tree TreeProps Cursor CursorProps CursorSpec Reads Readers Flush FlushProps Nest NestLists Alloc FreeDb.

(** ** Lists of reusable pages *)

Lemma realloc_midl xs junk n : Z.of_nat (length (midl_cells xs junk)) ≤ n →
  realloc_block (midl_cells xs junk) n = midl_cells xs (junk ++ replicate (Z.to_nat n - length (midl_cells xs junk)) None).
Proof.
  intros H. unfold realloc_block. rewrite take_ge by lia. unfold midl_cells at 1 3.
  by rewrite <-app_comm_cons, <-(assoc_L (++)).
Qed.

(** [mdb_midl_need] makes room for [k] more. *)
Lemma need_spec l xs k : idl_holds l xs → 0 ≤ k < 2 ^ 31 → Z.of_nat (length xs) < 2 ^ 30 →
  ∃ l' junk, mdb_midl_need true l k = Ok (0, l') ∧ ids l' = midl_cells xs junk ∧
    Midl.room l' = Z.of_nat (length xs + length junk) ∧ k ≤ Z.of_nat (length junk).
Proof.
  intros (junk & Hb & Hr) Hk Hx. unfold mdb_midl_need. rewrite Hb.
  change (rd (midl_cells xs junk) 0) with (Ok (Z.of_nat (length xs))). cbn [mbind res_bind].
  rewrite u32_small by lia. set (num := k + Z.of_nat (length xs)).
  destruct (Z.ltb_spec (Midl.room l) num) as [Hlt|Hge]; [|exists l, junk; split_and!; try done; unfold num in *; lia].
  set (big := num + num / 4 + (256 + 2)).
  assert (Hbig : 0 ≤ big < 2 ^ 32) by (unfold big, num; Z.to_euclidean_division_equations; lia).
  rewrite (u32_small big) by done.
  assert (Ea : Z.land big (u32 (-256)) = big - big mod 256).
  { change (u32 (-256)) with (Z.shiftl (Z.ones 24) 8). apply Z.bits_inj'. intros i Hi.
    replace (big - big mod 256) with (Z.shiftl (Z.shiftr big 8) 8)
      by (rewrite Z.shiftl_mul_pow2, Z.shiftr_div_pow2 by lia; pose proof (Z.div_mod big 256); change (2 ^ 8) with 256; lia).
    rewrite Z.land_spec, !Z.shiftl_spec by done. destruct (Z.lt_ge_cases i 8).
    - rewrite (Z.testbit_neg_r (Z.ones 24) (i - 8)), (Z.testbit_neg_r (Z.shiftr big 8) (i - 8)) by lia. by rewrite andb_false_r.
    - rewrite Z.shiftr_spec by lia. replace (i - 8 + 8) with i by lia.
      destruct (Z.lt_ge_cases i 32); [rewrite Z.ones_spec_low by lia; by rewrite andb_true_r|].
      rewrite Z.ones_spec_high, andb_false_r by lia. symmetry. apply Z.bits_above_log2; [lia|].
      destruct (Z.eq_dec big 0) as [->|]; [cbn; lia|]. apply Z.log2_lt_pow2; [lia|]. apply Z.lt_le_trans with (2 ^ 32); [lia|].
      apply Z.pow_le_mono_r; lia. }
  rewrite Ea. set (n := big - big mod 256).
  assert (Hn : num + num / 4 + 3 ≤ n < 2 ^ 32 ∧ 2 ≤ n) by (unfold n, big, num in *; Z.to_euclidean_division_equations; lia).
  pose proof (Z.div_pos num 4 ltac:(unfold num; lia) ltac:(lia)) as Hd.
  assert (Hlen : length (midl_cells xs junk) = S (length xs + length junk)).
  { unfold midl_cells. cbn [length]. by rewrite length_app, length_fmap. }
  rewrite realloc_midl by (rewrite Hlen; lia). rewrite Hlen. eexists _, _. split; [done|]. cbn [ids Midl.room].
  split; [done|]. rewrite length_app, length_replicate, u32_small by lia. unfold num in *. lia.
Qed.

(** Numbers in strictly descending order are apart by their distance in the list. *)
Lemma descending_gap xs i j a b :
  StronglySorted (λ a b, b < a) xs → xs !! i = Some a → xs !! j = Some b → (i ≤ j)%nat → b + Z.of_nat (j - i) ≤ a.
Proof.
  intros Hs Hi. revert b. induction j as [|j IH]; intros b Hj Hij.
  { replace i with 0%nat in * by lia. rewrite Hi in Hj. injection Hj as ->. lia. }
  destruct (decide (i = S j)) as [->|N]; [rewrite Hi in Hj; injection Hj as ->; lia|].
  destruct (lookup_lt_is_Some_2 xs j) as [c Hc]; [apply lookup_lt_Some in Hj; lia|].
  specialize (IH c Hc ltac:(lia)). pose proof (StronglySorted_lookup _ xs j (S j) c b Hs Hc Hj ltac:(lia)) as H. cbn in H. lia.
Qed.

(** When the first and the last are no farther apart than that, they are a range. *)
Lemma descending_range xs pgno n :
  StronglySorted (λ a b, b < a) xs → length xs = S n → xs !! 0%nat = Some (pgno + Z.of_nat n) → xs !! n = Some pgno →
  xs = reverse (seqZ pgno (Z.of_nat (S n))).
Proof.
  intros Hs Hl H0 Hn. apply list_eq_same_length with (S n); [by rewrite length_reverse, length_seqZ, Nat2Z.id|done|].
  intros k a b Hk Ha Hb. rewrite reverse_lookup in Hb by (rewrite length_seqZ; lia).
  rewrite length_seqZ in Hb. apply lookup_seqZ in Hb as [-> _].
  pose proof (descending_gap xs 0 k _ _ Hs H0 Ha ltac:(lia)). pose proof (descending_gap xs k n _ _ Hs Ha Hn ltac:(lia)). lia.
Qed.

(** The search for a range from the index [i] down. *)
Lemma range_search_spec xs junk n2 k :
  Forall (λ x, 0 ≤ x < 2 ^ 63) xs → Z.of_nat n2 < 2 ^ 31 → ∀ i, (n2 < i ≤ length xs)%nat → (i ≤ k)%nat →
  ∃ r, range_search k (midl_cells xs junk) (Z.of_nat i) (Z.of_nat n2) = Ok r ∧
    match r with
    | Some (j, pgno) => ∃ l, j = Z.of_nat (S l) ∧ (n2 ≤ l < length xs)%nat ∧ xs !! l = Some pgno ∧
        xs !! (l - n2)%nat = Some (pgno + Z.of_nat n2)
    | None => True
    end.
Proof.
  intros Hx Hn. induction k as [|k IH]; intros i Hi Hk; [lia|]. destruct i as [|l]; [lia|]. cbn [range_search].
  destruct (lookup_lt_is_Some_2 xs l) as [pgno Hp]; [lia|]. destruct (lookup_lt_is_Some_2 xs (l - n2)) as [c Hc]; [lia|].
  rewrite (midl_cells_rd xs junk l pgno Hp). cbn [mbind res_bind].
  replace (Z.of_nat (S l) - Z.of_nat n2) with (Z.of_nat (S (l - n2))) by lia. rewrite (midl_cells_rd xs junk _ c Hc). cbn [mbind res_bind].
  pose proof (proj1 (Forall_lookup _ _) Hx _ _ Hp) as Rp. cbn in Rp. rewrite u64_small by lia.
  destruct (Z.eqb_spec c (pgno + Z.of_nat n2)) as [->|N].
  - eexists. split; [done|]. exists l. split; [done|]. split; [lia|done].
  - destruct (Z.ltb_spec (Z.of_nat n2) (Z.of_nat (S l) - 1)) as [L|L]; [|by exists None].
    replace (Z.of_nat (S l) - 1) with (Z.of_nat l) by lia. apply IH; lia.
Qed.

Lemma cells_cons (xs ys : list Z) x (junk : block) :
  (Some <$> xs ++ x :: ys) ++ junk = (Some <$> xs) ++ Some x :: ((Some <$> ys) ++ junk).
Proof. by rewrite fmap_app, fmap_cons, <-(assoc_L (++)). Qed.

(** The cells behind a range move over it. *)
Lemma move_down_spec post : ∀ pre mid junk h,
  (length mid > 0)%nat → ∃ junk', length junk' = (length mid + length junk)%nat ∧
  move_down (length post) (Some h :: (Some <$> pre ++ mid ++ post) ++ junk) (Z.of_nat (length pre)) (Z.of_nat (length pre + length mid))
  = Ok (Some h :: (Some <$> pre ++ post) ++ junk').
Proof.
  induction post as [|c post IH]; intros pre mid junk h Hm.
  { exists ((Some <$> mid) ++ junk). split; [by rewrite length_app, length_fmap|]. cbn [length move_down].
    by rewrite !app_nil_r, fmap_app, <-(assoc_L (++)). }
  destruct mid as [|d mid]; [cbn in Hm; lia|]. cbn [length move_down].
  assert (Er : rd (Some h :: (Some <$> pre ++ (d :: mid) ++ c :: post) ++ junk) (Z.of_nat (length pre + S (length mid)) + 1) = Ok c).
  { rewrite (assoc_L (++)), cells_cons. apply (rd_app (Some h :: (Some <$> pre ++ d :: mid))).
    cbn [length]. rewrite length_fmap, length_app. cbn [length]. lia. }
  rewrite Er. cbn [mbind res_bind].
  assert (Ew : wr (Some h :: (Some <$> pre ++ (d :: mid) ++ c :: post) ++ junk) (Z.of_nat (length pre) + 1) c
    = Ok (Some h :: (Some <$> (pre ++ [c]) ++ (mid ++ [c]) ++ post) ++ junk)).
  { replace ((pre ++ [c]) ++ (mid ++ [c]) ++ post) with (pre ++ c :: (mid ++ c :: post)) by (by rewrite <-!(assoc_L (++))).
    cbn [app]. rewrite !cells_cons. apply (wr_app (Some h :: (Some <$> pre))). cbn [length]. rewrite length_fmap. lia. }
  rewrite Ew. cbn [mbind res_bind].
  destruct (IH (pre ++ [c]) (mid ++ [c]) junk h) as (junk' & Hj & E); [rewrite length_app; cbn; lia|].
  exists junk'. rewrite !length_app in *. cbn [length] in *. split; [lia|].
  replace (Z.of_nat (length pre) + 1) with (Z.of_nat (length pre + 1)) by lia.
  replace (Z.of_nat (length pre + S (length mid)) + 1) with (Z.of_nat (length pre + 1 + (length mid + 1))) by lia.
  rewrite E. by rewrite <-(assoc_L (++)).
Qed.

(** ** The pages that can be used again *)

Abbreviation falls := (StronglySorted (λ a b : Z, b < a)).

Definition pghead_holds (l : option IDL) (xs : list Z) : Prop :=
  match l with None => xs = [] | Some l => idl_holds l xs end.

Lemma falls_descending xs : falls xs → descending xs.
Proof. apply StronglySorted_weaken. lia. Qed.

Lemma descending_falls xs : descending xs → NoDup xs → falls xs.
Proof.
  induction 1 as [|x xs Hs IH F]; intros Hn; [constructor|]. apply NoDup_cons in Hn as [Hx Hn]. constructor; [by apply IH|].
  rewrite Forall_forall in F |- *. intros y Hy. specialize (F y Hy). cbn in F. destruct (decide (y = x)) as [->|]; [done|lia].
Qed.

(** Where the search finds [num] numbers in a row. *)
Definition has_range (xs : list Z) (num i pgno : Z) : Prop :=
  ∃ pre post, xs = pre ++ reverse (seqZ pgno num) ++ post ∧ i = Z.of_nat (length pre) + num.

Lemma find_range_spec w xs n2 :
  pghead_holds (w_pghead w) xs → falls xs → Forall (λ x, 0 ≤ x < 2 ^ 63) xs → Z.of_nat (length xs) < 2 ^ 31 →
  Z.of_nat n2 < 2 ^ 31 →
  ∃ len hit, find_range w (Z.of_nat n2) = Ok (len, hit) ∧
    match hit with Some (i, pgno) => has_range xs (Z.of_nat (S n2)) i pgno | None => True end.
Proof.
  intros Hp Hf Hx Hl Hn. unfold find_range. destruct (w_pghead w) as [l|]; [|by exists 0, None].
  destruct Hp as (junk & -> & _). change (rd (midl_cells xs junk) 0) with (Ok (Z.of_nat (length xs))). cbn [mbind res_bind].
  rewrite u32_small by lia. destruct (Z.ltb_spec (Z.of_nat n2) (Z.of_nat (length xs))) as [L|_]; [|by eexists _, None].
  destruct (range_search_spec xs junk n2 (Z.to_nat (Z.of_nat (length xs))) Hx Hn (length xs)) as (r & -> & Hr); [lia|lia|].
  cbn [mbind res_bind]. exists (Z.of_nat (length xs)), r. split; [done|]. destruct r as [[i pgno]|]; [|done].
  destruct Hr as (k & -> & Hk & H1 & H2). set (a := (k - n2)%nat) in *.
  exists (take a xs), (drop (S k) xs). split; [|rewrite length_take; lia].
  rewrite <-(descending_range (take (S n2) (drop a xs)) pgno n2).
  - rewrite <-(take_drop a xs) at 1. f_equal. rewrite <-(take_drop (S n2) (drop a xs)) at 1. f_equal. rewrite drop_drop. f_equal. lia.
  - eapply StronglySorted_sublist; [|exact Hf]. etransitivity; [apply sublist_take|apply sublist_drop].
  - rewrite length_take, length_drop. lia.
  - rewrite lookup_take_lt, lookup_drop by lia. by rewrite Nat.add_0_r.
  - rewrite lookup_take_lt, lookup_drop by lia. by replace (a + n2)%nat with k by lia.
Qed.

(** A record joins the list. *)
Lemma take_record_spec w xs r :
  pghead_holds (w_pghead w) xs → falls xs → record_ok r → NoDup (xs ++ r.2) → Z.of_nat (length xs) < 2 ^ 30 →
  ∃ l xs', take_record true w r.1 (val (entry_of r).2) = Ok (0, set_pghead w (Some l) r.1) ∧
    idl_holds l xs' ∧ falls xs' ∧ xs' ≡ₚ xs ++ r.2.
Proof.
  intros Hp Hf Hr Hn Hx. pose proof Hr as (_ & Hrange & Hlen & Hd). unfold take_record. rewrite (idl_of_entry r Hr).
  change (rd (midl_cells r.2 []) 0) with (Ok (Z.of_nat (length r.2))). cbn [mbind res_bind]. rewrite u32_small by lia.
  assert (Hroom : ∃ l junk, match w_pghead w with
      | None => Ok (match mdb_midl_alloc true (Z.of_nat (length r.2)) with Some l => (0, Some l) | None => (ENOMEM, None) end)
      | Some l => '(rc, l) ← mdb_midl_need true l (Z.of_nat (length r.2)); Ok (rc, Some l)
      end = Ok (0, Some l) ∧ ids l = midl_cells xs junk ∧ Midl.room l = Z.of_nat (length xs + length junk) ∧
    (length r.2 ≤ length junk)%nat).
  { destruct (w_pghead w) as [l|]; cbn in Hp.
    - destruct (need_spec l xs (Z.of_nat (length r.2)) Hp) as (l' & junk & -> & E1 & E2 & E3); [lia|lia|].
      exists l', junk. split; [done|]. split; [done|]. split; [done|lia].
    - subst xs. eexists _, (replicate (length r.2) None). split; [done|]. cbn [ids Midl.room]. rewrite length_replicate, Nat2Z.id.
      split; [done|]. split; [cbn; lia|lia]. }
  destruct Hroom as (l & junk & -> & E1 & E2 & E3). cbn [mbind res_bind]. rewrite E1.
  change (rd (midl_cells xs junk) 0) with (Ok (Z.of_nat (length xs))). change (negb (0 =? 0)) with false. cbn [mbind res_bind].
  rewrite Nat2Z.id, <-(take_drop (length r.2) junk).
  destruct (xmerge_spec (S (length xs)) xs r.2 (take (length r.2) junk) (drop (length r.2) junk) []) as (zs & Hz & Hperm & ->).
  - rewrite length_take. lia.
  - lia.
  - lia.
  - done.
  - by apply falls_descending.
  - done.
  - cbn [mbind res_bind]. eexists _, zs. split; [done|]. split; [|split; [|done]].
    + exists (drop (length r.2) junk). split; [done|]. cbn [Midl.room]. rewrite Hperm, length_app, length_drop, E2. lia.
    + apply descending_falls; [done|]. by rewrite Hperm.
Qed.

(** ** The loop over the records *)

Section loop.
Context (fuel : nat) (touch : M Z) (me_txns : option MDB_txninfo) (m : Mem) (t : MDB_txn) (db : MDB_db).
Context (Ho : opened t FREE_DBI db Cmp_long) (Hfuel : (31 < fuel)%nat).
Context (rs : list record) (Hall : db_holds fuel m t Cmp_long db (entry_of <$> rs)) (Hok : Forall record_ok rs).
Context (txnid answer : Z) (Hanswer : mdb_find_oldest txnid me_txns = Ok answer).
Abbreviation ahead := (ahead fuel m t db rs).
Abbreviation cur2 := (λ c, MkCur2 c None None).

(** The state between the calls: what reading needs does not change. *)
Record reading (w : Wr) : Prop := MkReading {
  rd_mem : w_mem w = m; rd_txn : ∃ x, w_txn w = with_w t x; rd_id : w_txnid w = txnid }.

Lemma reading_upd w f : reading w → (∀ x, mw_txnid (f x) = mw_txnid x) → reading (upd_w w f).
Proof using Type.
  intros [Em [x Et] Ei] Hf. constructor; [done|eexists; cbn; by rewrite Et|]. etransitivity; [|exact Ei].
  unfold upd_w, w_txnid. cbn. apply Hf.
Qed.

Lemma on_m2_at {A} w c c' (f : M A) a :
  w_mem w = m → f (TreeProps.st m (w_txn w) c) = Ok (a, TreeProps.st m (w_txn w) c') → on_m2 w (cur2 c) f = Ok (a, cur2 c', w).
Proof using Type.
  intros Em E. unfold on_m2. cbn [c2_mc c2_own c2_x]. rewrite Em. unfold TreeProps.st in E.
  rewrite E. cbn. destruct w. cbn in *. by subst.
Qed.

(** What the check of a record against the oldest reader answers. *)
Lemma too_recent_spec w last found :
  reading w → ∃ stop o found', too_recent me_txns w last (w_pgoldest w) found = Ok (stop, o, found', set_pgoldest w o) ∧
    (o = w_pgoldest w ∨ o = answer) ∧ (stop = false → last < o).
Proof using Hanswer.
  intros [_ _ Eid]. unfold too_recent.
  assert (Eta : ∀ w, set_pgoldest w (w_pgoldest w) = w) by (by intros [? [? ? ? ? ? ? ? ? []]]).
  destruct (Z.leb_spec (w_pgoldest w) last) as [L|L].
  - destruct found.
    + exists true, (w_pgoldest w), true. rewrite Eta. split; [done|]. split; [by left|done].
    + rewrite Eid, Hanswer. cbn [mbind res_bind]. exists (answer <=? last), answer, true. split; [done|]. split; [by right|].
      intros E%Z.leb_gt. done.
  - exists false, (w_pgoldest w), found. rewrite Eta. split; [done|]. split; [by left|done].
Qed.

(** What a round does when it reads a record [r]. *)
Definition took (w : Wr) (xs : list Z) (r : record) (xs' : list Z) (w' : Wr) : Prop :=
  ∃ l o, w' = set_pgoldest (set_pghead w (Some l) r.1) o ∧ (o = w_pgoldest w ∨ o = answer) ∧
    r.1 < Z.max (w_pgoldest w) answer ∧ idl_holds l xs' ∧ falls xs' ∧ xs' ≡ₚ xs ++ r.2.

Lemma fetch_spec op last found c todo w xs :
  reading w → ahead op last todo c → 0 ≤ last < 2 ^ 64 - 1 → (∀ r, r ∈ todo → r ∈ rs) →
  pghead_holds (w_pghead w) xs → falls xs → NoDup (xs ++ concat todo.*2) → Z.of_nat (length xs) < 2 ^ 30 →
  ∃ stop last' found' c' w', fetch fuel touch me_txns true op last (w_pgoldest w) found (cur2 c) w
      = Ok (stop, last', w_pgoldest w', found', cur2 c', w') ∧
    match stop with
    | Some p => p = NewPages ∧ ∃ o, w' = set_pgoldest w o ∧ (o = w_pgoldest w ∨ o = answer)
    | None => ∃ r todo' xs', todo = r :: todo' ∧ took w xs r xs' w' ∧ ahead MDB_NEXT r.1 todo' c' ∧ last' = r.1
    end.
Proof using Ho Hfuel Hall Hok Hanswer.
  intros Hw Ha Hl Hsub Hp Hf Hn Hx. unfold fetch. rewrite u64_small by lia.
  destruct (too_recent_spec w (last + 1) found Hw) as (stop & o & found1 & -> & Ho1 & _). cbn [mbind res_bind].
  destruct stop.
  { eexists (Some NewPages), _, _, _, (set_pgoldest w o). split; [done|]. split; [done|]. by exists o. }
  set (w1 := set_pgoldest w o). assert (Hw1 : reading w1) by (by apply reading_upd).
  pose proof Hw1 as [Em [x Et] Ei].
  pose proof (ahead_step fuel touch m (with_w t x) db (opened_w t db Ho x) Hfuel rs Hall Hok op last todo c (ahead_w x _ _ _ _ _ _ _ _ _ Ha) Hl) as Hg.
  cbv zeta in Hg. rewrite <-Et in Hg.
  change (MkVal 8 (le_bytes 8 (last + 1))) with (val (le_bytes 8 (last + 1))).
  destruct todo as [|r todo].
  { destruct Hg as (c' & Hg). rewrite (on_m2_at w1 c c' _ _ Em Hg). cbn [mbind res_bind].
    eexists (Some NewPages), _, _, _, w1. split; [done|]. split; [done|]. by exists o. }
  destruct Hg as (c' & Hg & Ha' & Hread). rewrite Et in Ha'. apply ahead_w_inv in Ha'. rewrite (on_m2_at w1 c c' _ _ Em Hg). cbn [mbind res_bind g_rc g_key got].
  change (negb (MDB_SUCCESS =? 0)) with false. cbv beta iota.
  assert (Hr : record_ok r) by (rewrite Forall_forall in Hok; apply Hok, Hsub; set_solver).
  change (val_bytes (val (entry_of r).1) 8) with (Ok (le_bytes 8 r.1)). cbn [mbind res_bind].
  rewrite le_le_bytes by (destruct Hr; cbn; lia).
  destruct (too_recent_spec w1 r.1 found1 Hw1) as (stop & o2 & found2 & E2 & Ho2 & Hlt). change (w_pgoldest w1) with o in E2, Ho2.
  rewrite E2. cbn [mbind res_bind].
  assert (Ho3 : o2 = w_pgoldest w ∨ o2 = answer) by naive_solver.
  change (set_pgoldest w1 o2) with (set_pgoldest w o2).
  destruct stop.
  { eexists (Some NewPages), _, _, _, (set_pgoldest w o2). split; [done|]. split; [done|]. by exists o2. }
  set (w2 := set_pgoldest w o2). assert (Hw2 : reading w2) by (by apply reading_upd).
  rewrite (on_m2_at w2 c' c' _ _ (rd_mem _ Hw2) (Hread _)). cbn [mbind res_bind].
  cbn [fmap list_fmap concat] in Hn. rewrite (assoc_L (++)) in Hn. apply NoDup_app in Hn as (Hn & _ & _).
  destruct (take_record_spec w2 xs r Hp Hf Hr Hn Hx) as (l & xs' & -> & Hl' & Hf' & Hperm). cbn [mbind res_bind].
  eexists None, r.1, found2, c', (set_pghead w2 (Some l) r.1). split; [done|]. exists r, todo, xs'. split; [done|]. split; [|done].
  exists l, o2. split; [done|]. split; [done|]. split; [specialize (Hlt eq_refl); lia|done].
Qed.

(** How the loop ends when it has [xs] and [todo] is left to read. *)
Definition loop_out (num : Z) (w : Wr) (xs : list Z) (todo : list record) (p : Pick) (w' : Wr) : Prop :=
  ∃ taken rest hd xs' lst o, todo = taken ++ rest ∧ w' = set_pgoldest (set_pghead w hd lst) o ∧
    (o = w_pgoldest w ∨ o = answer) ∧ Forall (λ r, r.1 < Z.max (w_pgoldest w) answer) taken ∧
    lst = default (w_pglast w) (fst <$> last taken) ∧ pghead_holds hd xs' ∧ falls xs' ∧ xs' ≡ₚ xs ++ concat taken.*2 ∧
    match p with Found i pgno => has_range xs' num i pgno | NewPages => True | PickFails _ => False end.

Lemma loop_out_now num w xs todo p o :
  (o = w_pgoldest w ∨ o = answer) → pghead_holds (w_pghead w) xs → falls xs →
  match p with Found i pgno => has_range xs num i pgno | NewPages => True | PickFails _ => False end →
  loop_out num w xs todo p (set_pgoldest w o).
Proof using Type.
  intros Ho1 Hp Hf Hr. exists [], todo, (w_pghead w), xs, (w_pglast w), o. split_and!; try done;
    first [by constructor|by destruct w as [? [? ? ? ? ? ? ? ? []]]|cbn; by rewrite app_nil_r].
Qed.

Lemma loop_out_took num w xs r todo xs1 w1 p w' :
  took w xs r xs1 w1 → loop_out num w1 xs1 todo p w' → loop_out num w xs (r :: todo) p w'.
Proof using Type.
  clear fuel Hfuel Hall. intros (l & o1 & -> & Ho1 & Hr & _ & _ & Hp1) (taken & rest & hd & xs' & lst & o & -> & -> & Ho2 & Hf & -> & Hh & Hs & Hp & Hm).
  cbn [w_pgoldest w_pglast set_pgoldest set_pghead] in *.
  exists (r :: taken), rest, hd, xs', (default r.1 (fst <$> last taken)), o. split_and!; try done.
  - naive_solver.
  - constructor; [done|]. eapply Forall_impl; [exact Hf|]. cbn. lia.
  - destruct taken as [|r' taken _] using rev_ind; [done|]. by rewrite app_comm_cons, !last_snoc.
  - rewrite Hp, Hp1. cbn. by rewrite (assoc_L (++)).
Qed.

(** The bounds that the lists keep while records are read. *)
Definition fits (xs : list Z) (todo : list record) : Prop :=
  falls xs ∧ NoDup (xs ++ concat todo.*2) ∧ Forall (λ x, 0 ≤ x < 2 ^ 63) (xs ++ concat todo.*2) ∧
  Z.of_nat (length (xs ++ concat todo.*2)) < 2 ^ 30.

Lemma fits_took w xs r todo xs' w' : took w xs r xs' w' → fits xs (r :: todo) → fits xs' todo.
Proof using Type.
  intros (l & o & _ & _ & _ & _ & Hf & Hp) (_ & Hn & Hx & Hl). cbn [fmap list_fmap concat] in *.
  rewrite (assoc_L (++)), <-Hp in Hn, Hx, Hl. done.
Qed.

(** The cursor when a round begins: it is not yet set up, or it is in front of [todo]. *)
Definition enters (op : MDB_cursor_op) (last oldest : Z) (todo : list record) (c : MDB_cursor) (w : Wr) : Prop :=
  op = MDB_NEXT ∧ ahead MDB_NEXT last todo c ∧ 0 ≤ last < 2 ^ 64 - 1 ∧ oldest = w_pgoldest w ∨
  op = MDB_FIRST ∧ todo = after (w_pglast w) rs ∧ 0 ≤ w_pglast w < 2 ^ 64 - 1.

Lemma enters_spec op last oldest todo c w :
  reading w → Forall (λ r, 0 < r.1) rs → enters op last oldest todo c w →
  ∃ op' last' c', (if decide (op = MDB_FIRST) then start_fetch fuel touch w else Ok (op, last, oldest, cur2 c, w))
      = Ok (op', last', w_pgoldest w, cur2 c', w) ∧ ahead op' last' todo c' ∧ 0 ≤ last' < 2 ^ 64 - 1.
Proof using Ho.
  intros Hw Hpos [(-> & Ha & Hl & ->)|(-> & -> & Hl)].
  - rewrite decide_False by done. by exists MDB_NEXT, last, c.
  - rewrite decide_True by done. unfold start_fetch.
    destruct Hw as [Em [x Et] Ei]. pose proof (cursor_init_at fuel touch m (with_w t x) Cmp_long FREE_DBI db (opened_w t db Ho x) false) as Hi.
    rewrite <-Et in Hi. rewrite (on_m2_at w uninit_cursor (new_cursor FREE_DBI) _ tt Em Hi).
    cbn [mbind res_bind]. eexists _, _, _. split; [done|]. split; [|done]. destruct (Z.eqb_spec (w_pglast w) 0) as [E|N].
    + left. split; [done|]. split; [done|]. rewrite E. unfold after. by apply filter_all.
    + right; left. done.
Qed.

Lemma loop_spec todo : Forall (λ r, 0 < r.1 < 2 ^ 64 - 1) rs → ∀ n n2 op retry last oldest found c w xs,
  (length todo < n)%nat → reading w → enters op last oldest todo c w → (∀ r, r ∈ todo → r ∈ rs) →
  pghead_holds (w_pghead w) xs → fits xs todo → Z.of_nat n2 < 2 ^ 30 →
  ∃ p w', alloc_loop fuel touch me_txns n (λ _, true) (Z.of_nat (S n2)) op retry last oldest found (cur2 c) w = Ok (p, w') ∧
    loop_out (Z.of_nat (S n2)) w xs todo p w'.
Proof using Ho Hfuel Hall Hok Hanswer.
  intros Hids. induction todo as [todo IH] using (induction_ltof1 _ length). unfold ltof in IH.
  intros n n2 op retry last oldest found c w xs Hn Hw He Hsub Hp Hfit Hn2. destruct n as [|n]; [lia|]. cbn [alloc_loop].
  pose proof Hfit as (Hf & Hnd & Hx & Hlen). apply Forall_app in Hx as [Hx _]. rewrite length_app in Hlen.
  rewrite u32_small by lia. replace (Z.of_nat (S n2) - 1) with (Z.of_nat n2) by lia.
  destruct (find_range_spec w xs n2 Hp Hf Hx) as (len & hit & -> & Hhit); [lia|lia|]. cbn [mbind res_bind].
  assert (Now : ∀ p, match p with Found i pgno => has_range xs (Z.of_nat (S n2)) i pgno | NewPages => True | PickFails _ => False end →
    loop_out (Z.of_nat (S n2)) w xs todo p w).
  { intros p Hp'. replace w with (set_pgoldest w (w_pgoldest w)) at 2 by (by destruct w as [? [? ? ? ? ? ? ? ? []]]). apply loop_out_now; [by left|done..]. }
  destruct hit as [[i pgno]|]; [by exists (Found i pgno), w; split; [|apply Now]|].
  destruct (_ && _)%bool; [by exists NewPages, w; split; [|apply Now]|].
  destruct (enters_spec op last oldest todo c w Hw) as (op' & last1 & c1 & -> & Ha & Hl);
    [eapply Forall_impl; [exact Hids|]; cbn; lia|done|]. cbn [mbind res_bind].
  destruct (fetch_spec op' last1 found c1 todo w xs Hw Ha Hl Hsub Hp Hf Hnd) as (stop & last' & found' & c' & w' & -> & Hst); [lia|].
  cbn [mbind res_bind]. destruct stop as [p|].
  { destruct Hst as (-> & o & -> & Ho1). exists NewPages, (set_pgoldest w o). split; [done|]. by apply loop_out_now. }
  destruct Hst as (r & todo' & xs' & -> & Ht & Ha' & ->). cbn [length] in Hn, IH.
  pose proof (proj1 (Forall_forall _ _) Hids r (Hsub r ltac:(set_solver))) as Hr. cbn in Hr.
  destruct (IH todo' ltac:(lia) n n2 MDB_NEXT (if Z.of_nat n2 <? len then retry - 1 else retry) r.1 (w_pgoldest w') found' c' w' xs')
    as (p & w2 & E & Hout); try done.
  - lia.
  - destruct Ht as (l & o & -> & _). apply reading_upd; [by apply reading_upd|done].
  - left. split; [done|]. split; [done|]. split; [lia|done].
  - intros r' Hr'. apply Hsub. set_solver.
  - destruct Ht as (l & o & -> & _ & _ & Hh & _). exact Hh.
  - by eapply fits_took.
  - exists p, w2. split; [exact E|]. by eapply loop_out_took.
Qed.
End loop.

(** ** The page and the lists *)

(** What an allocation leaves alone. *)
Record keeps (w w' : Wr) : Prop := MkKeeps {
  kp_map : me_map (w_mem w') = me_map (w_mem w);
  kp_psize : me_psize (w_mem w') = me_psize (w_mem w);
  kp_flags : mt_flags (w_txn w') = mt_flags (w_txn w);
  kp_dbs : mt_dbs (w_txn w') = mt_dbs (w_txn w);
  kp_dbxs : mt_dbxs (w_txn w') = mt_dbxs (w_txn w);
  kp_dbflags : mt_dbflags (w_txn w') = mt_dbflags (w_txn w);
  kp_id : w_txnid w' = w_txnid w;
  kp_loose : w_loose w' = w_loose w;
  kp_free : mw_free_pgs (mt_w (w_txn w')) = mw_free_pgs (mt_w (w_txn w));
  kp_cursors : mw_cursors (mt_w (w_txn w')) = mw_cursors (mt_w (w_txn w));
  kp_maxpg : w_maxpg w' = w_maxpg w;
  kp_eflags : w_flags w' = w_flags w }.

Lemma keeps_trans w1 w2 w3 : keeps w1 w2 → keeps w2 w3 → keeps w1 w3.
Proof. intros [] []. constructor; congruence. Qed.

(** Memory for the pages: what [malloc] gives, and the pages to use again. *)
Record memory_ok (w : Wr) (num : Z) (got : option (Z * page)) : Prop := MkMemoryOk {
  mo_psize : PAGEHDRSZ ≤ me_psize (w_mem w);
  mo_got : ∃ a p, got = Some (a, p) ∧ heap (w_mem w) !! a = None ∧ Z.of_nat (length p) = me_psize (w_mem w) * num;
  mo_dpages : ∀ a, a ∈ w_dpages w → ∃ p, heap (w_mem w) !! a = Some p ∧ Z.of_nat (length p) = me_psize (w_mem w) }.

Lemma mwrite_Ok p off bs : 0 ≤ off → off + Z.of_nat (length bs) ≤ Z.of_nat (length p) →
  ∃ p', mwrite p off bs = Ok p' ∧ length p' = length p.
Proof.
  intros H1 H2. unfold mwrite. rewrite !(proj2 (Z.leb_le _ _)) by lia. cbn [andb]. eexists. split; [done|].
  rewrite !length_app, length_take, length_drop. lia.
Qed.

Lemma page_malloc_spec w num got :
  0 < num → memory_ok w num got →
  ∃ a p h dp, mdb_page_malloc got w num = Ok (Some a, set_dpages (set_mem w (with_heap (w_mem w) h)) dp) ∧
    h !! a = Some p ∧ Z.of_nat (length p) = me_psize (w_mem w) * num ∧ (∀ b, b ≠ a → h !! b = heap (w_mem w) !! b) ∧
    (a ∈ w_dpages w ∧ w_dpages w = a :: dp ∨ heap (w_mem w) !! a = None ∧ dp = w_dpages w).
Proof.
  intros Hnum [Hps (a & p & -> & Ha & Hp) Hdp]. unfold mdb_page_malloc. change PAGEHDRSZ with 16 in *.
  destruct (if num =? 1 then w_dpages w else []) as [|b rest] eqn:Ed.
  - set (psize := me_psize (w_mem w)) in *.
    set (off := if num =? 1 then 16 else (if num =? 1 then psize else psize * num) - psize).
    set (len := if num =? 1 then psize - 16 else psize).
    assert (Hw : 0 ≤ off ∧ 0 ≤ len ∧ off + len ≤ Z.of_nat (length p) ∧ 16 ≤ Z.of_nat (length p)).
    { unfold off, len. destruct (Z.eqb_spec num 1) as [->|N]; nia. }
    assert (Hinit : ∃ q, (if has_flag (w_flags w) MDB_NOMEMINIT then Ok p
        else p ← mwrite p off (replicate (Z.to_nat len) 0); wr16 p 8 0) = Ok q ∧ length q = length p).
    { destruct (has_flag _ _); [by exists p|].
      destruct (mwrite_Ok p off (replicate (Z.to_nat len) 0)) as (q & -> & Hq); [lia|rewrite length_replicate; lia|]. cbn [mbind res_bind].
      destruct (mwrite_Ok q 8 (le16 0)) as (q' & E & Hq'); [lia|cbn; lia|]. exists q'. split; [exact E|lia]. }
    destruct Hinit as (q & -> & Hq). cbn [mbind res_bind]. exists a, q, (<[a := q]> (heap (w_mem w))), (w_dpages w).
    split; [by destruct w as [? [? ? ? ? ? ? ? ? []]]|]. split; [apply lookup_insert_eq|]. split; [rewrite Hq; exact Hp|]. split; [|by right].
    intros b Hb. by apply lookup_insert_ne.
  - destruct (Z.eqb_spec num 1) as [->|]; [|done]. assert (Hin : b ∈ w_dpages w) by (rewrite Ed; set_solver).
    destruct (Hdp b Hin) as (q & Hq & Hl). exists b, q, (heap (w_mem w)), rest. rewrite Z.mul_1_r. split; [|by split; [|split; [|split; [|left]]]].
    by destruct w as [[] [? ? ? ? ? ? ? ? []]].
Qed.

(** The list with a new entry. *)
Definition dirtied (ys : list ID2) (pgno a : Z) : list ID2 :=
  filter (λ y, mid y < pgno) ys ++ MkID2 pgno a :: filter (λ y, pgno < mid y) ys.

Lemma from_heap m a p : heap m !! a = Some p → from m (InHeap a 0) = Ok p.
Proof. intros H. unfold from. change (list Z) with page in *. rewrite H. by rewrite (proj2 (Z.leb_le 0 (Z.of_nat _))) by lia. Qed.

Lemma page_dirty_spec fuel w np p pgno sp q ys c junk rest :
  (33 ≤ fuel)%nat → heap (w_mem w) !! np = Some p → mread p 0 8 = Ok (le_bytes 8 pgno) → 0 ≤ pgno < 2 ^ 64 →
  mt_lists (w_txn w) = (sp, mid2l_cells q ys (c :: junk)) :: rest → has_flag (mt_flags (w_txn w)) MDB_TXN_WRITEMAP = false →
  has_flag (w_flags w) MDB_WRITEMAP = false → ascends ys → pgno ∉ mid <$> ys → Z.of_nat (length ys) < MDB_IDL_UM_MAX →
  mdb_page_dirty fuel w np
  = Ok (set_room (set_wtxn w (with_lists (w_txn w) ((sp, mid2l_cells q (dirtied ys pgno np) junk) :: rest))) (u32 (w_room w - 1))).
Proof.
  intros Hfuel Hp Hr Hn Hl Hf Hf' Hs Hnew Hlen. unfold mdb_page_dirty, page_ptr. rewrite Hf', (from_heap _ _ _ Hp). cbn [mbind res_bind]. rewrite Hr.
  cbn [mbind res_bind]. rewrite le_le_bytes by (cbn; lia). rewrite Hl, Hf.
  rewrite (mid2l_insert_sorted fuel q ys c junk (MkID2 pgno np) Hfuel Hs) by lia. cbn [mid].
  rewrite decide_False by done. rewrite (proj2 (Z.leb_gt _ _)) by lia. done.
Qed.

(** The transaction has no page [pgno] yet, and its dirty list has room. *)
Record dirty_ok (w : Wr) (pgno : Z) (ys : list ID2) : Prop := MkDirtyOk {
  do_lists : ∃ sp q c junk rest, mt_lists (w_txn w) = (sp, mid2l_cells q ys (c :: junk)) :: rest;
  do_flags : has_flag (mt_flags (w_txn w)) MDB_TXN_WRITEMAP = false ∧ has_flag (w_flags w) MDB_WRITEMAP = false;
  do_sorted : ascends ys;
  do_new : pgno ∉ mid <$> ys;
  do_room : Z.of_nat (length ys) < MDB_IDL_UM_MAX }.

(** The page [pgno] is at [a] in memory and in the dirty list; the other pages are as before. *)
Record placed_page (w w' : Wr) (num pgno a : Z) (ys : list ID2) : Prop := MkPlaced {
  pp_heap : ∃ p, heap (w_mem w') !! a = Some p ∧ mread p 0 8 = Ok (le_bytes 8 pgno) ∧ Z.of_nat (length p) = me_psize (w_mem w) * num;
  pp_others : ∀ b, b ≠ a → heap (w_mem w') !! b = heap (w_mem w) !! b;
  pp_fresh : a ∈ w_dpages w ∧ w_dpages w = a :: w_dpages w' ∨ heap (w_mem w) !! a = None ∧ w_dpages w' = w_dpages w;
  pp_keeps : keeps w w';
  pp_lists : ∃ sp q c junk rest, mt_lists (w_txn w) = (sp, mid2l_cells q ys (c :: junk)) :: rest ∧
    mt_lists (w_txn w') = (sp, mid2l_cells q (dirtied ys pgno a) junk) :: rest;
  pp_room : w_room w' = u32 (w_room w - 1) }.

(** The cells of a range leave the list. *)
Lemma drop_range l xs num i pgno :
  idl_holds l xs → has_range xs num i pgno → 0 < num → Z.of_nat (length xs) < 2 ^ 31 →
  ∃ xs' b, (len ← rd (ids l) 0; b ← wr (ids l) 0 (u32 (len - num));
            move_down (Z.to_nat (u32 (len - num) - (i - num))) b (i - num) i) = Ok b ∧
    idl_holds (MkIDL (Midl.room l) b) xs' ∧ xs ≡ₚ xs' ++ seqZ pgno num ∧ sublist xs' xs.
Proof.
  intros (junk & Hb & Hr) (pre & post & -> & ->) Hn Hl. rewrite Hb.
  set (mid := reverse (seqZ pgno num)) in *. assert (Hm : Z.of_nat (length mid) = num) by (unfold mid; rewrite length_reverse, length_seqZ; lia).
  rewrite !length_app in Hl.
  change (rd (midl_cells (pre ++ mid ++ post) junk) 0) with (Ok (Z.of_nat (length (pre ++ mid ++ post)))). cbn [mbind res_bind].
  rewrite u32_small by (rewrite !length_app; lia). set (len := Z.of_nat (length (pre ++ mid ++ post)) - num).
  assert (Hlen : len = Z.of_nat (length (pre ++ post))) by (unfold len; rewrite !length_app; lia).
  rewrite (wr_app [] _ _ 0 _ eq_refl : wr (midl_cells (pre ++ mid ++ post) junk) 0 len = Ok (Some len :: (Some <$> pre ++ mid ++ post) ++ junk)).
  cbn [mbind res_bind]. destruct (move_down_spec post pre mid junk len) as (junk' & Hj & E); [lia|].
  replace (Z.to_nat (len - (Z.of_nat (length pre) + num - num))) with (length post) by (rewrite Hlen, length_app; lia).
  replace (Z.of_nat (length pre) + num - num) with (Z.of_nat (length pre)) by lia.
  replace (Z.of_nat (length pre) + num) with (Z.of_nat (length pre + length mid)) by lia. rewrite E.
  exists (pre ++ post), (midl_cells (pre ++ post) junk'). split; [by rewrite Hlen|]. split; [|split].
  - exists junk'. split; [done|]. cbn [Midl.room]. rewrite Hr, !length_app. lia.
  - rewrite <-(reverse_Permutation (seqZ pgno num)). fold mid. rewrite (Permutation_app_comm mid post). by rewrite (assoc_L (++)).
  - apply sublist_app; [done|]. by apply sublist_inserts_l.
Qed.

(** From the label [search_done] on, with a range of [me_pghead] or new pages. *)
Lemma alloc_pages_spec fuel w num got i pgno ys xs :
  (33 ≤ fuel)%nat → 0 < num → memory_ok w num got → dirty_ok w pgno ys → 0 ≤ pgno < 2 ^ 63 → num < 2 ^ 31 →
  pghead_holds (w_pghead w) xs → Z.of_nat (length xs) < 2 ^ 31 → i = 0 ∨ has_range xs num i pgno ∧ xs ≠ [] →
  ∃ a w' xs', alloc_pages fuel got w num i pgno = Ok (0, Some a, w') ∧ placed_page w w' num pgno a ys ∧
    pghead_holds (w_pghead w') xs' ∧ w_pglast w' = w_pglast w ∧
    (i = 0 ∧ xs' = xs ∧ mt_next_pgno (w_txn w') = pgno + num ∨
     i ≠ 0 ∧ xs ≡ₚ xs' ++ seqZ pgno num ∧ sublist xs' xs ∧ mt_next_pgno (w_txn w') = mt_next_pgno (w_txn w)).
Proof.
  intros Hfuel Hnum Hmo [(sp & q & c & junk & rest & Hl) [Hf1 Hf2] Hs Hnew Hlen] Hpg Hn31 Hp Hxl Hi. unfold alloc_pages. rewrite Hf2.
  destruct (page_malloc_spec w num got Hnum Hmo) as (a & p & h & dp & -> & Ha & Hpl & Hoth & Hfresh). cbn [mbind res_bind].
  set (w1 := set_dpages (set_mem w (with_heap (w_mem w) h)) dp).
  assert (Hnum1 : ∃ w2 xs', (if negb (i =? 0) then
      match w_pghead w1 with
      | Some l => len ← rd (ids l) 0; b ← wr (ids l) 0 (u32 (len - num));
          b ← move_down (Z.to_nat (u32 (len - num) - (i - num))) b (i - num) i; Ok (set_pghead w1 (Some (MkIDL (Midl.room l) b)) (w_pglast w1))
      | None => UB
      end else Ok (set_wtxn w1 (with_next_pgno (w_txn w1) (u64 (pgno + num))))) = Ok w2 ∧
      w_mem w2 = w_mem w1 ∧ w_room w2 = w_room w ∧ mt_lists (w_txn w2) = mt_lists (w_txn w) ∧ (keeps w w2 ∧ w_dpages w2 = dp) ∧
      pghead_holds (w_pghead w2) xs' ∧ w_pglast w2 = w_pglast w ∧
      (i = 0 ∧ xs' = xs ∧ mt_next_pgno (w_txn w2) = pgno + num ∨
       i ≠ 0 ∧ xs ≡ₚ xs' ++ seqZ pgno num ∧ sublist xs' xs ∧ mt_next_pgno (w_txn w2) = mt_next_pgno (w_txn w))).
  { destruct Hi as [->|[Hr Hne]].
    - change (negb (0 =? 0)) with false. cbv beta iota. rewrite u64_small by lia. eexists _, xs. split; [done|]. split_and!; try done. by left.
    - assert (i ≠ 0) by (destruct Hr as (pre & post & _ & ->); lia). rewrite (proj2 (Z.eqb_neq i 0)) by done. cbn [negb].
      change (w_pghead w1) with (w_pghead w). destruct (w_pghead w) as [l|]; [|done].
      destruct (drop_range l xs num i pgno Hp Hr Hnum Hxl) as (xs' & b & E & Hh & Hperm & Hsub).
      apply res_bind_Ok in E as (len & -> & E). cbn [mbind res_bind]. apply res_bind_Ok in E as (b1 & -> & E). cbn [mbind res_bind].
      rewrite E. cbn [mbind res_bind]. eexists _, xs'. split; [done|]. split_and!; try done. by right. }
  destruct Hnum1 as (w2 & xs' & -> & E1 & E2 & E3 & [E4 Edp] & Hh & Hlast & Hcase). cbn [mbind res_bind]. rewrite E1.
  unfold page_ptr at 1. rewrite (kp_eflags _ _ E4), Hf2. cbn [put_at].
  change (heap (w_mem w1)) with h. rewrite (heap_at_Ok h a p Ha). cbn [mbind res_bind]. change (0 + 0) with 0.
  assert (Hp16 : 16 ≤ Z.of_nat (length p)) by (pose proof (mo_psize _ _ _ Hmo) as H16; change PAGEHDRSZ with 16 in H16; nia).
  assert (Hw : ∃ p', mwrite p 0 (le_bytes 8 pgno) = Ok p' ∧ mread p' 0 8 = Ok (le_bytes 8 pgno) ∧ length p' = length p).
  { exists (le_bytes 8 pgno ++ drop 8 p). split; [|split].
    - apply (mwrite_at p [] (take 8 p) (drop 8 p)); [by rewrite take_drop|done|]. rewrite length_le_bytes, length_take. lia.
    - by apply (mread_at _ [] (le_bytes 8 pgno) (drop 8 p)).
    - rewrite length_app, length_le_bytes, length_drop. lia. }
  destruct Hw as (p' & -> & Hread & Hpl'). cbn [mbind res_bind].
  rewrite (page_dirty_spec fuel _ a p' pgno sp q ys c junk rest Hfuel); try done;
    [|apply lookup_insert_eq|lia|by rewrite <-Hl, <-E3|by rewrite <-Hf1, <-(kp_flags _ _ E4)|by rewrite <-Hf2, <-(kp_eflags _ _ E4)].
  cbn [mbind res_bind]. eexists a, _, xs'. split; [done|]. split; [|done]. constructor.
  - exists p'. split; [apply lookup_insert_eq|]. split; [done|]. by rewrite Hpl'.
  - intros b Hb. etransitivity; [|exact (Hoth b Hb)]. by apply lookup_insert_ne.
  - rewrite <-Edp in Hfresh. exact Hfresh.
  - eapply keeps_trans; [exact E4|]. constructor; try done; cbn; by rewrite E1.
  - by exists sp, q, c, junk, rest.
  - cbn. by rewrite <-E2.
Qed.

(** ** Allocation *)

(** A transaction that may allocate [num] pages: its freeDB has the records [rs]; the
    numbers [xs] can be used again, and those of the records that are not yet read are
    others; its dirty pages are [ys], and none of these numbers is among them.  It has no
    loose page to give. *)
Record alloc_ok (fuel : nat) (w : Wr) (num : Z) (got : option (Z * page)) (db : MDB_db) (rs : list record) (xs : list Z)
    (ys : list ID2) : Prop := MkAllocOk {
  ao_db : opened (w_txn w) FREE_DBI db Cmp_long;
  ao_all : db_holds fuel (w_mem w) (w_txn w) Cmp_long db (entry_of <$> rs);
  ao_records : Forall (λ r, record_ok r ∧ 0 < r.1 < 2 ^ 64 - 1) rs;
  ao_head : pghead_holds (w_pghead w) xs;
  ao_last : 0 ≤ w_pglast w < 2 ^ 64 - 1;
  ao_fits : fits xs (after (w_pglast w) rs);
  ao_num : 0 < num < 2 ^ 25;
  ao_next : 0 ≤ mt_next_pgno (w_txn w) < 2 ^ 62;
  ao_room : w_room w ≠ 0;
  ao_loose : w_loose w = [] ∨ num ≠ 1;
  ao_memory : memory_ok w num got;
  ao_dirty : ∀ n, n ∈ xs ++ concat (after (w_pglast w) rs).*2 ∨ n = mt_next_pgno (w_txn w) → dirty_ok w n ys }.

Lemma range_first xs num i pgno : 0 < num → has_range xs num i pgno → pgno ∈ xs.
Proof.
  intros Hn (pre & post & -> & _). apply elem_of_app. right. apply elem_of_app. left. apply elem_of_reverse, elem_of_seqZ. lia.
Qed.

Lemma elem_of_concat_fst (taken : list record) x : x ∈ concat taken.*2 → ∃ r, r ∈ taken ∧ x ∈ r.2.
Proof.
  induction taken as [|r taken IH]; cbn [fmap list_fmap concat]; [by intros ?%elem_of_nil|].
  intros [H|H]%elem_of_app; [exists r; by split; [left|]|]. destruct (IH H) as (r' & ? & ?). exists r'. split; [by right|done].
Qed.

(** What [mdb_page_alloc] does when it had [xs] and read the records [taken]. *)
Definition alloc_out (w : Wr) (num : Z) (xs : list Z) (ys : list ID2) (taken : list record) (rc : Z) (np : option Z) (w' : Wr)
    (xs' : list Z) : Prop :=
  match np with
  | Some a => rc = 0 ∧ ∃ pgno, placed_page w w' num pgno a ys ∧
      (xs' ++ seqZ pgno num ≡ₚ xs ++ concat taken.*2 ∧ mt_next_pgno (w_txn w') = mt_next_pgno (w_txn w) ∨
       xs' ≡ₚ xs ++ concat taken.*2 ∧ pgno = mt_next_pgno (w_txn w) ∧ mt_next_pgno (w_txn w') = pgno + num ∧ pgno + num < w_maxpg w)
  | None => rc = MDB_MAP_FULL ∧ xs' ≡ₚ xs ++ concat taken.*2 ∧ w_maxpg w ≤ mt_next_pgno (w_txn w) + num ∧
      has_flag (mt_flags (w_txn w')) MDB_TXN_ERROR = true
  end.

Lemma placed_from w w' hd last o num pgno a ys :
  placed_page (set_pgoldest (set_pghead w hd last) o) w' num pgno a ys → placed_page w w' num pgno a ys.
Proof. intros []. constructor; try done. eapply keeps_trans; [|done]. by constructor. Qed.

Lemma int_of_small z : - 2 ^ 31 ≤ z < 2 ^ 31 → int_of z = Ok z.
Proof. intros H. unfold int_of. by rewrite (proj2 (Z.leb_le _ _)), (proj2 (Z.ltb_lt _ _)) by lia. Qed.

Lemma page_alloc_spec fuel touch me_txns n w num got db rs xs ys answer :
  (33 ≤ fuel)%nat → (length rs < n)%nat → alloc_ok fuel w num got db rs xs ys → mdb_find_oldest (w_txnid w) me_txns = Ok answer →
  ∃ rc np w' taken rest xs', mdb_page_alloc fuel touch me_txns n (λ _, true) got w num = Ok (rc, np, w') ∧
    after (w_pglast w) rs = taken ++ rest ∧ w_pglast w' = default (w_pglast w) (fst <$> last taken) ∧
    Forall (λ r, r.1 < Z.max (w_pgoldest w) answer) taken ∧ pghead_holds (w_pghead w') xs' ∧ falls xs' ∧
    alloc_out w num xs ys taken rc np w' xs'.
Proof.
  intros Hfuel Hn [Ho Hall Hrs Hh Hlast Hfit Hnum Hnext Hroom Hloose Hmem Hdirty] Hans. unfold mdb_page_alloc.
  rewrite int_of_small by lia. cbn [mbind res_bind].
  replace (if num =? 1 then w_loose w else []) with (@nil Z) by (destruct Hloose as [->|]; destruct (Z.eqb_spec num 1); done).
  rewrite (proj2 (Z.eqb_neq _ _) Hroom).
  assert (Hok : Forall record_ok rs) by (eapply Forall_impl; [exact Hrs|]; by intros r [? _]).
  destruct (loop_spec fuel touch me_txns (w_mem w) (w_txn w) db Ho ltac:(lia) rs Hall Hok (w_txnid w) answer Hans
    (after (w_pglast w) rs) ltac:(eapply Forall_impl; [exact Hrs|]; by intros r [_ ?]) n (Z.to_nat (num - 1)) MDB_FIRST (num * 60) 0 0 false
    uninit_cursor w xs) as (p & w1 & E & taken & rest & hd & xs1 & lst & o & Etaken & -> & Ho1 & Hold & -> & Hh1 & Hf1 & Hp1 & Hpick).
  { unfold after. pose proof (length_filter (λ r : record, w_pglast w < r.1) rs). lia. }
  { constructor; [done|exists (mt_w (w_txn w)); by destruct w as [? []]|done]. }
  { by right. }
  { intros r Hr. unfold after in Hr. by apply list_elem_of_filter in Hr as [_ Hr]. }
  { done. }
  { done. }
  { lia. }
  replace (Z.of_nat (S (Z.to_nat (num - 1)))) with num in * by lia. rewrite E. cbn [mbind res_bind].
  set (w1 := set_pgoldest (set_pghead w hd (default (w_pglast w) (fst <$> last taken))) o).
  destruct Hfit as (_ & Hnd & Hx & Hlen). rewrite Etaken, fmap_app, concat_app, (assoc_L (++)), <-Hp1 in Hx, Hlen.
  apply Forall_app in Hx as [Hx _]. rewrite length_app in Hlen.
  assert (Hin : ∀ k, k ∈ xs1 → k ∈ xs ++ concat (after (w_pglast w) rs).*2).
  { intros k Hk. rewrite Etaken, fmap_app, concat_app, (assoc_L (++)), <-Hp1. apply elem_of_app. by left. }
  assert (Hmem1 : memory_ok w1 num got) by (destruct Hmem; by constructor).
  assert (Dirty1 : ∀ k, dirty_ok w k ys → dirty_ok w1 k ys) by (intros k []; by constructor).
  destruct p as [i pgno| |rc]; [| |done].
  - pose proof (range_first _ _ _ _ (proj1 Hnum) Hpick) as Hpg.
    pose proof (proj1 (Forall_forall _ _) Hx pgno Hpg) as Rp. cbn in Rp.
    destruct (alloc_pages_spec fuel w1 num got i pgno ys xs1 Hfuel ltac:(lia) Hmem1 (Dirty1 _ (Hdirty _ (or_introl (Hin _ Hpg)))))
      as (a & w2 & xs2 & E2 & Hpl & Hh2 & Hl2 & Hcase); try done; [lia|lia|right; split; [done|intros ->; set_solver]|].
    rewrite E2. exists 0, (Some a), w2, taken, rest, xs2. split; [done|]. split; [done|]. split; [done|]. split; [done|]. split; [done|].
    destruct Hcase as [(-> & _)|(_ & Hperm & Hsub & En)].
    { exfalso. destruct Hpick as (pre & post & _ & Ei). lia. }
    split; [by eapply StronglySorted_sublist|]. split; [done|]. exists pgno. split; [by apply placed_from in Hpl|]. left.
    by rewrite <-Hperm, Hp1.
  - change (mt_next_pgno (w_txn w1)) with (mt_next_pgno (w_txn w)). change (w_maxpg w1) with (w_maxpg w). rewrite u64_small by lia.
    destruct (Z.leb_spec (w_maxpg w) (mt_next_pgno (w_txn w) + num)) as [L|L].
    + exists MDB_MAP_FULL, None, (wr_error w1), taken, rest, xs1. split; [done|]. split_and!; try done.
      split_and!; [done..|]. etransitivity; [by apply (has_set_flag _ 1 1)|apply orb_true_r].
    + destruct (alloc_pages_spec fuel w1 num got 0 (mt_next_pgno (w_txn w)) ys xs1 Hfuel ltac:(lia) Hmem1 (Dirty1 _ (Hdirty _ (or_intror eq_refl))))
        as (a & w2 & xs2 & E2 & Hpl & Hh2 & Hl2 & Hcase); try done; [lia|lia|lia|by left|].
      rewrite E2. destruct Hcase as [(_ & -> & En)|(? & _)]; [|done].
      exists 0, (Some a), w2, taken, rest, xs1. split; [done|]. split; [done|]. split; [done|]. split; [done|]. split; [done|].
      split; [done|]. split; [done|]. exists (mt_next_pgno (w_txn w)). split; [by apply placed_from in Hpl|]. right. done.
Qed.

(** C12.  [mdb_page_alloc] in a transaction that can allocate: it takes the next records of
    the freeDB, in order and none twice, each older than the oldest reader and the oldest
    meta page; [me_pglast] becomes the last one.  It then hands out a page header for a range
    of [num] numbers that leaves [me_pghead], or for numbers at the end of the file that stay
    below [me_maxpg]; or it fails with [MDB_MAP_FULL] and blocks the transaction.  In every
    case [me_pghead] holds exactly the numbers that were there and in these records, less
    the range. *)
Theorem page_alloc_accounts fuel touch me_txns n w num got db rs xs ys answer :
  (33 ≤ fuel)%nat → (length rs < n)%nat → alloc_ok fuel w num got db rs xs ys → mdb_find_oldest (w_txnid w) me_txns = Ok answer →
  ∃ rc np w' taken rest xs', mdb_page_alloc fuel touch me_txns n (λ _, true) got w num = Ok (rc, np, w') ∧
    after (w_pglast w) rs = taken ++ rest ∧ w_pglast w' = default (w_pglast w) (fst <$> last taken) ∧
    Forall (λ r, r.1 < Z.max (w_pgoldest w) answer) taken ∧ pghead_holds (w_pghead w') xs' ∧ falls xs' ∧
    alloc_out w num xs ys taken rc np w' xs'.
Proof. apply page_alloc_spec. Qed.

(** C11.  Pages in use are spared.  Let [used v x] say that the version that transaction [v]
    wrote has the page [x].  When no version from the oldest reader on has a number of
    [me_pghead], when a version from [r] on has no page that transaction [r] freed, and when
    all have only pages of the file, then no such version has a page that [mdb_page_alloc]
    hands out, nor one of the numbers that are left to hand out, and these two are apart. *)
Theorem page_alloc_spares fuel touch me_txns n w num got db rs xs ys answer (used : Z → Z → Prop) :
  (33 ≤ fuel)%nat → (length rs < n)%nat → alloc_ok fuel w num got db rs xs ys → mdb_find_oldest (w_txnid w) me_txns = Ok answer →
  (∀ v x, Z.max (w_pgoldest w) answer ≤ v → x ∈ xs → ¬ used v x) →
  (∀ r v x, r ∈ rs → x ∈ r.2 → r.1 ≤ v → ¬ used v x) →
  (∀ v x, mt_next_pgno (w_txn w) ≤ x → ¬ used v x) →
  (∀ x, x ∈ xs ++ concat (after (w_pglast w) rs).*2 → x < mt_next_pgno (w_txn w)) →
  ∃ rc np w' xs', mdb_page_alloc fuel touch me_txns n (λ _, true) got w num = Ok (rc, np, w') ∧ pghead_holds (w_pghead w') xs' ∧
    (∀ v x, Z.max (w_pgoldest w) answer ≤ v → x ∈ xs' → ¬ used v x) ∧
    (∀ a, np = Some a → ∃ pgno, placed_page w w' num pgno a ys ∧
      ∀ x, pgno ≤ x < pgno + num → x ∉ xs' ∧ ∀ v, Z.max (w_pgoldest w) answer ≤ v → ¬ used v x).
Proof.
  intros Hfuel Hn Hw Hans Hxs Hrs Hnew Hfile.
  destruct (page_alloc_spec fuel touch me_txns n w num got db rs xs ys answer Hfuel Hn Hw Hans)
    as (rc & np & w' & taken & rest & xs' & E & Et & _ & Hold & Hh & _ & Hout).
  exists rc, np, w', xs'. do 2 (split; [done|]).
  assert (Hfree : ∀ v x, Z.max (w_pgoldest w) answer ≤ v → x ∈ xs ++ concat taken.*2 → ¬ used v x).
  { intros v x Hv [Hx|(r & Hr & Hx)%elem_of_concat_fst]%elem_of_app; [by eapply Hxs|]. apply (Hrs r); [|done|].
    - assert (Hr' : r ∈ after (w_pglast w) rs) by (rewrite Et; apply elem_of_app; by left). by apply list_elem_of_filter in Hr' as [_ Hr'].
    - pose proof (proj1 (Forall_forall _ _) Hold r Hr) as Hlt. cbn in Hlt. lia. }
  pose proof (proj1 (proj2 (ao_fits _ _ _ _ _ _ _ _ Hw))) as Hnd. rewrite Et, fmap_app, concat_app, (assoc_L (++)) in Hnd, Hfile.
  apply NoDup_app in Hnd as (Hnd & _ & _). destruct np as [a|].
  - destruct Hout as (_ & pgno & Hp & [(Hx & _)|(Hx & -> & _)]).
    + split; [intros v x Hv Hin; apply (Hfree v x Hv); rewrite <-Hx; apply elem_of_app; by left|].
      intros ? [= <-]. exists pgno. split; [done|]. intros x Hr. assert (x ∈ seqZ pgno num) by (apply elem_of_seqZ; lia).
      rewrite <-Hx in Hnd. apply NoDup_app in Hnd as (_ & Hnd & _). split; [by intros Hin; apply (Hnd x)|].
      intros v Hv. apply (Hfree v x Hv). rewrite <-Hx. apply elem_of_app. by right.
    + split; [intros v x Hv Hin; apply (Hfree v x Hv); by rewrite <-Hx|].
      intros ? [= <-]. exists (mt_next_pgno (w_txn w)). split; [done|]. intros x Hr. split.
      * intros Hin. rewrite Hx in Hin. assert (x < mt_next_pgno (w_txn w)) by (apply Hfile, elem_of_app; by left). lia.
      * intros v _. apply Hnew. lia.
  - destruct Hout as (_ & Hx & _). split; [|done]. intros v x Hv Hin. apply (Hfree v x Hv). by rewrite <-Hx.
Qed.

Module Example.

(** A freeDB page of 128 bytes: transaction 3 freed the pages 9 and 8, transaction 7 freed 6.
    A reader still reads what transaction 5 wrote. *)
Definition rs : list record := [(3, [9; 8]); (7, [6])].
Definition page_of_records : page :=
  Reads.Example.page_of_nodes 2 P_LEAF 56 ((λ r, leaf_node (entry_of r).1 (Z.of_nat (length (entry_of r).2)) 0 (entry_of r).2 []) <$> rs).
Definition m : Mem := MkMem (replicate (Z.to_nat 256) 0 ++ page_of_records) 128 ∅.
Definition db : MDB_db := MkDb 128 8 1 0 1 0 2 2.
Definition t : MDB_txn :=
  MkTxn 0 12 [(None, mid2l_cells 7 [MkID2 10 500] [None])] [db; db] (replicate 2 (MkDbx (MkVal 0 []) (Some Cmp_long) None))
    (replicate 2 (Z.lor DB_VALID DB_USRVALID)) [0; 0] [0; 0] (MkWtx 9 40 [] 0 (MkIDL 8 [Some 0]) [] None 0 1 100 0 0 []).
Definition w : Wr := MkWr m t.
Definition readers : option MDB_txninfo := Some (MkTi 8 1 [MkReader 5 77 1]).
Definition got : option (Z * page) := Some (1000, replicate (Z.to_nat 256) 0).

Lemma page_holds : page_at m true (InMap 256)
  ((λ r, leaf_node (entry_of r).1 (Z.of_nat (length (entry_of r).2)) 0 (entry_of r).2 []) <$> rs).
Proof. Reads.Example.read_page. Defined.

Lemma w_ok : alloc_ok 40 w 2 got db rs [] [MkID2 10 500].
Proof.
  assert (Ea : after (w_pglast w) rs = rs) by done. constructor; rewrite ?Ea.
  - split; try done; eexists; split; done.
  - right. exists 0%nat. split_and!; [|lia|lia|done|done]. split; [by repeat constructor|].
    eexists _, _. split_and!; [by exists 0|exact page_holds|by repeat constructor|done|]. split.
    + intros [|[|i]] a _ Ha; [injection Ha as <-; apply le_bytes_key..|done].
    + intros [|[|i]] [|[|j]] a b Hij Ha Hb; try done; try lia. by injection Ha as <-; injection Hb as <-.
  - repeat constructor; cbn; lia.
  - done.
  - cbn. lia.
  - split_and!; [apply SSorted_nil|by apply (bool_decide_unpack _)|repeat constructor; cbn; lia|cbn; lia].
  - lia.
  - cbn. lia.
  - done.
  - by left.
  - constructor; [done|by exists 1000, (replicate (Z.to_nat 256) 0)|intros a Ha; by apply elem_of_nil in Ha].
  - intros n Hn. constructor; [by exists None, 7, None, [], []|done|by repeat constructor| |done].
    intros Hin. cbn in Hin. apply list_elem_of_singleton in Hin as ->. cbn in Hn. destruct Hn as [Hn|Hn]; [|done].
    by rewrite !elem_of_cons, elem_of_nil in Hn; destruct Hn as [|[|[|]]].
Defined.

(** The two pages of transaction 3 are handed out. *)
Lemma page_alloc_accounts_witness :
  ∃ w', mdb_page_alloc 40 (mret 0) readers 3 (λ _, true) got w 2 = Ok (0, Some 1000, w') ∧ w_pglast w' = 3 ∧
    pghead_holds (w_pghead w') [].
Proof.
  destruct (page_alloc_accounts 40 (mret 0) readers 3 w 2 got db rs [] [MkID2 10 500] 5 ltac:(lia) ltac:(cbn; lia) w_ok eq_refl)
    as (rc & np & w' & taken & rest & xs' & E & _).
  vm_compute in E. injection E as <- <- <-. eexists. split; [vm_compute; reflexivity|]. split; [done|]. by eexists.
Defined.

(** The readers have the pages 0 to 7 and 10: 6 from before transaction 7. *)
Lemma page_alloc_spares_witness :
  ∃ rc np w' xs', mdb_page_alloc 40 (mret 0) readers 3 (λ _, true) got w 2 = Ok (rc, np, w') ∧ pghead_holds (w_pghead w') xs' ∧
    (∀ v x, 5 ≤ v → x ∈ xs' → ¬ ((x < 8 ∨ x = 10) ∧ (x = 6 → v < 7))) ∧
    (∀ a, np = Some a → ∃ pgno, placed_page w w' 2 pgno a [MkID2 10 500] ∧
      ∀ x, pgno ≤ x < pgno + 2 → x ∉ xs' ∧ ∀ v, 5 ≤ v → ¬ ((x < 8 ∨ x = 10) ∧ (x = 6 → v < 7))).
Proof.
  apply (page_alloc_spares 40 (mret 0) readers 3 w 2 got db rs [] [MkID2 10 500] 5 (λ v x, (x < 8 ∨ x = 10) ∧ (x = 6 → v < 7)));
    [lia|cbn; lia|exact w_ok|done|..].
  - intros v x _ Hx. by apply elem_of_nil in Hx.
  - intros r v x Hr Hx Hv [Hu H6]. unfold rs in Hr. rewrite elem_of_cons, list_elem_of_singleton in Hr.
    destruct Hr as [->| ->]; cbn in Hx, Hv; rewrite !elem_of_cons, elem_of_nil in Hx; cbn in Hu; lia.
  - intros v x Hx [Hu _]. cbn in Hx. lia.
  - intros x Hx. change (x ∈ [9; 8; 6]) in Hx. rewrite !elem_of_cons in Hx. cbn. destruct Hx as [->|[->|[->|Hx]]]; [lia..|by apply elem_of_nil in Hx].
Defined.
End Example.
