(* ===== verification/Touch.v ===== *)
(** * Copy on write in LMDB (src/lib/lmdb/mdb.c)

    Before a write transaction changes a page that an older version has, it copies it:
    [mdb_page_touch] gives the page under a cursor a new number and memory of its own,
    [mdb_page_unspill] takes back a page that was written early, and [mdb_cursor_touch]
    does it for the whole stack of a cursor, from the root down.

    The allocation of the copy is that of Alloc.v.  What [malloc] gives is a function of
    the memory in use and the size; [room_ok] says which allocations of lists succeed. *)

From S2P Require Import Prelude.
From S2P Require Import Lmdb Midl Page Meta Readers Tree Flush Alloc.

Definition DB_DIRTY : Z := 0x01.
Definition MDB_TXN_SPILLS : Z := 0x08.
Definition P_SUBP : Z := 0x40.

Definition IS_SUBP (p : page) : res bool := f ← MP_FLAGS p; Ok (F_ISSET f P_SUBP).

(** ** The state, from a cursor *)

(** A call on the memory and the transaction. *)
Definition on_wr {A} (f : Wr → res (A * Wr)) : M A := λ s,
  '(a, w) ← f (MkWr (st_mem s) (st_txn s)); Ok (a, MkSt (w_mem w) (w_txn w) (st_mc s) (st_own s) (st_x s)).

Definition get_wr : M Wr := on_wr (λ w, Ok (w, w)).
Definition put_wr (w : Wr) : M unit := on_wr (λ _, Ok (tt, w)).

(** A page is read and written as it is behind the pointer. *)
Definition edit_page (p : Ptr) (f : page → res page) : M unit :=
  b ← page_of p; b ← lift (f b);
  on_wr (λ w, m ← put_at (w_mem w) p 0 b; Ok (tt, set_mem w m)).

(** [*mc->mc_db = db] *)
Definition with_dbs (t : MDB_txn) (dbs : list MDB_db) : MDB_txn :=
  MkTxn (mt_flags t) (mt_next_pgno t) (mt_lists t) dbs (mt_dbxs t) (mt_dbflags t) (mt_dbiseqs t) (me_dbiseqs t) (mt_w t).

Definition put_db (db : MDB_db) : M unit :=
  o ← own;
  match o with
  | Some d => put_own (Some (MkSubDb (Some db) (mx_dbx d) (mx_dbflag d)))
  | None => c ← mc; t ← txn; dbs ← lift (set_cell (mt_dbs t) (mc_dbi c) db); put_txn (with_dbs t dbs)
  end.

Definition set_root (db : MDB_db) (root : Z) : MDB_db :=
  MkDb (md_pad db) (md_flags db) (md_depth db) (md_branch_pages db) (md_leaf_pages db) (md_overflow_pages db) (md_entries db) root.

(** [*mc->mc_dbflag = f] *)
Definition with_dbflags (t : MDB_txn) (fl : list Z) : MDB_txn :=
  MkTxn (mt_flags t) (mt_next_pgno t) (mt_lists t) (mt_dbs t) (mt_dbxs t) fl (mt_dbiseqs t) (me_dbiseqs t) (mt_w t).

Definition put_dbflag (f : Z) : M unit :=
  o ← own;
  match o with
  | Some d => put_own (Some (MkSubDb (mx_db d) (mx_dbx d) (Some f)))
  | None => c ← mc; t ← txn; fl ← lift (set_cell (mt_dbflags t) (mc_dbi c) f); put_txn (with_dbflags t fl)
  end.

(** ** Other cursors on the page *)

(** [XCURSOR_REFRESH(c, top, np)]: a sub-cursor on a sub-page of the page that moved. *)
Definition XCURSOR_REFRESH (m : Mem) (c : MDB_cursor) (x : option MDB_xcursor) (top : Z) (np : Ptr) : res (option MDB_xcursor) :=
  match x with
  | None => Ok None
  | Some y =>
      if negb (has_flag (mc_flags (mx_cursor y)) C_INITIALIZED) then Ok x
      else
        p ← from m np; i ← read_byte (mc_ki c) top; n ← NUMKEYS p;
        if n <=? i then Ok x
        else
          a ← NODEPTR p i; f ← mn_flags p a;
          if Z.land f (Z.lor F_DUPDATA F_SUBDATA) =? F_DUPDATA then
            d ← NODEDATA p a; pg ← set_cell (mc_pg (mx_cursor y)) 0 (Some (ptr_add np d));
            Ok (Some (MkXcursor (set_mc_pg (mx_cursor y) pg) (mx_sub y)))
          else Ok x
  end.

(** The stack of [c] when [np] takes the place of [mp] at [top]; tells whether it had it. *)
Definition replace_pg (c : MDB_cursor) (top : Z) (mp np : Ptr) : res (bool * MDB_cursor) :=
  q ← cell (mc_pg c) top;
  if decide (q = Some mp) then pg ← set_cell (mc_pg c) top (Some np); Ok (true, set_mc_pg c pg) else Ok (false, c).

(** A round of the loops over [mt_cursors] at the end of [mdb_page_touch]. *)
Definition adjust_one (m : Mem) (mc : MDB_cursor) (mp np : Ptr) (m2 : option (MDB_cursor * option MDB_xcursor))
    : res (option (MDB_cursor * option MDB_xcursor)) :=
  match m2 with
  | None => Ok None
  | Some (c, x) =>
      if has_flag (mc_flags mc) C_SUB then
        match x with
        | None => UB
        | Some y =>
            if mc_snum (mx_cursor y) <? mc_snum mc then Ok m2
            else '(_, c3) ← replace_pg (mx_cursor y) (mc_top mc) mp np; Ok (Some (c, Some (MkXcursor c3 (mx_sub y))))
        end
      else if mc_snum c <? mc_snum mc then Ok m2
      else
        '(hit, c') ← replace_pg c (mc_top mc) mp np;
        if hit : bool then
          p ← from m np; leaf ← IS_LEAF p;
          x ← (if leaf : bool then XCURSOR_REFRESH m c' x (mc_top mc) np else Ok x);
          Ok (Some (c', x))
        else Ok m2
  end.

Fixpoint adjust_loop (m : Mem) (mc : MDB_cursor) (mp np : Ptr) (l : list (option (MDB_cursor * option MDB_xcursor)))
    : res (list (option (MDB_cursor * option MDB_xcursor))) :=
  match l with
  | [] => Ok []
  | m2 :: l => m2 ← adjust_one m mc mp np m2; l ← adjust_loop m mc mp np l; Ok (m2 :: l)
  end.

(** From the label [done] on. *)
Definition adjust_cursors (mp np : Ptr) : M Z :=
  c ← mc; set_pg (mc_top c) (Some np);;
  c ← mc;
  on_wr (λ w,
    l ← cell (mw_cursors (mt_w (w_txn w))) (mc_dbi c);
    l ← adjust_loop (w_mem w) c mp np l;
    ls ← set_cell (mw_cursors (mt_w (w_txn w))) (mc_dbi c) l;
    Ok (0, set_cursors w ls)).

(** ** Spilled pages *)

(** The first of the transaction and its parents that has spilled the page, with the place
    in its list. *)
Fixpoint spilled_in (fuel : nat) (pn : Z) (k : nat) (ls : list (option block * list (option ID2))) : res (option (nat * Z)) :=
  match ls with
  | [] => Ok None
  | (None, _) :: ls => spilled_in fuel pn (S k) ls
  | (Some sl, _) :: ls =>
      x ← mdb_midl_search fuel sl pn; n ← rd sl 0;
      if x <=? n then y ← rd sl x; if y =? pn then Ok (Some (k, x)) else spilled_in fuel pn (S k) ls
      else spilled_in fuel pn (S k) ls
  end.

(** The page is no longer spilled: the list of the transaction itself is cut, or the entry
    marked as deleted. *)
Definition unspill_own (t : MDB_txn) (k : nat) (x : Z) : res MDB_txn :=
  match k, mt_lists t with
  | O, (Some sl, dl) :: rest =>
      n ← rd sl 0;
      sl ← (if x =? n then wr sl 0 (n - 1) else y ← rd sl x; wr sl x (Z.lor y 1));
      Ok (with_lists t ((Some sl, dl) :: rest))
  | O, _ => UB
  | S _, _ => Ok t
  end.

Section touch.
Context (fuel n : nat) (me_txns : option MDB_txninfo) (room_ok : nat → bool) (malloc : gmap Z page → Z → option (Z * page)).

(** What [malloc] gives for [num] pages. *)
Definition got_for (w : Wr) (num : Z) : option (Z * page) := malloc (heap (w_mem w)) (me_psize (w_mem w) * num).

Definition page_malloc (num : Z) : M (option Z) := on_wr (λ w, mdb_page_malloc (got_for w num) w num).

Definition page_dirty (np : Z) : M unit := on_wr (λ w, w ← mdb_page_dirty fuel w np; Ok (tt, w)).

(** [np->mp_flags |= P_DIRTY] *)
Definition or_dirty (b : page) : res page := f ← MP_FLAGS b; wr16 b 10 (Z.lor f P_DIRTY).

(** [mdb_page_unspill]: a code, and the page if it was spilled. *)
Definition mdb_page_unspill (mp : Ptr) : M (Z * option Ptr) :=
  p ← page_of mp; pgno ← lift (mread p 0 8); t ← txn;
  hit ← lift (spilled_in fuel (u64 (Z.shiftl (le pgno) 1)) 0 (mt_lists t));
  match hit with
  | None => mret (0, None)
  | Some (k, x) =>
      w ← get_wr;
      if w_room w =? 0 then mret (MDB_TXN_FULL, None)
      else
        big ← lift (IS_OVERFLOW p); num ← (if big : bool then lift (MP_PAGES p) else mret 1);
        let psize := me_psize (w_mem w) in
        np ← (if has_flag (w_flags w) MDB_WRITEMAP then
                mret (match mp with InMap o => Some (w_map w + o) | InHeap a _ => Some a end)
              else page_malloc num);
        match np with
        | None => mret (ENOMEM, None)
        | Some np =>
            w ← get_wr; let q := page_ptr w np in
            (if has_flag (w_flags w) MDB_WRITEMAP then mret tt
             else edit_page q (λ b, if 1 <? num then mcopy b p 0 (num * psize) else mdb_page_copy b p psize));;
            t ← txn; t ← lift (unspill_own t k x); put_txn t;;
            page_dirty np;; edit_page q or_dirty;;
            mret (0, Some q)
        end
  end.

(** [goto fail] *)
Definition touch_fails (rc : Z) : M Z := txn_error;; mret rc.

(** The copy of the page [mp] at [np], with its number, and the cursors on it. *)
Definition touch_copy (mp : Ptr) (np : Z) (pgno : Z) : M Z :=
  w ← get_wr; p ← page_of mp;
  edit_page (page_ptr w np) (λ b, mdb_page_copy b p (me_psize (w_mem w)));;
  edit_page (page_ptr w np) (λ b, mwrite b 0 (le_bytes 8 pgno));;
  edit_page (page_ptr w np) or_dirty;;
  adjust_cursors mp (page_ptr w np).

(** The parent page, if any, points to the new page. *)
Definition touch_link (pgno : Z) : M unit :=
  c ← mc;
  if negb (mc_top c =? 0) then
    parent ← pg_at (mc_top c - 1); ki ← ki_at (mc_top c - 1);
    edit_page parent (λ b, a ← NODEPTR b ki; SETPGNO b a pgno)
  else db ← mc_db; put_db (set_root db pgno).

(** A page that no transaction in progress has changed; [alloc] is [mdb_page_alloc]. *)
Definition touch_clean (alloc : M (Z * option Z)) (mp : Ptr) : M Z :=
  w ← get_wr;
  '(rc, l) ← lift (mdb_midl_need (room_ok n) (mw_free_pgs (mt_w (w_txn w))) 1);
  put_wr (set_free_pgs w l);;
  if negb (rc =? 0) then touch_fails rc
  else
    '(rc, np) ← alloc;
    match np with
    | None => touch_fails rc
    | Some np =>
        w ← get_wr;
        b ← page_of (page_ptr w np); pgno ← lift (mread b 0 8);
        p ← page_of mp; old ← lift (mread p 0 8);
        lift (c_assert (negb (le old =? le pgno)));;
        l ← lift (mdb_midl_xappend (ids (mw_free_pgs (mt_w (w_txn w)))) (le old));
        put_wr (set_free_pgs w (MkIDL (Midl.room (mw_free_pgs (mt_w (w_txn w)))) l));;
        touch_link (le pgno);; touch_copy mp np (le pgno)
    end.

(** A dirty page of a nested transaction, which may be that of a parent. *)
Definition touch_nested (mp : Ptr) (dl : list (option ID2)) : M Z :=
  p ← page_of mp; pgno ← lift (mread p 0 8); let pgno := le pgno in
  cnt ← lift (rd2 dl 0);
  mine ← (if mid cnt =? 0 then mret None
          else
            x ← lift (mdb_mid2l_search fuel dl pgno);
            if x <=? mid cnt then y ← lift (rd2 dl x); mret (if mid y =? pgno then Some (mptr y) else None)
            else mret None);
  match mine with
  | Some a =>
      w ← get_wr;
      if decide (mp = page_ptr w a) then mret 0
      else drop_flag (Z.lor C_INITIALIZED C_EOF);; txn_error;; mret MDB_CORRUPTED
  | None =>
      lift (c_assert (mid cnt <? MDB_IDL_UM_MAX));;
      np ← page_malloc 1;
      match np with
      | None => mret ENOMEM
      | Some np =>
          t ← txn;
          match mt_lists t with
          | [] => ub
          | (sp, dl) :: rest =>
              '(rc, dl) ← lift (mdb_mid2l_insert fuel dl (MkID2 pgno np));
              lift (c_assert (rc =? 0));;
              put_txn (with_lists t ((sp, dl) :: rest));;
              touch_copy mp np pgno
          end
      end
  end.

Definition touch_body (alloc : M (Z * option Z)) : M Z :=
  mp ← top_pg; p ← page_of mp; fl ← lift (MP_FLAGS p); sub ← lift (IS_SUBP p); t ← txn;
  if negb (F_ISSET fl P_DIRTY) then
    '(rc, np) ← (if has_flag (mt_flags t) MDB_TXN_SPILLS then mdb_page_unspill mp else mret (0, None));
    if negb (rc =? 0) then touch_fails rc
    else match np with Some np => adjust_cursors mp np | None => touch_clean alloc mp end
  else
    match mt_lists t with
    | (_, dl) :: _ :: _ => if negb sub then touch_nested mp dl else mret 0
    | _ => mret 0
    end.

(** [mdb_page_touch].  The cursor that [mdb_page_alloc] reads the freeDB with could touch
    pages in turn, if it were asked to; [d] bounds that. *)
Fixpoint mdb_page_touch (d : nat) : M Z :=
  match d with
  | O => lift NoFuel
  | S d => touch_body (on_wr (λ w, '(rc, np, w) ← mdb_page_alloc fuel (mdb_page_touch d) me_txns n room_ok (got_for w 1) w 1; Ok (rc, np, w)))
  end.

(** ** The stack of a cursor *)

(** [do rc = mdb_page_touch(mc); while (!rc && ++(mc->mc_top) < mc->mc_snum);], [k] rounds. *)
Fixpoint touch_stack (touch : M Z) (k : nat) : M Z :=
  match k with
  | O => lift NoFuel
  | S k =>
      rc ← touch;
      if negb (rc =? 0) then mret rc
      else
        c ← mc; put_mc (set_snum_top c (mc_snum c) (mc_top c + 1));;
        c ← mc; if mc_top c <? mc_snum c then touch_stack touch k else mret rc
  end.

(** The record of a named database is touched once in a transaction. *)
Definition touch_record (touch : M Z) : M Z :=
  c ← mc; t ← txn;
  s1 ← lift (cell (mt_dbiseqs t) (mc_dbi c)); s2 ← lift (cell (me_dbiseqs t) (mc_dbi c));
  if negb (s1 =? s2) then mret MDB_BAD_DBI
  else
    dbx ← mc_dbx;
    rc ← on_new (mdb_cursor_init fuel touch MAIN_DBI true;; mdb_page_search fuel touch (Some (md_name dbx)) MDB_PS_MODIFY);
    if negb (rc =? 0) then mret rc
    else f ← mc_dbflag; put_dbflag (Z.lor f DB_DIRTY);; mret 0.

Definition mdb_cursor_touch (d : nat) : M Z :=
  c ← mc;
  rc ← (if mc_dbi c <? CORE_DBS then mret 0
        else f ← mc_dbflag; if negb (Z.land f (Z.lor DB_DIRTY DB_DUPDATA) =? 0) then mret 0 else touch_record (mdb_page_touch d));
  if negb (rc =? 0) then mret rc
  else
    c ← mc; put_mc (set_snum_top c (mc_snum c) 0);;
    if mc_snum c =? 0 then mret 0
    else
      rc ← touch_stack (mdb_page_touch d) (Z.to_nat (mc_snum c));
      c ← mc; put_mc (set_snum_top c (mc_snum c) (mc_snum c - 1));; mret rc.
End touch.
