(* ===== verification/CowPages.v ===== *)
(** * Pages of LMDB that are copied and changed in place

    What copy on write does to one page: the copy gets a number and the dirty flag, and the
    node of its parent gets the new number.  The nodes of a page are what its bytes say. *)

From S2P Require Import Prelude.
From S2P Require Import Lmdb Midl Page PageProps PageMore Meta MetaProps Readers Tree TreeProps Flush Alloc Touch.

(** ** A page has its nodes in one way *)

Lemma node_bytes_inj leaf n n' l l' :
  node_ok leaf n → node_ok leaf n' → node_bytes n ++ l = node_bytes n' ++ l' → n = n'.
Proof.
  intros H H' E. destruct n as [lo hi fl ks d], n' as [lo' hi' fl' ks' d']. unfold node_bytes in E. cbn [n_lo n_hi n_flags n_ksize n_data] in E.
  rewrite <-!(assoc_L (++)) in E. apply app_inj_1 in E as [E1 E]; [|done]. apply app_inj_1 in E as [E2 E]; [|done].
  apply app_inj_1 in E as [E3 E]; [|done]. apply app_inj_1 in E as [E4 E]; [|done].
  pose proof H as [L1 L2 L3 L4 S]. pose proof H' as [L1' L2' L3' L4' S']. cbn [n_lo n_hi n_flags n_ksize] in *.
  assert (lo = lo') as <- by (by rewrite <-(le_le16 lo), E1, le_le16).
  assert (hi = hi') as <- by (by rewrite <-(le_le16 hi), E2, le_le16).
  assert (fl = fl') as <- by (by rewrite <-(le_le16 fl), E3, le_le16).
  assert (ks = ks') as <- by (by rewrite <-(le_le16 ks), E4, le_le16).
  unfold node_size, node_bytes, n_dsz in S, S'. cbn [n_lo n_hi n_flags n_ksize n_data] in S, S'.
  rewrite !length_app in S, S'. cbn [length le16] in S, S'.
  apply app_inj_1 in E as [-> _]; [done|lia].
Qed.

Lemma holds_inj leaf p ns ns' : holds leaf p ns → holds leaf p ns' → ns = ns'.
Proof.
  intros (h & es & gap & lay & HW & -> & <-) (h' & es' & gap' & lay' & HW' & E & <-).
  pose proof (holds_NUMKEYS HW) as N. rewrite E, (holds_NUMKEYS HW') in N. injection N as N.
  apply list_eq_same_length with (length es); [rewrite length_fmap; lia|by rewrite length_fmap|].
  intros i n n' Hi Hn Hn'. apply list_lookup_fmap_Some in Hn as ([a m] & -> & Hn), Hn' as ([a' m'] & -> & Hn').
  pose proof (holds_NODEPTR HW i a m Hn) as P. rewrite E, (holds_NODEPTR HW' i a' m' Hn') in P. injection P as ->.
  destruct (holds_node HW i a m Hn) as (l1 & l2 & Ep & Ea & Ho), (holds_node HW' i a m' Hn') as (l1' & l2' & Ep' & Ea' & Ho').
  rewrite E, Ep' in Ep. apply app_inj_1 in Ep as [_ Ep]; [|lia]. symmetry in Ep. by eapply node_bytes_inj.
Qed.

Lemma holds_leaf leaf leaf' p ns ns' : holds leaf p ns → holds leaf' p ns' → leaf = leaf'.
Proof.
  intros (h & es & gap & lay & HW & -> & _) (h' & es' & gap' & lay' & HW' & E & _).
  pose proof (holds_IS_LEAF HW) as L. rewrite E, (holds_IS_LEAF HW') in L. by injection L.
Qed.

Lemma page_IS_LEAF leaf p ns : holds leaf p ns → IS_LEAF p = Ok leaf.
Proof. intros (h & es & gap & lay & HW & -> & _). apply (holds_IS_LEAF HW). Qed.

(** ** The header of a copy *)

(** The page with other bytes in front of its flags, and with other flags. *)
Definition reheaded (p p' : page) (fl' : Z) : Prop :=
  ∃ pre pre' fl rest, p = pre ++ le16 fl ++ rest ∧ p' = pre' ++ le16 fl' ++ rest ∧
    length pre = 10%nat ∧ length pre' = 10%nat ∧ u16_ok fl ∧ fl' = Z.lor fl P_DIRTY.

Lemma or_dirty_range fl : u16_ok fl → u16_ok (Z.lor fl P_DIRTY).
Proof.
  intros [H0 H1]. split; [apply Z.lor_nonneg; split; [done|by vm_compute]|].
  destruct (Z.eq_dec (Z.lor fl P_DIRTY) 0) as [->|N]; [lia|].
  assert (0 ≤ Z.lor fl P_DIRTY) by (apply Z.lor_nonneg; split; [done|by vm_compute]).
  apply (Z.log2_lt_pow2 _ 16); [lia|]. rewrite Z.log2_lor by (done || by vm_compute).
  destruct (Z.eq_dec fl 0) as [->|]; [by vm_compute|]. apply Z.max_lub_lt; [|by vm_compute]. apply Z.log2_lt_pow2; lia.
Qed.

Lemma F_ISSET_or_dirty fl f : Z.land P_DIRTY f = 0 → F_ISSET (Z.lor fl P_DIRTY) f = F_ISSET fl f.
Proof. intros H. unfold F_ISSET. by rewrite Z.land_lor_distr_l, H, Z.lor_0_r. Qed.

Lemma reheaded_holds leaf p p' fl' ns : reheaded p p' fl' → holds leaf p ns → holds leaf p' ns.
Proof.
  intros (pre & pre' & fl & rest & -> & -> & Hl & Hl' & Hfl & ->) (h & es & gap & lay & HW & E & Hes).
  pose proof (hw_head _ _ _ _ _ HW) as Hh. unfold page_bytes, head_bytes in E. rewrite <-!(assoc_L (++)) in E.
  apply app_inj_1 in E as [-> E]; [|by rewrite (ho_pre h Hh)]. apply app_inj_1 in E as [E ->]; [|done].
  assert (fl = h_flags h) as -> by (rewrite <-(le_le16 fl), E by done; by apply le_le16, (ho_flags h Hh)).
  exists (MkHead pre' (Z.lor (h_flags h) P_DIRTY) (h_lower h) (h_upper h)), es, gap, lay. split; [|split; [|done]].
  - destruct HW as [[H1 H2 H3 H4] H5 H6 H7 H8 H9 H10 H11]. split; cbn; try done.
    + split; cbn; try done. by apply or_dirty_range.
    + rewrite <-H5. by apply F_ISSET_or_dirty.
    + rewrite <-H6. by apply F_ISSET_or_dirty.
  - unfold page_bytes, head_bytes. cbn. by rewrite <-!(assoc_L (++)).
Qed.

Lemma reheaded_branch p p' fl' b : reheaded p p' fl' → IS_BRANCH p = Ok b → IS_BRANCH p' = Ok b.
Proof.
  intros (pre & pre' & fl & rest & -> & -> & Hl & Hl' & Hfl & ->). unfold IS_BRANCH, MP_FLAGS.
  rewrite (rd16_at _ pre fl rest), (rd16_at _ pre' (Z.lor fl P_DIRTY) rest) by (done || lia || by apply or_dirty_range).
  cbn [mbind res_bind]. intros <-. by rewrite F_ISSET_or_dirty.
Qed.

Lemma reheaded_flags p p' fl' : reheaded p p' fl' → MP_FLAGS p' = Ok fl' ∧ F_ISSET fl' P_DIRTY = true ∧ length p' = length p.
Proof.
  intros (pre & pre' & fl & rest & -> & -> & Hl & Hl' & Hfl & ->). unfold MP_FLAGS. split_and!.
  - rewrite (rd16_at _ pre' (Z.lor fl P_DIRTY) rest) by (done || lia || by apply or_dirty_range). done.
  - unfold F_ISSET. rewrite Z.land_lor_distr_l, Z.land_diag. apply Z.eqb_eq. apply Z.bits_inj'. intros k Hk.
    rewrite Z.lor_spec, Z.land_spec. by destruct (Z.testbit fl k), (Z.testbit P_DIRTY k).
  - rewrite !length_app, !length_le16. lia.
Qed.

(** The number and the flag of a copy, as [mdb_page_touch] writes them. *)
Lemma rehead_page leaf p ns pgno :
  holds leaf p ns → ∃ p1 p' fl', mwrite p 0 (le_bytes 8 pgno) = Ok p1 ∧ or_dirty p1 = Ok p' ∧ reheaded p p' fl' ∧
    mread p' 0 8 = Ok (le_bytes 8 pgno).
Proof.
  intros (h & es & gap & lay & HW & -> & _). destruct (hw_head _ _ _ _ _ HW) as [Hpre Hfl _ _].
  set (rest := le16 (h_lower h) ++ le16 (h_upper h) ++ ptr_bytes es.*1 ++ gap ++ body lay).
  assert (E : page_bytes h es gap lay = h_pre h ++ le16 (h_flags h) ++ rest) by (unfold page_bytes, head_bytes, rest; app_eq).
  rewrite E. clear E. set (pre' := le_bytes 8 pgno ++ drop 8 (h_pre h)).
  assert (Hpre' : length pre' = 10%nat) by (unfold pre'; rewrite length_app, length_le_bytes, length_drop; lia).
  exists (pre' ++ le16 (h_flags h) ++ rest), (pre' ++ le16 (Z.lor (h_flags h) P_DIRTY) ++ rest), (Z.lor (h_flags h) P_DIRTY).
  split_and!.
  - rewrite (mwrite_at _ [] (take 8 (h_pre h)) (drop 8 (h_pre h) ++ le16 (h_flags h) ++ rest)).
    + unfold pre'. app_eq.
    + cbn [app]. by rewrite (assoc_L (++) (take 8 _)), take_drop.
    + done.
    + rewrite length_le_bytes, length_take. lia.
  - unfold or_dirty, MP_FLAGS. rewrite (rd16_at _ pre' (h_flags h) rest) by (done || lia). cbn [mbind res_bind].
    by apply (wr16_at _ pre' (le16 (h_flags h)) rest); [|lia|].
  - by exists (h_pre h), pre', (h_flags h), rest.
  - unfold pre'. by apply (mread_at _ [] (le_bytes 8 pgno) (drop 8 (h_pre h) ++ le16 (Z.lor (h_flags h) P_DIRTY) ++ rest)); [app_eq| |].
Qed.

(** ** The node of a parent *)

Definition set_pgno (n : node) (x : Z) : node :=
  Node (u16 (Z.land x 65535)) (u16 (Z.shiftr x 16)) (u16 (Z.shiftr x 32)) (n_ksize n) (n_data n).

Lemma n_pgno_set n x : 0 ≤ x < 2 ^ 48 → n_pgno (set_pgno n x) = x.
Proof.
  intros Hx. unfold n_pgno, set_pgno. cbn [n_lo n_hi n_flags]. unfold u16. change 65536 with (2 ^ 16). change 65535 with (Z.ones 16).
  rewrite <-!Z.land_ones by done. apply Z.bits_inj'. intros k Hk.
  rewrite !Z.lor_spec, !Z.shiftl_spec, !Z.land_spec, !Z.testbit_ones by lia. 
  assert (Hhi : 48 ≤ k → Z.testbit x k = false).
  { intros Hk'. destruct (Z.eq_dec x 0) as [->|]; [apply Z.bits_0|]. apply Z.bits_above_log2; [lia|].
    apply Z.lt_le_trans with 48; [apply Z.log2_lt_pow2; lia|done]. }
  destruct (Z.ltb_spec k 16).
  - rewrite !(Z.testbit_neg_r _ (k - _)) by lia. rewrite (proj2 (Z.leb_le 0 k)) by done. cbn. by rewrite !andb_true_r, !orb_false_r.
  - rewrite !andb_false_r. cbn [orb]. destruct (Z.ltb_spec (k - 32) 0).
    + rewrite (Z.testbit_neg_r _ (k - 32)), orb_false_r by lia. rewrite Z.shiftr_spec by lia.
      rewrite (proj2 (Z.leb_le _ _)), (proj2 (Z.ltb_lt _ _)) by lia. replace (k - 16 + 16) with k by lia. by rewrite !andb_true_r.
    + rewrite (proj2 (Z.ltb_ge (k - 16) 16)) by lia. rewrite !andb_false_r. cbn [orb]. rewrite !Z.shiftr_spec by lia.
      replace (k - 32 + 32) with k by lia. destruct (Z.ltb_spec (k - 32) 16).
      * rewrite (proj2 (Z.leb_le _ _)) by lia. by rewrite andb_true_r.
      * rewrite !andb_false_r. symmetry. apply Hhi. lia.
Qed.

Lemma n_key_set n x : n_key (set_pgno n x) = n_key n.
Proof. done. Qed.

Lemma set_pgno_ok n x : node_ok false n → node_ok false (set_pgno n x).
Proof. intros [? ? ? ? Hs]. split; cbn [set_pgno n_lo n_hi n_flags n_ksize]; try apply u16_range; [done|exact Hs]. Qed.

Lemma layout_set u l1 n n' l2 : length (node_bytes n') = length (node_bytes n) →
  layout u (l1 ++ n' :: l2) = layout u l1 ++ (u + Z.of_nat (length (body l1)), n') ::
    layout (u + Z.of_nat (length (body l1)) + Z.of_nat (length (node_bytes n))) l2.
Proof. intros E. rewrite layout_app. cbn [layout]. by rewrite E. Qed.

(** [SETPGNO] on the node [i] of a branch page. *)
Lemma SETPGNO_holds p bs i b x :
  holds false p bs → bs !! i = Some b → ∃ a p', NODEPTR p (Z.of_nat i) = Ok a ∧ SETPGNO p a x = Ok p' ∧
    holds false p' (<[i := set_pgno b x]> bs) ∧ MP_FLAGS p' = MP_FLAGS p ∧ mread p' 0 8 = mread p 0 8 ∧ length p' = length p.
Proof.
  intros (h & es & gap & lay & HW & -> & <-) Hi. apply list_lookup_fmap_Some in Hi as ([a n] & -> & Hi). cbn [snd].
  exists a. pose proof (holds_split HW i a n Hi) as (es1 & es2 & l1 & l2 & Ees & Hl & Elay & Ea).
  set (n' := set_pgno n x). assert (Hlen : length (node_bytes n') = length (node_bytes n)) by done.
  assert (Hes : <[i := (a, n')]> es = es1 ++ (a, n') :: es2).
  { rewrite Ees, insert_app_r_alt by lia. by rewrite Hl, Nat.sub_diag. }
  set (p' := page_bytes h (es1 ++ (a, n') :: es2) gap (l1 ++ n' :: l2)). exists p'.
  split; [by apply (holds_NODEPTR HW i a n)|].
  set (pre := head_bytes h ++ ptr_bytes es.*1 ++ gap ++ body l1).
  assert (Epre : a = Z.of_nat (length pre)).
  { unfold pre. rewrite Ea, !length_app, (holds_head HW), length_ptr_bytes, length_fmap.
    destruct HW as [_ _ _ Hlo Hup _ _ _]. lia. }
  assert (Eps : (es1 ++ (a, n') :: es2).*1 = es.*1) by (rewrite Ees, !fmap_app; done).
  assert (Ep' : p' = pre ++ node_bytes n' ++ body l2).
  { unfold p', page_bytes, pre. rewrite Eps, body_app, body_cons. app_eq. }
  assert (Ep : page_bytes h es gap lay = pre ++ node_bytes n ++ body l2).
  { unfold page_bytes, pre. rewrite Elay, body_app, body_cons. app_eq. }
  split; [|split; [|split; [|split]]].
  - rewrite Ep, Ep'. unfold SETPGNO. rewrite (wr16_at _ pre (le16 (n_lo n)) (le16 (n_hi n) ++ le16 (n_flags n) ++ le16 (n_ksize n) ++ n_data n ++ body l2));
      [|unfold node_bytes; app_eq|done|done]. cbn [mbind res_bind].
    rewrite (wr16_at _ (pre ++ le16 (Z.land x 65535)) (le16 (n_hi n)) (le16 (n_flags n) ++ le16 (n_ksize n) ++ n_data n ++ body l2));
      [|app_eq|len|done]. cbn [mbind res_bind].
    rewrite (wr16_at _ (pre ++ le16 (Z.land x 65535) ++ le16 (Z.shiftr x 16)) (le16 (n_flags n)) (le16 (n_ksize n) ++ n_data n ++ body l2));
      [|app_eq|len|done].
    unfold n', set_pgno, node_bytes. cbn [n_lo n_hi n_flags n_ksize n_data]. rewrite !le16_u16. f_equal. app_eq.
  - exists h, (es1 ++ (a, n') :: es2), gap, (l1 ++ n' :: l2). split; [|split; [done|]].
    + destruct HW as [H1 H2 H3 H4 H5 H6 H7 H8]. subst lay. split; try done.
      * by rewrite length_app, H4, Ees, length_app.
      * rewrite body_app, body_cons, !length_app in *. rewrite Hlen. exact H6.
      * apply Forall_app in H7 as [F1 [F2 F3]%Forall_cons]. apply Forall_app. split; [done|]. constructor; [by apply set_pgno_ok|done].
      * rewrite (layout_set _ l1 n n' l2 Hlen). rewrite (layout_set _ l1 n n l2 eq_refl), <-Ea, Ees in H8.
        rewrite <-Ea. rewrite <-!Permutation_middle in *. apply Permutation_cons_inv in H8. by rewrite H8.
    + by rewrite <-Hes, list_fmap_insert.
  - unfold p', page_bytes. by rewrite (MP_FLAGS_at h _ (hw_head _ _ _ _ _ HW)), (MP_FLAGS_at h _ (hw_head _ _ _ _ _ HW)).
  - unfold p', page_bytes, head_bytes. pose proof (ho_pre h (hw_head _ _ _ _ _ HW)) as H10.
    rewrite (mread_at _ [] (take 8 (h_pre h)) (drop 8 (h_pre h) ++ le16 (h_flags h) ++ le16 (h_lower h) ++ le16 (h_upper h) ++ ptr_bytes (es1 ++ (a, n') :: es2).*1 ++ gap ++ body (l1 ++ n' :: l2)));
      [|cbn [app]; by rewrite (assoc_L (++) (take 8 _)), take_drop, <-!(assoc_L (++))|done|rewrite length_take; lia].
    symmetry. apply (mread_at _ [] (take 8 (h_pre h)) (drop 8 (h_pre h) ++ le16 (h_flags h) ++ le16 (h_lower h) ++ le16 (h_upper h) ++ ptr_bytes es.*1 ++ gap ++ body lay));
      [|done|rewrite length_take; lia]. cbn [app]. by rewrite (assoc_L (++) (take 8 _)), take_drop, <-!(assoc_L (++)).
  - rewrite Ep, Ep', !length_app. by rewrite Hlen.
Qed.
