(* ===== verification/CowTree.v ===== *)
(** * Trees of LMDB when a page moves

    A page of a tree is copied to another number, and the node of its parent follows: the
    tree has the same entries, and a path through it leads to the same place.  Here trees
    are those of Snap.v, over the pages [V] of a version. *)

From S2P Require Import Prelude.
From S2P Require Import Lmdb Midl Page PageProps Meta MetaProps Tree TreeProps Flush FlushProps Snap Alloc Touch CowPages.

Abbreviation entries := (list (bytes * bytes)).

(** ** What the pages determine *)

Section version.
Context (V : gmap Z page) (cmp : MDB_cmp_func) `{!KeyOrder cmp}.

Lemma v_page_inj leaf leaf' k ns ns' : v_page V leaf k ns → v_page V leaf' k ns' → leaf = leaf' ∧ ns = ns'.
Proof.
  intros (p & Hp & Hh & _) (p' & Hp' & Hh' & _). rewrite Hp in Hp'. injection Hp' as <-.
  assert (leaf = leaf') as <- by (by eapply holds_leaf). split; [done|]. by eapply holds_inj.
Qed.

Lemma snap_page d k lo hi es : snap V cmp d k lo hi es → ∃ ns, v_page V (match d with O => true | S _ => false end) k ns.
Proof. destruct d; [intros (_ & ns & ? & _)|intros (_ & ns & ess & ? & _)]; by exists ns. Qed.

(** A page is at one height of the trees. *)
Lemma snap_depth d d' : ∀ k lo hi es lo' hi' es', snap V cmp d k lo hi es → snap V cmp d' k lo' hi' es' → d = d'.
Proof.
  revert d'. induction d as [|d IH]; intros d' k lo hi es lo' hi' es' H H'.
  - destruct (snap_page _ _ _ _ _ H) as [ns Hp], (snap_page _ _ _ _ _ H') as [ns' Hp'].
    destruct (v_page_inj _ _ _ _ _ Hp Hp') as [E _]. by destruct d'.
  - destruct d' as [|d'].
    + destruct (snap_page _ _ _ _ _ H) as [ns Hp], (snap_page _ _ _ _ _ H') as [ns' Hp']. by destruct (v_page_inj _ _ _ _ _ Hp Hp') as [E _].
    + f_equal. destruct H as (_ & bs & ess & Hp & H2 & Hl & _ & _ & Ht), H' as (_ & bs' & ess' & Hp' & _ & Hl' & _ & _ & Ht').
      destruct (v_page_inj _ _ _ _ _ Hp Hp') as [_ <-]. destruct bs as [|b bs]; [cbn in H2; lia|].
      destruct ess as [|e ess], ess' as [|e' ess']; try done.
      eapply IH; [exact (Ht 0%nat b e eq_refl eq_refl)|exact (Ht' 0%nat b e' eq_refl eq_refl)].
Qed.

(** A page with the same nodes is the root of a tree of the same entries. *)
Lemma snap_copy n n' d lo hi es :
  (∀ leaf ns, v_page V leaf n ns → v_page V leaf n' ns) → snap V cmp d n lo hi es → snap V cmp d n' lo hi es.
Proof.
  intros HC. destruct d; [intros (? & ns & Hp & H)|intros (? & bs & ess & Hp & H)].
  - split; [done|]. exists ns. split; [by apply HC|exact H].
  - split; [done|]. exists bs, ess. split; [by apply HC|exact H].
Qed.
End version.

(** The node [b'] is [b], or follows a page from [n] to [n']. *)
Definition follows (n n' : Z) (b b' : node) : Prop :=
  n_key b' = n_key b ∧ (n_pgno b' = n_pgno b ∨ n_pgno b = n ∧ n_pgno b' = n').

Lemma follows_keys n n' bs bs' : Forall2 (follows n n') bs bs' → n_key <$> bs' = n_key <$> bs.
Proof. induction 1 as [|b b' bs bs' [E _] _ IH]; [done|]. cbn. by rewrite E, IH. Qed.

Lemma bounds_keys bs bs' lo hi i :
  n_key <$> bs' = n_key <$> bs → lo_at bs' lo i = lo_at bs lo i ∧ hi_at bs' hi i = hi_at bs hi i.
Proof.
  intros E. assert (H : ∀ j, n_key <$> bs' !! j = n_key <$> bs !! j) by (intros j; by rewrite <-!list_lookup_fmap, E).
  split; [destruct i; [done|apply H]|]. unfold hi_at. specialize (H (S i)). destruct (bs' !! S i), (bs !! S i); done.
Qed.

Section moved.
Context (V V' : gmap Z page) (cmp : MDB_cmp_func) `{!KeyOrder cmp} (n n' : Z).

(** [V'] has the pages of [V], but that nodes follow the page [n] to its copy [n']. *)
Record moved : Prop := MkMoved {
  mv_pages leaf k ns : v_page V leaf k ns → ∃ ns', v_page V' leaf k ns' ∧ if leaf then ns' = ns else Forall2 (follows n n') ns ns';
  mv_copy leaf ns : v_page V leaf n ns → v_page V' leaf n' ns;
  mv_data k ns nd kv : v_page V true k ns → nd ∈ ns → v_entry V nd kv → v_entry V' nd kv;
  mv_self leaf ns : v_page V leaf n ns → v_page V' leaf n ns }.

Lemma snap_moved d : moved → ∀ k lo hi es, snap V cmp d k lo hi es → snap V' cmp d k lo hi es.
Proof using Type.
  intros [HP HC HD HS]. induction d as [|d IH]; intros k lo hi es.
  - intros (Hk & ns & Hp & He & Hn & Ha). destruct (HP _ _ _ Hp) as (? & Hp' & ->). split; [done|]. exists ns. split; [done|].
    split; [|done]. apply Forall2_same_length_lookup_2; [by eapply Forall2_length|]. intros i nd kv Hnd Hkv.
    eapply HD; [done|by eapply list_elem_of_lookup_2|]. by eapply Forall2_lookup_lr.
  - intros (Hk & bs & ess & Hp & H2 & Hl & He & Ha & Ht). destruct (HP _ _ _ Hp) as (bs' & Hp' & HF).
    pose proof (follows_keys _ _ _ _ HF) as Ek. pose proof (Forall2_length _ _ _ HF) as El.
    split; [done|]. exists bs', ess. split; [done|]. split; [lia|]. split; [lia|]. split; [done|]. rewrite Ek. split; [done|].
    intros i b' e Hb' He'. destruct (Forall2_lookup_r _ _ _ _ _ HF Hb') as (b & Hb & _ & Hpg).
    destruct (bounds_keys bs bs' lo hi i Ek) as [-> ->]. pose proof (IH _ _ _ _ (Ht i b e Hb He')) as Hs.
    destruct Hpg as [->|[E ->]]; [done|]. rewrite E in Hs.
    eapply snap_copy; [|exact Hs]. intros leaf ns Hn'. specialize (Ht i b e Hb He'). rewrite E in Ht.
    destruct (snap_page _ _ _ _ _ _ _ Ht) as [ns0 H0]. destruct (v_page_inj _ _ _ _ _ _ (HS _ _ H0) Hn') as [<- <-]. by apply HC.
Qed.
End moved.

(** ** Paths *)

Section path.
Context (V : gmap Z page) (cmp : MDB_cmp_func) `{!KeyOrder cmp}.

Definition v_branch (d : nat) (pgno : Z) (lo hi : option bytes) (bs : list node) (ess : list entries) : Prop :=
  v_page V false pgno bs ∧ (2 ≤ length bs)%nat ∧ length ess = length bs ∧ ascending cmp 1 (n_key <$> bs) ∧
  ∀ i b e, bs !! i = Some b → ess !! i = Some e → snap V cmp d (n_pgno b) (lo_at bs lo i) (hi_at bs hi i) e.

(** [spine] for the pages of a version: the path is the numbers of its pages with the index
    of the child in each. *)
Inductive v_spine (root : Z) (all : entries) :
    list (Z * Z) → nat → Z → option bytes → option bytes → entries → entries → entries → Prop :=
| v_spine_nil d : snap V cmp d root None None all → v_spine root all [] d root None None [] all []
| v_spine_snoc stk d pgno lo hi bef aft bs ess i b e :
    v_spine root all stk (S d) pgno lo hi bef (concat ess) aft → v_branch d pgno lo hi bs ess →
    bs !! i = Some b → ess !! i = Some e →
    v_spine root all (stk ++ [(pgno, Z.of_nat i)]) d (n_pgno b) (lo_at bs lo i) (hi_at bs hi i)
      (bef ++ concat (take i ess)) e (concat (drop (S i) ess) ++ aft).

Lemma v_spine_snap root all stk d k lo hi bef es aft : v_spine root all stk d k lo hi bef es aft → snap V cmp d k lo hi es.
Proof. destruct 1 as [|? ? ? ? ? ? ? ? ? ? ? ? _ (_ & _ & _ & _ & Ht) Hb He]; [done|]. by apply Ht. Qed.

(** The pages of a path are higher than where it ends. *)
Lemma v_spine_depth root all stk d k lo hi bef es aft : v_spine root all stk d k lo hi bef es aft →
  Forall (λ x, ∃ d' lo' hi' es', (d < d')%nat ∧ snap V cmp d' x.1 lo' hi' es') stk.
Proof.
  induction 1 as [|stk d pgno lo hi bef aft bs ess i b e Hs IH Hbr Hb He]; [constructor|]. apply Forall_app. split.
  - eapply Forall_impl; [exact IH|]. intros x (d' & lo' & hi' & es' & Hd & H). exists d', lo', hi', es'. split; [lia|done].
  - constructor; [|constructor]. exists (S d), lo, hi, (concat ess). split; [lia|]. by eapply v_spine_snap.
Qed.

Lemma v_spine_apart root all stk d k lo hi bef es aft x : v_spine root all stk d k lo hi bef es aft → x ∈ stk.*1 → x ≠ k.
Proof.
  intros Hs (y & -> & Hy)%list_elem_of_fmap E. pose proof (v_spine_depth _ _ _ _ _ _ _ _ _ _ Hs) as F. rewrite Forall_forall in F.
  destruct (F y Hy) as (d' & lo' & hi' & es' & Hd & H'). rewrite E in H'.
  pose proof (snap_depth _ _ _ _ _ _ _ _ _ _ _ H' (v_spine_snap _ _ _ _ _ _ _ _ _ _ Hs)). lia.
Qed.

(** The path in memory, when the pages are where [place] says. *)
Lemma v_spine_at fuel m t place root all stk d k lo hi bef es aft :
  (∀ j (p : page), V !! j = Some p → found fuel m t j (place j) ∧ ∃ rest, from m (place j) = Ok (p ++ rest)) →
  v_spine root all stk d k lo hi bef es aft →
  spine fuel m t cmp root all ((λ x, (place x.1, x.2)) <$> stk) d k lo hi bef es aft.
Proof.
  intros HV. assert (Hvis : visible V fuel m t) by (intros j p Hp; destruct (HV j p Hp) as (? & rest & ?); by exists (place j), rest).
  induction 1 as [d Hs|stk d pgno lo hi bef aft bs ess i b e Hs IH (Hp & H2 & Hl & Ha & Ht) Hb He].
  - constructor. by eapply snap_tree.
  - rewrite fmap_app. cbn [fmap list_fmap fst snd]. econstructor; [exact IH| |done|done].
    pose proof Hp as (p & Hpp & Hh & Hbr). destruct (HV _ _ Hpp) as (Hf & rest & Hm).
    split; [exact Hf|]. split; [exists (p ++ rest); split; [done|]; apply page_reads_app; by apply holds_reads|].
    split; [done|]. split; [done|]. split; [done|]. intros j b' e' Hb' He'. apply (snap_tree V cmp fuel m t); [done|]. by apply Ht.
Qed.
End path.

Lemma v_spine_mono V V' cmp `{!KeyOrder cmp} root all stk d k lo hi bef es aft :
  (∀ d k lo hi es, snap V cmp d k lo hi es → snap V' cmp d k lo hi es) →
  (∀ x ns, x ∈ stk.*1 → v_page V false x ns → v_page V' false x ns) →
  v_spine V cmp root all stk d k lo hi bef es aft → v_spine V' cmp root all stk d k lo hi bef es aft.
Proof.
  intros HS HP. induction 1 as [d Hs|stk d pgno lo hi bef aft bs ess i b e Hs IH (Hp & H2 & Hl & Ha & Ht) Hb He].
  - constructor. by apply HS.
  - rewrite fmap_app in HP. econstructor; [apply IH; intros x ns Hx; apply HP; set_solver| |done|done].
    split; [apply HP; set_solver|]. split; [done|]. split; [done|]. split; [done|]. intros j b' e' Hb' He'. by apply HS, Ht.
Qed.

(** A path with a page at its end comes from its parent. *)
Lemma v_spine_snoc_inv V cmp `{!KeyOrder cmp} root all stk q j d k lo hi bef es aft :
  v_spine V cmp root all (stk ++ [(q, j)]) d k lo hi bef es aft → ∃ lo0 hi0 bef0 aft0 bs ess i b, j = Z.of_nat i ∧
    v_spine V cmp root all stk (S d) q lo0 hi0 bef0 (concat ess) aft0 ∧ v_branch V cmp d q lo0 hi0 bs ess ∧ bs !! i = Some b ∧
    ess !! i = Some es ∧ k = n_pgno b ∧ lo = lo_at bs lo0 i ∧ hi = hi_at bs hi0 i ∧ bef = bef0 ++ concat (take i ess) ∧
    aft = concat (drop (S i) ess) ++ aft0.
Proof.
  intros H. inversion H as [?|stk1 d1 pgno lo0 hi0 bef0 aft0 bs ess i b e Hs Hbr Hb He Est]; [by destruct stk|]. subst.
  apply app_inj_tail in Est as [-> [= -> <-]]. by exists lo0, hi0, bef0, aft0, bs, ess, i, b.
Qed.

(** ** A page is copied *)

(** The data on overflow pages is there, and apart from the pages [S]. *)
Definition big_ok (V : gmap Z page) (S : list Z) : Prop := ∀ k ns nd,
  v_page V true k ns → nd ∈ ns → F_ISSET (n_flags nd) F_BIGDATA = true → is_Some (V !! le (n_val nd)) ∧ le (n_val nd) ∉ S.

Lemma big_ok_sub V S S' : (∀ x, x ∈ S' → x ∈ S) → big_ok V S → big_ok V S'.
Proof. intros HS HB k ns nd Hp Hnd Hf. destruct (HB k ns nd Hp Hnd Hf) as [H1 H2]. split; [done|]. intros H. by apply H2, HS. Qed.

(** The pages when [p'] is the copy at [n'] of a page whose path is [up], and [pp'] its parent. *)
Definition cow (V : gmap Z page) (n' : Z) (p' : page) (up : list (Z * Z)) (pp' : page) : gmap Z page :=
  match last up with None => <[n' := p']> V | Some (np, _) => <[np := pp']> (<[n' := p']> V) end.

Definition cow_root (root n' : Z) (up : list (Z * Z)) : Z := match up with [] => n' | _ => root end.

Record cow_ok (V : gmap Z page) (n n' : Z) (p' : page) (up : list (Z * Z)) (pp' : page) : Prop := MkCowOk {
  co_fresh : V !! n' = None;
  co_range : 0 ≤ n' < 2 ^ 48;
  co_copy : ∃ p, V !! n = Some p ∧ (∀ leaf ns, holds leaf p ns → holds leaf p' ns) ∧ (∀ b, IS_BRANCH p = Ok b → IS_BRANCH p' = Ok b);
  co_parent np i : last up = Some (np, i) → ∃ bs j b, i = Z.of_nat j ∧ v_page V false np bs ∧ bs !! j = Some b ∧ n_pgno b = n ∧
    np ≠ n ∧ holds false pp' (<[j := set_pgno b n']> bs) ∧ IS_BRANCH pp' = Ok true;
  co_big : big_ok V up.*1 }.

Section cow.
Context (V : gmap Z page) (cmp : MDB_cmp_func) `{!KeyOrder cmp} (n n' : Z) (p' : page) (up : list (Z * Z)) (pp' : page).
Context (Hok : cow_ok V n n' p' up pp').
Abbreviation V' := (cow V n' p' up pp').

Lemma cow_other k : k ≠ n' → (∀ np i, last up = Some (np, i) → k ≠ np) → V' !! k = V !! k.
Proof using Type.
  intros H1 H2. unfold cow. destruct (last up) as [[np i]|]; [|by apply lookup_insert_ne].
  rewrite lookup_insert_ne by (intros ->; by apply (H2 k i)). by apply lookup_insert_ne.
Qed.

Lemma cow_new : V' !! n' = Some p'.
Proof using Hok.
  unfold cow. destruct (last up) as [[np i]|] eqn:E; [|apply lookup_insert_eq].
  destruct (co_parent _ _ _ _ _ _ Hok np i E) as (bs & j & b & _ & (p & Hp & _) & _). pose proof (co_fresh _ _ _ _ _ _ Hok) as Hf.
  rewrite lookup_insert_ne by congruence. apply lookup_insert_eq.
Qed.

Lemma cow_page leaf k ns : (∀ np i, last up = Some (np, i) → k ≠ np) → v_page V leaf k ns → v_page V' leaf k ns.
Proof using Hok.
  intros H (p & Hp & Hh). exists p. split; [|done]. rewrite cow_other; [done| |done]. pose proof (co_fresh _ _ _ _ _ _ Hok). congruence.
Qed.

Lemma cow_copy leaf ns : v_page V leaf n ns → v_page V' leaf n' ns.
Proof using Hok.
  intros (p & Hp & Hh & Hb). destruct (co_copy _ _ _ _ _ _ Hok) as (p0 & Hp0 & H1 & H2). rewrite Hp in Hp0. injection Hp0 as <-.
  exists p'. split; [apply cow_new|]. split; [by apply H1|by apply H2].
Qed.

Lemma follows_set bs j b x : bs !! j = Some b → n_pgno b = n → 0 ≤ x < 2 ^ 48 → Forall2 (follows n x) bs (<[j := set_pgno b x]> bs).
Proof using Type.
  intros Hb Hn Hx. apply Forall2_same_length_lookup_2; [by rewrite length_insert|]. intros i a a' Ha Ha'.
  apply list_lookup_insert_Some in Ha' as [(<- & <- & _)|(_ & Ha')]; [|rewrite Ha in Ha'; injection Ha' as <-; split; [done|by left]].
  rewrite Hb in Ha. injection Ha as <-. split; [done|]. right. split; [done|by apply n_pgno_set].
Qed.

Lemma cow_moved : moved V V' n n'.
Proof using Hok.
  split.
  - intros leaf k ns Hp. destruct (last up) as [[np i]|] eqn:E.
    2:{ exists ns. split; [apply cow_page; [by rewrite E|done]|]. destruct leaf; [done|]. apply Forall_Forall2_diag, Forall_forall. intros b _. split; [done|by left]. }
    destruct (decide (k = np)) as [->|Nk].
    + destruct (co_parent _ _ _ _ _ _ Hok np i E) as (bs & j & b & -> & Hbs & Hb & Hn & _ & Hh & Hbr).
      destruct (v_page_inj _ _ _ _ _ _ Hp Hbs) as [-> ->]. exists (<[j := set_pgno b n']> bs). split.
      * exists pp'. unfold cow. rewrite E, lookup_insert_eq. done.
      * apply follows_set; [done|done|apply (co_range _ _ _ _ _ _ Hok)].
    + exists ns. split; [apply cow_page; [intros ? ?; rewrite E; congruence|done]|]. destruct leaf; [done|]. apply Forall_Forall2_diag, Forall_forall.
      intros b _. split; [done|by left].
  - apply cow_copy.
  - intros k ns nd kv Hp Hnd (Hk & Hd & Hf). split; [done|]. split; [|done]. unfold v_datum in *. destruct (F_ISSET (n_flags nd) F_BIGDATA) eqn:Eb; [|done].
    destruct Hd as (p & Hp' & Hr). exists p. split; [|done]. rewrite cow_other; [done| |].
    + pose proof (co_fresh _ _ _ _ _ _ Hok). congruence.
    + intros np i E Eq. destruct (co_big _ _ _ _ _ _ Hok k ns nd Hp Hnd Eb) as [_ Hnot]. apply Hnot. rewrite Eq.
      apply list_elem_of_fmap. exists (np, i). split; [done|]. by apply last_Some_elem_of.
  - intros leaf ns. apply cow_page. intros np i E. destruct (co_parent _ _ _ _ _ _ Hok np i E) as (bs & j & b & _ & _ & _ & _ & N & _). done.
Qed.

Lemma cow_snap d k lo hi es : snap V cmp d k lo hi es → snap V' cmp d k lo hi es.
Proof using Hok. apply (snap_moved V V' cmp n n'), cow_moved. Qed.

Lemma cow_branch d q q' lo hi bs ess : v_page V' false q' bs → v_branch V cmp d q lo hi bs ess → v_branch V' cmp d q' lo hi bs ess.
Proof using Hok. intros Hp (_ & H2 & Hl & Ha & Ht). do 4 (split; [done|]). intros i b e Hb He. by apply cow_snap, Ht. Qed.

(** The path to the page. *)
Lemma cow_end root all d lo hi bef es aft :
  v_spine V cmp root all up d n lo hi bef es aft → v_spine V' cmp (cow_root root n' up) all up d n' lo hi bef es aft.
Proof using Hok.
  intros Hs. assert (Hup : up = [] ∨ ∃ up0 np ip, up = up0 ++ [(np, ip)]).
  { clear. destruct up as [|[np ip] up0 _] using rev_ind; [by left|right; by exists up0, np, ip]. }
  pose proof cow_moved as Hmv. pose proof cow_snap as Hsnap. pose proof cow_copy as Hcopy. pose proof cow_page as Hpg.
  set (W := V') in *. destruct Hup as [Eup|(up0 & np & ip & Eup)]; rewrite Eup in Hs |- *.
  - inversion Hs; [|by destruct stk]. subst. cbn [cow_root]. constructor. pose proof (Hsnap _ _ _ _ _ H) as H'.
    eapply snap_copy; [|exact H']. intros leaf ns Hn. destruct (snap_page _ _ _ _ _ _ _ H) as [ns0 H0].
    destruct (v_page_inj _ _ _ _ _ _ (mv_self _ _ _ _ Hmv _ _ H0) Hn) as [<- <-]. by apply Hcopy.
  - replace (cow_root root n' (up0 ++ [(np, ip)])) with root by (by destruct up0).
    apply v_spine_snoc_inv in Hs as (lo0 & hi0 & bef0 & aft0 & bs & ess & i & b & -> & Hs & Hbr & Hb & He & Hn & -> & -> & -> & ->).
    destruct (co_parent _ _ _ _ _ _ Hok np (Z.of_nat i)) as (bs0 & j & b0 & Ej & Hbs & Hb0 & Hn0 & Nn & Hh & Hbr'); [by rewrite Eup, last_snoc|].
    apply (inj Z.of_nat) in Ej as <-. destruct (v_page_inj _ _ _ _ _ _ (proj1 Hbr) Hbs) as [_ <-]. rewrite Hb in Hb0. injection Hb0 as <-.
    set (bs' := <[i := set_pgno b n']> bs) in *. assert (Hb' : bs' !! i = Some (set_pgno b n')) by (by apply list_lookup_insert_eq, lookup_lt_Some with b).
    pose proof (co_range _ _ _ _ _ _ Hok) as Hr.
    pose proof (follows_keys _ _ _ _ (follows_set bs i b n' Hb Hn0 Hr)) as Ek. fold bs' in Ek.
    destruct (bounds_keys bs bs' lo0 hi0 i Ek) as [<- <-]. rewrite <-(n_pgno_set b n' Hr).
    assert (Hpage : v_page W false np bs').
    { exists pp'. unfold W, cow. rewrite Eup, last_snoc, lookup_insert_eq. done. }
    econstructor; [|split; [exact Hpage|]|exact Hb'|exact He].
    + eapply v_spine_mono; [exact Hsnap| |exact Hs]. intros y ns Hy. apply Hpg. intros np' i'. rewrite Eup, last_snoc. intros [= <- <-].
      by eapply v_spine_apart.
    + destruct Hbr as (_ & H2 & Hl & Ha & Ht). rewrite Ek. unfold bs'. rewrite length_insert. do 3 (split; [done|]). fold bs'.
      intros i' b' e' Hb1 He1. destruct (bounds_keys bs bs' lo0 hi0 i' Ek) as [-> ->].
      apply list_lookup_insert_Some in Hb1 as [(<- & <- & _)|(_ & Hb1)]; [|by apply Hsnap, Ht].
      rewrite n_pgno_set by done. pose proof (Ht i b e' Hb He1) as Hsn. rewrite Hn0 in Hsn.
      pose proof (Hsnap _ _ _ _ _ Hsn) as Hsn'. eapply snap_copy; [|exact Hsn']. intros leaf ns Hn'.
      destruct (snap_page _ _ _ _ _ _ _ Hsn) as [ns0 H0].
      destruct (v_page_inj _ _ _ _ _ _ (mv_self _ _ _ _ Hmv _ _ H0) Hn') as [<- <-]. by apply Hcopy.
Qed.

(** A path through the page, which goes on below it. *)
Lemma cow_through root all low : ∀ i d k lo hi bef es aft,
  v_spine V cmp root all (up ++ (n, i) :: low) d k lo hi bef es aft →
  v_spine V' cmp (cow_root root n' up) all (up ++ (n', i) :: low) d k lo hi bef es aft.
Proof using Hok.
  induction low as [|[q j] low IH] using rev_ind; intros i d k lo hi bef es aft.
  - intros (lo0 & hi0 & bef0 & aft0 & bs & ess & i0 & b & -> & Hs & Hbr & Hb & He & -> & -> & -> & -> & ->)%v_spine_snoc_inv.
    econstructor; [by apply cow_end|eapply cow_branch; [|exact Hbr]; apply cow_copy, (proj1 Hbr)|done|done].
  - rewrite !app_comm_cons, !(assoc_L (++)).
    intros (lo0 & hi0 & bef0 & aft0 & bs & ess & i0 & b & -> & Hs & Hbr & Hb & He & -> & -> & -> & -> & ->)%v_spine_snoc_inv.
    econstructor; [by apply IH|eapply cow_branch; [|exact Hbr]|done|done]. apply cow_page; [|apply (proj1 Hbr)].
    intros np i' E ->. eapply (v_spine_apart V cmp _ _ _ _ _ _ _ _ _ _ np Hs); [|done].
    rewrite fmap_app. apply elem_of_app. left. apply list_elem_of_fmap. exists (np, i'). split; [done|]. by apply last_Some_elem_of.
Qed.

Lemma cow_some k : is_Some (V !! k) → is_Some (V' !! k).
Proof using Type.
  intros H. unfold cow. destruct (last up) as [[np i]|].
  - destruct (decide (k = np)) as [->|]; [rewrite lookup_insert_eq; by eexists|]. rewrite lookup_insert_ne by done.
    destruct (decide (k = n')) as [->|]; [rewrite lookup_insert_eq; by eexists|]. by rewrite lookup_insert_ne.
  - destruct (decide (k = n')) as [->|]; [rewrite lookup_insert_eq; by eexists|]. by rewrite lookup_insert_ne.
Qed.

(** The leaves of the new version are those of the old one. *)
Lemma cow_leaves leaf0 ns0 k ns : v_page V leaf0 n ns0 → v_page V' true k ns → ∃ k0, v_page V true k0 ns.
Proof using Hok.
  intros H0 H. destruct (decide (k = n')) as [->|Nk].
  { destruct (v_page_inj _ _ _ _ _ _ (cow_copy _ _ H0) H) as [-> ->]. by exists n. }
  exists k. destruct H as (p & Hp & Hh & Hb). exists p. split; [|done]. rewrite <-cow_other; [done|done|].
  intros np i E ->. destruct (co_parent _ _ _ _ _ _ Hok np i E) as (bs & j & b & _ & _ & _ & _ & _ & Hh' & _).
  unfold cow in Hp. rewrite E, lookup_insert_eq in Hp. injection Hp as ->. by pose proof (holds_leaf _ _ _ _ _ Hh Hh').
Qed.

Lemma cow_big leaf0 ns0 S : v_page V leaf0 n ns0 → big_ok V S → big_ok V' (n' :: S).
Proof using Hok.
  intros H0 HB k ns nd Hp Hnd Hf. destruct (cow_leaves _ _ _ _ H0 Hp) as [k0 Hp0]. destruct (HB k0 ns nd Hp0 Hnd Hf) as [Hs Hn].
  split; [by apply cow_some|]. pose proof (co_fresh _ _ _ _ _ _ Hok) as Hfr. intros [E|Hin]%elem_of_cons; [|done].
  rewrite E, Hfr in Hs. by destruct Hs.
Qed.
End cow.
