(* ===== verification/CowMem.v ===== *)
(** * Where the pages of a write transaction are

    The pages that it dirtied are on the heap, and the others in the map.  A new page, or a
    change of one, leaves the others where they are. *)

From stdpp Require Import sorting.
From S2P Require Import Prelude.
From S2P Require Import Lmdb Midl Page PageProps Meta MetaProps Readers Tree TreeProps CursorProps Reads Flush FlushProps Snap Nest NestLists Alloc FreeDb AllocProps.
From S2P Require Import Touch CowPages CowTree.

(** ** The dirty list *)

(** Where the page [k] is, when the dirty pages are [ys]. *)
Definition place (psize : Z) (ys : list ID2) (k : Z) : Ptr :=
  match list_find (λ y, mid y = k) ys with Some (_, y) => InHeap (mptr y) 0 | None => InMap (u64 (psize * k)) end.

Lemma found_place fuel m t q ys junk k :
  (33 ≤ fuel)%nat → mt_lists t = [(None, mid2l_cells q ys junk)] → ascends ys → Z.of_nat (length ys) < 2 ^ 32 - 1 →
  has_flag (mt_flags t) (Z.lor MDB_TXN_RDONLY MDB_TXN_WRITEMAP) = false → 0 ≤ k < mt_next_pgno t → mt_next_pgno t < 2 ^ 63 →
  found fuel m t k (place (me_psize m) ys k).
Proof.
  intros Hfuel Hl Hs Hlen Hro Hk Hn.
  assert (Ed : dirty_page fuel k (me_psize m) 1 (mt_lists t) = Ok (level_find (me_psize m) k 1 [(None, ys)])).
  { apply dirty_page_spec; [done|lia|]. rewrite Hl. constructor; [|constructor]. split; [done|]. cbn [fst snd]. split; [by exists q, junk|done]. }
  unfold found, page_find. rewrite Hro, Ed. cbn [mbind res_bind level_find]. unfold level_page, place. cbn [fst snd default from_option].
  rewrite decide_False by apply not_elem_of_nil. destruct (list_find (λ y, mid y = k) ys) as [[i y]|].
  - by exists 1.
  - exists 0. cbn. by rewrite (proj2 (Z.ltb_lt _ _)) by lia.
Qed.

Lemma ascends_inj ys i j y z : ascends ys → ys !! i = Some y → ys !! j = Some z → mid y = mid z → i = j.
Proof.
  intros Hs Hi Hj E. assert (H : ∀ i j y z, ys !! i = Some y → ys !! j = Some z → (i < j)%nat → mid y < mid z).
  { clear -Hs. induction Hs as [|x ys Hs IH F]; intros i j y z Hi Hj L; [done|]. destruct j as [|j]; [lia|]. destruct i as [|i].
    - injection Hi as <-. rewrite Forall_forall in F. apply F. by eapply list_elem_of_lookup_2.
    - apply (IH i j); [done|done|lia]. }
  destruct (Nat.lt_trichotomy i j) as [L|[?|L]]; [pose proof (H _ _ _ _ Hi Hj L); lia|done|pose proof (H _ _ _ _ Hj Hi L); lia].
Qed.

Lemma find_mid ys y : ascends ys → y ∈ ys → ∃ i, list_find (λ z, mid z = mid y) ys = Some (i, y).
Proof.
  intros Hs Hy. destruct (list_find (λ z, mid z = mid y) ys) as [[i z]|] eqn:E.
  - exists i. apply list_find_Some in E as (Hi & Em & _). do 2 f_equal. apply list_elem_of_lookup in Hy as [j Hj].
    assert (i = j) as -> by (by eapply ascends_inj). congruence.
  - apply list_find_None in E. rewrite Forall_forall in E. by destruct (E y Hy).
Qed.

Lemma place_dirty psize ys y : ascends ys → y ∈ ys → place psize ys (mid y) = InHeap (mptr y) 0.
Proof. intros Hs Hy. unfold place. by destruct (find_mid ys y Hs Hy) as [i ->]. Qed.

Lemma place_clean psize ys k : k ∉ mid <$> ys → place psize ys k = InMap (u64 (psize * k)).
Proof.
  intros H. unfold place. destruct (list_find _ ys) as [[i y]|] eqn:E; [|done]. apply list_find_Some in E as (Hi & <- & _).
  destruct H. apply list_elem_of_fmap. exists y. split; [done|]. by eapply list_elem_of_lookup_2.
Qed.

Lemma place_cases psize ys k : (∃ y, y ∈ ys ∧ mid y = k ∧ place psize ys k = InHeap (mptr y) 0) ∨
  k ∉ mid <$> ys ∧ place psize ys k = InMap (u64 (psize * k)).
Proof.
  destruct (decide (k ∈ mid <$> ys)) as [(y & -> & Hy)%list_elem_of_fmap|H]; [|right; split; [done|by apply place_clean]].
  left. unfold place. destruct (list_find _ ys) as [[i z]|] eqn:E.
  - apply list_find_Some in E as (Hi & Em & _). exists z. split; [by eapply list_elem_of_lookup_2|done].
  - apply list_find_None in E. rewrite Forall_forall in E. by destruct (E y Hy).
Qed.

Lemma elem_of_dirtied ys pgno a y : pgno ∉ mid <$> ys → y ∈ dirtied ys pgno a ↔ y = MkID2 pgno a ∨ y ∈ ys.
Proof.
  intros Hn. unfold dirtied. rewrite elem_of_app, elem_of_cons, !list_elem_of_filter. split; [naive_solver|].
  intros [->|Hy]; [by right; left|]. destruct (Z.lt_trichotomy (mid y) pgno) as [?|[<-|?]]; [by left| |by right; right].
  destruct Hn. by apply list_elem_of_fmap_2.
Qed.

Lemma dirtied_perm ys pgno a : pgno ∉ mid <$> ys → dirtied ys pgno a ≡ₚ MkID2 pgno a :: ys.
Proof.
  intros Hn. unfold dirtied. rewrite <-Permutation_middle. f_equiv. induction ys as [|y ys IH]; [done|].
  apply not_elem_of_cons in Hn as [N Hn]. rewrite !filter_cons. destruct (decide (mid y < pgno)).
  - rewrite decide_False by lia. cbn [app]. by rewrite IH.
  - rewrite decide_True by lia. rewrite <-Permutation_middle. by rewrite IH.
Qed.

Lemma dirtied_ascends ys pgno a : ascends ys → ascends (dirtied ys pgno a).
Proof.
  intros Hs. unfold dirtied. apply StronglySorted_app. split; [|split].
  - intros x y Hx Hy. apply list_elem_of_filter in Hx as [Hx _]. apply elem_of_cons in Hy as [->|Hy]; [done|].
    apply list_elem_of_filter in Hy as [Hy _]. lia.
  - by eapply StronglySorted_sublist; [apply sublist_filter|].
  - constructor; [by eapply StronglySorted_sublist; [apply sublist_filter|]|]. apply Forall_forall. intros y Hy. by apply list_elem_of_filter in Hy as [Hy _].
Qed.

Lemma place_dirtied psize ys pgno a k : ascends ys → pgno ∉ mid <$> ys →
  place psize (dirtied ys pgno a) k = if decide (k = pgno) then InHeap a 0 else place psize ys k.
Proof.
  intros Hs Hn. pose proof (dirtied_ascends ys pgno a Hs) as Hs'. destruct (decide (k = pgno)) as [->|N].
  - apply (place_dirty psize _ (MkID2 pgno a) Hs'). apply elem_of_dirtied; [done|by left].
  - destruct (place_cases psize ys k) as [(y & Hy & <- & ->)|[Hk ->]].
    + apply place_dirty; [done|]. apply elem_of_dirtied; [done|by right].
    + apply place_clean. intros (y & -> & Hy)%list_elem_of_fmap. apply elem_of_dirtied in Hy as [->|Hy]; [done| |done].
      apply Hk. by apply list_elem_of_fmap_2.
Qed.

(** ** Pages that are there *)

(** The pages of [V] are where they should be, and below [next]. *)
Definition shows (m : Mem) (ys : list ID2) (next : Z) (V : gmap Z page) : Prop :=
  ∀ k (p : page), V !! k = Some p → 0 ≤ k < next ∧ ∃ rest, from m (place (me_psize m) ys k) = Ok (p ++ rest).

Lemma from_InHeap m a b : heap m !! a = Some b → from m (InHeap a 0) = Ok b.
Proof. apply from_heap. Qed.

Lemma from_InHeap_inv m a b : from m (InHeap a 0) = Ok b → heap m !! a = Some b.
Proof.
  unfold from. destruct (@lookup Z (list Z) _ _ a (heap m)) as [c|] eqn:E; [|done].
  rewrite (proj2 (Z.leb_le 0 (Z.of_nat _))) by lia. cbn. intros [= <-]. exact E.
Qed.

(** Memory where only the block at [a] may be another. *)
Definition but_at (a : Z) (m m' : Mem) : Prop :=
  me_map m' = me_map m ∧ me_psize m' = me_psize m ∧ ∀ b, b ≠ a → heap m' !! b = heap m !! b.

Lemma but_at_trans a m1 m2 m3 : but_at a m1 m2 → but_at a m2 m3 → but_at a m1 m3.
Proof. intros (E1 & E2 & E3) (F1 & F2 & F3). split; [congruence|]. split; [congruence|]. intros b Hb. by rewrite F3, E3. Qed.

Lemma but_at_heap a m h : (∀ b, b ≠ a → h !! b = heap m !! b) → but_at a m (with_heap m h).
Proof. done. Qed.

Lemma but_at_insert a m p : but_at a m (with_heap m (<[a := p]> (heap m))).
Proof. split; [done|]. split; [done|]. intros b Hb. by apply lookup_insert_ne. Qed.

Lemma from_but_at a m m' q : but_at a m m' → (∀ o, q ≠ InHeap a o) → from m' q = from m q.
Proof.
  intros (E1 & E2 & E3) Hq. unfold from. destruct q as [o|b o]; [by rewrite E1|].
  assert (Hb : b ≠ a) by (intros ->; by apply (Hq o)). specialize (E3 b Hb). change (list Z) with page in *. by rewrite E3.
Qed.

Lemma place_not_at psize ys k a : a ∉ mptr <$> ys → ∀ o, place psize ys k ≠ InHeap a o.
Proof.
  intros H o E. destruct (place_cases psize ys k) as [(y & Hy & _ & E')|[_ E']]; rewrite E in E'; [|done].
  injection E' as -> _. apply H. by apply list_elem_of_fmap_2.
Qed.

(** A new page of the transaction. *)
Lemma shows_new m m' ys next next' V pgno a :
  shows m ys next V → but_at a m m' → a ∉ mptr <$> ys → ascends ys → pgno ∉ mid <$> ys → V !! pgno = None → next ≤ next' →
  shows m' (dirtied ys pgno a) next' V.
Proof.
  intros HV Hb Ha Hs Hn Hf Hx k p Hp. destruct (HV k p Hp) as (Hk & rest & E). split; [lia|]. exists rest.
  destruct Hb as (E1 & E2 & E3). rewrite E2, place_dirtied by done. rewrite decide_False by (intros ->; by rewrite Hf in Hp).
  rewrite <-E. apply (from_but_at a); [done|]. by apply place_not_at.
Qed.

(** Two pages of the transaction are at two places. *)
Lemma places_apart psize ys j k a o : NoDup (mptr <$> ys) → place psize ys k = InHeap a 0 → place psize ys j = InHeap a o → j = k.
Proof.
  intros Hnd Ek Ej. destruct (place_cases psize ys k) as [(y & Hy & <- & Ey)|[_ Ey]]; rewrite Ek in Ey; [|done].
  destruct (place_cases psize ys j) as [(z & Hz & <- & Ez)|[_ Ez]]; rewrite Ej in Ez; [|done].
  injection Ey as ->. injection Ez as Ez _. apply list_elem_of_lookup in Hy as [i Hi], Hz as [i' Hi'].
  assert (i = i') as <-; [|congruence]. eapply NoDup_lookup; [exact Hnd|by rewrite list_lookup_fmap, Hi|]. by rewrite list_lookup_fmap, Hi', Ez.
Qed.

(** A page of the transaction is written; another version is not concerned. *)
Lemma shows_other m m' ys next V k a :
  shows m ys next V → but_at a m m' → V !! k = None → place (me_psize m) ys k = InHeap a 0 → NoDup (mptr <$> ys) →
  shows m' ys next V.
Proof.
  intros HV Hb Hk Hpl Hnd j p Hj. destruct (HV j p Hj) as (Hj' & r & E). split; [done|]. exists r.
  destruct Hb as (E1 & E2 & E3). rewrite E2, <-E. apply (from_but_at a); [done|]. intros o Eo.
  assert (j = k) by (by eapply places_apart). congruence.
Qed.

Lemma shows_set m m' ys next V k a p rest :
  shows m ys next V → but_at a m m' → heap m' !! a = Some (p ++ rest) → 0 ≤ k < next → place (me_psize m) ys k = InHeap a 0 →
  NoDup (mptr <$> ys) → shows m' ys next (<[k := p]> V).
Proof.
  intros HV Hb Hh Hk Hpl Hnd j pj Hj. destruct (decide (j = k)) as [->|N].
  - rewrite lookup_insert_eq in Hj. injection Hj as <-. split; [done|]. exists rest. rewrite (proj1 (proj2 Hb)), Hpl. by apply from_InHeap.
  - rewrite lookup_insert_ne in Hj by done.
    apply (shows_other m m' ys next (delete k V) k a); try done; [|apply lookup_delete_eq|by rewrite lookup_delete_ne].
    intros i p' Hi. apply lookup_delete_Some in Hi as [_ Hi]. by apply HV.
Qed.
