(* ===== verification/CowStep.v ===== *)
(** * What [mdb_page_touch] does in LMDB

    The steps of the copy of one page: the list of freed pages, the memory of the copy and
    the cursors; and what an allocation leaves of a transaction that copies. *)

From stdpp Require Import sorting.
From S2P Require Import Prelude.
From S2P Require Import Lmdb Midl Page PageProps PageMore Meta MetaProps Readers Tree TreeProps CursorProps Reads Flush FlushProps Snap Nest NestLists Alloc FreeDb AllocProps.
From S2P Require Import Touch CowPages CowTree CowMem.

(** ** Freed pages *)

Lemma xappend_spec xs c junk x : Z.of_nat (length xs) < 2 ^ 30 →
  mdb_midl_xappend (midl_cells xs (c :: junk)) x = Ok (midl_cells (xs ++ [x]) junk).
Proof.
  intros Hx. unfold mdb_midl_xappend. change (rd (midl_cells xs (c :: junk)) 0) with (Ok (Z.of_nat (length xs))). cbn [mbind res_bind].
  rewrite u64_small by lia.
  rewrite (wr_app [] _ _ 0 (Z.of_nat (length xs) + 1) eq_refl : wr (midl_cells xs (c :: junk)) 0 _ = Ok (Some _ :: (Some <$> xs) ++ c :: junk)).
  cbn [mbind res_bind].
  rewrite (app_comm_cons (Some <$> xs)).
  rewrite (wr_app (Some (Z.of_nat (length xs) + 1) :: (Some <$> xs)) c junk) by (cbn [length]; rewrite length_fmap; lia).
  unfold midl_cells. rewrite fmap_app, length_app, <-(assoc_L (++)). cbn [length app fmap list_fmap]. do 3 f_equal. lia.
Qed.

Lemma freed_spec l fs x : idl_holds l fs → Z.of_nat (length fs) < 2 ^ 30 →
  ∃ l1 b, mdb_midl_need true l 1 = Ok (0, l1) ∧ idl_holds l1 fs ∧ mdb_midl_xappend (ids l1) x = Ok b ∧ idl_holds (MkIDL (Midl.room l1) b) (fs ++ [x]).
Proof.
  intros Hl Hf. destruct (need_spec l fs 1 Hl ltac:(lia) Hf) as (l1 & junk & E & Eids & Hr & Hj). exists l1.
  destruct junk as [|c junk]; [cbn in Hj; lia|]. rewrite Eids, xappend_spec by done. eexists. split; [done|]. split; [by exists (c :: junk)|]. split; [done|].
  exists junk. split; [done|]. cbn [Midl.room ids]. rewrite Hr, length_app. cbn [length]. lia.
Qed.

(** ** Edits of pages *)

Lemma edit_heap a f b b' m t c o x :
  heap m !! a = Some b → f b = Ok b' → length b' = length b →
  edit_page (InHeap a 0) f (MkSt m t c o x) = Ok (tt, MkSt (with_heap m (<[a := b']> (heap m))) t c o x).
Proof.
  intros Hb Hf Hl. unfold edit_page. assert (E : page_of (InHeap a 0) (MkSt m t c o x) = Ok (b, MkSt m t c o x)).
  { unfold page_of. cbn [st_mem]. by rewrite (from_InHeap _ _ _ Hb). }
  step E. step_lift Hf. unfold on_wr. cbn [st_mem st_txn w_mem put_at]. rewrite (heap_at_Ok _ _ _ Hb). cbn [mbind res_bind].
  change (0 + 0) with 0. rewrite (mwrite_at b [] b [] 0 b') by (rewrite ?app_nil_r; done). cbn [mbind res_bind app]. by rewrite app_nil_r.
Qed.

Lemma page_copy_longer dst src rest psize p : mdb_page_copy dst src psize = Ok p → mdb_page_copy dst (src ++ rest) psize = Ok p.
Proof.
  assert (Hc : ∀ d off n p, mcopy d src off n = Ok p → mcopy d (src ++ rest) off n = Ok p).
  { intros d off n q E. unfold mcopy in *. apply res_bind_Ok in E as (bs & Eb & E). by rewrite (mread_app _ _ _ _ _ Eb). }
  assert (Hw : ∀ off v, rd16 src off = Ok v → rd16 (src ++ rest) off = Ok v).
  { intros off v E. unfold rd16 in *. apply res_bind_Ok in E as (bs & Eb & E). by rewrite (mread_app _ _ _ _ _ Eb). }
  unfold mdb_page_copy, MP_UPPER, MP_LOWER, IS_LEAF2, MP_FLAGS. intros E.
  apply res_bind_Ok in E as (u & Eu & E). rewrite (Hw _ _ Eu). cbn [mbind res_bind].
  apply res_bind_Ok in E as (l & El & E). rewrite (Hw _ _ El). cbn [mbind res_bind].
  apply res_bind_Ok in E as (b & Eb & E). apply res_bind_Ok in Eb as (f & Ef & Eb). rewrite (Hw _ _ Ef). cbn [mbind res_bind].
  injection Eb as <-. case_match; [|by apply Hc]. apply res_bind_Ok in E as (d & Ed & E). rewrite (Hc _ _ _ _ Ed). cbn [mbind res_bind]. by apply Hc.
Qed.

Lemma flags_branch p p' : MP_FLAGS p' = MP_FLAGS p → ∀ b, IS_BRANCH p = Ok b → IS_BRANCH p' = Ok b.
Proof. unfold IS_BRANCH. by intros ->. Qed.

(** A copy of the page [p] with the number [pgno]. *)
Record copy_of (p p' : page) (pgno : Z) : Prop := MkCopy {
  cy_holds leaf ns : holds leaf p ns → holds leaf p' ns;
  cy_branch b : IS_BRANCH p = Ok b → IS_BRANCH p' = Ok b;
  cy_dirty : ∃ fl, MP_FLAGS p' = Ok fl ∧ F_ISSET fl P_DIRTY = true;
  cy_length : length p' = length p;
  cy_pgno : mread p' 0 8 = Ok (le_bytes 8 pgno) }.

Lemma touch_copy_at a b0 m t c o x mp p rest leaf ns pgno :
  has_flag (mw_flags (mt_w t)) MDB_WRITEMAP = false → heap m !! a = Some b0 → from m mp = Ok (p ++ rest) →
  holds leaf p ns → length b0 = length p → Z.of_nat (length p) = me_psize m →
  ∃ p', copy_of p p' pgno ∧ touch_copy mp a pgno (MkSt m t c o x)
    = adjust_cursors mp (InHeap a 0) (MkSt (with_heap m (<[a := p']> (heap m))) t c o x).
Proof.
  intros Hfl Ha Hm Hh Hl Hp. destruct (page_copy_spec leaf b0 p ns (me_psize m) Hh Hl (eq_sym Hp)) as (p0 & E0 & Hh0 & Hf0 & Hl0).
  destruct (rehead_page leaf p0 ns pgno Hh0) as (p1 & p2 & fl & E1 & E2 & R & Hpg). exists p2.
  destruct (reheaded_flags _ _ _ R) as (Hf2 & Hd & Hl2).
  assert (Hl1 : length p1 = length p0).
  { apply (f_equal (λ r, match r with Ok q => length q | _ => 0%nat end)) in E1 as E1'. cbn in E1'. rewrite <-E1'.
    unfold mwrite in *. destruct (_ && _)%bool eqn:Eb; [|done]. bool_to_prop. rewrite !length_app, length_take, length_drop, length_le_bytes in *. cbn. lia. }
  split.
  - constructor.
    + intros leaf' ns' H. assert (leaf' = leaf) as -> by (by eapply holds_leaf). assert (ns' = ns) as -> by (by eapply holds_inj). by eapply reheaded_holds.
    + intros b Hb. eapply reheaded_branch; [exact R|]. by eapply flags_branch.
    + by exists fl.
    + lia.
    + done.
  - unfold touch_copy. step (eq_refl : get_wr (MkSt m t c o x) = Ok (MkWr m t, MkSt m t c o x)).
    assert (Ep : page_of mp (MkSt m t c o x) = Ok (p ++ rest, MkSt m t c o x)) by (unfold page_of; cbn [st_mem]; by rewrite Hm). step Ep.
    unfold page_ptr. change (w_flags (MkWr m t)) with (mw_flags (mt_w t)). rewrite Hfl. cbn [w_mem].
    step (edit_heap a (λ b, mdb_page_copy b (p ++ rest) (me_psize m)) b0 p0 m t c o x Ha (page_copy_longer _ _ rest _ _ E0) ltac:(lia)).
    step (edit_heap a (λ b, mwrite b 0 (le_bytes 8 pgno)) p0 p1 (with_heap m (<[a := p0]> (heap m))) t c o x (lookup_insert_eq _ _ _) E1 Hl1).
    cbn [heap with_heap me_map me_psize].
    step (edit_heap a or_dirty p1 p2 (with_heap m (<[a := p1]> (<[a := p0]> (heap m)))) t c o x (lookup_insert_eq _ _ _) E2 ltac:(lia)).
    cbn [heap with_heap me_map me_psize]. by rewrite !insert_insert_eq.
Qed.

(** ** Arrays *)

Lemma set_cell_cell {A} (l l' : list A) i x : set_cell l i x = Ok l' → cell l' i = Ok x.
Proof.
  unfold set_cell, cell. intros H. destruct (Z.leb_spec 0 i); [|done]. destruct (Z.ltb_spec i (Z.of_nat (length l))); [|done].
  injection H as <-. by rewrite list_lookup_insert_eq by lia.
Qed.

Lemma set_cell_other {A} (l l' : list A) i j x : set_cell l i x = Ok l' → i ≠ j → cell l' j = cell l j.
Proof.
  unfold set_cell, cell. intros H N. destruct (Z.leb_spec 0 i); [|done]. destruct (Z.ltb_spec i (Z.of_nat (length l))); [|done].
  injection H as <-. destruct (Z.leb_spec 0 j); [|done]. by rewrite list_lookup_insert_ne by lia.
Qed.

(** ** The cursors on the page *)

(** The other cursors: they have no sub-cursors. *)
Definition plain_cursor (m2 : option (MDB_cursor * option MDB_xcursor)) : Prop :=
  match m2 with None => True | Some (c, x) => length (mc_pg c) = 32%nat ∧ x = None end.

(** The cursor [m2] when [np] takes the place of [mp] at [top]. *)
Definition repoint (snum : Z) (top : nat) (mp np : Ptr) (m2 : option (MDB_cursor * option MDB_xcursor)) :
    option (MDB_cursor * option MDB_xcursor) :=
  match m2 with
  | Some (c, x) =>
      if mc_snum c <? snum then m2
      else if decide (mc_pg c !! top = Some (Some mp)) then Some (set_mc_pg c (<[top := Some np]> (mc_pg c)), x) else m2
  | None => None
  end.

Lemma repoint_plain snum top mp np m2 : plain_cursor m2 → plain_cursor (repoint snum top mp np m2).
Proof.
  destruct m2 as [[c x]|]; [|done]. intros [Hl ->]. cbn. case_match; [done|]. case_decide; [|done]. cbn. by rewrite length_insert.
Qed.

Lemma adjust_loop_spec m c mp np top P leaf l :
  Forall plain_cursor l → has_flag (mc_flags c) C_SUB = false → mc_top c = Z.of_nat top → (top < 32)%nat →
  from m np = Ok P → IS_LEAF P = Ok leaf → adjust_loop m c mp np l = Ok (repoint (mc_snum c) top mp np <$> l).
Proof.
  intros Hl Hsub Htop H32 HP Hleaf. induction Hl as [|m2 l H2 _ IH]; [done|]. cbn [adjust_loop fmap list_fmap].
  assert (E : adjust_one m c mp np m2 = Ok (repoint (mc_snum c) top mp np m2)).
  { destruct m2 as [[c2 x]|]; [|done]. destruct H2 as [Hpg ->]. cbn [adjust_one repoint]. rewrite Hsub.
    destruct (mc_snum c2 <? mc_snum c); [done|]. unfold replace_pg. rewrite Htop.
    destruct (lookup_lt_is_Some_2 (mc_pg c2) top) as [q Hq]; [lia|]. rewrite (cell_at _ _ _ Hq). cbn [mbind res_bind].
    rewrite Hq. destruct (decide (q = Some mp)) as [->|N].
    - rewrite decide_True by done. rewrite (set_cell_at _ _ _ _ Hq). cbn [mbind res_bind]. rewrite HP. cbn [mbind res_bind]. rewrite Hleaf. cbn [mbind res_bind].
      by destruct leaf.
    - rewrite decide_False by congruence. done. }
  rewrite E. cbn [mbind res_bind]. by rewrite IH.
Qed.
