(* ===== verification/CowAlloc.v ===== *)
(** * A transaction that copies pages of LMDB

    What a write transaction needs to copy some number of pages ([ready]): memory, room in
    its lists, and numbers that no version it sees has.  One allocation later it is ready
    for one page less, and still sees the same pages. *)

From stdpp Require Import sorting.
From S2P Require Import Prelude.
From S2P Require Import Lmdb Midl Page PageProps PageMore Meta MetaProps Readers Tree TreeProps Cursor CursorProps Reads Flush FlushProps Snap Nest NestLists Alloc FreeDb AllocProps.
From S2P Require Import Touch CowPages CowTree CowMem CowStep.

(** Memory does not run out. *)
Definition mallocs (malloc : gmap Z page → Z → option (Z * page)) : Prop :=
  ∀ h sz, 0 ≤ sz → ∃ a p, malloc h sz = Some (a, p) ∧ h !! a = None ∧ Z.of_nat (length p) = sz.

Lemma after_taken rs x taken rest :
  StronglySorted (λ r r' : record, r.1 < r'.1) rs → after x rs = taken ++ rest → after (default x (fst <$> last taken)) rs = rest.
Proof.
  intros Hs E. destruct taken as [|r taken _] using rev_ind; [exact E|]. rewrite last_snoc. cbn [default fmap option_fmap option_map from_option id].
  assert (Hr : x < r.1).
  { assert (Hin : r ∈ after x rs) by (rewrite E; set_solver). unfold after in Hin. by apply list_elem_of_filter in Hin as [? _]. }
  assert (Ea : after r.1 rs = after r.1 (after x rs)).
  { unfold after. rewrite list_filter_filter. apply list_filter_iff. intros y. lia. }
  rewrite Ea, E. assert (Hs' : StronglySorted (λ r r' : record, r.1 < r'.1) ((taken ++ [r]) ++ rest)).
  { rewrite <-E. eapply StronglySorted_sublist; [apply sublist_filter|done]. }
  unfold after. rewrite filter_app. rewrite StronglySorted_app in Hs'. destruct Hs' as (H1 & H2 & _).
  rewrite filter_none, filter_all; [done| |].
  - apply Forall_forall. intros y Hy. apply (H1 r y); [set_solver|done].
  - apply Forall_forall. intros y Hy. rewrite StronglySorted_app in H2. destruct H2 as (H3 & _ & _).
    apply elem_of_app in Hy as [Hy|Hy]; [|apply list_elem_of_singleton in Hy as ->; lia]. specialize (H3 y r Hy ltac:(set_solver)). lia.
Qed.

(** The number that is handed out is not among those that are left. *)
Lemma number_new (xs' P R : list Z) pgno next next' :
  xs' ++ [pgno] ≡ₚ P ∧ next' = next ∨ xs' ≡ₚ P ∧ pgno = next ∧ next' = next + 1 →
  NoDup (P ++ R) → 0 ≤ next → (∀ x, x ∈ P ++ R → 0 ≤ x < next) →
  (pgno ∈ P ++ R ∨ pgno = next) ∧ (∀ x, x ∈ xs' ++ R → x ∈ P ++ R) ∧ NoDup (xs' ++ R) ∧ pgno ∉ xs' ++ R ∧
  (length (xs' ++ R) ≤ length (P ++ R))%nat ∧ next ≤ next' ∧ 0 ≤ pgno < next'.
Proof.
  intros H Hnd H0 HP. destruct H as [(Hx & ->)|(Hx & -> & ->)].
  - assert (Hp : pgno ∈ P ++ R) by (rewrite <-Hx; set_solver). rewrite <-Hx in Hnd.
    rewrite <-(assoc_L (++)), (Permutation_app_comm [pgno]), (assoc_L (++)) in Hnd. apply NoDup_app in Hnd as (Hnd1 & Hnd2 & _).
    split; [by left|]. split; [intros x; rewrite <-Hx; set_solver|]. split; [done|].
    split; [intros Hb; apply (Hnd2 pgno Hb); set_solver|]. split; [rewrite <-Hx, !length_app; cbn; lia|]. specialize (HP pgno Hp). lia.
  - split; [by right|]. split; [intros x; by rewrite Hx|]. split; [by rewrite Hx|]. split; [|rewrite !length_app, Hx; lia].
    rewrite Hx. intros Hb. specialize (HP next Hb). lia.
Qed.

Section ready.
Context (fuel n : nat) (me_txns : option MDB_txninfo) (malloc : gmap Z page → Z → option (Z * page)).
Context (fdb : MDB_db) (rs : list record) (answer : Z) (V VF : gmap Z page).

(** The transaction can copy [k] pages: [V] and [VF] are the pages that it sees, of its
    database and of the freeDB; [xs] are the numbers it may use again, [ys] its dirty pages
    and [fs] those it freed. *)
Record ready (w : Wr) (xs : list Z) (ys : list ID2) (fs : list Z) (k : nat) : Prop := MkReady {
  re_lists : ∃ q junk, mt_lists (w_txn w) = [(None, mid2l_cells q ys junk)] ∧ (k ≤ length junk)%nat;
  re_modes : has_flag (mt_flags (w_txn w)) (Z.lor MDB_TXN_RDONLY MDB_TXN_WRITEMAP) = false ∧
    has_flag (mt_flags (w_txn w)) MDB_TXN_WRITEMAP = false ∧ has_flag (w_flags w) MDB_WRITEMAP = false;
  re_dirty : ascends ys ∧ Forall (λ y, mid y < mt_next_pgno (w_txn w)) ys ∧ Z.of_nat (length ys + k) ≤ MDB_IDL_UM_MAX;
  re_heap : NoDup ((mptr <$> ys) ++ w_dpages w) ∧ Forall (λ y, is_Some (heap (w_mem w) !! mptr y)) ys ∧
    Forall (λ a, ∃ p, heap (w_mem w) !! a = Some p ∧ Z.of_nat (length p) = me_psize (w_mem w)) (w_dpages w);
  re_psize : PAGEHDRSZ ≤ me_psize (w_mem w);
  re_free : opened (w_txn w) FREE_DBI fdb Cmp_long ∧ mdb_find_oldest (w_txnid w) me_txns = Ok answer;
  re_pool : pghead_holds (w_pghead w) xs ∧ 0 ≤ w_pglast w < 2 ^ 64 - 1 ∧ fits xs (after (w_pglast w) rs);
  re_fresh x : x ∈ xs ++ concat (after (w_pglast w) rs).*2 →
    x < mt_next_pgno (w_txn w) ∧ x ∉ mid <$> ys ∧ V !! x = None ∧ VF !! x = None;
  re_next : 0 ≤ mt_next_pgno (w_txn w) < 2 ^ 47 ∧ w_maxpg w < 2 ^ 47;
  re_room : Z.of_nat k ≤ w_room w < 2 ^ 32;
  re_loose : w_loose w = [];
  re_freed : idl_holds (mw_free_pgs (mt_w (w_txn w))) fs ∧ Z.of_nat (length fs + k) < 2 ^ 30;
  re_shows : shows (w_mem w) ys (mt_next_pgno (w_txn w)) V ∧ shows (w_mem w) ys (mt_next_pgno (w_txn w)) VF }.

Context (Hfuel : (33 ≤ fuel)%nat) (Hn : (length rs < n)%nat) (Hmalloc : mallocs malloc).
Context (HVF : version VF Cmp_long fdb (entry_of <$> rs)).
Context (Hrs : Forall (λ r, record_ok r ∧ 0 < r.1 < 2 ^ 64 - 1) rs) (Hsort : StronglySorted (λ r r' : record, r.1 < r'.1) rs).

Lemma ready_found w xs ys fs k U j :
  ready w xs ys fs k → shows (w_mem w) ys (mt_next_pgno (w_txn w)) U → is_Some (U !! j) →
  found fuel (w_mem w) (w_txn w) j (place (me_psize (w_mem w)) ys j).
Proof using Hfuel.
  clear Hn Hmalloc HVF Hrs Hsort. intros Hw HU [p Hj]. destruct (HU j p Hj) as [Hr _]. destruct (re_lists _ _ _ _ _ Hw) as (q & junk & Hl & _).
  destruct (re_dirty _ _ _ _ _ Hw) as (Hs & _ & Hlen). destruct (re_next _ _ _ _ _ Hw) as [Hnx _].
  assert (MDB_IDL_UM_MAX < 2 ^ 32 - 1) by done.
  apply (found_place fuel (w_mem w) (w_txn w) q ys junk j); try done; [lia|apply (re_modes _ _ _ _ _ Hw)|lia].
Qed.

Lemma ready_visible w xs ys fs k U :
  ready w xs ys fs k → shows (w_mem w) ys (mt_next_pgno (w_txn w)) U → visible U fuel (w_mem w) (w_txn w).
Proof using Hfuel.
  intros Hw HU j p Hj. destruct (HU j p Hj) as (_ & rest & E). exists (place (me_psize (w_mem w)) ys j), rest. split; [|done].
  eapply ready_found; [done|exact HU|by exists p].
Qed.

Lemma ready_alloc w xs ys fs k : ready w xs ys fs (S k) → alloc_ok fuel w 1 (got_for malloc w 1) fdb rs xs ys.
Proof using Hfuel Hmalloc HVF Hrs.
  clear Hn Hsort. intros Hw. pose proof Hw as [(q & junk & Hl & Hj) (Hm1 & Hm2 & Hm3) (Hs & Hys & Hlen) (Hnd & Hhp & Hdp) Hps [Hfree _] (Hph & Hlast & Hfits) Hfresh [Hnx _] Hroom Hloose _ [_ HsF]].
  constructor; try done.
  - apply (version_holds VF); [lia| |done]. by eapply ready_visible.
  - lia.
  - lia.
  - by left.
  - constructor; [done| |by rewrite Forall_forall in Hdp]. unfold got_for.
    destruct (Hmalloc (heap (w_mem w)) (me_psize (w_mem w) * 1)) as (a & p & E & Ha & Hp); [change PAGEHDRSZ with 16 in Hps; lia|].
    by exists a, p.
  - intros x Hx. destruct junk as [|c junk]; [cbn in Hj; lia|]. constructor; [by exists None, q, c, junk, []|done|done| |lia].
    destruct Hx as [Hx| ->]; [by apply Hfresh in Hx as (_ & ? & _)|]. intros (y & E & Hy)%list_elem_of_fmap.
    rewrite Forall_forall in Hys. specialize (Hys y Hy). cbn in Hys. lia.
Qed.

(** The file is full: [j] more pages do not fit. *)
Definition full (w w' : Wr) (rc j : Z) : Prop :=
  rc = MDB_MAP_FULL ∧ has_flag (mt_flags (w_txn w')) MDB_TXN_ERROR = true ∧ w_maxpg w ≤ mt_next_pgno (w_txn w) + j.

(** At most [j] pages are new in the file, and what is in it stays. *)
Definition grown (w w' : Wr) (j : Z) : Prop :=
  w_maxpg w' = w_maxpg w ∧ mt_next_pgno (w_txn w') ≤ mt_next_pgno (w_txn w) + j ∧ me_map (w_mem w') = me_map (w_mem w).

(** What one allocation does to a transaction that is ready. *)
Record placed (w w' : Wr) (ys : list ID2) (pgno a : Z) : Prop := MkPlaced1 {
  pl_keeps : keeps w w';
  pl_but : but_at a (w_mem w) (w_mem w');
  pl_heap : ∃ p, heap (w_mem w') !! a = Some p ∧ Z.of_nat (length p) = me_psize (w_mem w) ∧ mread p 0 8 = Ok (le_bytes 8 pgno);
  pl_new : a ∉ mptr <$> ys ∧ pgno ∉ mid <$> ys ∧ V !! pgno = None ∧ VF !! pgno = None ∧ 0 ≤ pgno < mt_next_pgno (w_txn w');
  pl_next : mt_next_pgno (w_txn w) ≤ mt_next_pgno (w_txn w') ∧ grown w w' 1 }.

(** An allocation of one page: it succeeds, and the transaction is ready for one page less;
    or the file is full. *)
Lemma alloc_ready touch w xs ys fs k : ready w xs ys fs (S k) →
  ∃ rc np w', mdb_page_alloc fuel touch me_txns n (λ _, true) (got_for malloc w 1) w 1 = Ok (rc, np, w') ∧
    match np with
    | Some a => rc = 0 ∧ ∃ pgno xs', placed w w' ys pgno a ∧ ready w' xs' (dirtied ys pgno a) fs k
    | None => full w w' rc 1
    end.
Proof using All.
  intros Hw. pose proof (ready_alloc w xs ys fs k Hw) as Hok.
  destruct (page_alloc_spec fuel touch me_txns n w 1 (got_for malloc w 1) fdb rs xs ys answer Hfuel Hn Hok (proj2 (re_free _ _ _ _ _ Hw)))
    as (rc & np & w' & taken & rest & xs' & E & Et & El & _ & Hh & Hf & Hout).
  exists rc, np, w'. split; [done|]. destruct np as [a|]; [|by destruct Hout as (-> & _ & ? & ?)].
  destruct Hout as (-> & pgno & [Hheap Hoth Hfr Hk Hlists Hrm] & Hcase). split; [done|]. exists pgno, xs'.
  pose proof Hw as [(q & junk & Hl & Hj) (Hm1 & Hm2 & Hm3) (Hs & Hys & Hlen) (Hnd & Hhp & Hdp) Hps [Hfree Hans] (Hph & Hlast & Hfits) Hfresh [Hnx Hmx] Hroom Hloose [Hfs Hfl] [HsV HsF]].
  pose proof Hfits as (_ & Hndx & Hrange & _).
  assert (Hrest : after (w_pglast w') rs = rest) by (rewrite El; by apply (after_taken _ (w_pglast w))).
  rewrite Et, fmap_app, concat_app, (assoc_L (++)) in Hndx, Hrange.
  rewrite seqZ_cons, seqZ_nil in Hcase by lia.
  assert (Hall : ∀ x, x ∈ (xs ++ concat taken.*2) ++ concat rest.*2 → 0 ≤ x < mt_next_pgno (w_txn w)).
  { intros x Hx. rewrite Forall_forall in Hrange. specialize (Hrange x Hx). cbn in Hrange.
    destruct (Hfresh x) as (? & _); [by rewrite Et, fmap_app, concat_app, (assoc_L (++))|lia]. }
  destruct (number_new xs' (xs ++ concat taken.*2) (concat rest.*2) pgno (mt_next_pgno (w_txn w)) (mt_next_pgno (w_txn w')))
    as (Hin & Hsub & Hnd' & Hnot & Hll & Hle & Hpg); [naive_solver|done|lia|naive_solver|].
  assert (Hn47 : mt_next_pgno (w_txn w') < 2 ^ 47) by (destruct Hcase as [(_ & ->)|(_ & -> & -> & ?)]; lia).
  assert (Ha : a ∉ mptr <$> ys).
  { intros (y & -> & Hy)%list_elem_of_fmap. destruct Hfr as [(Hd & _)|(Hnone & _)].
    - apply NoDup_app in Hnd as (_ & Hnd & _). apply (Hnd (mptr y)); [by apply list_elem_of_fmap_2|done].
    - rewrite Forall_forall in Hhp. destruct (Hhp y Hy) as [p Hp]. by rewrite Hnone in Hp. }
  assert (Hpn : pgno ∉ mid <$> ys ∧ V !! pgno = None ∧ VF !! pgno = None).
  { destruct Hin as [Hin| ->]; [apply Hfresh; by rewrite Et, fmap_app, concat_app, (assoc_L (++))|]. split_and!.
    - intros (y & E' & Hy)%list_elem_of_fmap. rewrite Forall_forall in Hys. specialize (Hys y Hy). cbn in Hys. lia.
    - destruct (V !! mt_next_pgno (w_txn w)) as [p|] eqn:Ep; [|done]. destruct (HsV _ _ Ep). lia.
    - destruct (VF !! mt_next_pgno (w_txn w)) as [p|] eqn:Ep; [|done]. destruct (HsF _ _ Ep). lia. }
  assert (Hbut : but_at a (w_mem w) (w_mem w')) by (split; [apply (kp_map _ _ Hk)|split; [apply (kp_psize _ _ Hk)|exact Hoth]]).
  assert (Hgrown : grown w w' 1) by (split; [apply (kp_maxpg _ _ Hk)|split; [lia|apply (kp_map _ _ Hk)]]).
  split; [constructor; try done; [|naive_solver]|].
  { destruct Hheap as (p & Hp & Hr & Hpl). exists p. split; [done|]. split; [lia|done]. }
  constructor.
  - destruct Hlists as (sp & q1 & c & junk1 & rest1 & H1 & H2). rewrite Hl in H1. injection H1 as <- <- E1 <-. exists q, junk1. split; [done|].
    apply app_inv_head in E1. rewrite E1 in Hj. cbn in Hj. lia.
  - by rewrite (kp_flags _ _ Hk), (kp_eflags _ _ Hk).
  - split; [by apply dirtied_ascends|]. rewrite (dirtied_perm ys pgno a (proj1 Hpn)). cbn [length]. split; [|lia].
    constructor; [cbn; lia|]. eapply Forall_impl; [exact Hys|]. cbn. lia.
  - rewrite (dirtied_perm ys pgno a (proj1 Hpn)). cbn [fmap list_fmap app]. split; [|split].
    + destruct Hfr as [(_ & Ed)|(Hnone & ->)]; [rewrite Ed in Hnd; by rewrite <-Permutation_middle in Hnd|].
      constructor; [|done]. intros [?|Hd]%elem_of_app; [done|]. rewrite Forall_forall in Hdp. destruct (Hdp a Hd) as (p & Hp & _). by rewrite Hnone in Hp.
    + constructor; [destruct Hheap as (p & Hp & _); by exists p|]. apply Forall_forall. intros y Hy. rewrite Hoth; [by rewrite Forall_forall in Hhp; apply Hhp|].
      intros <-. apply Ha. by apply list_elem_of_fmap_2.
    + rewrite (kp_psize _ _ Hk). apply Forall_forall. intros b Hb. rewrite Forall_forall in Hdp.
      destruct Hfr as [(_ & Ed)|(Hnone & Ed)].
      * rewrite Ed in Hdp, Hnd. apply NoDup_app in Hnd as (_ & _ & Hnd). apply NoDup_cons in Hnd as [Hnd _].
        rewrite Hoth by (intros ->; done). apply Hdp. by right.
      * rewrite Ed in Hb. rewrite Hoth; [by apply Hdp|]. intros ->. destruct (Hdp a Hb) as (p & Hp & _). by rewrite Hnone in Hp.
  - by rewrite (kp_psize _ _ Hk).
  - rewrite (kp_id _ _ Hk). split; [|done]. destruct Hfree as [O1 O2 O3 O4 O5].
    split; rewrite ?(kp_dbs _ _ Hk), ?(kp_dbxs _ _ Hk), ?(kp_dbflags _ _ Hk), ?(kp_flags _ _ Hk); done.
  - rewrite Hrest. split; [done|]. split.
    + rewrite El. destruct (last taken) as [r|] eqn:Elast; [|done]. cbn.
      assert (Hr : r ∈ rs).
      { assert (Hr : r ∈ after (w_pglast w) rs) by (rewrite Et; apply elem_of_app; left; by apply last_Some_elem_of).
        unfold after in Hr. by apply list_elem_of_filter in Hr as [_ Hr]. }
      rewrite Forall_forall in Hrs. destruct (Hrs r Hr). lia.
    + destruct Hfits as (_ & _ & Hr2 & Hlen2). rewrite Et, fmap_app, concat_app, (assoc_L (++)) in Hr2, Hlen2. split; [done|]. split; [done|]. split; [|lia].
      apply Forall_forall. intros x Hx. rewrite Forall_forall in Hr2. by apply Hr2, Hsub.
  - rewrite Hrest. intros x Hx. destruct (Hfresh x) as (H1 & H2 & H3 & H4); [rewrite Et, fmap_app, concat_app, (assoc_L (++)); by apply Hsub|].
    split; [lia|]. split; [|done]. rewrite (dirtied_perm ys pgno a (proj1 Hpn)). cbn. apply not_elem_of_cons. split; [|done]. by intros ->.
  - rewrite (kp_maxpg _ _ Hk). lia.
  - rewrite Hrm, u32_small by lia. lia.
  - by rewrite (kp_loose _ _ Hk).
  - rewrite (kp_free _ _ Hk). split; [done|lia].
  - split; apply (shows_new (w_mem w) (w_mem w') ys (mt_next_pgno (w_txn w))); by try apply Hpn.
Qed.
End ready.
