(* ===== verification/CowLink.v ===== *)
(** * The parent of a page that LMDB copies

    The step of [mdb_page_touch] that makes the parent page, or the record of the database,
    point to the copy. *)

From stdpp Require Import sorting.
From S2P Require Import Prelude.
From S2P Require Import Lmdb Midl Page PageProps PageMore Meta MetaProps Readers Tree TreeProps Cursor CursorProps Reads Flush FlushProps Snap Nest NestLists Alloc FreeDb AllocProps.
From S2P Require Import Touch CowPages CowTree CowMem CowStep CowAlloc.

(** The cursor at the page [top] of the path. *)
Definition walker (dbi fl psize : Z) (ys : list ID2) (path : list (Z * Z)) (top : nat) (rp : list (option Ptr)) (rk : block) : MDB_cursor :=
  MkCursor dbi (Z.of_nat (length path)) (Z.of_nat top) fl ((Some <$> (place psize ys <$> path.*1)) ++ rp) ((Some <$> path.*2) ++ rk).

(** ** Writing behind a page *)

Lemma mwrite_app p r off bs p' : mwrite p off bs = Ok p' → mwrite (p ++ r) off bs = Ok (p' ++ r).
Proof.
  unfold mwrite. intros H. destruct ((0 <=? off) && (off + Z.of_nat (length bs) <=? Z.of_nat (length p)))%bool eqn:E; [|done].
  bool_to_prop. injection H as <-. rewrite (proj2 (Z.leb_le 0 off)), (proj2 (Z.leb_le _ (Z.of_nat (length (p ++ r))))) by (rewrite ?length_app; lia).
  cbn [andb]. rewrite take_app_le, drop_app_le by lia. by rewrite <-!(assoc_L (++)).
Qed.

Lemma SETPGNO_app p r a x p' : SETPGNO p a x = Ok p' → SETPGNO (p ++ r) a x = Ok (p' ++ r).
Proof.
  unfold SETPGNO, wr16. intros (p1 & E1 & E)%res_bind_Ok. apply res_bind_Ok in E as (p2 & E2 & E3).
  rewrite (mwrite_app _ r _ _ _ E1). cbn [mbind res_bind]. rewrite (mwrite_app _ r _ _ _ E2). cbn [mbind res_bind]. by apply mwrite_app.
Qed.

Section link.
Context (V : gmap Z page) (psize dbi fl : Z) (ys : list ID2) (path up : list (Z * Z)) (g i : Z) (low : list (Z * Z)).
Context (rp : list (option Ptr)) (rk : block) (pgno : Z).
Context (Hpath : path = up ++ (g, i) :: low).
Abbreviation c := (walker dbi fl psize ys path (length up) rp rk).

(** The pages when the parent points to [pgno]. *)
Definition linked (pp' : page) : gmap Z page := match last up with Some (np, _) => <[np := pp']> V | None => V end.

(** The parent of the page on the path, and what becomes of it. *)
Definition parent_ok : Prop := ∀ np j, last up = Some (np, j) → ∃ bs k b, j = Z.of_nat k ∧ v_page V false np bs ∧ bs !! k = Some b ∧
  n_pgno b = g ∧ np ≠ g ∧ np ∈ mid <$> ys.

Record link_ok (m m2 : Mem) (next : Z) (pp' : page) : Prop := MkLink {
  lk_same : me_map m2 = me_map m ∧ me_psize m2 = me_psize m;
  lk_from j : (∀ np k, last up = Some (np, k) → j ≠ np) → from m2 (place psize ys j) = from m (place psize ys j);
  lk_some b : is_Some (heap m !! b) → is_Some (heap m2 !! b);
  lk_heap b : b ∉ mptr <$> ys → heap m2 !! b = heap m !! b;
  lk_shows : shows m2 ys next (linked pp');
  lk_parent np j : last up = Some (np, j) → ∃ p bs k b, V !! np = Some p ∧ j = Z.of_nat k ∧ v_page V false np bs ∧ bs !! k = Some b ∧
    n_pgno b = g ∧ np ≠ g ∧ holds false pp' (<[k := set_pgno b pgno]> bs) ∧ IS_BRANCH pp' = Ok true ∧ MP_FLAGS pp' = MP_FLAGS p ∧
    mread pp' 0 8 = mread p 0 8 ∧ length pp' = length p }.

Lemma path_lookup {A} (f : Z * Z → A) (r : list (option A)) np j : last up = Some (np, j) →
  ((Some <$> (f <$> path)) ++ r) !! (length up - 1)%nat = Some (Some (f (np, j))).
Proof using Hpath.
  intros E. rewrite Hpath. rewrite last_lookup in E. apply lookup_lt_Some in E as L.
  replace (pred (length up)) with (length up - 1)%nat in E by lia.
  rewrite lookup_app_l by (rewrite !length_fmap, length_app; lia). rewrite !list_lookup_fmap, lookup_app_l by lia. by rewrite E.
Qed.

Lemma link_at m t next db :
  shows m ys next V → me_psize m = psize → ascends ys → NoDup (mptr <$> ys) → parent_ok →
  cell (mt_dbs t) dbi = Ok db →
  ∃ m2 dbs2 pp', touch_link pgno (MkSt m t c None None) = Ok (tt, MkSt m2 (with_dbs t dbs2) c None None) ∧ link_ok m m2 next pp' ∧
    set_cell (mt_dbs t) dbi (match up with [] => set_root db pgno | _ => db end) = Ok dbs2.
Proof using Hpath.
  intros HV Hps Hs Hnd Hpar Hdb. unfold touch_link. step (eq_refl : mc (MkSt m t c None None) = Ok (c, MkSt m t c None None)).
  change (mc_top c) with (Z.of_nat (length up)).
  assert (Hcell : ∃ dbs2, set_cell (mt_dbs t) dbi (match up with [] => set_root db pgno | _ => db end) = Ok dbs2 ∧
    (up ≠ [] → dbs2 = mt_dbs t)).
  { unfold cell in Hdb. unfold set_cell. destruct (Z.leb_spec 0 dbi) as [H0|]; [|done].
    destruct (mt_dbs t !! Z.to_nat dbi) as [db'|] eqn:El; [|done]. injection Hdb as ->.
    pose proof (lookup_lt_Some _ _ _ El) as L. rewrite (proj2 (Z.ltb_lt _ _)) by lia. cbn [andb]. eexists. split; [done|].
    intros Hu. destruct up; [done|]. by apply list_insert_id. }
  destruct Hcell as (dbs2 & Hcell & Hid).
  destruct (last up) as [[np j]|] eqn:Elast.
  - assert (Hu : up ≠ []) by (by intros ->). assert (Hlu : (0 < length up)%nat) by (destruct up; [done|cbn; lia]).
    rewrite (proj2 (Z.eqb_neq _ 0)) by lia. cbn [negb].
    destruct (Hpar np j Elast) as (bs & k & b & -> & Hpage & Hb & Hg & Hne & Hin). pose proof Hpage as (p & Hp & Hh & Hbr).
    destruct (HV np p Hp) as (Hnx & rest & Hfrom). apply list_elem_of_fmap in Hin as (y & Ey & Hy).
    assert (Epl : place psize ys np = InHeap (mptr y) 0) by (rewrite Ey; by apply place_dirty).
    rewrite Hps, Epl in Hfrom. apply from_InHeap_inv in Hfrom.
    destruct (SETPGNO_holds p bs k b pgno Hh Hb) as (ad & pp' & Ead & Eset & Hh' & Hf' & Hr' & Hl').
    assert (Epg : pg_at (Z.of_nat (length up) - 1) (MkSt m t c None None) = Ok (InHeap (mptr y) 0, MkSt m t c None None)).
    { unfold pg_at. step (eq_refl : mc (MkSt m t c None None) = Ok (c, MkSt m t c None None)).
      replace (Z.of_nat (length up) - 1) with (Z.of_nat (length up - 1)) by lia.
      pose proof (path_lookup (λ x, place psize ys x.1) rp np (Z.of_nat k) Elast) as El. rewrite <-Epl.
      assert (El' : mc_pg c !! (length up - 1)%nat = Some (Some (place psize ys np))) by (cbn [mc_pg walker]; by rewrite <-(list_fmap_compose fst (place psize ys) path)).
      by step_lift (cell_at _ _ _ El'). }
    step Epg.
    assert (Eki : ki_at (Z.of_nat (length up) - 1) (MkSt m t c None None) = Ok (Z.of_nat k, MkSt m t c None None)).
    { unfold ki_at. step (eq_refl : mc (MkSt m t c None None) = Ok (c, MkSt m t c None None)).
      replace (Z.of_nat (length up) - 1) with (Z.of_nat (length up - 1)) by lia.
      apply lift_Ok, read_byte_lookup. apply (path_lookup snd rk np (Z.of_nat k) Elast). }
    step Eki. set (m2 := with_heap m (<[mptr y := pp' ++ rest]> (heap m))).
    exists m2, dbs2, pp'. rewrite Hid by done. split; [|split; [|rewrite Hcell; by rewrite (Hid Hu)]].
    + replace (with_dbs t (mt_dbs t)) with t by (by destruct t). apply (edit_heap (mptr y) _ (p ++ rest) (pp' ++ rest)).
      * done.
      * rewrite (stable_NODEPTR (Z.of_nat k) p rest ad Ead). cbn [mbind res_bind]. by apply SETPGNO_app.
      * rewrite !length_app. lia.
    + assert (Hbut : but_at (mptr y) m m2) by apply but_at_insert. constructor.
      * done.
      * intros j Hj. apply (from_but_at (mptr y)); [done|]. intros o Eo. apply (Hj np (Z.of_nat k) Elast). by eapply places_apart.
      * intros b' Hb'. unfold m2. cbn [heap with_heap]. destruct (decide (b' = mptr y)) as [->|]; [rewrite lookup_insert_eq; by eexists|by rewrite lookup_insert_ne].
      * intros b' Hb'. apply Hbut. intros ->. apply Hb'. by apply list_elem_of_fmap_2.
      * unfold linked. rewrite Elast. eapply (shows_set m m2 ys next V np (mptr y) pp' rest); try done; [apply lookup_insert_eq|by rewrite Hps].
      * intros np' j'. rewrite Elast. intros [= <- <-]. exists p, bs, k, b. do 7 (split; [done|]). split; [|done]. by eapply flags_branch.
  - assert (Hu : up = []) by (by apply last_None). rewrite Hu. cbn [length]. change (negb (Z.of_nat 0 =? 0)) with false. cbv beta iota.
    rewrite Hu in Hcell.
    set (c0 := walker dbi fl psize ys path 0 rp rk).
    assert (Edb : mc_db (MkSt m t c0 None None) = Ok (db, MkSt m t c0 None None)) by (by apply (lift_Ok (cell (mt_dbs t) dbi))).
    exists m, dbs2, []. split; [|split; [|done]].
    + step Edb. unfold put_db. step (eq_refl : own (MkSt m t c0 None None) = Ok (None, MkSt m t c0 None None)).
      step (eq_refl : mc (MkSt m t c0 None None) = Ok (c0, MkSt m t c0 None None)).
      step (eq_refl : txn (MkSt m t c0 None None) = Ok (t, MkSt m t c0 None None)). by step_lift Hcell.
    + constructor; try done; [|by intros np j; rewrite Elast]. unfold linked. by rewrite Elast.
Qed.
End link.
