(* ===== verification/CowPath.v ===== *)
(** * Paths of LMDB whose pages are copied

    A path from the root to a leaf, before and after the copy of a page of it; and what the
    steps of a copy leave of a transaction that is ready for more. *)

From stdpp Require Import sorting.
From S2P Require Import Prelude.
From S2P Require Import Lmdb Midl Page PageProps PageMore Meta MetaProps Readers Tree TreeProps Cursor CursorProps CursorSpec Reads Flush FlushProps Snap Nest NestLists Alloc FreeDb AllocProps.
From S2P Require Import Touch CowPages CowTree CowMem CowStep CowAlloc CowLink.

Lemma adjust_at mp np m t c top l P leaf q :
  has_flag (mc_flags c) C_SUB = false → mc_top c = Z.of_nat top → (top < 32)%nat → mc_pg c !! top = Some q →
  cell (mw_cursors (mt_w t)) (mc_dbi c) = Ok l → Forall plain_cursor l → from m np = Ok P → IS_LEAF P = Ok leaf →
  ∃ ls, adjust_cursors mp np (MkSt m t c None None)
      = Ok (0, MkSt m (w_txn (set_cursors (MkWr m t) ls)) (set_mc_pg c (<[top := Some np]> (mc_pg c))) None None) ∧
    set_cell (mw_cursors (mt_w t)) (mc_dbi c) (repoint (mc_snum c) top mp np <$> l) = Ok ls.
Proof.
  intros Hsub Htop H32 Hq Hl Hpl HP Hleaf. unfold adjust_cursors.
  step (eq_refl : mc (MkSt m t c None None) = Ok (c, MkSt m t c None None)). rewrite Htop.
  set (c1 := set_mc_pg c (<[top := Some np]> (mc_pg c))).
  assert (Es : set_pg (Z.of_nat top) (Some np) (MkSt m t c None None) = Ok (tt, MkSt m t c1 None None)).
  { unfold set_pg. step (eq_refl : mc (MkSt m t c None None) = Ok (c, MkSt m t c None None)). by step_lift (set_cell_at _ _ (Some np) _ Hq). }
  step Es. step (eq_refl : mc (MkSt m t c1 None None) = Ok (c1, MkSt m t c1 None None)).
  assert (Hset : ∃ ls, set_cell (mw_cursors (mt_w t)) (mc_dbi c) (repoint (mc_snum c) top mp np <$> l) = Ok ls).
  { unfold cell in Hl. unfold set_cell. destruct (Z.leb_spec 0 (mc_dbi c)); [|done].
    destruct (mw_cursors (mt_w t) !! Z.to_nat (mc_dbi c)) as [l'|] eqn:E; [|done]. apply lookup_lt_Some in E.
    rewrite (proj2 (Z.ltb_lt _ _)) by lia. by eexists. }
  destruct Hset as (ls & Els). exists ls. split; [|done].
  unfold on_wr. cbn [st_mem st_txn w_txn w_mem]. change (mc_dbi c1) with (mc_dbi c). rewrite Hl. cbn [mbind res_bind].
  rewrite (adjust_loop_spec m c1 mp np top P leaf l) by done. cbn [mbind res_bind]. change (mc_snum c1) with (mc_snum c). rewrite Els. done.
Qed.

Section path.
Context (V : gmap Z page) (cmp : MDB_cmp_func) `{!KeyOrder cmp} (all : entries) (lo hi : option bytes) (bef es aft : entries).

(** A path from the root to a leaf. *)
Definition v_path (root : Z) (path : list (Z * Z)) : Prop :=
  ∃ stk q j, path = stk ++ [(q, j)] ∧ v_spine V cmp root all stk 0 q lo hi bef es aft.

Lemma v_spine_prefix root low : ∀ up g i d k lo hi bef es aft,
  v_spine V cmp root all (up ++ (g, i) :: low) d k lo hi bef es aft →
  ∃ d' lo' hi' bef' es' aft', v_spine V cmp root all up d' g lo' hi' bef' es' aft'.
Proof using Type.
  induction low as [|[q j] low IH] using rev_ind; intros up g i d k lo' hi' bef' es' aft'.
  - intros (lo0 & hi0 & bef0 & aft0 & bs & ess & i0 & b & _ & Hs & _)%v_spine_snoc_inv. by eexists _, _, _, _, _, _.
  - rewrite app_comm_cons, (assoc_L (++)). intros (lo0 & hi0 & bef0 & aft0 & bs & ess & i0 & b & _ & Hs & _)%v_spine_snoc_inv. by eapply IH.
Qed.

Lemma v_path_prefix root up g i low : v_path root (up ++ (g, i) :: low) →
  ∃ d' lo' hi' bef' es' aft', v_spine V cmp root all up d' g lo' hi' bef' es' aft'.
Proof using Type.
  intros (stk & q & j & E & Hs). destruct low as [|y low _] using rev_ind.
  - apply app_inj_tail in E as [-> [= -> ->]]. by eexists _, _, _, _, _, _.
  - rewrite app_comm_cons, (assoc_L (++)) in E. apply app_inj_tail in E as [<- ->]. by eapply v_spine_prefix.
Qed.

Lemma v_path_page root up g i low : v_path root (up ++ (g, i) :: low) → ∃ leaf ns, v_page V leaf g ns.
Proof using Type.
  intros H. destruct (v_path_prefix _ _ _ _ _ H) as (d' & lo' & hi' & bef' & es' & aft' & Hs).
  apply v_spine_snap in Hs. destruct (snap_page _ _ _ _ _ _ _ Hs) as [ns ?]. by eexists _, ns.
Qed.

Lemma v_path_in root path x : v_path root path → x ∈ path → is_Some (V !! x.1).
Proof using Type.
  intros H (up & low & ->)%list_elem_of_split. destruct x as [g i]. destruct (v_path_page _ _ _ _ _ H) as (leaf & ns & p & Hp & _). by exists p.
Qed.

Lemma v_path_parent root up g i low ys : v_path root (up ++ (g, i) :: low) → Forall (λ x, x.1 ∈ mid <$> ys) up → parent_ok V ys up g.
Proof using Type.
  intros H Hup np j E. destruct (v_path_prefix _ _ _ _ _ H) as (d' & lo' & hi' & bef' & es' & aft' & Hs).
  apply last_Some in E as [up0 ->]. pose proof Hs as Hs0.
  apply v_spine_snoc_inv in Hs as (lo0 & hi0 & bef0 & aft0 & bs & ess & i0 & b & -> & Hs & (Hp & _) & Hb & _ & -> & _).
  exists bs, i0, b. do 4 (split; [done|]). split.
  - eapply (v_spine_apart V cmp); [exact Hs0|]. rewrite fmap_app. set_solver.
  - rewrite Forall_app, Forall_singleton in Hup. apply Hup.
Qed.
End path.

(** The path after the copy of a page of it. *)
Lemma cow_path V cmp `{!KeyOrder cmp} all lo hi bef es aft root g n' p' up pp' i low :
  cow_ok V g n' p' up pp' → v_path V cmp all lo hi bef es aft root (up ++ (g, i) :: low) →
  v_path (cow V n' p' up pp') cmp all lo hi bef es aft (cow_root root n' up) (up ++ (n', i) :: low).
Proof.
  intros Hok (stk & q & j & E & Hs). destruct low as [|y low _] using rev_ind.
  - apply app_inj_tail in E as [<- [= <- <-]]. exists up, n', i. split; [done|]. by eapply cow_end.
  - rewrite app_comm_cons, (assoc_L (++)) in E. apply app_inj_tail in E as [<- ->].
    exists (up ++ (n', i) :: low), q, j. split; [by rewrite app_comm_cons, (assoc_L (++))|]. by eapply cow_through.
Qed.

(** The pages of the trees have one size and their own number, and the dirty flag when they
    are in the dirty list. *)
Record pages_ok (psize : Z) (ys : list ID2) (V : gmap Z page) : Prop := MkPagesOk {
  po_own leaf k ns p : V !! k = Some p → holds leaf p ns → Z.of_nat (length p) = psize ∧ mread p 0 8 = Ok (le_bytes 8 k);
  po_dirty leaf k ns p : V !! k = Some p → holds leaf p ns →
    ∃ fl, MP_FLAGS p = Ok fl ∧ F_ISSET fl P_DIRTY = bool_decide (k ∈ mid <$> ys) }.

Lemma cow_pages_ok psize ys V g n' p p' up pp' :
  pages_ok psize ys V → n' ∈ mid <$> ys → V !! n' = None → V !! g = Some p → copy_of p p' n' → (∃ leaf ns, holds leaf p ns) →
  (∀ np j, last up = Some (np, j) → ∃ q bs bs', V !! np = Some q ∧ holds false q bs ∧ holds false pp' bs' ∧ MP_FLAGS pp' = MP_FLAGS q ∧
    mread pp' 0 8 = mread q 0 8 ∧ length pp' = length q) →
  pages_ok psize ys (cow V n' p' up pp').
Proof.
  intros [Ho Hd] Hn Hf Hg Hc (leafg & nsg & Hhg) Hpar.
  assert (Hcase : ∀ k pk, cow V n' p' up pp' !! k = Some pk → k = n' ∧ pk = p' ∨
    (∃ q leaf ns, V !! k = Some q ∧ holds leaf q ns ∧ MP_FLAGS pk = MP_FLAGS q ∧ mread pk 0 8 = mread q 0 8 ∧ length pk = length q) ∨
    V !! k = Some pk).
  { intros k pk Hk. unfold cow in Hk. destruct (last up) as [[np j]|] eqn:El.
    - apply lookup_insert_Some in Hk as [(<- & <-)|(Nk & Hk)].
      + right; left. destruct (Hpar np j eq_refl) as (q & bs & bs' & Hq & Hhq & Hhp & Hfl & Hr & Hl). by exists q, false, bs.
      + apply lookup_insert_Some in Hk as [(<- & <-)|(Nk' & Hk)]; [by left|by right; right].
    - apply lookup_insert_Some in Hk as [(<- & <-)|(Nk' & Hk)]; [by left|by right; right]. }
  destruct Hc as [Ch Cb Cd Cl Cp]. split; intros leaf k ns pk Hk Hh.
  - destruct (Hcase k pk Hk) as [(-> & ->)|[(q & lq & nq & Hq & Hhq & Hfl & Hr & Hl)|Hk']]; [| |by eapply Ho].
    + split; [|done]. rewrite Cl. by apply (Ho leafg g nsg p).
    + rewrite Hl, Hr. by eapply Ho.
  - destruct (Hcase k pk Hk) as [(-> & ->)|[(q & lq & nq & Hq & Hhq & Hfl & Hr & Hl)|Hk']]; [| |by eapply Hd].
    + destruct Cd as (fl & E & Ef). exists fl. split; [done|]. by rewrite Ef, bool_decide_eq_true_2.
    + rewrite Hfl. by eapply Hd.
Qed.

(** A transaction that is ready stays so when the steps of a copy change its memory, the
    record of a database, its freed pages and its cursors. *)
Definition edited (w : Wr) (m : Mem) (dbs : list MDB_db) (free : IDL) (curs : list (list (option (MDB_cursor * option MDB_xcursor)))) : Wr :=
  let x := mt_w (w_txn w) in
  MkWr m (with_w (with_dbs (w_txn w) dbs)
    (MkWtx (mw_txnid x) (mw_room x) (mw_loose x) (mw_loose_count x) free curs (mw_pghead x) (mw_pglast x)
      (mw_pgoldest x) (mw_maxpg x) (mw_flags x) (mw_map x) (mw_dpages x))).

Lemma ready_edited me_txns fdb rs answer V V' VF w xs ys fs fs' k m dbs free curs :
  ready me_txns fdb rs answer V VF w xs ys fs k → me_psize m = me_psize (w_mem w) →
  (∀ b, is_Some (heap (w_mem w) !! b) → is_Some (heap m !! b)) → (∀ b, b ∉ mptr <$> ys → heap m !! b = heap (w_mem w) !! b) →
  cell dbs FREE_DBI = cell (mt_dbs (w_txn w)) FREE_DBI → idl_holds free fs' → Z.of_nat (length fs' + k) < 2 ^ 30 →
  shows m ys (mt_next_pgno (w_txn w)) V' → shows m ys (mt_next_pgno (w_txn w)) VF →
  (∀ x, x ∈ xs ++ concat (after (w_pglast w) rs).*2 → V' !! x = None) →
  ready me_txns fdb rs answer V' VF (edited w m dbs free curs) xs ys fs' k.
Proof.
  intros [Hl Hm Hd (Hnd & Hhp & Hdp) Hps [[O1 O2 O3 O4 O5] Hans] Hp Hf Hn Hr Hlo Hfr Hs] Eps Hsome Hheap Edbs Hfree Hlen HV HVF Hnone.
  constructor; try done.
  - split; [done|]. split.
    + eapply Forall_impl; [exact Hhp|]. intros y. apply Hsome.
    + change (w_dpages (edited w m dbs free curs)) with (w_dpages w). cbn [w_mem edited]. apply Forall_forall. intros b Hb. rewrite Forall_forall in Hdp. rewrite Eps, Hheap; [by apply Hdp|].
      intros Hin. apply NoDup_app in Hnd as (_ & Hnd & _). by apply (Hnd b).
  - cbn [w_mem edited]. by rewrite Eps.
  - split; [|done]. constructor; try done. cbn [mt_dbs w_txn edited with_w with_dbs]. by rewrite Edbs.
  - intros x Hx. destruct (Hf x Hx) as (H1 & H2 & _ & H4). split; [done|]. split; [done|]. split; [by apply Hnone|done].
Qed.
