(* ===== verification/CowWalk.v ===== *)
(** * A walk down a path of LMDB that copies its pages

    [mdb_page_touch] on each page from the root to a leaf: a page that is dirty stays, and
    another one is copied. *)

From stdpp Require Import sorting.
From S2P Require Import Prelude.
From S2P Require Import Lmdb Midl Page PageProps PageMore Meta MetaProps Readers Tree TreeProps Cursor CursorProps CursorSpec Reads Flush FlushProps Snap Nest NestLists Alloc FreeDb AllocProps.
From S2P Require Import Touch CowPages CowTree CowMem CowStep CowAlloc CowLink CowPath.

(** ** One page *)

Section walk.
Context (fuel n : nat) (me_txns : option MDB_txninfo) (malloc : gmap Z page → Z → option (Z * page)).
Context (fdb : MDB_db) (rs : list record) (answer : Z) (VF : gmap Z page).
Context (Hfuel : (33 ≤ fuel)%nat) (Hn : (length rs < n)%nat) (Hmalloc : mallocs malloc).
Context (HVF : version VF Cmp_long fdb (entry_of <$> rs)).
Context (Hrs : Forall (λ r, record_ok r ∧ 0 < r.1 < 2 ^ 64 - 1) rs) (Hsort : StronglySorted (λ r r' : record, r.1 < r'.1) rs).
Context (cmp : MDB_cmp_func) `{!KeyOrder cmp} (dbi : Z) (db0 : MDB_db) (all : entries) (lo hi : option bytes) (bef es aft : entries).
Context (psize fl : Z) (rp : list (option Ptr)) (rk : block).
Context (Hdbi : dbi ≠ FREE_DBI) (Hsub : has_flag fl C_SUB = false).

(** A transaction on the way down a path: the pages [up] are its own, and it can copy [k]
    pages of [low]. *)
Record walk (w : Wr) (V : gmap Z page) (xs : list Z) (ys : list ID2) (fs : list Z) (k : nat) (up low : list (Z * Z)) : Prop := MkWalk {
  wk_ready : ready me_txns fdb rs answer V VF w xs ys fs k;
  wk_psize : me_psize (w_mem w) = psize;
  wk_db : ∃ root, cell (mt_dbs (w_txn w)) dbi = Ok (set_root db0 root) ∧ v_path V cmp all lo hi bef es aft root (up ++ low);
  wk_pages : pages_ok psize ys V;
  wk_big : ∃ S, big_ok V S ∧ Forall (λ x, x.1 ∈ S) (up ++ low);
  wk_other : Forall (λ x, VF !! x.1 = None) (up ++ low);
  wk_up : Forall (λ x, x.1 ∈ mid <$> ys) up;
  wk_length : (length (up ++ low) ≤ 32)%nat;
  wk_cursors : ∃ l, cell (mw_cursors (mt_w (w_txn w))) dbi = Ok l ∧ Forall plain_cursor l }.

Abbreviation touch := (mdb_page_touch fuel n me_txns (λ _, true) malloc).
Abbreviation walker := (walker dbi fl psize).
Abbreviation at_page w ys up low := (MkSt (w_mem w) (w_txn w) (walker ys (up ++ low) (length up) rp rk) None None).

(** What the code reads of a page of the path. *)
Lemma walk_page w V xs ys fs k up g i low :
  walk w V xs ys fs k up ((g, i) :: low) → ∃ leaf ns p rest f, V !! g = Some p ∧ holds leaf p ns ∧
    from (w_mem w) (place psize ys g) = Ok (p ++ rest) ∧ MP_FLAGS p = Ok f ∧ F_ISSET f P_DIRTY = bool_decide (g ∈ mid <$> ys) ∧
    Z.of_nat (length p) = psize ∧ mread p 0 8 = Ok (le_bytes 8 g) ∧ 0 ≤ g < mt_next_pgno (w_txn w) ∧
    top_pg (at_page w ys up ((g, i) :: low)) = Ok (place psize ys g, at_page w ys up ((g, i) :: low)).
Proof using Type.
  clear Hfuel Hn. intros [Hre Hps (root & Hdb & Hpath) [Ho Hd] _ _ _ _ _].
  destruct (v_path_page _ _ _ _ _ _ _ _ _ _ _ _ _ Hpath) as (leaf & ns & p & Hp & Hh & _).
  destruct (re_shows _ _ _ _ _ _ _ _ _ _ _ Hre) as [HV _]. destruct (HV g p Hp) as (Hg & rest & Hf). rewrite Hps in Hf.
  destruct (Hd leaf g ns p Hp Hh) as (f & Ef & Hdirty). destruct (Ho leaf g ns p Hp Hh) as [Hl Hr].
  exists leaf, ns, p, rest, f. do 8 (split; [done|]).
  set (s := at_page w ys up ((g, i) :: low)). unfold top_pg, pg_at. step (eq_refl : mc s = Ok (st_mc s, s)). step (eq_refl : mc s = Ok (st_mc s, s)).
  assert (E : mc_pg (st_mc s) !! length up = Some (Some (place psize ys g))).
  { cbn. rewrite lookup_app_l by (rewrite !length_fmap, length_app; cbn; lia). rewrite !list_lookup_fmap, lookup_app_r, Nat.sub_diag by lia. done. }
  change (mc_top (st_mc s)) with (Z.of_nat (length up)). by step_lift (cell_at _ _ _ E).
Qed.

(** A page that is dirty already stays. *)
Lemma touch_dirty d w V xs ys fs k up g i low :
  walk w V xs ys fs k up ((g, i) :: low) → g ∈ mid <$> ys →
  touch (S d) (at_page w ys up ((g, i) :: low)) = Ok (0, at_page w ys up ((g, i) :: low)).
Proof using Type.
  clear Hfuel Hn. intros Hw Hg. destruct (walk_page _ _ _ _ _ _ _ _ _ _ Hw) as (leaf & ns & p & rest & f & Hp & Hh & Hfrom & Hf & Hd & _ & _ & _ & Etop).
  rewrite bool_decide_eq_true_2 in Hd by done. set (s := at_page w ys up ((g, i) :: low)) in *.
  cbn [mdb_page_touch]. unfold touch_body. step Etop.
  assert (Ep : page_of (place psize ys g) s = Ok (p ++ rest, s)) by (unfold page_of; cbn [st_mem s]; by rewrite Hfrom). step Ep.
  pose proof (stable_MP_FLAGS p rest f Hf) as Hf'. step_lift Hf'.
  assert (Es : IS_SUBP (p ++ rest) = Ok (F_ISSET f P_SUBP)) by (unfold IS_SUBP; by rewrite Hf'). step_lift Es.
  step (eq_refl : txn s = Ok (st_txn s, s)). rewrite Hd. cbn [negb].
  destruct (re_lists _ _ _ _ _ _ _ _ _ _ _ (wk_ready _ _ _ _ _ _ _ _ Hw)) as (q & junk & El & _). cbn [st_txn s]. by rewrite El.
Qed.

Lemma walker_agree ys ys' path top :
  (∀ x, x ∈ path → place psize ys' x.1 = place psize ys x.1) → walker ys' path top rp rk = walker ys path top rp rk.
Proof using Type.
  clear Hfuel Hn. intros H. unfold CowLink.walker. f_equal. f_equal. f_equal. rewrite <-!list_fmap_compose. apply list_fmap_ext. intros i x Hx.
  by apply H, list_elem_of_lookup_2 with i.
Qed.

Lemma walker_set ys up g g' i low :
  set_mc_pg (walker ys (up ++ (g, i) :: low) (length up) rp rk)
    (<[length up := Some (place psize ys g')]> (mc_pg (walker ys (up ++ (g, i) :: low) (length up) rp rk)))
  = walker ys (up ++ (g', i) :: low) (length up) rp rk.
Proof using Type.
  clear Hfuel Hn. unfold CowLink.walker, set_mc_pg. cbn [mc_dbi mc_snum mc_top mc_flags mc_pg mc_ki]. f_equal; [by rewrite !length_app| |by rewrite !fmap_app].
  rewrite !fmap_app. cbn [fmap list_fmap fst]. rewrite <-!(assoc_L (++)). rewrite insert_app_r_alt by (rewrite !length_fmap; lia).
  by rewrite !length_fmap, Nat.sub_diag.
Qed.

(** After the allocation: the transaction sees the same pages, and the new one is there. *)
Lemma walk_alloc touch w V xs ys fs k up low :
  walk w V xs ys fs (S k) up low →
  ∃ rc np w', mdb_page_alloc fuel touch me_txns n (λ _, true) (got_for malloc w 1) w 1 = Ok (rc, np, w') ∧
    match np with
    | Some a => rc = 0 ∧ ∃ pgno xs', placed V VF w w' ys pgno a ∧ walk w' V xs' (dirtied ys pgno a) fs k up low
    | None => full w w' rc 1
    end.
Proof using Hfuel Hn Hmalloc HVF Hrs Hsort.
  intros [Hre Hps (root & Hdb & Hpath) [Ho Hd] Hbig Hoth Hup Hlen Hcur].
  destruct (alloc_ready fuel n me_txns malloc fdb rs answer V VF Hfuel Hn Hmalloc HVF Hrs Hsort touch w xs ys fs k Hre)
    as (rc & np & w' & E & Hout). exists rc, np, w'. split; [done|]. destruct np as [a|]; [|done].
  destruct Hout as (-> & pgno & xs' & Hpl & Hre'). split; [done|]. exists pgno, xs'. split; [done|].
  pose proof (pl_keeps _ _ _ _ _ _ _ Hpl) as Hk. destruct (pl_new _ _ _ _ _ _ _ Hpl) as (_ & Hnew & HVn & _).
  pose proof (dirtied_perm ys pgno a Hnew) as Hperm. constructor; try done.
  - by rewrite (kp_psize _ _ Hk).
  - exists root. by rewrite (kp_dbs _ _ Hk).
  - split; [done|]. intros leaf j ns p Hp Hh. destruct (Hd leaf j ns p Hp Hh) as (f & Ef & Hf). exists f. split; [done|]. rewrite Hf.
    apply bool_decide_ext. rewrite Hperm. cbn. rewrite elem_of_cons. split; [by right|]. intros [->|?]; [|done]. by rewrite HVn in Hp.
  - eapply Forall_impl; [exact Hup|]. intros x Hx. rewrite Hperm. by right.
  - by rewrite (kp_cursors _ _ Hk).
Qed.
(** A page is copied to the new page [pgno], at [a]. *)
Record new_at (w : Wr) (V : gmap Z page) (ys : list ID2) (pgno a : Z) : Prop := MkNewAt {
  fr_place : place psize ys pgno = InHeap a 0;
  fr_heap : ∃ b, heap (w_mem w) !! a = Some b ∧ Z.of_nat (length b) = psize;
  fr_new : V !! pgno = None ∧ VF !! pgno = None;
  fr_range : 0 ≤ pgno < mt_next_pgno (w_txn w) }.

Lemma new_dirty w V ys pgno a : new_at w V ys pgno a → pgno ∈ mid <$> ys ∧ a ∈ mptr <$> ys.
Proof using Type.
  clear Hfuel Hn. intros [Hp _ _ _]. destruct (place_cases psize ys pgno) as [(y & Hy & <- & E)|[_ E]]; rewrite E in Hp; [|done].
  injection Hp as <-. split; by apply list_elem_of_fmap_2.
Qed.

Lemma copy_walk w V xs ys fs k up g i low pgno a :
  walk w V xs ys fs k up ((g, i) :: low) → new_at w V ys pgno a →
  ∃ m dbs ls V', (touch_link pgno;; touch_copy (place psize ys g) a pgno) (at_page w ys up ((g, i) :: low))
      = Ok (0, at_page (edited w m dbs (mw_free_pgs (mt_w (w_txn w))) ls) ys up ((pgno, i) :: low)) ∧
    walk (edited w m dbs (mw_free_pgs (mt_w (w_txn w))) ls) V' xs ys fs k (up ++ [(pgno, i)]) low ∧ me_map m = me_map (w_mem w) ∧
    ∀ j, is_Some (V !! j) → is_Some (V' !! j).
Proof using Hdbi Hsub.
  clear Hfuel Hn. intros Hw Hfr. destruct (walk_page _ _ _ _ _ _ _ _ _ _ Hw) as (leaf & ns & p & rest & f & Hp & Hh & Hfrom & Hfl & Hd & Hlp & _ & Hg & _).
  destruct (new_dirty _ _ _ _ _ Hfr) as [Hpd Had]. destruct Hfr as [Hpl (b0 & Hb0 & Hlb0) [HVn HFn] Hr].
  pose proof Hw as [Hre Hps (root & Hdb & Hpath) Hpo (S & HS & HinS) Hoth Hup Hlen (lc & Hlc & Hplain)].
  destruct w as [m t]. cbn [w_mem w_txn] in *.
  pose proof (re_shows _ _ _ _ _ _ _ _ _ _ _ Hre) as [HV HF]. pose proof (re_dirty _ _ _ _ _ _ _ _ _ _ _ Hre) as (Has & _ & _).
  pose proof (re_heap _ _ _ _ _ _ _ _ _ _ _ Hre) as ((Hnd & _ & _)%NoDup_app & _ & _). cbn [w_mem w_txn] in *.
  pose proof (v_path_parent V cmp all lo hi bef es aft root up g i low ys Hpath Hup) as Hpar.
  destruct (link_at V psize dbi fl ys _ up g i low rp rk pgno eq_refl m t (mt_next_pgno t) _ HV Hps Has Hnd Hpar Hdb)
    as (m2 & dbs2 & pp' & Elink & [[Emap Epsz] Lfrom Lsome Lheap Lshows Lpar] & Edbs).
  set (t2 := with_dbs t dbs2) in *. set (c := CowLink.walker dbi fl psize ys (up ++ (g, i) :: low) (length up) rp rk) in *.
  assert (Npar : ∀ np j, last up = Some (np, j) → pgno ≠ np ∧ g ≠ np ∧ VF !! np = None ∧ is_Some (V !! np)).
  { intros np j E. destruct (Lpar np j E) as (q & bs & kk & b & Hq & _ & _ & _ & _ & Hne & _). split; [congruence|]. split; [done|].
    rewrite Forall_app, !Forall_forall in Hoth. split; [apply (proj1 Hoth (np, j)), last_Some_elem_of, E|by exists q]. }
  assert (Ha2 : heap m2 !! a = Some b0).
  { apply from_InHeap_inv. rewrite <-Hpl, Lfrom, Hpl; [by apply from_InHeap|]. intros np j E. by apply (Npar np j). }
  assert (Hf2 : from m2 (place psize ys g) = Ok (p ++ rest)) by (rewrite Lfrom; [done|]; intros np j E; by apply (Npar np j)).
  destruct (touch_copy_at a b0 m2 t2 c None None (place psize ys g) p rest leaf ns pgno) as (p' & Hcopy & Etouch); try done;
    [apply (re_modes _ _ _ _ _ _ _ _ _ _ _ Hre)|lia|by rewrite Hlp, Epsz|].
  set (m3 := with_heap m2 (<[a := p']> (heap m2))) in *.
  destruct (adjust_at (place psize ys g) (InHeap a 0) m3 t2 c (length up) lc p' leaf (Some (place psize ys g))) as (ls & Eadj & Els); try done.
  { rewrite length_app in Hlen. cbn in Hlen. lia. }
  { cbn [c mc_pg CowLink.walker]. rewrite lookup_app_l by (rewrite !length_fmap, length_app; cbn; lia).
    rewrite !list_lookup_fmap, lookup_app_r, Nat.sub_diag by lia. done. }
  { apply from_InHeap. apply lookup_insert_eq. }
  { by eapply page_IS_LEAF, Hcopy. }
  assert (Hok : cow_ok V g pgno p' up pp').
  { destruct (re_next _ _ _ _ _ _ _ _ _ _ _ Hre) as [Hnx _]. cbn [w_txn] in Hnx. constructor; [done|lia| | |].
    - exists p. split; [done|]. split; apply Hcopy.
    - intros np j E. destruct (Lpar np j E) as (q & bs & kk & b & _ & Ej & Hpg & Hb & Hbg & Hne & Hh' & Hbr & _). by exists bs, kk, b.
    - eapply big_ok_sub; [|exact HS]. intros x (y & -> & Hy)%list_elem_of_fmap. rewrite Forall_app, !Forall_forall in HinS. by apply (proj1 HinS). }
  assert (Hbut : but_at a m2 m3) by apply but_at_insert.
  assert (HF2 : shows m2 ys (mt_next_pgno t) VF).
  { intros j q Hq. destruct (HF j q Hq) as (Hj & r & E). split; [done|]. exists r. rewrite Epsz, Hps, Lfrom, <-Hps; [done|].
    intros np k' E' ->. destruct (Npar np k' E') as (_ & _ & H & _). by rewrite H in Hq. }
  assert (HV3 : shows m3 ys (mt_next_pgno t) (cow V pgno p' up pp')).
  { assert (H3 : shows m3 ys (mt_next_pgno t) (<[pgno := p']> (linked V up pp'))).
    { apply (shows_set m2 m3 ys (mt_next_pgno t) _ pgno a p' []); try done; [|by rewrite Epsz, Hps].
      rewrite app_nil_r. apply lookup_insert_eq. }
    unfold cow. unfold linked in H3. destruct (last up) as [[np j]|] eqn:E; [|done].
    rewrite insert_insert_ne; [done|]. destruct (Npar np j eq_refl) as (H & _). congruence. }
  exists m3, dbs2, ls, (cow V pgno p' up pp'). split; [|split].
  - step Elink. rewrite Etouch, Eadj. unfold c. rewrite <-Hpl. by rewrite walker_set.
  - destruct (v_path_page _ _ _ _ _ _ _ _ _ _ _ _ _ Hpath) as (leaf1 & ns1 & Hv). constructor; try done.
    + eapply ready_edited; [exact Hre| | | | | | | | |]; try done.
      * intros b Hb. unfold m3. cbn [heap with_heap]. destruct (decide (b = a)) as [->|]; [rewrite lookup_insert_eq; by eexists|].
        rewrite lookup_insert_ne by done. by apply Lsome.
      * intros b Hb. rewrite (proj2 (proj2 Hbut)) by (by intros ->). by apply Lheap.
      * by eapply set_cell_other.
      * apply (re_freed _ _ _ _ _ _ _ _ _ _ _ Hre).
      * apply (re_freed _ _ _ _ _ _ _ _ _ _ _ Hre).
      * eapply (shows_other m2 m3 ys _ VF pgno a); try done. by rewrite Epsz, Hps.
      * intros x Hx. destruct (re_fresh _ _ _ _ _ _ _ _ _ _ _ Hre x Hx) as (_ & Hxd & HxV & _).
        rewrite cow_other; [done|by intros ->|]. intros np j E ->. destruct (Npar np j E) as (_ & _ & _ & H). rewrite HxV in H. by destruct H.
    + cbn [w_mem edited]. change (me_psize m3) with (me_psize m2). by rewrite Epsz.
    + exists (cow_root root pgno up). rewrite <-(assoc_L (++)). split; [|by eapply cow_path].
      cbn [w_txn edited with_w with_dbs mt_dbs]. rewrite (set_cell_cell _ _ _ _ Edbs). by destruct up.
    + eapply cow_pages_ok; try done; [by exists leaf, ns|]. intros np j E.
      destruct (Lpar np j E) as (q & bs & kk & b & Hq & Ej & (q' & Hq' & Hhq & _) & Hb & Hbg & Hne & Hh' & Hbr & Hrest).
      rewrite Hq in Hq'. injection Hq' as <-. by exists q, bs, (<[kk := set_pgno b pgno]> bs).
    + exists (pgno :: S). split; [by eapply cow_big|]. rewrite <-(assoc_L (++)). cbn [app]. rewrite !Forall_app, !Forall_cons in *.
      destruct HinS as (H1 & _ & H2). split; [|split; [by apply elem_of_cons; left|]]; [eapply Forall_impl; [exact H1|]|eapply Forall_impl; [exact H2|]]; intros x Hx; apply elem_of_cons; by right.
    + rewrite <-(assoc_L (++)). cbn [app]. rewrite !Forall_app, !Forall_cons in *. naive_solver.
    + rewrite Forall_app, Forall_singleton. done.
    + rewrite <-(assoc_L (++)). rewrite length_app in *. done.
    + eexists. split; [exact (set_cell_cell _ _ _ _ Els)|].
      apply Forall_fmap. eapply Forall_impl; [exact Hplain|]. intros x. apply repoint_plain.
  - split; [done|]. intros j. apply cow_some.
Qed.

(** The list of the pages that become free. *)
Lemma walk_freed w V xs ys fs fs' k up low l :
  walk w V xs ys fs k up low → idl_holds l fs' → Z.of_nat (length fs' + k) < 2 ^ 30 → walk (set_free_pgs w l) V xs ys fs' k up low.
Proof using Type.
  clear Hfuel Hn. intros Hw Hl Hlen. pose proof (wk_ready _ _ _ _ _ _ _ _ Hw) as Hre.
  assert (Hre' : ready me_txns fdb rs answer V VF (set_free_pgs w l) xs ys fs' k).
  { apply (ready_edited me_txns fdb rs answer V V VF w xs ys fs fs' k (w_mem w) (mt_dbs (w_txn w)) l (mw_cursors (mt_w (w_txn w)))) in Hre; try done.
    - apply Hre.
    - apply Hre.
    - intros x Hx. by apply (re_fresh _ _ _ _ _ _ _ _ _ _ _ Hre). }
  destruct Hw. by constructor.
Qed.

(** [goto fail] *)
Lemma touch_fails_at rc m t c o x :
  ∃ t', touch_fails rc (MkSt m t c o x) = Ok (rc, MkSt m t' c o x) ∧ has_flag (mt_flags t') MDB_TXN_ERROR = true.
Proof using Type.
  clear Hfuel Hn. eexists. split; [done|]. cbn [mt_flags]. change MDB_TXN_ERROR with (2 ^ 1). rewrite has_flag_pow2 by done.
  unfold set_flag. rewrite Z.lor_spec. by rewrite orb_true_r.
Qed.

(** A transaction that has spilled no page. *)
Lemma unspill_none mp p rest dl bs s :
  mt_lists (st_txn s) = [(None, dl)] → page_of mp s = Ok (p ++ rest, s) → mread p 0 8 = Ok bs →
  mdb_page_unspill fuel malloc mp s = Ok (0, None, s).
Proof using Type.
  clear Hfuel Hn. intros Hl Hp Hr. unfold mdb_page_unspill. step Hp. step_lift (mread_app _ rest _ _ _ Hr).
  step (eq_refl : txn s = Ok (st_txn s, s)). rewrite Hl. by cbn.
Qed.

(** A page that no transaction in progress has changed: it is copied, or the file is full. *)
Lemma touch_clean_at d w V xs ys fs k up g i low :
  walk w V xs ys fs (S k) up ((g, i) :: low) → g ∉ mid <$> ys →
  ∃ rc w' c, touch (S d) (at_page w ys up ((g, i) :: low)) = Ok (rc, MkSt (w_mem w') (w_txn w') c None None) ∧
    (full w w' rc 1 ∨
     (rc = 0 ∧ ∃ pgno a V' xs', c = walker (dirtied ys pgno a) (up ++ (pgno, i) :: low) (length up) rp rk ∧
       walk w' V' xs' (dirtied ys pgno a) (fs ++ [g]) k (up ++ [(pgno, i)]) low ∧ pgno ∉ mid <$> ys ∧ V !! pgno = None ∧
       grown w w' 1 ∧ ∀ j, is_Some (V !! j) → is_Some (V' !! j))).
Proof using Hfuel Hn Hmalloc HVF Hrs Hsort Hdbi Hsub.
  intros Hw Hg. destruct (walk_page _ _ _ _ _ _ _ _ _ _ Hw) as (leaf & ns & p & rest & f & Hp & Hh & Hfrom & Hf & Hd & _ & Hrd & Hgr & Etop).
  rewrite bool_decide_eq_false_2 in Hd by done. set (s := at_page w ys up ((g, i) :: low)) in *.
  cbn [mdb_page_touch]. unfold touch_body. step Etop.
  assert (Ep : page_of (place psize ys g) s = Ok (p ++ rest, s)) by (unfold page_of; cbn [st_mem s]; by rewrite Hfrom). step Ep.
  pose proof (stable_MP_FLAGS p rest f Hf) as Hf'. step_lift Hf'.
  assert (Es : IS_SUBP (p ++ rest) = Ok (F_ISSET f P_SUBP)) by (unfold IS_SUBP; by rewrite Hf'). step_lift Es.
  step (eq_refl : txn s = Ok (st_txn s, s)). rewrite Hd. cbn [negb].
  pose proof (wk_ready _ _ _ _ _ _ _ _ Hw) as Hre. destruct (re_lists _ _ _ _ _ _ _ _ _ _ _ Hre) as (q & junk & El & _).
  set (A := on_wr _). assert (Eun : (if has_flag (mt_flags (st_txn s)) MDB_TXN_SPILLS then mdb_page_unspill fuel malloc (place psize ys g) else mret (0, None)) s = Ok (0, None, s)).
  { case_match; [|done]. by eapply unspill_none. }
  step Eun. change (negb (0 =? 0)) with false. cbv beta iota. unfold touch_clean.
  step (eq_refl : get_wr s = Ok (MkWr (w_mem w) (w_txn w), s)).
  destruct (re_freed _ _ _ _ _ _ _ _ _ _ _ Hre) as [Hfs Hfl].
  destruct (freed_spec _ _ g Hfs ltac:(lia)) as (l1 & b & Eneed & Hl1 & Eapp & Hl2). cbn [w_txn]. step_lift Eneed.
  change (negb (0 =? 0)) with false. cbv beta iota.
  set (w1 := set_free_pgs w l1). set (s1 := at_page w1 ys up ((g, i) :: low)).
  assert (Eput : put_wr (set_free_pgs (MkWr (w_mem w) (w_txn w)) l1) s = Ok (tt, s1)) by done. step Eput.
  assert (Hw1 : walk w1 V xs ys fs (S k) up ((g, i) :: low)) by (by apply (walk_freed w V xs ys fs)).
  destruct (walk_alloc (touch d) w1 V xs ys fs k up ((g, i) :: low) Hw1) as (rc & np & w2 & Ealloc & Hout).
  assert (EA : A s1 = Ok (rc, np, MkSt (w_mem w2) (w_txn w2) (st_mc s1) None None)).
  { unfold A, on_wr. change (MkWr (st_mem s1) (st_txn s1)) with w1. by rewrite Ealloc. }
  step EA. destruct np as [a|].
  2:{ destruct Hout as (-> & Herr & Hfull). destruct (touch_fails_at MDB_MAP_FULL (w_mem w2) (w_txn w2) (st_mc s1) None None) as (t' & Ef & Hflag).
      exists MDB_MAP_FULL, (MkWr (w_mem w2) t'), (st_mc s1). split; [exact Ef|]. by left. }
  destruct Hout as (-> & pgno & xs' & Hpl & Hw2). set (ys' := dirtied ys pgno a) in *.
  pose proof Hpl as [Hk Hbut (b0 & Hb0 & Hlb0 & Hrb0) (Ha & Hnew & HVn & HFn & Hrange) Hnext].
  pose proof (re_dirty _ _ _ _ _ _ _ _ _ _ _ Hre) as (Has & _ & _).
  destruct (walk_page _ _ _ _ _ _ _ _ _ _ Hw2) as (leaf2 & ns2 & p2 & rest2 & f2 & Hp2 & _ & Hfrom2 & _ & _ & _ & Hrd2 & Hgr2 & _).
  destruct (re_next _ _ _ _ _ _ _ _ _ _ _ (wk_ready _ _ _ _ _ _ _ _ Hw2)) as [Hnx _].
  assert (Hpg : place psize ys' g = place psize ys g).
  { unfold ys'. rewrite place_dirtied by done. rewrite decide_False; [done|]. congruence. }
  assert (Ec : st_mc s1 = walker ys' (up ++ (g, i) :: low) (length up) rp rk).
  { symmetry. apply walker_agree. intros x Hx. unfold ys'. rewrite place_dirtied by done. rewrite decide_False; [done|].
    intros E. destruct (wk_db _ _ _ _ _ _ _ _ Hw) as (root & _ & Hpath). destruct (v_path_in _ _ _ _ _ _ _ _ _ _ x Hpath Hx) as [px Hpx].
    rewrite E, HVn in Hpx. done. }
  rewrite Ec. set (s2 := at_page w2 ys' up ((g, i) :: low)).
  step (eq_refl : get_wr s2 = Ok (MkWr (w_mem w2) (w_txn w2), s2)).
  assert (Eptr : page_ptr (MkWr (w_mem w2) (w_txn w2)) a = InHeap a 0).
  { unfold page_ptr. destruct (re_modes _ _ _ _ _ _ _ _ _ _ _ (wk_ready _ _ _ _ _ _ _ _ Hw2)) as (_ & _ & Hm). 
    change (w_flags (MkWr (w_mem w2) (w_txn w2))) with (w_flags w2). by rewrite Hm. }
  rewrite Eptr.
  assert (Eb0 : page_of (InHeap a 0) s2 = Ok (b0, s2)) by (unfold page_of; cbn [st_mem s2]; by rewrite (from_InHeap _ _ _ Hb0)).
  step Eb0. step_lift Hrb0. rewrite <-Hpg.
  assert (Ep2 : page_of (place psize ys' g) s2 = Ok (p2 ++ rest2, s2)) by (unfold page_of; cbn [st_mem s2]; by rewrite Hfrom2).
  step Ep2. step_lift (mread_app _ rest2 _ _ _ Hrd2). rewrite !le_le_bytes by (cbn; lia).
  assert (Ene : c_assert (negb (g =? pgno)) = Ok tt) by (rewrite (proj2 (Z.eqb_neq _ _)); [done|congruence]). step_lift Ene.
  assert (Efr : mw_free_pgs (mt_w (w_txn (MkWr (w_mem w2) (w_txn w2)))) = l1).
  { cbn [w_txn]. by rewrite (kp_free _ _ Hk). }
  rewrite Efr. step_lift Eapp. set (l2 := MkIDL (Midl.room l1) b) in *.
  set (w3 := set_free_pgs w2 l2). set (s3 := at_page w3 ys' up ((g, i) :: low)).
  assert (Eput3 : put_wr (set_free_pgs (MkWr (w_mem w2) (w_txn w2)) l2) s2 = Ok (tt, s3)) by done. step Eput3.
  assert (Hw3 : walk w3 V xs' ys' (fs ++ [g]) k up ((g, i) :: low)).
  { apply (walk_freed w2 V xs' ys' fs); [done|done|]. rewrite length_app. cbn. lia. }
  assert (Hfr : new_at w3 V ys' pgno a).
  { constructor; [| |done|done].
    - unfold ys'. rewrite place_dirtied by done. by rewrite decide_True.
    - exists b0. split; [done|]. rewrite Hlb0. apply (wk_psize _ _ _ _ _ _ _ _ Hw1). }
  destruct (copy_walk w3 V xs' ys' (fs ++ [g]) k up g i low pgno a Hw3 Hfr) as (m4 & dbs4 & ls4 & V4 & E4 & Hw4 & Hmap4 & Hsome4).
  exists 0, (edited w3 m4 dbs4 (mw_free_pgs (mt_w (w_txn w3))) ls4), (walker ys' (up ++ (pgno, i) :: low) (length up) rp rk).
  split; [exact E4|]. right. split; [done|]. exists pgno, a, V4, xs'. do 4 (split; [done|]). split; [|done].
  destruct (proj2 Hnext) as (G1 & G2 & G3). split; [exact G1|]. split; [exact G2|]. cbn [w_mem edited]. by rewrite Hmap4.
Qed.
(** ** The whole path *)

(** The pages that are copied: the others are dirty already. *)
Definition clean (ys : list ID2) (l : list Z) : list Z := filter (λ g, g ∉ mid <$> ys) l.

Lemma clean_dirtied ys pgno a l : pgno ∉ mid <$> ys → pgno ∉ l → clean (dirtied ys pgno a) l = clean ys l.
Proof using Type.
  clear Hfuel Hn. intros Hp Hl. unfold clean. induction l as [|g l IH]; [done|]. apply not_elem_of_cons in Hl as [Ng Hl].
  rewrite !filter_cons, (IH Hl). apply decide_ext. rewrite (dirtied_perm ys pgno a Hp). cbn. rewrite elem_of_cons. naive_solver.
Qed.

(** A page of the path and what is there afterwards. *)
Definition touched (V : gmap Z page) (ys : list ID2) (x y : Z * Z) : Prop :=
  y.2 = x.2 ∧ (x.1 ∈ mid <$> ys ∧ y.1 = x.1 ∨ x.1 ∉ mid <$> ys ∧ V !! y.1 = None).

Lemma walk_shift w V xs ys fs k up x low : walk w V xs ys fs k up (x :: low) → x.1 ∈ mid <$> ys → walk w V xs ys fs k (up ++ [x]) low.
Proof using Type.
  clear Hfuel Hn. intros [] Hx. assert (E : (up ++ [x]) ++ low = up ++ x :: low) by (by rewrite <-(assoc_L (++))). constructor; rewrite ?E; try done.
  rewrite Forall_app, Forall_singleton. done.
Qed.

(** One page of the path, whether it is dirty or not. *)
Lemma touch_at d w V xs ys fs k up g i low :
  walk w V xs ys fs (S k) up ((g, i) :: low) →
  ∃ rc w' c, touch (S d) (at_page w ys up ((g, i) :: low)) = Ok (rc, MkSt (w_mem w') (w_txn w') c None None) ∧
    (full w w' rc 1 ∨
     (rc = 0 ∧ ∃ g' V' xs' ys' k', c = walker ys' (up ++ (g', i) :: low) (length up) rp rk ∧ (k ≤ k')%nat ∧
       walk w' V' xs' ys' (fs ++ clean ys [g]) k' (up ++ [(g', i)]) low ∧ touched V ys (g, i) (g', i) ∧
       clean ys' low.*1 = clean ys low.*1 ∧ (∀ x y, x ∈ low → touched V' ys' x y → touched V ys x y) ∧
       grown w w' 1)).
Proof using Hfuel Hn Hmalloc HVF Hrs Hsort Hdbi Hsub.
  intros Hw. destruct (decide (g ∈ mid <$> ys)) as [Hg|Hg].
  - exists 0, w, (walker ys (up ++ (g, i) :: low) (length up) rp rk). split; [by eapply touch_dirty|]. right. split; [done|].
    exists g, V, xs, ys, (S k). split; [done|]. split; [lia|]. unfold clean at 1. rewrite filter_cons, decide_False by (intros H; by apply H).
    cbn [filter list_filter]. rewrite app_nil_r. split; [by apply walk_shift|]. split; [split; [done|by left]|]. split; [done|]. split; [done|]. split; [done|]. split; [lia|done].
  - destruct (touch_clean_at d w V xs ys fs k up g i low Hw Hg) as (rc & w' & c & E & Hout). exists rc, w', c. split; [done|].
    destruct Hout as [?|(-> & pgno & a & V' & xs' & Ec & Hw' & Hnew & HVn & Hmap & Hsome)]; [by left|]. right. split; [done|].
    assert (Hlow : ∀ x, x ∈ low → x.1 ≠ pgno).
    { intros x Hx E1. destruct (wk_db _ _ _ _ _ _ _ _ Hw) as (root & _ & Hpath).
      destruct (v_path_in _ _ _ _ _ _ _ _ _ _ x Hpath) as [px Hpx]; [set_solver|]. by rewrite E1, HVn in Hpx. }
    exists pgno, V', xs', (dirtied ys pgno a), k. split; [done|]. split; [done|]. unfold clean at 1. rewrite filter_cons, decide_True by done.
    split; [exact Hw'|]. split; [split; [done|by right]|]. split.
    + apply clean_dirtied; [done|]. intros (x & E1 & Hx)%list_elem_of_fmap. by apply (Hlow x).
    + split; [|done]. intros x y Hx [Hi Hc]. split; [done|]. rewrite (dirtied_perm ys pgno a Hnew) in Hc. cbn in Hc. rewrite elem_of_cons in Hc.
      specialize (Hlow x Hx). assert (V' !! y.1 = None → V !! y.1 = None).
      { intros H. destruct (V !! y.1) eqn:Ey; [|done]. destruct (Hsome y.1) as [? H']; [by eexists|]. by rewrite H in H'. }
      naive_solver.
Qed.
(** All of the path below [up]. *)
Lemma touch_stack_at d low : ∀ w V xs ys fs k up r,
  walk w V xs ys fs k up low → low ≠ [] → (length low ≤ k)%nat → (length low ≤ r)%nat →
  ∃ rc w' c, touch_stack (touch (S d)) r (at_page w ys up low) = Ok (rc, MkSt (w_mem w') (w_txn w') c None None) ∧
    (full w w' rc (Z.of_nat (length low)) ∨
     (rc = 0 ∧ ∃ low' V' xs' ys' k', c = walker ys' (up ++ low') (length (up ++ low')) rp rk ∧
       walk w' V' xs' ys' (fs ++ clean ys low.*1) k' (up ++ low') [] ∧ Forall2 (touched V ys) low low' ∧
       grown w w' (Z.of_nat (length low)))).
Proof using Hfuel Hn Hmalloc HVF Hrs Hsort Hdbi Hsub.
  induction low as [|[g i] low IH]; intros w V xs ys fs k up r Hw H0 Hk Hr; [done|]. clear H0.
  destruct r as [|r]; [cbn in Hr; lia|]. destruct k as [|k]; [cbn in Hk; lia|]. cbn [length] in Hk, Hr. cbn [touch_stack].
  destruct (touch_at d w V xs ys fs k up g i low Hw) as (rc & w' & c & E & Hout). step E.
  destruct Hout as [(-> & Herr & Hfull)|(-> & g' & V' & xs' & ys' & k' & -> & Hk' & Hw' & Ht & Ecl & Htr & (G1 & G2 & G3))].
  - exists MDB_MAP_FULL, w', c. change (negb (MDB_MAP_FULL =? 0)) with true. split; [done|]. left. split; [done|]. split; [done|]. cbn [length]. lia.
  - change (negb (0 =? 0)) with false. cbv beta iota.
    set (s1 := MkSt (w_mem w') (w_txn w') (walker ys' (up ++ (g', i) :: low) (length up) rp rk) None None).
    step (eq_refl : mc s1 = Ok (st_mc s1, s1)). set (s2 := at_page w' ys' (up ++ [(g', i)]) low).
    assert (Eput : put_mc (set_snum_top (st_mc s1) (mc_snum (st_mc s1)) (mc_top (st_mc s1) + 1)) s1 = Ok (tt, s2)).
    { unfold s2. cbn [st_mc s1]. unfold put_mc, set_snum_top, CowLink.walker. cbn [mc_dbi mc_snum mc_top mc_flags mc_pg mc_ki].
      pose proof (wk_length _ _ _ _ _ _ _ _ Hw') as Hlen. rewrite <-(assoc_L (++)) in Hlen. cbn [app] in Hlen.
      rewrite <-(assoc_L (++)), (length_app up [_]). cbn [app length]. rewrite length_app in Hlen. cbn [length] in Hlen.
      do 5 f_equal; rewrite u16_small by (rewrite ?length_app; cbn [length]; lia); lia. }
    step Eput. step (eq_refl : mc s2 = Ok (st_mc s2, s2)). cbn [st_mc s2 CowLink.walker mc_top mc_snum].
    assert (Hsplit : clean ys (g :: low.*1) = clean ys [g] ++ clean ys low.*1).
    { unfold clean. by rewrite <-filter_app. }
    destruct low as [|x low].
    + rewrite app_nil_r, Z.ltb_irrefl. exists 0, w', (walker ys' (up ++ [(g', i)]) (length (up ++ [(g', i)])) rp rk).
      split; [unfold s2; by rewrite app_nil_r|]. right. split; [done|]. exists [(g', i)], V', xs', ys', k'. split; [done|].
      split; [exact Hw'|]. split; [by constructor|]. split; [done|]. split; [cbn [length]; lia|done].
    + rewrite (proj2 (Z.ltb_lt _ _)) by (rewrite (length_app (up ++ _)); cbn [length]; lia).
      destruct (IH w' V' xs' ys' (fs ++ clean ys [g]) k' (up ++ [(g', i)]) r Hw') as (rc & w2 & c2 & E2 & Hout2); [done|lia|lia|].
      exists rc, w2, c2. split; [exact E2|]. destruct Hout2 as [(F1 & F2 & F3)|(-> & low' & V2 & xs2 & ys2 & k2 & Ec & Hw2 & Ht2 & (H1 & H2 & H3))].
      { left. split; [done|]. split; [done|]. rewrite G1 in F3. cbn [length] in *. lia. }
      right. split; [done|]. rewrite <-!(assoc_L (++)) in Ec, Hw2. rewrite Ecl in Hw2. exists ((g', i) :: low'), V2, xs2, ys2, k2. split; [exact Ec|].
      change (((g, i) :: x :: low).*1) with (g :: (x :: low).*1). rewrite Hsplit, (assoc_L (++)). split; [exact Hw2|].
      split; [|split; [congruence|split; [cbn [length] in *; lia|congruence]]].
      constructor; [done|]. apply Forall2_same_length_lookup_2; [by eapply Forall2_length|]. intros j y z Hy Hz.
      apply Htr; [by eapply list_elem_of_lookup_2|]. by eapply Forall2_lookup_lr.
Qed.
End walk.
