(* ===== verification/CowProps.v ===== *)
(** * Copy on write in LMDB keeps the entries

    [mdb_cursor_touch] on a cursor that is at a leaf: the pages of its path are those of
    the transaction afterwards, in a tree of the same entries; the pages that were copied
    are in the list of freed pages, and what is in the file stays. *)

From stdpp Require Import sorting.
From S2P Require Import Prelude.
From S2P Require Import Lmdb Midl Page PageProps PageMore Meta MetaProps Readers Tree TreeProps Cursor CursorProps CursorSpec Reads Flush FlushProps Snap Nest NestLists Alloc FreeDb AllocProps.
From S2P Require Import Touch CowPages CowTree CowMem CowStep CowAlloc CowLink CowPath CowWalk.

(** The record of the database was touched before in the transaction, or is not a record of
    the main database. *)
Definition record_touched (t : MDB_txn) (dbi : Z) : Prop :=
  dbi < CORE_DBS ∨ ∃ f, cell (mt_dbflags t) dbi = Ok f ∧ Z.land f (Z.lor DB_DIRTY DB_DUPDATA) ≠ 0.

(** The cursor that was on [path] is on [path'], whose pages are all dirty, in the tree of
    [root']; the pages that were not are copied, and their numbers are free. *)
Record path_copied (fuel : nat) (cmp : MDB_cmp_func) `{!KeyOrder cmp} (dbi : Z) (db0 : MDB_db) (all : entries)
    (lo hi : option bytes) (bef es aft : entries) (psize fl : Z) (rp : list (option Ptr)) (rk : block)
    (V : gmap Z page) (w : Wr) (ys : list ID2) (fs : list Z)
    (path : list (Z * Z)) (w' : Wr) (c' : MDB_cursor) : Prop := MkCopied {
  pc_path : ∃ ys' q junk stk k j root',
    mt_lists (w_txn w') = [(None, mid2l_cells q ys' junk)] ∧
    c' = walker dbi fl psize ys' (stk ++ [(k, j)]) (length path - 1) rp rk ∧
    cell (mt_dbs (w_txn w')) dbi = Ok (set_root db0 root') ∧
    spine fuel (w_mem w') (w_txn w') cmp root' all ((λ x, (place psize ys' x.1, x.2)) <$> stk) 0 k lo hi bef es aft ∧
    Forall (λ x, x.1 ∈ mid <$> ys') (stk ++ [(k, j)]) ∧
    Forall2 (touched V ys) path (stk ++ [(k, j)]);
  pc_freed : idl_holds (mw_free_pgs (mt_w (w_txn w'))) (fs ++ clean ys path.*1);
  pc_grown : grown w w' (Z.of_nat (length path)) }.

(** C13.  [mdb_cursor_touch], for a cursor on a path from the root of a database to a leaf, in
    a transaction that has memory and room in its lists: it returns 0 or [MDB_MAP_FULL].
    If it returns [MDB_MAP_FULL], the file could not take one page for each page of the
    path, and the transaction is blocked.  Otherwise the cursor is on a path of as many
    pages at the same indices, which are all dirty pages of the transaction, and leads to
    the same entries of a tree that has the same entries as before, from the new root that
    the record of the database has; a page that was dirty stayed, another one was replaced
    by a page of a number that the database did not have; the numbers of the pages that
    were replaced, and no others, were added to the list of freed pages, in the order of
    the path; and the file itself did not change. *)
Theorem cursor_touch_copies fuel n me_txns malloc fdb rs answer VF cmp `{!KeyOrder cmp} dbi db0 all lo hi bef es aft psize fl rp rk d
    w V xs ys fs k path top :
  (33 ≤ fuel)%nat → (length rs < n)%nat → mallocs malloc → version VF Cmp_long fdb (entry_of <$> rs) →
  Forall (λ r, record_ok r ∧ 0 < r.1 < 2 ^ 64 - 1) rs → StronglySorted (λ r r' : record, r.1 < r'.1) rs →
  dbi ≠ FREE_DBI → has_flag fl C_SUB = false → record_touched (w_txn w) dbi →
  walk me_txns fdb rs answer VF cmp dbi db0 all lo hi bef es aft psize w V xs ys fs k [] path →
  path ≠ [] → (length path ≤ k)%nat →
  ∃ rc w' c', mdb_cursor_touch fuel n me_txns (λ _, true) malloc (S d)
      (MkSt (w_mem w) (w_txn w) (walker dbi fl psize ys path top rp rk) None None)
      = Ok (rc, MkSt (w_mem w') (w_txn w') c' None None) ∧
    (full w w' rc (Z.of_nat (length path)) ∨
     rc = 0 ∧ path_copied fuel cmp dbi db0 all lo hi bef es aft psize fl rp rk V w ys fs path w' c').
Proof.
  intros Hfuel Hn Hm HVF Hrs Hsort Hdbi Hsub Hrec Hw Hne Hk. unfold mdb_cursor_touch.
  set (s := MkSt (w_mem w) (w_txn w) (walker dbi fl psize ys path top rp rk) None None).
  step (eq_refl : mc s = Ok (st_mc s, s)).
  set (first := if mc_dbi (st_mc s) <? CORE_DBS then mret 0 else _). assert (E1 : first s = Ok (0, s)).
  { unfold first. change (mc_dbi (st_mc s)) with dbi. destruct (Z.ltb_spec dbi CORE_DBS) as [|Hge]; [done|].
    destruct Hrec as [|(f & Ef & Hf)]; [lia|].
    assert (Ed : mc_dbflag s = Ok (f, s)) by (by apply (lift_Ok (cell (mt_dbflags (w_txn w)) dbi))). step Ed.
    by rewrite (proj2 (Z.eqb_neq _ _) Hf). }
  step E1. change (negb (0 =? 0)) with false. cbv beta iota. step (eq_refl : mc s = Ok (st_mc s, s)).
  pose proof Hw as [_ _ _ _ _ _ _ Hlen _]. cbn [app] in Hlen.
  assert (Hpos : (0 < length path)%nat) by (destruct path; [done|cbn; lia]).
  set (s0 := MkSt (w_mem w) (w_txn w) (walker dbi fl psize ys path 0 rp rk) None None).
  assert (E2 : put_mc (set_snum_top (st_mc s) (mc_snum (st_mc s)) 0) s = Ok (tt, s0)).
  { unfold put_mc, set_snum_top. cbn [st_mc s walker mc_dbi mc_snum mc_top mc_flags mc_pg mc_ki]. by rewrite !u16_small by lia. }
  step E2. cbn [st_mc s walker mc_snum]. rewrite (proj2 (Z.eqb_neq (Z.of_nat (length path)) 0)) by lia. rewrite Nat2Z.id.
  destruct (touch_stack_at fuel n me_txns malloc fdb rs answer VF Hfuel Hn Hm HVF Hrs Hsort cmp dbi db0 all lo hi bef es aft psize fl rp rk
    Hdbi Hsub d path w V xs ys fs k [] (length path) Hw Hne Hk ltac:(lia)) as (rc & w' & c & E & Hout).
  step (E : _ s0 = _). set (s1 := MkSt (w_mem w') (w_txn w') c None None). step (eq_refl : mc s1 = Ok (c, s1)).
  eexists rc, w', _. split; [done|]. destruct Hout as [?|(-> & path' & V' & xs' & ys' & k' & -> & Hw' & Ht & Hg)]; [by left|]. right. split; [done|].
  pose proof (Forall2_length _ _ _ Ht) as Elen. cbn [app] in *. 
  destruct Hw' as [Hre Eps (root' & Hroot & (stk & kk & j & Epath & Hspine)) _ _ _ Hup _ _]. rewrite app_nil_r in Epath.
  destruct (re_lists _ _ _ _ _ _ _ _ _ _ _ Hre) as (q & junk & El & _). destruct (re_shows _ _ _ _ _ _ _ _ _ _ _ Hre) as [HV' _].
  constructor; [|apply (re_freed _ _ _ _ _ _ _ _ _ _ _ Hre)|done].
  exists ys', q, junk, stk, kk, j, root'. subst path'. split; [done|]. split; [|split; [done|split; [|by split]]].
  - unfold set_snum_top, walker. cbn [mc_dbi mc_snum mc_top mc_flags mc_pg mc_ki]. rewrite <-Elen, !u16_small by lia. f_equal. lia.
  - apply (v_spine_at V' cmp fuel _ _ (place psize ys')); [|done]. intros i p Hp. rewrite <-Eps. split.
    + by eapply ready_found; [| |exact HV'|exists p].
    + by destruct (HV' i p Hp) as [_ Hfrom].
Qed.

Module Example.
Import Reads.Example.

(** The tree of Reads.v, whose pages are the file from page 2 on. *)
Definition p2 : page := page_of_nodes 2 P_BRANCH 46 root.
Definition p3 : page := page_of_nodes 3 P_LEAF 44 leaf_1.
Definition p4 : page := page_of_nodes 4 P_LEAF 44 leaf_2.
Definition V : gmap Z page := <[2 := p2]> (<[3 := p3]> {[ 4 := p4 ]}).

(** Memory behind all that is in use. *)
Definition malloc (h : gmap Z page) (sz : Z) : option (Z * page) :=
  Some (1 + foldr Z.max 0 (map_to_list h).*1, replicate (Z.to_nat sz) 0).

Lemma max_above l x : x ∈ l → x ≤ foldr Z.max 0 l.
Proof. induction l as [|y l IH]; [by intros []%not_elem_of_nil|]. cbn. intros [->|Hx]%elem_of_cons; [lia|]. specialize (IH Hx). lia. Defined.

Lemma malloc_ok : mallocs malloc.
Proof.
  intros h sz Hsz. eexists _, _. split; [done|]. split; [|rewrite length_replicate; lia].
  apply eq_None_not_Some. intros [p Hp]. apply elem_of_map_to_list, (list_elem_of_fmap_2 fst), max_above in Hp. cbn [fst] in Hp. lia.
Defined.

(** A write transaction that has not changed a page, with a cursor at the key 99. *)
Definition path : list (Z * Z) := [(2, 1); (4, 0)].
Definition c : MDB_cursor := walker 1 C_INITIALIZED 64 [] path 1 (replicate 30 None) (replicate 30 (Some 0)).
Definition fdb : MDB_db := MkDb 64 8 0 0 0 0 0 P_INVALID.
Definition t : MDB_txn :=
  MkTxn 0 5 [(None, mid2l_cells 0 [] [None; None])] [fdb; db] [MkDbx (MkVal 0 []) (Some Cmp_long) None; MkDbx (MkVal 0 []) (Some Cmp_memn) None]
    (replicate 2 (Z.lor DB_VALID DB_USRVALID)) [0; 0] [0; 0]
    (MkWtx 9 40 [] 0 (MkIDL 2 [Some 0; None; None]) [[]; [Some (c, None)]] None 0 1 100 0 0 []).
Definition w : Wr := MkWr m t.

Lemma page_cases k p : V !! k = Some p → k = 2 ∧ p = p2 ∨ k = 3 ∧ p = p3 ∨ k = 4 ∧ p = p4.
Proof.
  unfold V. intros [(<- & <-)|(_ & H)]%lookup_insert_Some; [by left|]. right.
  apply lookup_insert_Some in H as [(<- & <-)|(_ & H)]; [by left|]. right. by apply lookup_singleton_Some in H as [<- <-].
Defined.

Lemma holds_page leaf pgno fl upper ns : head_ok (MkHead (pgno :: replicate 9 0) fl (16 + 2 * Z.of_nat (length ns)) upper) →
  F_ISSET fl P_LEAF = leaf → F_ISSET fl P_LEAF2 = false → 16 + 2 * Z.of_nat (length ns) ≤ upper →
  upper + Z.of_nat (length (body ns)) < 65536 → Forall (node_ok leaf) ns →
  holds leaf (page_of_nodes pgno fl upper ns) ns.
Proof.
  intros Hh H1 H2 Hu He Hn. eexists _, _, _, ns. split; [|split; [reflexivity|apply layout_snd]].
  split; cbn [h_flags h_lower h_upper]; try done.
  - by rewrite length_layout.
  - rewrite length_replicate. lia.
Defined.

Ltac ok16 := split; unfold u16_ok; vm_compute; (reflexivity || split; (discriminate || reflexivity)).

Lemma holds_2 : holds false p2 root.
Proof. apply holds_page; [ok16|done|done|by vm_compute|by vm_compute|]. repeat (constructor; [ok16|]). constructor. Defined.
Lemma holds_3 : holds true p3 leaf_1.
Proof. apply holds_page; [ok16|done|done|by vm_compute|by vm_compute|]. repeat (constructor; [ok16|]). constructor. Defined.
Lemma holds_4 : holds true p4 leaf_2.
Proof. apply holds_page; [ok16|done|done|by vm_compute|by vm_compute|]. repeat (constructor; [ok16|]). constructor. Defined.

Lemma v_2 : v_page V false 2 root.
Proof. exists p2. split; [apply lookup_insert_eq|]. split; [exact holds_2|by vm_compute]. Defined.
Lemma v_3 : v_page V true 3 leaf_1.
Proof. exists p3. split; [done|]. split; [exact holds_3|by vm_compute]. Defined.
Lemma v_4 : v_page V true 4 leaf_2.
Proof. exists p4. split; [done|]. split; [exact holds_4|by vm_compute]. Defined.

Definition left_es : entries := [([97], [1]); ([98], [2])].
Definition right_es : entries := [([99], [3]); ([100], [4])].

Lemma v_root : v_branch V Cmp_memn 0 2 None None root [left_es; right_es].
Proof.
  split; [exact v_2|]. split; [cbn; lia|]. split; [done|]. split; [by apply ascending_root|].
  intros [|[|i]] b e Hb He; [..|done]; injection Hb as <-; injection He as <-.
  - split; [by repeat constructor|]. exists leaf_1. split_and!; [exact v_3|by repeat constructor|done|by apply ascending_2].
  - split; [by repeat constructor|]. exists leaf_2. split_and!; [exact v_4|by repeat constructor|done|by apply ascending_2].
Defined.

Lemma v_path_c : v_path V Cmp_memn all (Some [99]) None left_es right_es [] 2 path.
Proof.
  exists [(2, 1)], 4, 0. split; [done|].
  apply (v_spine_snoc V Cmp_memn 2 all [] 0 2 None None [] [] root [left_es; right_es] 1 (Node 4 0 0 1 [99; 0]) right_es); [|exact v_root|done|done].
  constructor. split; [by repeat constructor|]. destruct v_root as (H1 & H2 & H3 & H4 & H5). by exists root, [left_es; right_es].
Defined.

Lemma walk_c : walk None fdb [] 8 ∅ Cmp_memn 1 db all (Some [99]) None left_es right_es [] 64
  w V [] [] [] 2 [] path.
Proof.
  constructor.
  - constructor.
    + exists 0, [None; None]. done.
    + done.
    + split; [constructor|]. split; [constructor|]. by vm_compute.
    + split; [constructor|]. split; constructor.
    + done.
    + split; [|by vm_compute]. split; try done; eexists; by split.
    + split; [done|]. split; [cbn; lia|]. split; [constructor|]. split; [constructor|]. split; [constructor|cbn; lia].
    + intros x []%not_elem_of_nil.
    + cbn. lia.
    + cbn. lia.
    + done.
    + split; [by exists [None; None]|cbn; lia].
    + split; [|intros k p Hp; by rewrite lookup_empty in Hp].
      intros k p Hp. assert (Hk : 2 ≤ k < 5) by (destruct (page_cases k p Hp) as [(-> & _)|[(-> & _)|(-> & _)]]; lia).
      split; [cbn; lia|]. exists (drop (Z.to_nat (64 * (k + 1))) map).
      destruct (page_cases k p Hp) as [(-> & ->)|[(-> & ->)|(-> & ->)]]; by vm_compute.
  - done.
  - exists 2. split; [done|exact v_path_c].
  - split; intros leaf k ns p Hp _; destruct (page_cases k p Hp) as [(-> & ->)|[(-> & ->)|(-> & ->)]]; try (split; by vm_compute);
      (eexists; split; [vm_compute; reflexivity|by vm_compute]).
  - exists [2; 4]. split; [|by repeat constructor]. intros k ns nd (p & Hp & Hh & _) Hnd Hf.
    destruct (page_cases k p Hp) as [(-> & ->)|[(-> & ->)|(-> & ->)]].
    + by pose proof (holds_leaf _ _ _ _ _ Hh holds_2).
    + rewrite (holds_inj _ _ _ _ Hh holds_3) in Hnd. unfold leaf_1 in Hnd. rewrite !elem_of_cons, elem_of_nil in Hnd. by destruct Hnd as [->|[->|[]]].
    + rewrite (holds_inj _ _ _ _ Hh holds_4) in Hnd. unfold leaf_2 in Hnd. rewrite !elem_of_cons, elem_of_nil in Hnd. by destruct Hnd as [->|[->|[]]].
  - repeat constructor.
  - constructor.
  - cbn. lia.
  - exists [Some (c, None)]. split; [done|]. by repeat constructor.
Defined.
(** The root and the leaf are copied to the pages 5 and 6. *)
Lemma cursor_touch_copies_witness :
  ∃ w' c', mdb_cursor_touch 40 1 None (λ _, true) malloc 2 (MkSt m t c None None) = Ok (0, MkSt (w_mem w') (w_txn w') c' None None) ∧
    cell (mt_dbs (w_txn w')) 1 = Ok (set_root db 5) ∧ idl_holds (mw_free_pgs (mt_w (w_txn w'))) [2; 4] ∧ me_map (w_mem w') = map.
Proof.
  destruct (cursor_touch_copies 40 1 None malloc fdb [] 8 ∅ Cmp_memn 1 db all (Some [99]) None left_es right_es [] 64 C_INITIALIZED
    (replicate 30 None) (replicate 30 (Some 0)) 1 w V [] [] [] 2 path 1) as (rc & w' & c' & E & [(_ & _ & F)|(-> & [_ Hf Hg])]);
    [lia|cbn; lia|exact malloc_ok|by left|done|constructor|done|by vm_compute|by left|exact walk_c|done|done|cbn in F; lia|].
  exists w', c'. split; [exact E|]. split; [|split; [exact Hf|apply Hg]].
  assert (Er : (λ r, match r with Ok (_, s) => cell (mt_dbs (st_txn s)) 1 | _ => UB end)
    (mdb_cursor_touch 40 1 None (λ _, true) malloc 2 (MkSt m t c None None)) = Ok (set_root db 5)) by (vm_compute; reflexivity).
  rewrite (E : mdb_cursor_touch 40 1 None (λ _, true) malloc 2 (MkSt m t c None None) = _) in Er. exact Er.
Defined.
End Example.
